(* ===== verification/_CoqProject ===== *)
-Q . S2P
Prelude.v
FlashCache.v
Crc.v
Bootloader.v
BootloaderSafety.v
BootloaderUpload.v
BootloaderLimits.v
BootFlow.v
Px4io.v
Px4ioRegs.v
Px4ioSerial.v
Px4ioLink.v
Float32.v
PwmLimit.v
Px4ioMixer.v
Px4ioOutput.v
Px4ioFailsafe.v
MixerText.v
SimpleMixer.v
MultirotorMixer.v
HelicopterMixer.v
MixerGroup.v
MixerRoundtrip.v
MixerOutputs.v
RcBuffer.v
Sbus.v
SbusLink.v
St24.v
Sumd.v
Dsm.v
RcStream.v
Crsf.v
Ghst.v
Px4ioControls.v
Px4ioRc.v
Px4ioRcLoss.v
Px4ioRcMap.v
Px4ioMain.v
Px4ioFirmware.v
Px4ioSafety.v
Px4ioMixerFailsafe.v
Hysteresis.v
EsoVector.v
EsoTakeoff.v
EsoPosition.v
EsoPositionSafety.v
EsoPosModule.v
EsoAttitude.v
EsoRate.v
EsoSafety.v
ArmJointBridge.v
ArmKinematics.v
ArmDynamics.v
ArmAuth.v
Commander.v
ManualControl.v
ArmCommand.v
CommanderArming.v
CommanderNav.v
CommanderFailsafe.v
LandDetector.v
LandSafety.v
FailureDetector.v
PreflightChecks.v
Dataman.v
DatamanStore.v
DatamanTask.v
