(* ===== verification/Prelude.v ===== *)
(** * A verified model of the P600 flight stack's safety-critical C code

    The repository is the firmware of the P600 aerial manipulator: a PX4
    autopilot for the codev DP1000 board (STM32H7) with an optional PX4IO
    coprocessor that drives the motors.  Paths below are relative to the root of
    the repository.  This library models the parts of it that decide whether the
    vehicle runs the right program, arms, keeps flying and stops, and proves what
    makes them correct.

    ** The program and its parts

    1. The bootloader (platforms/nuttx/src/bootloader) is what runs first.  It
       receives a program over USB or a UART, writes it through a two-line write
       cache into the flash, checks its signature and jumps to it.
    2. The commander (src/modules/commander) decides on the flight controller
       whether the vehicle may arm and, many times a second, in which navigation
       state it flies given what is lost and what has failed.  The land detector
       (src/modules/land_detector) tells it whether the vehicle has landed, its
       failure detector what has failed and its ManualControl what the pilot's
       sticks and switches ask for.  The data manager (src/modules/dataman) keeps the
       missions, the geofence and the safe points through restarts.
    3. The controllers of the fork (src/modules/eso_pos_control, eso_att_control,
       eso_rate_control) replace PX4's: a position loop with an extended state
       observer and a take-off machine publishes an attitude and a thrust, the
       attitude loop makes rates of them, the rate loop torque and throttle.
    4. The FMU's PX4IO driver (src/drivers/px4io/px4io_serial.cpp and
       platforms/nuttx/src/px4/stm/stm32h7/px4io_serial) sends register reads
       and writes to the coprocessor over a serial line.
    5. The coprocessor (src/modules/px4iofirmware) answers them from an interrupt
       (serial.c, registers.c) while its main loop (px4io.c) mixes and sends the
       outputs (mixer.cpp, with src/lib/mixer and src/lib/output_limit) and reads
       the RC receivers (controls.c, with the decoders of src/lib/rc) and the
       safety button (safety.c).

    ** The files

    - [Prelude]: machine integers, flag words, arrays, reachability ([star]) and
      the automation shared by all files.  [Float32]: C's float, by the
      executable IEEE 754 specification of the Standard Library, with the lemmas on
      comparisons and NaN.

    Bootloader
    - [FlashCache]: common/lib/flash_cache.c and the flash helpers of
      stm32_common/main.c.  The flash driver is a record of operations with its
      documented laws (class ProgmemLaws).
    - [Crc]: the checksums of bl.c, crc.c and PX4IO's protocol.h.
    - [Bootloader]: bl.c, the command loop with its receive buffer, as a monad
      over an environment of polls; [BootloaderSafety], [BootloaderUpload],
      [BootloaderLimits]: its theorems.
    - [BootFlow]: image_toc.c, crypto.c, the jump and the decision to boot.

    PX4IO
    - [Px4io]: the register pages, their initial contents and the shared state
      ([io]); [Px4ioRegs]: registers.c.
    - [Px4ioSerial]: the packets, serial.c on PX4IO and both layers of the FMU's
      driver; [Px4ioLink]: the two ends over a faulty line.
    - [PwmLimit]: output_limit.cpp.  [Px4ioMixer]: mixer.cpp ([mixer_tick]), over
      any mixers (the record mixer_ops with the class MixerLaws).
      [Px4ioOutput], [Px4ioFailsafe]: what a pass sends to the servos.
    - The mixers themselves, src/lib/mixer: [MixerText] (the text format),
      [SimpleMixer], [MultirotorMixer], [HelicopterMixer] and [MixerGroup], which is
      an instance of mixer_ops; [MixerRoundtrip] and [MixerOutputs]: their theorems.
    - [RcBuffer]: the memory the RC decoders share (common_rc.h); [Sbus] and
      [SbusLink]: sbus.cpp; [St24]: st24.cpp; [Sumd]: sumd.cpp; [Dsm]: dsm.cpp.
      [RcStream]: the parser that crsf.cpp and ghst.cpp have in common; [Crsf] and
      [Ghst]: the two receivers and their telemetry.
    - [Px4ioControls]: controls.c; [Px4ioRc]: its invariant, and the frame of
      what each step may change; [Px4ioRcLoss]: reception, loss and override;
      [Px4ioRcMap]: the scaling and mapping of the channels.
    - [Px4ioMain]: px4io.c and safety.c, start-up, the loop and the timers;
      [Px4ioFirmware], [Px4ioSafety], [Px4ioMixerFailsafe]: theorems about the
      whole firmware.

    Controllers and detectors
    - [Hysteresis]: the delayed boolean of src/lib/hysteresis, with what its users
      prove about histories by it ([tracks], [holds], [chain]).
    - [EsoVector]: the interface to the matrix library (a submodule): the class
      Matrix of operations, its laws MatrixLaws, and a concrete instance.
    - [EsoTakeoff]: ESOTakeoff; [EsoPosition]: ControlMath.cpp,
      PositionESO.cpp and PositionControl.cpp; [EsoPositionSafety]: its theorems;
      [EsoPosModule]: one cycle of ESOMulticopterPositionControl::Run.
    - [EsoAttitude]: AttitudeControl.cpp and its module; [EsoRate]: AttitudeESO.cpp,
      RateControl.cpp and its module; [EsoSafety]: theorems about the two and about
      the three controllers in a row.
    - [ArmJointBridge]: arm_joint_bridge, which makes the state of the arm of single
      named values; [ArmKinematics]: ArmKinematics.hpp and ESOModelProfile.hpp, the
      centre of mass and the inertia for the arm's angles, with their cache;
      [ArmDynamics]: the three controllers' use of both.

    Commander
    - [ArmAuth]: ArmAuthorization.cpp.  [Commander]: the arming state machine of
      state_machine_helper.cpp, the preflight and pre-arm checks and the main
      state; [ArmCommand]: the requests of Commander.cpp to arm and disarm and the
      command that asks for them; [CommanderArming]: the theorems about both.
    - [CommanderNav]: set_nav_state, set_link_loss_nav_state and the link,
      battery and offboard reactions; [CommanderFailsafe]: its theorems.
    - [LandDetector]: LandDetector.cpp over the class Vehicle of the methods its
      five vehicles override, with their instances; [LandSafety]: its theorems.
    - [FailureDetector]: FailureDetector.cpp, its specification and the commander's
      reaction.  [ManualControl]: ManualControl.cpp and the commander's use of it.
    - [PreflightChecks]: the checks of single sensors and systems before flight,
      as the instance of the record [checks] that [Commander] is written over.

    Storage
    - [Dataman]: dataman.cpp's storage in memory and in a file, with the faults of
      the system calls, and the map it promises; [DatamanStore]: its theorems;
      [DatamanTask]: the callers, the two queues and the worker as interleaved
      steps.

    ** How they interact

    [Px4ioLink] composes [Px4ioSerial]'s two ends: an exchange runs the FMU's
    transmit, the line (which may damage or lose each packet), PX4IO's receive
    handler with [Px4ioRegs]'s register functions, and the FMU's checks of the
    reply.  [Px4ioFirmware] interleaves passes of the main loop with register
    writes and timer handlers in any order (interrupts are taken between passes,
    not inside them).  [MixerGroup] discharges the class MixerLaws, so that the
    theorems of [Px4ioFirmware] hold of the real mixers.  [Px4ioControls] runs the
    four decoders on one buffer, in the order of controls.c, and writes the
    registers that [Px4ioMixer] reads.  [Bootloader] runs over [FlashCache] through
    the record of flash operations.  [EsoSafety] feeds the message that a cycle of
    [EsoPosModule] publishes to [EsoAttitude], and that one's to [EsoRate].
    [ArmDynamics] feeds the messages of [ArmJointBridge] to [ArmKinematics] and its
    results to [EsoRate], [EsoAttitude] and [EsoPosModule].
    [LandDetector] reads the take-off state of [EsoTakeoff] and the vehicle status
    of [Commander], and its base class is proved correct against the class Vehicle.
    [DatamanTask] runs the operations of [Dataman] from any number of tasks, and
    composes its interleavings with the refinement of [DatamanStore].
    [PreflightChecks] discharges the laws HealthOnly, so that the theorems of
    [CommanderArming] hold of the real checks.

    ** What is proved

    - Bootloader: an upload session leaves exactly the image in the flash; every
      flash operation of every run is allowed by the protocol, aligned and in
      bounds; each command is answered once; the write cache
      refines a word-programmable flash; only a program whose signature verifies
      is started when there is a table of contents; the table-driven CRC equals
      the bitwise one.
    - Registers and line: no sequence of writes takes a register out of its legal
      values, the termination latch cannot be undone, dangerous writes do nothing
      with the safety off; a successful read returns PX4IO's registers and a
      write is executed at least once, whatever the line does.
    - Outputs: with the safety on only disarmed values are sent; the loss of the
      FMU leads to the configured reaction; a termination is final over every
      history of the firmware; the safety needs ten presses; the limiter stays in
      its bounds and ramps up.
    - Mixers: the text format is read back as written; the motors' outputs are in
      range; trims go to the mixers' own outputs.
    - RC input: S.BUS frames are received as they are sent, CRSF and GHST streams
      whatever pieces they are read in; the receivers do not write outside their
      memory; reception, loss, mapping and override are exact.
    - Controllers: the take-off sequence is exact over every history; whatever
      comes in, the rate loop publishes numbers in range, up to the battery's scale,
      and keeps its integral bounded, and the attitude loop asks for rates inside its limits; what a NaN,
      a missing position and a late message do.
    - Arm: the bridge publishes exactly what it was last told, valid only while all
      of it is fresh; the rate controller's inertia is the fixed one or that of the
      model for the last angles, cached positions being those of the same angles up
      to the stated flaws of the cache.
    - Commander: arming only through the checks, and the preflight check passes
      exactly when what it tests is in order, which is less than the documented
      requirements in four stated cases; the arming invariant, with the one command
      that writes the state itself as its exception; after every decision an armed
      vehicle is in a state whose requirements hold, but for the stated cases that
      the code does not look at; the
      fall-through reactions take the first possible one; a failure is reported
      exactly when its samples have lasted; arming and disarming by hand need a
      gesture that was held or a switch that was moved.
    - Landing: after a flight landed is reported only when idling and ground
      contact have lasted, and a throttle above the minimum ends it at once; a
      vehicle that comes to rest is reported landed in bounded time; the flight
      time survives in its two parameters.
    - Data manager: both backends are the same map, kept through restarts as its
      persistence levels say; a system call that fails leaves every other item
      alone; the concurrent callers see a map, in the order the worker served
      them, and every call of a running manager is answered.

    Where the code does not do what it means to, the theorem or lemma states what
    it does (for instance [EsoSafety.failsafe_cuts_throttle]).

    ** Conventions, fuel and bounds

    Integers are [Z] with the wrap of their C type written out where it can
    matter; arrays are lists, read and written by [aget] and [aset], which ignore
    an index out of range: where the code can really go out of range the model
    records it in a ghost ([St24.overrun], [Sumd.sumd_overrun]).  Time is an
    argument of the operations.  Loops are structural on their data; those with a
    fuel argument have it from the code's own bound: [Sbus.carry] needs 2 rounds
    (the offset is below 19) and has 3, [St24.st24_strides] covers 24 channels in
    12 rounds, the bootloader's polls are the length of its environment and the
    loop of the mixer loader the length of its text, with the theorems that this
    suffices.
    [RcStream.parse_loop] takes a byte or more each round and has a round per byte.
    [PreflightChecks.count_bits] needs a round per bit and one more, 33 for a word.

    ** Not modelled

    The uORB middleware, parameters, MAVLink, the estimator, PX4's own controllers
    (the fork does not start them), the sensor drivers and Commander.cpp's loop:
    they are floating-point laws or glue over generated topics.  Of the fork's
    controllers: the manual attitude setpoint, the parameter updates other than the
    arm's and the debug messages.  NuttX, the matrix library and ecl are submodules whose sources are
    absent.  Of the data manager: its command line, its statistics and its
    printing.  On PX4IO: the hardware initialisation, the ADC and the debug
    messages.  Of the preflight checks: the log messages and the pauses for them.
    The manifest lists every part with its reason. *)

From Stdlib Require Import ZArith Lia Bool List.
From stdpp Require Import base list numbers.

Local Open Scope Z_scope.

(** * Machine integers

    C's unsigned integers are [Z] values kept in range by an explicit wrap. *)

Definition u8 (z : Z) : Z := z `mod` 256.
Definition u16 (z : Z) : Z := z `mod` 65536.
Definition u32 (z : Z) : Z := z `mod` 4294967296.
Definition u64 (z : Z) : Z := z `mod` 18446744073709551616.

(** Two's complement reinterpretation as [int16_t] ([REG_TO_SIGNED]). *)
Definition s16 (z : Z) : Z := (z + 32768) `mod` 65536 - 32768.

#[global] Arguments u8 : simpl never.
#[global] Arguments u16 : simpl never.
#[global] Arguments u32 : simpl never.
#[global] Arguments u64 : simpl never.
#[global] Arguments s16 : simpl never.

Definition is_u8 (z : Z) : Prop := 0 <= z < 256.
Definition is_u16 (z : Z) : Prop := 0 <= z < 65536.
Definition is_u32 (z : Z) : Prop := 0 <= z < 4294967296.

(** * Flag words: [f |= m], [f &= ~m] and the test [f & m] *)

Definition fset (f m : Z) : Z := Z.lor f m.
Definition fclr (f m : Z) : Z := Z.ldiff f m.
Definition ftst (f m : Z) : bool := negb (Z.land f m =? 0).

Declare Scope flag_scope.
Delimit Scope flag_scope with flag.
Infix "|=" := fset (at level 50, left associativity) : flag_scope.
Infix "&~=" := fclr (at level 50, left associativity) : flag_scope.
Infix "&?" := ftst (at level 55) : flag_scope.

(** * Arrays

    A C array is a list; an index is a [Z].  Reads outside the array are
    undefined in C: the components prove their indices in range. *)

Definition aget (l : list Z) (i : Z) : Z := default 0 (l !! Z.to_nat i).
Definition aset (l : list Z) (i v : Z) : list Z := <[Z.to_nat i := v]> l.

(** * Little-endian words *)

Definition bytes_of_word (w : Z) : list Z :=
  [w `mod` 256; (w / 256) `mod` 256; (w / 65536) `mod` 256; (w / 16777216) `mod` 256].

Definition word_of_bytes (b0 b1 b2 b3 : Z) : Z :=
  b0 + 256 * b1 + 65536 * b2 + 16777216 * b3.

(** The [i]-th 32-bit word of a byte buffer (a C union of [uint8_t[]] and
    [uint32_t[]]). *)
Definition word_at (l : list Z) (i : Z) : Z :=
  word_of_bytes (aget l (4 * i)) (aget l (4 * i + 1))
                (aget l (4 * i + 2)) (aget l (4 * i + 3)).

Definition bytes_of_words (ws : list Z) : list Z := concat (bytes_of_word <$> ws).

(** * Reachability *)

Section Star.
Context {A : Type} (R : A -> A -> Prop).

Inductive star : A -> A -> Prop :=
| star_refl a : star a a
| star_step a b c : R a b -> star b c -> star a c.

Lemma star_one a b : R a b -> star a b.
Proof. eauto using star. Qed.

Lemma star_trans a b c : star a b -> star b c -> star a c.
Proof. induction 1; eauto using star. Qed.

(** An invariant of the steps is an invariant of the runs. *)
Lemma star_invariant (P : A -> Prop) :
  (forall a b, P a -> R a b -> P b) -> forall a b, star a b -> P a -> P b.
Proof. intros Hstep a b Hab. induction Hab; eauto. Qed.

(** A step that changes [f] only upwards along a preorder does so on runs. *)
Lemma star_preorder {B} (le : B -> B -> Prop) `{!PreOrder le} (f : A -> B) :
  (forall a b, R a b -> le (f a) (f b)) -> forall a b, star a b -> le (f a) (f b).
Proof.
  intros Hstep a b Hab. induction Hab as [|a b c Hab _ IH]; [reflexivity|].
  transitivity (f b); eauto.
Qed.
End Star.

(** * Lemmas on wrapping *)

Lemma u8_range z : is_u8 (u8 z).
Proof. apply Z.mod_pos_bound. lia. Qed.
Lemma u16_range z : is_u16 (u16 z).
Proof. apply Z.mod_pos_bound. lia. Qed.
Lemma u32_range z : is_u32 (u32 z).
Proof. apply Z.mod_pos_bound. lia. Qed.

Lemma u8_small z : is_u8 z -> u8 z = z.
Proof. apply Z.mod_small. Qed.
Lemma u16_small z : is_u16 z -> u16 z = z.
Proof. apply Z.mod_small. Qed.
Lemma u32_small z : is_u32 z -> u32 z = z.
Proof. apply Z.mod_small. Qed.

Lemma s16_range z : -32768 <= s16 z < 32768.
Proof. unfold s16. pose proof (Z.mod_pos_bound (z + 32768) 65536). lia. Qed.

Lemma s16_u16 z : -32768 <= z < 32768 -> s16 (u16 z) = z.
Proof.
  intros Hz. unfold s16, u16. rewrite Zplus_mod_idemp_l, Z.mod_small; lia.
Qed.

(** * Lemmas on flags *)

Lemma fset_nonneg f m : 0 <= f -> 0 <= m -> 0 <= fset f m.
Proof. intros. apply Z.lor_nonneg. auto. Qed.

Lemma testbit_high w a n : 0 <= a < 2 ^ w -> 0 <= w <= n -> Z.testbit a n = false.
Proof. intros Ha Hn. rewrite <- (Z.mod_small a (2 ^ w)) by done. by apply Z.mod_pow2_bits_high. Qed.

Lemma land_bounded n f m : 0 <= n -> 0 <= f < 2 ^ n -> 0 <= Z.land f m < 2 ^ n.
Proof.
  intros Hn Hf.
  assert (Z.land f m = Z.land f m `mod` 2 ^ n) as ->; [|apply Z.mod_pos_bound; lia].
  rewrite <- Z.land_ones by lia.
  rewrite <- Z.land_assoc, (Z.land_comm m), Z.land_assoc, Z.land_ones by lia.
  rewrite (Z.mod_small f) by lia. done.
Qed.

Lemma lor_bounded n f m :
  0 <= n -> 0 <= f < 2 ^ n -> 0 <= m < 2 ^ n -> 0 <= Z.lor f m < 2 ^ n.
Proof.
  intros Hn Hf Hm.
  assert (Z.lor f m = Z.lor f m `mod` 2 ^ n) as ->; [|apply Z.mod_pos_bound; lia].
  rewrite <- Z.land_ones by lia. rewrite Z.land_lor_distr_l, !Z.land_ones by lia.
  rewrite !Z.mod_small by lia. done.
Qed.

Lemma ldiff_bounded n f m : 0 <= n -> 0 <= f < 2 ^ n -> 0 <= Z.ldiff f m < 2 ^ n.
Proof. intros. rewrite Z.ldiff_land. by apply land_bounded. Qed.

Lemma fset_u16 f m : is_u16 f -> is_u16 m -> is_u16 (fset f m).
Proof. intros. apply (lor_bounded 16); unfold is_u16 in *; lia. Qed.
Lemma fclr_u16 f m : is_u16 f -> is_u16 (fclr f m).
Proof. intros. apply (ldiff_bounded 16); unfold is_u16 in *; lia. Qed.
Lemma land_u16 f m : is_u16 f -> is_u16 (Z.land f m).
Proof. intros. apply (land_bounded 16); unfold is_u16 in *; lia. Qed.

Create HintDb flags.
Create Rewrite HintDb flags.
Create Rewrite HintDb arr.
#[export] Hint Resolve fset_u16 fclr_u16 land_u16 u8_range u16_range u32_range : flags.

Ltac flag_bits :=
  unfold fset, fclr in *;
  apply Z.bits_inj'; intros ? ?;
  repeat first [ rewrite Z.land_spec | rewrite Z.lor_spec | rewrite Z.ldiff_spec
               | rewrite Z.bits_0 ].

(** Testing a mask after setting it, or after touching a disjoint one. *)
Lemma land_fset_disj f m n : Z.land m n = 0 -> Z.land (fset f m) n = Z.land f n.
Proof. intros H. unfold fset. by rewrite Z.land_lor_distr_l, H, Z.lor_0_r. Qed.

Lemma land_fclr_disj f m n : Z.land m n = 0 -> Z.land (fclr f m) n = Z.land f n.
Proof.
  intros H. flag_bits.
  assert (Z.testbit (Z.land m n) n0 = false) as Hb by (rewrite H; apply Z.bits_0).
  rewrite Z.land_spec in Hb.
  destruct (Z.testbit f n0), (Z.testbit m n0), (Z.testbit n n0); done.
Qed.

Lemma land_fset_same f m : Z.land (fset f m) m = m.
Proof.
  unfold fset. apply Z.bits_inj'; intros. rewrite Z.land_spec, Z.lor_spec.
  destruct (Z.testbit f n), (Z.testbit m n); done.
Qed.

Lemma land_fclr_same f m : Z.land (fclr f m) m = 0.
Proof.
  flag_bits. destruct (Z.testbit f n), (Z.testbit m n); done.
Qed.

Lemma ftst_fset_same f m : m <> 0 -> ftst (fset f m) m = true.
Proof. intros H. unfold ftst. rewrite land_fset_same. by apply negb_true_iff, Z.eqb_neq. Qed.
Lemma ftst_fclr_same f m : ftst (fclr f m) m = false.
Proof. unfold ftst. by rewrite land_fclr_same. Qed.
Lemma ftst_fset_disj f m n : Z.land m n = 0 -> ftst (fset f m) n = ftst f n.
Proof. intros H. unfold ftst. by rewrite land_fset_disj. Qed.
Lemma ftst_fclr_disj f m n : Z.land m n = 0 -> ftst (fclr f m) n = ftst f n.
Proof. intros H. unfold ftst. by rewrite land_fclr_disj. Qed.
#[export] Hint Rewrite ftst_fclr_same : flags.
#[export] Hint Rewrite ftst_fset_same ftst_fset_disj ftst_fclr_disj
  using (first [reflexivity | discriminate]) : flags.

(** * Lemmas on arrays *)

Lemma length_aset l i v : length (aset l i v) = length l.
Proof. apply length_insert. Qed.

Lemma aget_aset_eq l i v : 0 <= i < Z.of_nat (length l) -> aget (aset l i v) i = v.
Proof.
  intros. unfold aget, aset. rewrite list_lookup_insert_eq by lia. done.
Qed.

Lemma aget_aset_ne l i j v : 0 <= i -> 0 <= j -> i <> j -> aget (aset l i v) j = aget l j.
Proof. intros. unfold aget, aset. rewrite list_lookup_insert_ne by lia. done. Qed.
#[export] Hint Rewrite length_aset : arr.
#[export] Hint Rewrite aget_aset_eq aget_aset_ne using (rewrite ?length_aset; lia) : arr.

Lemma aset_Forall (P : Z -> Prop) l i v : Forall P l -> P v -> Forall P (aset l i v).
Proof. intros. by apply Forall_insert. Qed.

Lemma aget_Forall (P : Z -> Prop) l i : Forall P l -> P 0 -> P (aget l i).
Proof.
  intros Hl H0. unfold aget. destruct (l !! Z.to_nat i) eqn:E; simpl; [|done].
  by eapply Forall_lookup_1.
Qed.

Lemma fmap_const_seq {A} (x : A) n : forall k, (fun _ => x) <$> seq k n = replicate n x.
Proof. induction n as [|n IH]; intros k; simpl; [done|]. by rewrite IH. Qed.

(** * Lemmas on little-endian words *)

Lemma word_of_bytes_of_word w :
  is_u32 w ->
  word_of_bytes (w `mod` 256) ((w / 256) `mod` 256)
    ((w / 65536) `mod` 256) ((w / 16777216) `mod` 256) = w.
Proof.
  unfold is_u32, word_of_bytes. intros Hw.
  change 65536 with (256 * 256). change 16777216 with (256 * (256 * 256)).
  rewrite <- !Z.div_div by lia.
  pose proof (Z.div_mod w 256). pose proof (Z.div_mod (w / 256) 256).
  pose proof (Z.div_mod (w / 256 / 256) 256).
  assert (w / 256 / 256 / 256 < 256).
  { rewrite !Z.div_div by lia. apply Z.div_lt_upper_bound; lia. }
  assert (0 <= w / 256 / 256 / 256) by (repeat apply Z.div_pos; lia).
  rewrite (Z.mod_small (w / 256 / 256 / 256) 256) by lia. lia.
Qed.

Lemma word_of_bytes_u32 b0 b1 b2 b3 :
  is_u8 b0 -> is_u8 b1 -> is_u8 b2 -> is_u8 b3 -> is_u32 (word_of_bytes b0 b1 b2 b3).
Proof. unfold is_u8, is_u32, word_of_bytes. lia. Qed.

Lemma bytes_of_word_u8 w : Forall is_u8 (bytes_of_word w).
Proof. unfold bytes_of_word. repeat constructor; apply Z.mod_pos_bound; lia. Qed.

Lemma bytes_of_words_cons w ws :
  bytes_of_words (w :: ws) = bytes_of_word w ++ bytes_of_words ws.
Proof. done. Qed.

Lemma length_bytes_of_words ws : length (bytes_of_words ws) = (4 * length ws)%nat.
Proof.
  induction ws as [|w ws IH]; [done|].
  rewrite bytes_of_words_cons, length_app, IH. simpl. lia.
Qed.

Lemma bytes_of_words_u8 ws : Forall is_u8 (bytes_of_words ws).
Proof.
  induction ws as [|w ws IH]; [constructor|].
  rewrite bytes_of_words_cons. apply Forall_app. auto using bytes_of_word_u8.
Qed.
