(* ===== verification/FlashCache.v ===== *)
(** The word-level flash interface of the bootloader.

    [Progmem] is the flash controller driver the code calls (NuttX's
    [up_progmem_*], not under src/): its operations are parameters and
    [ProgmemLaws] states their documented behaviour.  [flash_cache.c] turns
    word writes into 32-byte block writes through two cache lines;
    [stm32_common/main.c] wraps it as the [flash_func_*] functions.  The
    contract the bootloader relies on is the class [SeqFlash]: an image
    written word by word at an ascending cursor, each word read back, then
    swept once, then sealed by its first word.  The theorems discharge that
    contract for the cache. *)

From Stdlib Require Import ZArith Lia.
From stdpp Require Import base list numbers gmap.
From S2P Require Import Prelude.

Local Open Scope Z_scope.

Definition BLANK : Z := 0xffffffff.

(** Board constants: boards/codev/dp1000-v2/src/hw_config.h. *)
Definition APP_LOAD_ADDRESS : Z := 0x08020000.
Definition BOARD_FLASH_SECTORS : Z := 15.
Definition BOARD_FIRST_FLASH_SECTOR_TO_ERASE : Z := 1.

(** The flash driver of the operating system. *)
Class Progmem (M : Type) := {
  pm_read : M -> Z -> Z;                      (* memory-mapped word read *)
  pm_write : Z -> list Z -> M -> Z * M;       (* up_progmem_write, on words *)
  pm_eraseblock : Z -> M -> M;                (* up_progmem_eraseblock *)
  pm_ispageerased : M -> Z -> Z;              (* up_progmem_ispageerased *)
}.

(** Its documented behaviour: [up_progmem_write] returns the number of bytes
    written, and then an erased block holds the new words and every other
    word is unchanged; [up_progmem_eraseblock] erases the words of one page,
    and [up_progmem_ispageerased] counts the bytes of a page that are not
    erased. *)
Definition FLASH_BASE : Z := 0x08000000.
Definition PAGE_BYTES : Z := 131072.
Definition in_page (p a : Z) : Prop :=
  FLASH_BASE + p * PAGE_BYTES <= a < FLASH_BASE + (p + 1) * PAGE_BYTES.

Class ProgmemLaws (M : Type) `{Progmem M} := {
  pm_write_ok m a ws :
    (forall i, 0 <= i < Z.of_nat (length ws) -> pm_read m (a + 4 * i) = BLANK) ->
    (pm_write a ws m).1 = 4 * Z.of_nat (length ws);
  pm_write_new m a ws i w :
    (forall i, 0 <= i < Z.of_nat (length ws) -> pm_read m (a + 4 * i) = BLANK) ->
    ws !! i = Some w -> pm_read (pm_write a ws m).2 (a + 4 * Z.of_nat i) = w;
  pm_write_frame m a ws b :
    (forall i, 0 <= i < Z.of_nat (length ws) -> b <> a + 4 * i) ->
    pm_read (pm_write a ws m).2 b = pm_read m b;
  pm_erase_new m p a : in_page p a -> pm_read (pm_eraseblock p m) a = BLANK;
  pm_erase_frame m p a : ~ in_page p a -> pm_read (pm_eraseblock p m) a = pm_read m a;
  pm_erased m p a : pm_ispageerased m p = 0 -> in_page p a -> pm_read m a = BLANK;
}.

(** A concrete flash: the words that differ from blank, by address.  Every
    write succeeds. *)
Abbreviation toy := (gmap Z Z).
Definition page_of (a : Z) : Z := (a - FLASH_BASE) / PAGE_BYTES.
Definition toy_read (m : toy) (a : Z) : Z := default BLANK (m !! a).

Fixpoint toy_put (a : Z) (ws : list Z) (m : toy) : toy :=
  match ws with
  | [] => m
  | w :: ws => <[a := w]> (toy_put (a + 4) ws m)
  end.

#[export] Instance toy_progmem : Progmem toy := {
  pm_read := toy_read;
  pm_write a ws m := (4 * Z.of_nat (length ws), toy_put a ws m);
  pm_eraseblock p m := filter (fun kv => page_of kv.1 <> p) m;
  pm_ispageerased m p :=
    4 * Z.of_nat (size (filter (fun kv => page_of kv.1 = p /\ kv.2 <> BLANK) m));
}.

(** * The word interface of the bootloader (bl.h, "flash helpers") *)

Class WordFlash (F : Type) := {
  flash_unlock : F -> F;                      (* arch_flash_unlock *)
  flash_sector_size : Z -> Z;                 (* flash_func_sector_size *)
  flash_erase_sector : Z -> F -> F;           (* flash_func_erase_sector *)
  flash_write_word : Z -> Z -> F -> F;        (* flash_func_write_word *)
  flash_read_word : Z -> F -> Z * F;          (* flash_func_read_word *)
}.

(** Read the [n] words from [a] upwards. *)
Fixpoint flash_sweep {F} `{WordFlash F} (n : nat) (a : Z) (f : F) : list Z * F :=
  match n with
  | O => ([], f)
  | S n' =>
      let '(w, f1) := flash_read_word a f in
      let '(ws, f2) := flash_sweep n' (a + 4) f1 in (w :: ws, f2)
  end.

Definition upd (m : Z -> Z) (a w : Z) : Z -> Z := fun b => if b =? a then w else m b.

(** The words [ws] stored from address [c] upwards. *)
Fixpoint image_at (ws : list Z) (c : Z) (m : Z -> Z) : Z -> Z :=
  match ws with
  | [] => m
  | w :: ws => image_at ws (c + 4) (upd m c w)
  end.

(** The erase loop of the CHIP_ERASE command (bl.c): sectors from [i] while
    the size is nonzero, at most [fuel] of them. *)
Fixpoint flash_erase_all {F} `{WordFlash F} (fuel : nat) (i : Z) (f : F) : F :=
  match fuel with
  | O => f
  | S n => if flash_sector_size i =? 0 then f
           else flash_erase_all n (i + 1) (flash_erase_sector i f)
  end.

(** What a client that programs a whole image may assume.  [prog f m c]: the
    words below the cursor [c] read as [m], and the words at and above it are
    blank.  [swept f m c]: the same after one sweep of the whole area. *)
Class SeqFlash (F : Type) `{WordFlash F} := {
  flash_capacity : Z;
  prog : F -> (Z -> Z) -> Z -> Prop;
  swept : F -> (Z -> Z) -> Z -> Prop;
  prog_erase f n :
    4 * Z.of_nat n <= flash_capacity ->
    exists f', flash_sweep n 0 (flash_erase_all 17 0 (flash_unlock f))
               = (replicate n BLANK, f') /\ prog f' (fun _ => BLANK) 0;
  prog_write f m c w :
    prog f m c -> c `mod` 4 = 0 -> 0 <= c -> c + 4 <= flash_capacity ->
    exists f', flash_read_word c (flash_write_word c w f) = (w, f')
               /\ prog f' (upd m c w) (c + 4);
  prog_sweep f m c n :
    prog f m c -> c <= 32 * Z.of_nat n <= flash_capacity -> (0 < n)%nat ->
    exists f', flash_sweep (8 * n - 1) 4 f
               = ((fun i => m (4 * Z.of_nat i)) <$> seq 1 (8 * n - 1), f')
               /\ swept f' m c;
  swept_seal f m c w :
    swept f m c -> 32 <= c ->
    exists f', flash_read_word 0 (flash_write_word 0 w f) = (w, f')
               /\ (forall a, 0 <= a < flash_capacity -> a `mod` 4 = 0 ->
                     exists f'', flash_read_word a f' = (upd m 0 w a, f''));
}.

(** ** Lemmas on the specification *)

Lemma image_at_below ws : forall c m a, a < c -> image_at ws c m a = m a.
Proof.
  induction ws as [|w ws IH]; intros c m a Ha; simpl; [done|].
  rewrite IH by lia. unfold upd. by destruct (Z.eqb_spec a c); [lia|].
Qed.

Lemma image_at_lookup ws : forall c m i w,
  ws !! i = Some w -> image_at ws c m (c + 4 * Z.of_nat i) = w.
Proof.
  induction ws as [|v ws IH]; intros c m [|i] w Hi; simplify_eq/=.
  - rewrite Z.add_0_r, image_at_below by lia. unfold upd. by rewrite Z.eqb_refl.
  - replace (c + 4 * Z.of_nat (S i)) with (c + 4 + 4 * Z.of_nat i) by lia. by apply IH.
Qed.

(** * flash_cache.c *)

Module FlashCache.
Section Cache.
Context {M : Type} `{Progmem M}.

Definition FC_NUMBER_WORDS : Z := 8.
Definition FC_LAST_WORD : Z := FC_NUMBER_WORDS - 1.
Definition FC_CLEAN : Z := 0xffffffff.
Definition FC_LINE_BYTES : Z := 32.
Definition FC_ADDR2INDX (a : Z) : Z := (a / 4) `mod` FC_NUMBER_WORDS.
Definition FC_TAG (a : Z) : Z := Z.ldiff a (FC_LINE_BYTES - 1).

Record line := Line { index : Z; start_address : Z; words : list Z }.

(** [flash_cache[2]] and the flash behind it. *)
Record state := State { line0 : line; line1 : line; mem : M }.

Definition fcl_reset : line :=
  Line 0xffffffff 0xffffffff (replicate 8 0xffffffff).

Definition fc_reset (s : state) : state :=
  State (Line FC_CLEAN APP_LOAD_ADDRESS (words fcl_reset)) fcl_reset (mem s).

(** The selected line of the array, by number. *)
Definition fc_line_select (s : state) (a : Z) : option bool :=
  if start_address (line0 s) =? FC_TAG a then Some false
  else if start_address (line1 s) =? FC_TAG a then Some true
  else None.

Definition get_line (s : state) (k : bool) : line := if k then line1 s else line0 s.
Definition set_line (s : state) (k : bool) (l : line) : state :=
  if k then State (line0 s) l (mem s) else State l (line1 s) (mem s).

Definition fc_is_dirty (l : line) : bool := negb (index l =? FC_CLEAN).

Definition fc_flush (l : line) (s : state) : Z * state :=
  let '(rv, m') := pm_write (start_address l) (words l) (mem s) in
  let rv := if rv =? FC_LINE_BYTES then 0 else rv in
  (rv, State (line0 s) (line1 s) m').

Definition fc_write (a w : Z) (s : state) : Z * state :=
  let i := FC_ADDR2INDX a in
  let fc := fc_line_select s a in
  let '(fc, s) :=
    match fc with
    | None => if i =? 0
              then (Some true, set_line s true
                                 (Line (index (line1 s)) a (words (line1 s))))
              else (None, s)
    | Some k => (Some k, s)
    end in
  match fc with
  | None => (0, s)
  | Some k =>
      let l := get_line s k in
      let l := Line (index l) (start_address l) (aset (words l) i w) in
      let s := set_line s k l in
      if negb k && (i =? 0) && (index l =? 7) then
        let '(rv1, s1) :=
          if fc_is_dirty (line1 s) then fc_flush (line1 s) s else (0, s) in
        if negb (rv1 =? 0) then (-1, set_line s1 true fcl_reset)
        else let '(rv, s2) := fc_flush l s1 in (rv, set_line s2 false fcl_reset)
      else (0, set_line s k (Line i (start_address l) (words l)))
  end.

Definition fc_read (a : Z) (s : state) : Z * state :=
  let rv := pm_read (mem s) a in
  match fc_line_select s a with
  | None => (rv, s)
  | Some k =>
      let l := get_line s k in
      let i := FC_ADDR2INDX a in
      let rv := aget (words l) i in
      if k && (i =? FC_LAST_WORD) then
        let '(e, s') := fc_flush l s in
        if negb (e =? 0) then (Z.lxor rv 0xffffffff, s')
        else (rv, set_line s' k fcl_reset)
      else (rv, s)
  end.

(** stm32_common/main.c *)
Definition arch_flash_unlock (s : state) : state := fc_reset s.

Definition flash_func_sector_size (sector : Z) : Z :=
  if sector <=? BOARD_FLASH_SECTORS then 128 * 1024 else 0.

Definition flash_func_erase_sector (sector : Z) (s : state) : state :=
  if (BOARD_FLASH_SECTORS <? sector) || (sector <? BOARD_FIRST_FLASH_SECTOR_TO_ERASE)
  then s
  else if pm_ispageerased (mem s) sector =? 0 then s
  else State (line0 s) (line1 s) (pm_eraseblock sector (mem s)).

Definition flash_func_write_word (a w : Z) (s : state) : state :=
  (fc_write (u32 (a + APP_LOAD_ADDRESS)) w s).2.

Definition flash_func_read_word (a : Z) (s : state) : Z * state :=
  if negb (Z.land a 3 =? 0) then (0, s)
  else fc_read (u32 (a + APP_LOAD_ADDRESS)) s.

(** The words of the application area as the flash itself holds them. *)
Definition app_word (s : state) (a : Z) : Z := pm_read (mem s) (a + APP_LOAD_ADDRESS).

#[export] Instance cached_flash : WordFlash state := {
  flash_unlock := arch_flash_unlock;
  flash_sector_size := flash_func_sector_size;
  flash_erase_sector := flash_func_erase_sector;
  flash_write_word := flash_func_write_word;
  flash_read_word := flash_func_read_word;
}.
End Cache.

(** ** Theorems *)

Ltac Zify.zify_post_hook ::= Z.to_euclidean_division_equations.

Lemma FC_TAG_spec a : FC_TAG a = 32 * (a / 32).
Proof.
  unfold FC_TAG. change (FC_LINE_BYTES - 1) with (Z.ones 5).
  rewrite Z.ldiff_ones_r, Z.shiftr_div_pow2, Z.shiftl_mul_pow2 by lia. lia.
Qed.

Lemma land3 a : Z.land a 3 = a `mod` 4.
Proof. change 3 with (Z.ones 2). by rewrite Z.land_ones by lia. Qed.

Section Laws.
Context {M : Type} `{ProgmemLaws M}.
Implicit Types (s : state (M := M)) (m : Z -> Z) (l : line).

Definition capacity : Z := 15 * 131072.

(** Line 0 buffers the first 8 words of the image until they are sealed. *)
Definition line0_ok l m (c : Z) : Prop :=
  start_address l = APP_LOAD_ADDRESS /\ length (words l) = 8%nat
  /\ (forall i, 0 <= i < 8 -> aget (words l) i = m (4 * i))
  /\ index l = (if c =? 0 then FC_CLEAN else Z.min (c / 4 - 1) 7).

(** Line 1 buffers the block the cursor is in, once past the first. *)
Definition line1_ok l m (c : Z) : Prop :=
  if (c <? 32) || (c `mod` 32 =? 0) then l = fcl_reset
  else start_address l = 32 * (c / 32) + APP_LOAD_ADDRESS /\ length (words l) = 8%nat
       /\ (forall i, 0 <= i < 8 -> aget (words l) i = m (32 * (c / 32) + 4 * i)).

Definition cache_prog s m (c : Z) : Prop :=
  0 <= c <= capacity /\ c `mod` 4 = 0
  /\ (forall a, c <= a < capacity -> a `mod` 4 = 0 -> m a = BLANK)
  /\ line0_ok (line0 s) m c /\ line1_ok (line1 s) m c
  /\ (forall a, 0 <= a < capacity -> a `mod` 4 = 0 ->
        app_word s a = if (a <? 32) || (a / 32 =? c / 32) then BLANK else m a).

Definition cache_swept s m (c : Z) : Prop :=
  0 <= c <= capacity
  /\ line0_ok (line0 s) m c /\ line1 s = fcl_reset
  /\ (forall a, 0 <= a < capacity -> a `mod` 4 = 0 ->
        app_word s a = if a <? 32 then BLANK else m a).
Lemma fc_flush_blank l s :
  length (words l) = 8%nat ->
  (forall i, 0 <= i < 8 -> pm_read (mem s) (start_address l + 4 * i) = BLANK) ->
  exists pm, fc_flush l s = (0, State (line0 s) (line1 s) pm)
    /\ (forall i, 0 <= i < 8 -> pm_read pm (start_address l + 4 * i) = aget (words l) i)
    /\ (forall b, (forall i, 0 <= i < 8 -> b <> start_address l + 4 * i) ->
          pm_read pm b = pm_read (mem s) b).
Proof.
  intros Hlen Hblank. unfold fc_flush.
  pose proof (pm_write_ok (mem s) (start_address l) (words l)) as Hok.
  pose proof (pm_write_new (mem s) (start_address l) (words l)) as Hnew.
  pose proof (pm_write_frame (mem s) (start_address l) (words l)) as Hframe.
  rewrite Hlen in Hok, Hnew, Hframe.
  destruct (pm_write (start_address l) (words l) (mem s)) as [rv pm]; simpl in *.
  rewrite Hok by done. exists pm. split; [done|]. split; [|done].
  intros i Hi. unfold aget.
  destruct (words l !! Z.to_nat i) as [w|] eqn:E.
  - simpl. rewrite <- (Hnew (Z.to_nat i) w); [f_equal; lia | done | done].
  - apply lookup_ge_None in E. lia.
Qed.

Lemma addr_wrap a : 0 <= a < capacity -> u32 (a + APP_LOAD_ADDRESS) = a + APP_LOAD_ADDRESS.
Proof. intros. apply u32_small. unfold is_u32, capacity, APP_LOAD_ADDRESS in *. lia. Qed.

Lemma tag_addr a : 0 <= a -> FC_TAG (a + APP_LOAD_ADDRESS) = 32 * (a / 32) + APP_LOAD_ADDRESS.
Proof. intros. rewrite FC_TAG_spec. unfold APP_LOAD_ADDRESS. lia. Qed.

Lemma indx_addr a : 0 <= a -> FC_ADDR2INDX (a + APP_LOAD_ADDRESS) = (a `mod` 32) / 4.
Proof. intros. unfold FC_ADDR2INDX, FC_NUMBER_WORDS, APP_LOAD_ADDRESS. lia. Qed.

(** Which line an address of the application selects. *)
Lemma select_line0 s m c a :
  line0_ok (line0 s) m c -> 0 <= a < 32 ->
  fc_line_select s (a + APP_LOAD_ADDRESS) = Some false.
Proof.
  intros (Hs & _) Ha. unfold fc_line_select. rewrite tag_addr, Hs by lia.
  replace (32 * (a / 32) + APP_LOAD_ADDRESS) with APP_LOAD_ADDRESS by lia.
  by rewrite Z.eqb_refl.
Qed.

Lemma select_miss0 s m c a :
  line0_ok (line0 s) m c -> 32 <= a < capacity ->
  fc_line_select s (a + APP_LOAD_ADDRESS)
  = if start_address (line1 s) =? 32 * (a / 32) + APP_LOAD_ADDRESS then Some true else None.
Proof.
  intros (Hs & _) Ha. unfold fc_line_select. rewrite tag_addr, Hs by lia.
  destruct (Z.eqb_spec APP_LOAD_ADDRESS (32 * (a / 32) + APP_LOAD_ADDRESS)); [lia | done].
Qed.

Lemma reset_no_tag a : 0 <= a < capacity ->
  (start_address fcl_reset =? 32 * (a / 32) + APP_LOAD_ADDRESS) = false.
Proof. intros. apply Z.eqb_neq. simpl. unfold APP_LOAD_ADDRESS, capacity in *. lia. Qed.

Lemma read_aligned a s : a `mod` 4 = 0 -> 0 <= a < capacity ->
  flash_func_read_word a s = fc_read (a + APP_LOAD_ADDRESS) s.
Proof. intros. unfold flash_func_read_word. rewrite land3, addr_wrap by done. by rewrite H1. Qed.
Lemma swept_read s m c a :
  cache_swept s m c -> 0 <= a < capacity -> a `mod` 4 = 0 ->
  flash_func_read_word a s = (m a, s).
Proof.
  intros (Hc & Hl0 & Hl1 & Hmem) Ha Ha4. rewrite read_aligned by done.
  unfold fc_read. destruct (Z_lt_le_dec a 32).
  - erewrite select_line0 by (eauto; lia). simpl. rewrite indx_addr by lia.
    destruct Hl0 as (_ & _ & Hw & _). rewrite Hw by lia. do 2 f_equal. lia.
  - erewrite select_miss0 by (eauto; lia). rewrite Hl1, reset_no_tag by lia.
    specialize (Hmem a Ha Ha4). unfold app_word in Hmem. rewrite Hmem.
    by destruct (Z.ltb_spec a 32); [lia|].
Qed.

Lemma prog_flushed s m c :
  cache_prog s m c -> line1 s = fcl_reset -> cache_swept s m c.
Proof.
  intros (Hc & Hc4 & Hm & Hl0 & Hl1 & Hmem) Hr. do 3 (split; [done|]).
  intros a Ha Ha4. rewrite Hmem by done.
  destruct (Z.ltb_spec a 32); [done|]. destruct (Z.eqb_spec (a / 32) (c / 32)); [|done].
  simpl. symmetry. apply Hm; [|done]. unfold line1_ok in Hl1.
  destruct (Z.ltb_spec c 32); [lia|]. destruct (Z.eqb_spec (c `mod` 32) 0); [lia|].
  rewrite Hr in Hl1. destruct Hl1 as (Hs & _). simpl in Hs.
  unfold APP_LOAD_ADDRESS, capacity in *. lia.
Qed.

(** The address whose read flushes the block of the cursor. *)
Definition last_of (c : Z) : Z := 32 * (c / 32) + 28.

(** Line 1 holds block [k] of [m], still blank in the flash. *)
Definition block_buffered s m (k : Z) : Prop :=
  start_address (line1 s) = 32 * k + APP_LOAD_ADDRESS /\ length (words (line1 s)) = 8%nat
  /\ (forall i, 0 <= i < 8 -> aget (words (line1 s)) i = m (32 * k + 4 * i))
  /\ (forall a, 0 <= a < capacity -> a `mod` 4 = 0 ->
        app_word s a = if (a <? 32) || (a / 32 =? k) then BLANK else m a).

(** Reading a word of the buffered block hits line 1; the last one also
    moves the block to the flash. *)
Lemma read_buffered s m c0 m0 k a :
  line0_ok (line0 s) m0 c0 -> block_buffered s m k -> 0 < k -> a / 32 = k ->
  0 <= a < capacity -> a `mod` 4 = 0 ->
  exists s', flash_func_read_word a s = (m a, s')
    /\ (a <> 32 * k + 28 -> s' = s)
    /\ (a = 32 * k + 28 -> line0 s' = line0 s /\ line1 s' = fcl_reset
         /\ (forall b, 0 <= b < capacity -> b `mod` 4 = 0 ->
               app_word s' b = if b <? 32 then BLANK else m b)).
Proof.
  intros Hl0 (Hs & Hlen & Hw & Hmem) Hk Hblk Ha Ha4.
  rewrite read_aligned by done. unfold fc_read.
  erewrite select_miss0 by (eauto; lia). rewrite Hblk, Hs, Z.eqb_refl.
  simpl. rewrite indx_addr, Hw by lia.
  replace (32 * k + 4 * (a `mod` 32 / 4)) with a by lia.
  unfold FC_LAST_WORD, FC_NUMBER_WORDS.
  destruct (Z.eqb_spec (a `mod` 32 / 4) (8 - 1));
    [|eexists; split; [done|]; split; [done | intros; lia]].
  destruct (fc_flush_blank (line1 s) s) as (pm & -> & Hnew & Hframe); [done| |].
  { intros i Hi. rewrite Hs. specialize (Hmem (32 * k + 4 * i)). unfold app_word in Hmem.
    replace (32 * k + APP_LOAD_ADDRESS + 4 * i)
      with (32 * k + 4 * i + APP_LOAD_ADDRESS) by lia.
    rewrite Hmem by (unfold capacity in *; lia).
    replace ((32 * k + 4 * i) / 32) with k by lia. by rewrite Z.eqb_refl, orb_true_r. }
  simpl. eexists. split; [reflexivity|]. split; [intros; lia|]. intros _.
  do 2 (split; [done|]). intros b Hb Hb4. unfold app_word. simpl.
  destruct (Z.eq_dec (b / 32) k) as [E|E].
  - specialize (Hnew (b `mod` 32 / 4)). rewrite Hs, Hw in Hnew by lia.
    replace (b + APP_LOAD_ADDRESS)
      with (32 * k + APP_LOAD_ADDRESS + 4 * (b `mod` 32 / 4)) by lia.
    rewrite Hnew by lia. destruct (Z.ltb_spec b 32); [lia|]. f_equal. lia.
  - rewrite Hframe by (intros i Hi; rewrite Hs; lia).
    specialize (Hmem b Hb Hb4). unfold app_word in Hmem. rewrite Hmem.
    destruct (Z.eqb_spec (b / 32) k); [lia|]. by rewrite orb_false_r.
Qed.

Lemma prog_buffered s m c :
  cache_prog s m c -> 32 <= c -> c `mod` 32 <> 0 -> block_buffered s m (c / 32).
Proof.
  intros (Hc & Hc4 & Hm & Hl0 & Hl1 & Hmem) Hc32 Hcm. unfold line1_ok in Hl1.
  destruct (Z.ltb_spec c 32); [lia|]. destruct (Z.eqb_spec (c `mod` 32) 0); [lia|].
  destruct Hl1 as (? & ? & ?). done.
Qed.

Lemma prog_read_line1 s m c a :
  cache_prog s m c -> 32 <= c -> c `mod` 32 <> 0 -> a / 32 = c / 32 ->
  0 <= a < capacity -> a `mod` 4 = 0 ->
  exists s', flash_func_read_word a s = (m a, s')
    /\ (a <> last_of c -> s' = s) /\ (a = last_of c -> cache_swept s' m c).
Proof.
  intros Hp Hc32 Hcm Hblk Ha Ha4. pose proof Hp as (Hc & _ & _ & Hl0 & _).
  destruct (read_buffered s m c m (c / 32) a) as (s' & Hrd & Hsame & Hlast);
    try done; [by apply prog_buffered | lia |].
  exists s'. split; [done|]. split; [done|]. intros E.
  destruct (Hlast E) as (E0 & E1 & Hmem). split; [done|]. by rewrite E0.
Qed.

Lemma prog_read_other s m c a :
  cache_prog s m c -> (c < 32 \/ c `mod` 32 = 0 \/ a / 32 <> c / 32) ->
  0 <= a < capacity -> a `mod` 4 = 0 ->
  flash_func_read_word a s = (m a, s).
Proof.
  intros Hp Hcase Ha Ha4. pose proof Hp as (Hc & Hc4 & Hm & Hl0 & Hl1 & Hmem).
  destruct (Z_lt_le_dec a 32).
  { rewrite read_aligned by done. unfold fc_read.
    erewrite select_line0 by (eauto; lia). simpl. rewrite indx_addr by lia.
    destruct Hl0 as (_ & _ & Hw & _). rewrite Hw by lia. do 2 f_equal. lia. }
  unfold line1_ok in Hl1.
  destruct (Z.ltb_spec c 32); simpl in Hl1.
  { eapply swept_read; eauto using prog_flushed. }
  destruct (Z.eqb_spec (c `mod` 32) 0).
  { eapply swept_read; eauto using prog_flushed. }
  rewrite read_aligned by done. unfold fc_read.
  erewrite select_miss0 by (eauto; lia). destruct Hl1 as (Hs & _). rewrite Hs.
  destruct (Z.eqb_spec (32 * (c / 32) + APP_LOAD_ADDRESS) (32 * (a / 32) + APP_LOAD_ADDRESS));
    [lia|].
  specialize (Hmem a Ha Ha4). unfold app_word in Hmem. rewrite Hmem.
  destruct (Z.ltb_spec a 32); [lia|]. destruct (Z.eqb_spec (a / 32) (c / 32)); [lia|]. done.
Qed.
Lemma aset_words l m base i w :
  length (words l) = 8%nat -> 0 <= i < 8 ->
  (forall j, 0 <= j < 8 -> aget (words l) j = m (base + 4 * j)) ->
  forall j, 0 <= j < 8 -> aget (aset (words l) i w) j = upd m (base + 4 * i) w (base + 4 * j).
Proof.
  intros Hlen Hi Hw j Hj. unfold upd.
  destruct (Z.eqb_spec (base + 4 * j) (base + 4 * i)).
  - replace j with i by lia. apply aget_aset_eq. lia.
  - rewrite aget_aset_ne by lia. auto.
Qed.

Lemma write_addr c w s : 0 <= c < capacity ->
  flash_func_write_word c w s = (fc_write (c + APP_LOAD_ADDRESS) w s).2.
Proof. intros. unfold flash_func_write_word. by rewrite addr_wrap. Qed.

(** The common part of the three ways a write advances the cursor. *)
Lemma prog_advance s s' m c w :
  cache_prog s m c -> c + 4 <= capacity -> mem s' = mem s ->
  line0_ok (line0 s') (upd m c w) (c + 4) ->
  (32 <= c -> start_address (line1 s') = 32 * (c / 32) + APP_LOAD_ADDRESS
    /\ length (words (line1 s')) = 8%nat
    /\ (forall i, 0 <= i < 8 ->
          aget (words (line1 s')) i = upd m c w (32 * (c / 32) + 4 * i))) ->
  (c < 32 -> line1 s' = fcl_reset) ->
  exists s'', flash_func_read_word c s' = (w, s'') /\ cache_prog s'' (upd m c w) (c + 4).
Proof.
  intros (Hc & Hc4 & Hm & _ & _ & Hmem) Hcap Hmm Hl0 Hl1 Hr.
  assert (Hw : upd m c w c = w) by (unfold upd; by rewrite Z.eqb_refl).
  assert (Hm' : forall a, c + 4 <= a < capacity -> a `mod` 4 = 0 -> upd m c w a = BLANK).
  { intros a Ha Ha4. unfold upd. destruct (Z.eqb_spec a c); [lia|]. apply Hm; lia. }
  assert (Hmem' : forall a, 0 <= a < capacity -> a `mod` 4 = 0 -> app_word s' a
            = if (a <? 32) || (a / 32 =? c / 32) then BLANK else upd m c w a).
  { intros a Ha Ha4. unfold app_word, upd. rewrite Hmm.
    specialize (Hmem a Ha Ha4). unfold app_word in Hmem. rewrite Hmem.
    destruct (Z.eqb_spec a c) as [->|]; [|done]. by rewrite Z.eqb_refl, orb_true_r. }
  destruct (Z_lt_le_dec c 32) as [Hlt|Hge].
  - assert (Hp : cache_prog s' (upd m c w) (c + 4)).
    { do 2 (split; [lia|]). do 2 (split; [done|]). split.
      - unfold line1_ok. destruct (Z.ltb_spec (c + 4) 32); [by apply Hr|].
        destruct (Z.eqb_spec ((c + 4) `mod` 32) 0); [by apply Hr | lia].
      - intros a Ha Ha4. rewrite Hmem' by done.
        destruct (Z.ltb_spec a 32); [done|]. simpl.
        destruct (Z.eqb_spec (a / 32) (c / 32)), (Z.eqb_spec (a / 32) ((c + 4) / 32));
          try lia. apply Hm'; lia. }
    exists s'. split; [|done].
    rewrite (prog_read_other _ _ _ c Hp) by lia. by rewrite Hw.
  - destruct (Hl1 Hge) as (Hs & Hlen & Hws).
    destruct (read_buffered s' (upd m c w) (c + 4) (upd m c w) (c / 32) c)
      as (s'' & Hrd & Hsame & Hlast); try done; [lia..|].
    rewrite Hw in Hrd. exists s''. split; [done|].
    destruct (Z.eq_dec c (32 * (c / 32) + 28)) as [E|E].
    + destruct (Hlast E) as (E0 & E1 & Hmem''). do 2 (split; [lia|]).
      rewrite E0, E1. do 2 (split; [done|]). split.
      { unfold line1_ok. destruct (Z.eqb_spec ((c + 4) `mod` 32) 0); [|lia].
        by rewrite orb_true_r. }
      intros b Hb Hb4. rewrite Hmem'' by done.
      destruct (Z.ltb_spec b 32), (Z.eqb_spec (b / 32) ((c + 4) / 32)); try done.
      apply Hm'; lia.
    + rewrite (Hsame E). do 2 (split; [lia|]). do 2 (split; [done|]).
      replace ((c + 4) / 32) with (c / 32) by lia. split; [|done].
      unfold line1_ok. destruct (Z.ltb_spec (c + 4) 32); [lia|].
      destruct (Z.eqb_spec ((c + 4) `mod` 32) 0); [lia|].
      replace ((c + 4) / 32) with (c / 32) by lia. done.
Qed.

Lemma cache_prog_write s m c w :
  cache_prog s m c -> c `mod` 4 = 0 -> 0 <= c -> c + 4 <= capacity ->
  exists s', flash_func_read_word c (flash_func_write_word c w s) = (w, s')
             /\ cache_prog s' (upd m c w) (c + 4).
Proof.
  intros Hp Hc4 Hc0 Hcap. pose proof Hp as (Hc & _ & Hm & Hl0 & Hl1 & Hmem).
  rewrite write_addr by lia. unfold fc_write. rewrite indx_addr by lia.
  pose proof Hl0 as (Hs0 & Hlen0 & Hw0 & Hi0).
  destruct (Z_lt_le_dec c 32) as [Hlt|Hge].
  - erewrite select_line0 by (eauto; lia). simpl.
    replace (_ && (index (line0 s) =? 7)) with false; simpl.
    2:{ rewrite Hi0. destruct (Z.eqb_spec c 0) as [->|]; [done|].
        destruct (Z.eqb_spec (c `mod` 32 / 4) 0); [lia | done]. }
    eapply prog_advance; simpl; try done; try lia.
    + split; [done|]. split; [by simpl; rewrite length_aset|]. split; simpl.
      * intros i Hi. rewrite (aset_words (line0 s) m 0) by (done || lia).
        f_equal; lia.
      * destruct (Z.eqb_spec (c + 4) 0); lia.
    + intros _. unfold line1_ok in Hl1. by destruct (Z.ltb_spec c 32); [|lia].
  - assert (Hl0' : line0_ok (line0 s) (upd m c w) (c + 4)).
    { split; [done|]. split; [done|]. split.
      - intros i Hi. unfold upd. destruct (Z.eqb_spec (4 * i) c); [lia | auto].
      - rewrite Hi0. destruct (Z.eqb_spec c 0), (Z.eqb_spec (c + 4) 0); lia. }
    erewrite select_miss0 by (eauto; lia). unfold line1_ok in Hl1.
    destruct (Z.ltb_spec c 32); [lia|].
    destruct (Z.eqb_spec (c `mod` 32) 0) as [Hz|Hz]; simpl in Hl1.
    + rewrite Hl1, reset_no_tag by lia.
      replace (c `mod` 32 / 4 =? 0) with true by lia. simpl.
      eapply prog_advance; simpl; try done; try lia.
      intros _. split; [lia|]. split; [by rewrite length_aset|]. intros i Hi.
      rewrite (aset_words fcl_reset m (32 * (c / 32))); try done; try lia.
      * f_equal; lia.
      * intros j Hj. rewrite Hm by (unfold capacity in *; lia).
        unfold aget. simpl. destruct (Z.to_nat j) as [|[|[|[|[|[|[|[|]]]]]]]] eqn:E;
          (reflexivity || lia).
    + destruct Hl1 as (Hs1 & Hlen1 & Hw1). rewrite Hs1, Z.eqb_refl. simpl.
      eapply prog_advance; simpl; try done; try lia.
      intros _. split; [done|]. split; [by rewrite length_aset|]. intros i Hi.
      rewrite (aset_words (line1 s) m (32 * (c / 32))) by (done || lia). f_equal; lia.
Qed.
(** ** The erase loop *)

Lemma erase_sector_lines i s :
  line0 (flash_func_erase_sector i s) = line0 s
  /\ line1 (flash_func_erase_sector i s) = line1 s.
Proof. unfold flash_func_erase_sector. by repeat case_match. Qed.

Lemma erase_sector_blank i p a s :
  in_page p a -> pm_read (mem s) a = BLANK \/ (p = i /\ 1 <= i <= 15) ->
  pm_read (mem (flash_func_erase_sector i s)) a = BLANK.
Proof.
  intros Hp Hor. unfold flash_func_erase_sector, BOARD_FLASH_SECTORS,
    BOARD_FIRST_FLASH_SECTOR_TO_ERASE.
  destruct (Z.ltb_spec 15 i), (Z.ltb_spec i 1); simpl; try (by destruct Hor; [|lia]).
  destruct (Z.eqb_spec (pm_ispageerased (mem s) i) 0) as [E|E]; simpl.
  - destruct Hor as [?|[-> _]]; [done|]. by eapply pm_erased.
  - destruct (decide (p = i)) as [->|Hne]; [by apply pm_erase_new|].
    rewrite pm_erase_frame; [by destruct Hor as [?|[? _]]|].
    intros Hi. unfold in_page, PAGE_BYTES in *. lia.
Qed.

Lemma erase_all_lines n : forall i s,
  line0 (flash_erase_all n i s) = line0 s /\ line1 (flash_erase_all n i s) = line1 s.
Proof.
  induction n as [|n IH]; intros i s; [done|]. simpl.
  destruct (flash_func_sector_size i =? 0); [done|].
  destruct (IH (i + 1) (flash_func_erase_sector i s)) as [-> ->].
  apply erase_sector_lines.
Qed.

Lemma erase_all_blank n : forall i p a s,
  in_page p a ->
  pm_read (mem s) a = BLANK \/ (0 <= i <= p /\ p < i + Z.of_nat n /\ 1 <= p <= 15) ->
  pm_read (mem (flash_erase_all n i s)) a = BLANK.
Proof.
  induction n as [|n IH]; intros i p a s Hp Hor; [destruct Hor; [done | lia]|].
  simpl. unfold flash_func_sector_size, BOARD_FLASH_SECTORS.
  destruct (Z.leb_spec i 15) as [Hi|Hi]; simpl; [|destruct Hor; [done | lia]].
  apply (IH _ p); [done|].
  destruct (decide (p = i)) as [->|Hne].
  - left. apply (erase_sector_blank i i); [done|]. destruct Hor; [by left | right; lia].
  - destruct Hor as [Hb|Hr]; [left | right; lia]. eapply erase_sector_blank; eauto.
Qed.

Lemma erased_prog s : cache_prog (flash_erase_all 17 0 (arch_flash_unlock s)) (fun _ => BLANK) 0.
Proof.
  destruct (erase_all_lines 17 0 (arch_flash_unlock s)) as [E0 E1].
  split; [unfold capacity; lia|]. do 2 (split; [done|]). rewrite E0, E1.
  split; [split; [done|]; split; [done|]; split; [|done] | split; [done|]].
  - intros i Hi. unfold aget. simpl.
    destruct (Z.to_nat i) as [|[|[|[|[|[|[|[|]]]]]]]] eqn:E; (reflexivity || lia).
  - intros a Ha Ha4. transitivity BLANK; [unfold app_word | by destruct (_ || _)].
    apply (erase_all_blank _ _ (1 + a / PAGE_BYTES)).
    + unfold in_page, FLASH_BASE, PAGE_BYTES, APP_LOAD_ADDRESS. lia.
    + right. unfold capacity, PAGE_BYTES in *. lia.
Qed.

(** ** Sweeping *)

Lemma sweep_swept n : forall a s m c,
  cache_swept s m c -> 0 <= a -> a `mod` 4 = 0 -> a + 4 * Z.of_nat n <= capacity ->
  flash_sweep n a s = ((fun i => m (a + 4 * Z.of_nat i)) <$> seq 0 n, s).
Proof.
  induction n as [|n IH]; intros a s m c Hs Ha Ha4 Hn; [done|]. simpl.
  erewrite swept_read by (eauto; lia). erewrite (IH (a + 4)) by (eauto; lia).
  f_equal. f_equal; [f_equal; lia|]. rewrite <- fmap_S_seq, <- list_fmap_compose.
  apply list_fmap_ext. intros i x _. simpl. f_equal. lia.
Qed.

Lemma sweep_prog n : forall a s m c,
  cache_prog s m c -> 0 <= a -> a `mod` 4 = 0 -> a + 4 * Z.of_nat n <= capacity ->
  exists s', flash_sweep n a s = ((fun i => m (a + 4 * Z.of_nat i)) <$> seq 0 n, s')
    /\ (cache_swept s' m c \/ (s' = s /\ (32 <= c -> c `mod` 32 <> 0 ->
                               ~ (a <= last_of c < a + 4 * Z.of_nat n)))).
Proof.
  induction n as [|n IH]; intros a s m c Hs Ha Ha4 Hn.
  { eexists. split; [done|]. right. split; [done | lia]. }
  simpl.
  assert (Hfmap : forall k, (fun i => m (a + 4 + 4 * Z.of_nat i)) <$> seq k n
                            = (fun i => m (a + 4 * Z.of_nat i)) <$> seq (S k) n).
  { intros k. rewrite <- fmap_S_seq, <- list_fmap_compose.
    apply list_fmap_ext. intros i x _. simpl. f_equal. lia. }
  assert (Hcase : (c < 32 \/ c `mod` 32 = 0 \/ a / 32 <> c / 32)
                  \/ (32 <= c /\ c `mod` 32 <> 0 /\ a / 32 = c / 32)) by lia.
  destruct Hcase as [Hout|(Hc32 & Hcm & Hblk)].
  - erewrite prog_read_other by (eauto; lia).
    destruct (IH (a + 4) s m c) as (s' & -> & Hs'); try done; try lia.
    exists s'. split; [rewrite Hfmap; do 3 f_equal; lia|].
    destruct Hs' as [|[? Hno]]; [by left|]. right. split; [done|].
    intros Hx Hy. specialize (Hno Hx Hy). unfold last_of in *. lia.
  - destruct (prog_read_line1 s m c a) as (s1 & -> & Hsame & Hlast); try done; [lia|].
    destruct (Z.eq_dec a (last_of c)) as [E|E].
    + specialize (Hlast E). erewrite (sweep_swept n (a + 4)) by (eauto; lia).
      eexists. split; [rewrite Hfmap; do 3 f_equal; lia | by left].
    + rewrite (Hsame E). destruct (IH (a + 4) s m c) as (s' & -> & Hs'); try done; try lia.
      exists s'. split; [rewrite Hfmap; do 3 f_equal; lia|].
      destruct Hs' as [|[? Hno]]; [by left|]. right. split; [done|].
      intros Hx Hy. specialize (Hno Hx Hy). unfold last_of in *. lia.
Qed.

Lemma cache_prog_sweep s m c n :
  cache_prog s m c -> c <= 32 * Z.of_nat n <= capacity ->
  exists s', flash_sweep (8 * n) 0 s
             = ((fun i => m (4 * Z.of_nat i)) <$> seq 0 (8 * n), s')
             /\ cache_swept s' m c.
Proof.
  intros Hp Hn. pose proof Hp as (Hc & Hc4 & Hm & Hl0 & Hl1 & Hmem).
  destruct (sweep_prog (8 * n) 0 s m c) as (s' & Hsw & Hs'); try done; try lia.
  exists s'. split; [done|].
  destruct Hs' as [Hs'|(-> & Hno)]; [done|]. apply prog_flushed; [done|].
  unfold line1_ok in Hl1. destruct (Z.ltb_spec c 32); [done|].
  destruct (Z.eqb_spec (c `mod` 32) 0) as [|Hz]; [done|].
  exfalso. apply (Hno ltac:(lia) Hz). unfold last_of. lia.
Qed.
(** The same sweep without the first word, as the CRC loop does it. *)
Lemma cache_prog_sweep4 s m c n :
  cache_prog s m c -> c <= 32 * Z.of_nat n <= capacity -> (0 < n)%nat ->
  exists s', flash_sweep (8 * n - 1) 4 s
             = ((fun i => m (4 * Z.of_nat i)) <$> seq 1 (8 * n - 1), s')
             /\ cache_swept s' m c.
Proof.
  intros Hp Hn Hn0. pose proof Hp as (Hc & Hc4 & Hm & Hl0 & Hl1 & Hmem).
  destruct (sweep_prog (8 * n - 1) 4 s m c) as (s' & Hsw & Hs'); try done; try lia.
  exists s'. split.
  { rewrite Hsw. f_equal. rewrite <- fmap_S_seq, <- list_fmap_compose.
    apply list_fmap_ext. intros i x _. simpl. f_equal. lia. }
  destruct Hs' as [Hs'|(-> & Hno)]; [done|]. apply prog_flushed; [done|].
  unfold line1_ok in Hl1. destruct (Z.ltb_spec c 32); [done|].
  destruct (Z.eqb_spec (c `mod` 32) 0) as [|Hz]; [done|].
  exfalso. apply (Hno ltac:(lia) Hz). unfold last_of. lia.
Qed.

Lemma cache_swept_seal s m c w :
  cache_swept s m c -> 32 <= c ->
  exists s', flash_func_read_word 0 (flash_func_write_word 0 w s) = (w, s')
    /\ (forall a, 0 <= a < capacity -> a `mod` 4 = 0 -> app_word s' a = upd m 0 w a)
    /\ (forall a, 0 <= a < capacity -> a `mod` 4 = 0 ->
          flash_func_read_word a s' = (upd m 0 w a, s')).
Proof.
  intros (Hc & Hl0 & Hl1 & Hmem) Hc32.
  pose proof Hl0 as (Hs0 & Hlen0 & Hw0 & Hi0).
  assert (Hi7 : index (line0 s) = 7).
  { rewrite Hi0. destruct (Z.eqb_spec c 0); lia. }
  set (l := Line (index (line0 s)) (start_address (line0 s)) (aset (words (line0 s)) 0 w)).
  set (s1 := State l (line1 s) (mem s)).
  destruct (fc_flush_blank l s1) as (pm & Hfl & Hnew & Hframe).
  { simpl. by rewrite length_aset. }
  { intros i Hi. simpl. rewrite Hs0. specialize (Hmem (4 * i)). unfold app_word in Hmem.
    rewrite Z.add_comm, Hmem by (unfold capacity; lia).
    by destruct (Z.ltb_spec (4 * i) 32); [|lia]. }
  assert (Hmem' : forall a, 0 <= a < capacity -> a `mod` 4 = 0 ->
            pm_read pm (a + APP_LOAD_ADDRESS) = upd m 0 w a).
  { intros a Ha Ha4. destruct (Z_lt_le_dec a 32).
    - specialize (Hnew (a / 4)). simpl in Hnew. rewrite Hs0 in Hnew.
      replace (a + APP_LOAD_ADDRESS) with (APP_LOAD_ADDRESS + 4 * (a / 4)) by lia.
      rewrite Hnew, (aset_words (line0 s) m 0) by (done || lia). f_equal; lia.
    - rewrite Hframe by (intros i Hi; simpl; rewrite Hs0; lia).
      specialize (Hmem a Ha Ha4). unfold app_word in Hmem. simpl. rewrite Hmem.
      unfold upd. by destruct (Z.ltb_spec a 32), (Z.eqb_spec a 0); try lia. }
  assert (Hwr : flash_func_write_word 0 w s = State fcl_reset (line1 s) pm).
  { unfold flash_func_write_word. rewrite addr_wrap by (unfold capacity; lia).
    unfold fc_write. rewrite indx_addr by lia.
    erewrite (select_line0 _ _ _ 0) by (eauto; lia). simpl.
    rewrite Hi7 in *. simpl. rewrite Hl1. simpl.
    change (0 `mod` 32 / 4) with 0. subst s1 l. rewrite Hl1, Hi7 in Hfl. by rewrite Hfl. }
  exists (State fcl_reset (line1 s) pm). rewrite Hwr, Hl1.
  assert (Hrd : forall a, 0 <= a < capacity -> a `mod` 4 = 0 ->
            flash_func_read_word a (State fcl_reset fcl_reset pm)
            = (upd m 0 w a, State fcl_reset fcl_reset pm)).
  { intros a Ha Ha4. rewrite read_aligned by done. unfold fc_read, fc_line_select.
    rewrite tag_addr by lia. cbn [line0 line1]. rewrite !reset_no_tag by lia.
    by rewrite <- Hmem'. }
  split; [|split; [apply Hmem' | apply Hrd]].
  rewrite Hrd by (unfold capacity; lia). done.
Qed.

Lemma cache_prog_erase s n :
  4 * Z.of_nat n <= capacity ->
  exists s', flash_sweep n 0 (flash_erase_all 17 0 (arch_flash_unlock s))
             = (replicate n BLANK, s') /\ cache_prog s' (fun _ => BLANK) 0.
Proof.
  intros Hn. pose proof (erased_prog s) as Hp. eexists. split; [|exact Hp].
  erewrite sweep_swept; [|eapply prog_flushed; [exact Hp|]|..]; try done; try lia.
  - by f_equal; apply fmap_const_seq.
  - by destruct Hp as (_ & _ & _ & _ & Hl1 & _).
Qed.

#[export] Program Instance cached_seq_flash : SeqFlash (state (M := M)) := {
  flash_capacity := capacity;
  prog := cache_prog;
  swept := cache_swept;
  prog_erase := cache_prog_erase;
  prog_write := cache_prog_write;
  prog_sweep := cache_prog_sweep4;
}.
Next Obligation.
  intros s m c w Hs Hc. destruct (cache_swept_seal s m c w Hs Hc) as (s' & ? & _ & Hrd).
  exists s'. split; [done|]. intros a Ha Ha4. exists s'. by apply Hrd.
Qed.

(** ** Properties *)

(** The programming loop of a client: write each word at the cursor and
    read it back. *)
Fixpoint write_verify (ws : list Z) (c : Z) s : option state :=
  match ws with
  | [] => Some s
  | w :: ws =>
      let '(v, s') := flash_func_read_word c (flash_func_write_word c w s) in
      if v =? w then write_verify ws (c + 4) s' else None
  end.

Lemma write_verify_prog ws : forall c s m,
  cache_prog s m c -> c + 4 * Z.of_nat (length ws) <= capacity ->
  exists s', write_verify ws c s = Some s'
    /\ cache_prog s' (image_at ws c m) (c + 4 * Z.of_nat (length ws)).
Proof.
  induction ws as [|w ws IH]; intros c s m Hp Hcap; simpl in *.
  { exists s. by rewrite Z.add_0_r. }
  pose proof Hp as (Hc & Hc4 & _).
  destruct (cache_prog_write s m c w Hp) as (s1 & -> & Hp1); [lia..|].
  rewrite Z.eqb_refl. destruct (IH (c + 4) s1 _ Hp1) as (s2 & ? & Hp2); [lia|].
  exists s2. split; [done|].
  by replace (c + 4 * Z.of_nat (S (length ws))) with (c + 4 + 4 * Z.of_nat (length ws)) by lia.
Qed.

(** C25: the two-line cache implements a word-programmable flash.  For any
    image of at least 8 words that fits in the application area, whatever
    the flash held: after [arch_flash_unlock] and the erase loop, writing
    each word (the first one blanked) with an immediate read-back succeeds
    word for word; the sweep that computes the CRC then reads the image
    back; and writing the deferred first word leaves the flash itself (not
    the cache) holding exactly the image. *)
Theorem cache_programs_flash (s : state) (w0 : Z) (ws : list Z) (n : nat) :
  (7 <= length ws)%nat -> 4 * Z.of_nat (S (length ws)) <= 32 * Z.of_nat n <= capacity ->
  exists s1 s2 s3,
    write_verify (BLANK :: ws) 0 (flash_erase_all 17 0 (arch_flash_unlock s)) = Some s1
    /\ flash_sweep (8 * n) 0 s1
       = ((fun i => image_at (BLANK :: ws) 0 (fun _ => BLANK) (4 * Z.of_nat i))
            <$> seq 0 (8 * n), s2)
    /\ flash_func_read_word 0 (flash_func_write_word 0 w0 s2) = (w0, s3)
    /\ (forall i w, (w0 :: ws) !! i = Some w -> app_word s3 (4 * Z.of_nat i) = w).
Proof.
  intros Hlen Hn. pose proof (erased_prog s) as Hp0.
  destruct (write_verify_prog (BLANK :: ws) 0 _ _ Hp0) as (s1 & E1 & Hp1); [simpl; lia|].
  destruct (cache_prog_sweep s1 _ _ n Hp1) as (s2 & E2 & Hs2); [simpl in *; lia|].
  destruct (cache_swept_seal s2 _ _ w0 Hs2) as (s3 & E3 & Hm & _); [simpl; lia|].
  exists s1, s2, s3. do 3 (split; [done|]). intros i w Hi.
  apply lookup_lt_Some in Hi as Hlt. simpl in Hlt.
  rewrite Hm by lia. unfold upd. destruct i as [|i].
  { by injection Hi as ->. }
  destruct (Z.eqb_spec (4 * Z.of_nat (S i)) 0); [lia|].
  pose proof (image_at_lookup (BLANK :: ws) 0 (fun _ => BLANK) (S i) w Hi) as E.
  rewrite <- E. done.
Qed.

(** A failed block write is never reported as a success.  When the
    read-back of the last word of a buffered block flushes line 1 and
    [up_progmem_write] does not return the block size, the value read
    differs from the word that was written. *)
Theorem failed_flush_detected (s : state) (a w : Z) :
  0 <= a < capacity -> a `mod` 32 = 28 ->
  fc_line_select s (a + APP_LOAD_ADDRESS) = Some true ->
  aget (words (line1 s)) 7 = w ->
  (fc_flush (line1 s) s).1 <> 0 ->
  (flash_func_read_word a s).1 <> w.
Proof.
  intros Ha Ha28 Hsel Hw Hfl. rewrite read_aligned by lia. unfold fc_read. rewrite Hsel.
  rewrite indx_addr, Ha28 by lia. change (28 / 4) with 7. cbn [get_line].
  rewrite Hw. simpl. destruct (fc_flush (line1 s) s) as [e s']. simpl in Hfl.
  destruct (Z.eqb_spec e 0); [done|]. simpl. intros E.
  assert (Z.lxor (Z.lxor w 0xffffffff) w = 0) as E0 by (rewrite E; apply Z.lxor_nilpotent).
  rewrite Z.lxor_comm, <- Z.lxor_assoc, Z.lxor_nilpotent, Z.lxor_0_l in E0. done.
Qed.

(** The erase verification of CHIP_ERASE cannot see the first 32 bytes
    of the application.  [arch_flash_unlock] tags line 0 with the
    application's address and blank words, so until that line is written the
    first 8 words read as blank whatever the flash holds. *)
Theorem unlock_masks_first_block (s : state) (a : Z) :
  0 <= a < 32 -> a `mod` 4 = 0 ->
  (flash_func_read_word a (arch_flash_unlock s)).1 = BLANK.
Proof.
  intros Ha Ha4. rewrite read_aligned by (unfold capacity; lia). unfold fc_read.
  assert (Hsel : fc_line_select (arch_flash_unlock s) (a + APP_LOAD_ADDRESS) = Some false).
  { unfold fc_line_select. rewrite tag_addr by lia. cbn -[APP_LOAD_ADDRESS].
    by destruct (Z.eqb_spec APP_LOAD_ADDRESS (32 * (a / 32) + APP_LOAD_ADDRESS)); [|lia]. }
  rewrite Hsel.
  simpl. rewrite indx_addr by lia. unfold aget.
  assert (a = 0 \/ a = 4 \/ a = 8 \/ a = 12 \/ a = 16 \/ a = 20 \/ a = 24 \/ a = 28)
    as Hcase by lia.
  by repeat destruct Hcase as [->|Hcase]; try subst a.
Qed.
End Laws.

(** ** A concrete flash satisfies the driver's laws *)

Lemma page_of_spec p a : in_page p a <-> page_of a = p.
Proof. unfold in_page, page_of, FLASH_BASE, PAGE_BYTES. lia. Qed.

Lemma toy_put_frame ws : forall a b m,
  (forall i, 0 <= i < Z.of_nat (length ws) -> b <> a + 4 * i) -> toy_put a ws m !! b = m !! b.
Proof.
  induction ws as [|w ws IH]; intros a b m Hb; simpl in *; [done|].
  rewrite lookup_insert_ne by (specialize (Hb 0); lia). apply IH.
  intros i Hi. specialize (Hb (i + 1)). lia.
Qed.

Lemma toy_put_new ws : forall a m i w, ws !! i = Some w ->
  toy_put a ws m !! (a + 4 * Z.of_nat i) = Some w.
Proof.
  induction ws as [|v ws IH]; intros a m [|i] w Hi; simplify_eq/=.
  - by rewrite Z.add_0_r, lookup_insert_eq.
  - rewrite lookup_insert_ne by lia.
    replace (a + 4 * Z.of_nat (S i)) with (a + 4 + 4 * Z.of_nat i) by lia. by apply IH.
Qed.

#[export] Instance toy_laws : ProgmemLaws toy.
Proof.
  split; intros; simpl in *; unfold toy_read.
  - done.
  - by erewrite toy_put_new.
  - by rewrite toy_put_frame.
  - rewrite map_lookup_filter_None_2; [done|]. right. intros w _ Hne. apply page_of_spec in H.
    by apply Hne.
  - f_equal. rewrite map_lookup_filter. destruct (m !! a) as [w|] eqn:E; simpl; [|done].
    case_guard as Hg; [done|]. simpl in Hg. exfalso. apply H, page_of_spec.
    done.
  - destruct (m !! a) as [w|] eqn:E; [|done]. simpl.
    destruct (decide (w = BLANK)) as [|Hw]; [done|]. exfalso.
    assert (filter (fun kv => page_of kv.1 = p /\ kv.2 <> BLANK) m = (empty : toy)) as Hf
      by (apply map_size_empty_inv; lia).
    assert (filter (fun kv => page_of kv.1 = p /\ kv.2 <> BLANK) m !! a = Some w) as Hl.
    { apply map_lookup_filter_Some. split; [done|]. split; [by apply page_of_spec | done]. }
    by rewrite Hf in Hl.
Qed.

(** A flash holding an old image, in its power-up cache state. *)
Definition used_flash : state (M := toy) :=
  State fcl_reset fcl_reset (toy_put APP_LOAD_ADDRESS (Z.of_nat <$> seq 1 40) empty).

Lemma cache_programs_flash_witness :
  exists s1 s2 s3,
    write_verify (BLANK :: (Z.of_nat <$> seq 100 12)) 0
      (flash_erase_all 17 0 (arch_flash_unlock used_flash)) = Some s1
    /\ flash_sweep (8 * 2) 0 s1
       = ((fun i => image_at (BLANK :: (Z.of_nat <$> seq 100 12)) 0 (fun _ => BLANK)
                      (4 * Z.of_nat i)) <$> seq 0 (8 * 2), s2)
    /\ flash_func_read_word 0 (flash_func_write_word 0 77 s2) = (77, s3)
    /\ (forall i w, (77 :: (Z.of_nat <$> seq 100 12)) !! i = Some w ->
          app_word s3 (4 * Z.of_nat i) = w).
Proof.
  apply (cache_programs_flash used_flash 77 (Z.of_nat <$> seq 100 12) 2).
  - simpl. lia.
  - simpl. unfold capacity. lia.
Defined.

(** A driver whose writes fail (write-protected flash). *)
Record locked := Locked { unlocked : toy }.
#[export] Instance locked_progmem : Progmem locked := {
  pm_read m a := toy_read (unlocked m) a;
  pm_write a ws m := (-30, m);
  pm_eraseblock p m := m;
  pm_ispageerased m p := 1;
}.

Definition locked_line1 : state (M := locked) :=
  State fcl_reset (Line 7 (APP_LOAD_ADDRESS + 32) [1; 2; 3; 4; 5; 6; 7; 8]) (Locked empty).

Lemma failed_flush_detected_witness :
  (flash_func_read_word 60 locked_line1).1 <> 8.
Proof.
  apply (failed_flush_detected locked_line1 60 8);
    [unfold capacity; lia | reflexivity | reflexivity | reflexivity | done].
Defined.

Lemma unlock_masks_first_block_witness :
  (flash_func_read_word 8 (arch_flash_unlock used_flash)).1 = BLANK
  /\ app_word (arch_flash_unlock used_flash) 8 = 3.
Proof.
  split; [apply (unlock_masks_first_block used_flash 8); [lia | reflexivity]
         | vm_compute; reflexivity].
Defined.
End FlashCache.
