(* ===== verification/Crc.v ===== *)
(** Checksums: the table-driven CRC-32 of the bootloader (bl.c), the
    bit-serial CRC-16/32/64 of src/lib/systemlib/crc.c, and the table-driven
    CRC-8 that protects the PX4IO packets (protocol.h).  A byte buffer is a
    list of values in 0..255. *)

From Stdlib Require Import ZArith Lia.
From stdpp Require Import base list numbers.
From S2P Require Import Prelude.

Local Open Scope Z_scope.

(** * CRC-32 of the bootloader *)

(** One iteration of the inner loop that fills the table. *)
Definition crctab_step (c : Z) : Z :=
  if Z.land c 1 =? 1 then Z.lxor 0xedb88320 (Z.shiftr c 1) else Z.shiftr c 1.

Definition crctab_gen : list Z := (fun i => Nat.iter 8 crctab_step (Z.of_nat i)) <$> seq 0 256.

(** [crc32] keeps its table in a static array that the first call fills. *)
Definition crc32_static (tab : list Z) (src : list Z) (state : Z) : Z * list Z :=
  let tab := if aget tab 1 =? 0 then crctab_gen else tab in
  (fold_left (fun state b => Z.lxor (aget tab (Z.land (Z.lxor state b) 0xff))
                                    (Z.shiftr state 8)) src state,
   tab).

(** The value of a call: once filled the table never changes. *)
Definition crc32 (src : list Z) (state : Z) : Z := (crc32_static crctab_gen src state).1.

(** * systemlib/crc.c *)

Definition crc16_bit (crc : Z) : Z :=
  if Z.testbit crc 15 then Z.lxor (u16 (Z.shiftl crc 1)) 0x1021 else u16 (Z.shiftl crc 1).

Definition crc16_add (crc value : Z) : Z :=
  Nat.iter 8 crc16_bit (Z.lxor crc (u16 (Z.shiftl value 8))).

Definition CRC16_OUTPUT_XOR : Z := 0x0000.

Definition crc16_signature (initial : Z) (bytes : list Z) : Z :=
  Z.lxor (fold_left crc16_add bytes initial) CRC16_OUTPUT_XOR.

(** [xor = -(acc & 1); acc >>= 1; acc ^= poly & xor]. *)
Definition crc32_bit (acc : Z) : Z :=
  let x := u32 (- Z.land acc 1) in
  Z.lxor (Z.shiftr acc 1) (Z.land 0xedb88320 x).

Definition crc32_signature (acc : Z) (bytes : list Z) : Z :=
  fold_left (fun acc b => Nat.iter 8 crc32_bit (Z.lxor acc b)) bytes acc.

Definition crc64_bit (crc : Z) : Z :=
  if Z.testbit crc 63 then Z.lxor (u64 (Z.shiftl crc 1)) 0x42F0E1EBA9EA3693
  else u64 (Z.shiftl crc 1).

Definition crc64_add_word (crc value : Z) : Z :=
  fold_left (fun crc byte => Nat.iter 8 crc64_bit (Z.lxor crc (u64 (Z.shiftl byte 56))))
            (bytes_of_word value) crc.

(** * CRC-8 of the PX4IO packets *)

Definition crc8_tab : list Z :=
  [0x00; 0x07; 0x0E; 0x09; 0x1C; 0x1B; 0x12; 0x15;
   0x38; 0x3F; 0x36; 0x31; 0x24; 0x23; 0x2A; 0x2D;
   0x70; 0x77; 0x7E; 0x79; 0x6C; 0x6B; 0x62; 0x65;
   0x48; 0x4F; 0x46; 0x41; 0x54; 0x53; 0x5A; 0x5D;
   0xE0; 0xE7; 0xEE; 0xE9; 0xFC; 0xFB; 0xF2; 0xF5;
   0xD8; 0xDF; 0xD6; 0xD1; 0xC4; 0xC3; 0xCA; 0xCD;
   0x90; 0x97; 0x9E; 0x99; 0x8C; 0x8B; 0x82; 0x85;
   0xA8; 0xAF; 0xA6; 0xA1; 0xB4; 0xB3; 0xBA; 0xBD;
   0xC7; 0xC0; 0xC9; 0xCE; 0xDB; 0xDC; 0xD5; 0xD2;
   0xFF; 0xF8; 0xF1; 0xF6; 0xE3; 0xE4; 0xED; 0xEA;
   0xB7; 0xB0; 0xB9; 0xBE; 0xAB; 0xAC; 0xA5; 0xA2;
   0x8F; 0x88; 0x81; 0x86; 0x93; 0x94; 0x9D; 0x9A;
   0x27; 0x20; 0x29; 0x2E; 0x3B; 0x3C; 0x35; 0x32;
   0x1F; 0x18; 0x11; 0x16; 0x03; 0x04; 0x0D; 0x0A;
   0x57; 0x50; 0x59; 0x5E; 0x4B; 0x4C; 0x45; 0x42;
   0x6F; 0x68; 0x61; 0x66; 0x73; 0x74; 0x7D; 0x7A;
   0x89; 0x8E; 0x87; 0x80; 0x95; 0x92; 0x9B; 0x9C;
   0xB1; 0xB6; 0xBF; 0xB8; 0xAD; 0xAA; 0xA3; 0xA4;
   0xF9; 0xFE; 0xF7; 0xF0; 0xE5; 0xE2; 0xEB; 0xEC;
   0xC1; 0xC6; 0xCF; 0xC8; 0xDD; 0xDA; 0xD3; 0xD4;
   0x69; 0x6E; 0x67; 0x60; 0x75; 0x72; 0x7B; 0x7C;
   0x51; 0x56; 0x5F; 0x58; 0x4D; 0x4A; 0x43; 0x44;
   0x19; 0x1E; 0x17; 0x10; 0x05; 0x02; 0x0B; 0x0C;
   0x21; 0x26; 0x2F; 0x28; 0x3D; 0x3A; 0x33; 0x34;
   0x4E; 0x49; 0x40; 0x47; 0x52; 0x55; 0x5C; 0x5B;
   0x76; 0x71; 0x78; 0x7F; 0x6A; 0x6D; 0x64; 0x63;
   0x3E; 0x39; 0x30; 0x37; 0x22; 0x25; 0x2C; 0x2B;
   0x06; 0x01; 0x08; 0x0F; 0x1A; 0x1D; 0x14; 0x13;
   0xAE; 0xA9; 0xA0; 0xA7; 0xB2; 0xB5; 0xBC; 0xBB;
   0x96; 0x91; 0x98; 0x9F; 0x8A; 0x8D; 0x84; 0x83;
   0xDE; 0xD9; 0xD0; 0xD7; 0xC2; 0xC5; 0xCC; 0xCB;
   0xE6; 0xE1; 0xE8; 0xEF; 0xFA; 0xFD; 0xF4; 0xF3].

(** [crc_packet] over the bytes of the packet up to its last register. *)
Definition crc8_bytes (bytes : list Z) : Z :=
  fold_left (fun c b => aget crc8_tab (Z.lxor c b)) bytes 0.

(** Reference: CRC-8 with the polynomial x^8 + x^2 + x + 1, bit by bit. *)
Definition crc8_bit (c : Z) : Z :=
  if Z.testbit c 7 then Z.lxor (u8 (Z.shiftl c 1)) 0x07 else u8 (Z.shiftl c 1).

Definition crc8_ref (bytes : list Z) : Z :=
  fold_left (fun c b => Nat.iter 8 crc8_bit (Z.lxor c b)) bytes 0.

(** * Lemmas *)

(** A property of every byte, by enumeration. *)
Lemma forall_u8 (P : Z -> bool) :
  forallb P (Z.of_nat <$> seq 0 256) = true -> forall x, is_u8 x -> P x = true.
Proof.
  intros H x Hx. rewrite forallb_forall in H. apply H.
  apply list_elem_of_In, list_elem_of_fmap. exists (Z.to_nat x).
  unfold is_u8 in Hx. split; [lia|]. apply elem_of_seq. lia.
Qed.

Lemma lxor_u8 a b : is_u8 a -> is_u8 b -> is_u8 (Z.lxor a b).
Proof.
  unfold is_u8. intros Ha Hb.
  assert (Z.lxor a b = Z.land (Z.lxor a b) (Z.ones 8)) as ->.
  { apply Z.bits_inj'. intros n Hn. rewrite Z.land_spec, Z.lxor_spec.
    destruct (Z_lt_le_dec n 8).
    - rewrite Z.ones_spec_low by lia. by rewrite andb_true_r.
    - rewrite Z.ones_spec_high by lia. rewrite andb_false_r.
      by rewrite !(testbit_high 8) by lia. }
  rewrite Z.land_ones by lia. apply (Z.mod_pos_bound _ (2 ^ 8)). lia.
Qed.

Lemma crctab_step_alt c : 
  crctab_step c = Z.lxor (Z.shiftr c 1) (if Z.testbit c 0 then 0xedb88320 else 0).
Proof.
  unfold crctab_step. replace (Z.land c 1 =? 1) with (Z.testbit c 0).
  - destruct (Z.testbit c 0); [apply Z.lxor_comm | by rewrite Z.lxor_0_r].
  - change 1 with (Z.ones 1) at 1. rewrite Z.land_ones by lia. change (2 ^ 1) with 2.
    rewrite Z.bit0_odd, Zmod_odd. by destruct (Z.odd c).
Qed.

(** The step is linear over exclusive or. *)
Lemma crctab_step_lxor a b : crctab_step (Z.lxor a b) = Z.lxor (crctab_step a) (crctab_step b).
Proof.
  rewrite !crctab_step_alt, Z.lxor_spec, Z.shiftr_lxor.
  apply Z.bits_inj'. intros n _.
  destruct (Z.testbit a 0), (Z.testbit b 0); simpl; rewrite !Z.lxor_spec, ?Z.bits_0;
    destruct (Z.testbit (Z.shiftr a 1) n), (Z.testbit (Z.shiftr b 1) n),
      (Z.testbit 0xedb88320 n); done.
Qed.

Lemma crctab_iter_lxor n a b :
  Nat.iter n crctab_step (Z.lxor a b)
  = Z.lxor (Nat.iter n crctab_step a) (Nat.iter n crctab_step b).
Proof. induction n as [|n IH]; simpl; [done|]. by rewrite IH, crctab_step_lxor. Qed.

(** On a multiple of [2^n], [n] steps only shift. *)
Lemma crctab_iter_high n a : Nat.iter n crctab_step (Z.shiftl a (Z.of_nat n)) = a.
Proof.
  revert a. induction n as [|n IH]; intros a; [apply Z.shiftl_0_r|].
  rewrite Nat.iter_succ_r. rewrite <- (IH a) at 2. f_equal.
  rewrite crctab_step_alt, Z.shiftl_spec by lia.
  rewrite Z.testbit_neg_r, Z.lxor_0_r by lia.
  rewrite Z.shiftr_shiftl_l by lia. f_equal. lia.
Qed.

Lemma split_low8 x : x = Z.lxor (Z.land x 0xff) (Z.shiftl (Z.shiftr x 8) 8).
Proof.
  apply Z.bits_inj'. intros n Hn. change 0xff with (Z.ones 8).
  rewrite Z.lxor_spec, Z.land_spec, Z.shiftl_spec by lia.
  destruct (Z_lt_le_dec n 8).
  - rewrite Z.ones_spec_low, (Z.testbit_neg_r _ (n - 8)) by lia.
    by rewrite andb_true_r, xorb_false_r.
  - rewrite Z.ones_spec_high, Z.shiftr_spec by lia. rewrite andb_false_r.
    simpl. f_equal. lia.
Qed.

Lemma crctab_lookup x : is_u8 x -> aget crctab_gen x = Nat.iter 8 crctab_step x.
Proof.
  intros Hx. unfold is_u8 in Hx. unfold aget, crctab_gen. rewrite list_lookup_fmap.
  rewrite lookup_seq_lt by lia. cbn -[Nat.iter]. f_equal. lia.
Qed.

Lemma land_ff_u8 x : is_u8 (Z.land x 0xff).
Proof. change 0xff with (Z.ones 8). rewrite Z.land_ones by lia. apply (Z.mod_pos_bound x 256). lia. Qed.

Lemma shiftr8_lxor_byte s b : is_u8 b -> Z.shiftr (Z.lxor s b) 8 = Z.shiftr s 8.
Proof.
  intros Hb. rewrite Z.shiftr_lxor. rewrite (Z.shiftr_div_pow2 b) by lia.
  unfold is_u8 in Hb. rewrite Z.div_small by (simpl; lia). apply Z.lxor_0_r.
Qed.

(** One table lookup is eight bit steps. *)
Lemma crc32_byte s b :
  is_u8 b ->
  Z.lxor (aget crctab_gen (Z.land (Z.lxor s b) 0xff)) (Z.shiftr s 8)
  = Nat.iter 8 crctab_step (Z.lxor s b).
Proof.
  intros Hb. rewrite crctab_lookup by apply land_ff_u8.
  rewrite (split_low8 (Z.lxor s b)) at 2. rewrite crctab_iter_lxor. f_equal.
  change 8 with (Z.of_nat 8) at 3. rewrite crctab_iter_high. by rewrite shiftr8_lxor_byte.
Qed.

Lemma crc32_bit_step acc : 0 <= acc -> crc32_bit acc = crctab_step acc.
Proof.
  intros Ha. rewrite crctab_step_alt. unfold crc32_bit. f_equal.
  change 1 with (Z.ones 1). rewrite Z.land_ones by lia. change (2 ^ 1) with 2.
  rewrite Z.bit0_odd, Zmod_odd. by destruct (Z.odd acc).
Qed.

Lemma crctab_step_nonneg c : 0 <= c -> 0 <= crctab_step c.
Proof.
  intros. rewrite crctab_step_alt. apply Z.lxor_nonneg.
  rewrite Z.shiftr_nonneg. destruct (Z.testbit c 0); lia.
Qed.

Lemma crc32_bits_step n acc : 0 <= acc ->
  Nat.iter n crc32_bit acc = Nat.iter n crctab_step acc /\ 0 <= Nat.iter n crctab_step acc.
Proof.
  intros Ha. induction n as [|n [IH1 IH2]]; [done|]. simpl. rewrite IH1.
  split; [by apply crc32_bit_step | by apply crctab_step_nonneg].
Qed.

Lemma crc32_fold_eq src : forall st, 0 <= st -> Forall is_u8 src ->
  fold_left (fun state b => Z.lxor (aget crctab_gen (Z.land (Z.lxor state b) 0xff))
                                   (Z.shiftr state 8)) src st
  = crc32_signature st src.
Proof.
  induction src as [|b src IH]; intros st Hst Hsrc; [done|].
  inversion Hsrc as [|? ? Hb Hsrc']; subst.
  assert (Hx : 0 <= Z.lxor st b) by (apply Z.lxor_nonneg; unfold is_u8 in Hb; lia).
  destruct (crc32_bits_step 8 (Z.lxor st b) Hx) as [E Hn].
  unfold crc32_signature in *. cbn [fold_left]. rewrite crc32_byte by done.
  rewrite E. by apply IH.
Qed.

(** ** CRC-8 *)

Lemma crc8_tab_ref x : is_u8 x -> aget crc8_tab x = Nat.iter 8 crc8_bit x.
Proof.
  intros Hx. apply Z.eqb_eq. revert x Hx. apply forall_u8. vm_compute. reflexivity.
Qed.

Lemma crc8_tab_u8 x : is_u8 x -> is_u8 (aget crc8_tab x).
Proof.
  intros Hx. assert ((0 <=? aget crc8_tab x) && (aget crc8_tab x <? 256) = true) as H.
  { revert x Hx. apply forall_u8. vm_compute. reflexivity. }
  apply andb_true_iff in H as [H1 H2]. split; [by apply Z.leb_le | by apply Z.ltb_lt].
Qed.

(** The table is a permutation of the bytes: its entries have an inverse. *)
Definition crc8_inv (y : Z) : Z :=
  Z.of_nat (default 0%nat (fst <$> list_find (fun v => v = y) crc8_tab)).

Lemma crc8_inv_tab x : is_u8 x -> crc8_inv (aget crc8_tab x) = x.
Proof.
  intros Hx. apply Z.eqb_eq. revert x Hx. apply forall_u8. vm_compute. reflexivity.
Qed.

Lemma crc8_tab_inj x y : is_u8 x -> is_u8 y -> aget crc8_tab x = aget crc8_tab y -> x = y.
Proof. intros Hx Hy E. by rewrite <- (crc8_inv_tab x), <- (crc8_inv_tab y), E. Qed.

Lemma crc8_fold_u8 l : forall c, is_u8 c -> Forall is_u8 l ->
  is_u8 (fold_left (fun c b => aget crc8_tab (Z.lxor c b)) l c).
Proof.
  induction l as [|b l IH]; intros c Hc Hl; [done|]. inversion Hl; subst. simpl.
  apply IH; [|done]. by apply crc8_tab_u8, lxor_u8.
Qed.

Lemma crc8_fold_inj l : forall c c', is_u8 c -> is_u8 c' -> Forall is_u8 l ->
  fold_left (fun c b => aget crc8_tab (Z.lxor c b)) l c
  = fold_left (fun c b => aget crc8_tab (Z.lxor c b)) l c' -> c = c'.
Proof.
  induction l as [|b l IH]; intros c c' Hc Hc' Hl E; [done|].
  inversion Hl as [|? ? Hb Hl']; subst. simpl in E.
  apply IH in E; auto using crc8_tab_u8, lxor_u8.
  apply crc8_tab_inj in E; auto using lxor_u8.
  rewrite <- (Z.lxor_0_r c), <- (Z.lxor_0_r c'), <- (Z.lxor_nilpotent b).
  by rewrite <- !Z.lxor_assoc, E.
Qed.

Lemma crc8_bytes_u8 l : Forall is_u8 l -> is_u8 (crc8_bytes l).
Proof. intros. by apply crc8_fold_u8. Qed.

(** Changing one byte changes the checksum. *)
Lemma crc8_bytes_neq (l1 l2 : list Z) (x y : Z) :
  Forall is_u8 l1 -> Forall is_u8 l2 -> is_u8 x -> is_u8 y -> x <> y ->
  crc8_bytes (l1 ++ x :: l2) <> crc8_bytes (l1 ++ y :: l2).
Proof.
  intros H1 H2 Hx Hy Hne. unfold crc8_bytes. rewrite !fold_left_app. simpl. intros E.
  pose proof (crc8_fold_u8 l1 0 ltac:(done) H1) as Hc.
  apply crc8_fold_inj in E; auto using crc8_tab_u8, lxor_u8.
  apply crc8_tab_inj in E; auto using lxor_u8. apply Hne.
  rewrite <- (Z.lxor_0_l x), <- (Z.lxor_0_l y).
  rewrite <- (Z.lxor_nilpotent (fold_left (fun c b => aget crc8_tab (Z.lxor c b)) l1 0)).
  by rewrite !Z.lxor_assoc, E.
Qed.

(** * Properties *)

(** C39: the bootloader's table-driven CRC-32 computes the same function as
    the bit-serial [crc32_signature] of systemlib, on every byte string and
    from every start value, both on the first call (which fills the static
    table) and on every later one. *)
Theorem crc32_table_correct (tab src : list Z) (state : Z) :
  tab = replicate 256 0 \/ tab = crctab_gen -> 0 <= state -> Forall is_u8 src ->
  crc32_static tab src state = (crc32_signature state src, crctab_gen).
Proof.
  intros Htab Hst Hsrc. rewrite <- crc32_fold_eq by done.
  by destruct Htab as [-> | ->].
Qed.

Lemma crc32_table_correct_witness :
  crc32_static (replicate 256 0) [0x31; 0x32; 0x33] 0
  = (crc32_signature 0 [0x31; 0x32; 0x33], crctab_gen).
Proof.
  apply crc32_table_correct; [by left | lia | repeat constructor; done].
Defined.

(** The PX4IO packet checksum is the CRC-8 of polynomial 0x07, and it
    detects every corruption confined to one byte: two byte strings that
    differ in exactly one position have different checksums. *)
Theorem crc8_detects_byte_errors (l1 l2 : list Z) (x y : Z) :
  Forall is_u8 l1 -> Forall is_u8 l2 -> is_u8 x -> is_u8 y -> x <> y ->
  crc8_bytes (l1 ++ x :: l2) = crc8_ref (l1 ++ x :: l2)
  /\ crc8_bytes (l1 ++ x :: l2) <> crc8_bytes (l1 ++ y :: l2).
Proof.
  intros H1 H2 Hx Hy Hne. split.
  - unfold crc8_bytes, crc8_ref.
    assert (Hl : Forall is_u8 (l1 ++ x :: l2)) by (apply Forall_app; auto).
    assert (H0 : is_u8 0) by done. revert H0. generalize 0.
    induction Hl as [|b l Hb Hl IH]; intros c Hc; [done|].
    cbn [fold_left]. rewrite <- crc8_tab_ref by auto using lxor_u8.
    apply IH. auto using crc8_tab_u8, lxor_u8.
  - by apply crc8_bytes_neq.
Qed.

Lemma crc8_detects_byte_errors_witness :
  crc8_bytes ([0x42; 0x00] ++ 0x33 :: [0x01]) = crc8_ref ([0x42; 0x00] ++ 0x33 :: [0x01])
  /\ crc8_bytes ([0x42; 0x00] ++ 0x33 :: [0x01]) <> crc8_bytes ([0x42; 0x00] ++ 0x32 :: [0x01]).
Proof.
  apply (crc8_detects_byte_errors [0x42; 0x00] [0x01] 0x33 0x32);
    repeat constructor; done.
Defined.
