(* ===== verification/Bootloader.v ===== *)
(** The serial/USB bootloader: src/platforms/nuttx/src/bootloader/common/bl.c,
    with the board constants of boards/codev/dp1000-v2/src/hw_config.h and the
    chip description of stm32_common/main.c.

    The environment of a run is the list of what each poll of the input ports
    returns and how many system ticks fall before the next test of a timer.
    The [goto cmd_bad] / [goto cmd_fail] / [return] exits of [bootloader] are
    the outcomes of a small state monad.  [wlog] is a ghost field: the history
    of flash operations, which the safety theorems talk about. *)

From Stdlib Require Import ZArith Lia Ascii String.
From stdpp Require Import base list numbers.
From S2P Require Import Prelude Crc FlashCache.

Local Open Scope Z_scope.

(** * Protocol constants *)

Definition BL_PROTOCOL_VERSION : Z := 5.
Definition PROTO_INSYNC : Z := 0x12.
Definition PROTO_EOC : Z := 0x20.
Definition PROTO_OK : Z := 0x10.
Definition PROTO_FAILED : Z := 0x11.
Definition PROTO_INVALID : Z := 0x13.
Definition PROTO_GET_SYNC : Z := 0x21.
Definition PROTO_GET_DEVICE : Z := 0x22.
Definition PROTO_CHIP_ERASE : Z := 0x23.
Definition PROTO_PROG_MULTI : Z := 0x27.
Definition PROTO_GET_CRC : Z := 0x29.
Definition PROTO_GET_OTP : Z := 0x2a.
Definition PROTO_GET_SN : Z := 0x2b.
Definition PROTO_GET_CHIP : Z := 0x2c.
Definition PROTO_SET_DELAY : Z := 0x2d.
Definition PROTO_GET_CHIP_DES : Z := 0x2e.
Definition PROTO_BOOT : Z := 0x30.
Definition PROTO_DEBUG : Z := 0x31.

Definition PROTO_DEVICE_BL_REV : Z := 1.
Definition PROTO_DEVICE_BOARD_ID : Z := 2.
Definition PROTO_DEVICE_BOARD_REV : Z := 3.
Definition PROTO_DEVICE_FW_SIZE : Z := 4.
Definition PROTO_DEVICE_VEC_AREA : Z := 5.

Definition STATE_PROTO_GET_SYNC : Z := 0x1.
Definition STATE_PROTO_GET_DEVICE : Z := 0x2.
Definition STATE_PROTO_CHIP_ERASE : Z := 0x4.
Definition STATE_PROTO_PROG_MULTI : Z := 0x8.
Definition STATE_PROTO_GET_CRC : Z := 0x10.
Definition STATE_PROTO_GET_SN : Z := 0x40.
Definition STATE_PROTO_GET_CHIP : Z := 0x80.
Definition STATE_PROTO_GET_CHIP_DES : Z := 0x100.
Definition STATE_ALLOWS_ERASE : Z := Z.lor STATE_PROTO_GET_SYNC STATE_PROTO_GET_DEVICE.
Definition STATE_ALLOWS_REBOOT : Z :=
  Z.lor (Z.lor STATE_ALLOWS_ERASE STATE_PROTO_PROG_MULTI) STATE_PROTO_GET_CRC.

(** bl.h *)
Definition NONE : Z := 0.
Definition USART : Z := 1.
Definition USB : Z := 2.
Definition NTIMERS : nat := 4.
Definition TIMER_BL_WAIT : Z := 0.
Definition TIMER_CIN : Z := 1.
Definition TIMER_LED : Z := 2.
Definition TIMER_DELAY : Z := 3.
Definition BOOT_DELAY_SIGNATURE1 : Z := 0x92c2ecff.
Definition BOOT_DELAY_SIGNATURE2 : Z := 0xc5057d5d.
Definition BOOT_DELAY_MAX : Z := 30.
Definition MAX_DES_LENGTH : Z := 20.
(** hw_config.h *)
Definition BOOT_DELAY_ADDRESS : Z := 0x1a0.
Definition ARCH_SN_MAX_LENGTH : Z := 12.

Record boardinfo := BoardInfo
  { board_type : Z; board_rev : Z; fw_size : Z; systick_mhz : Z }.

Inductive led_state := LED_BLINK | LED_ON | LED_OFF.

(** * The receive ring buffer *)

Record ring := Ring { head : Z; tail : Z; rx_buf : list Z }.
Definition RX_SIZE : Z := 256.
Definition ring_init : ring := Ring 0 0 (replicate 256 0).

Definition buf_put (b : Z) (r : ring) : ring :=
  let next := (head r + 1) `mod` RX_SIZE in
  if next =? tail r then r else Ring next (tail r) (aset (rx_buf r) (head r) b).

Definition buf_get (r : ring) : Z * ring :=
  if tail r =? head r then (-1, r)
  else (aget (rx_buf r) (tail r), Ring (head r) ((tail r + 1) `mod` RX_SIZE) (rx_buf r)).

(** * The chip description (stm32_common/main.c) *)

Definition chars (s : string) : list Z :=
  (fun c => Z.of_nat (nat_of_ascii c)) <$> list_ascii_of_string s.

Definition DEVID_MASK : Z := 0xfff.
Definition REVID_MASK : Z := 0xffff0000.

(** [mcu_descriptions]: id, description, revision. *)
Definition mcu_descriptions : list (Z * list Z * Z) :=
  [(0, chars "STM32???????", 63); (0x450, chars "STM32H7[4|5]x", 63)].

(** [silicon_revs] *)
Definition silicon_revs : list (Z * Z) :=
  [(0x1003, 89); (0x2001, 88); (0x2003, 86); (0x1001, 90)].

Definition get_mcu_desc (idcode : Z) (max : Z) : list Z :=
  let mcuid := Z.land idcode DEVID_MASK in
  let revid := Z.shiftr (Z.land idcode REVID_MASK) 16 in
  let '(desc, rev) :=
    match list_find (fun d => d.1.1 = mcuid) mcu_descriptions with
    | Some (_, d) => (d.1.2, d.2)
    | None => (chars "STM32???????", 63)
    end in
  let rev := fold_left (fun rev r => if r.1 =? revid then r.2 else rev) silicon_revs rev in
  let str := take (Z.to_nat (max - 1)) desc in
  let str := if Z.of_nat (length str) <? max - 1 then str ++ [44] else str in
  if Z.of_nat (length str) <? max - 1 then str ++ [rev] else str.

(** * State *)

(** What one poll of the ports sees: the results of [usb_cin] and [uart_cin]
    if they are called (negative when empty), and the ticks that follow. *)
Record poll := Poll { p_usb : Z; p_uart : Z; p_ticks : nat }.

(** A flash operation, with the command flags seen when it was issued. *)
Inductive flash_op := OpErase (flags : Z) | OpWrite (flags a w : Z).

Section Bootloader.
Context {F : Type} `{!WordFlash F}.
(** Board data, the serial number area and the MCU id register. *)
Context (board_info : boardinfo) (flash_func_read_sn : Z -> Z) (mcu_idcode : Z).

Record bl := Bl {
  bl_type : Z;
  last_input : Z;
  bl_state : Z;
  address : Z;
  first_word : Z;
  timeout : Z;
  timer : list Z;
  led : led_state;
  cin_count : Z;
  flash_buffer : list Z;
  dev : F;
  tx : list (Z * Z);
  wlog : list flash_op;
  env : list poll }.

Definition set_bl_type (v : Z) (s : bl) : bl :=
  Bl v (last_input s) (bl_state s) (address s) (first_word s) (timeout s) (timer s)
     (led s) (cin_count s) (flash_buffer s) (dev s) (tx s) (wlog s) (env s).
Definition set_last_input (v : Z) (s : bl) : bl :=
  Bl (bl_type s) v (bl_state s) (address s) (first_word s) (timeout s) (timer s)
     (led s) (cin_count s) (flash_buffer s) (dev s) (tx s) (wlog s) (env s).
Definition set_bl_state (v : Z) (s : bl) : bl :=
  Bl (bl_type s) (last_input s) v (address s) (first_word s) (timeout s) (timer s)
     (led s) (cin_count s) (flash_buffer s) (dev s) (tx s) (wlog s) (env s).
Definition set_address (v : Z) (s : bl) : bl :=
  Bl (bl_type s) (last_input s) (bl_state s) v (first_word s) (timeout s) (timer s)
     (led s) (cin_count s) (flash_buffer s) (dev s) (tx s) (wlog s) (env s).
Definition set_first_word (v : Z) (s : bl) : bl :=
  Bl (bl_type s) (last_input s) (bl_state s) (address s) v (timeout s) (timer s)
     (led s) (cin_count s) (flash_buffer s) (dev s) (tx s) (wlog s) (env s).
Definition set_timeout (v : Z) (s : bl) : bl :=
  Bl (bl_type s) (last_input s) (bl_state s) (address s) (first_word s) v (timer s)
     (led s) (cin_count s) (flash_buffer s) (dev s) (tx s) (wlog s) (env s).
Definition set_timer (v : list Z) (s : bl) : bl :=
  Bl (bl_type s) (last_input s) (bl_state s) (address s) (first_word s) (timeout s)
     v (led s) (cin_count s) (flash_buffer s) (dev s) (tx s) (wlog s) (env s).
Definition set_led (v : led_state) (s : bl) : bl :=
  Bl (bl_type s) (last_input s) (bl_state s) (address s) (first_word s) (timeout s)
     (timer s) v (cin_count s) (flash_buffer s) (dev s) (tx s) (wlog s) (env s).
Definition set_cin_count (v : Z) (s : bl) : bl :=
  Bl (bl_type s) (last_input s) (bl_state s) (address s) (first_word s) (timeout s)
     (timer s) (led s) v (flash_buffer s) (dev s) (tx s) (wlog s) (env s).
Definition set_flash_buffer (v : list Z) (s : bl) : bl :=
  Bl (bl_type s) (last_input s) (bl_state s) (address s) (first_word s) (timeout s)
     (timer s) (led s) (cin_count s) v (dev s) (tx s) (wlog s) (env s).
Definition set_dev (v : F) (s : bl) : bl :=
  Bl (bl_type s) (last_input s) (bl_state s) (address s) (first_word s) (timeout s)
     (timer s) (led s) (cin_count s) (flash_buffer s) v (tx s) (wlog s) (env s).
Definition set_tx (v : list (Z * Z)) (s : bl) : bl :=
  Bl (bl_type s) (last_input s) (bl_state s) (address s) (first_word s) (timeout s)
     (timer s) (led s) (cin_count s) (flash_buffer s) (dev s) v (wlog s) (env s).
Definition set_wlog (v : list flash_op) (s : bl) : bl :=
  Bl (bl_type s) (last_input s) (bl_state s) (address s) (first_word s) (timeout s)
     (timer s) (led s) (cin_count s) (flash_buffer s) (dev s) (tx s) v (env s).
Definition set_env (v : list poll) (s : bl) : bl :=
  Bl (bl_type s) (last_input s) (bl_state s) (address s) (first_word s) (timeout s)
     (timer s) (led s) (cin_count s) (flash_buffer s) (dev s) (tx s) (wlog s) v.

(** ** The monad: [goto]s of the command loop *)

Inductive res (A : Type) :=
| Ret (a : A) (s : bl)
| CmdBad (s : bl)
| CmdFail (s : bl)
| Return (s : bl)
| Blocked (s : bl).       (* the environment ended while polling *)
#[global] Arguments Ret {A}.
#[global] Arguments CmdBad {A}.
#[global] Arguments CmdFail {A}.
#[global] Arguments Return {A}.
#[global] Arguments Blocked {A}.

Definition M (A : Type) := bl -> res A.

Definition ret {A} (a : A) : M A := fun s => Ret a s.
Definition bind {A B} (m : M A) (k : A -> M B) : M B := fun s =>
  match m s with
  | Ret a s' => k a s'
  | CmdBad s' => CmdBad s'
  | CmdFail s' => CmdFail s'
  | Return s' => Return s'
  | Blocked s' => Blocked s'
  end.
Definition gets {A} (f : bl -> A) : M A := fun s => Ret (f s) s.
Definition modify (f : bl -> bl) : M unit := fun s => Ret tt (f s).
(** [if (!b) goto cmd_bad] *)
Definition need (b : bool) : M unit := fun s => if b then Ret tt s else CmdBad s.
(** [if (!b) goto cmd_fail] *)
Definition verify (b : bool) : M unit := fun s => if b then Ret tt s else CmdFail s.

Local Notation "'let!' x ':=' m 'in' k" := (bind m (fun x => k))
  (at level 10, x name, m at level 100, k at level 200).
Local Notation "m1 ';;;' m2" := (bind m1 (fun _ => m2))
  (at level 100, right associativity).

(** ** Timers, LEDs, ports *)

(** [sys_tick_handler]: count the timers down; restart the blink timer. *)
Definition sys_tick_handler (s : bl) : bl :=
  let t := (fun v => if 0 <? v then v - 1 else v) <$> timer s in
  match led s with
  | LED_BLINK => set_timer (if aget t TIMER_LED =? 0 then aset t TIMER_LED 50 else t) s
  | _ => set_timer t s
  end.

Definition ticks (n : nat) (s : bl) : bl := Nat.iter n sys_tick_handler s.

(** [delay] spins until the timer has been decremented [msec] times. *)
Definition delay (msec : nat) (s : bl) : bl :=
  ticks msec (set_timer (aset (timer s) TIMER_DELAY (Z.of_nat msec)) s).

Definition set_led_state (st : led_state) (s : bl) : bl :=
  let s := set_led st s in
  match st with
  | LED_BLINK => set_timer (aset (timer s) TIMER_LED 0) s
  | _ => s
  end.

(** [cin]: USB first, then the UART; once the port of the session is known
    only that one is polled. *)
Definition cin (p : poll) (s : bl) : Z * bl :=
  if ((bl_type s =? NONE) || (bl_type s =? USB)) && (0 <=? p_usb p)
  then (p_usb p, set_last_input USB s)
  else if ((bl_type s =? NONE) || (bl_type s =? USART)) && (0 <=? p_uart p)
  then (p_uart p, set_last_input USART s)
  else (-1, s).

Definition cout (bytes : list Z) (s : bl) : bl :=
  if bl_type s =? NONE then s
  else set_tx (tx s ++ (pair (bl_type s) <$> bytes)) s.

Definition sync_response (s : bl) : bl := cout [PROTO_INSYNC; PROTO_OK] s.
Definition invalid_response (s : bl) : bl := cout [PROTO_INSYNC; PROTO_INVALID] s.
Definition failure_response (s : bl) : bl := cout [PROTO_INSYNC; PROTO_FAILED] s.

Fixpoint cin_poll (ps : list poll) (s : bl) : res Z :=
  match ps with
  | [] => Blocked (set_env [] s)
  | p :: ps =>
      let '(c, s) := cin p (set_env ps s) in
      if 0 <=? c then Ret c (ticks (p_ticks p) (set_cin_count (u32 (cin_count s + 1)) s))
      else let s := ticks (p_ticks p) s in
           if 0 <? aget (timer s) TIMER_CIN then cin_poll ps s else Ret (-1) s
  end.

Definition cin_wait (t : Z) : M Z := fun s =>
  cin_poll (env s) (set_timer (aset (timer s) TIMER_CIN t) s).

Definition wait_for_eoc (t : Z) : M bool :=
  let! c := cin_wait t in ret (c =? PROTO_EOC).

Definition cout_word (v : Z) : M unit := modify (cout (bytes_of_word v)).

(** [cin_word]: four bytes, least significant first; negative on a timeout. *)
Fixpoint cin_word_bytes (n : nat) (t : Z) : M (option (list Z)) :=
  match n with
  | O => ret (Some [])
  | S n =>
      let! c := cin_wait t in
      if c <? 0 then ret None
      else let! r := cin_word_bytes n t in ret ((fun l => Z.land c 0xff :: l) <$> r)
  end.

Definition cin_word (t : Z) : M (option Z) :=
  let! r := cin_word_bytes 4 t in
  ret ((fun l => word_at l 0) <$> r).

(** ** Flash accesses *)

Definition read_word (a : Z) : M Z := fun s =>
  let '(w, f) := flash_read_word a (dev s) in Ret w (set_dev f s).

Definition write_word (a w : Z) : M unit :=
  modify (fun s => set_wlog (wlog s ++ [OpWrite (bl_state s) a w])
                            (set_dev (flash_write_word a w (dev s)) s)).

Definition set_bl_flag (f : Z) : M unit := modify (fun s => set_bl_state (fset (bl_state s) f) s).

(** ** Command handlers: the cases of the switch in [bootloader] *)

Definition expect_eoc (t : Z) : M unit := let! ok := wait_for_eoc t in need ok.

Definition cmd_get_sync : M unit :=
  expect_eoc 2 ;;; set_bl_flag STATE_PROTO_GET_SYNC.

(** The vector words 7..10. *)
Fixpoint cout_vectors (n : nat) (p : Z) : M unit :=
  match n with
  | O => ret tt
  | S n => let! w := read_word (p * 4) in cout_word w ;;; cout_vectors n (p + 1)
  end.

Definition cmd_get_device : M unit :=
  let! arg := cin_wait 1000 in
  need (0 <=? arg) ;;;
  expect_eoc 2 ;;;
  (if arg =? PROTO_DEVICE_BL_REV then cout_word BL_PROTOCOL_VERSION
   else if arg =? PROTO_DEVICE_BOARD_ID then cout_word (board_type board_info)
   else if arg =? PROTO_DEVICE_BOARD_REV then cout_word (board_rev board_info)
   else if arg =? PROTO_DEVICE_FW_SIZE then cout_word (fw_size board_info)
   else if arg =? PROTO_DEVICE_VEC_AREA then cout_vectors 4 7
   else need false) ;;;
  set_bl_flag STATE_PROTO_GET_DEVICE.

(** The words still to verify from [address]: [n] bounds them. *)
Fixpoint verify_erase (n : nat) : M unit :=
  match n with
  | O => ret tt
  | S n =>
      let! a := gets address in
      if a <? fw_size board_info then
        let! w := read_word a in
        verify (w =? BLANK) ;;;
        modify (fun s => set_address (u32 (address s + 4)) s) ;;;
        verify_erase n
      else ret tt
  end.

Definition fw_words : nat := Z.to_nat ((fw_size board_info + 3) / 4).

Definition cmd_chip_erase : M unit :=
  expect_eoc 2 ;;;
  let! st := gets bl_state in
  need (Z.land st STATE_ALLOWS_ERASE =? STATE_ALLOWS_ERASE) ;;;
  modify (set_led_state LED_ON) ;;;
  modify (fun s => set_wlog (wlog s ++ [OpErase (bl_state s)])
                     (set_dev (flash_erase_all 17 0 (flash_unlock (dev s))) s)) ;;;
  modify (set_led_state LED_OFF) ;;;
  modify (set_address 0) ;;;
  verify_erase fw_words ;;;
  modify (set_address 0) ;;;
  set_bl_flag STATE_PROTO_CHIP_ERASE ;;;
  modify (set_led_state LED_BLINK).

(** [flash_buffer.c[i] = c] for the [n] bytes of the packet. *)
Fixpoint read_data (n : nat) (i : Z) : M unit :=
  match n with
  | O => ret tt
  | S n =>
      let! c := cin_wait 1000 in
      need (0 <=? c) ;;;
      modify (fun s => set_flash_buffer (aset (flash_buffer s) i c) s) ;;;
      read_data n (i + 1)
  end.

(** Save the first word and replace it with bits that can be overwritten. *)
Definition defer_first_word (s : bl) : bl :=
  if address s =? 0 then
    let b := flash_buffer s in
    set_flash_buffer (aset (aset (aset (aset b 0 0xff) 1 0xff) 2 0xff) 3 0xff)
      (set_first_word (word_at b 0) s)
  else s.

Fixpoint program_words (n : nat) (i : Z) : M unit :=
  match n with
  | O => ret tt
  | S n =>
      let! a := gets address in
      let! w := gets (fun s => word_at (flash_buffer s) i) in
      write_word a w ;;;
      let! v := read_word a in
      verify (v =? w) ;;;
      modify (fun s => set_address (u32 (address s + 4)) s) ;;;
      program_words n (i + 1)
  end.

Definition cmd_prog_multi : M unit :=
  let! arg := cin_wait 50 in
  need (0 <=? arg) ;;;
  need (arg `mod` 4 =? 0) ;;;
  let! a := gets address in
  need (u32 (a + arg) <=? fw_size board_info) ;;;
  need (arg <=? 256) ;;;
  read_data (Z.to_nat arg) 0 ;;;
  expect_eoc 200 ;;;
  modify defer_first_word ;;;
  program_words (Z.to_nat (arg / 4)) 0 ;;;
  set_bl_flag STATE_PROTO_PROG_MULTI.

Fixpoint crc_words (n : nat) (p sum : Z) : M Z :=
  match n with
  | O => ret sum
  | S n =>
      if p <? fw_size board_info then
        let! first := gets first_word in
        let! bytes := if (p =? 0) && negb (first =? BLANK) then ret first else read_word p in
        crc_words n (p + 4) (crc32 (bytes_of_word bytes) sum)
      else ret sum
  end.

Definition cmd_get_crc : M unit :=
  expect_eoc 2 ;;;
  let! sum := crc_words fw_words 0 0 in
  cout_word sum ;;;
  set_bl_flag STATE_PROTO_GET_CRC.

(** [flash_func_read_otp] is 0 on this chip. *)
Definition cmd_get_otp : M unit :=
  let! index := cin_word 100 in
  match index with
  | None => need false
  | Some _ => expect_eoc 2 ;;; cout_word 0
  end.

Definition cmd_get_sn : M unit :=
  let! index := cin_word 100 in
  match index with
  | None => need false
  | Some index =>
      expect_eoc 2 ;;;
      need (negb (negb (index `mod` 4 =? 0) || (ARCH_SN_MAX_LENGTH - 4 <? index))) ;;;
      cout_word (flash_func_read_sn index) ;;;
      set_bl_flag STATE_PROTO_GET_SN
  end.

Definition cmd_get_chip : M unit :=
  expect_eoc 2 ;;; cout_word mcu_idcode ;;; set_bl_flag STATE_PROTO_GET_CHIP.

Definition cmd_get_chip_des : M unit :=
  expect_eoc 2 ;;;
  let buffer := get_mcu_desc mcu_idcode MAX_DES_LENGTH in
  cout_word (Z.of_nat (length buffer)) ;;;
  modify (cout buffer) ;;;
  set_bl_flag STATE_PROTO_GET_CHIP_DES.

Definition cmd_set_delay : M unit :=
  let! v := cin_wait 100 in
  need (0 <=? v) ;;;
  let boot_delay := Z.land v 0xff in
  need (boot_delay <=? BOOT_DELAY_MAX) ;;;
  expect_eoc 2 ;;;
  let! sig1 := read_word BOOT_DELAY_ADDRESS in
  let! sig2 := read_word (BOOT_DELAY_ADDRESS + 4) in
  need ((sig1 =? BOOT_DELAY_SIGNATURE1) && (sig2 =? BOOT_DELAY_SIGNATURE2)) ;;;
  let value := Z.lor (Z.land BOOT_DELAY_SIGNATURE1 0xffffff00) boot_delay in
  write_word BOOT_DELAY_ADDRESS value ;;;
  let! v := read_word BOOT_DELAY_ADDRESS in
  verify (v =? value).

Definition cmd_boot : M unit :=
  expect_eoc 1000 ;;;
  let! first := gets first_word in
  let! st := gets bl_state in
  need ((first =? BLANK) || (Z.land st STATE_ALLOWS_REBOOT =? STATE_ALLOWS_REBOOT)) ;;;
  (if first =? BLANK then ret tt
   else write_word 0 first ;;;
        let! v := read_word 0 in
        verify (v =? first) ;;;
        modify (set_first_word BLANK)) ;;;
  modify sync_response ;;;
  modify (delay 100) ;;;
  (fun s => Return s).

(** ** The command loop *)

(** [default: continue]: the byte is ignored without a reply. *)
Definition handler (c : Z) : option (M unit) :=
  if c =? PROTO_GET_SYNC then Some cmd_get_sync
  else if c =? PROTO_GET_DEVICE then Some cmd_get_device
  else if c =? PROTO_CHIP_ERASE then Some cmd_chip_erase
  else if c =? PROTO_PROG_MULTI then Some cmd_prog_multi
  else if c =? PROTO_GET_CRC then Some cmd_get_crc
  else if c =? PROTO_GET_OTP then Some cmd_get_otp
  else if c =? PROTO_GET_SN then Some cmd_get_sn
  else if c =? PROTO_GET_CHIP then Some cmd_get_chip
  else if c =? PROTO_GET_CHIP_DES then Some cmd_get_chip_des
  else if c =? PROTO_SET_DELAY then Some cmd_set_delay
  else if c =? PROTO_BOOT then Some cmd_boot
  else if c =? PROTO_DEBUG then Some (ret tt)
  else None.

(** After the switch: kill the timeout, bind the port, reply. *)
Definition accepted (s : bl) : bl :=
  let s := set_timeout 0 s in
  let s := if bl_type s =? NONE then set_bl_type (last_input s) s else s in
  sync_response s.

Definition rejected (s : bl) : bl := set_bl_state 0 (invalid_response s).
Definition failed (s : bl) : bl := failure_response s.

Definition run_command (c : Z) (s : bl) : res unit :=
  match handler c with
  | None => Ret tt s
  | Some h =>
      match h s with
      | Ret _ s' => Ret tt (accepted s')
      | CmdBad s' => Ret tt (rejected s')
      | CmdFail s' => Ret tt (failed s')
      | Return s' => Return s'
      | Blocked s' => Blocked s'
      end
  end.

(** One iteration of the outer loop and of the polling loop inside it: exit
    on the disconnected cable or the timeout, else poll once and run the
    command that arrived. *)
Definition bl_step (usb_connected : bool) : M unit := fun s =>
  if negb usb_connected then Return s
  else if negb (timeout s =? 0) && (aget (timer s) TIMER_BL_WAIT =? 0) then Return s
  else match cin_wait 0 s with
       | Ret c s' => if c <? 0 then Ret tt s' else run_command c s'
       | r => match r with Ret _ s' | CmdBad s' | CmdFail s' => Ret tt s'
              | Return s' => Return s' | Blocked s' => Blocked s' end
       end.

(** [while (true)], by fuel; [None] when the fuel runs out. *)
Fixpoint bl_loop (fuel : nat) (usb_connected : bool) (s : bl) : option (res unit) :=
  match fuel with
  | O => None
  | S n =>
      match bl_step usb_connected s with
      | Ret _ s' => bl_loop n usb_connected s'
      | r => Some r
      end
  end.

Definition bl_start (t : Z) (s : bl) : bl :=
  let s := set_bl_type NONE s in
  let s := set_bl_state 0 s in
  let s := set_address (fw_size board_info) s in
  let s := set_first_word BLANK s in
  let s := set_timeout t s in
  let s := if t =? 0 then s else set_timer (aset (timer s) TIMER_BL_WAIT t) s in
  set_led_state LED_BLINK s.

Definition bootloader (fuel : nat) (t : Z) (usb_connected : bool) (s : bl) :
  option (res unit) := bl_loop fuel usb_connected (bl_start t s).
End Bootloader.

Arguments bl F : clear implicits.
Arguments res F A : clear implicits.
Arguments M F A : clear implicits.
#[export] Instance flash_op_eq_dec : EqDecision flash_op.
Proof. solve_decision. Defined.

Declare Scope bl_scope.
Delimit Scope bl_scope with bl.
Notation "'let!' x ':=' m 'in' k" := (bind m (fun x => k))
  (at level 10, x name, m at level 100, k at level 200) : bl_scope.
Notation "m1 ';;;' m2" := (bind m1 (fun _ => m2))
  (at level 100, right associativity) : bl_scope.
