(* ===== verification/BootloaderSafety.v ===== *)
(** Safety of the bootloader: which flash operations can happen, when, and
    how every command is answered; the loop terminates on every finite
    environment; the receive buffer is a bounded queue. *)

From Stdlib Require Import ZArith Lia.
From stdpp Require Import base list numbers.
From S2P Require Import Prelude Crc FlashCache Bootloader.

Local Open Scope Z_scope.

Section Hoare.
Context {F : Type} `{!WordFlash F}.
Implicit Types (s : bl F) (P E : bl F -> Prop).

(** [hoare P m Q E]: from [P], [m] ends normally in [Q] or takes one of the
    exits of the command loop in [E]. *)
Definition hoare {A} P (m : M F A) (Q : A -> bl F -> Prop) E : Prop :=
  forall s, P s ->
    match m s with
    | Ret a s' => Q a s'
    | CmdBad s' | CmdFail s' | Return s' | Blocked s' => E s'
    end.

Lemma hoare_bind {A B} P (m : M F A) (k : A -> M F B) Q R E :
  hoare P m R E -> (forall a, hoare (R a) (k a) Q E) -> hoare P (bind m k) Q E.
Proof.
  intros Hm Hk s Hs. specialize (Hm s Hs). unfold bind.
  destruct (m s); [by apply Hk | done..].
Qed.

Lemma hoare_gets {A} P (f : bl F -> A) E :
  hoare P (gets f) (fun a s => P s /\ a = f s) E.
Proof. by intros s Hs. Qed.

Lemma hoare_ret {A} (a : A) P E : hoare P (ret a) (fun a' s => P s /\ a' = a) E.
Proof. by intros s Hs. Qed.

Lemma hoare_modify P (f : bl F -> bl F) (Q : bl F -> Prop) E :
  (forall s, P s -> Q (f s)) -> hoare P (modify f) (fun _ => Q) E.
Proof. intros H s Hs. by apply H. Qed.

Lemma hoare_need P b E : (forall s, P s -> E s) ->
  hoare P (need b) (fun _ s => P s /\ b = true) E.
Proof. intros HE s Hs. unfold need. destruct b; auto. Qed.

Lemma hoare_verify P b E : (forall s, P s -> E s) ->
  hoare P (verify b) (fun _ s => P s /\ b = true) E.
Proof. intros HE s Hs. unfold verify. destruct b; auto. Qed.

Lemma hoare_conseq {A} P P' (m : M F A) (Q Q' : A -> bl F -> Prop) E E' :
  hoare P' m Q' E' -> (forall s, P s -> P' s) ->
  (forall a s, Q' a s -> Q a s) -> (forall s, E' s -> E s) -> hoare P m Q E.
Proof. intros H HP HQ HE s Hs. specialize (H s (HP s Hs)). destruct (m s); auto. Qed.

(** What input can change: the timers, the environment, and where the last
    byte came from. *)
Record io_same s s' : Prop := IoSame {
  io_bl_type : bl_type s' = bl_type s;
  io_bl_state : bl_state s' = bl_state s;
  io_address : address s' = address s;
  io_first_word : first_word s' = first_word s;
  io_timeout : timeout s' = timeout s;
  io_led : led s' = led s;
  io_flash_buffer : flash_buffer s' = flash_buffer s;
  io_dev : dev s' = dev s;
  io_tx : tx s' = tx s;
  io_wlog : wlog s' = wlog s;
  io_env : env s' `suffix_of` env s
}.

#[export] Instance io_same_preorder : PreOrder io_same.
Proof.
  split; [by intros s; split|].
  intros s1 s2 s3 [] []. split; try congruence. by etrans.
Qed.

Lemma ticks_S n s : ticks (S n) s = sys_tick_handler (ticks n s).
Proof. done. Qed.

Lemma io_same_env s s' : io_same s s' -> (length (env s') <= length (env s))%nat.
Proof. intros H. by apply suffix_length, io_env. Qed.

Lemma env_tick s : env (sys_tick_handler s) = env s.
Proof. unfold sys_tick_handler. by destruct (led s). Qed.

Lemma env_ticks n s : env (ticks n s) = env s.
Proof. induction n as [|n IH]; [done|]. by rewrite ticks_S, env_tick. Qed.

Lemma io_tick s : io_same s (sys_tick_handler s).
Proof. unfold sys_tick_handler. by split; destruct (led s) eqn:E; rewrite ?E; simpl. Qed.

Lemma io_ticks n s : io_same s (ticks n s).
Proof.
  induction n as [|n IH]; [reflexivity|]. rewrite ticks_S. etrans; [apply IH | apply io_tick].
Qed.

Lemma io_set_timer v s : io_same s (set_timer v s).
Proof. by split. Qed.

Lemma io_cin p ps s : env s = p :: ps ->
  io_same s (cin p (set_env ps s)).2 /\ env (cin p (set_env ps s)).2 = ps.
Proof.
  intros E. unfold cin.
  repeat case_match; (split; [split|]; simpl; try done; rewrite E; by apply suffix_cons_r).
Qed.

Lemma io_cin_poll ps : forall s, env s = ps ->
  match cin_poll ps s with
  | Ret _ s' => io_same s s' /\ (length (env s') < length ps)%nat
  | CmdBad s' | CmdFail s' | Return s' => False
  | Blocked s' => io_same s s'
  end.
Proof.
  induction ps as [|p ps IH]; intros s Hs; simpl.
  { split; simpl; try done. apply suffix_nil. }
  pose proof (io_cin p ps s Hs) as [Hc He].
  destruct (cin p (set_env ps s)) as [c s1]. simpl in Hc, He.
  destruct (0 <=? c).
  - assert (Ht : io_same s1 (ticks (p_ticks p) (set_cin_count (u32 (cin_count s1 + 1)) s1))).
    { etrans; [|apply io_ticks]. by split. }
    split; [by etrans|]. rewrite env_ticks. simpl. rewrite He. lia.
  - pose proof (io_ticks (p_ticks p) s1) as Ht.
    assert (Hall : io_same s (ticks (p_ticks p) s1)) by (by etrans).
    assert (He' : env (ticks (p_ticks p) s1) = ps) by (by rewrite env_ticks).
    destruct (0 <? aget (timer (ticks (p_ticks p) s1)) TIMER_CIN).
    + specialize (IH _ He'). destruct (cin_poll ps (ticks (p_ticks p) s1)); try done.
      * destruct IH. split; [by etrans | lia].
      * by etrans.
    + split; [done|]. rewrite He'. lia.
Qed.

Lemma cin_wait_spec t s :
  match cin_wait t s with
  | Ret _ s' => io_same s s' /\ (length (env s') < length (env s))%nat
  | CmdBad s' | CmdFail s' | Return s' => False
  | Blocked s' => io_same s s'
  end.
Proof.
  unfold cin_wait.
  pose proof (io_cin_poll (env s) (set_timer (aset (timer s) TIMER_CIN t) s) eq_refl) as H.
  assert (H0 : io_same s (set_timer (aset (timer s) TIMER_CIN t) s)) by (by split).
  destruct (cin_poll _ _); try done; [destruct H; split; [by etrans | done] | by etrans].
Qed.

Lemma hoare_cin_wait t s0 :
  hoare (io_same s0) (cin_wait t) (fun _ => io_same s0) (io_same s0).
Proof.
  intros s Hs. pose proof (cin_wait_spec t s) as H.
  destruct (cin_wait t s); try done; [destruct H|]; by etrans.
Qed.

Lemma hoare_expect_eoc t s0 :
  hoare (io_same s0) (expect_eoc t) (fun _ => io_same s0) (io_same s0).
Proof.
  intros s Hs. pose proof (hoare_cin_wait t s0 s Hs) as H.
  unfold expect_eoc, wait_for_eoc, bind. destruct (cin_wait t s); try done.
  unfold ret, need. by destruct (a =? PROTO_EOC).
Qed.

Lemma hoare_cin_word_bytes n t s0 :
  hoare (io_same s0) (cin_word_bytes n t) (fun _ => io_same s0) (io_same s0).
Proof.
  induction n as [|n IH]; simpl; [by intros s Hs|].
  eapply hoare_bind; [apply hoare_cin_wait|]. intros c. simpl.
  destruct (c <? 0); [by intros s Hs|].
  eapply hoare_bind; [apply IH|]. by intros r s Hs.
Qed.

Lemma hoare_cin_word t s0 :
  hoare (io_same s0) (cin_word t) (fun _ => io_same s0) (io_same s0).
Proof. eapply hoare_bind; [apply hoare_cin_word_bytes|]. by intros r s Hs. Qed.
End Hoare.

(** ** The flash-operation invariant *)

Section Inv.
Context {F : Type} `{!WordFlash F}.
Context (bi : boardinfo).
Implicit Types (s : bl F) (P E : bl F -> Prop).

(** The application area holds the delay signature and is made of words. *)
Definition board_ok : Prop :=
  BOOT_DELAY_ADDRESS + 8 <= fw_size bi < 2147483648 /\ fw_size bi `mod` 4 = 0.

Definition op_ok (op : flash_op) : Prop :=
  match op with
  | OpErase f => Z.land f STATE_ALLOWS_ERASE = STATE_ALLOWS_ERASE
  | OpWrite f a w =>
      0 <= a /\ a `mod` 4 = 0 /\ a + 4 <= fw_size bi
      /\ (a = 0 -> w = BLANK \/ Z.land f STATE_ALLOWS_REBOOT = STATE_ALLOWS_REBOOT)
  end.

Definition inv s : Prop :=
  length (flash_buffer s) = 256%nat /\ 0 <= address s <= fw_size bi
  /\ address s `mod` 4 = 0 /\ Forall op_ok (wlog s).

(** [m] keeps [P], by every exit. *)
Definition keeps {A} P (m : M F A) : Prop := hoare P m (fun _ => P) P.

Lemma keeps_bind {A B} P (m : M F A) (k : A -> M F B) :
  keeps P m -> (forall a, keeps P (k a)) -> keeps P (bind m k).
Proof. intros. by eapply hoare_bind. Qed.
Lemma keeps_ret {A} P (a : A) : keeps P (ret a).
Proof. by intros s Hs. Qed.
Lemma keeps_gets {A} P (f : bl F -> A) : keeps P (gets f).
Proof. by intros s Hs. Qed.
Lemma keeps_need P b : keeps P (need b).
Proof. intros s Hs. unfold need. by destruct b. Qed.
Lemma keeps_verify P b : keeps P (verify b).
Proof. intros s Hs. unfold verify. by destruct b. Qed.
Lemma keeps_modify P f : (forall s, P s -> P (f s)) -> keeps P (modify f).
Proof. intros H s Hs. by apply H. Qed.
Lemma keeps_if {A} P (b : bool) (m1 m2 : M F A) :
  keeps P m1 -> keeps P m2 -> keeps P (if b then m1 else m2).
Proof. by destruct b. Qed.

(** A property of the fields that input leaves alone. *)
Definition io_stable P : Prop := forall s s', io_same s s' -> P s -> P s'.

Lemma keeps_io {A} P (m : M F A) :
  io_stable P -> (forall s, hoare (io_same s) m (fun _ => io_same s) (io_same s)) ->
  keeps P m.
Proof.
  intros HP Hm s Hs. specialize (Hm s s (reflexivity s)).
  destruct (m s); eapply HP; eauto.
Qed.

Lemma inv_io_stable : io_stable inv.
Proof. intros s s' [] (? & ? & ? & ?). unfold inv. by repeat split; congruence || lia. Qed.
End Inv.

Create HintDb bl.
#[export] Hint Resolve keeps_bind keeps_ret keeps_gets keeps_need keeps_verify keeps_if : bl.
#[export] Hint Resolve hoare_cin_wait hoare_expect_eoc hoare_cin_word inv_io_stable : bl.

(** Walk through a handler whose steps all keep the goal's predicate. *)
Ltac walk :=
  repeat first
    [ apply keeps_bind; [|intros ?]
    | apply keeps_ret | apply keeps_gets | apply keeps_need | apply keeps_verify
    | apply keeps_if
    | apply keeps_io; [solve [eauto with bl] | intros ?; solve [eauto with bl]]
    | apply keeps_modify; intros ? ?; try done ].

Section Handlers.
Context {F : Type} `{!WordFlash F}.
Context (bi : boardinfo) (sn : Z -> Z) (mcu : Z).
Context (Hbi : board_ok bi).
Implicit Types (s : bl F).

Abbreviation binv := (inv (F := F) bi).

Lemma inv_cout l s : binv s -> binv (cout l s).
Proof. unfold cout. by destruct (bl_type s =? NONE). Qed.

Lemma inv_read_word a : keeps binv (read_word a).
Proof. intros s Hs. unfold read_word. by destruct (flash_read_word a (dev s)). Qed.

Lemma inv_cout_word w : keeps binv (cout_word w).
Proof. apply keeps_modify, inv_cout. Qed.

Lemma inv_set_flag f : keeps binv (set_bl_flag f).
Proof. by apply keeps_modify. Qed.
Hint Resolve inv_cout inv_read_word inv_cout_word inv_set_flag : bl.

Lemma inv_led st s : binv s -> binv (set_led_state st s).
Proof. by destruct st. Qed.

Lemma inv_get_device : keeps binv (cmd_get_device bi).
Proof.
  unfold cmd_get_device. walk; auto with bl.
Qed.

Lemma inv_write_word f a w s :
  op_ok bi (OpWrite (bl_state s) a w) -> binv s -> f = bl_state s ->
  binv (set_wlog (wlog s ++ [OpWrite f a w]) (set_dev (flash_write_word a w (dev s)) s)).
Proof.
  intros Hop (? & ? & ? & Hlog) ->. do 3 (split; [done|]). simpl.
  apply Forall_app. auto.
Qed.

Lemma inv_verify_erase n : keeps binv (verify_erase bi n).
Proof.
  induction n as [|n IH]; simpl; [apply keeps_ret|].
  intros s Hs. unfold bind at 1, gets at 1. destruct (Z.ltb_spec (address s) (fw_size bi)); [|done].
  unfold bind at 1, read_word. destruct (flash_read_word (address s) (dev s)) as [w f].
  unfold bind at 1, verify. destruct (w =? BLANK); [|done].
  unfold bind, modify. apply IH.
  destruct Hs as (? & ? & Ha & ?). destruct Hbi as [? Hm].
  split; [done|]. simpl. rewrite u32_small by (unfold is_u32; lia).
  split; [|split; [|done]].
  - pose proof (Z.div_mod (address s) 4). pose proof (Z.div_mod (fw_size bi) 4). lia.
  - rewrite <- Zplus_mod_idemp_l, Ha. done.
Qed.

Lemma inv_chip_erase : keeps binv (cmd_chip_erase bi).
Proof.
  unfold cmd_chip_erase.
  apply keeps_bind; [apply keeps_io; eauto with bl|intros _].
  intros s Hs. unfold bind at 1, gets. unfold bind at 1, need.
  destruct (Z.eqb_spec (Z.land (bl_state s) STATE_ALLOWS_ERASE) STATE_ALLOWS_ERASE); [|done].
  assert (Hk : keeps binv
    (modify (set_led_state LED_OFF) ;;; modify (set_address 0) ;;;
     verify_erase bi (fw_words bi) ;;; modify (set_address 0) ;;;
     set_bl_flag STATE_PROTO_CHIP_ERASE ;;; modify (set_led_state LED_BLINK))%bl).
  { assert (forall s, binv s -> binv (set_address 0 s)).
    { intros s' (? & ? & ? & ?). unfold inv. simpl. destruct Hbi.
      unfold BOOT_DELAY_ADDRESS in *. repeat split; done || lia. }
    walk; auto using inv_verify_erase, inv_led with bl. }
  apply Hk. destruct Hs as (? & ? & ? & Hlog). do 3 (split; [done|]). simpl.
  apply Forall_app. auto.
Qed.
(** The words of a packet still to program, from word [i] of the buffer. *)
Definition programming (n : nat) (i : Z) s : Prop :=
  binv s /\ address s + 4 * Z.of_nat n <= fw_size bi
  /\ (address s = 0 -> (0 < n)%nat -> word_at (flash_buffer s) i = BLANK).

Lemma inv_program_words n : forall i,
  hoare (programming n i) (program_words n i) (fun _ => binv) binv.
Proof.
  induction n as [|n IH]; intros i s (Hs & Hn & Hblank); simpl; [done|].
  pose proof Hs as (Hlen & Ha & Ha4 & Hlog). destruct Hbi as [Hfw Hfw4].
  unfold bind at 1, gets. unfold bind at 1. unfold bind at 1, write_word, modify.
  set (s1 := set_wlog _ _).
  assert (Hs1 : binv s1).
  { apply inv_write_word; [|done|done]. split; [lia|]. split; [done|]. split; [lia|].
    intros E. left. apply Hblank; [done | lia]. }
  unfold bind at 1, read_word. destruct (flash_read_word (address s) (dev s1)) as [v f].
  unfold bind at 1, verify. destruct (v =? _); [|done].
  unfold bind, modify. apply IH. unfold programming. simpl.
  rewrite u32_small by (unfold is_u32; lia).
  split; [|split; lia]. split; [done|]. simpl.
  split; [lia|]. split; [|by apply Hs1]. by rewrite <- Zplus_mod_idemp_l, Ha4.
Qed.

Lemma blank_head (l : list Z) : (4 <= length l)%nat ->
  word_at (aset (aset (aset (aset l 0 0xff) 1 0xff) 2 0xff) 3 0xff) 0 = BLANK.
Proof.
  intros Hl. unfold word_at. simpl.
  repeat rewrite ?aget_aset_eq, ?aget_aset_ne by (rewrite ?length_aset; lia). done.
Qed.

(** The part of PROG_MULTI that follows the checks of its length byte. *)
Lemma inv_prog_body arg a0 :
  0 <= arg <= 256 -> arg `mod` 4 = 0 -> u32 (a0 + arg) <= fw_size bi ->
  hoare (fun s => binv s /\ address s = a0)
    (read_data (Z.to_nat arg) 0 ;;; expect_eoc 200 ;;; modify defer_first_word ;;;
     program_words (Z.to_nat (arg / 4)) 0 ;;; set_bl_flag STATE_PROTO_PROG_MULTI)%bl
    (fun _ => binv) binv.
Proof.
  intros Harg Harg4 Hfit. set (P := fun s : bl F => binv s /\ address s = a0).
  assert (HPio : io_stable P).
  { intros s s' Hio [Hs Ha]. split; [by eapply inv_io_stable|]. by rewrite (io_address _ _ Hio). }
  assert (Hread : forall n i, keeps P (read_data n i)).
  { induction n as [|n IH]; intros i; simpl; walk; eauto with bl.
    match goal with HP : P _ |- _ => destruct HP as [[? ?] ?] end. split; [|done].
    split; [by simpl; rewrite length_aset | done]. }
  eapply hoare_bind; [eapply (hoare_conseq P P); [apply Hread|done..|by intros s []]|].
  intros ?. eapply hoare_bind;
    [eapply (hoare_conseq P P); [apply keeps_io; eauto with bl|done..|by intros s []]|].
  intros ?. eapply hoare_bind.
  2:{ intros ?. eapply hoare_bind; [apply inv_program_words|]. intros ?. apply inv_set_flag. }
  apply hoare_modify. intros s [(Hlen & Ha & Ha4 & Hlog) Ha0].
  destruct Hbi as [Hfw Hfw4]. unfold BOOT_DELAY_ADDRESS in *.
  assert (Hfits : address s + arg <= fw_size bi).
  { rewrite <- Ha0 in Hfit. rewrite u32_small in Hfit; [done|]. unfold is_u32. lia. }
  pose proof (Z.div_mod arg 4). unfold programming, defer_first_word.
  rewrite Z2Nat.id by (apply Z.div_pos; lia).
  destruct (Z.eqb_spec (address s) 0) as [E|E]; simpl.
  - split; [|split; [lia | intros _ _; apply blank_head; lia]].
    split; [by simpl; rewrite !length_aset | done].
  - split; [done|]. split; [lia | done].
Qed.

Lemma inv_prog_multi : keeps binv (cmd_prog_multi bi).
Proof.
  unfold cmd_prog_multi. apply keeps_bind; [apply keeps_io; eauto with bl|intros arg].
  intros s Hs. unfold bind at 1, need at 1.
  destruct (Z.leb_spec 0 arg) as [H0|]; [|done].
  unfold bind at 1, need at 1. destruct (Z.eqb_spec (arg `mod` 4) 0) as [H4|]; [|done].
  unfold bind at 1, gets. unfold bind at 1, need at 1.
  destruct (Z.leb_spec (u32 (address s + arg)) (fw_size bi)) as [Hfit|]; [|done].
  unfold bind at 1, need at 1. destruct (Z.leb_spec arg 256) as [Harg|]; [|done].
  by apply (inv_prog_body arg (address s)).
Qed.

Lemma inv_get_crc : keeps binv (cmd_get_crc bi).
Proof.
  assert (Hw : forall n p sum, keeps binv (crc_words bi n p sum)).
  { induction n as [|n IH]; intros p sum; simpl; walk; auto with bl. }
  unfold cmd_get_crc. walk; auto with bl.
Qed.

Lemma inv_get_otp : keeps binv cmd_get_otp.
Proof.
  unfold cmd_get_otp. apply keeps_bind; [apply keeps_io; eauto with bl|].
  intros [i|]; walk; auto with bl.
Qed.

Lemma inv_get_sn : keeps binv (cmd_get_sn sn).
Proof.
  unfold cmd_get_sn. apply keeps_bind; [apply keeps_io; eauto with bl|].
  intros [i|]; walk; auto with bl.
Qed.

Lemma inv_get_chip : keeps binv (cmd_get_chip mcu).
Proof. unfold cmd_get_chip. walk; auto with bl. Qed.

Lemma inv_get_chip_des : keeps binv (cmd_get_chip_des mcu).
Proof. unfold cmd_get_chip_des. walk; auto with bl. Qed.

Lemma inv_set_delay : keeps binv cmd_set_delay.
Proof.
  unfold cmd_set_delay. walk; auto with bl.
  apply inv_write_word; [|done|done]. destruct Hbi. unfold BOOT_DELAY_ADDRESS in *.
  simpl. repeat split; done || lia.
Qed.

Lemma inv_delay n s : binv s -> binv (delay n s).
Proof.
  intros Hs. unfold delay. by apply (inv_io_stable bi _ _ (io_ticks n _)).
Qed.

Lemma inv_boot : keeps binv cmd_boot.
Proof.
  unfold cmd_boot. apply keeps_bind; [apply keeps_io; eauto with bl|intros _].
  intros s Hs. unfold bind at 1, gets. unfold bind at 1, gets. unfold bind at 1, need.
  assert (Hend : keeps binv (modify sync_response ;;; modify (delay 100) ;;;
                             (fun s => Return s : res F unit))%bl).
  { walk; [by apply inv_cout | by apply inv_delay]. }
  destruct (Z.eqb_spec (first_word s) BLANK) as [E|E]; simpl; [by apply Hend|].
  destruct (Z.eqb_spec (Z.land (bl_state s) STATE_ALLOWS_REBOOT) STATE_ALLOWS_REBOOT); [|done].
  assert (Hop : binv (set_wlog (wlog s ++ [OpWrite (bl_state s) 0 (first_word s)])
                        (set_dev (flash_write_word 0 (first_word s) (dev s)) s))).
  { apply inv_write_word; [|done|done]. destruct Hbi. unfold BOOT_DELAY_ADDRESS in *.
    simpl. repeat split; done || lia || auto. }
  revert Hop. set (s1 := set_wlog _ _). intros Hop.
  unfold bind at 1. unfold bind at 1, write_word, modify. fold s1.
  assert (Hk : keeps binv
    (bind (let! v := read_word 0 in verify (v =? first_word s) ;;; modify (set_first_word BLANK))
      (fun _ : unit => modify sync_response ;;; modify (delay 100) ;;;
                       (fun s => Return s : res F unit)))%bl).
  { apply keeps_bind; [walk; auto with bl | intros _; apply Hend]. }
  by apply Hk.
Qed.
End Handlers.

(** ** Predicates every command keeps *)

Section Stable.
Context {F : Type} `{!WordFlash F}.
Context (bi : boardinfo) (sn : Z -> Z) (mcu : Z).
Implicit Types (s : bl F) (P : bl F -> Prop).

(** Closed under input and under every update a handler makes, except the
    binding of the port and the timeout. *)
Record stable P : Prop := Stable {
  st_io : io_stable P;
  st_cout l s : P s -> P (cout l s);
  st_dev f s : P s -> P (set_dev f s);
  st_wlog op f s : P s -> P (set_wlog (wlog s ++ [op]) (set_dev f s));
  st_flags v s : P s -> P (set_bl_state v s);
  st_address v s : P s -> P (set_address v s);
  st_first v s : P s -> P (set_first_word v s);
  st_buffer v s : P s -> P (set_flash_buffer v s);
  st_led v s : P s -> P (set_led v s)
}.

Context P (HP : stable P).

Lemma stable_led_state v s : P s -> P (set_led_state v s).
Proof.
  intros Hs. unfold set_led_state. pose proof (st_led _ HP v s Hs) as H.
  destruct v; try done. eapply (st_io _ HP); [apply io_set_timer | done].
Qed.

Lemma stable_delay n s : P s -> P (delay n s).
Proof.
  intros Hs. unfold delay. eapply (st_io _ HP); [apply io_ticks|].
  eapply (st_io _ HP); [apply io_set_timer | done].
Qed.

Lemma stable_read_word a : keeps P (read_word a).
Proof.
  intros s Hs. unfold read_word. destruct (flash_read_word a (dev s)). by apply (st_dev _ HP).
Qed.

Lemma stable_write_word a w : keeps P (write_word a w).
Proof. apply keeps_modify. intros s Hs. by apply (st_wlog _ HP). Qed.

Lemma stable_defer s : P s -> P (defer_first_word s).
Proof.
  intros Hs. unfold defer_first_word. destruct (address s =? 0); [|done].
  by apply (st_buffer _ HP), (st_first _ HP).
Qed.

Lemma stable_set_flag f : keeps P (set_bl_flag f).
Proof. apply keeps_modify. intros s. apply (st_flags _ HP). Qed.

Lemma stable_input {A} (m : M F A) :
  (forall s, hoare (io_same s) m (fun _ => io_same s) (io_same s)) -> keeps P m.
Proof. apply keeps_io, HP. Qed.

Lemma stable_cout_word w : keeps P (cout_word w).
Proof. apply keeps_modify. intros s. apply (st_cout _ HP). Qed.

Let k_cout := st_cout P HP.
Let k_dev := st_dev P HP.
Let k_wlog := st_wlog P HP.
Let k_flags := st_flags P HP.
Let k_address := st_address P HP.
Let k_first := st_first P HP.
Let k_buffer := st_buffer P HP.
Let k_led := st_led P HP.

Create HintDb stable.
Hint Resolve stable_led_state stable_delay stable_read_word stable_write_word stable_defer
  stable_set_flag stable_cout_word hoare_cin_wait hoare_expect_eoc hoare_cin_word : stable.
Hint Resolve k_cout k_dev k_wlog k_flags k_address k_first k_buffer k_led : stable.

Ltac swalk :=
  repeat first
    [ progress intros
    | apply keeps_bind
    | apply keeps_ret | apply keeps_gets | apply keeps_need | apply keeps_verify
    | apply keeps_if
    | apply stable_input; intros; solve [eauto with stable]
    | solve [eauto with stable]
    | apply keeps_modify ].

Lemma stable_vectors n : forall p, keeps P (cout_vectors n p).
Proof. induction n; simpl; swalk; auto. Qed.
Lemma stable_verify_erase n : keeps P (verify_erase bi n).
Proof. induction n; simpl; swalk; auto. Qed.
Lemma stable_read_data n : forall i, keeps P (read_data n i).
Proof. induction n; simpl; swalk; auto. Qed.
Lemma stable_program_words n : forall i, keeps P (program_words n i).
Proof. induction n; simpl; swalk; auto. Qed.
Lemma stable_crc_words n : forall p sum, keeps P (crc_words bi n p sum).
Proof. induction n; simpl; swalk; auto. Qed.
Hint Resolve stable_vectors stable_verify_erase stable_read_data stable_program_words
  stable_crc_words : stable.

Lemma handler_keeps c h : handler bi sn mcu c = Some h -> keeps P h.
Proof.
  unfold handler. intros Hh.
  repeat match type of Hh with
         | (if ?b then _ else _) = _ => destruct b
         end; simplify_eq;
    unfold cmd_get_sync, cmd_get_device, cmd_chip_erase, cmd_prog_multi, cmd_get_crc,
      cmd_get_otp, cmd_get_sn, cmd_get_chip, cmd_get_chip_des, cmd_set_delay, cmd_boot;
    swalk; try (destruct a; swalk); unfold sync_response; eauto with stable.
  all: intros ? ?; simpl; eauto with stable.
Qed.
End Stable.

Section Runs.
Context {F : Type} `{!WordFlash F}.
Context (bi : boardinfo) (sn : Z -> Z) (mcu : Z).
Implicit Types (s : bl F).

Lemma inv_handler c h : board_ok bi -> handler bi sn mcu c = Some h -> keeps (inv (F := F) bi) h.
Proof.
  unfold handler. intros Hbi Hh.
  repeat match type of Hh with
         | (if ?b then _ else _) = _ => destruct b
         end; simplify_eq;
    auto using inv_get_device, inv_chip_erase, inv_prog_multi, inv_get_crc, inv_get_otp,
      inv_get_sn, inv_get_chip, inv_get_chip_des, inv_set_delay, inv_boot, keeps_ret.
  unfold cmd_get_sync. walk; auto using inv_set_flag.
Qed.

Lemma inv_accepted s : inv bi s -> inv bi (accepted s).
Proof.
  intros Hs. unfold accepted, sync_response. apply inv_cout. simpl.
  by destruct (bl_type s =? NONE).
Qed.

Lemma inv_run_command c : board_ok bi -> keeps (inv (F := F) bi) (run_command bi sn mcu c).
Proof.
  intros Hbi s Hs. unfold run_command. destruct (handler bi sn mcu c) as [h|] eqn:E; [|done].
  pose proof (inv_handler c h Hbi E s Hs) as H.
  destruct (h s); try done; [by apply inv_accepted|..]; by apply (inv_cout bi).
Qed.

Lemma inv_bl_step usb : board_ok bi -> keeps (inv (F := F) bi) (bl_step bi sn mcu usb).
Proof.
  intros Hbi s Hs. unfold bl_step. destruct (negb usb); [done|].
  destruct (_ && _); [done|].
  pose proof (cin_wait_spec 0 s) as H. destruct (cin_wait 0 s) as [c s1|s1|s1|s1|s1]; try done.
  - destruct H as [Hio _]. assert (inv bi s1) by (by apply (inv_io_stable bi _ _ Hio)).
    destruct (c <? 0); [done|]. by apply inv_run_command.
  - by apply (inv_io_stable bi _ _ H).
Qed.

(** The state a finished run leaves. *)
Definition out_state {A} (r : res F A) : bl F :=
  match r with
  | Ret _ s | CmdBad s | CmdFail s | Return s | Blocked s => s
  end.

Lemma inv_bl_loop fuel usb : board_ok bi -> forall s r, inv bi s ->
  bl_loop bi sn mcu fuel usb s = Some r -> inv bi (out_state r).
Proof.
  intros Hbi. induction fuel as [|n IH]; intros s r Hs Hr; simpl in Hr; [done|].
  pose proof (inv_bl_step usb Hbi s Hs) as H.
  destruct (bl_step bi sn mcu usb s); simplify_eq/=; eauto.
Qed.

(** C5: flash safety of the bootloader, for every input stream, every flash
    and every length of run.  Each flash operation of a run obeys the
    protocol: the chip is erased only when GET_SYNC and GET_DEVICE have been
    seen since the last rejected command; every word write is aligned and
    inside the flashable area; and the first word of the application is
    written with anything but blank only when GET_SYNC, GET_DEVICE,
    PROG_MULTI and GET_CRC have all been seen, that is by the BOOT command
    that completes an upload. *)
Theorem flash_operations_safe (fuel : nat) (t : Z) (usb : bool) (s : bl F) r :
  board_ok bi -> length (flash_buffer s) = 256%nat -> wlog s = [] ->
  bootloader bi sn mcu fuel t usb s = Some r ->
  Forall (op_ok bi) (wlog (out_state r)).
Proof.
  intros Hbi Hlen Hlog Hr.
  assert (Hs : inv bi (bl_start bi t s)).
  { destruct Hbi. unfold bl_start, set_led_state, inv, BOOT_DELAY_ADDRESS in *.
    destruct (t =? 0); simpl; rewrite Hlen, Hlog; repeat split; done || lia || auto. }
  by apply (inv_bl_loop fuel usb Hbi _ _ Hs Hr).
Qed.

(** ** Termination *)

Lemma env_stable n : stable (fun s : bl F => (length (env s) <= n)%nat).
Proof.
  split; try done.
  - intros s s' Hio Hn. pose proof (io_same_env _ _ Hio). lia.
  - intros l s Hs. unfold cout. by destruct (bl_type s =? NONE).
Qed.

Lemma env_accepted s : env (accepted s) = env s.
Proof.
  unfold accepted, sync_response, cout. simpl.
  destruct (bl_type s =? NONE); simpl; by destruct (_ =? NONE).
Qed.
Lemma env_cout l s : env (cout l s) = env s.
Proof. unfold cout. by destruct (bl_type s =? NONE). Qed.

Lemma step_consumes usb s :
  match bl_step bi sn mcu usb s with
  | Ret _ s' => (length (env s') < length (env s))%nat
  | CmdBad _ | CmdFail _ => False
  | Return _ | Blocked _ => True
  end.
Proof.
  unfold bl_step. destruct (negb usb); [done|]. destruct (_ && _); [done|].
  pose proof (cin_wait_spec 0 s) as H. destruct (cin_wait 0 s) as [c s1|s1|s1|s1|s1]; try done.
  destruct H as [_ Hlt]. destruct (c <? 0); [done|]. unfold run_command.
  destruct (handler bi sn mcu c) as [h|] eqn:E; [|done].
  pose proof (handler_keeps bi sn mcu _ (env_stable (length (env s1))) c h E s1 (Nat.le_refl _)) as H.
  cbn beta in H.
  destruct (h s1); try done; unfold rejected, failed, invalid_response, failure_response;
    rewrite ?env_accepted; simpl; rewrite ?env_cout; lia.
Qed.

Lemma loop_terminates n usb : forall s, (length (env s) < n)%nat ->
  exists s', bl_loop bi sn mcu n usb s = Some (Return s')
          \/ bl_loop bi sn mcu n usb s = Some (Blocked s').
Proof.
  induction n as [|n IH]; intros s Hn; [lia|]. simpl.
  pose proof (step_consumes usb s) as H.
  destruct (bl_step bi sn mcu usb s); try done; [|by eexists; left | by eexists; right].
  apply IH. lia.
Qed.

(** The fuel is enough: an iteration takes a poll of the environment or ends, so
    [n + 1] rounds cover an environment of [n] polls. *)
Lemma bootloader_fuel (t : Z) (usb : bool) (s : bl F) :
  exists s', bootloader bi sn mcu (S (length (env s))) t usb s = Some (Return s')
          \/ bootloader bi sn mcu (S (length (env s))) t usb s = Some (Blocked s').
Proof.
  apply loop_terminates. unfold bl_start, set_led_state. destruct (t =? 0); simpl; lia.
Qed.

(** ** Replies *)

Definition replied (port t : Z) (base : list (Z * Z)) s : Prop :=
  bl_type s = port /\ timeout s = t /\ exists data, tx s = base ++ (pair port <$> data).

Lemma cout_port port l s : port <> NONE -> bl_type s = port ->
  cout l s = set_tx (tx s ++ (pair port <$> l)) s.
Proof. intros Hp E. unfold cout. rewrite E. by destruct (Z.eqb_spec port NONE). Qed.

Lemma replied_stable port t base : port <> NONE -> stable (replied port t base).
Proof.
  intros Hp. split; try done.
  - intros s s' [] (E1 & E2 & data & E3). split; [congruence|]. split; [congruence|].
    exists data. congruence.
  - intros l s (E1 & E2 & data & E3). rewrite (cout_port port) by done.
    split; [done|]. split; [done|]. exists (data ++ l). simpl.
    by rewrite E3, fmap_app, app_assoc.
Qed.

(** The reply of one command, up to what the status changes. *)
Definition status_ok (t status : Z) s : Prop :=
  (status = PROTO_OK /\ timeout s = 0)
  \/ (status = PROTO_INVALID /\ bl_state s = 0 /\ timeout s = t)
  \/ (status = PROTO_FAILED /\ timeout s = t).

Lemma replied_cout port t base l s :
  port <> NONE -> replied port t base s ->
  exists data, tx (cout l s) = base ++ (pair port <$> (data ++ l)).
Proof.
  intros Hp (E1 & _ & data & E3). exists data. rewrite (cout_port port) by done.
  simpl. by rewrite E3, fmap_app, app_assoc.
Qed.

Lemma cout_fields l s :
  bl_state (cout l s) = bl_state s /\ timeout (cout l s) = timeout s.
Proof. unfold cout. by destruct (bl_type s =? NONE). Qed.

Lemma accepted_reply port t base s :
  port <> NONE -> replied port t base s ->
  exists data, tx (accepted s) = base ++ (pair port <$> (data ++ [PROTO_INSYNC; PROTO_OK]))
    /\ timeout (accepted s) = 0.
Proof.
  intros Hp (E1 & _ & data & E3). unfold accepted, sync_response. simpl.
  assert ((bl_type s =? NONE) = false) as -> by (rewrite E1; by apply Z.eqb_neq).
  destruct (replied_cout port 0 base [PROTO_INSYNC; PROTO_OK] (set_timeout 0 s) Hp)
    as [data' Hd]; [by repeat split; eauto|].
  exists data'. split; [done|]. apply cout_fields.
Qed.

(** How a session's commands are answered.  Once the port is bound,
    every command byte the protocol knows, whatever follows it, is answered
    on that port by its data (possibly none) and then exactly one status:
    INSYNC OK, after which the boot timeout is dead; INSYNC INVALID, after
    which every sequence flag is cleared and the timeout is as before; or
    INSYNC FAILED, timeout as before.  A byte the protocol does not know is
    not answered at all and changes nothing. *)
Theorem every_command_answered (c : Z) (s s' : bl F) :
  bl_type s <> NONE -> run_command bi sn mcu c s = Ret tt s' ->
  match handler bi sn mcu c with
  | None => s' = s
  | Some _ => exists data status,
      tx s' = tx s ++ (pair (bl_type s) <$> (data ++ [PROTO_INSYNC; status]))
      /\ status_ok (timeout s) status s'
  end.
Proof.
  intros Hp. unfold run_command. destruct (handler bi sn mcu c) as [h|] eqn:E; [|congruence].
  assert (H0 : replied (bl_type s) (timeout s) (tx s) s).
  { split; [done|]. split; [done|]. exists []. by rewrite app_nil_r. }
  pose proof (handler_keeps bi sn mcu _ (replied_stable _ _ _ Hp) c h E s H0) as H.
  unfold status_ok.
  destruct (h s) as [a s1|s1|s1|s1|s1]; intros Hr; simplify_eq.
  - destruct (accepted_reply _ _ _ s1 Hp H) as (data & ? & ?). eauto 6.
  - destruct (replied_cout _ _ _ [PROTO_INSYNC; PROTO_INVALID] s1 Hp H) as (data & Hd).
    exists data, PROTO_INVALID. split; [done|]. right; left. split; [done|]. split; [done|].
    simpl. destruct (cout_fields [PROTO_INSYNC; PROTO_INVALID] s1) as [_ Ht].
    etransitivity; [exact Ht|]. by destruct H as (_ & ? & _).
  - destruct (replied_cout _ _ _ [PROTO_INSYNC; PROTO_FAILED] s1 Hp H) as (data & Hd).
    exists data, PROTO_FAILED. split; [done|]. right; right. split; [done|].
    destruct (cout_fields [PROTO_INSYNC; PROTO_FAILED] s1) as [_ Ht].
    etransitivity; [exact Ht|]. by destruct H as (_ & ? & _).
Qed.
End Runs.

(** ** The receive buffer is a bounded FIFO queue *)

Section Ring.
Implicit Types r : ring.

Definition ring_wf r : Prop :=
  0 <= head r < RX_SIZE /\ 0 <= tail r < RX_SIZE /\ length (rx_buf r) = 256%nat.

Definition ring_len r : nat := Z.to_nat ((head r - tail r) `mod` RX_SIZE).

(** The queue a ring stands for: oldest byte first. *)
Definition contents r : list Z :=
  (fun k => aget (rx_buf r) ((tail r + Z.of_nat k) `mod` RX_SIZE)) <$> seq 0 (ring_len r).

Ltac Zify.zify_post_hook ::= Z.to_euclidean_division_equations.

Lemma length_contents r : length (contents r) = ring_len r.
Proof. unfold contents. by rewrite length_fmap, length_seq. Qed.

Lemma put_room r b :
  ring_wf r -> (ring_len r < 255)%nat ->
  ring_wf (buf_put b r) /\ contents (buf_put b r) = contents r ++ [b].
Proof.
  unfold ring_wf, ring_len, RX_SIZE. intros (Hh & Ht & Hl) Hroom. unfold buf_put, RX_SIZE.
  destruct (Z.eqb_spec ((head r + 1) `mod` 256) (tail r)) as [E|E]; [lia|]. split.
  { unfold RX_SIZE. simpl. rewrite length_aset. lia. }
  unfold contents, ring_len, RX_SIZE. simpl.
  replace (Z.to_nat (((head r + 1) `mod` 256 - tail r) `mod` 256))
    with (S (Z.to_nat ((head r - tail r) `mod` 256))) by lia.
  rewrite seq_S, fmap_app. f_equal.
  - apply list_fmap_ext. intros i k Hk. apply lookup_seq in Hk. simpl.
    rewrite aget_aset_ne by lia. done.
  - simpl. f_equal. replace ((tail r + _) `mod` 256) with (head r) by lia.
    apply aget_aset_eq. lia.
Qed.

Lemma put_full r b : ring_wf r -> ring_len r = 255%nat -> buf_put b r = r.
Proof.
  unfold ring_wf, ring_len, RX_SIZE. intros (Hh & Ht & Hl) Hfull. unfold buf_put, RX_SIZE.
  by destruct (Z.eqb_spec ((head r + 1) `mod` 256) (tail r)); [|lia].
Qed.

Lemma get_spec r : ring_wf r ->
  match contents r with
  | [] => buf_get r = (-1, r)
  | b :: l => exists r', buf_get r = (b, r') /\ ring_wf r' /\ contents r' = l
  end.
Proof.
  unfold ring_wf, RX_SIZE. intros (Hh & Ht & Hl). unfold contents at 1, buf_get.
  destruct (ring_len r) as [|n] eqn:En; unfold ring_len, RX_SIZE in En; simpl.
  - by destruct (Z.eqb_spec (tail r) (head r)); [|lia].
  - destruct (Z.eqb_spec (tail r) (head r)); [lia|].
    exists (Ring (head r) ((tail r + 1) `mod` RX_SIZE) (rx_buf r)). split.
    { f_equal. f_equal. unfold RX_SIZE. lia. }
    split; [unfold RX_SIZE; simpl; lia|].
    unfold contents, ring_len, RX_SIZE. simpl.
    replace (Z.to_nat ((head r - (tail r + 1) `mod` 256) `mod` 256)) with n by lia.
    rewrite <- fmap_S_seq, <- list_fmap_compose. apply list_fmap_ext.
    intros i k Hk. apply lookup_seq in Hk. simpl. f_equal. lia.
Qed.

(** The ring buffer that receives bytes asynchronously is a first-in
    first-out queue of capacity 255: [buf_put] appends the byte, or drops it
    when 255 bytes are waiting; [buf_get] takes the oldest byte, or returns
    -1 on an empty queue; the indices stay inside the array. *)
Theorem ring_is_queue (r : ring) (b : Z) :
  ring_wf r ->
  ring_wf (buf_put b r)
  /\ contents (buf_put b r)
     = (if decide (length (contents r) < 255)%nat then contents r ++ [b] else contents r)
  /\ match contents r with
     | [] => buf_get r = (-1, r)
     | x :: l => exists r', buf_get r = (x, r') /\ ring_wf r' /\ contents r' = l
     end.
Proof.
  intros Hr. rewrite length_contents. case_decide as Hc.
  - destruct (put_room r b Hr Hc). split; [done|]. split; [done|]. by apply get_spec.
  - assert (ring_len r = 255%nat) by (unfold ring_len, RX_SIZE in *; lia).
    rewrite put_full by done. split; [done|]. split; [done|]. by apply get_spec.
Qed.

Lemma ring_is_queue_witness :
  ring_wf (buf_put 9 (buf_put 7 ring_init))
  /\ contents (buf_put 9 (buf_put 7 ring_init)) = [7; 9].
Proof.
  assert (H0 : ring_wf (buf_put 7 ring_init))
    by (unfold ring_wf, RX_SIZE; vm_compute; repeat split; congruence).
  destruct (ring_is_queue (buf_put 7 ring_init) 9 H0) as (H1 & H2 & _).
  split; [exact H1|]. rewrite H2. reflexivity.
Defined.
End Ring.

(** ** Timeouts *)

Section Timeouts.
Context {F : Type} `{!WordFlash F}.
Implicit Types s : bl F.

Lemma tick_cin s : length (timer s) = 4%nat ->
  length (timer (sys_tick_handler s)) = 4%nat
  /\ aget (timer (sys_tick_handler s)) TIMER_CIN = Z.max 0 (aget (timer s) TIMER_CIN - 1)
     \/ aget (timer s) TIMER_CIN < 0.
Proof.
  intros Hl. destruct (timer s) as [|t0 [|t1 [|t2 [|t3 [|]]]]] eqn:E; try done.
  destruct (Z_lt_le_dec t1 0); [by right|]. left.
  unfold sys_tick_handler. rewrite E.
  assert (Ht : (if 0 <? t1 then t1 - 1 else t1) = Z.max 0 (t1 - 1)).
  { destruct (Z.ltb_spec 0 t1); lia. }
  destruct (led s); simpl; [destruct (_ =? 0)|..]; done.
Qed.

Lemma ticks_cin n s : length (timer s) = 4%nat -> 0 <= aget (timer s) TIMER_CIN ->
  length (timer (ticks n s)) = 4%nat
  /\ aget (timer (ticks n s)) TIMER_CIN = Z.max 0 (aget (timer s) TIMER_CIN - Z.of_nat n).
Proof.
  intros Hl H0. induction n as [|n [IH1 IH2]]; [split; [done|]; simpl; lia|].
  rewrite ticks_S. destruct (tick_cin (ticks n s) IH1) as [[? ->]|?]; [|lia].
  split; [done|]. lia.
Qed.

Definition elapsed (ps : list poll) : Z :=
  fold_right (fun p acc => Z.of_nat (p_ticks p) + acc) 0 ps.

Lemma timer_cin p s : timer (cin p s).2 = timer s.
Proof. unfold cin. by repeat case_match. Qed.

Lemma env_cin p s : env (cin p s).2 = env s.
Proof. unfold cin. by repeat case_match. Qed.

Lemma cin_poll_times_out ps : forall s c s',
  length (timer s) = 4%nat -> 0 <= aget (timer s) TIMER_CIN ->
  cin_poll ps s = Ret c s' -> c < 0 ->
  aget (timer s) TIMER_CIN <= elapsed ps - elapsed (env s').
Proof.
  induction ps as [|p ps IH]; intros s c s' Hl H0 Hr Hc; [done|]. simpl in Hr.
  pose proof (timer_cin p (set_env ps s)) as Ht. pose proof (env_cin p (set_env ps s)) as He.
  destruct (cin p (set_env ps s)) as [c1 s1]. simpl in Ht, He.
  destruct (Z.leb_spec 0 c1); [simplify_eq; lia|].
  rewrite <- Ht in Hl, H0.
  destruct (ticks_cin (p_ticks p) s1 Hl H0) as [Hl' Hv].
  destruct (Z.ltb_spec 0 (aget (timer (ticks (p_ticks p) s1)) TIMER_CIN)).
  - pose proof (IH _ _ _ Hl' ltac:(lia) Hr Hc) as Hle. simpl. rewrite Ht in Hv. lia.
  - injection Hr as <- <-. simpl. rewrite env_ticks, He. rewrite Ht in Hv. lia.
Qed.

(** A read gives up no earlier than its timeout: when [cin_wait]
    reports no byte, at least the requested number of system ticks elapsed
    while it was polling. *)
Theorem cin_wait_timeout (t : Z) (s s' : bl F) (c : Z) :
  length (timer s) = 4%nat -> 0 <= t -> cin_wait t s = Ret c s' -> c < 0 ->
  t <= elapsed (env s) - elapsed (env s').
Proof.
  intros Hl Ht Hr Hc. unfold cin_wait in Hr.
  assert (Hset : aget (timer (set_timer (aset (timer s) TIMER_CIN t) s)) TIMER_CIN = t).
  { apply aget_aset_eq. rewrite Hl. done. }
  pose proof (cin_poll_times_out (env s) (set_timer (aset (timer s) TIMER_CIN t) s) c s') as H.
  rewrite Hset in H. apply H; try done. simpl. by rewrite length_aset.
Qed.
End Timeouts.

(** ** A concrete bootloader: the cached flash over [toy] *)

#[export] Existing Instance FlashCache.cached_flash.
#[export] Existing Instance FlashCache.cached_seq_flash.
#[export] Existing Instance FlashCache.toy_laws.

Definition demo_board : boardinfo := BoardInfo 1 2 448 400.

Definition demo_state (polls : list poll) : bl (FlashCache.state (M := toy)) :=
  Bl NONE NONE 0 0 BLANK 0 [0; 0; 0; 0] LED_OFF 0 (replicate 256 0)
     FlashCache.used_flash [] [] polls.

(** A session up to the first packet, which holds one word. *)
Definition demo_polls : list poll :=
  (fun b => Poll b (-1) 0) <$>
    [PROTO_GET_SYNC; PROTO_EOC; PROTO_GET_DEVICE; PROTO_DEVICE_BL_REV; PROTO_EOC;
     PROTO_CHIP_ERASE; PROTO_EOC; PROTO_PROG_MULTI; 4; 1; 2; 3; 4; PROTO_EOC].

Lemma flash_operations_safe_witness :
  match bootloader demo_board (fun _ => 0) 0 9 0 true (demo_state demo_polls) with
  | Some r => Forall (op_ok demo_board) (wlog (out_state r)) /\ length (wlog (out_state r)) = 2%nat
  | None => False
  end.
Proof.
  destruct (bootloader demo_board (fun _ => 0) 0 9 0 true (demo_state demo_polls)) as [r|] eqn:E.
  - split.
    + eapply (flash_operations_safe demo_board (fun _ => 0) 0 9 0 true (demo_state demo_polls));
        [split; [split; [discriminate | reflexivity] | reflexivity] | reflexivity | reflexivity
        | exact E].
    + vm_compute in E. injection E as <-. reflexivity.
  - vm_compute in E. discriminate.
Defined.

(** GET_DEVICE on the USB port, once the session is bound to it. *)
Definition demo_bound : bl (FlashCache.state (M := toy)) :=
  set_bl_type USB (demo_state ((fun b => Poll b (-1) 0) <$> [PROTO_DEVICE_BL_REV; PROTO_EOC])).

Lemma every_command_answered_witness :
  match run_command demo_board (fun _ => 0) 0 PROTO_GET_DEVICE demo_bound with
  | Ret _ s' => exists data status,
      tx s' = [] ++ (pair USB <$> (data ++ [PROTO_INSYNC; status])) /\ status_ok 0 status s'
  | _ => False
  end.
Proof.
  destruct (run_command demo_board (fun _ => 0) 0 PROTO_GET_DEVICE demo_bound)
    as [[] s'|s'|s'|s'|s'] eqn:E; try (vm_compute in E; discriminate).
  exact (every_command_answered demo_board (fun _ => 0) 0 PROTO_GET_DEVICE demo_bound s'
           ltac:(discriminate) E).
Defined.

Lemma cin_wait_timeout_witness :
  match cin_wait 5 (demo_state (replicate 3 (Poll (-1) (-1) 2))) with
  | Ret c s' => c = -1 /\ 5 <= elapsed (replicate 3 (Poll (-1) (-1) 2)) - elapsed (env s')
  | _ => False
  end.
Proof.
  destruct (cin_wait 5 (demo_state (replicate 3 (Poll (-1) (-1) 2)))) as [c s'|s'|s'|s'|s'] eqn:E;
    try (vm_compute in E; discriminate).
  assert (c = -1) as -> by (vm_compute in E; congruence). split; [done|].
  exact (cin_wait_timeout 5 (demo_state (replicate 3 (Poll (-1) (-1) 2))) s' (-1)
           eq_refl ltac:(lia) E ltac:(lia)).
Defined.
