(* ===== verification/BootloaderUpload.v ===== *)
(** A complete firmware upload: the host's byte stream for an image, run
    through the whole command loop, leaves exactly that image in the flash.
    Proved against the [SeqFlash] contract, which the flash cache meets. *)

From Stdlib Require Import ZArith Lia.
From stdpp Require Import base list numbers.
From S2P Require Import Prelude Crc FlashCache Bootloader BootloaderSafety.

Local Open Scope Z_scope.

(** * The host *)

(** Bytes arriving on the USB port, one per poll. *)
Definition send (bytes : list Z) : list poll := (fun b => Poll b (-1) 0) <$> bytes.

(** A PROG_MULTI packet for a chunk of words. *)
Definition prog_packet (ws : list Z) : list Z :=
  [PROTO_PROG_MULTI; 4 * Z.of_nat (length ws)] ++ bytes_of_words ws ++ [PROTO_EOC].

(** The workflow of bl.c's header comment, for an image cut into chunks. *)
Definition upload_bytes (chunks : list (list Z)) : list Z :=
  [PROTO_GET_SYNC; PROTO_EOC]
  ++ [PROTO_GET_DEVICE; PROTO_DEVICE_FW_SIZE; PROTO_EOC]
  ++ [PROTO_CHIP_ERASE; PROTO_EOC]
  ++ concat (prog_packet <$> chunks)
  ++ [PROTO_GET_CRC; PROTO_EOC]
  ++ [PROTO_BOOT; PROTO_EOC].

Definition OK_REPLY : list Z := [PROTO_INSYNC; PROTO_OK].

(** What the host expects back: the size, the checksum, and an OK for every
    command. *)
Definition upload_replies (size : Z) (chunks : list (list Z)) (crc : Z) : list Z :=
  OK_REPLY ++ (bytes_of_word size ++ OK_REPLY) ++ OK_REPLY
  ++ concat ((fun _ => OK_REPLY) <$> chunks)
  ++ (bytes_of_word crc ++ OK_REPLY) ++ OK_REPLY.

(** The flashable area once the image is in it. *)
Definition padded (n : nat) (ws : list Z) : list Z := ws ++ replicate (n - length ws) BLANK.

Lemma send_cons b l : send (b :: l) = Poll b (-1) 0 :: send l.
Proof. done. Qed.
Lemma send_app l1 l2 : send (l1 ++ l2) = send l1 ++ send l2.
Proof. apply fmap_app. Qed.

Section Upload.
Context {F : Type} `{HF : SeqFlash F}.
Context (bi : boardinfo) (sn : Z -> Z) (mcu : Z).
Implicit Types (s : bl F) (m : Z -> Z).

(** What matters of a state between two commands of a session. *)
Record at_ s (port st a first : Z) (f : F) (o : list (Z * Z)) (e : list poll) : Prop := At {
  at_port : bl_type s = port;
  at_state : bl_state s = st;
  at_address : address s = a;
  at_first : first_word s = first;
  at_dev : dev s = f;
  at_tx : tx s = o;
  at_env : env s = e;
  at_timeout : timeout s = 0;
  at_buffer : length (flash_buffer s) = 256%nat
}.

(** ** Input *)

Lemma cin_at t s port st a first f o b e :
  port = NONE \/ port = USB -> 0 <= b ->
  at_ s port st a first f o (Poll b (-1) 0 :: e) ->
  exists s', cin_wait t s = Ret b s' /\ at_ s' port st a first f o e
    /\ last_input s' = USB /\ flash_buffer s' = flash_buffer s.
Proof.
  intros Hp Hb []. unfold cin_wait. rewrite at_env0. simpl. unfold cin. simpl.
  assert ((bl_type s =? NONE) || (bl_type s =? USB) = true) as ->
    by (rewrite at_port0; by destruct Hp as [-> | ->]).
  destruct (Z.leb_spec 0 b); [|lia]. simpl. destruct (Z.leb_spec 0 b); [|lia].
  eexists. split; [done|]. by repeat split.
Qed.

Lemma eoc_at t s port st a first f o e :
  port = NONE \/ port = USB ->
  at_ s port st a first f o (Poll PROTO_EOC (-1) 0 :: e) ->
  exists s', expect_eoc t s = Ret tt s' /\ at_ s' port st a first f o e
    /\ last_input s' = USB /\ flash_buffer s' = flash_buffer s.
Proof.
  intros Hp Hs. destruct (cin_at t s port st a first f o PROTO_EOC e) as (s1 & E & H1); try done.
  exists s1. split; [|done]. unfold expect_eoc, wait_for_eoc, bind. by rewrite E.
Qed.

(** The command byte: one iteration of the loop. *)
Lemma step_at s port st a first f o c e :
  port = NONE \/ port = USB -> 0 <= c ->
  at_ s port st a first f o (Poll c (-1) 0 :: e) ->
  exists s1, bl_step bi sn mcu true s = run_command bi sn mcu c s1
    /\ at_ s1 port st a first f o e /\ last_input s1 = USB
    /\ flash_buffer s1 = flash_buffer s.
Proof.
  intros Hp Hc Hs. destruct (cin_at 0 s port st a first f o c e) as (s1 & E & H1); try done.
  exists s1. split; [|done]. unfold bl_step. simpl.
  rewrite (at_timeout _ _ _ _ _ _ _ _ Hs). simpl. rewrite E.
  by destruct (Z.ltb_spec c 0); [lia|].
Qed.

Lemma accepted_at s port st a first f o e :
  port = NONE \/ port = USB -> last_input s = USB ->
  at_ s port st a first f o e ->
  at_ (accepted s) USB st a first f (o ++ (pair USB <$> OK_REPLY)) e.
Proof.
  intros Hp Hl []. unfold accepted, sync_response. simpl. rewrite at_port0, Hl.
  destruct Hp as [-> | ->]; simpl; unfold cout; simpl; rewrite ?at_port0; simpl;
    split; simpl; rewrite ?at_tx0; done.
Qed.

(** A handler that ends normally completes the iteration. *)
Lemma command_at s s1 s2 c h port st a first f o e :
  bl_step bi sn mcu true s = run_command bi sn mcu c s1 ->
  handler bi sn mcu c = Some h -> h s1 = Ret tt s2 ->
  port = NONE \/ port = USB -> last_input s2 = USB ->
  at_ s2 port st a first f o e ->
  exists s', bl_step bi sn mcu true s = Ret tt s'
    /\ at_ s' USB st a first f (o ++ (pair USB <$> OK_REPLY)) e.
Proof.
  intros Hstep Hh Hr Hp Hl Hat. exists (accepted s2). split.
  - rewrite Hstep. unfold run_command. by rewrite Hh, Hr.
  - by eapply accepted_at.
Qed.

(** ** The commands before programming *)

Lemma sync_step s st a first f o e :
  at_ s NONE st a first f o (send [PROTO_GET_SYNC; PROTO_EOC] ++ e) ->
  exists s', bl_step bi sn mcu true s = Ret tt s'
    /\ at_ s' USB (fset st STATE_PROTO_GET_SYNC) a first f
           (o ++ (pair USB <$> OK_REPLY)) e.
Proof.
  intros Hs. destruct (step_at s NONE st a first f o PROTO_GET_SYNC
    (send [PROTO_EOC] ++ e)) as (s1 & Hstep & Hs1 & _); [by left | done | done |].
  destruct (eoc_at 2 s1 NONE st a first f o e) as (s2 & E2 & Hs2 & Hl & _);
    [by left | done |].
  eapply command_at with (s2 := set_bl_state (fset (bl_state s2) STATE_PROTO_GET_SYNC) s2);
    [exact Hstep | reflexivity | | by left | done |].
  - unfold cmd_get_sync, bind. by rewrite E2.
  - destruct Hs2. split; simpl; congruence.
Qed.

Lemma device_step s st a first f o e :
  at_ s USB st a first f o
    (send [PROTO_GET_DEVICE; PROTO_DEVICE_FW_SIZE; PROTO_EOC] ++ e) ->
  exists s', bl_step bi sn mcu true s = Ret tt s'
    /\ at_ s' USB (fset st STATE_PROTO_GET_DEVICE) a first f
           (o ++ (pair USB <$> (bytes_of_word (fw_size bi) ++ OK_REPLY))) e.
Proof.
  intros Hs. destruct (step_at s USB st a first f o PROTO_GET_DEVICE
    (send [PROTO_DEVICE_FW_SIZE; PROTO_EOC] ++ e)) as (s1 & Hstep & Hs1 & _);
    [by right | done | done |].
  destruct (cin_at 1000 s1 USB st a first f o PROTO_DEVICE_FW_SIZE (send [PROTO_EOC] ++ e))
    as (s2 & E2 & Hs2 & _); [by right | done | done |].
  destruct (eoc_at 2 s2 USB st a first f o e) as (s3 & E3 & Hs3 & Hl & _);
    [by right | done |].
  rewrite fmap_app, app_assoc.
  eapply command_at with (s2 := set_bl_state (fset (bl_state s3) STATE_PROTO_GET_DEVICE)
    (cout (bytes_of_word (fw_size bi)) s3)); [exact Hstep | reflexivity | | by right | |].
  - unfold cmd_get_device. unfold bind at 1. rewrite E2. simpl.
    unfold bind at 1. simpl. unfold bind at 1. rewrite E3. unfold bind. simpl.
    unfold set_bl_flag, modify. do 2 f_equal. unfold cout.
    by destruct (bl_type s3 =? NONE).
  - unfold cout. rewrite (at_port _ _ _ _ _ _ _ _ Hs3). done.
  - unfold cout. rewrite (at_port _ _ _ _ _ _ _ _ Hs3). destruct Hs3.
    split; simpl; congruence.
Qed.

(** ** Erasing *)

Lemma verify_erase_at n : forall s st a first f f' o e,
  flash_sweep n a f = (replicate n BLANK, f') ->
  0 <= a -> fw_size bi = a + 4 * Z.of_nat n -> is_u32 (fw_size bi) ->
  at_ s USB st a first f o e ->
  exists s', verify_erase bi n s = Ret tt s'
    /\ at_ s' USB st (fw_size bi) first f' o e /\ last_input s' = last_input s.
Proof.
  induction n as [|n IH]; intros s st a first f f' o e Hsw Ha Hsz Hu Hs; simpl in *.
  { injection Hsw as <-. exists s. split; [done|]. split; [|done].
    by replace (fw_size bi) with a by lia. }
  unfold bind at 1, gets at 1. rewrite (at_address _ _ _ _ _ _ _ _ Hs).
  destruct (Z.ltb_spec a (fw_size bi)); [|lia].
  unfold bind at 1, read_word. rewrite (at_dev _ _ _ _ _ _ _ _ Hs).
  destruct (flash_read_word a f) as [w f1].
  destruct (flash_sweep n (a + 4) f1) as [ws f2] eqn:E.
  injection Hsw as -> -> ->. unfold bind at 1, verify. rewrite Z.eqb_refl.
  unfold bind at 1, modify.
  destruct (IH (set_address (u32 (address (set_dev f1 s) + 4)) (set_dev f1 s)) st (a + 4)
    first f1 f' o e) as (s' & Hr & Hs' & Hl); [done | lia | lia | done | |].
  { destruct Hs. split; simpl; try congruence.
    rewrite at_address0. apply u32_small. unfold is_u32 in *. lia. }
  by exists s'.
Qed.

Definition UPLOAD_STATE : Z := STATE_ALLOWS_ERASE.

Lemma erase_step n s a first f o e :
  fw_size bi = 4 * Z.of_nat n -> is_u32 (fw_size bi) -> fw_size bi <= flash_capacity ->
  at_ s USB STATE_ALLOWS_ERASE a first f o (send [PROTO_CHIP_ERASE; PROTO_EOC] ++ e) ->
  exists s' f', bl_step bi sn mcu true s = Ret tt s'
    /\ at_ s' USB (fset STATE_ALLOWS_ERASE STATE_PROTO_CHIP_ERASE) 0 first f'
           (o ++ (pair USB <$> OK_REPLY)) e
    /\ prog f' (fun _ => BLANK) 0.
Proof.
  intros Hn Hu Hcap Hs. destruct (step_at s USB STATE_ALLOWS_ERASE a first f o
    PROTO_CHIP_ERASE (send [PROTO_EOC] ++ e)) as (s1 & Hstep & Hs1 & _);
    [by right | done | done |].
  destruct (eoc_at 2 s1 USB STATE_ALLOWS_ERASE a first f o e) as (s2 & E2 & Hs2 & Hl2 & _);
    [by right | done |].
  destruct (prog_erase f n) as (f' & Hsw & Hprog); [lia|].
  set (s3 := set_address 0 (set_led_state LED_OFF
    (set_wlog (wlog (set_led_state LED_ON s2) ++ [OpErase (bl_state (set_led_state LED_ON s2))])
      (set_dev (flash_erase_all 17 0 (flash_unlock (dev (set_led_state LED_ON s2))))
        (set_led_state LED_ON s2))))).
  destruct (verify_erase_at n s3 STATE_ALLOWS_ERASE 0 first
    (flash_erase_all 17 0 (flash_unlock f)) f' o e) as (s4 & E4 & Hs4 & Hl4);
    [done | lia | lia | done | by destruct Hs2; split; cbn -[flash_erase_all]; congruence |].
  exists (accepted (set_led_state LED_BLINK (set_bl_state
    (fset (bl_state s4) STATE_PROTO_CHIP_ERASE) (set_address 0 s4)))), f'.
  split; [|split; [|done]].
  - rewrite Hstep. unfold run_command. simpl. unfold cmd_chip_erase.
    unfold bind at 1. rewrite E2. unfold bind at 1, gets.
    rewrite (at_state _ _ _ _ _ _ _ _ Hs2). unfold bind at 1, need. rewrite Z.eqb_refl.
    unfold bind at 1, modify. unfold bind at 1. unfold bind at 1. unfold bind at 1.
    fold s3. unfold bind at 1.
    assert (fw_words bi = n) as ->.
    { unfold fw_words. rewrite Hn, (Z.mul_comm 4), Z.div_add_l by lia.
      rewrite Z.add_0_r. apply Nat2Z.id. }
    rewrite E4. reflexivity.
  - apply (accepted_at _ USB); [by right | exact (eq_trans Hl4 Hl2)|].
    destruct Hs4. split; simpl; congruence.
Qed.

(** ** Programming *)

Lemma take_insert_drop {A} (l : list A) i b bs :
  (i < length l)%nat ->
  take (S i) (<[i:=b]> l) ++ bs ++ drop (S i + length bs) (<[i:=b]> l)
  = take i l ++ (b :: bs) ++ drop (i + S (length bs)) l.
Proof.
  intros Hi. rewrite drop_insert_lt by lia.
  rewrite (take_S_r _ _ b) by (by apply list_lookup_insert_eq).
  rewrite take_insert_ge by lia. rewrite <- app_assoc.
  by replace (i + S (length bs))%nat with (S i + length bs)%nat by lia.
Qed.

Lemma read_data_at bs : forall s st a first f o e i,
  Forall (fun b => 0 <= b) bs -> (i + length bs <= 256)%nat ->
  at_ s USB st a first f o (send bs ++ e) ->
  exists s', read_data (length bs) (Z.of_nat i) s = Ret tt s'
    /\ at_ s' USB st a first f o e
    /\ flash_buffer s' = take i (flash_buffer s) ++ bs ++ drop (i + length bs) (flash_buffer s).
Proof.
  induction bs as [|b bs IH]; intros s st a first f o e i Hbs Hi Hs; simpl in *.
  { exists s. split; [done|]. split; [done|]. by rewrite Nat.add_0_r, take_drop. }
  apply Forall_cons_1 in Hbs as [Hb Hbs].
  destruct (cin_at 1000 s USB st a first f o b (send bs ++ e) (or_intror eq_refl) Hb Hs)
    as (s1 & E1 & Hs1 & _ & Hb1).
  unfold bind at 1. rewrite E1. unfold bind at 1, need.
  destruct (Z.leb_spec 0 b); [|lia]. unfold bind at 1, modify.
  pose proof (at_buffer _ _ _ _ _ _ _ _ Hs1) as Hlen.
  destruct (IH (set_flash_buffer (aset (flash_buffer s1) (Z.of_nat i) b) s1)
    st a first f o e (S i)) as (s' & Hr & Hs' & Hb'); [done | lia | |].
  { destruct Hs1. split; simpl; try congruence. by rewrite length_aset. }
  exists s'. replace (Z.of_nat i + 1) with (Z.of_nat (S i)) by lia.
  split; [done|]. split; [done|]. rewrite Hb'. simpl. rewrite Hb1 in *. unfold aset.
  rewrite Nat2Z.id. apply take_insert_drop. lia.
Qed.

Lemma word_at_bytes ws : forall k w l,
  Forall is_u32 ws -> ws !! k = Some w -> word_at (bytes_of_words ws ++ l) (Z.of_nat k) = w.
Proof.
  induction ws as [|v ws IH]; intros [|k] w l Hws Hk; simplify_eq/=;
    apply Forall_cons_1 in Hws as [Hv Hws].
  - by apply word_of_bytes_of_word.
  - rewrite <- (IH k w l Hws Hk). unfold word_at, aget.
    by replace (Z.to_nat (4 * Z.of_nat (S k))) with (4 + Z.to_nat (4 * Z.of_nat k))%nat by lia;
    replace (Z.to_nat (4 * Z.of_nat (S k) + 1))
      with (4 + Z.to_nat (4 * Z.of_nat k + 1))%nat by lia;
    replace (Z.to_nat (4 * Z.of_nat (S k) + 2))
      with (4 + Z.to_nat (4 * Z.of_nat k + 2))%nat by lia;
    replace (Z.to_nat (4 * Z.of_nat (S k) + 3))
      with (4 + Z.to_nat (4 * Z.of_nat k + 3))%nat by lia.
Qed.

Lemma program_words_at ws : forall s st c first f o e i m,
  (forall k w, ws !! k = Some w -> word_at (flash_buffer s) (i + Z.of_nat k) = w) ->
  prog f m c -> c `mod` 4 = 0 -> 0 <= c -> c + 4 * Z.of_nat (length ws) <= flash_capacity ->
  c + 4 * Z.of_nat (length ws) < 4294967296 ->
  at_ s USB st c first f o e ->
  exists s' f', program_words (length ws) i s = Ret tt s'
    /\ at_ s' USB st (c + 4 * Z.of_nat (length ws)) first f' o e
    /\ last_input s' = last_input s
    /\ prog f' (image_at ws c m) (c + 4 * Z.of_nat (length ws)).
Proof.
  induction ws as [|w ws IH]; intros s st c first f o e i m Hw Hp Hc4 Hc Hcap H32 Hs;
    simpl length in *.
  { exists s, f. rewrite Z.add_0_r. done. }
  simpl. unfold bind at 1, gets at 1. rewrite (at_address _ _ _ _ _ _ _ _ Hs).
  unfold bind at 1, gets at 1. pose proof (Hw 0%nat w eq_refl) as Hw0.
  rewrite Z.add_0_r in Hw0. rewrite Hw0.
  destruct (prog_write f m c w Hp) as (f' & Hr & Hp'); [done..|lia|].
  unfold bind at 1, write_word, modify at 1. unfold bind at 1, read_word. simpl dev.
  rewrite (at_dev _ _ _ _ _ _ _ _ Hs), Hr. unfold bind at 1, verify. rewrite Z.eqb_refl.
  unfold bind at 1, modify.
  set (s1 := set_address _ _).
  destruct (IH s1 st (c + 4) first f' o e (i + 1) (upd m c w)) as (s' & f2 & Hrun & Hs' & Hl & Hp2);
    try done; try lia.
  - intros k v Hk. rewrite <- (Hw (S k) v Hk). subst s1. simpl. f_equal. lia.
  - subst s1. destruct Hs. split; simpl; try congruence.
    rewrite at_address0. apply u32_small. unfold is_u32 in *. lia.
  - exists s', f2.
    replace (c + 4 * Z.of_nat (S (length ws))) with (c + 4 + 4 * Z.of_nat (length ws)) by lia.
    done.
Qed.

(** What a packet stores, and the first word it captures. *)
Definition stored (c : Z) (ws : list Z) : list Z :=
  if c =? 0 then BLANK :: List.tl ws else ws.
Definition captured (c first : Z) (ws : list Z) : Z :=
  if c =? 0 then List.hd BLANK ws else first.

Lemma defer_at s st c first f o e ws l :
  at_ s USB st c first f o e -> ws <> [] -> Forall is_u32 ws ->
  flash_buffer s = bytes_of_words ws ++ l ->
  at_ (defer_first_word s) USB st c (captured c first ws) f o e
  /\ last_input (defer_first_word s) = last_input s
  /\ flash_buffer (defer_first_word s) = bytes_of_words (stored c ws) ++ l.
Proof.
  intros Hs Hne Hws Hb. unfold defer_first_word, captured, stored.
  rewrite (at_address _ _ _ _ _ _ _ _ Hs). destruct (Z.eqb_spec c 0) as [->|]; [|done].
  destruct ws as [|w ws]; [done|]. split; [|split; [done|]].
  - destruct Hs. split; simpl; rewrite ?length_aset; try congruence.
    rewrite Hb. by apply (word_at_bytes (w :: ws) 0 w l).
  - simpl. by rewrite Hb.
Qed.

Lemma stored_words c ws l : Forall is_u32 ws ->
  forall k w, stored c ws !! k = Some w -> word_at (bytes_of_words (stored c ws) ++ l)
                                                   (0 + Z.of_nat k) = w.
Proof.
  intros Hws k w Hk. apply word_at_bytes; [|done]. unfold stored.
  destruct (c =? 0); [|done]. constructor; [unfold is_u32, BLANK; lia|].
  by destruct ws; [|inversion Hws].
Qed.

Lemma length_stored c ws : ws <> [] -> length (stored c ws) = length ws.
Proof. unfold stored. by destruct (c =? 0), ws. Qed.

Lemma nonneg_bytes ws : Forall (fun b => 0 <= b) (bytes_of_words ws).
Proof.
  eapply Forall_impl; [|apply bytes_of_words_u8]. intros b. unfold is_u8. lia.
Qed.

(** The body of PROG_MULTI once its length byte has been accepted. *)
Lemma prog_body_at s st c first f o e ws m :
  ws <> [] -> (length ws <= 63)%nat -> Forall is_u32 ws ->
  prog f m c -> c `mod` 4 = 0 -> 0 <= c -> c + 4 * Z.of_nat (length ws) <= flash_capacity ->
  c + 4 * Z.of_nat (length ws) < 4294967296 ->
  at_ s USB st c first f o (send (bytes_of_words ws ++ [PROTO_EOC]) ++ e) ->
  exists s' f',
    (read_data (4 * length ws) 0 ;;; expect_eoc 200 ;;; modify defer_first_word ;;;
     program_words (length ws) 0 ;;; set_bl_flag STATE_PROTO_PROG_MULTI)%bl s = Ret tt s'
    /\ at_ s' USB (fset st STATE_PROTO_PROG_MULTI) (c + 4 * Z.of_nat (length ws))
           (captured c first ws) f' o e
    /\ last_input s' = USB
    /\ prog f' (image_at (stored c ws) c m) (c + 4 * Z.of_nat (length ws)).
Proof.
  intros Hne Hlen Hws Hp Hc4 Hc Hcap H32 Hs. rewrite send_app, <- app_assoc in Hs.
  destruct (read_data_at (bytes_of_words ws) s st c first f o (send [PROTO_EOC] ++ e) 0)
    as (s1 & E1 & Hs1 & Hb1); [apply nonneg_bytes | rewrite length_bytes_of_words; lia | done |].
  rewrite length_bytes_of_words in E1. unfold bind at 1. change 0 with (Z.of_nat 0) at 1.
  rewrite E1.
  destruct (eoc_at 200 s1 USB st c first f o e) as (s2 & E2 & Hs2 & Hl2 & Hb2);
    [by right | done |].
  unfold bind at 1. rewrite E2. rewrite Hb1 in Hb2. simpl in Hb2.
  destruct (defer_at s2 st c first f o e ws _ Hs2 Hne Hws Hb2) as (Hs3 & Hl3 & Hb3).
  unfold bind at 1, modify.
  destruct (program_words_at (stored c ws) (defer_first_word s2) st c (captured c first ws)
    f o e 0 m) as (s4 & f' & E4 & Hs4 & Hl4 & Hp4);
    rewrite ?length_stored in * by done; try done.
  { rewrite Hb3. by apply stored_words. }
  unfold bind. rewrite E4. eexists _, f'. split; [done|].
  split; [|split; [|done]].
  - destruct Hs4. split; simpl; congruence.
  - by rewrite <- Hl2, <- Hl3, <- Hl4.
Qed.

Lemma prog_step s st c first f o e ws m :
  ws <> [] -> (length ws <= 63)%nat -> Forall is_u32 ws ->
  prog f m c -> c `mod` 4 = 0 -> 0 <= c ->
  c + 4 * Z.of_nat (length ws) <= fw_size bi -> fw_size bi <= flash_capacity ->
  is_u32 (fw_size bi) ->
  at_ s USB st c first f o (send (prog_packet ws) ++ e) ->
  exists s' f', bl_step bi sn mcu true s = Ret tt s'
    /\ at_ s' USB (fset st STATE_PROTO_PROG_MULTI) (c + 4 * Z.of_nat (length ws))
           (captured c first ws) f' (o ++ (pair USB <$> OK_REPLY)) e
    /\ prog f' (image_at (stored c ws) c m) (c + 4 * Z.of_nat (length ws)).
Proof.
  intros Hne Hlen Hws Hp Hc4 Hc Hfit Hcap Hu Hs. unfold is_u32 in Hu.
  destruct (step_at s USB st c first f o PROTO_PROG_MULTI
    (send (4 * Z.of_nat (length ws) :: bytes_of_words ws ++ [PROTO_EOC]) ++ e))
    as (s1 & Hstep & Hs1 & _); [by right | done | done |].
  destruct (cin_at 50 s1 USB st c first f o (4 * Z.of_nat (length ws))
    (send (bytes_of_words ws ++ [PROTO_EOC]) ++ e)) as (s2 & E2 & Hs2 & _);
    [by right | lia | done |].
  destruct (prog_body_at s2 st c first f o e ws m) as (s3 & f' & E3 & Hs3 & Hl3 & Hp3);
    try done; try lia.
  destruct (command_at s s1 s3 PROTO_PROG_MULTI (cmd_prog_multi bi) USB
    (fset st STATE_PROTO_PROG_MULTI) (c + 4 * Z.of_nat (length ws)) (captured c first ws)
    f' o e) as (s' & ? & ?); try done; [|by right|by exists s', f'].
  unfold cmd_prog_multi. unfold bind at 1. rewrite E2. unfold bind at 1, need at 1.
  destruct (Z.leb_spec 0 (4 * Z.of_nat (length ws))); [|lia]. unfold bind at 1, need at 1.
  assert ((4 * Z.of_nat (length ws)) `mod` 4 = 0) as -> by lia. simpl.
  unfold bind at 1, gets. rewrite (at_address _ _ _ _ _ _ _ _ Hs2).
  unfold bind at 1, need at 1. rewrite u32_small by (unfold is_u32; lia).
  destruct (Z.leb_spec (c + 4 * Z.of_nat (length ws)) (fw_size bi)); [|lia].
  unfold bind at 1, need at 1. destruct (Z.leb_spec (4 * Z.of_nat (length ws)) 256); [|lia].
  replace (Z.to_nat (4 * Z.of_nat (length ws))) with (4 * length ws)%nat by lia.
  by replace (Z.to_nat (4 * Z.of_nat (length ws) / 4)) with (length ws) by lia.
Qed.

Lemma image_at_app ws1 : forall ws2 c m,
  image_at (ws1 ++ ws2) c m = image_at ws2 (c + 4 * Z.of_nat (length ws1)) (image_at ws1 c m).
Proof.
  induction ws1 as [|w ws1 IH]; intros ws2 c m; simpl length; simpl app; simpl image_at.
  { by rewrite Z.add_0_r. }
  rewrite IH. f_equal. lia.
Qed.

Lemma image_at_above ws : forall c m a,
  c + 4 * Z.of_nat (length ws) <= a -> image_at ws c m a = m a.
Proof.
  induction ws as [|w ws IH]; intros c m a Ha; simpl in *; [done|].
  rewrite IH by lia. unfold upd. by destruct (Z.eqb_spec a c); [lia|].
Qed.

(** A chunk a PROG_MULTI packet can carry: its length is one byte. *)
Definition chunk_ok (ws : list Z) : Prop :=
  ws <> [] /\ (length ws <= 63)%nat /\ Forall is_u32 ws.

(** The packets after the first. *)
Lemma prog_rest chunks : forall s st c first f o e m k,
  Forall chunk_ok chunks -> fset st STATE_PROTO_PROG_MULTI = st ->
  prog f m c -> c `mod` 4 = 0 -> 0 < c ->
  c + 4 * Z.of_nat (length (concat chunks)) <= fw_size bi -> fw_size bi <= flash_capacity ->
  is_u32 (fw_size bi) ->
  at_ s USB st c first f o (send (concat (prog_packet <$> chunks)) ++ e) ->
  exists s' f', bl_loop bi sn mcu (length chunks + k) true s = bl_loop bi sn mcu k true s'
    /\ at_ s' USB st (c + 4 * Z.of_nat (length (concat chunks))) first f'
           (o ++ (pair USB <$> concat ((fun _ => OK_REPLY) <$> chunks))) e
    /\ prog f' (image_at (concat chunks) c m) (c + 4 * Z.of_nat (length (concat chunks))).
Proof.
  induction chunks as [|ws chunks IH]; intros s st c first f o e m k Hch Hst Hp Hc4 Hc Hfit
    Hcap Hu Hs; simpl in *.
  { exists s, f. rewrite app_nil_r, Z.add_0_r. done. }
  apply Forall_cons_1 in Hch as [(Hne & Hlen & Hws) Hch].
  rewrite length_app in *. rewrite send_app, <- app_assoc in Hs.
  destruct (prog_step s st c first f o (send (concat (prog_packet <$> chunks)) ++ e) ws m)
    as (s1 & f1 & E1 & Hs1 & Hp1); try done; try lia.
  assert ((c =? 0) = false) as Hc0 by lia. unfold captured, stored in *. rewrite Hc0 in *.
  rewrite Hst in Hs1.
  destruct (IH s1 st _ first f1 _ e _ k Hch Hst Hp1 ltac:(lia) ltac:(lia) ltac:(lia) Hcap Hu Hs1)
    as (s2 & f2 & E2 & Hs2 & Hp2).
  exists s2, f2. rewrite E1. split; [done|].
  rewrite image_at_app.
  replace (c + 4 * Z.of_nat (length ws + length (concat chunks)))
    with (c + 4 * Z.of_nat (length ws) + 4 * Z.of_nat (length (concat chunks))) by lia.
  split; [|done]. by rewrite <- app_assoc, <- fmap_app in Hs2.
Qed.

(** ** The checksum *)

Definition crc_of_words (ws : list Z) (sum : Z) : Z :=
  fold_left (fun sum w => crc32 (bytes_of_word w) sum) ws sum.

Lemma crc32_app l1 l2 sum : crc32 (l1 ++ l2) sum = crc32 l2 (crc32 l1 sum).
Proof. unfold crc32, crc32_static. cbv zeta. cbn [fst]. apply fold_left_app. Qed.

Lemma fold_left_cons {A B} (g : A -> B -> A) b l a :
  fold_left g (b :: l) a = fold_left g l (g a b).
Proof. done. Qed.

Lemma crc_of_words_cons w ws sum :
  crc_of_words (w :: ws) sum = crc_of_words ws (crc32 (bytes_of_word w) sum).
Proof. exact (fold_left_cons _ w ws sum). Qed.

Lemma crc_of_words_bytes ws : forall sum,
  crc_of_words ws sum = crc32 (bytes_of_words ws) sum.
Proof.
  induction ws as [|w ws IH]; intros sum; [done|].
  rewrite bytes_of_words_cons, crc32_app, crc_of_words_cons. apply IH.
Qed.

Lemma crc_words_at n : forall p sum s st a first f f' o e ws,
  flash_sweep n p f = (ws, f') -> 0 < p -> fw_size bi = p + 4 * Z.of_nat n ->
  at_ s USB st a first f o e ->
  exists s', crc_words bi n p sum s = Ret (crc_of_words ws sum) s'
    /\ at_ s' USB st a first f' o e /\ last_input s' = last_input s.
Proof.
  induction n as [|n IH]; intros p sum s st a first f f' o e ws Hsw Hp Hsz Hs; simpl in *.
  { injection Hsw as <- <-. by exists s. }
  destruct (flash_read_word p f) as [w f1] eqn:Er.
  destruct (flash_sweep n (p + 4) f1) as [ws1 f2] eqn:Es. injection Hsw as <- <-.
  destruct (Z.ltb_spec p (fw_size bi)); [|lia]. unfold bind at 1, gets.
  destruct (Z.eqb_spec p 0); [lia|]. cbn [andb]. unfold bind at 1, read_word.
  rewrite (at_dev _ _ _ _ _ _ _ _ Hs), Er.
  rewrite crc_of_words_cons. apply (IH (p + 4) _ (set_dev f1 s) st a first f1 f2 o e ws1); [done | lia | lia |].
  destruct Hs. split; simpl; congruence.
Qed.

Lemma crc_step s st c first f o e m n :
  prog f m c -> first <> BLANK -> (0 < n)%nat -> fw_size bi = 32 * Z.of_nat n ->
  c <= fw_size bi <= flash_capacity ->
  at_ s USB st c first f o (send [PROTO_GET_CRC; PROTO_EOC] ++ e) ->
  exists s' f', bl_step bi sn mcu true s = Ret tt s'
    /\ at_ s' USB (fset st STATE_PROTO_GET_CRC) c first f'
           (o ++ (pair USB <$> (bytes_of_word (crc_of_words
              (first :: ((fun i => m (4 * Z.of_nat i)) <$> seq 1 (8 * n - 1))) 0) ++ OK_REPLY))) e
    /\ swept f' m c.
Proof.
  intros Hp Hfirst Hn Hsz Hc Hs. destruct (step_at s USB st c first f o PROTO_GET_CRC
    (send [PROTO_EOC] ++ e)) as (s1 & Hstep & Hs1 & _); [by right | done | done |].
  destruct (eoc_at 2 s1 USB st c first f o e) as (s2 & E2 & Hs2 & Hl2 & _);
    [by right | done |].
  destruct (prog_sweep f m c n Hp) as (f' & Hsw & Hswept); [lia | done |].
  destruct (crc_words_at (8 * n - 1) 4 (crc32 (bytes_of_word first) 0) s2 st c first f f' o e
    _ Hsw) as (s3 & E3 & Hs3 & Hl3); [lia | lia | done |].
  set (sum := crc_of_words (first :: _) 0).
  rewrite fmap_app, app_assoc.
  destruct (command_at s s1 (set_bl_state (fset (bl_state (cout (bytes_of_word sum) s3))
    STATE_PROTO_GET_CRC) (cout (bytes_of_word sum) s3)) PROTO_GET_CRC (cmd_get_crc bi) USB
    (fset st STATE_PROTO_GET_CRC) c first f' (o ++ (pair USB <$> bytes_of_word sum)) e)
    as (s' & ? & ?); try done; [| by right | | |by exists s', f'].
  - unfold cmd_get_crc. unfold bind at 1. rewrite E2. unfold bind at 1.
    assert (fw_words bi = S (8 * n - 1)) as ->.
    { unfold fw_words. rewrite Hsz. lia. }
    set (k := (8 * n - 1)%nat) in *. simpl crc_words.
    destruct (Z.ltb_spec 0 (fw_size bi)); [|lia].
    unfold bind at 1, gets. rewrite (at_first _ _ _ _ _ _ _ _ Hs2).
    destruct (Z.eqb_spec first BLANK); [done|]. cbn [negb andb Z.eqb]. unfold bind at 1, ret.
    change (0 + 4) with 4. rewrite E3. subst sum. by rewrite crc_of_words_cons.
  - unfold cout. rewrite (at_port _ _ _ _ _ _ _ _ Hs3). exact (eq_trans Hl3 Hl2).
  - unfold cout. rewrite (at_port _ _ _ _ _ _ _ _ Hs3). destruct Hs3.
    split; simpl; congruence.
Qed.

(** ** Sealing *)

Lemma delay_same n s :
  dev (delay n s) = dev s /\ tx (delay n s) = tx s /\ env (delay n s) = env s.
Proof.
  pose proof (io_ticks n (set_timer (aset (timer s) TIMER_DELAY (Z.of_nat n)) s)) as [].
  unfold delay. by rewrite env_ticks.
Qed.
#[local] Opaque delay.

Lemma boot_step s st c first f o e m :
  swept f m c -> 32 <= c -> first <> BLANK ->
  Z.land st STATE_ALLOWS_REBOOT = STATE_ALLOWS_REBOOT ->
  at_ s USB st c first f o (send [PROTO_BOOT; PROTO_EOC] ++ e) ->
  exists s' f', bl_step bi sn mcu true s = Return s'
    /\ dev s' = f' /\ tx s' = o ++ (pair USB <$> OK_REPLY) /\ env s' = e
    /\ (forall a, 0 <= a < flash_capacity -> a `mod` 4 = 0 ->
           exists f'', flash_read_word a f' = (upd m 0 first a, f'')).
Proof.
  intros Hp Hc Hfirst Hst Hs. destruct (step_at s USB st c first f o PROTO_BOOT
    (send [PROTO_EOC] ++ e)) as (s1 & Hstep & Hs1 & _); [by right | done | done |].
  destruct (eoc_at 1000 s1 USB st c first f o e) as (s2 & E2 & Hs2 & Hl2 & _);
    [by right | done |].
  destruct (swept_seal f m c first Hp Hc) as (f' & Hr & Hread).
  set (s3 := sync_response (set_first_word BLANK (set_dev f' (set_wlog
    (wlog s2 ++ [OpWrite (bl_state s2) 0 first])
    (set_dev (flash_write_word 0 first (dev s2)) s2))))).
  assert (H3 : dev s3 = f' /\ tx s3 = o ++ (pair USB <$> OK_REPLY) /\ env s3 = e).
  { destruct Hs2. subst s3. unfold sync_response, cout. simpl. rewrite at_port0. simpl.
    by rewrite at_tx0. }
  destruct (delay_same 100 s3) as (Hd & Ht & He). rewrite <- Hd, <- Ht, <- He in H3.
  exists (delay 100 s3), f'. split; [|by destruct H3 as (? & ? & ?)].
  - rewrite Hstep. unfold run_command. simpl. unfold cmd_boot.
    unfold bind at 1. rewrite E2. unfold bind at 1, gets at 1.
    rewrite (at_first _ _ _ _ _ _ _ _ Hs2).
    unfold bind at 1, gets at 1. rewrite (at_state _ _ _ _ _ _ _ _ Hs2), Hst.
    unfold bind at 1, need. rewrite Z.eqb_refl, orb_true_r.
    destruct (Z.eqb_spec first BLANK); [contradiction|].
    unfold bind at 1. unfold bind at 1, write_word, modify at 1. unfold bind at 1, read_word.
    simpl dev. rewrite (at_dev _ _ _ _ _ _ _ _ Hs2), Hr.
    unfold bind at 1, verify. rewrite Z.eqb_refl. unfold modify at 1.
    subst s3. by rewrite (at_dev _ _ _ _ _ _ _ _ Hs2).
Qed.

(** ** A whole session *)

Lemma loop_step n s s' :
  bl_step bi sn mcu true s = Ret tt s' ->
  bl_loop bi sn mcu (S n) true s = bl_loop bi sn mcu n true s'.
Proof. intros E. simpl. by rewrite E. Qed.

Lemma start_at s :
  length (flash_buffer s) = 256%nat ->
  at_ (bl_start bi 0 s) NONE 0 (fw_size bi) BLANK (dev s) (tx s) (env s).
Proof. by intros. Qed.

(** The packets, the first one capturing the image's first word. *)
Lemma prog_steps chunks s st a f o e k :
  Forall chunk_ok chunks -> concat chunks <> [] ->
  st = fset STATE_ALLOWS_ERASE STATE_PROTO_CHIP_ERASE -> prog f (fun _ => BLANK) 0 ->
  4 * Z.of_nat (length (concat chunks)) <= fw_size bi -> fw_size bi <= flash_capacity ->
  is_u32 (fw_size bi) ->
  at_ s USB st 0 a f o (send (concat (prog_packet <$> chunks)) ++ e) ->
  exists s' f', bl_loop bi sn mcu (length chunks + k) true s = bl_loop bi sn mcu k true s'
    /\ at_ s' USB (fset st STATE_PROTO_PROG_MULTI) (4 * Z.of_nat (length (concat chunks)))
           (List.hd BLANK (concat chunks)) f'
           (o ++ (pair USB <$> concat ((fun _ => OK_REPLY) <$> chunks))) e
    /\ prog f' (image_at (BLANK :: List.tl (concat chunks)) 0 (fun _ => BLANK))
            (4 * Z.of_nat (length (concat chunks))).
Proof.
  intros Hch Hne Hst Hp Hfit Hcap Hu Hs. destruct chunks as [|ws chunks]; [done|].
  simpl in *. apply Forall_cons_1 in Hch as [(Hws & Hlen & Hu32) Hch].
  rewrite length_app in *. rewrite send_app, <- app_assoc in Hs.
  destruct (prog_step s st 0 a f o (send (concat (prog_packet <$> chunks)) ++ e) ws _
    Hws Hlen Hu32 Hp) as (s1 & f1 & E1 & Hs1 & Hp1); [done | lia | lia | done | done | exact Hs |].
  assert (0 < length ws)%nat by (destruct ws; simpl; [done | lia]).
  destruct (prog_rest chunks s1 (fset st STATE_PROTO_PROG_MULTI) (0 + 4 * Z.of_nat (length ws))
    (captured 0 a ws) f1 (o ++ (pair USB <$> OK_REPLY)) e
    (image_at (stored 0 ws) 0 (fun _ => BLANK)) k Hch) as (s2 & f2 & E2 & Hs2 & Hp2);
    [by rewrite Hst | done | lia | lia | lia | done | done | exact Hs1 |].
  exists s2, f2. rewrite E1. split; [done|].
  replace (4 * Z.of_nat (length ws + length (concat chunks)))
    with (0 + 4 * Z.of_nat (length ws) + 4 * Z.of_nat (length (concat chunks))) by lia.
  destruct ws as [|w ws]; [done|]. split.
  - by rewrite <- app_assoc, <- fmap_app in Hs2.
  - change (prog f2 (image_at ((BLANK :: ws) ++ concat chunks) 0 (fun _ => BLANK))
      (0 + 4 * Z.of_nat (length (w :: ws)) + 4 * Z.of_nat (length (concat chunks)))).
    rewrite image_at_app. exact Hp2.
Qed.

(** Reading the flash after the seal gives the image padded with blanks. *)
Lemma sealed_image w0 ws i w k :
  padded k (w0 :: ws) !! i = Some w ->
  upd (image_at (BLANK :: ws) 0 (fun _ => BLANK)) 0 w0 (4 * Z.of_nat i) = w.
Proof.
  intros Hi. unfold upd. destruct i as [|i]; [by injection Hi as ->|].
  destruct (Z.eqb_spec (4 * Z.of_nat (S i)) 0); [lia|].
  change (image_at (BLANK :: ws) 0 (fun _ => BLANK) (0 + 4 * Z.of_nat (S i)) = w).
  unfold padded in Hi. simpl in Hi. apply lookup_app_Some in Hi as [Hi|[Hge Hi]].
  - by apply image_at_lookup.
  - apply lookup_replicate in Hi as [-> _]. apply image_at_above. simpl. lia.
Qed.

Lemma swept_image w0 ws k :
  (S (length ws) <= k)%nat ->
  w0 :: ((fun i => image_at (BLANK :: ws) 0 (fun _ => BLANK) (4 * Z.of_nat i)) <$> seq 1 (k - 1))
  = padded k (w0 :: ws).
Proof.
  intros Hk. apply list_eq_same_length with (n := k).
  - unfold padded. rewrite length_app, length_replicate. simpl. lia.
  - simpl. rewrite length_fmap, length_seq. lia.
  - intros [|i] x y Hi Hx Hy; simpl in Hx.
    { unfold padded in Hy. simpl in Hy. congruence. }
    apply list_lookup_fmap_Some in Hx as (j & -> & Hj).
    apply lookup_seq in Hj as [-> _].
    rewrite <- (sealed_image w0 ws (S i) y k Hy). unfold upd.
    destruct (Z.eqb_spec (4 * Z.of_nat (S i)) 0); [lia|]. done.
Qed.

(** C4: a complete upload installs the image.  For every image of at least
    8 words whose first word is not blank, cut into PROG_MULTI packets in
    any way, on a flash that holds anything: when the host sends GET_SYNC,
    GET_DEVICE, CHIP_ERASE, the packets, GET_CRC and BOOT, the loop returns
    to its caller; the host receives the flash size, the CRC-32 of the image
    padded with blanks to the size of the area, and an OK for each command;
    and every word of the area then reads back as that padded image, the
    first word included. *)
Theorem upload_installs_image (n : nat) (chunks : list (list Z)) (s : bl F) :
  fw_size bi = 32 * Z.of_nat n -> fw_size bi <= flash_capacity -> is_u32 (fw_size bi) ->
  Forall chunk_ok chunks -> (8 <= length (concat chunks) <= 8 * n)%nat ->
  List.hd BLANK (concat chunks) <> BLANK -> length (flash_buffer s) = 256%nat ->
  env s = send (upload_bytes chunks) ->
  exists s',
    bootloader bi sn mcu (5 + length chunks) 0 true s = Some (Return s')
    /\ tx s' = tx s ++ (pair USB <$> upload_replies (fw_size bi) chunks
                          (crc32 (bytes_of_words (padded (8 * n) (concat chunks))) 0))
    /\ (forall i w, padded (8 * n) (concat chunks) !! i = Some w ->
           (flash_read_word (4 * Z.of_nat i) (dev s')).1 = w).
Proof.
  intros Hsz Hcap Hu Hch Hlen Hfirst Hbuf Henv.
  pose proof (start_at s Hbuf) as Hs. rewrite Henv in Hs. unfold upload_bytes in Hs.
  rewrite !send_app in Hs.
  destruct (sync_step _ _ _ _ _ _ _ Hs) as (s1 & E1 & Hs1).
  destruct (device_step _ _ _ _ _ _ _ Hs1) as (s2 & E2 & Hs2).
  destruct (erase_step (8 * n) s2 _ _ _ _ _ ltac:(lia) Hu Hcap Hs2) as (s3 & f3 & E3 & Hs3 & Hp3).
  destruct (prog_steps chunks s3 _ _ f3 _ _ 2 Hch ltac:(by intros E; rewrite E in Hlen; simpl in *; lia)
    eq_refl Hp3 ltac:(lia) Hcap Hu Hs3) as (s4 & f4 & E4 & Hs4 & Hp4).
  destruct (crc_step s4 _ _ _ f4 _ _ _ n Hp4 Hfirst ltac:(lia) Hsz ltac:(lia) Hs4)
    as (s5 & f5 & E5 & Hs5 & Hswept).
  rewrite <- (app_nil_r (send [PROTO_BOOT; PROTO_EOC])) in Hs5.
  destruct (boot_step s5 (fset (fset (fset STATE_ALLOWS_ERASE STATE_PROTO_CHIP_ERASE)
    STATE_PROTO_PROG_MULTI) STATE_PROTO_GET_CRC) _ _ f5 _ _ _ Hswept ltac:(lia) Hfirst eq_refl Hs5)
    as (s6 & f6 & E6 & <- & Ht & _ & Hread).
  destruct (concat chunks) as [|w0 ws] eqn:Ec; [simpl in *; lia|].
  exists s6. split; [|split].
  - unfold bootloader. change (5 + length chunks)%nat with (S (S (S (S (S (length chunks)))))).
    replace (S (S (length chunks))) with (length chunks + 2)%nat by lia.
    rewrite (loop_step _ _ _ E1), (loop_step _ _ _ E2), (loop_step _ _ _ E3), E4.
    rewrite (loop_step _ _ _ E5). simpl. by rewrite E6.
  - rewrite Ht. cbn [List.hd List.tl]. rewrite swept_image by (simpl in *; lia).
    rewrite crc_of_words_bytes. unfold upload_replies. by rewrite !fmap_app, <- !app_assoc.
  - intros i w Hi. pose proof (lookup_lt_Some _ _ _ Hi) as Hlt.
    unfold padded in Hlt. rewrite length_app, length_replicate in Hlt.
    destruct (Hread (4 * Z.of_nat i)) as [f' ->]; [lia | lia |].
    by apply (sealed_image w0 ws i w (8 * n)).
Qed.
End Upload.

(** Twelve words in two packets, on the cached flash. *)
Definition demo_chunks : list (list Z) := [Z.of_nat <$> seq 100 5; Z.of_nat <$> seq 200 7].

Lemma upload_installs_image_witness :
  exists s',
    bootloader demo_board (fun _ => 0) 0 7 0 true (demo_state (send (upload_bytes demo_chunks)))
      = Some (Return s')
    /\ tx s' = [] ++ (pair USB <$> upload_replies 448 demo_chunks
                         (crc32 (bytes_of_words (padded 112 (concat demo_chunks))) 0))
    /\ (forall i w, padded 112 (concat demo_chunks) !! i = Some w ->
           (flash_read_word (4 * Z.of_nat i) (dev s')).1 = w).
Proof.
  apply (upload_installs_image demo_board (fun _ => 0) 0 14 demo_chunks
           (demo_state (send (upload_bytes demo_chunks)))).
  - reflexivity.
  - discriminate.
  - split; [discriminate | reflexivity].
  - repeat constructor; try discriminate; simpl; lia.
  - split; vm_compute; lia.
  - discriminate.
  - reflexivity.
  - reflexivity.
Defined.
