(* ===== verification/BootloaderLimits.v ===== *)
(** What the bootloader does not do: the boot delay command on the cached
    flash, and the guards around an erase that failed. *)

From Stdlib Require Import ZArith Lia.
From stdpp Require Import base list numbers.
From S2P Require Import Prelude Crc FlashCache Bootloader BootloaderSafety.
Import FlashCache.

Local Open Scope Z_scope.

Section Delay.
Context {M : Type} `{Progmem M}.
Implicit Types (s : bl (FlashCache.state (M := M))).

Abbreviation flash := (FlashCache.state (M := M)).

Lemma read_not_last a (f : flash) :
  FC_ADDR2INDX a <> FC_LAST_WORD -> (fc_read a f).2 = f.
Proof.
  intros Hi. unfold fc_read. destruct (fc_line_select f a) as [[]|]; [|done..].
  by destruct (Z.eqb_spec (FC_ADDR2INDX a) FC_LAST_WORD).
Qed.

Lemma write_keeps_mem a w (f : flash) :
  start_address (line0 f) <> FC_TAG a -> mem (fc_write a w f).2 = mem f.
Proof.
  intros H0. unfold fc_write, fc_line_select.
  destruct (Z.eqb_spec (start_address (line0 f)) (FC_TAG a)); [done|].
  by destruct (start_address (line1 f) =? FC_TAG a); [|destruct (FC_ADDR2INDX a =? 0)].
Qed.

(** Line 0 holds the first block of the application, or nothing. *)
Definition not_delay_block (f : flash) : Prop :=
  start_address (line0 f) <> FC_TAG (APP_LOAD_ADDRESS + BOOT_DELAY_ADDRESS).

Lemma write_keeps_line0 a w (f : flash) :
  start_address (line0 f) <> FC_TAG a -> line0 (fc_write a w f).2 = line0 f.
Proof.
  intros H0. unfold fc_write, fc_line_select.
  destruct (Z.eqb_spec (start_address (line0 f)) (FC_TAG a)); [done|].
  by destruct (start_address (line1 f) =? FC_TAG a); [|destruct (FC_ADDR2INDX a =? 0)].
Qed.

(** SET_DELAY never reaches the flash.  On a board whose flash goes
    through the cache, whenever line 0 does not buffer the block of the
    delay signature, a SET_DELAY command leaves the flash contents exactly
    as they were, however it ends, and so also when it is answered with OK:
    the new word stays in line 1 of the cache, and that block is only
    written by a read of its last word, which the command does not do. *)
Theorem set_delay_not_persisted s :
  not_delay_block (dev s) -> mem (dev (out_state (cmd_set_delay s))) = mem (dev s).
Proof.
  intros H0.
  set (P := fun s1 : bl flash => mem (dev s1) = mem (dev s) /\ not_delay_block (dev s1)).
  assert (HP : io_stable P) by (intros x y [] [? ?]; unfold P; by rewrite io_dev).
  assert (Hrd : forall a, a = BOOT_DELAY_ADDRESS \/ a = BOOT_DELAY_ADDRESS + 4 ->
            keeps P (read_word a)).
  { intros a Ha x Hx. unfold read_word. simpl. unfold flash_func_read_word.
    assert (Hl : Z.land a 3 = 0) by (by destruct Ha as [-> | ->]). rewrite Hl. simpl.
    pose proof (read_not_last (u32 (a + APP_LOAD_ADDRESS)) (dev x)) as E.
    destruct (fc_read _ _) as [w f]. simpl in E.
    rewrite E by (by destruct Ha as [-> | ->]). exact Hx. }
  assert (Hk : keeps P cmd_set_delay).
  { unfold cmd_set_delay. walk; auto.
    - match goal with Hx : P _ |- _ => destruct Hx as [Hm Hn] end. split; simpl.
      + unfold flash_func_write_word. rewrite write_keeps_mem; [done|]. exact Hn.
      + unfold not_delay_block, flash_func_write_word. by rewrite write_keeps_line0. }
  specialize (Hk s (conj eq_refl H0)). destruct (cmd_set_delay s); apply Hk.
Qed.
End Delay.

(** ** Programming before an erase *)

Section Fresh.
Context {F : Type} `{!WordFlash F}.
Context (bi : boardinfo) (sn : Z -> Z) (mcu : Z).
Context (Hbi : board_ok bi).
Implicit Types (s : bl F).

Definition is_erase (op : flash_op) : Prop := if op is OpErase _ then True else False.
Definition delay_write (op : flash_op) : Prop :=
  if op is OpWrite _ a _ then a = BOOT_DELAY_ADDRESS else False.

(** Each operation is an erase, a delay write, or after an erase. *)
Definition ordered (l : list flash_op) : Prop :=
  forall l1 op l2, l = l1 ++ op :: l2 -> Exists is_erase l1 \/ is_erase op \/ delay_write op.

(** An erase has been started. *)
Definition erased s : Prop := Exists is_erase (wlog s) /\ ordered (wlog s).

(** Nothing has been, and the cursor is at the end of the area. *)
Definition fresh s : Prop :=
  address s = fw_size bi /\ first_word s = BLANK /\ Forall delay_write (wlog s).

Definition guarded s : Prop := erased s \/ fresh s.

Lemma ordered_snoc l op :
  ordered l -> Exists is_erase l \/ is_erase op \/ delay_write op -> ordered (l ++ [op]).
Proof.
  intros Hl Hop l1 op1 l2 E. destruct l2 as [|op2 l2 _] using rev_ind.
  - apply app_inj_tail in E as [-> ->]. done.
  - rewrite app_comm_cons, app_assoc in E. apply app_inj_tail in E as [-> _].
    by eapply Hl.
Qed.

Lemma ordered_delay l : Forall delay_write l -> ordered l.
Proof.
  intros Hl l1 op l2 ->. apply Forall_app in Hl as [_ Hl]. apply Forall_cons_1 in Hl as [? _].
  by right; right.
Qed.

Lemma erased_stable : stable erased.
Proof.
  split; unfold erased; try done.
  - intros s s' [] H. congruence.
  - intros l s H. unfold cout. by destruct (bl_type s =? NONE).
  - intros op f s [H Ho]. simpl. split; [apply Exists_app; by left|].
    apply ordered_snoc; auto.
Qed.

Lemma fresh_io : io_stable fresh.
Proof. intros s s' [] (? & ? & ?). unfold fresh. repeat split; congruence. Qed.

Lemma guarded_io : io_stable guarded.
Proof.
  intros s s' Hio [H|H]; [left; by eapply (st_io _ erased_stable)|right; by eapply fresh_io].
Qed.

Lemma fresh_cout l s : fresh s -> fresh (cout l s).
Proof. unfold cout. by destruct (bl_type s =? NONE). Qed.
Lemma fresh_read_word a : keeps fresh (read_word a).
Proof. intros s Hs. unfold read_word. by destruct (flash_read_word a (dev s)). Qed.
Lemma fresh_cout_word w : keeps fresh (cout_word w).
Proof. apply keeps_modify, fresh_cout. Qed.
Lemma fresh_flag f : keeps fresh (set_bl_flag f).
Proof. by apply keeps_modify. Qed.
Lemma fresh_vectors n : forall p, keeps fresh (cout_vectors n p).
Proof.
  induction n; intros p; simpl; walk; auto using fresh_read_word, fresh_cout.
Qed.
Lemma fresh_crc n : forall p sum, keeps fresh (crc_words bi n p sum).
Proof. induction n; intros p sum; simpl; walk; auto using fresh_read_word. Qed.
Hint Resolve fresh_cout fresh_read_word fresh_cout_word fresh_flag fresh_vectors fresh_crc
  fresh_io : bl.

Lemma fresh_delay_write v s : fresh s ->
  fresh (set_wlog (wlog s ++ [OpWrite (bl_state s) BOOT_DELAY_ADDRESS v])
           (set_dev (flash_write_word BOOT_DELAY_ADDRESS v (dev s)) s)).
Proof.
  intros (? & ? & Hl). do 2 (split; [done|]). simpl. apply Forall_app. by repeat constructor.
Qed.

(** An unfinished upload is not needed for BOOT: nothing is written. *)
Lemma fresh_boot : keeps fresh cmd_boot.
Proof.
  unfold cmd_boot. apply keeps_bind; [apply keeps_io; eauto with bl|intros _].
  intros s Hs. unfold bind at 1, gets. unfold bind at 1, gets. unfold bind at 1, need.
  pose proof Hs as (_ & Hf & _). rewrite Hf. simpl.
  assert (Hend : keeps fresh (modify sync_response ;;; modify (delay 100) ;;;
                             (fun s => Return s : res F unit))%bl); [|by apply Hend].
  walk; [by apply fresh_cout|]. eapply fresh_io; [apply io_ticks | done].
Qed.

(** With the cursor at the end, only an empty packet passes the bound. *)
Lemma fresh_prog_multi : keeps fresh (cmd_prog_multi bi).
Proof.
  unfold cmd_prog_multi. apply keeps_bind; [apply keeps_io; eauto with bl|intros arg].
  intros s Hs. pose proof Hs as (Ha & _). destruct Hbi as [Hfw _].
  unfold BOOT_DELAY_ADDRESS in Hfw.
  unfold bind at 1, need at 1. destruct (Z.leb_spec 0 arg); [|done].
  unfold bind at 1, need at 1. destruct (Z.eqb_spec (arg `mod` 4) 0); [|done].
  unfold bind at 1, gets. unfold bind at 1, need at 1. rewrite Ha.
  destruct (Z.leb_spec (u32 (fw_size bi + arg)) (fw_size bi)) as [Hle|]; [|done].
  unfold bind at 1, need at 1. destruct (Z.leb_spec arg 256); [|done].
  rewrite u32_small in Hle by (unfold is_u32; lia).
  assert (arg = 0) as -> by lia.
  assert (Hk : keeps fresh (ret tt ;;; expect_eoc 200 ;;; modify defer_first_word ;;;
    ret tt ;;; set_bl_flag STATE_PROTO_PROG_MULTI)%bl); [|by apply Hk].
  walk; auto with bl. unfold defer_first_word.
  match goal with Hf : fresh ?x |- _ => pose proof Hf as (Hax & _); rewrite Hax end.
  by destruct (Z.eqb_spec (fw_size bi) 0); [lia|].
Qed.

Lemma guarded_chip_erase : keeps guarded (cmd_chip_erase bi).
Proof.
  unfold cmd_chip_erase. apply keeps_bind; [apply keeps_io; eauto using guarded_io with bl|].
  intros _ s Hs. unfold bind at 1, gets. unfold bind at 1, need.
  destruct (_ =? STATE_ALLOWS_ERASE); [|done].
  unfold bind at 1, modify. unfold bind at 1. set (s1 := set_wlog _ _).
  assert (H1 : erased s1).
  { split; [apply Exists_app; right; by constructor|]. apply ordered_snoc; [|right; by left].
    destruct Hs as [[_ Hs]|(_ & _ & Hs)]; [done | by apply ordered_delay]. }
  pose proof erased_stable as HP.
  assert (Hk : keeps erased (modify (set_led_state LED_OFF) ;;; modify (set_address 0) ;;;
     verify_erase bi (fw_words bi) ;;; modify (set_address 0) ;;;
     set_bl_flag STATE_PROTO_CHIP_ERASE ;;; modify (set_led_state LED_BLINK))%bl).
  { walk; first [ by apply (stable_led_state _ HP) | by apply (st_address _ HP)
                | by apply stable_verify_erase | by apply stable_set_flag ]. }
  eapply (hoare_conseq erased erased _ (fun _ => guarded) (fun _ => erased) guarded erased);
    [exact Hk | done | by left | by left | exact H1].
Qed.

Lemma guarded_handler c h : handler bi sn mcu c = Some h -> keeps guarded h.
Proof.
  intros Hh. destruct (decide (c = PROTO_CHIP_ERASE)) as [->|Hc].
  { injection Hh as <-. apply guarded_chip_erase. }
  intros s [Hs|Hs].
  { pose proof (handler_keeps bi sn mcu _ erased_stable c h Hh s Hs) as H. unfold guarded.
    by destruct (h s); left. }
  assert (keeps fresh h) as Hk; [|specialize (Hk s Hs); unfold guarded; by destruct (h s); right].
  unfold handler in Hh. assert ((c =? PROTO_CHIP_ERASE) = false) as Hc' by lia.
  rewrite Hc' in Hh.
  repeat match type of Hh with
         | (if ?b then _ else _) = _ => destruct b
         end; simplify_eq; auto using fresh_boot, fresh_prog_multi, keeps_ret;
    unfold cmd_get_sync, cmd_get_device, cmd_get_crc,
      cmd_get_otp, cmd_get_sn, cmd_get_chip, cmd_get_chip_des, cmd_set_delay;
    walk; try (destruct a; walk); auto using fresh_delay_write with bl.
Qed.

Lemma guarded_cout l s : guarded s -> guarded (cout l s).
Proof. intros [H|H]; [left; by apply (st_cout _ erased_stable)|right; by apply fresh_cout]. Qed.

Lemma guarded_bl_step usb : keeps guarded (bl_step bi sn mcu usb).
Proof.
  intros s Hs. unfold bl_step. destruct (negb usb); [done|]. destruct (_ && _); [done|].
  pose proof (cin_wait_spec 0 s) as H. destruct (cin_wait 0 s) as [c s1|s1|s1|s1|s1]; try done.
  - destruct H as [Hio _]. assert (H1 : guarded s1) by (by eapply guarded_io).
    destruct (c <? 0); [done|]. unfold run_command.
    destruct (handler bi sn mcu c) as [h|] eqn:E; [|done].
    pose proof (guarded_handler c h E s1 H1) as H2.
    destruct (h s1) as [[] s2|s2|s2|s2|s2]; try done; try by apply (guarded_cout _ s2 H2).
    unfold accepted, sync_response. apply guarded_cout. simpl.
    by destruct (bl_type s2 =? NONE).
  - by apply (guarded_io s).
Qed.

Lemma guarded_loop fuel usb : forall s r, guarded s ->
  bl_loop bi sn mcu fuel usb s = Some r -> guarded (out_state r).
Proof.
  induction fuel as [|n IH]; intros s r Hs Hr; simpl in Hr; [done|].
  pose proof (guarded_bl_step usb s Hs) as H.
  destruct (bl_step bi sn mcu usb s); simplify_eq/=; eauto.
Qed.

(** An upload cannot skip the erase.  In every run of the bootloader,
    each word it writes comes after an erase of the chip was started in the
    same run, except the one word a SET_DELAY command rewrites.  (The cursor
    starts at the end of the area, where no packet fits, and only CHIP_ERASE
    moves it.) *)
Theorem no_programming_before_erase (fuel : nat) (t : Z) (usb : bool) (s : bl F) r l1 f a w l2 :
  wlog s = [] -> bootloader bi sn mcu fuel t usb s = Some r ->
  wlog (out_state r) = l1 ++ OpWrite f a w :: l2 ->
  a <> BOOT_DELAY_ADDRESS -> Exists is_erase l1.
Proof.
  intros Hlog Hr Hl Ha.
  assert (Hs : guarded (bl_start bi t s)).
  { right. unfold bl_start, set_led_state, fresh.
    destruct (t =? 0); simpl; rewrite Hlog; by repeat split. }
  assert (Ho : ordered (wlog (out_state r))).
  { destruct (guarded_loop _ _ _ _ Hs Hr) as [[_ ?]|(_ & _ & ?)];
      [done | by apply ordered_delay]. }
  by destruct (Ho _ _ _ Hl) as [?|[?|?]].
Qed.

(** ** After an erase that failed *)

Lemma verify_erase_fail n : forall s s',
  verify_erase bi n s = CmdFail s' -> address s' < fw_size bi.
Proof.
  induction n as [|n IH]; intros s s' Hr; simpl in Hr; [done|].
  unfold bind at 1, gets at 1 in Hr. destruct (Z.ltb_spec (address s) (fw_size bi)); [|done].
  unfold bind at 1, read_word in Hr. destruct (flash_read_word (address s) (dev s)) as [w f].
  unfold bind at 1, verify in Hr. destruct (w =? BLANK).
  - unfold bind, modify in Hr. by apply IH in Hr.
  - by injection Hr as <-.
Qed.

(** A failed erase still opens the area for programming.  When
    CHIP_ERASE is answered with FAILED because a word did not read back as
    blank, the cursor is left at that word, inside the area, so the bound
    check of PROG_MULTI lets a packet through although no erase succeeded. *)
Theorem failed_erase_moves_cursor s s' :
  inv bi s -> cmd_chip_erase bi s = CmdFail s' -> u32 (address s' + 4) <= fw_size bi.
Proof.
  intros Hs Hr. pose proof (inv_chip_erase bi sn Hbi s Hs) as Hi. cbn beta in Hi. rewrite Hr in Hi.
  destruct Hi as (_ & Ha & Ha4 & _). destruct Hbi as [Hfw Hfw4].
  enough (address s' < fw_size bi) by (rewrite u32_small; unfold is_u32; lia).
  unfold cmd_chip_erase in Hr. unfold bind at 1 in Hr.
  pose proof (hoare_expect_eoc 2 s s (reflexivity s)) as He.
  unfold expect_eoc, wait_for_eoc, bind in He, Hr.
  pose proof (cin_wait_spec 2 s) as Hc.
  destruct (cin_wait 2 s) as [c s1|s1|s1|s1|s1]; try done.
  unfold ret, need in Hr. destruct (c =? PROTO_EOC); [|done].
  unfold gets in Hr. destruct (_ =? STATE_ALLOWS_ERASE); [|done].
  unfold modify in Hr at 1 2 3 4.
  destruct (verify_erase bi (fw_words bi) _) as [[] s2|s2|s2|s2|s2] eqn:E; try done.
  injection Hr as <-. by eapply verify_erase_fail.
Qed.
End Fresh.

(** ** Witnesses *)

(** A flash whose delay signature is in place. *)
Definition signed_flash : FlashCache.state (M := toy) :=
  State fcl_reset fcl_reset
    (toy_put (APP_LOAD_ADDRESS + BOOT_DELAY_ADDRESS)
       [BOOT_DELAY_SIGNATURE1; BOOT_DELAY_SIGNATURE2] empty).

Definition delay_state : bl (FlashCache.state (M := toy)) :=
  set_dev signed_flash (demo_state ((fun b => Poll b (-1) 0) <$> [5; PROTO_EOC])).

(** The command ends normally, hence is answered with OK. *)
Lemma set_delay_not_persisted_witness :
  mem (dev (out_state (cmd_set_delay delay_state))) = mem signed_flash
  /\ (if cmd_set_delay delay_state is Ret _ _ then True else False).
Proof.
  split; [|vm_compute; exact I].
  apply (set_delay_not_persisted delay_state). vm_compute. discriminate.
Defined.

Lemma no_programming_before_erase_witness :
  match bootloader demo_board (fun _ => 0) 0 9 0 true (demo_state demo_polls) with
  | Some r => Exists is_erase (firstn 1 (wlog (out_state r)))
  | None => False
  end.
Proof.
  destruct (bootloader demo_board (fun _ => 0) 0 9 0 true (demo_state demo_polls)) as [r|] eqn:E.
  - assert (Hl : wlog (out_state r) = [OpErase 3] ++ OpWrite 7 0 BLANK :: [])
      by (vm_compute in E; injection E as <-; reflexivity).
    rewrite Hl.
    eapply (no_programming_before_erase (F := FlashCache.state (M := toy)) demo_board (fun _ => 0) 0
      ltac:(split; [split; [discriminate | reflexivity] | reflexivity])
      9 0 true (demo_state demo_polls) r [OpErase 3] 7 0 BLANK []);
      [reflexivity | exact E | exact Hl | discriminate].
  - vm_compute in E. discriminate.
Defined.

(** A flash that cannot be erased, holding words past the first block. *)
Definition stuck_state : bl (FlashCache.state (M := locked)) :=
  Bl NONE NONE STATE_ALLOWS_ERASE 448 BLANK 0 [0; 0; 0; 0] LED_OFF 0 (replicate 256 0)
     (State fcl_reset fcl_reset (Locked (toy_put APP_LOAD_ADDRESS (Z.of_nat <$> seq 1 40) empty)))
     [] [] [Poll PROTO_EOC (-1) 0].

Lemma failed_erase_moves_cursor_witness :
  match cmd_chip_erase demo_board stuck_state with
  | CmdFail s' => u32 (address s' + 4) <= 448
  | _ => False
  end.
Proof.
  destruct (cmd_chip_erase demo_board stuck_state) as [[] s'|s'|s'|s'|s'] eqn:E;
    try (vm_compute in E; discriminate).
  apply (failed_erase_moves_cursor (F := FlashCache.state (M := locked)) demo_board (fun _ => 0)
    ltac:(split; [split; [discriminate | reflexivity] | reflexivity]) stuck_state s'); [|exact E].
  split; [reflexivity|]. split; [split; discriminate|]. split; [reflexivity | constructor].
Defined.
