(* ===== verification/BootFlow.v ===== *)
(** From power-up to the application: the decisions of [bootloader_main]
    (stm32_common/main.c), [jump_to_app] (bl.c) with and without a table of
    contents, [find_toc] (image_toc.c) and [verify_app] (crypto.c). *)

From Stdlib Require Import ZArith Lia.
From stdpp Require Import base list numbers.
From S2P Require Import Prelude Crc FlashCache Bootloader BootloaderSafety.

Local Open Scope Z_scope.

(** * Memory *)

(** The byte at each address. *)
Definition memory : Type := Z -> Z.

Definition rd32 (m : memory) (a : Z) : Z := word_of_bytes (m a) (m (a + 1)) (m (a + 2)) (m (a + 3)).

Definition memcpy (target start n : Z) (m : memory) : memory := fun a =>
  if (target <=? a) && (a <? target + n) then m (a - target + start) else m a.

(** * The table of contents (image_toc.h, image_toc.c) *)

Definition MAX_TOC_ENTRIES : Z := 32.
Definition TOC_FLAG1_BOOT : Z := 0x1.
Definition TOC_FLAG1_VTORS : Z := 0x2.
Definition TOC_FLAG1_CHECK_SIGNATURE : Z := 0x4.
Definition TOC_FLAG1_DECRYPT : Z := 0x8.
Definition TOC_FLAG1_COPY : Z := 0x10.
Definition TOC_START_MAGIC : Z := 0x00434f54.
Definition TOC_END_MAGIC : Z := 0x00444e45.
Definition TOC_VERSION : Z := 1.

Record image_toc_entry := Entry {
  te_name : Z;
  te_start : Z;
  te_end : Z;
  te_target : Z;
  signature_idx : Z;
  signature_key : Z;
  encryption_key : Z;
  flags1 : Z
}.

(** Sizes of the packed structures. *)
Definition SIZEOF_START : Z := 8.
Definition SIZEOF_ENTRY : Z := 24.

Definition get_base_addr (e : image_toc_entry) : Z :=
  if ftst (flags1 e) TOC_FLAG1_DECRYPT || ftst (flags1 e) TOC_FLAG1_COPY
  then te_target e else te_start e.

Section Toc.
Context (BOARD_FLASH_SIZE : Z).

Definition FLASH_START_ADDRESS : Z := Z.ldiff APP_LOAD_ADDRESS (BOARD_FLASH_SIZE - 1).
Definition FLASH_END_ADDRESS : Z := FLASH_START_ADDRESS + BOARD_FLASH_SIZE.

Definition toc_start : Z := APP_LOAD_ADDRESS + BOOT_DELAY_ADDRESS + 8.
Definition entry_addr (i : Z) : Z := toc_start + SIZEOF_START + SIZEOF_ENTRY * i.

Definition entry (m : memory) (i : Z) : image_toc_entry :=
  let a := entry_addr i in
  Entry (rd32 m a) (rd32 m (a + 4)) (rd32 m (a + 8)) (rd32 m (a + 12))
    (m (a + 16)) (m (a + 17)) (m (a + 18)) (m (a + 19)).

(** The counting loop; [n] is what is left of MAX_TOC_ENTRIES. *)
Fixpoint count_entries (n : nat) (i : Z) (m : memory) : Z :=
  match n with
  | O => i
  | S n =>
      if (entry_addr i <=? FLASH_END_ADDRESS - 4)
         && negb (rd32 m (entry_addr i) =? TOC_END_MAGIC)
      then count_entries n (i + 1) m else i
  end.

(** [find_toc]: the number of entries, or nothing. *)
Definition find_toc (m : memory) : option Z :=
  if (rd32 m toc_start =? TOC_START_MAGIC) && (rd32 m (toc_start + 4) <=? TOC_VERSION) then
    let i := count_entries (Z.to_nat MAX_TOC_ENTRIES) 0 m in
    let e0 := entry m 0 in
    if (i <=? MAX_TOC_ENTRIES) && (0 <? i)
       && (te_start e0 =? APP_LOAD_ADDRESS)
       && (te_end e0 <=? FLASH_END_ADDRESS - 4)
       && (te_start e0 <? te_end e0) then
      let sig_idx := signature_idx e0 in
      let es := entry m sig_idx in
      if (0 <? sig_idx) && (sig_idx <? MAX_TOC_ENTRIES)
         && (te_end e0 <=? te_start es)
         && (te_end es <=? FLASH_END_ADDRESS)
         && (te_start es <? te_end es)
      then Some i else None
    else None
  else None.

(** * jump_to_app *)

(** Where the processor ends up. *)
Inductive boot := Stay | Jump (app_base vec_base : Z) (m : memory).

(** [crypto_signature_check] of the crypto backend: key, signature, start and
    length of the signed data. *)
Context (crypto_signature_check : memory -> Z -> Z -> Z -> Z -> bool).

Definition verify_app (m : memory) (idx : Z) : bool :=
  let e := entry m idx in
  crypto_signature_check m (signature_key e) (te_start (entry m (signature_idx e)))
    (te_start e) (u32 (te_end e - te_start e)).

(** "Not implemented yet." *)
Definition decrypt_app (m : memory) (idx : Z) : bool := false.

(** One iteration of the loop over the apps: [app_base], [vec_base], memory. *)
Definition toc_app (i : Z) (st : Z * Z * memory) : Z * Z * memory :=
  let '(app_base, vec_base, m) := st in
  let e := entry m i in
  if negb (i =? 0) && ftst (flags1 e) TOC_FLAG1_CHECK_SIGNATURE && negb (verify_app m i) then st
  else if ftst (flags1 e) TOC_FLAG1_DECRYPT && negb (decrypt_app m i) then st
  else
    let m := if ftst (flags1 e) TOC_FLAG1_COPY
             then memcpy (te_target e) (te_start e) (u32 (te_end e - te_start e)) m else m in
    let app_base := if ftst (flags1 e) TOC_FLAG1_BOOT then get_base_addr e else app_base in
    let vec_base := if ftst (flags1 e) TOC_FLAG1_VTORS then get_base_addr e else vec_base in
    (app_base, vec_base, m).

Fixpoint toc_apps (n : nat) (i : Z) (st : Z * Z * memory) : Z * Z * memory :=
  match n with
  | O => st
  | S n => toc_apps n (i + 1) (toc_app i st)
  end.

Definition jump_to_app_toc (m : memory) : boot :=
  if rd32 m APP_LOAD_ADDRESS =? BLANK then Stay
  else match find_toc m with
  | None => Stay
  | Some len =>
      if negb (verify_app m 0) then Stay
      else
        let '(app_base, vec_base, m) := toc_apps (Z.to_nat len) 0 (0, 0, m) in
        if app_base =? 0 then Stay
        else Jump app_base (if vec_base =? 0 then app_base else vec_base) m
  end.
End Toc.

(** Without a table of contents: a vector table whose first word has been
    sealed and whose entry point lies in the application. *)
Definition jump_to_app (fw_size : Z) (m : memory) : boot :=
  if rd32 m APP_LOAD_ADDRESS =? BLANK then Stay
  else if rd32 m (APP_LOAD_ADDRESS + 4) <? APP_LOAD_ADDRESS then Stay
  else if u32 (APP_LOAD_ADDRESS + fw_size) <=? rd32 m (APP_LOAD_ADDRESS + 4) then Stay
  else Jump APP_LOAD_ADDRESS APP_LOAD_ADDRESS m.

(** * Input tests of main.c *)

(** [board_test_force_pin], two pins strapped together: 10 cycles of 20 reads
    with the output high and 20 with it low; sample [k] of the input is [pin k]. *)
Definition pair_vote (pin : nat -> bool) (k : nat) : bool :=
  if decide (k mod 40 < 20)%nat then pin k else negb (pin k).

Definition vote_count (n : nat) (agrees : nat -> bool) : Z :=
  Z.of_nat (length (filter (fun k => agrees k = true) (seq 0 n))).

(** A single pin read 200 times against the active level. *)
Definition single_vote (pin : nat -> bool) (state : bool) (k : nat) : bool := eqb (pin k) state.

Definition board_test_force_pin (pair single : option (nat -> bool)) (state : bool) : bool :=
  match pair with
  | Some pin => vote_count 400 (pair_vote pin) * 100 >? 400 * 90
  | None => false
  end
  || match single with
     | Some pin => vote_count 200 (single_vote pin state) * 100 >? 200 * 90
     | None => false
     end.

(** [board_test_usart_receiving_break]: the RX level at every half bit, true
    when low; at most 60 samples, 18 consecutive low ones are a break. *)
Fixpoint receiving_break (n : nat) (low : list bool) (consecutive : Z) : bool :=
  match n, low with
  | S n, b :: low =>
      let consecutive := if b then u8 (consecutive + 1) else 0 in
      if 18 <=? consecutive then true else receiving_break n low consecutive
  | _, _ => false
  end.

Definition board_test_usart_receiving_break (low : list bool) : bool := receiving_break 60 low 0.

(** * bootloader_main *)

Definition BOOT_RTC_SIGNATURE : Z := 0xb007b007.
Definition POWER_DOWN_RTC_SIGNATURE : Z := 0xdeaddead.
Definition BOOTLOADER_DELAY : Z := 5000.
Definition USB0_DEV : Z := 0x01.
Definition SERIAL0_DEV : Z := 0x02.
Definition SERIAL1_DEV : Z := 0x04.
Definition BOOT_DEVICES_SELECTION : Z := Z.lor (Z.lor USB0_DEV SERIAL0_DEV) SERIAL1_DEV.
Definition BOOT_DEVICES_FILTER_ONUSB : Z := Z.lor (Z.lor USB0_DEV SERIAL0_DEV) SERIAL1_DEV.

Definition board_get_devices (usb_connected : bool) : Z :=
  if usb_connected then Z.land BOOT_DEVICES_SELECTION BOOT_DEVICES_FILTER_ONUSB
  else BOOT_DEVICES_SELECTION.

(** The decision taken before the bootloader runs: [try_boot] and the timeout. *)
Record decision := Decision { try_boot : bool; main_timeout : Z; main_rtc : Z }.

Definition decide_rtc (rtc : Z) : decision :=
  if rtc =? BOOT_RTC_SIGNATURE then Decision false 0 0
  else Decision true BOOTLOADER_DELAY rtc.

Definition decide_delay (sig1 sig2 : Z) (d : decision) : decision :=
  if (sig2 =? BOOT_DELAY_SIGNATURE2)
     && (Z.land sig1 0xFFFFFF00 =? Z.land BOOT_DELAY_SIGNATURE1 0xFFFFFF00) then
    let boot_delay := Z.land sig1 0xFF in
    if boot_delay <=? BOOT_DELAY_MAX then
      Decision false
        (if main_timeout d <? boot_delay * 1000 then boot_delay * 1000 else main_timeout d)
        (main_rtc d)
    else d
  else d.

Definition decide_pin (pressed : bool) (d : decision) : decision :=
  if pressed then Decision false (main_timeout d) (main_rtc d) else d.

Section Main.
Context {F : Type} `{!WordFlash F}.
Context (board_info : boardinfo) (flash_func_read_sn : Z -> Z) (mcu_idcode : Z).
(** The memory map: the flash, and what does not change. *)
Context (mem_of : F -> memory).
(** The strapped pins and the RX line, each time they are tested. *)
Context (force break_ : nat -> bool).

Inductive main_result :=
| PowerDown (rtc : Z)                   (* waits to die *)
| Boot (app_base vec_base : Z) (rtc : Z)
| Waiting (s : bl F) (rtc : Z)          (* in the bootloader, for more input *)
| OutOfFuel.

(** The loop at the end of [bootloader_main]; [k] counts its iterations. *)
Fixpoint main_loop (fuel blfuel : nat) (k : nat) (usb : bool) (timeout rtc : Z) (s : bl F) :
    main_result :=
  match fuel with
  | O => OutOfFuel
  | S fuel =>
      match bootloader board_info flash_func_read_sn mcu_idcode blfuel timeout usb s with
      | Some (Return s') =>
          if force k then main_loop fuel blfuel (S k) usb timeout rtc s'
          else if break_ k then main_loop fuel blfuel (S k) usb timeout rtc s'
          else match jump_to_app (fw_size board_info) (mem_of (dev s')) with
               | Jump app vec _ => Boot app vec rtc
               | Stay => main_loop fuel blfuel (S k) usb 0 rtc s'
               end
      | Some (Blocked s') => Waiting s' rtc
      | _ => OutOfFuel
      end
  end.

Definition bootloader_main (fuel blfuel : nat) (rtc : Z) (vbus : bool) (s : bl F) : main_result :=
  if rtc =? POWER_DOWN_RTC_SIGNATURE then PowerDown 0
  else
    let d := decide_rtc rtc in
    let '(sig1, f1) := flash_read_word BOOT_DELAY_ADDRESS (dev s) in
    let '(sig2, f2) := flash_read_word (BOOT_DELAY_ADDRESS + 4) f1 in
    let s := set_dev f2 s in
    let d := decide_delay sig1 sig2 d in
    let d := decide_pin (force 0) d in
    let d := decide_pin vbus d in
    let d := decide_pin (break_ 0) d in
    if try_boot d then
      match jump_to_app (fw_size board_info) (mem_of (dev s)) with
      | Jump app vec _ => Boot app vec (main_rtc d)
      | Stay => main_loop fuel blfuel 1 vbus 0 BOOT_RTC_SIGNATURE s
      end
    else main_loop fuel blfuel 1 vbus (main_timeout d) (main_rtc d) s.
End Main.

(** * Theorems *)

(** ** The break detector *)

Definition break_run (l : list bool) : Prop :=
  exists pre post, l = pre ++ replicate 18 true ++ post.

Lemma break_run_false c l : (c < 18)%nat ->
  break_run (replicate c true ++ false :: l) <-> break_run l.
Proof.
  intros Hc. split; intros (pre & post & E).
  - assert (Hl : (replicate c true ++ false :: l) !! c = Some false).
    { rewrite lookup_app_r by (rewrite length_replicate; lia).
      by rewrite length_replicate, Nat.sub_diag. }
    rewrite E in Hl. destruct (decide (length pre <= c)%nat) as [Hp|Hp].
    + rewrite lookup_app_r, lookup_app_l in Hl by (rewrite ?length_replicate; lia).
      apply lookup_replicate in Hl as [? _]. done.
    + exists (drop (S c) pre), post.
      assert (E2 : drop (S c) (replicate c true ++ false :: l) = l).
      { rewrite drop_app_ge by (rewrite length_replicate; lia). rewrite length_replicate.
        by replace (S c - c)%nat with 1%nat by lia. }
      rewrite <- E2, E, drop_app_le by lia. done.
  - exists (replicate c true ++ false :: pre), post. rewrite E.
    by rewrite <- app_assoc.
Qed.

Lemma receiving_break_run n : forall low c,
  (c < 18)%nat ->
  receiving_break n low (Z.of_nat c) = true <-> break_run (replicate c true ++ take n low).
Proof.
  assert (Hshort : forall c, (c < 18)%nat -> ~ break_run (replicate c true ++ [])).
  { intros c Hc (pre & post & E). apply (f_equal length) in E.
    rewrite !length_app, !length_replicate in E. simpl in E. lia. }
  induction n as [|n IH]; intros low c Hc; simpl.
  { split; [done|]. intros H. by apply Hshort in H. }
  destruct low as [|b low]; [split; [done|]; intros H; by apply Hshort in H|].
  destruct b; cbn [take].
  - unfold u8. rewrite Z.mod_small by lia.
    assert (E : replicate c true ++ true :: take n low = replicate (S c) true ++ take n low).
    { rewrite replicate_S_end, <- app_assoc. done. }
    rewrite E. destruct (Z.leb_spec 18 (Z.of_nat c + 1)) as [H|H].
    + split; [intros _|done]. assert (c = 17%nat) as -> by lia. by exists [], (take n low).
    + replace (Z.of_nat c + 1) with (Z.of_nat (S c)) by lia. apply IH. lia.
  - rewrite break_run_false by done. apply (IH low 0%nat). lia.
Qed.

(** The break detector answers true exactly when 18 consecutive samples
    among the first 60 are low. *)
Theorem break_detected (low : list bool) :
  board_test_usart_receiving_break low = true
  <-> exists pre post, take 60 low = pre ++ replicate 18 true ++ post.
Proof. apply (receiving_break_run 60 low 0). lia. Qed.

(** ** The table of contents *)

Section TocProofs.
Context (flash_size : Z).
Implicit Types (m : memory).

Lemma count_entries_spec n : forall i m,
  0 <= i ->
  let k := count_entries flash_size n i m in
  i <= k <= i + Z.of_nat n
  /\ (forall j, i <= j < k -> rd32 m (entry_addr j) <> TOC_END_MAGIC
                             /\ entry_addr j <= FLASH_END_ADDRESS flash_size - 4).
Proof.
  induction n as [|n IH]; intros i m Hi; cbn zeta; simpl; [split; [lia|]; intros; lia|].
  destruct (Z.leb_spec (entry_addr i) (FLASH_END_ADDRESS flash_size - 4)); simpl;
    [|split; [lia|]; intros; lia].
  destruct (Z.eqb_spec (rd32 m (entry_addr i)) TOC_END_MAGIC); simpl;
    [split; [lia|]; intros; lia|].
  destruct (IH (i + 1) m ltac:(lia)) as [? Hj]. split; [lia|].
  intros j Hj'. destruct (decide (j = i)) as [->|]; [done|]. apply Hj. lia.
Qed.

Lemma find_toc_sound_len m len : find_toc flash_size m = Some len -> 0 < len.
Proof.
  unfold find_toc. destruct (_ && _); [|done]. cbv zeta. set (k := count_entries _ _ _ _).
  repeat match goal with
         | |- context [?a && ?b] => destruct a eqn:?; cbn [andb]
         | |- context [if ?b then _ else _] => destruct b eqn:?
         end; try done.
  intros [= <-]. lia.
Qed.

(** A table of contents is only accepted when it is sane: between 1 and
    32 entries, none of them the end marker and all inside the flash; the
    first one is an application at the load address that ends inside the flash;
    and its signature is a non-empty range of the flash after the application. *)
Theorem find_toc_sound m len :
  find_toc flash_size m = Some len ->
  0 < len <= MAX_TOC_ENTRIES
  /\ (forall j, 0 <= j < len -> rd32 m (entry_addr j) <> TOC_END_MAGIC
                               /\ entry_addr j <= FLASH_END_ADDRESS flash_size - 4)
  /\ te_start (entry m 0) = APP_LOAD_ADDRESS
  /\ APP_LOAD_ADDRESS < te_end (entry m 0) <= FLASH_END_ADDRESS flash_size - 4
  /\ let es := entry m (signature_idx (entry m 0)) in
     te_end (entry m 0) <= te_start es < te_end es /\ te_end es <= FLASH_END_ADDRESS flash_size.
Proof.
  unfold find_toc. destruct (_ && _); [|done].
  pose proof (count_entries_spec (Z.to_nat MAX_TOC_ENTRIES) 0 m ltac:(lia)) as [Hk Hj].
  cbn zeta in Hk, Hj. set (k := count_entries _ _ _ _) in *.
  repeat match goal with
         | |- context [?a && ?b] => destruct a eqn:?; cbn [andb]
         | |- context [if ?b then _ else _] => destruct b eqn:?
         end; try done.
  intros [= <-]. cbn zeta. lia || (repeat split; try apply Hj; lia).
Qed.

Context (check : memory -> Z -> Z -> Z -> Z -> bool).

(** What makes entry [i] eligible when the memory is [m]. *)
Definition app_trusted m (i : Z) : Prop :=
  (i = 0 \/ ftst (flags1 (entry m i)) TOC_FLAG1_CHECK_SIGNATURE = false
   \/ verify_app check m i = true)
  /\ ftst (flags1 (entry m i)) TOC_FLAG1_DECRYPT = false.

(** An address taken from an eligible entry with flag [f], looked up while the
    apps were processed. *)
Definition from_entry m (n : Z) (f base : Z) : Prop :=
  exists i st mi, 0 <= i < n /\ toc_apps check (Z.to_nat i) 0 (0, 0, m) = (st, mi)
    /\ app_trusted mi i /\ ftst (flags1 (entry mi i)) f = true
    /\ base = get_base_addr (entry mi i).

Lemma toc_apps_snoc n : forall i st,
  toc_apps check (S n) i st = toc_app check (i + Z.of_nat n) (toc_apps check n i st).
Proof.
  induction n as [|n IH]; intros i st; [by rewrite Z.add_0_r|].
  change (toc_apps check (S (S n)) i st) with (toc_apps check (S n) (i + 1) (toc_app check i st)).
  rewrite IH. by replace (i + 1 + Z.of_nat n) with (i + Z.of_nat (S n)) by lia.
Qed.

Lemma from_entry_mono m n n' f base : n <= n' -> from_entry m n f base -> from_entry m n' f base.
Proof. intros Hn (i & st & mi & ? & ?). exists i, st, mi. split; [lia | done]. Qed.

Lemma toc_apps_from m n app vec m' :
  toc_apps check n 0 (0, 0, m) = (app, vec, m') ->
  (app = 0 \/ from_entry m (Z.of_nat n) TOC_FLAG1_BOOT app)
  /\ (vec = 0 \/ from_entry m (Z.of_nat n) TOC_FLAG1_VTORS vec).
Proof.
  revert app vec m'. induction n as [|n IH]; intros app vec m' Hr.
  { injection Hr as <- <- <-. by split; left. }
  rewrite toc_apps_snoc in Hr. destruct (toc_apps check n 0 (0, 0, m)) as [[a0 v0] m0] eqn:E.
  destruct (IH _ _ _ eq_refl) as [Ha Hv].
  assert (Hmono : forall f b, from_entry m (Z.of_nat n) f b -> from_entry m (Z.of_nat (S n)) f b)
    by (intros f b; apply from_entry_mono; lia).
  rewrite Z.add_0_l in Hr. unfold toc_app, decrypt_app in Hr. cbv zeta in Hr.
  set (e := entry m0 (Z.of_nat n)) in *. cbn [negb] in Hr. rewrite andb_true_r in Hr.
  destruct (negb (Z.of_nat n =? 0) && ftst (flags1 e) TOC_FLAG1_CHECK_SIGNATURE
            && negb (verify_app check m0 (Z.of_nat n))) eqn:Hsig;
    [injection Hr as <- <- <-; split; [destruct Ha | destruct Hv]; auto|].
  destruct (ftst (flags1 e) TOC_FLAG1_DECRYPT) eqn:Hdec;
    [injection Hr as <- <- <-; split; [destruct Ha | destruct Hv]; auto|].
  assert (Ht : app_trusted m0 (Z.of_nat n)).
  { split; [|done]. destruct (Z.eqb_spec (Z.of_nat n) 0); [by left|]. right. cbn [negb andb] in Hsig.
    fold e. destruct (ftst (flags1 e) TOC_FLAG1_CHECK_SIGNATURE); [|by left]. right.
    by apply negb_false_iff in Hsig. }
  assert (Hhere : forall f, ftst (flags1 (entry m0 (Z.of_nat n))) f = true ->
            from_entry m (Z.of_nat (S n)) f (get_base_addr (entry m0 (Z.of_nat n)))).
  { intros f Hf. exists (Z.of_nat n), (a0, v0), m0. rewrite Nat2Z.id. split; [lia|]. done. }
  pose proof (f_equal (fun r => r.1.1) Hr) as Happ. pose proof (f_equal (fun r => r.1.2) Hr) as Hvec.
  cbn [fst snd] in Happ, Hvec. rewrite <- Happ, <- Hvec. fold e in Hhere. split.
  - destruct (ftst (flags1 e) TOC_FLAG1_BOOT) eqn:Hb; [right; by apply Hhere | destruct Ha; auto].
  - destruct (ftst (flags1 e) TOC_FLAG1_VTORS) eqn:Hb; [right; by apply Hhere | destruct Hv; auto].
Qed.

(** C36: secure boot.  With a table of contents the bootloader only ever jumps
    when the table is sane and the signature of its first application, which
    covers the table, verifies; and both the address it jumps to and the vector
    table come from entries carrying the boot (vectors) flag, not marked for
    decryption, whose own signature verifies whenever it is required.  The
    vector table may also be the application itself. *)
Theorem secure_boot m app vec m' :
  jump_to_app_toc flash_size check m = Jump app vec m' ->
  exists len, find_toc flash_size m = Some len /\ verify_app check m 0 = true
    /\ from_entry m len TOC_FLAG1_BOOT app
    /\ (vec = app \/ from_entry m len TOC_FLAG1_VTORS vec).
Proof.
  unfold jump_to_app_toc. destruct (rd32 m APP_LOAD_ADDRESS =? BLANK); [done|].
  destruct (find_toc flash_size m) as [len|] eqn:Htoc; [|done].
  destruct (verify_app check m 0) eqn:Hv; [|done]. simpl.
  destruct (toc_apps check (Z.to_nat len) 0 (0, 0, m)) as [[a v] m1] eqn:E.
  destruct (Z.eqb_spec a 0) as [|Ha]; [done|]. intros [= <- <- <-].
  pose proof (find_toc_sound_len _ _ Htoc) as Hlen.
  destruct (toc_apps_from _ _ _ _ _ E) as [Hb Hvec]. rewrite Z2Nat.id in Hb, Hvec by lia.
  exists len. split; [done|]. split; [done|]. split; [by destruct Hb|].
  destruct (Z.eqb_spec v 0); [by left|]. right. by destruct Hvec.
Qed.
End TocProofs.

(** ** bootloader_main *)

Section MainProofs.
Context {F : Type} `{!WordFlash F}.
Context (bi : boardinfo) (sn : Z -> Z) (mcu : Z) (mem_of : F -> memory).
Implicit Types (s : bl F).

Abbreviation never := (fun _ : nat => false).

Lemma bl_start_dev t s : dev (bl_start bi t s) = dev s.
Proof. unfold bl_start. by destruct (t =? 0). Qed.

Lemma bootloader_no_usb n t s :
  bootloader bi sn mcu (S n) t false s = Some (Return (bl_start bi t s)).
Proof. done. Qed.

(** With USB the loop asks for input before anything else. *)
Lemma bootloader_waits n t s : length (timer s) = 4%nat -> env s = [] ->
  exists s', bootloader bi sn mcu (S n) t true s = Some (Blocked s').
Proof.
  intros Hl He. unfold bootloader. cbn [bl_loop]. unfold bl_step. cbn [negb].
  assert (Ht : negb (timeout (bl_start bi t s) =? 0)
               && (aget (timer (bl_start bi t s)) TIMER_BL_WAIT =? 0) = false).
  { unfold bl_start. destruct (Z.eqb_spec t 0) as [->|Ht]; [done|]. simpl.
    rewrite aget_aset_ne, aget_aset_eq by (rewrite ?Hl; done).
    by destruct (Z.eqb_spec t 0). }
  rewrite Ht. unfold cin_wait.
  assert (env (bl_start bi t s) = []) as -> by (unfold bl_start; by destruct (t =? 0)).
  by eexists.
Qed.

(** The device after the delay signature has been read. *)
Definition delay_read (f : F) : F :=
  (flash_read_word (BOOT_DELAY_ADDRESS + 4) (flash_read_word BOOT_DELAY_ADDRESS f).2).2.

(** On this board the USB cable alone decides whether the bootloader
    stays.  Without it, an application that looks valid is started at once:
    the force-bootloader signature in the RTC register and the boot delay
    stored in the flash change nothing, and no byte from the UART is ever read.
    With it, the bootloader always asks for input first. *)
Theorem usb_decides_boot (fuel n : nat) (rtc : Z) s app vec m :
  rtc <> POWER_DOWN_RTC_SIGNATURE -> length (timer s) = 4%nat ->
  jump_to_app (fw_size bi) (mem_of (delay_read (dev s))) = Jump app vec m ->
  (exists rtc', bootloader_main bi sn mcu mem_of never never (S fuel) (S n) rtc false s
                = Boot app vec rtc')
  /\ (env s = [] -> exists s' rtc',
        bootloader_main bi sn mcu mem_of never never (S fuel) (S n) rtc true s = Waiting s' rtc').
Proof.
  intros Hr Hl Hj. unfold bootloader_main. destruct (Z.eqb_spec rtc POWER_DOWN_RTC_SIGNATURE);
    [done|]. unfold delay_read in Hj.
  destruct (flash_read_word BOOT_DELAY_ADDRESS (dev s)) as [sig1 f1].
  simpl snd in Hj. destruct (flash_read_word (BOOT_DELAY_ADDRESS + 4) f1) as [sig2 f2].
  cbn [snd] in Hj. unfold decide_pin at 1 3 4 6. split.
  - unfold decide_pin. destruct (try_boot _).
    + cbn [dev set_dev]. rewrite Hj. by eexists.
    + cbn [main_loop]. rewrite bootloader_no_usb. rewrite bl_start_dev. cbn [dev set_dev].
      rewrite Hj. by eexists.
  - intros He. unfold decide_pin. cbn [try_boot main_loop].
    edestruct (bootloader_waits n) as [s' ->]; [| |by eexists _, _]; done.
Qed.
End MainProofs.

(** ** Witnesses *)

(** A memory given by its words. *)
Definition mem_of_words (l : list (Z * Z)) : memory := fun a =>
  match list_find (fun p => p.1 = 4 * (a / 4)) l with
  | Some (_, (_, w)) => (w / 256 ^ (a mod 4)) mod 256
  | None => 255
  end.

Definition FLASH_2M : Z := 2097152.

(** The words of an entry from address [a]. *)
Definition entry_words (a start_ end_ idx flags : Z) : list (Z * Z) :=
  [(a, 0x41); (a + 4, start_); (a + 8, end_); (a + 12, 0);
   (a + 16, idx + 16777216 * flags); (a + 20, 0)].

Definition toc_words (idx : Z) : list (Z * Z) :=
  [(APP_LOAD_ADDRESS, 0x20000400); (toc_start, TOC_START_MAGIC); (toc_start + 4, 1)]
  ++ entry_words (entry_addr 0) APP_LOAD_ADDRESS (APP_LOAD_ADDRESS + 4096) idx 0x7.

(** One application and its signature. *)
Definition good_toc : memory := mem_of_words
  (toc_words 1
   ++ entry_words (entry_addr 1) (APP_LOAD_ADDRESS + 4096) (APP_LOAD_ADDRESS + 4160) 0 0
   ++ [(entry_addr 2, TOC_END_MAGIC)]).

(** One application whose signature index points past the end of the table. *)
Definition stray_toc : memory := mem_of_words
  (toc_words 5 ++ [(entry_addr 1, TOC_END_MAGIC)]
   ++ entry_words (entry_addr 5) (APP_LOAD_ADDRESS + 4096) (APP_LOAD_ADDRESS + 4160) 0 0).

(** A backend that accepts key 0. *)
Definition key0 : memory -> Z -> Z -> Z -> Z -> bool := fun _ key _ _ _ => key =? 0.

Lemma find_toc_sound_witness :
  find_toc FLASH_2M good_toc = Some 2 /\ te_start (entry good_toc 0) = APP_LOAD_ADDRESS.
Proof.
  assert (H : find_toc FLASH_2M good_toc = Some 2) by (vm_compute; reflexivity).
  split; [exact H|]. exact (proj1 (proj2 (proj2 (find_toc_sound FLASH_2M good_toc 2 H)))).
Defined.

Lemma secure_boot_witness :
  match jump_to_app_toc FLASH_2M key0 good_toc with
  | Jump app _ _ => app = APP_LOAD_ADDRESS
      /\ exists len, find_toc FLASH_2M good_toc = Some len /\ verify_app key0 good_toc 0 = true
  | Stay => False
  end.
Proof.
  destruct (jump_to_app_toc FLASH_2M key0 good_toc) as [|app vec m'] eqn:E;
    [vm_compute in E; discriminate|].
  split; [vm_compute in E; injection E as <- _ _; reflexivity|].
  destruct (secure_boot FLASH_2M key0 good_toc app vec m' E) as (len & H1 & H2 & _).
  exists len. split; assumption.
Defined.

(** The index of the first application's signature is compared with the
    maximum size of a table and not with the number of its entries: a table is
    accepted whose signature entry lies after the end marker. *)
Theorem toc_signature_outside_table :
  exists m len, find_toc FLASH_2M m = Some len /\ len <= signature_idx (entry m 0).
Proof. exists stray_toc, 1. split; [vm_compute; reflexivity | by vm_compute]. Qed.

(** The demo flash seen through the memory map, with a valid reset vector. *)
Definition demo_memory (f : FlashCache.state (M := toy)) : memory := mem_of_words
  [(APP_LOAD_ADDRESS, 0x20000400); (APP_LOAD_ADDRESS + 4, APP_LOAD_ADDRESS + 101)].

Lemma usb_decides_boot_witness :
  (exists rtc', bootloader_main demo_board (fun _ => 0) 0 demo_memory (fun _ => false)
     (fun _ => false) 1 1 BOOT_RTC_SIGNATURE false (demo_state [])
     = Boot APP_LOAD_ADDRESS APP_LOAD_ADDRESS rtc').
Proof.
  refine (proj1 (usb_decides_boot demo_board (fun _ => 0) 0 demo_memory 0 0 BOOT_RTC_SIGNATURE
    (demo_state []) APP_LOAD_ADDRESS APP_LOAD_ADDRESS _ _ _ _));
    [discriminate | reflexivity | vm_compute; reflexivity].
Defined.
