(* ===== verification/Px4io.v ===== *)
(** The PX4IO co-processor firmware (src/src/modules/px4iofirmware): its
    register pages, the state shared by its modules, and the atomic register
    updates.

    A register page is a list of 16-bit words; the pages are found by name.
    What the firmware does to the hardware and to the libraries it calls is
    recorded in [fx], oldest first.  Debug messages are not modelled. *)

From Stdlib Require Import ZArith Lia.
From stdpp Require Import base list numbers.
From S2P Require Import Prelude.

Local Open Scope Z_scope.

(** * protocol.h and px4io.h *)

Definition PX4IO_SERVO_COUNT : Z := 8.
Definition PX4IO_CONTROL_CHANNELS : Z := 8.
Definition PX4IO_CONTROL_GROUPS : Z := 4.
Definition PX4IO_RC_INPUT_CHANNELS : Z := 18.
Definition PX4IO_RC_MAPPED_CONTROL_CHANNELS : Z := 8.
Definition PX4IO_PROTOCOL_VERSION : Z := 4.
Definition PX4IO_BL_VERSION : Z := 3.
Definition PX4IO_MAX_TRANSFER_LEN : Z := 64.
Definition PX4IO_ADC_CHANNEL_COUNT : Z := 2.
Definition PX4IO_RELAY_CHANNELS : Z := 0.

Definition PX4IO_PAGE_CONFIG : Z := 0.
Definition PX4IO_PAGE_STATUS : Z := 1.
Definition PX4IO_PAGE_ACTUATORS : Z := 2.
Definition PX4IO_PAGE_SERVOS : Z := 3.
Definition PX4IO_PAGE_RAW_RC_INPUT : Z := 4.
Definition PX4IO_PAGE_RC_INPUT : Z := 5.
Definition PX4IO_PAGE_RAW_ADC_INPUT : Z := 6.
Definition PX4IO_PAGE_PWM_INFO : Z := 7.
Definition PX4IO_PAGE_SETUP : Z := 50.
Definition PX4IO_PAGE_CONTROLS : Z := 51.
Definition PX4IO_PAGE_MIXERLOAD : Z := 52.
Definition PX4IO_PAGE_RC_CONFIG : Z := 53.
Definition PX4IO_PAGE_DIRECT_PWM : Z := 54.
Definition PX4IO_PAGE_FAILSAFE_PWM : Z := 55.
Definition PX4IO_PAGE_CONTROL_MIN_PWM : Z := 106.
Definition PX4IO_PAGE_CONTROL_MAX_PWM : Z := 107.
Definition PX4IO_PAGE_CONTROL_TRIM_PWM : Z := 108.
Definition PX4IO_PAGE_DISARMED_PWM : Z := 109.
Definition PX4IO_PAGE_TEST : Z := 127.

Definition PX4IO_P_STATUS_FREEMEM : Z := 0.
Definition PX4IO_P_STATUS_FLAGS : Z := 2.
Definition FLAGS_OUTPUTS_ARMED : Z := 0x1.
Definition FLAGS_OVERRIDE : Z := 0x2.
Definition FLAGS_RC_OK : Z := 0x4.
Definition FLAGS_RC_PPM : Z := 0x8.
Definition FLAGS_RC_DSM : Z := 0x10.
Definition FLAGS_RC_SBUS : Z := 0x20.
Definition FLAGS_FMU_OK : Z := 0x40.
Definition FLAGS_RAW_PWM : Z := 0x80.
Definition FLAGS_MIXER_OK : Z := 0x100.
Definition FLAGS_ARM_SYNC : Z := 0x200.
Definition FLAGS_INIT_OK : Z := 0x400.
Definition FLAGS_FAILSAFE : Z := 0x800.
Definition FLAGS_SAFETY_OFF : Z := 0x1000.
Definition FLAGS_FMU_INITIALIZED : Z := 0x2000.
Definition FLAGS_RC_ST24 : Z := 0x4000.
Definition FLAGS_RC_SUMD : Z := 0x8000.
Definition PX4IO_P_STATUS_ALARMS : Z := 3.
Definition ALARMS_FMU_LOST : Z := 0x10.
Definition ALARMS_RC_LOST : Z := 0x20.
Definition ALARMS_PWM_ERROR : Z := 0x40.
Definition PX4IO_P_STATUS_VSERVO : Z := 6.
Definition PX4IO_P_STATUS_VRSSI : Z := 7.
Definition PX4IO_P_STATUS_MIXER : Z := 9.

Definition PX4IO_P_RAW_RC_COUNT : Z := 0.
Definition PX4IO_P_RAW_RC_FLAGS : Z := 1.
Definition RAW_RC_FRAME_DROP : Z := 0x1.
Definition RAW_RC_FAILSAFE : Z := 0x2.
Definition RAW_RC_DSM11 : Z := 0x4.
Definition RAW_RC_MAPPING_OK : Z := 0x8.
Definition RAW_RC_RC_OK : Z := 0x10.
Definition PX4IO_P_RAW_RC_NRSSI : Z := 2.
Definition PX4IO_P_RAW_RC_DATA : Z := 3.
Definition PX4IO_P_RAW_RC_BASE : Z := 6.
Definition PX4IO_P_RC_VALID : Z := 0.
Definition PX4IO_P_RC_BASE : Z := 1.

Definition PX4IO_P_SETUP_FEATURES : Z := 0.
Definition FEATURES_SBUS1_OUT : Z := 0x1.
Definition FEATURES_SBUS2_OUT : Z := 0x2.
Definition FEATURES_PWM_RSSI : Z := 0x4.
Definition FEATURES_ADC_RSSI : Z := 0x8.
Definition PX4IO_P_SETUP_ARMING : Z := 1.
Definition ARMING_IO_ARM_OK : Z := 0x1.
Definition ARMING_FMU_ARMED : Z := 0x2.
Definition ARMING_FMU_PREARMED : Z := 0x4.
Definition ARMING_MANUAL_OVERRIDE_OK : Z := 0x8.
Definition ARMING_FAILSAFE_CUSTOM : Z := 0x10.
Definition ARMING_INAIR_RESTART_OK : Z := 0x20.
Definition ARMING_ALWAYS_PWM_ENABLE : Z := 0x40.
Definition ARMING_RC_HANDLING_DISABLED : Z := 0x80.
Definition ARMING_LOCKDOWN : Z := 0x100.
Definition ARMING_FORCE_FAILSAFE : Z := 0x200.
Definition ARMING_TERMINATION_FAILSAFE : Z := 0x400.
Definition ARMING_OVERRIDE_IMMEDIATE : Z := 0x800.
Definition PX4IO_P_SETUP_PWM_RATES : Z := 2.
Definition PX4IO_P_SETUP_PWM_DEFAULTRATE : Z := 3.
Definition PX4IO_P_SETUP_PWM_ALTRATE : Z := 4.
Definition PX4IO_P_SETUP_VSERVO_SCALE : Z := 6.
Definition PX4IO_P_SETUP_DSM : Z := 7.
Definition PX4IO_P_SETUP_SET_DEBUG : Z := 9.
Definition PX4IO_P_SETUP_REBOOT_BL : Z := 10.
Definition PX4IO_REBOOT_BL_MAGIC : Z := 14662.
Definition PX4IO_P_SETUP_CRC : Z := 11.
Definition PX4IO_P_SETUP_FORCE_SAFETY_OFF : Z := 12.
Definition PX4IO_P_SETUP_RC_THR_FAILSAFE_US : Z := 13.
Definition PX4IO_P_SETUP_FORCE_SAFETY_ON : Z := 14.
Definition PX4IO_FORCE_SAFETY_MAGIC : Z := 22027.
Definition PX4IO_P_SETUP_PWM_REVERSE : Z := 15.
Definition PX4IO_P_SETUP_TRIM_ROLL : Z := 16.
Definition PX4IO_P_SETUP_TRIM_PITCH : Z := 17.
Definition PX4IO_P_SETUP_TRIM_YAW : Z := 18.
Definition PX4IO_P_SETUP_SCALE_ROLL : Z := 19.
Definition PX4IO_P_SETUP_SCALE_PITCH : Z := 20.
Definition PX4IO_P_SETUP_SCALE_YAW : Z := 21.
Definition PX4IO_P_SETUP_SBUS_RATE : Z := 22.
Definition PX4IO_P_SETUP_MOTOR_SLEW_MAX : Z := 24.
Definition PX4IO_P_SETUP_THR_MDL_FAC : Z := 25.
Definition PX4IO_P_SETUP_THERMAL : Z := 26.
Definition PX4IO_P_SETUP_AIRMODE : Z := 27.
Definition PX4IO_P_SETUP_ENABLE_FLIGHTTERMINATION : Z := 28.
Definition PX4IO_THERMAL_IGNORE : Z := 65535.
Definition PX4IO_THERMAL_FULL : Z := 10000.

Definition PX4IO_P_RC_CONFIG_MIN : Z := 0.
Definition PX4IO_P_RC_CONFIG_CENTER : Z := 1.
Definition PX4IO_P_RC_CONFIG_MAX : Z := 2.
Definition PX4IO_P_RC_CONFIG_DEADZONE : Z := 3.
Definition PX4IO_P_RC_CONFIG_ASSIGNMENT : Z := 4.
Definition PX4IO_P_RC_CONFIG_ASSIGNMENT_MODESWITCH : Z := 100.
Definition PX4IO_P_RC_CONFIG_OPTIONS : Z := 5.
Definition OPTIONS_ENABLED : Z := 0x1.
Definition OPTIONS_REVERSE : Z := 0x2.
Definition PX4IO_P_RC_CONFIG_STRIDE : Z := 6.

(** * Register pages *)

Inductive pg :=
| CONFIG | STATUS | ACTUATORS | SERVOS | RAW_RC | RC_INPUT | SCRATCH | DIRECT_PWM
| SETUP | CONTROLS | RC_CONFIG | FAILSAFE | CMIN | CMAX | CTRIM | DISARMED.
#[export] Instance pg_eq_dec : EqDecision pg.
Proof. solve_decision. Defined.

(** The lengths of the arrays. *)
Definition page_size (p : pg) : nat :=
  match p with
  | CONFIG => 9
  | STATUS => 10
  | RAW_RC => 25
  | RC_INPUT => 10
  | SCRATCH | CONTROLS => 32
  | SETUP => 29
  | RC_CONFIG => 108
  | ACTUATORS | SERVOS | DIRECT_PWM | FAILSAFE | CMIN | CMAX | CTRIM | DISARMED => 8
  end.

(** Their initial contents (registers.c). *)
Definition page_init (p : pg) : list Z :=
  match p with
  | CONFIG => [PX4IO_PROTOCOL_VERSION; 2; PX4IO_BL_VERSION; PX4IO_MAX_TRANSFER_LEN;
               PX4IO_CONTROL_CHANNELS; PX4IO_SERVO_COUNT; PX4IO_RC_INPUT_CHANNELS;
               PX4IO_ADC_CHANNEL_COUNT; PX4IO_RELAY_CHANNELS]
  | SETUP => [FEATURES_ADC_RSSI; ARMING_OVERRIDE_IMMEDIATE; 0; 50; 200; 0; 10000; 0; 0; 0;
              0; 0; 0; 0; 0; 0; 0; 0; 0; 10000; 10000; 10000; 72; 0; 0; 0;
              PX4IO_THERMAL_IGNORE; 0; 0]
  | CMIN => replicate 8 1000
  | CMAX => replicate 8 2000
  | p => replicate (page_size p) 0
  end.

(** * State *)

(** Calls that leave the firmware. *)
Inductive effect :=
| FxPwmUpdate                           (* up_pwm_update *)
| FxSbusOut (on : bool)                 (* ENABLE_SBUS_OUT *)
| FxDsmBind (cmd pulses : Z)            (* dsm_bind *)
| FxSbusRate (hz : Z)                   (* sbus1_set_output_rate_hz *)
| FxRate (group rate : Z)               (* up_pwm_servo_set_rate_group_update *)
| FxAmber (on : bool)
| FxBlue (on : bool)
| FxSafetyLed (on : bool)
| FxRing (on : bool)
| FxServoArm (on : bool)                (* up_pwm_servo_arm *)
| FxServo (i v : Z)                     (* up_pwm_servo_set *)
| FxSbus1 (values : list Z)             (* sbus1_output *)
| FxSbus2 (values : list Z)             (* sbus2_output *)
| FxReset.                              (* up_systemreset *)

(** The mixer text buffer (mixer.cpp). *)
Record mixtext := Mixtext {
  mixer_text : list Z;
  mixer_text_length : Z;
  mixer_reset_pending : bool;
  mixer_update_pending : bool;
  mix_failsafe : bool
}.

Record io := Io {
  pages : pg -> list Z;
  fmu_data_received_time : Z;
  rc_received_time : Z;
  rc_valid_time : Z;
  reboot_time : Z;
  update_trims : bool;
  update_mc_thrust_param : bool;
  last_page : Z;
  last_offset : Z;
  mixer : mixtext;
  fx : list effect
}.

Definition set_pages (v : pg -> list Z) (s : io) : io :=
  Io v (fmu_data_received_time s) (rc_received_time s) (rc_valid_time s) (reboot_time s)
     (update_trims s) (update_mc_thrust_param s) (last_page s) (last_offset s) (mixer s) (fx s).
Definition set_fmu_time (v : Z) (s : io) : io :=
  Io (pages s) v (rc_received_time s) (rc_valid_time s) (reboot_time s)
     (update_trims s) (update_mc_thrust_param s) (last_page s) (last_offset s) (mixer s) (fx s).
Definition set_rc_times (v : Z) (s : io) : io :=
  Io (pages s) (fmu_data_received_time s) v v (reboot_time s)
     (update_trims s) (update_mc_thrust_param s) (last_page s) (last_offset s) (mixer s) (fx s).
Definition set_reboot_time (v : Z) (s : io) : io :=
  Io (pages s) (fmu_data_received_time s) (rc_received_time s) (rc_valid_time s) v
     (update_trims s) (update_mc_thrust_param s) (last_page s) (last_offset s) (mixer s) (fx s).
Definition set_update_trims (v : bool) (s : io) : io :=
  Io (pages s) (fmu_data_received_time s) (rc_received_time s) (rc_valid_time s)
     (reboot_time s) v (update_mc_thrust_param s) (last_page s) (last_offset s) (mixer s) (fx s).
Definition set_update_thrust (v : bool) (s : io) : io :=
  Io (pages s) (fmu_data_received_time s) (rc_received_time s) (rc_valid_time s)
     (reboot_time s) (update_trims s) v (last_page s) (last_offset s) (mixer s) (fx s).
Definition set_last (p o : Z) (s : io) : io :=
  Io (pages s) (fmu_data_received_time s) (rc_received_time s) (rc_valid_time s)
     (reboot_time s) (update_trims s) (update_mc_thrust_param s) p o (mixer s) (fx s).
Definition set_mixer (v : mixtext) (s : io) : io :=
  Io (pages s) (fmu_data_received_time s) (rc_received_time s) (rc_valid_time s)
     (reboot_time s) (update_trims s) (update_mc_thrust_param s) (last_page s)
     (last_offset s) v (fx s).
Definition emit (e : effect) (s : io) : io :=
  Io (pages s) (fmu_data_received_time s) (rc_received_time s) (rc_valid_time s)
     (reboot_time s) (update_trims s) (update_mc_thrust_param s) (last_page s)
     (last_offset s) (mixer s) (fx s ++ [e]).

Definition rget (p : pg) (i : Z) (s : io) : Z := aget (pages s p) i.
Definition rset (p : pg) (i v : Z) (s : io) : io :=
  set_pages (fun q => if decide (q = p) then aset (pages s p) i v else pages s q) s.
(** [memset] of a page. *)
Definition rzero (p : pg) (s : io) : io :=
  set_pages (fun q => if decide (q = p) then replicate (page_size p) 0 else pages s q) s.
(** A whole page replaced. *)
Definition pset (p : pg) (v : list Z) (s : io) : io :=
  set_pages (fun q => if decide (q = p) then v else pages s q) s.

(** The register aliases of px4io.h. *)
Definition r_status_flags (s : io) : Z := rget STATUS PX4IO_P_STATUS_FLAGS s.
Definition r_status_alarms (s : io) : Z := rget STATUS PX4IO_P_STATUS_ALARMS s.
Definition r_raw_rc_count (s : io) : Z := rget RAW_RC PX4IO_P_RAW_RC_COUNT s.
Definition r_raw_rc_flags (s : io) : Z := rget RAW_RC PX4IO_P_RAW_RC_FLAGS s.
Definition r_setup_features (s : io) : Z := rget SETUP PX4IO_P_SETUP_FEATURES s.
Definition r_setup_arming (s : io) : Z := rget SETUP PX4IO_P_SETUP_ARMING s.
Definition r_setup_pwm_rates (s : io) : Z := rget SETUP PX4IO_P_SETUP_PWM_RATES s.
Definition r_setup_pwm_defaultrate (s : io) : Z := rget SETUP PX4IO_P_SETUP_PWM_DEFAULTRATE s.
Definition r_setup_pwm_altrate (s : io) : Z := rget SETUP PX4IO_P_SETUP_PWM_ALTRATE s.

(** px4io.c: the register updates shared with interrupt handlers. *)
Definition atomic_modify_or (p : pg) (i m : Z) (s : io) : io :=
  if Z.lor (rget p i s) m =? rget p i s then s else rset p i (fset (rget p i s) m) s.
Definition atomic_modify_clear (p : pg) (i m : Z) (s : io) : io :=
  if Z.ldiff (rget p i s) m =? rget p i s then s else rset p i (fclr (rget p i s) m) s.
Definition atomic_modify_and (p : pg) (i m : Z) (s : io) : io :=
  if Z.land (rget p i s) m =? rget p i s then s else rset p i (Z.land (rget p i s) m) s.

(** Plain read-modify-write of a register. *)
Definition reg_or (p : pg) (i m : Z) (s : io) : io := rset p i (fset (rget p i s) m) s.
Definition reg_clear (p : pg) (i m : Z) (s : io) : io := rset p i (fclr (rget p i s) m) s.

Definition status_is (m : Z) (s : io) : bool := ftst (r_status_flags s) m.
Definition arming_is (m : Z) (s : io) : bool := ftst (r_setup_arming s) m.

(** px4io.c: [schedule_reboot] and [check_reboot]; the clock is an argument. *)
Definition schedule_reboot (now time_delta_usec : Z) (s : io) : io :=
  set_reboot_time (u64 (now + time_delta_usec)) s.
Definition check_reboot (now : Z) (s : io) : io :=
  if negb (reboot_time s =? 0) && (reboot_time s <? now) then emit FxReset s else s.

(** The state at power-up. *)
Definition io_init (text_size : nat) : io :=
  Io page_init 0 0 0 0 false false 0 0 (Mixtext (replicate text_size 0) 0 false false false) [].

(** * Well-formed pages *)

Definition wf (s : io) : Prop :=
  forall p, length (pages s p) = page_size p /\ Forall is_u16 (pages s p).

Lemma rget_rset_same p i v s :
  length (pages s p) = page_size p -> 0 <= i < Z.of_nat (page_size p) ->
  rget p i (rset p i v s) = v.
Proof.
  intros Hl Hi. unfold rget, rset. cbn [pages set_pages]. rewrite decide_True by done.
  apply aget_aset_eq. by rewrite Hl.
Qed.

Lemma rget_rset_page p q i j v s : p <> q -> rget q j (rset p i v s) = rget q j s.
Proof. intros H. unfold rget, rset. cbn [pages set_pages]. by rewrite decide_False by done. Qed.

Lemma rget_rset_index p i j v s :
  0 <= i -> 0 <= j -> i <> j -> rget p j (rset p i v s) = rget p j s.
Proof.
  intros Hi Hj Hne. unfold rget, rset. cbn [pages set_pages]. rewrite decide_True by done.
  by apply aget_aset_ne.
Qed.

Lemma wf_rset p i v s : wf s -> is_u16 v -> wf (rset p i v s).
Proof.
  intros Hs Hv q. unfold rset. simpl. case_decide as E; [subst q|apply Hs].
  destruct (Hs p) as [Hl Hf]. rewrite length_aset. split; [done|]. by apply aset_Forall.
Qed.

Lemma wf_rzero p s : wf s -> wf (rzero p s).
Proof.
  intros Hs q. unfold rzero. simpl. case_decide as E; [subst q|apply Hs].
  rewrite length_replicate. split; [done|]. apply Forall_replicate. unfold is_u16. lia.
Qed.

Lemma rget_u16 p i s : wf s -> is_u16 (rget p i s).
Proof. intros Hs. unfold rget. apply (aget_Forall is_u16); [apply Hs|]. unfold is_u16. lia. Qed.

Lemma wf_io_init n : wf (io_init n).
Proof.
  assert (Hr : forall k v, is_u16 v -> Forall is_u16 (replicate k v))
    by (intros; by apply Forall_replicate).
  intros p. destruct p; simpl; (split; [reflexivity|]);
    try (apply Hr; unfold is_u16; lia);
    repeat (apply Forall_cons_2; [unfold is_u16; split; [discriminate | reflexivity]|]);
    apply Forall_nil_2.
Qed.

(** What the atomic updates compute. *)
Lemma atomic_or_get p i m s :
  wf s -> 0 <= i < Z.of_nat (page_size p) ->
  rget p i (atomic_modify_or p i m s) = fset (rget p i s) m.
Proof.
  intros Hs Hi. unfold atomic_modify_or. destruct (Z.eqb_spec (Z.lor (rget p i s) m) (rget p i s)).
  - by symmetry.
  - apply rget_rset_same; [apply Hs | done].
Qed.

Lemma atomic_clear_get p i m s :
  wf s -> 0 <= i < Z.of_nat (page_size p) ->
  rget p i (atomic_modify_clear p i m s) = fclr (rget p i s) m.
Proof.
  intros Hs Hi. unfold atomic_modify_clear.
  destruct (Z.eqb_spec (Z.ldiff (rget p i s) m) (rget p i s)).
  - by symmetry.
  - apply rget_rset_same; [apply Hs | done].
Qed.

Lemma wf_atomic_or p i m s : wf s -> is_u16 m -> wf (atomic_modify_or p i m s).
Proof.
  intros. unfold atomic_modify_or. case_match; [done|]. apply wf_rset; [done|].
  apply fset_u16; [by apply rget_u16 | done].
Qed.

Lemma wf_atomic_clear p i m s : wf s -> wf (atomic_modify_clear p i m s).
Proof.
  intros. unfold atomic_modify_clear. case_match; [done|]. apply wf_rset; [done|].
  by apply fclr_u16, rget_u16.
Qed.

Lemma wf_reg_or p i m s : wf s -> is_u16 m -> wf (reg_or p i m s).
Proof. intros. apply wf_rset; [done|]. apply fset_u16; [by apply rget_u16 | done]. Qed.
Lemma wf_reg_clear p i m s : wf s -> wf (reg_clear p i m s).
Proof. intros. apply wf_rset; [done|]. by apply fclr_u16, rget_u16. Qed.

Create HintDb io.
#[export] Hint Resolve wf_rset wf_rzero rget_u16 wf_atomic_or wf_atomic_clear wf_reg_or
  wf_reg_clear : io.
