(* ===== verification/Px4ioRegs.v ===== *)
(** The register interface of PX4IO: registers.c, and the text entry point of
    mixer.cpp that it calls.

    The PWM driver's rate groups, its rate setting and the ADC are parameters:
    [up_pwm_servo_get_rate_group], [set_rate_ok] (whether
    [up_pwm_servo_set_rate_group_update] returns OK) and [adc_measure].  The
    clock is the argument [now]. *)

From Stdlib Require Import ZArith Lia.
From stdpp Require Import base list numbers.
From S2P Require Import Prelude Px4io.

Local Open Scope Z_scope.

(** drv_pwm_output.h *)
Definition PWM_LOWEST_MIN : Z := 90.
Definition PWM_HIGHEST_MIN : Z := 1600.
Definition PWM_HIGHEST_MAX : Z := 2500.
Definition PWM_LOWEST_MAX : Z := 200.
Definition PWM_IGNORE_THIS_CHANNEL : Z := 65535.

Definition PX4IO_P_SETUP_FEATURES_VALID : Z :=
  Z.lor (Z.lor FEATURES_SBUS1_OUT FEATURES_SBUS2_OUT) (Z.lor FEATURES_ADC_RSSI FEATURES_PWM_RSSI).
Definition PX4IO_P_SETUP_ARMING_VALID : Z :=
  fold_right Z.lor 0
    [ARMING_FMU_ARMED; ARMING_FMU_PREARMED; ARMING_MANUAL_OVERRIDE_OK; ARMING_INAIR_RESTART_OK;
     ARMING_IO_ARM_OK; ARMING_FAILSAFE_CUSTOM; ARMING_ALWAYS_PWM_ENABLE;
     ARMING_RC_HANDLING_DISABLED; ARMING_LOCKDOWN; ARMING_FORCE_FAILSAFE;
     ARMING_TERMINATION_FAILSAFE; ARMING_OVERRIDE_IMMEDIATE].
Definition PX4IO_P_SETUP_RATES_VALID : Z := Z.shiftl 1 PX4IO_SERVO_COUNT - 1.
Definition PX4IO_P_RC_CONFIG_OPTIONS_VALID : Z := Z.lor OPTIONS_REVERSE OPTIONS_ENABLED.

(** * mixer.cpp: text for the mixer parser *)

Definition PX4IO_MAX_MIXER_LENGTH : Z := 330.
Definition F2I_MIXER_ACTION_RESET : Z := 0.
Definition F2I_MIXER_ACTION_APPEND : Z := 1.
(** magic, action *)
Definition SIZEOF_MIXDATA : Z := 3.

Definition interrupt_mixer_set_failsafe (s : io) : io :=
  let m := mixer s in
  set_mixer (Mixtext (mixer_text m) (mixer_text_length m) (mixer_reset_pending m)
               (mixer_update_pending m) true) s.

(** [memcpy] of [bs] to index [i] of the text buffer. *)
Fixpoint text_copy (bs : list Z) (i : Z) (t : list Z) : list Z :=
  match bs with
  | [] => t
  | b :: bs => text_copy bs (i + 1) (aset t i b)
  end.

Definition mixer_reset (m : mixtext) : mixtext :=
  Mixtext (mixer_text m) 0 true (mixer_update_pending m) (mix_failsafe m).

Definition mixer_append (text : list Z) (s : io) : Z * io :=
  let m := mixer s in
  let text_length := Z.of_nat (length text) in
  if PX4IO_MAX_MIXER_LENGTH <? mixer_text_length m + text_length + 1
  then (0, atomic_modify_clear STATUS PX4IO_P_STATUS_FLAGS FLAGS_MIXER_OK s)
  else if mixer_update_pending m then (1, s)
  else
    let t := text_copy text (mixer_text_length m) (mixer_text m) in
    let len := mixer_text_length m + text_length in
    (0, set_mixer (Mixtext (aset t len 0) len (mixer_reset_pending m) true (mix_failsafe m)) s).

Definition interrupt_mixer_handle_text (buffer : list Z) (s : io) : Z * io :=
  if status_is FLAGS_SAFETY_OFF s && arming_is ARMING_FMU_ARMED s then (1, s)
  else
    let s := atomic_modify_clear STATUS PX4IO_P_STATUS_FLAGS FLAGS_MIXER_OK s in
    if Z.of_nat (length buffer) <? SIZEOF_MIXDATA then (0, s)
    else
      let action := aget buffer 2 in
      let text := drop 3 buffer in
      if action =? F2I_MIXER_ACTION_RESET
      then mixer_append text (set_mixer (mixer_reset (mixer s)) s)
      else if action =? F2I_MIXER_ACTION_APPEND then mixer_append text s
      else (0, s).

(** * Bulk pages *)

(** [while (offset < lim && num_values > 0)] *)
Fixpoint copy_regs (lim : Z) (f : Z -> Z -> io -> io) (offset : Z) (values : list Z) (s : io) : io :=
  match values with
  | [] => s
  | v :: values =>
      if offset <? lim then copy_regs lim f (offset + 1) values (f offset v s) else s
  end.

Definition set_controls (now offset : Z) (values : list Z) (s : io) : io :=
  let s := copy_regs (PX4IO_CONTROL_GROUPS * PX4IO_CONTROL_CHANNELS) (rset CONTROLS)
             offset values s in
  let s := reg_clear STATUS PX4IO_P_STATUS_FLAGS FLAGS_RAW_PWM s in
  set_fmu_time now s.

Definition direct_pwm_one (o v : Z) (s : io) : io :=
  if v =? PWM_IGNORE_THIS_CHANNEL then s else rset DIRECT_PWM o v s.

Definition set_direct_pwm (now offset : Z) (values : list Z) (s : io) : io :=
  let s := copy_regs PX4IO_CONTROL_CHANNELS direct_pwm_one offset values s in
  let s := set_fmu_time now s in
  let s := reg_or STATUS PX4IO_P_STATUS_FLAGS FLAGS_RAW_PWM s in
  emit FxPwmUpdate s.

(** A value clamped to [lo, hi]; 0 is ignored. *)
Definition clamp_one (p : pg) (lo hi o v : Z) (s : io) : io :=
  if v =? 0 then s
  else if v <? lo then rset p o lo s
  else if hi <? v then rset p o hi s
  else rset p o v s.

Definition failsafe_one (o v : Z) (s : io) : io :=
  reg_or SETUP PX4IO_P_SETUP_ARMING ARMING_FAILSAFE_CUSTOM
    (clamp_one FAILSAFE PWM_LOWEST_MIN PWM_HIGHEST_MAX o v s).

Definition set_failsafe_pwm : Z -> list Z -> io -> io := copy_regs PX4IO_SERVO_COUNT failsafe_one.
Definition set_min_pwm : Z -> list Z -> io -> io :=
  copy_regs PX4IO_SERVO_COUNT (clamp_one CMIN PWM_LOWEST_MIN PWM_HIGHEST_MIN).
Definition set_max_pwm : Z -> list Z -> io -> io :=
  copy_regs PX4IO_SERVO_COUNT (clamp_one CMAX PWM_LOWEST_MAX PWM_HIGHEST_MAX).
Definition set_trim_pwm (offset : Z) (values : list Z) (s : io) : io :=
  set_update_trims true (copy_regs PX4IO_SERVO_COUNT (rset CTRIM) offset values s).

Definition disarmed_one (o v : Z) (s : io) : io :=
  if v =? 0 then rset DISARMED o 0 s
  else if v <? PWM_LOWEST_MIN then rset DISARMED o PWM_LOWEST_MIN s
  else if PWM_HIGHEST_MAX <? v then rset DISARMED o PWM_HIGHEST_MAX s
  else rset DISARMED o v s.

(** [all_disarmed_off]: every value the loop copies is 0. *)
Definition all_disarmed_off (offset : Z) (values : list Z) : bool :=
  forallb (fun v => v =? 0) (take (Z.to_nat (PX4IO_SERVO_COUNT - offset)) values).

Definition set_disarmed_pwm (offset : Z) (values : list Z) (s : io) : io :=
  let s := copy_regs PX4IO_SERVO_COUNT disarmed_one offset values s in
  if all_disarmed_off offset values
  then reg_clear SETUP PX4IO_P_SETUP_ARMING ARMING_ALWAYS_PWM_ENABLE s
  else reg_or SETUP PX4IO_P_SETUP_ARMING ARMING_ALWAYS_PWM_ENABLE s.

(** * Single registers *)

Section Regs.
Context (up_pwm_servo_get_rate_group : Z -> Z) (set_rate_ok : Z -> Z -> bool).
Context (adc_measure : Z -> Z).

(** ** pwm_configure_rates *)

(** The preflight pass over the groups from [group]: is the map legal? *)
Fixpoint rates_preflight (n : nat) (group : Z) (map : Z) : bool :=
  match n with
  | O => true
  | S n =>
      let mask := up_pwm_servo_get_rate_group group in
      let alt := Z.land map mask in
      if mask =? 0 then rates_preflight n (group + 1) map
      else if negb (alt =? 0) && negb (alt =? mask) then false
      else rates_preflight n (group + 1) map
  end.

(** The second pass applies the rates that are in the registers. *)
Fixpoint rates_apply (n : nat) (group : Z) (map : Z) (s : io) : io :=
  match n with
  | O => s
  | S n =>
      let mask := up_pwm_servo_get_rate_group group in
      let alt := Z.land map mask in
      if mask =? 0 then rates_apply n (group + 1) map s
      else
        let rate := if negb (alt =? 0) then r_setup_pwm_altrate s
                    else r_setup_pwm_defaultrate s in
        let s := emit (FxRate group rate) s in
        let s := if set_rate_ok group rate then s
                 else reg_or STATUS PX4IO_P_STATUS_ALARMS ALARMS_PWM_ERROR s in
        rates_apply n (group + 1) map s
  end.

Definition pwm_configure_rates (map defaultrate altrate : Z) (s : io) : io :=
  if rates_preflight 8 0 map then
    let s := rates_apply 8 0 map s in
    let s := rset SETUP PX4IO_P_SETUP_PWM_RATES map s in
    let s := rset SETUP PX4IO_P_SETUP_PWM_DEFAULTRATE defaultrate s in
    rset SETUP PX4IO_P_SETUP_PWM_ALTRATE altrate s
  else reg_or STATUS PX4IO_P_STATUS_ALARMS ALARMS_PWM_ERROR s.

(** ** registers_set_one *)

Definition set_status (offset value : Z) (s : io) : Z * io :=
  if offset =? PX4IO_P_STATUS_ALARMS then
    (0, reg_clear STATUS PX4IO_P_STATUS_ALARMS value s)
  else if offset =? PX4IO_P_STATUS_FLAGS then
    let s := if ftst value FLAGS_MIXER_OK
             then reg_or STATUS PX4IO_P_STATUS_FLAGS FLAGS_MIXER_OK s
             else if negb (status_is FLAGS_ARM_SYNC s)
             then rset STATUS PX4IO_P_STATUS_FLAGS value s
             else s in
    (0, if status_is FLAGS_MIXER_OK s then interrupt_mixer_set_failsafe s else s)
  else (0, s).

(** The conflicting features are dropped, S.Bus out first. *)
Definition resolve_features (value : Z) : Z :=
  let value := Z.land value PX4IO_P_SETUP_FEATURES_VALID in
  let value := if ftst value FEATURES_SBUS1_OUT
    then fclr value (Z.lor (Z.lor FEATURES_PWM_RSSI FEATURES_ADC_RSSI) FEATURES_SBUS2_OUT)
    else value in
  let value := if ftst value FEATURES_SBUS2_OUT
    then fclr value (Z.lor (Z.lor FEATURES_PWM_RSSI FEATURES_ADC_RSSI) FEATURES_SBUS1_OUT)
    else value in
  let value := if ftst value FEATURES_ADC_RSSI
    then fclr value (Z.lor (Z.lor FEATURES_PWM_RSSI FEATURES_SBUS1_OUT) FEATURES_SBUS2_OUT)
    else value in
  if ftst value FEATURES_PWM_RSSI
  then fclr value (Z.lor (Z.lor FEATURES_ADC_RSSI FEATURES_SBUS1_OUT) FEATURES_SBUS2_OUT)
  else value.

Definition set_arming (value : Z) (s : io) : io :=
  let value := Z.land value PX4IO_P_SETUP_ARMING_VALID in
  let s := if ftst value ARMING_RC_HANDLING_DISABLED
           then reg_or STATUS PX4IO_P_STATUS_FLAGS FLAGS_INIT_OK s else s in
  let value := Z.lor value (Z.land (r_setup_arming s) ARMING_TERMINATION_FAILSAFE) in
  let value := if arming_is ARMING_TERMINATION_FAILSAFE s
               then Z.lor value (Z.land (r_setup_arming s) ARMING_FORCE_FAILSAFE)
               else value in
  rset SETUP PX4IO_P_SETUP_ARMING value s.

Definition clamp_rate (value : Z) : Z :=
  let value := if value <? 25 then 25 else value in
  if 400 <? value then 400 else value.

Definition set_setup (now offset value : Z) (s : io) : Z * io :=
  if offset =? PX4IO_P_SETUP_FEATURES then
    let s := emit (FxSbusOut (ftst (Z.land value PX4IO_P_SETUP_FEATURES_VALID)
                                   (Z.lor FEATURES_SBUS1_OUT FEATURES_SBUS2_OUT))) s in
    (0, rset SETUP PX4IO_P_SETUP_FEATURES (resolve_features value) s)
  else if offset =? PX4IO_P_SETUP_ARMING then (0, set_arming value s)
  else if offset =? PX4IO_P_SETUP_PWM_RATES then
    (0, pwm_configure_rates (Z.land value PX4IO_P_SETUP_RATES_VALID)
          (r_setup_pwm_defaultrate s) (r_setup_pwm_altrate s) s)
  else if offset =? PX4IO_P_SETUP_PWM_DEFAULTRATE then
    (0, pwm_configure_rates (r_setup_pwm_rates s) (clamp_rate value) (r_setup_pwm_altrate s) s)
  else if offset =? PX4IO_P_SETUP_PWM_ALTRATE then
    (0, pwm_configure_rates (r_setup_pwm_rates s) (r_setup_pwm_defaultrate s)
          (if value =? 0 then 0 else clamp_rate value) s)
  else if offset =? PX4IO_P_SETUP_SET_DEBUG then (0, rset SETUP offset value s)
  else if offset =? PX4IO_P_SETUP_REBOOT_BL then
    (0, if status_is FLAGS_SAFETY_OFF s then s
        else if negb (value =? PX4IO_REBOOT_BL_MAGIC) then s
        else schedule_reboot now 100000 s)
  else if offset =? PX4IO_P_SETUP_DSM then
    (0, emit (FxDsmBind (Z.land value 0x0f) (Z.land (Z.shiftr value 4) 0xf)) s)
  else if offset =? PX4IO_P_SETUP_FORCE_SAFETY_ON then
    if value =? PX4IO_FORCE_SAFETY_MAGIC
    then (0, reg_clear STATUS PX4IO_P_STATUS_FLAGS FLAGS_SAFETY_OFF s) else (-1, s)
  else if offset =? PX4IO_P_SETUP_FORCE_SAFETY_OFF then
    if value =? PX4IO_FORCE_SAFETY_MAGIC
    then (0, reg_or STATUS PX4IO_P_STATUS_FLAGS FLAGS_SAFETY_OFF s) else (-1, s)
  else if offset =? PX4IO_P_SETUP_RC_THR_FAILSAFE_US then
    (0, if (650 <? value) && (value <? 2350) then rset SETUP offset value s else s)
  else if offset =? PX4IO_P_SETUP_SBUS_RATE then
    (0, emit (FxSbusRate value) (rset SETUP offset value s))
  else if offset =? PX4IO_P_SETUP_THR_MDL_FAC then
    (0, rset SETUP offset value (set_update_thrust true s))
  else if ((PX4IO_P_SETUP_PWM_REVERSE <=? offset) && (offset <=? PX4IO_P_SETUP_SCALE_YAW))
          || (offset =? PX4IO_P_SETUP_MOTOR_SLEW_MAX) || (offset =? PX4IO_P_SETUP_AIRMODE)
          || (offset =? PX4IO_P_SETUP_THERMAL)
          || (offset =? PX4IO_P_SETUP_ENABLE_FLIGHTTERMINATION)
  then (0, rset SETUP offset value s)
  else (-1, s).

(** The sanity checks of a channel about to be enabled: [count] and [disabled]. *)
Definition config_errors (conf : Z -> Z) : Z :=
  (if conf PX4IO_P_RC_CONFIG_MIN <? 500 then 1 else 0)
  + (if 2500 <? conf PX4IO_P_RC_CONFIG_MAX then 1 else 0)
  + (if conf PX4IO_P_RC_CONFIG_CENTER <? conf PX4IO_P_RC_CONFIG_MIN then 1 else 0)
  + (if conf PX4IO_P_RC_CONFIG_MAX <? conf PX4IO_P_RC_CONFIG_CENTER then 1 else 0)
  + (if 500 <? conf PX4IO_P_RC_CONFIG_DEADZONE then 1 else 0)
  + (if conf PX4IO_P_RC_CONFIG_ASSIGNMENT =? 255 then 0
     else if (PX4IO_RC_MAPPED_CONTROL_CHANNELS <=? conf PX4IO_P_RC_CONFIG_ASSIGNMENT)
             && negb (conf PX4IO_P_RC_CONFIG_ASSIGNMENT
                      =? PX4IO_P_RC_CONFIG_ASSIGNMENT_MODESWITCH) then 1 else 0).

Definition set_rc_options (base value : Z) (s : io) : io :=
  let conf := fun i => base + i in
  let value := Z.land value PX4IO_P_RC_CONFIG_OPTIONS_VALID in
  let s := reg_or STATUS PX4IO_P_STATUS_FLAGS FLAGS_INIT_OK s in
  let s := reg_clear SETUP PX4IO_P_SETUP_ARMING ARMING_RC_HANDLING_DISABLED s in
  let s := rset RC_CONFIG (conf PX4IO_P_RC_CONFIG_OPTIONS) (fclr value OPTIONS_ENABLED) s in
  if ftst value OPTIONS_ENABLED then
    if negb (config_errors (fun i => rget RC_CONFIG (conf i) s) =? 0)
    then reg_clear STATUS PX4IO_P_STATUS_FLAGS FLAGS_INIT_OK s
    else if negb (rget RC_CONFIG (conf PX4IO_P_RC_CONFIG_ASSIGNMENT) s =? 255)
    then reg_or RC_CONFIG (conf PX4IO_P_RC_CONFIG_OPTIONS) OPTIONS_ENABLED s
    else s
  else s.

Definition set_rc_config (offset value : Z) (s : io) : Z * io :=
  if status_is FLAGS_SAFETY_OFF s then (0, s)
  else
    let channel := offset / PX4IO_P_RC_CONFIG_STRIDE in
    let index := offset - channel * PX4IO_P_RC_CONFIG_STRIDE in
    let base := channel * PX4IO_P_RC_CONFIG_STRIDE in
    if PX4IO_RC_INPUT_CHANNELS <=? channel then (-1, s)
    else
      (* conf[OPTIONS] &= OPTIONS_ENABLED *)
      let s := rset RC_CONFIG (base + PX4IO_P_RC_CONFIG_OPTIONS)
                 (Z.land (rget RC_CONFIG (base + PX4IO_P_RC_CONFIG_OPTIONS) s) OPTIONS_ENABLED) s in
      if index <=? PX4IO_P_RC_CONFIG_ASSIGNMENT then (0, rset RC_CONFIG (base + index) value s)
      else if index =? PX4IO_P_RC_CONFIG_OPTIONS then (0, set_rc_options base value s)
      else (0, s).

Definition registers_set_one (now page offset value : Z) (s : io) : Z * io :=
  if page =? PX4IO_PAGE_STATUS then set_status offset value s
  else if page =? PX4IO_PAGE_SETUP then set_setup now offset value s
  else if page =? PX4IO_PAGE_RC_CONFIG then set_rc_config offset value s
  else if page =? PX4IO_PAGE_TEST then
    (0, if offset =? 0 then emit (FxAmber (Z.testbit value 0)) s else s)
  else (-1, s).

(** ** registers_set *)

Fixpoint set_each (now page offset : Z) (values : list Z) (s : io) : Z * io :=
  match values with
  | [] => (0, s)
  | v :: values =>
      let '(rv, s) := registers_set_one now page offset v s in
      if negb (rv =? 0) then (-1, s) else set_each now page (u8 (offset + 1)) values s
  end.

(** The bytes of a buffer of registers. *)
Definition reg_bytes (values : list Z) : list Z := concat ((fun v => [v mod 256; v / 256]) <$> values).

Definition registers_set (now page offset : Z) (values : list Z) (s : io) : Z * io :=
  if page =? PX4IO_PAGE_CONTROLS then (0, set_controls now offset values s)
  else if page =? PX4IO_PAGE_DIRECT_PWM then (0, set_direct_pwm now offset values s)
  else if page =? PX4IO_PAGE_FAILSAFE_PWM then (0, set_failsafe_pwm offset values s)
  else if page =? PX4IO_PAGE_CONTROL_MIN_PWM then (0, set_min_pwm offset values s)
  else if page =? PX4IO_PAGE_CONTROL_MAX_PWM then (0, set_max_pwm offset values s)
  else if page =? PX4IO_PAGE_CONTROL_TRIM_PWM then (0, set_trim_pwm offset values s)
  else if page =? PX4IO_PAGE_DISARMED_PWM then (0, set_disarmed_pwm offset values s)
  else if page =? PX4IO_PAGE_MIXERLOAD then interrupt_mixer_handle_text (reg_bytes values) s
  else
    let n := if 255 <? offset + Z.of_nat (length values) then Z.to_nat (255 - offset)
             else length values in
    set_each now page offset (take n values) s.

(** ** registers_get *)

Definition refresh_status (s : io) : io :=
  let counts := adc_measure 4 in
  let s := if counts =? 0xffff then s
           else rset STATUS PX4IO_P_STATUS_VSERVO (u16 (u32 (counts * 9900) / 4096)) s in
  let counts := adc_measure 5 in
  if counts =? 0xffff then s
  else rset STATUS PX4IO_P_STATUS_VRSSI (u16 (u32 (counts * 3300) / 4096)) s.

Definition raw_adc (s : io) : io :=
  rset SCRATCH 1 (adc_measure 5) (rset SCRATCH 0 (adc_measure 4) (rzero SCRATCH s)).

Fixpoint rate_groups (n : nat) (i : Z) (s : io) : io :=
  match n with
  | O => s
  | S n => rate_groups n (i + 1) (rset SCRATCH i (u16 (up_pwm_servo_get_rate_group i)) s)
  end.

(** The page a read selects, after what is updated at read time. *)
Definition select_page (page : Z) (s : io) : option (pg * io) :=
  if page =? PX4IO_PAGE_STATUS then Some (STATUS, refresh_status s)
  else if page =? PX4IO_PAGE_RAW_ADC_INPUT then Some (SCRATCH, raw_adc s)
  else if page =? PX4IO_PAGE_PWM_INFO then Some (SCRATCH, rate_groups 8 0 (rzero SCRATCH s))
  else if page =? PX4IO_PAGE_CONFIG then Some (CONFIG, s)
  else if page =? PX4IO_PAGE_ACTUATORS then Some (ACTUATORS, s)
  else if page =? PX4IO_PAGE_SERVOS then Some (SERVOS, s)
  else if page =? PX4IO_PAGE_RAW_RC_INPUT then Some (RAW_RC, s)
  else if page =? PX4IO_PAGE_RC_INPUT then Some (RC_INPUT, s)
  else if page =? PX4IO_PAGE_SETUP then Some (SETUP, s)
  else if page =? PX4IO_PAGE_CONTROLS then Some (CONTROLS, s)
  else if page =? PX4IO_PAGE_RC_CONFIG then Some (RC_CONFIG, s)
  else if page =? PX4IO_PAGE_DIRECT_PWM then Some (DIRECT_PWM, s)
  else if page =? PX4IO_PAGE_FAILSAFE_PWM then Some (FAILSAFE, s)
  else if page =? PX4IO_PAGE_CONTROL_MIN_PWM then Some (CMIN, s)
  else if page =? PX4IO_PAGE_CONTROL_MAX_PWM then Some (CMAX, s)
  else if page =? PX4IO_PAGE_CONTROL_TRIM_PWM then Some (CTRIM, s)
  else if page =? PX4IO_PAGE_DISARMED_PWM then Some (DISARMED, s)
  else None.

(** The registers from [offset] to the end of the page, or an error. *)
Definition registers_get (page offset : Z) (s : io) : option (list Z) * io :=
  match select_page page s with
  | None => (None, s)
  | Some (p, s) =>
      let s := set_last page offset s in
      if Z.of_nat (page_size p) <=? offset then (None, s)
      else (Some (drop (Z.to_nat offset) (pages s p)), s)
  end.
End Regs.

(** * The invariant of the registers *)

Definition bits_in (v m : Z) : Prop := Z.land v m = v.

(** At most one of the S.Bus outputs and RSSI inputs. *)
Definition features_ok (v : Z) : Prop := v = 0 \/ v = 1 \/ v = 2 \/ v = 4 \/ v = 8.

Definition setup_ok (i v : Z) : Prop :=
  (i = PX4IO_P_SETUP_FEATURES -> features_ok v)
  /\ (i = PX4IO_P_SETUP_ARMING -> bits_in v PX4IO_P_SETUP_ARMING_VALID)
  /\ (i = PX4IO_P_SETUP_PWM_RATES -> 0 <= v < 256)
  /\ (i = PX4IO_P_SETUP_PWM_DEFAULTRATE -> 25 <= v <= 400)
  /\ (i = PX4IO_P_SETUP_PWM_ALTRATE -> v = 0 \/ 25 <= v <= 400)
  /\ (i = PX4IO_P_SETUP_RC_THR_FAILSAFE_US -> v = 0 \/ 650 < v < 2350).

Definition pulse_ok (v : Z) : Prop := v = 0 \/ PWM_LOWEST_MIN <= v <= PWM_HIGHEST_MAX.

(** What may be written to each register. *)
Definition reg_ok (p : pg) (i v : Z) : Prop :=
  is_u16 v
  /\ match p with
     | FAILSAFE | DISARMED => pulse_ok v
     | CMIN => PWM_LOWEST_MIN <= v <= PWM_HIGHEST_MIN
     | CMAX => PWM_LOWEST_MAX <= v <= PWM_HIGHEST_MAX
     | SETUP => setup_ok i v
     | _ => True
     end.

Definition text_ok (m : mixtext) : Prop :=
  Z.of_nat (length (mixer_text m)) = PX4IO_MAX_MIXER_LENGTH
  /\ 0 <= mixer_text_length m /\ mixer_text_length m + 1 <= PX4IO_MAX_MIXER_LENGTH.

(** What each register may hold: the failsafe values may also come from the
    mixers, which nothing clamps. *)
Definition held_ok (p : pg) (i v : Z) : Prop := is_u16 v /\ (p <> FAILSAFE -> reg_ok p i v).

Definition regs_ok (s : io) : Prop :=
  (forall p, length (pages s p) = page_size p)
  /\ (forall p i, 0 <= i < Z.of_nat (page_size p) -> held_ok p i (rget p i s))
  /\ text_ok (mixer s).

Definition failsafe_ok (s : io) : Prop := forall i, 0 <= i < PX4IO_SERVO_COUNT -> pulse_ok (rget FAILSAFE i s).

Lemma reg_held p i v : reg_ok p i v -> held_ok p i v.
Proof. intros H. split; [by destruct H | by intros _]. Qed.

(** The failsafe latch: bits of the arming register a write may not clear. *)
Definition latched (old new : Z) : Prop :=
  ftst old ARMING_TERMINATION_FAILSAFE = true ->
  ftst new ARMING_TERMINATION_FAILSAFE = true
  /\ (ftst old ARMING_FORCE_FAILSAFE = true -> ftst new ARMING_FORCE_FAILSAFE = true).

#[export] Instance latched_preorder : PreOrder latched.
Proof.
  split; [by intros x H|]. intros x y z Hxy Hyz H. destruct (Hxy H) as [H1 H2].
  destruct (Hyz H1) as [H3 H4]. auto.
Qed.

(** The elementary updates the interface is made of. *)
Inductive upd (s : io) : io -> Prop :=
| upd_reg p i v :
    0 <= i < Z.of_nat (page_size p) -> reg_ok p i v ->
    (p = SETUP -> i = PX4IO_P_SETUP_ARMING -> latched (r_setup_arming s) v) ->
    upd s (rset p i v s)
| upd_other s' : pages s' = pages s -> text_ok (mixer s') -> upd s s'.

Lemma upd_ok s s' : regs_ok s -> upd s s' -> regs_ok s'.
Proof.
  intros (Hl & Hr & Hm) Hu. destruct Hu as [p i v Hi Hv _|s' E Hm'].
  - split; [|split; [|done]].
    + intros q. unfold rset. cbn [pages set_pages]. case_decide; [subst; by rewrite length_aset|done].
    + intros q j Hj. destruct (decide (p = q)) as [<-|]; [|by rewrite rget_rset_page; auto].
      destruct (decide (i = j)) as [<-|]; [rewrite rget_rset_same by done; by apply reg_held|].
      rewrite rget_rset_index by lia. auto.
  - split; [|split; [|done]]; intros; unfold rget; rewrite E; [apply Hl | by apply Hr].
Qed.

Lemma upd_failsafe s s' : regs_ok s -> upd s s' -> failsafe_ok s -> failsafe_ok s'.
Proof.
  intros (Hl & _) Hu H j Hj. destruct Hu as [p i v Hi Hv _|s' E _]; [|unfold rget; rewrite E; by apply H].
  destruct (decide (p = FAILSAFE)) as [->|Hp]; [|rewrite rget_rset_page by done; by apply H].
  destruct (decide (i = j)) as [<-|]; [rewrite rget_rset_same by done; by destruct Hv|].
  rewrite rget_rset_index by lia. by apply H.
Qed.

Lemma upd_latched s s' : regs_ok s -> upd s s' -> latched (r_setup_arming s) (r_setup_arming s').
Proof.
  intros (Hl & Hr & Hm) Hu. destruct Hu as [p i v Hi Hv Hlatch|s' E _].
  - unfold r_setup_arming at 2. destruct (decide (p = SETUP)) as [->|].
    + destruct (decide (i = PX4IO_P_SETUP_ARMING)) as [->|].
      * rewrite rget_rset_same by done. by apply Hlatch.
      * rewrite rget_rset_index by done || lia. reflexivity.
    + rewrite rget_rset_page by done. reflexivity.
  - unfold r_setup_arming, rget. by rewrite E.
Qed.

(** [safe s s']: from a good state, [s'] is good and reached by updates. *)
Definition safe (s s' : io) : Prop := regs_ok s -> regs_ok s' /\ star upd s s'.

#[export] Instance safe_preorder : PreOrder safe.
Proof.
  split; [intros s H; split; [done | apply star_refl]|].
  intros s1 s2 s3 H12 H23 H1. destruct (H12 H1) as [H2 ?]. destruct (H23 H2) as [H3 ?].
  split; [done|]. by eapply star_trans.
Qed.

Lemma safe_upd s s' : (regs_ok s -> upd s s') -> safe s s'.
Proof. intros H Hs. specialize (H Hs). split; [by eapply upd_ok | by apply star_one]. Qed.

Lemma safe_pages s s' : pages s' = pages s -> mixer s' = mixer s -> safe s s'.
Proof. intros E Em. apply safe_upd. intros (_ & _ & Hm). apply upd_other; [done | by rewrite Em]. Qed.

Lemma safe_rset p i v s :
  0 <= i < Z.of_nat (page_size p) ->
  (regs_ok s -> reg_ok p i v /\ (p = SETUP -> i = PX4IO_P_SETUP_ARMING ->
                                 latched (r_setup_arming s) v)) ->
  safe s (rset p i v s).
Proof. intros Hi Hv. apply safe_upd. intros Hs. destruct (Hv Hs). by apply upd_reg. Qed.

(** Pages without constraints of their own. *)
Definition plain (p : pg) : Prop :=
  match p with FAILSAFE | DISARMED | CMIN | CMAX | SETUP => False | _ => True end.

Lemma plain_held p i v : plain p \/ p = FAILSAFE -> is_u16 v -> held_ok p i v.
Proof. intros Hp Hv. split; [done|]. intros Hne. split; [done|]. by destruct Hp as [Hp | ->]; [destruct p|]. Qed.

Lemma safe_plain p i v s : plain p -> 0 <= i < Z.of_nat (page_size p) -> is_u16 v ->
  safe s (rset p i v s).
Proof.
  intros Hp Hi Hv. apply safe_rset; [done|]. intros _.
  split; [split; [done|]; by destruct p | intros ->; done].
Qed.

Lemma ok_u16 p i s : regs_ok s -> 0 <= i < Z.of_nat (page_size p) -> is_u16 (rget p i s).
Proof. intros (_ & Hr & _) Hi. by destruct (Hr p i Hi). Qed.

Lemma ok_setup i s : regs_ok s -> 0 <= i < 29 -> setup_ok i (rget SETUP i s).
Proof. intros (_ & Hr & _) Hi. destruct (Hr SETUP i Hi) as [_ H]. by apply H. Qed.

Lemma safe_or p i m s : plain p -> 0 <= i < Z.of_nat (page_size p) -> is_u16 m ->
  safe s (reg_or p i m s).
Proof.
  intros Hp Hi Hm Hs. apply safe_plain; try done. apply fset_u16; [by apply ok_u16 | done].
Qed.

Lemma safe_clear p i m s : plain p -> 0 <= i < Z.of_nat (page_size p) ->
  safe s (reg_clear p i m s).
Proof. intros Hp Hi Hs. apply safe_plain; try done. by apply fclr_u16, ok_u16. Qed.

Lemma safe_atomic_clear p i m s : plain p -> 0 <= i < Z.of_nat (page_size p) ->
  safe s (atomic_modify_clear p i m s).
Proof.
  intros Hp Hi. unfold atomic_modify_clear. case_match; [reflexivity|]. by apply safe_clear.
Qed.

Lemma land_valid v m : bits_in v m -> forall n, Z.land (Z.land v n) m = Z.land v n.
Proof.
  intros H n. rewrite <- Z.land_assoc, (Z.land_comm n), Z.land_assoc. by rewrite H.
Qed.

(** Setting and clearing bits of the arming register other than the latch. *)
Lemma safe_arming_or m s :
  bits_in m PX4IO_P_SETUP_ARMING_VALID -> is_u16 m ->
  safe s (reg_or SETUP PX4IO_P_SETUP_ARMING m s).
Proof.
  intros Hm Hu. apply safe_rset; [done|]. intros Hs.
  pose proof (ok_u16 SETUP PX4IO_P_SETUP_ARMING s Hs ltac:(done)) as Hv.
  pose proof (ok_setup PX4IO_P_SETUP_ARMING s Hs ltac:(done)) as Hset.
  split.
  - split; [by apply fset_u16|]. destruct Hset as (_ & Ha & _). specialize (Ha eq_refl).
    split; [done|]. split; [|done]. intros _. unfold bits_in, fset in *.
    by rewrite Z.land_lor_distr_l, Ha, Hm.
  - intros _ _. unfold latched, ftst, fset. rewrite !Z.land_lor_distr_l, !negb_true_iff, !Z.eqb_neq.
    unfold r_setup_arming. intros H. split; [|intros H2]; rewrite Z.lor_eq_0_iff; by intros [? _].
Qed.

Lemma safe_arming_clear m s :
  Z.land m ARMING_TERMINATION_FAILSAFE = 0 -> Z.land m ARMING_FORCE_FAILSAFE = 0 ->
  safe s (reg_clear SETUP PX4IO_P_SETUP_ARMING m s).
Proof.
  intros Ht Hf. apply safe_rset; [done|]. intros Hs.
  pose proof (ok_u16 SETUP PX4IO_P_SETUP_ARMING s Hs ltac:(done)) as Hv.
  pose proof (ok_setup PX4IO_P_SETUP_ARMING s Hs ltac:(done)) as Hset.
  split.
  - split; [by apply fclr_u16|]. destruct Hset as (_ & Ha & _). specialize (Ha eq_refl).
    split; [done|]. split; [|done]. intros _. unfold fclr. rewrite Z.ldiff_land. by apply land_valid.
  - intros _ _. unfold latched, r_setup_arming. by rewrite !ftst_fclr_disj.
Qed.

Lemma safe_copy lim f values : forall offset s,
  (forall o v s, 0 <= o < lim -> is_u16 v -> safe s (f o v s)) ->
  0 <= offset -> Forall is_u16 values -> safe s (copy_regs lim f offset values s).
Proof.
  induction values as [|v values IH]; intros offset s Hf Ho Hv; simpl; [reflexivity|].
  apply Forall_cons_1 in Hv as [Hv Hvs]. destruct (Z.ltb_spec offset lim); [|reflexivity].
  etransitivity; [apply (Hf offset v); [lia | done]|]. apply IH; [done | lia | done].
Qed.

Lemma safe_clamp_one p lo hi o v s :
  0 <= lo <= hi -> hi < 65536 -> page_size p = 8%nat -> p <> SETUP ->
  (forall w, lo <= w <= hi -> is_u16 w -> reg_ok p o w) ->
  0 <= o < PX4IO_SERVO_COUNT -> is_u16 v -> safe s (clamp_one p lo hi o v s).
Proof.
  intros Hlo Hhi Hp Hset Hok Ho Hv. unfold clamp_one. unfold is_u16 in *.
  assert (Hi : 0 <= o < Z.of_nat (page_size p)) by (rewrite Hp; exact Ho).
  destruct (v =? 0); [reflexivity|].
  destruct (Z.ltb_spec v lo); [|destruct (Z.ltb_spec hi v)];
    (apply safe_rset; [done|]; intros _; split; [apply Hok; lia | done]).
Qed.

Ltac pwm_limits :=
  unfold PWM_LOWEST_MIN, PWM_HIGHEST_MIN, PWM_LOWEST_MAX, PWM_HIGHEST_MAX in *.

Lemma safe_failsafe_one o v s :
  0 <= o < PX4IO_SERVO_COUNT -> is_u16 v -> safe s (failsafe_one o v s).
Proof.
  intros Ho Hv. unfold failsafe_one. etransitivity; [|by apply safe_arming_or].
  apply safe_clamp_one; try done. intros w Hw Hu. split; [done|]. by right.
Qed.

Lemma safe_disarmed_one o v s :
  0 <= o < PX4IO_SERVO_COUNT -> is_u16 v -> safe s (disarmed_one o v s).
Proof.
  intros Ho Hv. unfold disarmed_one. pwm_limits.
  assert (Hi : 0 <= o < Z.of_nat (page_size DISARMED)) by exact Ho.
  assert (Hok : forall w, w = 0 \/ 90 <= w <= 2500 -> reg_ok DISARMED o w).
  { intros w Hw. split; [unfold is_u16; lia | done]. }
  repeat case_match; (apply safe_rset; [done|]; intros _; split; [apply Hok; lia | done]).
Qed.

Lemma safe_text_copy bs : forall i t, length (text_copy bs i t) = length t.
Proof. induction bs as [|b bs IH]; intros; simpl; [done|]. by rewrite IH, length_aset. Qed.

Lemma safe_append text s : safe s (mixer_append text s).2.
Proof.
  unfold mixer_append. destruct (Z.ltb_spec PX4IO_MAX_MIXER_LENGTH
    (mixer_text_length (mixer s) + Z.of_nat (length text) + 1)); [by apply safe_atomic_clear|].
  destruct (mixer_update_pending (mixer s)); [reflexivity|]. simpl.
  apply safe_upd. intros (_ & _ & Hl & H0 & H1). apply upd_other; [done|].
  unfold text_ok. simpl. rewrite length_aset, safe_text_copy. lia.
Qed.

Lemma safe_handle_text buffer s : safe s (interrupt_mixer_handle_text buffer s).2.
Proof.
  unfold interrupt_mixer_handle_text. destruct (_ && _); [reflexivity|].
  etransitivity; [by apply (safe_atomic_clear STATUS PX4IO_P_STATUS_FLAGS FLAGS_MIXER_OK)|].
  set (s1 := atomic_modify_clear _ _ _ _).
  destruct (_ <? _); [reflexivity|]. destruct (_ =? _); [|destruct (_ =? _)].
  - etransitivity; [|apply safe_append]. apply safe_upd. intros (_ & _ & Hl & _).
    apply upd_other; [done|]. by split.
  - apply safe_append.
  - reflexivity.
Qed.

Lemma land_255 v : 0 <= Z.land v PX4IO_P_SETUP_RATES_VALID < 256.
Proof.
  change PX4IO_P_SETUP_RATES_VALID with (Z.ones 8). rewrite Z.land_ones by lia.
  apply Z.mod_pos_bound. done.
Qed.

Lemma clamp_rate_range v : 25 <= clamp_rate v <= 400.
Proof. unfold clamp_rate. repeat case_match; lia. Qed.

Lemma resolve_features_ok v : features_ok (resolve_features v).
Proof.
  unfold resolve_features.
  assert (Hv : 0 <= Z.land v PX4IO_P_SETUP_FEATURES_VALID < 16).
  { change PX4IO_P_SETUP_FEATURES_VALID with (Z.ones 4). rewrite Z.land_ones by lia.
    by apply Z.mod_pos_bound. }
  generalize dependent (Z.land v PX4IO_P_SETUP_FEATURES_VALID). intros w Hw.
  assert (Hall : forallb (fun k => let w := Z.of_nat k in
    let value := w in
    let value := if ftst value FEATURES_SBUS1_OUT
      then fclr value (Z.lor (Z.lor FEATURES_PWM_RSSI FEATURES_ADC_RSSI) FEATURES_SBUS2_OUT)
      else value in
    let value := if ftst value FEATURES_SBUS2_OUT
      then fclr value (Z.lor (Z.lor FEATURES_PWM_RSSI FEATURES_ADC_RSSI) FEATURES_SBUS1_OUT)
      else value in
    let value := if ftst value FEATURES_ADC_RSSI
      then fclr value (Z.lor (Z.lor FEATURES_PWM_RSSI FEATURES_SBUS1_OUT) FEATURES_SBUS2_OUT)
      else value in
    let value := if ftst value FEATURES_PWM_RSSI
      then fclr value (Z.lor (Z.lor FEATURES_ADC_RSSI FEATURES_SBUS1_OUT) FEATURES_SBUS2_OUT)
      else value in
    (value =? 0) || (value =? 1) || (value =? 2) || (value =? 4) || (value =? 8)) (seq 0 16)
    = true) by (vm_compute; reflexivity).
  rewrite forallb_forall in Hall. specialize (Hall (Z.to_nat w)).
  rewrite Z2Nat.id in Hall by lia. specialize (Hall ltac:(apply in_seq; lia)).
  cbv zeta in Hall |- *. unfold features_ok. set (r := if ftst _ FEATURES_PWM_RSSI then _ else _) in *.
  clearbody r. lia.
Qed.

Section RegsProofs.
Context (group : Z -> Z) (rate_ok : Z -> Z -> bool) (adc : Z -> Z).

Abbreviation configure := (pwm_configure_rates group rate_ok).

Lemma safe_rates_apply n : forall g map s, safe s (rates_apply group rate_ok n g map s).
Proof.
  induction n as [|n IH]; intros g map s; simpl; [reflexivity|].
  destruct (group g =? 0); [apply IH|]. etransitivity; [|apply IH].
  set (s1 := emit _ s). transitivity s1; [by apply safe_pages|].
  destruct (rate_ok g _); [reflexivity|]. by apply safe_or.
Qed.

Lemma safe_setup i v s :
  0 <= i < 29 -> i <> PX4IO_P_SETUP_ARMING -> is_u16 v -> setup_ok i v -> safe s (rset SETUP i v s).
Proof.
  intros Hi Hne Hv Hok. apply safe_rset; [done|]. intros _. split; [by split|]. by intros _ ?.
Qed.

Lemma safe_configure map d a s :
  0 <= map < 256 -> 25 <= d <= 400 -> a = 0 \/ 25 <= a <= 400 ->
  safe s (configure map d a s).
Proof.
  intros Hm Hd Ha. unfold pwm_configure_rates. destruct (rates_preflight group 8 0 map);
    [|by apply safe_or].
  etransitivity; [apply safe_rates_apply|].
  do 3 (etransitivity; [|apply safe_setup; [done|done|unfold is_u16; lia|];
    unfold setup_ok; repeat split; intros; try done; lia]).
  reflexivity.
Qed.

Lemma ftst_lor x y m : ftst (Z.lor x y) m = ftst x m || ftst y m.
Proof.
  unfold ftst. rewrite Z.land_lor_distr_l.
  destruct (Z.eqb_spec (Z.land x m) 0) as [->|E]; [done|].
  destruct (Z.eqb_spec (Z.lor (Z.land x m) (Z.land y m)) 0) as [E0|]; [|done].
  by apply Z.lor_eq_0_iff in E0 as [? _].
Qed.

Lemma ftst_land_self y m : ftst (Z.land y m) m = ftst y m.
Proof. unfold ftst. by rewrite <- Z.land_assoc, Z.land_diag. Qed.

Lemma safe_arming value s : is_u16 value -> safe s (set_arming value s).
Proof.
  intros Hv. unfold set_arming. set (s1 := if ftst _ ARMING_RC_HANDLING_DISABLED then _ else s).
  assert (H1 : safe s s1) by (subst s1; case_match; [by apply safe_or | reflexivity]).
  etransitivity; [exact H1|]. clearbody s1. apply safe_rset; [done|]. intros Hs.
  assert (Hu : is_u16 (r_setup_arming s1)) by (by apply ok_u16).
  assert (Hb : forall x, bits_in (Z.land x PX4IO_P_SETUP_ARMING_VALID) PX4IO_P_SETUP_ARMING_VALID).
  { intros x. unfold bits_in. by rewrite <- Z.land_assoc, Z.land_diag. }
  assert (Hc : forall x m, bits_in m PX4IO_P_SETUP_ARMING_VALID ->
            Z.land (Z.land x m) PX4IO_P_SETUP_ARMING_VALID = Z.land x m).
  { intros x m Hm. rewrite <- Z.land_assoc. by rewrite Hm. }
  unfold arming_is. split.
  - split; [repeat case_match; repeat first [apply fset_u16 | apply land_u16 | done]|].
    split; [done|]. split; [intros _|done]. unfold bits_in in *.
    case_match; rewrite !Z.land_lor_distr_l, !Hc, ?Hb by done; done.
  - intros _ _ Ht. rewrite Ht, !ftst_lor, !ftst_land_self, Ht, orb_true_r.
    split; [done|]. intros Hf. by rewrite Hf, !orb_true_r.
Qed.

Lemma safe_set_setup now offset value s :
  0 <= offset -> is_u16 value -> safe s (set_setup group rate_ok now offset value s).2.
Proof.
  intros Ho Hv Hs. revert Hs. unfold set_setup.
  assert (Hold : regs_ok s ->
    0 <= r_setup_pwm_rates s < 256 /\ 25 <= r_setup_pwm_defaultrate s <= 400
    /\ (r_setup_pwm_altrate s = 0 \/ 25 <= r_setup_pwm_altrate s <= 400)).
  { intros Hs. pose proof (ok_setup PX4IO_P_SETUP_PWM_RATES s Hs ltac:(done)) as (_ & _ & H2 & _).
    pose proof (ok_setup PX4IO_P_SETUP_PWM_DEFAULTRATE s Hs ltac:(done)) as (_ & _ & _ & H3 & _).
    pose proof (ok_setup PX4IO_P_SETUP_PWM_ALTRATE s Hs ltac:(done)) as (_ & _ & _ & _ & H4 & _).
    auto. }
  assert (Hplain : forall i v s, 14 <= i < 29 -> is_u16 v -> safe s (rset SETUP i v s)).
  { intros i v t Hi Hw. apply safe_setup; [lia|unfold PX4IO_P_SETUP_ARMING; lia|done|].
    unfold setup_ok, PX4IO_P_SETUP_FEATURES, PX4IO_P_SETUP_ARMING, PX4IO_P_SETUP_PWM_RATES,
      PX4IO_P_SETUP_PWM_DEFAULTRATE, PX4IO_P_SETUP_PWM_ALTRATE, PX4IO_P_SETUP_RC_THR_FAILSAFE_US.
    do 5 (split; [intros ?; lia|]). intros ?; lia. }
  assert (Hc : 25 <= clamp_rate value <= 400) by apply clamp_rate_range.
  assert (Hland : forall m, is_u16 (Z.land value m)) by (intros; by apply land_u16).
  pose proof (resolve_features_ok value) as Hf. pose proof (land_255 value) as Hm.
  intros Hs. specialize (Hold Hs) as (H2 & H3 & H4). revert Hs.
  match goal with |- regs_ok s -> regs_ok ?t /\ _ => change (safe s t) end.
  destruct (Z.eqb_spec offset PX4IO_P_SETUP_FEATURES) as [->|].
  { cbn [snd]. etransitivity; [|apply safe_setup; [done|done|unfold features_ok, is_u16 in *; lia|]].
    - by apply safe_pages.
    - unfold setup_ok. by repeat split. }
  destruct (Z.eqb_spec offset PX4IO_P_SETUP_ARMING) as [->|]; [by apply safe_arming|].
  destruct (Z.eqb_spec offset PX4IO_P_SETUP_PWM_RATES) as [->|]; [by apply safe_configure|].
  destruct (Z.eqb_spec offset PX4IO_P_SETUP_PWM_DEFAULTRATE) as [->|]; [by apply safe_configure|].
  destruct (Z.eqb_spec offset PX4IO_P_SETUP_PWM_ALTRATE) as [->|].
  { apply safe_configure; [done|done|]. destruct (value =? 0); [by left | by right]. }
  destruct (Z.eqb_spec offset PX4IO_P_SETUP_SET_DEBUG) as [->|].
  { apply safe_setup; [done|done|done|]. unfold setup_ok. by repeat split. }
  destruct (Z.eqb_spec offset PX4IO_P_SETUP_REBOOT_BL) as [->|].
  { destruct (status_is FLAGS_SAFETY_OFF s); [reflexivity|].
    destruct (negb (value =? PX4IO_REBOOT_BL_MAGIC)); [reflexivity | by apply safe_pages]. }
  destruct (Z.eqb_spec offset PX4IO_P_SETUP_DSM) as [->|]; [by apply safe_pages|].
  destruct (Z.eqb_spec offset PX4IO_P_SETUP_FORCE_SAFETY_ON) as [->|].
  { destruct (_ =? _); [by apply safe_clear | reflexivity]. }
  destruct (Z.eqb_spec offset PX4IO_P_SETUP_FORCE_SAFETY_OFF) as [->|].
  { destruct (_ =? _); [by apply safe_or | reflexivity]. }
  destruct (Z.eqb_spec offset PX4IO_P_SETUP_RC_THR_FAILSAFE_US) as [->|].
  { destruct (Z.ltb_spec 650 value), (Z.ltb_spec value 2350); try reflexivity.
    apply safe_setup; [done|done|done|]. unfold setup_ok. repeat split; intros; try done. by right. }
  destruct (Z.eqb_spec offset PX4IO_P_SETUP_SBUS_RATE) as [->|].
  { transitivity (rset SETUP PX4IO_P_SETUP_SBUS_RATE value s); [by apply Hplain|].
    by apply safe_pages. }
  destruct (Z.eqb_spec offset PX4IO_P_SETUP_THR_MDL_FAC) as [->|].
  { transitivity (set_update_thrust true s); [by apply safe_pages | by apply Hplain]. }
  match goal with |- context [if ?b then _ else _] => destruct b eqn:Hb end; [|reflexivity].
  apply Hplain; [|done].
  unfold PX4IO_P_SETUP_PWM_REVERSE, PX4IO_P_SETUP_SCALE_YAW, PX4IO_P_SETUP_MOTOR_SLEW_MAX,
    PX4IO_P_SETUP_AIRMODE, PX4IO_P_SETUP_THERMAL, PX4IO_P_SETUP_ENABLE_FLIGHTTERMINATION in Hb. lia.
Qed.

Lemma safe_set_status offset value s :
  is_u16 value -> safe s (set_status offset value s).2.
Proof.
  intros Hv. unfold set_status. destruct (_ =? _); [by apply safe_clear|].
  destruct (_ =? _); [|reflexivity]. cbn [snd]. set (s1 := if ftst value FLAGS_MIXER_OK then _ else _).
  assert (H1 : safe s s1).
  { subst s1. destruct (ftst value FLAGS_MIXER_OK); [by apply safe_or|].
    destruct (negb _); [by apply safe_plain | reflexivity]. }
  etransitivity; [exact H1|]. destruct (status_is FLAGS_MIXER_OK s1); [|reflexivity].
  apply safe_upd. intros (_ & _ & Hm). by apply upd_other.
Qed.

Lemma safe_rc_options base value s :
  0 <= base -> base + 6 <= 108 -> is_u16 value -> safe s (set_rc_options base value s).
Proof.
  intros Hb Hb6 Hv. unfold set_rc_options, PX4IO_P_RC_CONFIG_OPTIONS.
  assert (Hi : 0 <= base + 5 < Z.of_nat (page_size RC_CONFIG)) by (simpl; lia).
  set (s1 := reg_or STATUS _ _ s). set (s2 := reg_clear SETUP _ _ s1). set (s3 := rset RC_CONFIG _ _ s2).
  assert (H3 : safe s s3).
  { transitivity s1; [by apply safe_or|]. transitivity s2; [by apply safe_arming_clear|].
    apply safe_plain; [done|done|]. by apply fclr_u16, land_u16. }
  etransitivity; [exact H3|]. destruct (ftst _ OPTIONS_ENABLED); [|reflexivity].
  destruct (negb _); [by apply safe_clear|]. destruct (negb _); [by apply safe_or | reflexivity].
Qed.

Lemma safe_rc_config offset value s :
  0 <= offset -> is_u16 value -> safe s (set_rc_config offset value s).2.
Proof.
  intros Ho Hv. unfold set_rc_config. destruct (status_is _ s); [reflexivity|].
  unfold PX4IO_P_RC_CONFIG_STRIDE, PX4IO_RC_INPUT_CHANNELS, PX4IO_P_RC_CONFIG_OPTIONS.
  pose proof (Z.div_mod offset 6). pose proof (Z.mod_pos_bound offset 6).
  assert (0 <= offset / 6) by (apply Z.div_pos; lia).
  destruct (Z.leb_spec 18 (offset / 6)); [reflexivity|].
  set (s1 := rset RC_CONFIG _ _ s). intros Hs.
  assert (Hs1 : safe s s1).
  { apply safe_plain; [done | simpl; lia|]. apply land_u16, ok_u16; [done | simpl; lia]. }
  revert Hs. match goal with |- regs_ok s -> regs_ok ?t /\ _ => change (safe s t) end.
  etransitivity; [exact Hs1|]. destruct (_ <=? _); [apply safe_plain; [done | simpl; lia | done]|].
  destruct (_ =? _); [apply safe_rc_options; [lia | lia | done] | reflexivity].
Qed.

Lemma safe_set_one now page offset value s :
  0 <= offset -> is_u16 value -> safe s (registers_set_one group rate_ok now page offset value s).2.
Proof.
  intros Ho Hv. unfold registers_set_one.
  destruct (page =? _); [by apply safe_set_status|].
  destruct (page =? _); [by apply safe_set_setup|].
  destruct (page =? _); [by apply safe_rc_config|].
  destruct (page =? _); [|reflexivity]. simpl. destruct (offset =? 0); [by apply safe_pages | reflexivity].
Qed.

Lemma safe_set_each now page values : forall offset s,
  0 <= offset -> Forall is_u16 values ->
  safe s (set_each group rate_ok now page offset values s).2.
Proof.
  induction values as [|v values IH]; intros offset s Ho Hv; simpl; [reflexivity|].
  apply Forall_cons_1 in Hv as [Hv Hvs].
  pose proof (safe_set_one now page offset v s Ho Hv) as H1.
  destruct (registers_set_one _ _ _ _ _ _ _) as [rv s1]. simpl in H1.
  destruct (negb (rv =? 0)); [done|]. etransitivity; [exact H1|]. apply IH; [|done].
  apply u8_range.
Qed.

Lemma safe_registers_set now page offset values s :
  0 <= offset -> Forall is_u16 values ->
  safe s (registers_set group rate_ok now page offset values s).2.
Proof.
  intros Ho Hv. unfold registers_set.
  destruct (page =? _).
  { simpl. unfold set_controls. etransitivity;
      [apply (safe_copy (PX4IO_CONTROL_GROUPS * PX4IO_CONTROL_CHANNELS) (rset CONTROLS)); [intros; by apply safe_plain|done|done]|].
    etransitivity; [by apply (safe_clear STATUS PX4IO_P_STATUS_FLAGS FLAGS_RAW_PWM)|].
    by apply safe_pages. }
  destruct (page =? _).
  { simpl. unfold set_direct_pwm. etransitivity; [apply (safe_copy PX4IO_CONTROL_CHANNELS direct_pwm_one); [|done|done]|].
    { intros o v t Ho' Hw. unfold direct_pwm_one. destruct (_ =? _); [reflexivity | by apply safe_plain]. }
    set (s1 := copy_regs _ _ _ _ _). transitivity (set_fmu_time now s1); [by apply safe_pages|].
    etransitivity; [by apply (safe_or STATUS PX4IO_P_STATUS_FLAGS FLAGS_RAW_PWM)|].
    by apply safe_pages. }
  destruct (page =? _); [by apply safe_copy; auto using safe_failsafe_one|].
  destruct (page =? _).
  { apply safe_copy; [|done|done]. intros. apply safe_clamp_one; try done. }
  destruct (page =? _).
  { apply safe_copy; [|done|done]. intros. apply safe_clamp_one; try done. }
  destruct (page =? _).
  { simpl. unfold set_trim_pwm. etransitivity;
      [apply (safe_copy PX4IO_SERVO_COUNT (rset CTRIM)); [intros; by apply safe_plain|done|done]|].
    by apply safe_pages. }
  destruct (page =? _).
  { simpl. unfold set_disarmed_pwm. etransitivity;
      [apply (safe_copy PX4IO_SERVO_COUNT disarmed_one); [apply safe_disarmed_one|done|done]|].
    destruct (all_disarmed_off _ _); [by apply safe_arming_clear | by apply safe_arming_or]. }
  destruct (page =? _); [apply safe_handle_text|].
  apply safe_set_each; [done|]. by apply Forall_take.
Qed.
End RegsProofs.

Lemma upds_failsafe s s' : star upd s s' -> regs_ok s -> failsafe_ok s -> failsafe_ok s'.
Proof.
  induction 1 as [|s1 s2 s3 H12 H23 IH]; intros Hs H; [done|].
  apply IH; [by eapply upd_ok | by apply (upd_failsafe s1)].
Qed.

Lemma upds_latched s s' :
  star upd s s' -> regs_ok s -> latched (r_setup_arming s) (r_setup_arming s').
Proof.
  induction 1 as [|s1 s2 s3 H12 H23 IH]; intros Hs; [reflexivity|].
  etransitivity; [by apply upd_latched|]. apply IH. by eapply upd_ok.
Qed.

(** * Properties *)

Section RegsProperties.
Context (group : Z -> Z) (rate_ok : Z -> Z -> bool) (adc : Z -> Z).

(** One write request of the FMU, of any page, offset and values. *)
Definition reg_step (s s' : io) : Prop :=
  exists now page offset values,
    is_u8 offset /\ Forall is_u16 values
    /\ s' = (registers_set group rate_ok now page offset values s).2.

Lemma step_safe s s' : reg_step s s' -> safe s s'.
Proof.
  intros (now & page & offset & values & Ho & Hv & ->). apply safe_registers_set; [|done].
  unfold is_u8 in Ho. lia.
Qed.

Lemma steps_safe s s' : star reg_step s s' -> safe s s'.
Proof.
  induction 1 as [|s1 s2 s3 H12 _ IH]; [reflexivity|].
  etransitivity; [by apply step_safe | done].
Qed.

(** No sequence of register writes, whatever pages, offsets and values the
    FMU sends, takes the registers out of their legal values: PWM minimum in
    [90, 1600], maximum in [200, 2500], failsafe and disarmed values 0 or in
    [90, 2500], the rates in [25, 400] Hz (or oneshot), only defined arming
    bits, at most one of the conflicting features, and the mixer text always
    terminated inside its buffer.  Every array keeps its length: no write is
    out of bounds. *)
Theorem registers_invariant s s' :
  regs_ok s -> star reg_step s s' -> regs_ok s' /\ (failsafe_ok s -> failsafe_ok s').
Proof.
  intros Hs Hst. destruct (steps_safe s s' Hst Hs) as [Hs' Hu]. split; [done | by apply upds_failsafe].
Qed.

(** The failsafe latch.  Once termination failsafe has been enabled no
    sequence of register writes can disable it, and a forced failsafe set under
    it can never be cleared again. *)
Theorem failsafe_latched s s' :
  regs_ok s -> star reg_step s s' -> latched (r_setup_arming s) (r_setup_arming s').
Proof.
  intros Hs Hst. destruct (steps_safe s s' Hst Hs) as [_ Hu]. by apply upds_latched.
Qed.

Lemma each_frozen now values : forall offset s,
  status_is FLAGS_SAFETY_OFF s = true ->
  set_each group rate_ok now PX4IO_PAGE_RC_CONFIG offset values s = (0, s).
Proof.
  induction values as [|v values IH]; intros offset s Hs; simpl; [done|].
  unfold registers_set_one. simpl. unfold set_rc_config. rewrite Hs. simpl. by apply IH.
Qed.

(** While the safety is off (outputs may be live) the dangerous writes do
    nothing: the RC configuration and the scheduled reboot cannot change, and
    while the FMU is armed as well a mixer upload is refused without touching
    any state. *)
Theorem safety_off_lockout (now offset : Z) (values : list Z) (s : io) :
  status_is FLAGS_SAFETY_OFF s = true ->
  registers_set group rate_ok now PX4IO_PAGE_RC_CONFIG offset values s = (0, s)
  /\ (forall v, registers_set group rate_ok now PX4IO_PAGE_SETUP PX4IO_P_SETUP_REBOOT_BL [v] s = (0, s))
  /\ (arming_is ARMING_FMU_ARMED s = true ->
      registers_set group rate_ok now PX4IO_PAGE_MIXERLOAD offset values s = (1, s)).
Proof.
  intros Hs. split; [|split].
  - unfold registers_set. simpl. by apply each_frozen.
  - intros v. unfold registers_set. simpl. unfold registers_set_one, set_setup. simpl. by rewrite Hs.
  - intros Ha. unfold registers_set. simpl. unfold interrupt_mixer_handle_text. by rewrite Hs, Ha.
Qed.

(** The configuration of an RC channel. *)
Definition rc_conf (channel i : Z) (s : io) : Z :=
  rget RC_CONFIG (channel * PX4IO_P_RC_CONFIG_STRIDE + i) s.

Definition rc_enabled (channel : Z) (s : io) : Prop :=
  ftst (rc_conf channel PX4IO_P_RC_CONFIG_OPTIONS s) OPTIONS_ENABLED = true.

Definition rc_sane (channel : Z) (s : io) : Prop :=
  500 <= rc_conf channel PX4IO_P_RC_CONFIG_MIN s <= rc_conf channel PX4IO_P_RC_CONFIG_CENTER s
  /\ rc_conf channel PX4IO_P_RC_CONFIG_CENTER s <= rc_conf channel PX4IO_P_RC_CONFIG_MAX s <= 2500
  /\ rc_conf channel PX4IO_P_RC_CONFIG_DEADZONE s <= 500
  /\ (rc_conf channel PX4IO_P_RC_CONFIG_ASSIGNMENT s < PX4IO_RC_MAPPED_CONTROL_CHANNELS
      \/ rc_conf channel PX4IO_P_RC_CONFIG_ASSIGNMENT s = PX4IO_P_RC_CONFIG_ASSIGNMENT_MODESWITCH).

Lemma config_errors_sane conf :
  config_errors conf = 0 -> conf PX4IO_P_RC_CONFIG_ASSIGNMENT <> 255 ->
  500 <= conf PX4IO_P_RC_CONFIG_MIN <= conf PX4IO_P_RC_CONFIG_CENTER
  /\ conf PX4IO_P_RC_CONFIG_CENTER <= conf PX4IO_P_RC_CONFIG_MAX <= 2500
  /\ conf PX4IO_P_RC_CONFIG_DEADZONE <= 500
  /\ (conf PX4IO_P_RC_CONFIG_ASSIGNMENT < PX4IO_RC_MAPPED_CONTROL_CHANNELS
      \/ conf PX4IO_P_RC_CONFIG_ASSIGNMENT = PX4IO_P_RC_CONFIG_ASSIGNMENT_MODESWITCH).
Proof.
  unfold config_errors. intros H Ha.
  destruct (Z.eqb_spec (conf PX4IO_P_RC_CONFIG_ASSIGNMENT) 255); [done|].
  destruct (Z.leb_spec PX4IO_RC_MAPPED_CONTROL_CHANNELS (conf PX4IO_P_RC_CONFIG_ASSIGNMENT)),
    (Z.eqb_spec (conf PX4IO_P_RC_CONFIG_ASSIGNMENT) PX4IO_P_RC_CONFIG_ASSIGNMENT_MODESWITCH);
    cbn [negb andb] in H; repeat case_match; lia.
Qed.

(** The write that may enable an RC channel checks it: after the OPTIONS
    register of a channel has been written with the safety on, the channel is
    enabled only if its configuration is ordered, in range and mapped. *)
Theorem rc_enable_checked (channel value : Z) (s : io) :
  wf s -> 0 <= channel < PX4IO_RC_INPUT_CHANNELS -> status_is FLAGS_SAFETY_OFF s = false ->
  let s' := (set_rc_config (channel * PX4IO_P_RC_CONFIG_STRIDE + PX4IO_P_RC_CONFIG_OPTIONS) value s).2 in
  rc_enabled channel s' -> rc_sane channel s'.
Proof.
  intros Hs Hch Hsafe. cbn zeta. unfold set_rc_config. rewrite Hsafe.
  unfold PX4IO_P_RC_CONFIG_STRIDE, PX4IO_P_RC_CONFIG_OPTIONS, PX4IO_RC_INPUT_CHANNELS in *.
  assert ((channel * 6 + 5) / 6 = channel) as -> by (rewrite Z.div_add_l by lia; change (5 / 6) with 0; lia).
  destruct (Z.leb_spec 18 channel); [lia|].
  replace (channel * 6 + 5 - channel * 6) with 5 by lia. cbn [snd].
  change (5 <=? PX4IO_P_RC_CONFIG_ASSIGNMENT) with false. change (5 =? 5) with true. cbn [snd].
  set (s1 := rset RC_CONFIG _ _ s).
  assert (H1 : wf s1) by (apply wf_rset; [done|]; by apply land_u16, rget_u16).
  clearbody s1. unfold set_rc_options. set (v := Z.land value _).
  set (s2 := reg_clear SETUP _ _ _). assert (H2 : wf s2).
  { apply wf_reg_clear. by apply wf_reg_or. }
  clearbody s2. set (s3 := rset RC_CONFIG _ _ s2).
  unfold PX4IO_P_RC_CONFIG_OPTIONS in *.
  assert (Hi : 0 <= channel * 6 + 5 < Z.of_nat (page_size RC_CONFIG)) by (simpl; lia).
  assert (H5 : rget RC_CONFIG (channel * 6 + 5) s3 = fclr v OPTIONS_ENABLED)
    by (apply rget_rset_same; [apply H2 | done]).
  unfold rc_enabled, rc_sane, rc_conf, PX4IO_P_RC_CONFIG_STRIDE, PX4IO_P_RC_CONFIG_OPTIONS.
  destruct (ftst v OPTIONS_ENABLED); [|by rewrite H5, ftst_fclr_same].
  destruct (Z.eqb_spec (config_errors (fun i => rget RC_CONFIG (channel * 6 + i) s3)) 0) as [E|E];
    cbn [negb]; [|unfold reg_clear; by rewrite rget_rset_page, H5, ftst_fclr_same].
  destruct (Z.eqb_spec (rget RC_CONFIG (channel * 6 + PX4IO_P_RC_CONFIG_ASSIGNMENT) s3) 255)
    as [Ea|Ea]; cbn [negb]; [by rewrite H5, ftst_fclr_same|].
  intros _. unfold reg_or. unfold PX4IO_P_RC_CONFIG_ASSIGNMENT, PX4IO_P_RC_CONFIG_MIN,
    PX4IO_P_RC_CONFIG_CENTER, PX4IO_P_RC_CONFIG_MAX, PX4IO_P_RC_CONFIG_DEADZONE in *.
  rewrite !rget_rset_index by lia.
  apply (config_errors_sane (fun i => rget RC_CONFIG (channel * 6 + i) s3)); done.
Qed.

Lemma fx_rset p i v s : fx (rset p i v s) = fx s.
Proof. done. Qed.

(** The rates handed to the PWM driver are the ones the registers held
    before the write: [pwm_configure_rates] reads the rate registers, which it
    only updates at the end, and never uses its own arguments for the driver. *)
Theorem configure_uses_old_rates (map d a : Z) (s : io) :
  exists l, fx (pwm_configure_rates group rate_ok map d a s) = fx s ++ l
    /\ Forall (fun e => exists g, e = FxRate g (r_setup_pwm_defaultrate s)
                             \/ e = FxRate g (r_setup_pwm_altrate s)) l.
Proof.
  assert (Happ : forall n g t,
    exists l, fx (rates_apply group rate_ok n g map t) = fx t ++ l
      /\ Forall (fun e => exists g, e = FxRate g (r_setup_pwm_defaultrate t)
                               \/ e = FxRate g (r_setup_pwm_altrate t)) l).
  { induction n as [|n IH]; intros g t; simpl; [exists []; by rewrite app_nil_r|].
    destruct (group g =? 0); [apply IH|].
    set (rate := if negb (Z.land map (group g) =? 0) then _ else _).
    set (t1 := if rate_ok g rate then _ else _).
    destruct (IH (g + 1) t1) as (l & Hl & Hf).
    assert (Hfx : fx t1 = fx t ++ [FxRate g rate]) by (subst t1; by destruct (rate_ok g rate)).
    assert (Hd : r_setup_pwm_defaultrate t1 = r_setup_pwm_defaultrate t
                 /\ r_setup_pwm_altrate t1 = r_setup_pwm_altrate t)
      by (subst t1; by destruct (rate_ok g rate)).
    destruct Hd as [Hd Ha]. rewrite Hd, Ha in Hf.
    exists (FxRate g rate :: l). rewrite Hl, Hfx, <- app_assoc. split; [done|].
    constructor; [|done]. exists g. subst rate. destruct (negb _); auto. }
  unfold pwm_configure_rates. destruct (rates_preflight group 8 0 map).
  - destruct (Happ 8%nat 0 s) as (l & Hl & Hf). exists l. split; [|exact Hf].
    rewrite !fx_rset. exact Hl.
  - exists []. by rewrite app_nil_r.
Qed.

Lemma wf_select_page page s p s' :
  wf s -> (forall c, is_u16 (adc c)) -> select_page group adc page s = Some (p, s') -> wf s'.
Proof.
  intros Hs Hadc Hp.
  assert (Hz : wf (rzero SCRATCH s)) by (by apply wf_rzero).
  assert (Hg : forall n i t, wf t -> wf (rate_groups group n i t)).
  { induction n as [|n IH]; intros i t Ht; simpl; [done|]. apply IH, wf_rset; [done|apply u16_range]. }
  unfold select_page in Hp.
  repeat match type of Hp with (if ?b then _ else _) = _ => destruct b end; simplify_eq; try done.
  - unfold refresh_status. repeat case_match; repeat apply wf_rset; done || apply u16_range.
  - unfold raw_adc. by repeat apply wf_rset.
  - by apply Hg.
Qed.

Lemma wf_registers_get page offset s :
  wf s -> (forall c, is_u16 (adc c)) ->
  wf (registers_get group adc page offset s).2
  /\ Forall is_u16 (default [] (registers_get group adc page offset s).1).
Proof.
  intros Hs Hadc. unfold registers_get.
  destruct (select_page group adc page s) as [[p s1]|] eqn:E; [|split; [done | by apply Forall_nil_2]].
  pose proof (wf_select_page page s p s1 Hs Hadc E) as H1.
  destruct (_ <=? _); simpl; (split; [done|]); [by apply Forall_nil_2|]. apply Forall_drop, H1.
Qed.

(** A register read never leaves its page: whatever page and offset are
    asked for, the reply is an error or a non-empty slice of one page, from the
    offset to the page's end. *)
Theorem registers_get_in_page (page offset : Z) (s : io) :
  wf s -> 0 <= offset ->
  (forall c, is_u16 (adc c)) ->
  let r := registers_get group adc page offset s in
  match r.1 with
  | None => True
  | Some l => exists p, offset < Z.of_nat (page_size p)
      /\ length l = (page_size p - Z.to_nat offset)%nat /\ Forall is_u16 l
      /\ (forall k, (k < length l)%nat -> l !! k = Some (rget p (offset + Z.of_nat k) r.2))
  end.
Proof.
  intros Hs Ho Hadc. cbn zeta. unfold registers_get.
  destruct (select_page group adc page s) as [[p s1]|] eqn:E; [|done].
  destruct (wf_select_page page s p s1 Hs Hadc E p) as [Hl Hf].
  destruct (Z.leb_spec (Z.of_nat (page_size p)) offset); [done|]. simpl.
  exists p. rewrite length_drop, Hl. split; [done|]. split; [done|].
  split; [by apply Forall_drop|]. intros k Hk. rewrite lookup_drop. unfold rget, aget.
  cbn [pages set_last]. replace (Z.to_nat (offset + Z.of_nat k)) with (Z.to_nat offset + k)%nat by lia.
  destruct (lookup_lt_is_Some_2 (pages s1 p) (Z.to_nat offset + k)) as [v ->]; [lia | done].
Qed.
(** Enabling a channel is not the last word.  The step meant to disable a
    channel before its configuration changes keeps exactly the enable bit, so
    an enabled channel stays enabled whatever a later write puts in its
    configuration. *)
Theorem rc_config_stays_enabled (channel index value : Z) (s : io) :
  wf s -> 0 <= channel < PX4IO_RC_INPUT_CHANNELS -> 0 <= index <= PX4IO_P_RC_CONFIG_ASSIGNMENT ->
  status_is FLAGS_SAFETY_OFF s = false -> rc_enabled channel s ->
  let s' := (set_rc_config (channel * PX4IO_P_RC_CONFIG_STRIDE + index) value s).2 in
  rc_enabled channel s' /\ rc_conf channel index s' = value.
Proof.
  intros Hs Hch Hi Hsafe Hen. cbn zeta. unfold set_rc_config. rewrite Hsafe.
  unfold PX4IO_P_RC_CONFIG_STRIDE, PX4IO_P_RC_CONFIG_OPTIONS, PX4IO_RC_INPUT_CHANNELS,
    PX4IO_P_RC_CONFIG_ASSIGNMENT, rc_enabled, rc_conf, PX4IO_P_RC_CONFIG_STRIDE,
    PX4IO_P_RC_CONFIG_OPTIONS in *.
  assert ((channel * 6 + index) / 6 = channel) as ->
    by (rewrite Z.div_add_l, (Z.div_small index) by lia; lia).
  destruct (Z.leb_spec 18 channel); [lia|].
  replace (channel * 6 + index - channel * 6) with index by lia. cbn [snd].
  destruct (Z.leb_spec index 4); [|lia]. cbn [snd].
  rewrite rget_rset_index by lia. rewrite rget_rset_same by (first [apply Hs | simpl; lia]).
  rewrite ftst_land_self. split; [done|].
  apply rget_rset_same; [|simpl; lia]. by apply wf_rset; [|apply land_u16, rget_u16].
Qed.
End RegsProperties.

(** * Witnesses *)

Lemma regs_ok_init : regs_ok (io_init 330).
Proof.
  split; [|split].
  - by intros [].
  - assert (Hrep : forall n v i, 0 <= i < Z.of_nat n -> aget (replicate n v) i = v).
    { intros n v i Hi. unfold aget. rewrite lookup_replicate_2 by lia. done. }
    intros p i Hi. split; [apply rget_u16, wf_io_init | intros Hp].
    split; [apply rget_u16, wf_io_init|]. destruct p; try exact I; try done; unfold rget, io_init, page_init; cbn [pages].
    + refine (conj _ (conj _ (conj _ (conj _ (conj _ _))))); intros ->.
      * vm_compute. tauto.
      * reflexivity.
      * split; [discriminate | reflexivity].
      * split; discriminate.
      * right. split; discriminate.
      * left. reflexivity.
    + rewrite Hrep by exact Hi. by vm_compute.
    + rewrite Hrep by exact Hi. by vm_compute.
    + left. by apply (Hrep 8%nat).
  - vm_compute. intuition discriminate.
Qed.

Section RegsWitnesses.

Let group (g : Z) : Z := if g =? 0 then 0x03 else if g =? 1 then 0xf0 else if g =? 2 then 0x0c else 0.
Let rate_ok (g rate : Z) : bool := true.
Let adc (c : Z) : Z := 2048.
Let s0 := io_init 330.

(** The FMU enables termination failsafe and forces the failsafe, then tries to
    clear both. *)
Let arm := ARMING_TERMINATION_FAILSAFE + ARMING_FORCE_FAILSAFE.
Let s1 := (registers_set group rate_ok 0 PX4IO_PAGE_SETUP 1 [arm] s0).2.
Let s2 := (registers_set group rate_ok 0 PX4IO_PAGE_SETUP 1 [0] s1).2.

Lemma two_writes : star (reg_step group rate_ok) s0 s2.
Proof.
  apply star_step with s1; [|apply star_one].
  - exists 0, PX4IO_PAGE_SETUP, 1, [arm]. repeat constructor; done.
  - exists 0, PX4IO_PAGE_SETUP, 1, [0]. repeat constructor; done.
Qed.

Lemma registers_invariant_witness :
  r_setup_arming s1 = 0x600 /\ regs_ok s2.
Proof.
  split; [reflexivity|].
  exact (proj1 (registers_invariant group rate_ok s0 s2 regs_ok_init two_writes)).
Defined.

Lemma s1_ok : regs_ok s1.
Proof.
  apply (safe_registers_set group rate_ok 0 PX4IO_PAGE_SETUP 1 [arm]);
    [done | by apply Forall_cons_2 | apply regs_ok_init].
Qed.

Lemma failsafe_latched_witness :
  r_setup_arming s1 = 0x600 /\ latched (r_setup_arming s1) (r_setup_arming s2).
Proof.
  split; [reflexivity|]. apply (failsafe_latched group rate_ok); [exact s1_ok|].
  apply star_one. exists 0, PX4IO_PAGE_SETUP, 1, [0]. repeat constructor; done.
Defined.

(** With the safety forced off. *)
Let soff := (registers_set group rate_ok 0 PX4IO_PAGE_SETUP PX4IO_P_SETUP_FORCE_SAFETY_OFF
               [PX4IO_FORCE_SAFETY_MAGIC] s1).2.

Lemma safety_off_lockout_witness :
  registers_set group rate_ok 0 PX4IO_PAGE_RC_CONFIG 5 [1] soff = (0, soff).
Proof. apply (safety_off_lockout group rate_ok 0 5 [1] soff). reflexivity. Defined.

(** Channel 1 is configured and enabled, then its centre is moved to 0. *)
Let sconf := (registers_set group rate_ok 0 PX4IO_PAGE_RC_CONFIG 6 [1000; 1500; 2000; 10; 2] s0).2.
Let sen := (set_rc_config (1 * PX4IO_P_RC_CONFIG_STRIDE + PX4IO_P_RC_CONFIG_OPTIONS) 1 sconf).2.

Lemma wf_regs_ok s : regs_ok s -> wf s.
Proof.
  intros (Hl & Hr & _) p. split; [done|]. apply Forall_lookup_2. intros i x Hx.
  pose proof (lookup_lt_Some _ _ _ Hx) as Hlt. rewrite Hl in Hlt.
  destruct (Hr p (Z.of_nat i)) as [Hu _]; [lia|].
  unfold rget, aget in Hu. by rewrite Nat2Z.id, Hx in Hu.
Qed.

Lemma sconf_wf : wf sconf.
Proof.
  apply wf_regs_ok.
  apply (safe_registers_set group rate_ok 0 PX4IO_PAGE_RC_CONFIG 6 [1000; 1500; 2000; 10; 2]).
  - done.
  - by repeat (apply Forall_cons_2; [done|]).
  - apply regs_ok_init.
Qed.

Lemma sen_wf : wf sen.
Proof.
  apply wf_regs_ok. apply (safe_rc_config 11 1); [done|done|].
  apply (safe_registers_set group rate_ok 0 PX4IO_PAGE_RC_CONFIG 6 [1000; 1500; 2000; 10; 2]).
  - done.
  - by repeat (apply Forall_cons_2; [done|]).
  - apply regs_ok_init.
Qed.

Lemma rc_enable_checked_witness : rc_enabled 1 sen /\ rc_sane 1 sen.
Proof.
  split; [reflexivity|].
  apply (rc_enable_checked 1 1 sconf); [exact sconf_wf | split; [discriminate | reflexivity]
    | reflexivity | reflexivity].
Defined.

Lemma rc_config_stays_enabled_witness :
  let s' := (set_rc_config (1 * PX4IO_P_RC_CONFIG_STRIDE + PX4IO_P_RC_CONFIG_CENTER) 0 sen).2 in
  rc_enabled 1 s' /\ rc_conf 1 PX4IO_P_RC_CONFIG_CENTER s' = 0
  /\ config_errors (fun i => rc_conf 1 i s') = 1.
Proof.
  split; [|split; [|reflexivity]];
    apply (rc_config_stays_enabled 1 PX4IO_P_RC_CONFIG_CENTER 0 sen);
    first [exact sen_wf | reflexivity | split; [discriminate | reflexivity]
          | split; discriminate].
Defined.

Lemma registers_get_in_page_witness :
  (registers_get group adc PX4IO_PAGE_PWM_INFO 30 s0).1 = Some [0; 0]
  /\ match (registers_get group adc PX4IO_PAGE_STATUS 6 s0).1 with
     | None => True
     | Some l => exists p, 6 < Z.of_nat (page_size p)
        /\ length l = (page_size p - Z.to_nat 6)%nat /\ Forall is_u16 l
        /\ (forall k, (k < length l)%nat ->
             l !! k = Some (rget p (6 + Z.of_nat k) (registers_get group adc PX4IO_PAGE_STATUS 6 s0).2))
     end.
Proof.
  split; [reflexivity|].
  apply (registers_get_in_page group adc PX4IO_PAGE_STATUS 6 s0);
    [apply wf_io_init | discriminate | intros c; split; [discriminate | reflexivity]].
Defined.
End RegsWitnesses.
