(* ===== verification/Px4ioSerial.v ===== *)
(** The serial link between the FMU and PX4IO, both ends: the packet format of
    protocol.h, the PX4IO end (serial.c), the request loop of the FMU driver
    (px4io_serial.cpp) and the bus exchange of the STM32H7 port.

    A packet buffer is 68 bytes.  [beyond] is the memory that follows the
    buffer: a header may announce up to 63 registers where the buffer holds 32.
    The DMA channels and the UART are the hardware's: a received byte is stored
    at the next index and counted, the interrupt status is an argument, and a
    reply is the bytes the transmit DMA has still to send. *)

From Stdlib Require Import ZArith Lia.
From stdpp Require Import base list numbers.
From S2P Require Import Prelude Crc Px4io Px4ioRegs.

Local Open Scope Z_scope.

(** * Packets (protocol.h) *)

Definition PKT_MAX_REGS : Z := 32.
Definition PKT_CODE_READ : Z := 0x00.
Definition PKT_CODE_WRITE : Z := 0x40.
Definition PKT_CODE_SUCCESS : Z := 0x00.
Definition PKT_CODE_CORRUPT : Z := 0x40.
Definition PKT_CODE_ERROR : Z := 0x80.
Definition PKT_CODE_MASK : Z := 0xc0.
Definition PKT_COUNT_MASK : Z := 0x3f.

(** [sizeof(struct IOPacket)] *)
Definition packet_size : nat := 68.

(** The fields: [count_code], [crc], [page], [offset], [regs]. *)
Definition PKT_COUNT (p : list Z) : Z := Z.land (aget p 0) PKT_COUNT_MASK.
Definition PKT_CODE (p : list Z) : Z := Z.land (aget p 0) PKT_CODE_MASK.
Definition PKT_SIZE (p : list Z) : nat := 4 + 2 * Z.to_nat (PKT_COUNT p).
Definition pkt_crc (p : list Z) : Z := aget p 1.
Definition pkt_page (p : list Z) : Z := aget p 2.
Definition pkt_offset (p : list Z) : Z := aget p 3.

(** [regs[k]], read through the memory that starts at the packet. *)
Definition pkt_reg (mem : list Z) (k : nat) : Z :=
  aget mem (4 + 2 * Z.of_nat k) + 256 * aget mem (5 + 2 * Z.of_nat k).
Definition pkt_regs (n : nat) (mem : list Z) : list Z := pkt_reg mem <$> seq 0 n.

(** [memcpy(&regs[0], l, 2 * length l)] *)
Definition pkt_copy (l : list Z) (p : list Z) : list Z :=
  take 4 p ++ reg_bytes l ++ drop (4 + 2 * length l) p.

(** The checksum of the bytes the header announces. *)
Definition crc_packet (mem : list Z) : Z := crc8_bytes (take (PKT_SIZE mem) mem).

(** * The PX4IO end (serial.c) *)

(** The bits of the UART status the handlers look at. *)
Record usart_sr := Sr { sr_error : bool; sr_idle : bool }.

Record port := Port {
  dma_packet : list Z;
  rx_count : nat;          (* sizeof(dma_packet) - stm32_dmaresidual(rx_dma) *)
  abort_on_idle : bool;
  breaks : nat;            (* rCR1 |= USART_CR1_SBK *)
  tx_dma : list Z;         (* bytes the transmit DMA has still to send *)
  regs : io
}.

Section Io.
Context (group : Z -> Z) (rate_ok : Z -> Z -> bool) (adc : Z -> Z) (beyond : list Z).

Definition rx_handle_packet (now : Z) (p : list Z) (s : io) : list Z * io :=
  let crc := pkt_crc p in
  let p := aset p 1 0 in
  if negb (crc =? crc_packet (p ++ beyond)) then
    (aset (aset (aset p 0 PKT_CODE_CORRUPT) 2 0xff) 3 0xff, s)
  else if PKT_CODE p =? PKT_CODE_WRITE then
    let '(rv, s) := registers_set group rate_ok now (pkt_page p) (pkt_offset p)
                      (pkt_regs (Z.to_nat (PKT_COUNT p)) (p ++ beyond)) s in
    (aset p 0 (if negb (rv =? 0) then PKT_CODE_ERROR else PKT_CODE_SUCCESS), s)
  else if PKT_CODE p =? PKT_CODE_READ then
    match registers_get group adc (pkt_page p) (pkt_offset p) s with
    | (None, s) => (aset p 0 PKT_CODE_ERROR, s)
    | (Some registers, s) =>
        let count := Z.of_nat (length registers) in
        let count := if PKT_MAX_REGS <? count then PKT_MAX_REGS else count in
        let count := if PKT_COUNT p <? count then PKT_COUNT p else count in
        (aset (pkt_copy (take (Z.to_nat count) registers) p) 0
              (Z.lor count PKT_CODE_SUCCESS), s)
    end
  else (aset (aset (aset p 0 PKT_CODE_CORRUPT) 2 0xff) 3 0xfe, s).

(** Stops both DMA channels and restarts reception at the buffer's start. *)
Definition dma_reset (st : port) : port :=
  Port (dma_packet st) 0 (abort_on_idle st) (breaks st) [] (regs st).

Definition rx_dma_callback (now : Z) (st : port) : port :=
  let '(p, s) := rx_handle_packet now (dma_packet st) (regs st) in
  let st := dma_reset (Port p (rx_count st) (abort_on_idle st) (breaks st) (tx_dma st) s) in
  let p := aset (dma_packet st) 1 0 in
  let p := aset p 1 (crc_packet (p ++ beyond)) in
  Port p (rx_count st) (abort_on_idle st) (breaks st) (take (PKT_SIZE p) (p ++ beyond)) (regs st).

Definition serial_interrupt (now : Z) (sr : usart_sr) (st : port) : port :=
  let st := if sr_error sr
            then Port (dma_packet st) (rx_count st) true (S (breaks st)) (tx_dma st) (regs st)
            else st in
  if sr_idle sr then
    if abort_on_idle st then
      dma_reset (Port (dma_packet st) (rx_count st) false (breaks st) (tx_dma st) (regs st))
    else
      let length := rx_count st in
      if (length <? 1)%nat || (length <? PKT_SIZE (dma_packet st))%nat then dma_reset st
      else rx_dma_callback now st
  else st.

(** The receive DMA: one byte, and the completion at the buffer's end. *)
Definition rx_byte (now : Z) (st : port) (b : Z) : port :=
  let st := Port (aset (dma_packet st) (Z.of_nat (rx_count st)) b) (S (rx_count st))
              (abort_on_idle st) (breaks st) (tx_dma st) (regs st) in
  if (rx_count st =? packet_size)%nat then rx_dma_callback now st else st.

(** Bytes arrive and the line goes idle. *)
Definition io_receive (now : Z) (bytes : list Z) (st : port) : port :=
  match bytes with
  | [] => st
  | _ => serial_interrupt now (Sr false true) (fold_left (rx_byte now) bytes st)
  end.
End Io.

(** * The FMU end *)

Definition EIO : Z := 5.
Definition EINVAL : Z := 22.
Definition ERROR : Z := -1.

(** ** The bus exchange (stm32h7/px4io_serial.cpp) *)

Inductive dma_status := Inactive | Waiting | Teif | Tcif.
#[export] Instance dma_status_eq_dec : EqDecision dma_status.
Proof. solve_decision. Defined.

Record fmu := Fmu {
  current_packet : list Z;
  frx_count : nat;
  dmar : bool;                    (* reception by DMA is on *)
  rx_dma_status : dma_status;
  completion : nat;               (* the semaphore's count *)
  ftx : list Z
}.

Section Fmu.
Context (beyond : list Z).

Definition exchange_start (f : fmu) : fmu :=
  let p := current_packet f in
  Fmu p 0 true Waiting (completion f) (take (PKT_SIZE p) (p ++ beyond)).

(** [overrun]: the ORE or RXNE bits at this moment. *)
Definition do_rx_dma_callback (overrun : bool) (status : dma_status) (f : fmu) : fmu :=
  if decide (rx_dma_status f = Waiting) then
    Fmu (current_packet f) (frx_count f) false (if overrun then Teif else status)
        (S (completion f)) (ftx f)
  else f.

Definition abort_dma (f : fmu) : fmu :=
  Fmu (current_packet f) (frx_count f) false (rx_dma_status f) (completion f) [].

Definition do_interrupt (sr : usart_sr) (overrun : bool) (f : fmu) : fmu :=
  if sr_error sr then
    if decide (rx_dma_status f = Waiting)
    then do_rx_dma_callback overrun Teif (abort_dma f)
    else f
  else if sr_idle sr then
    if decide (rx_dma_status f = Waiting) then
      let length := frx_count f in
      let stopped := Fmu (current_packet f) (frx_count f) false (rx_dma_status f)
                         (completion f) (ftx f) in
      if (length <? 1)%nat || (length <? PKT_SIZE (current_packet f))%nat
      then do_rx_dma_callback overrun Teif stopped
      else do_rx_dma_callback overrun Tcif stopped
    else f
  else f.

(** The circular receive DMA. *)
Definition frx_byte (f : fmu) (b : Z) : fmu :=
  if dmar f then
    let f := Fmu (aset (current_packet f) (Z.of_nat (frx_count f)) b) (S (frx_count f))
                 (dmar f) (rx_dma_status f) (completion f) (ftx f) in
    if (frx_count f =? packet_size)%nat
    then do_rx_dma_callback false Tcif
           (Fmu (current_packet f) 0 (dmar f) (rx_dma_status f) (completion f) (ftx f))
    else f
  else f.

Definition fmu_receive (bytes : list Z) (f : fmu) : fmu :=
  match bytes with
  | [] => f
  | _ => do_interrupt (Sr false true) false (fold_left frx_byte bytes f)
  end.

(** [sem_timedwait] timed out.  An interrupt taken before the status is reset
    may have posted the semaphore: its count is kept. *)
Definition exchange_timeout (f : fmu) : Z * fmu :=
  let f := abort_dma f in
  (ERROR, Fmu (current_packet f) (frx_count f) (dmar f) Inactive (completion f) (ftx f)).

(** After [sem_timedwait]: it took a completion, or it timed out. *)
Definition exchange_end (f : fmu) : Z * fmu :=
  match completion f with
  | S n =>
      if decide (rx_dma_status f = Teif) then
        (- EIO, Fmu (current_packet f) (frx_count f) (dmar f) Inactive n [])
      else
        let p := aset (current_packet f) 1 0 in
        let ok := (pkt_crc (current_packet f) =? crc_packet (p ++ beyond))
                  && negb (PKT_CODE p =? PKT_CODE_CORRUPT) in
        (if ok then 0 else - EIO, Fmu p (frx_count f) (dmar f) Inactive n (ftx f))
  | O => exchange_timeout f
  end.
End Fmu.

(** ** Requests (px4io_serial.cpp) *)

(** The buffer of a request before its checksum. *)
Definition fill_write (page offset : Z) (values : list Z) : list Z :=
  [Z.lor (Z.of_nat (length values)) PKT_CODE_WRITE; 0; page; offset]
  ++ reg_bytes (values ++ replicate (32 - length values) 0x55aa).
Definition fill_read (page offset count : Z) (buffer : list Z) : list Z :=
  aset (aset (aset (aset buffer 0 (Z.lor count PKT_CODE_READ)) 1 0) 2 page) 3 offset.
Definition set_crc (beyond p : list Z) : list Z := aset p 1 (crc_packet (p ++ beyond)).

Section Driver.
Context {S : Type} (beyond : list Z).
(** The bus exchange: a virtual method of the driver.  It returns its result
    and the buffer. *)
Context (bus_exchange : list Z -> S -> Z * list Z * S).

(** The retry loop; the buffer and the state are those after the last attempt.
    [result] is the value of the last attempt. *)
Fixpoint write_retry (n : nat) (request : list Z) (result : Z) (st : S) : Z * S :=
  match n with
  | O => (result, st)
  | Datatypes.S n =>
      let '(ret, reply, st) := bus_exchange (set_crc beyond request) st in
      if ret =? 0
      then (if PKT_CODE reply =? PKT_CODE_ERROR then - EINVAL else ret, st)
      else write_retry n request ret st
  end.

Definition serial_write (address : Z) (values : list Z) (st : S) : Z * S :=
  let page := u8 (Z.shiftr address 8) in
  let offset := Z.land address 0xff in
  let count := Z.of_nat (length values) in
  if PKT_MAX_REGS <? count then (- EINVAL, st)
  else
    let '(result, st) := write_retry 3 (fill_write page offset values) 0 st in
    (if result =? 0 then count else result, st).

Fixpoint read_retry (n : nat) (page offset count : Z) (buffer : list Z) (result : Z) (st : S)
  : Z * option (list Z) * S :=
  match n with
  | O => (result, None, st)
  | Datatypes.S n =>
      let '(ret, reply, st) :=
        bus_exchange (set_crc beyond (fill_read page offset count buffer)) st in
      if ret =? 0 then
        if PKT_CODE reply =? PKT_CODE_ERROR then (- EINVAL, None, st)
        else if negb (PKT_COUNT reply =? count) then (- EIO, None, st)
        else (ret, Some (pkt_regs (Z.to_nat count) reply), st)
      else read_retry n page offset count reply ret st
  end.

(** The registers copied to the caller, if any. *)
Definition serial_read (address count : Z) (buffer : list Z) (st : S) : Z * option (list Z) * S :=
  let page := u8 (Z.shiftr address 8) in
  let offset := Z.land address 0xff in
  if PKT_MAX_REGS <? count then (- EINVAL, None, st)
  else
    let '(result, values, st) := read_retry 3 page offset count buffer 0 st in
    (if result =? 0 then count else result, values, st).
End Driver.

(** * Packet lemmas *)

(** The bytes of a well-formed packet on the wire. *)
Definition packet_ok (l : list Z) : Prop :=
  (4 <= length l)%nat /\ length l = PKT_SIZE l /\ Forall is_u8 l
  /\ pkt_crc l = crc8_bytes (aset l 1 0).

Lemma aget_app_l l r i : 0 <= i < Z.of_nat (length l) -> aget (l ++ r) i = aget l i.
Proof. intros. unfold aget. by rewrite lookup_app_l by lia. Qed.

Lemma aset_app_l l r i v : 0 <= i < Z.of_nat (length l) -> aset (l ++ r) i v = aset l i v ++ r.
Proof. intros. unfold aset. by rewrite insert_app_l by lia. Qed.

Lemma aget_take l n i : 0 <= i < Z.of_nat n -> aget (take n l) i = aget l i.
Proof. intros. unfold aget. by rewrite lookup_take_lt by lia. Qed.

Lemma aset_take l n i v : 0 <= i -> aset (take n l) i v = take n (aset l i v).
Proof.
  intros. unfold aset. rewrite take_insert. case_decide; [done|].
  apply list_insert_ge. rewrite length_take. lia.
Qed.

Lemma aset_aset l i v w : aset (aset l i v) i w = aset l i w.
Proof. unfold aset. by rewrite list_insert_insert_eq. Qed.

Lemma aset_swap l i j v w :
  0 <= i -> 0 <= j -> i <> j -> aset (aset l i v) j w = aset (aset l j w) i v.
Proof. intros. unfold aset. rewrite list_insert_insert_ne by lia. done. Qed.

Lemma pkt_count_range p : 0 <= PKT_COUNT p < 64.
Proof.
  unfold PKT_COUNT, PKT_COUNT_MASK. change 0x3f with (Z.ones 6). rewrite Z.land_ones by lia.
  by apply Z.mod_pos_bound.
Qed.

Lemma pkt_size_app l r : (0 < length l)%nat -> PKT_SIZE (l ++ r) = PKT_SIZE l.
Proof. intros. unfold PKT_SIZE, PKT_COUNT. by rewrite aget_app_l by lia. Qed.

Lemma pkt_size_aset l i v : 0 < i -> PKT_SIZE (aset l i v) = PKT_SIZE l.
Proof. intros. unfold PKT_SIZE, PKT_COUNT. by rewrite aget_aset_ne by lia. Qed.

Lemma pkt_code_aset l i v : 0 < i -> PKT_CODE (aset l i v) = PKT_CODE l.
Proof. intros. unfold PKT_CODE. by rewrite aget_aset_ne by lia. Qed.

Lemma pkt_count_aset l i v : 0 < i -> PKT_COUNT (aset l i v) = PKT_COUNT l.
Proof. intros. unfold PKT_COUNT. by rewrite aget_aset_ne by lia. Qed.

(** The checksum covers exactly the packet, whatever follows it in memory. *)
Lemma crc_packet_app l r :
  (0 < length l)%nat -> length l = PKT_SIZE l -> crc_packet (l ++ r) = crc8_bytes l.
Proof.
  intros H0 Hl. unfold crc_packet. rewrite pkt_size_app by done.
  by rewrite take_app_le, <- Hl, firstn_all by lia.
Qed.

(** The checksum test of a buffer that starts with the packet [l]. *)
Lemma crc_field_ok l r beyond :
  (4 <= length l)%nat -> length l = PKT_SIZE l ->
  (pkt_crc (l ++ r) =? crc_packet (aset (l ++ r) 1 0 ++ beyond))
  = (pkt_crc l =? crc8_bytes (aset l 1 0)).
Proof.
  intros H4 Hl. unfold pkt_crc. rewrite aget_app_l, aset_app_l, <- app_assoc by lia.
  by rewrite crc_packet_app by (rewrite ?length_aset, ?pkt_size_aset; lia).
Qed.

Lemma packet_ok_set_crc l r :
  (4 <= length l)%nat -> length l = PKT_SIZE l -> Forall is_u8 l -> aget l 1 = 0 ->
  packet_ok (aset l 1 (crc_packet (l ++ r))).
Proof.
  intros H4 Hl Hu H1. rewrite crc_packet_app by (try done; lia).
  assert (E : aset l 1 0 = l).
  { unfold aset. apply list_insert_id. unfold aget in H1.
    destruct (lookup_lt_is_Some_2 l (Z.to_nat 1)) as [x Hx]; [lia|].
    rewrite Hx in *. simpl in H1. by subst. }
  split; [by rewrite length_aset|]. split; [by rewrite length_aset, pkt_size_aset|].
  split; [by apply aset_Forall; [|apply crc8_bytes_u8]|].
  unfold pkt_crc. rewrite aget_aset_eq, aset_aset, E by lia. done.
Qed.

(** The announced part of a buffer whose checksum has been filled in. *)
Lemma packet_ok_frame q beyond :
  (PKT_SIZE q <= length q)%nat -> Forall is_u8 q -> aget q 1 = 0 ->
  packet_ok (take (PKT_SIZE q) (set_crc beyond q)).
Proof.
  intros Hs Hu H1. unfold set_crc. rewrite <- aset_take by lia.
  assert (H4 : (4 <= PKT_SIZE q)%nat) by (unfold PKT_SIZE; lia).
  assert (Hc : crc_packet (q ++ beyond)
               = crc_packet (take (PKT_SIZE q) q ++ drop (PKT_SIZE q) q ++ beyond))
    by (by rewrite app_assoc, take_drop).
  rewrite Hc. apply packet_ok_set_crc.
  - rewrite length_take. lia.
  - rewrite length_take, <- (pkt_size_app (take (PKT_SIZE q) q) (drop (PKT_SIZE q) q)), take_drop;
      [|rewrite length_take]; lia.
  - by apply Forall_take.
  - by rewrite aget_take by lia.
Qed.

(** A byte error after the header byte is detected. *)
Lemma packet_hit l i x :
  packet_ok l -> 1 <= i < Z.of_nat (length l) -> is_u8 x -> x <> aget l i ->
  let l' := aset l i x in
  (4 <= length l')%nat /\ length l' = PKT_SIZE l' /\ Forall is_u8 l'
  /\ pkt_crc l' <> crc8_bytes (aset l' 1 0).
Proof.
  intros (H4 & Hl & Hu & Hc) Hi Hx Hne. cbn zeta.
  split; [by rewrite length_aset|]. split; [by rewrite length_aset, pkt_size_aset by lia|].
  split; [by apply aset_Forall|]. unfold pkt_crc in *.
  destruct (decide (i = 1)) as [->|Hi1].
  - rewrite aget_aset_eq, aset_aset by lia. by rewrite <- Hc.
  - rewrite aget_aset_ne, aset_swap by lia. rewrite Hc. set (m := aset l 1 0) in *.
    assert (Hm : length m = length l) by apply length_aset.
    assert (Hmu : Forall is_u8 m) by (by apply aset_Forall).
    destruct (lookup_lt_is_Some_2 m (Z.to_nat i)) as [y Hy]; [lia|].
    assert (Hy' : aget l i = y).
    { rewrite <- (aget_aset_ne l 1 i 0) by lia. unfold aget. fold m. by rewrite Hy. }
    rewrite <- (take_drop_middle m (Z.to_nat i) y Hy) at 1.
    unfold aset at 1. rewrite insert_take_drop by lia.
    apply crc8_bytes_neq; [by apply Forall_take | by apply Forall_drop | | done | congruence].
    by eapply (Forall_lookup_1 is_u8 m).
Qed.

(** ** Receiving a packet *)

Section Receive.
Context (group : Z -> Z) (rate_ok : Z -> Z -> bool) (adc : Z -> Z) (beyond : list Z).
Abbreviation handle := (rx_handle_packet group rate_ok adc beyond).
Abbreviation callback := (rx_dma_callback group rate_ok adc beyond).

Lemma rx_bytes now l : forall st,
  length (dma_packet st) = packet_size -> (rx_count st + length l < packet_size)%nat ->
  fold_left (rx_byte group rate_ok adc beyond now) l st
  = Port (take (rx_count st) (dma_packet st) ++ l
          ++ drop (rx_count st + length l) (dma_packet st))
         (rx_count st + length l) (abort_on_idle st) (breaks st) (tx_dma st) (regs st).
Proof.
  induction l as [|b l IH]; intros st Hl Hn; simpl.
  { rewrite Nat.add_0_r, take_drop. by destruct st. }
  unfold rx_byte at 2. cbn [rx_count]. simpl in Hn.
  destruct (Nat.eqb_spec (S (rx_count st)) packet_size) as [E|_]; [lia|].
  rewrite IH by (cbn [dma_packet rx_count]; rewrite ?length_aset; done || lia).
  cbn [dma_packet rx_count abort_on_idle breaks tx_dma regs].
  unfold aset. rewrite Nat2Z.id. f_equal; [|lia].
  assert (Hd : drop (S (rx_count st) + length l) (<[rx_count st := b]> (dma_packet st))
               = drop (rx_count st + S (length l)) (dma_packet st)).
  { rewrite drop_insert_lt by lia. f_equal. lia. }
  rewrite Hd. rewrite (take_S_r _ _ b) by (apply list_lookup_insert_eq; lia).
  rewrite take_insert_ge by lia. by rewrite <- app_assoc.
Qed.

(** A port that listens. *)
Definition port_ready (st : port) : Prop :=
  length (dma_packet st) = packet_size /\ Forall is_u8 (dma_packet st)
  /\ rx_count st = 0%nat /\ abort_on_idle st = false /\ tx_dma st = [].

Lemma receive_packet now l st :
  port_ready st -> (4 <= length l)%nat -> length l = PKT_SIZE l -> (length l < packet_size)%nat ->
  io_receive group rate_ok adc beyond now l st
  = callback now (Port (l ++ drop (length l) (dma_packet st)) (length l) false (breaks st) [] (regs st)).
Proof.
  intros (Hp & _ & Hc & Ha & Ht) H4 Hl Hn.
  transitivity (serial_interrupt group rate_ok adc beyond now (Sr false true)
    (fold_left (rx_byte group rate_ok adc beyond now) l st)); [destruct l; [simpl in H4; lia | done]|].
  rewrite rx_bytes by (rewrite ?Hc; done). rewrite Hc, Ha, Ht. unfold serial_interrupt. simpl.
  rewrite pkt_size_app by lia. rewrite <- Hl.
  destruct (Nat.ltb_spec (length l) 1); [lia|]. by rewrite Nat.ltb_irrefl.
Qed.

(** What the callback makes of a handled packet. *)
Lemma callback_reply now st q s :
  handle now (dma_packet st) (regs st) = (q, s) ->
  length q = packet_size -> Forall is_u8 q -> PKT_COUNT q <= PKT_MAX_REGS ->
  callback now st
  = Port (set_crc beyond (aset q 1 0)) 0 (abort_on_idle st) (breaks st)
         (take (PKT_SIZE q) (set_crc beyond (aset q 1 0))) s
  /\ packet_ok (take (PKT_SIZE q) (set_crc beyond (aset q 1 0))).
Proof.
  intros Hh Hl Hu Hc. unfold rx_dma_callback. rewrite Hh.
  cbn [dma_reset dma_packet rx_count abort_on_idle breaks tx_dma regs].
  assert (Hs : (4 <= PKT_SIZE q <= packet_size)%nat)
    by (unfold PKT_SIZE, packet_size, PKT_MAX_REGS in *; lia).
  unfold set_crc. set (c := crc_packet _).
  assert (Hq : PKT_SIZE (aset (aset q 1 0) 1 c) = PKT_SIZE q) by (by rewrite !pkt_size_aset).
  rewrite Hq. split.
  - rewrite take_app_le by (rewrite !length_aset; lia). done.
  - rewrite <- (pkt_size_aset q 1 0) by lia. apply packet_ok_frame.
    + rewrite pkt_size_aset, length_aset by lia. lia.
    + by apply aset_Forall.
    + apply aget_aset_eq. lia.
Qed.
(** *** Handling *)

Definition bad_reply (p : list Z) (o : Z) : list Z :=
  aset (aset (aset (aset p 1 0) 0 PKT_CODE_CORRUPT) 2 0xff) 3 o.

Lemma handle_corrupt now p s :
  (pkt_crc p =? crc_packet (aset p 1 0 ++ beyond)) = false ->
  handle now p s = (bad_reply p 0xff, s).
Proof. intros H. unfold rx_handle_packet. by rewrite H. Qed.

Lemma length_reg_bytes l : length (reg_bytes l) = (2 * length l)%nat.
Proof.
  unfold reg_bytes. induction l as [|v l IH]; [done|]. cbn [fmap list_fmap concat].
  rewrite length_app, IH. simpl. lia.
Qed.

Lemma reg_bytes_u8 l : Forall is_u16 l -> Forall is_u8 (reg_bytes l).
Proof.
  unfold reg_bytes. induction 1 as [|v l Hv _ IH]; [by apply Forall_nil_2|].
  cbn [fmap list_fmap concat]. apply Forall_app. split; [|done].
  unfold is_u16 in Hv. repeat apply Forall_cons_2; try apply Forall_nil_2.
  - by apply Z.mod_pos_bound.
  - split; [by apply Z.div_pos; lia | apply Z.div_lt_upper_bound; lia].
Qed.

Lemma length_pkt_copy l p : (4 + 2 * length l <= length p)%nat -> length (pkt_copy l p) = length p.
Proof.
  intros H. unfold pkt_copy. rewrite !length_app, length_reg_bytes, length_take, length_drop. lia.
Qed.

Lemma pkt_copy_u8 l p : Forall is_u16 l -> Forall is_u8 p -> Forall is_u8 (pkt_copy l p).
Proof.
  intros Hl Hp. unfold pkt_copy. repeat (apply Forall_app; split).
  - by apply Forall_take.
  - by apply reg_bytes_u8.
  - by apply Forall_drop.
Qed.

Lemma count_of_byte p c :
  (0 < length p)%nat -> PKT_COUNT (aset p 0 c) = Z.land c PKT_COUNT_MASK.
Proof. intros. unfold PKT_COUNT. by rewrite aget_aset_eq by lia. Qed.

Lemma code_of_byte p c :
  (0 < length p)%nat -> PKT_CODE (aset p 0 c) = Z.land c PKT_CODE_MASK.
Proof. intros. unfold PKT_CODE. by rewrite aget_aset_eq by lia. Qed.

(** A reply to any buffer is a whole buffer that announces at most 32 registers. *)
Definition reply_ok (q : list Z) : Prop :=
  length q = packet_size /\ Forall is_u8 q /\ PKT_COUNT q <= PKT_MAX_REGS.

Lemma reply_header p c :
  length p = packet_size -> Forall is_u8 p -> is_u8 c -> Z.land c PKT_COUNT_MASK <= PKT_MAX_REGS ->
  reply_ok (aset p 0 c).
Proof.
  intros Hl Hu Hc Hm. split; [by rewrite length_aset|]. split; [by apply aset_Forall|].
  by rewrite count_of_byte by (rewrite Hl; unfold packet_size; lia).
Qed.

Lemma reply_bad p o :
  length p = packet_size -> Forall is_u8 p -> is_u8 o -> reply_ok (bad_reply p o).
Proof.
  intros Hl Hu Ho. unfold bad_reply. destruct (reply_header (aset p 1 0) PKT_CODE_CORRUPT)
    as (H1 & H2 & H3); [by rewrite length_aset | by apply aset_Forall | done | done |].
  split; [by rewrite !length_aset in *|]. split; [by repeat apply aset_Forall|].
  by rewrite !pkt_count_aset by done.
Qed.

Lemma reply_read p l :
  length p = packet_size -> Forall is_u8 p -> Forall is_u16 l ->
  Z.of_nat (length l) <= PKT_MAX_REGS ->
  reply_ok (aset (pkt_copy l p) 0 (Z.lor (Z.of_nat (length l)) PKT_CODE_SUCCESS)).
Proof.
  unfold PKT_MAX_REGS, PKT_CODE_SUCCESS. intros Hp Hu Hl Hn. rewrite Z.lor_0_r. apply reply_header.
  - rewrite length_pkt_copy; [done|]. rewrite Hp. unfold packet_size. lia.
  - by apply pkt_copy_u8.
  - unfold is_u8. lia.
  - unfold PKT_COUNT_MASK, PKT_MAX_REGS. change 0x3f with (Z.ones 6).
    rewrite Z.land_ones, Z.mod_small by lia. lia.
Qed.

Lemma handle_reply now p s q s' :
  length p = packet_size -> Forall is_u8 p ->
  (forall page offset, Forall is_u16 (default [] (registers_get group adc page offset s).1)) ->
  handle now p s = (q, s') -> reply_ok q.
Proof.
  intros Hl Hu Hget. unfold rx_handle_packet.
  assert (Hl1 : length (aset p 1 0) = packet_size) by (by rewrite length_aset).
  assert (Hu1 : Forall is_u8 (aset p 1 0)) by (by apply aset_Forall).
  destruct (negb _); [intros [= <- _]; by apply reply_bad|].
  destruct (_ =? PKT_CODE_WRITE).
  { destruct (registers_set _ _ _ _ _ _ _) as [rv s2]. intros [= <- _].
    destruct (negb _); by apply reply_header. }
  destruct (_ =? PKT_CODE_READ); [|intros [= <- _]; by apply reply_bad].
  specialize (Hget (pkt_page (aset p 1 0)) (pkt_offset (aset p 1 0))).
  destruct (registers_get _ _ _ _ _) as [[registers|] s2]; intros [= <- _]; [|by apply reply_header].
  set (count := if PKT_COUNT (aset p 1 0) <? _ then _ else _).
  pose proof (pkt_count_range (aset p 1 0)).
  assert (Hc : 0 <= count <= PKT_MAX_REGS /\ count <= Z.of_nat (length registers)).
  { unfold count, PKT_MAX_REGS. repeat case_match; lia. }
  assert (Hcount : count = Z.of_nat (length (take (Z.to_nat count) registers)))
    by (rewrite length_take; lia).
  rewrite Hcount at 2. apply reply_read; [done | done | | lia].
  by apply Forall_take.
Qed.
End Receive.

(** * The line between the two *)

(** *** Requests *)

Definition request (cc page offset : Z) (body : list Z) : list Z :=
  cc :: crc8_bytes (cc :: 0 :: page :: offset :: body) :: page :: offset :: body.

Lemma request_ok cc page offset body :
  is_u8 cc -> is_u8 page -> is_u8 offset -> Forall is_u8 body ->
  length body = (2 * Z.to_nat (Z.land cc PKT_COUNT_MASK))%nat ->
  packet_ok (request cc page offset body).
Proof.
  intros Hc Hp Ho Hb Hl. split; [simpl; lia|].
  split; [change (4 + length body = 4 + 2 * Z.to_nat (Z.land cc PKT_COUNT_MASK))%nat; by rewrite Hl|].
  split; [|done]. repeat (apply Forall_cons_2; [try done|]); [|done]. apply crc8_bytes_u8.
  by repeat (apply Forall_cons_2; [done|]).
Qed.

Lemma count_bits n : 0 <= n < 64 ->
  Z.land (Z.lor n PKT_CODE_WRITE) PKT_COUNT_MASK = n /\ Z.land n PKT_COUNT_MASK = n
  /\ Z.land (Z.lor n PKT_CODE_WRITE) PKT_CODE_MASK = PKT_CODE_WRITE
  /\ Z.land n PKT_CODE_MASK = PKT_CODE_READ /\ is_u8 (Z.lor n PKT_CODE_WRITE).
Proof.
  intros Hn. assert (Hall : forallb (fun k => let n := Z.of_nat k in
    (Z.land (Z.lor n PKT_CODE_WRITE) PKT_COUNT_MASK =? n) && (Z.land n PKT_COUNT_MASK =? n)
    && (Z.land (Z.lor n PKT_CODE_WRITE) PKT_CODE_MASK =? PKT_CODE_WRITE)
    && (Z.land n PKT_CODE_MASK =? PKT_CODE_READ)
    && (0 <=? Z.lor n PKT_CODE_WRITE) && (Z.lor n PKT_CODE_WRITE <? 256)) (seq 0 64) = true)
    by (vm_compute; reflexivity).
  rewrite forallb_forall in Hall. specialize (Hall (Z.to_nat n)).
  rewrite Z2Nat.id in Hall by lia. specialize (Hall ltac:(apply in_seq; lia)). cbv zeta in Hall.
  unfold is_u8. lia.
Qed.

Lemma reg_bytes_app l k : reg_bytes (l ++ k) = reg_bytes l ++ reg_bytes k.
Proof. unfold reg_bytes. by rewrite fmap_app, concat_app. Qed.

Lemma length_fill_write page offset values :
  (length values <= 32)%nat -> length (fill_write page offset values) = packet_size.
Proof.
  intros H. unfold fill_write. rewrite length_app, length_reg_bytes, length_app, length_replicate.
  simpl. unfold packet_size. lia.
Qed.

Lemma write_request beyond page offset values :
  (length values <= 32)%nat ->
  let w := set_crc beyond (fill_write page offset values) in
  take (PKT_SIZE w) w
  = request (Z.lor (Z.of_nat (length values)) PKT_CODE_WRITE) page offset (reg_bytes values)
  /\ PKT_SIZE w = (4 + 2 * length values)%nat.
Proof.
  intros Hn. cbn zeta. set (w0 := fill_write page offset values).
  assert (Hsz : PKT_SIZE w0 = (4 + 2 * length values)%nat).
  { unfold PKT_SIZE, PKT_COUNT. change (aget w0 0) with (Z.lor (Z.of_nat (length values)) PKT_CODE_WRITE).
    destruct (count_bits (Z.of_nat (length values))) as [-> _]; lia. }
  assert (Hsz' : PKT_SIZE (set_crc beyond w0) = PKT_SIZE w0) by (by apply pkt_size_aset).
  rewrite Hsz'. split; [|done]. unfold set_crc. rewrite <- aset_take by lia.
  assert (Ht : take (PKT_SIZE w0) w0
    = Z.lor (Z.of_nat (length values)) PKT_CODE_WRITE :: 0 :: page :: offset :: reg_bytes values).
  { rewrite Hsz. unfold w0, fill_write. rewrite reg_bytes_app. simpl. do 4 f_equal.
    apply take_app_length'. rewrite length_reg_bytes. lia. }
  unfold crc_packet. rewrite pkt_size_app by (unfold w0; rewrite length_fill_write by done; vm_compute; lia).
  rewrite take_app_le by (unfold w0 at 2; rewrite length_fill_write, Hsz by done; unfold packet_size; lia).
  rewrite Ht. done.
Qed.

Lemma read_request beyond page offset count buffer :
  length buffer = packet_size -> 0 <= count <= PKT_MAX_REGS ->
  let w := set_crc beyond (fill_read page offset count buffer) in
  take (PKT_SIZE w) w
  = request count page offset (take (2 * Z.to_nat count) (drop 4 buffer))
  /\ PKT_SIZE w = (4 + 2 * Z.to_nat count)%nat.
Proof.
  unfold PKT_MAX_REGS. intros Hl Hn. cbn zeta. set (w0 := fill_read page offset count buffer).
  destruct (count_bits count) as (_ & Hcb & _); [lia|].
  do 4 (destruct buffer as [|? buffer]; [done|]).
  assert (Hw : w0 = count :: 0 :: page :: offset :: buffer)
    by (unfold w0, fill_read; by rewrite Z.lor_0_r).
  assert (Hsz : PKT_SIZE w0 = (4 + 2 * Z.to_nat count)%nat)
    by (rewrite Hw; change (4 + 2 * Z.to_nat (Z.land count PKT_COUNT_MASK) = 4 + 2 * Z.to_nat count)%nat;
        by rewrite Hcb).
  assert (Hsz' : PKT_SIZE (set_crc beyond w0) = PKT_SIZE w0) by (by apply pkt_size_aset).
  rewrite Hsz'. split; [|done]. unfold set_crc. rewrite <- aset_take by lia.
  assert (Ht : take (PKT_SIZE w0) w0
    = count :: 0 :: page :: offset :: take (2 * Z.to_nat count) buffer)
    by (by rewrite Hsz, Hw).
  unfold crc_packet. rewrite pkt_size_app by (rewrite Hw; simpl; lia).
  rewrite take_app_le by (rewrite Hsz, Hw; unfold packet_size in Hl; simpl in *; lia).
  rewrite Ht. done.
Qed.

(** *** Replies at the FMU *)

Lemma frx_bytes l : forall f,
  length (current_packet f) = packet_size -> dmar f = true ->
  (frx_count f + length l < packet_size)%nat ->
  fold_left frx_byte l f
  = Fmu (take (frx_count f) (current_packet f) ++ l
         ++ drop (frx_count f + length l) (current_packet f))
        (frx_count f + length l) true (rx_dma_status f) (completion f) (ftx f).
Proof.
  induction l as [|b l IH]; intros f Hl Hd Hn; simpl.
  { rewrite Nat.add_0_r, take_drop, <- Hd. by destruct f. }
  unfold frx_byte at 2. rewrite Hd. cbn [frx_count]. simpl in Hn.
  destruct (Nat.eqb_spec (S (frx_count f)) packet_size) as [E|_]; [lia|].
  rewrite IH by (cbn [current_packet frx_count]; rewrite ?length_aset; done || lia).
  cbn [current_packet frx_count dmar rx_dma_status completion ftx].
  unfold aset. rewrite Nat2Z.id. f_equal; [|lia].
  assert (Hdr : drop (S (frx_count f) + length l) (<[frx_count f := b]> (current_packet f))
               = drop (frx_count f + S (length l)) (current_packet f)).
  { rewrite drop_insert_lt by lia. f_equal. lia. }
  rewrite Hdr. rewrite (take_S_r _ _ b) by (apply list_lookup_insert_eq; lia).
  rewrite take_insert_ge by lia. by rewrite <- app_assoc.
Qed.

(** Between exchanges. *)
Definition fmu_ready (f : fmu) : Prop := completion f = 0%nat.

Section Line.
Context (group : Z -> Z) (rate_ok : Z -> Z -> bool) (adc : Z -> Z) (beyond : list Z).
Abbreviation handle := (rx_handle_packet group rate_ok adc beyond).

(** Whether a received packet is accepted. *)
Definition accepted (l : list Z) : bool :=
  (pkt_crc l =? crc8_bytes (aset l 1 0)) && negb (PKT_CODE l =? PKT_CODE_CORRUPT).

Lemma fmu_gets l f :
  length (current_packet f) = packet_size -> completion f = 0%nat -> rx_dma_status f = Waiting ->
  dmar f = true -> frx_count f = 0%nat ->
  (4 <= length l)%nat -> length l = PKT_SIZE l -> (length l < packet_size)%nat ->
  exists f', exchange_end beyond (fmu_receive l f) = (if accepted l then 0 else - EIO, f')
    /\ current_packet f' = aset (l ++ drop (length l) (current_packet f)) 1 0 /\ fmu_ready f'.
Proof.
  intros Hp Hc Hst Hd Hf H4 Hl Hn.
  assert (E : fmu_receive l f = do_interrupt (Sr false true) false (fold_left frx_byte l f))
    by (destruct l; [simpl in H4; lia | done]).
  rewrite E, frx_bytes by (rewrite ?Hf; done). rewrite Hf, Hst, Hc. unfold do_interrupt.
  cbn [sr_error sr_idle rx_dma_status frx_count current_packet completion ftx].
  rewrite take_0, app_nil_l, Nat.add_0_l.
  rewrite decide_True, pkt_size_app, <- Hl by (done || lia).
  destruct (Nat.ltb_spec (length l) 1); [lia|]. rewrite Nat.ltb_irrefl. cbn [orb].
  unfold do_rx_dma_callback. cbn [rx_dma_status]. rewrite decide_True by done.
  unfold exchange_end. cbn [completion rx_dma_status current_packet ftx frx_count dmar].
  rewrite decide_False by done. eexists. split; [f_equal|split; reflexivity]. unfold accepted.
  rewrite crc_field_ok by done.
  assert (Hpk : PKT_CODE (aset (l ++ drop (length l) (current_packet f)) 1 0) = PKT_CODE l).
  { rewrite pkt_code_aset by lia. unfold PKT_CODE. by rewrite aget_app_l by lia. }
  by rewrite Hpk.
Qed.

(** *** Faults

    What happens to one exchange: nothing; a byte of the request or of the
    reply is changed; the request or the reply is lost. *)
Inductive fate :=
| Clean
| ReqHit (j e : Z)
| ReqLost
| RepHit (j e : Z)
| RepLost.

Definition fate_ok (ft : fate) : Prop :=
  match ft with
  | ReqHit j e | RepHit j e => 0 <= j /\ 0 < e < 256
  | _ => True
  end.

(** A byte after the header byte is changed by a nonzero mask. *)
Definition garble (j e : Z) (l : list Z) : list Z :=
  let i := 1 + j `mod` (Z.of_nat (length l) - 1) in
  aset l i (Z.lxor (aget l i) e).

Definition up (ft : fate) (l : list Z) : list Z :=
  match ft with ReqHit j e => garble j e l | ReqLost => [] | _ => l end.
Definition down (ft : fate) (l : list Z) : list Z :=
  match ft with RepHit j e => garble j e l | RepLost => [] | _ => l end.

Definition drained (st : port) : port :=
  Port (dma_packet st) (rx_count st) (abort_on_idle st) (breaks st) [] (regs st).

(** One exchange over the line; the fates to come carry the PX4IO clock. *)
Definition bus : Type := list (fate * Z) * fmu * port.

Definition line_exchange (buffer : list Z) (b : bus) : Z * list Z * bus :=
  let '(fs, f, st) := b in
  let '(ft, now) := default (ReqLost, 0) (head fs) in
  let f := exchange_start beyond
             (Fmu buffer (frx_count f) (dmar f) (rx_dma_status f) (completion f) (ftx f)) in
  let st := io_receive group rate_ok adc beyond now (up ft (ftx f)) st in
  let f := fmu_receive (down ft (tx_dma st)) f in
  let '(ret, f) := exchange_end beyond f in
  (ret, current_packet f, (tail fs, f, drained st)).

Lemma garble_bad j e l :
  packet_ok l -> 0 <= j -> 0 < e < 256 ->
  let l' := garble j e l in
  (4 <= length l')%nat /\ length l' = PKT_SIZE l' /\ length l' = length l /\ Forall is_u8 l'
  /\ (pkt_crc l' =? crc8_bytes (aset l' 1 0)) = false.
Proof.
  intros Hok Hj He. cbn zeta. unfold garble.
  pose proof Hok as (H4 & _ & Hu & _).
  set (i := 1 + j `mod` _). assert (Hi : 1 <= i < Z.of_nat (length l)).
  { pose proof (Z.mod_pos_bound j (Z.of_nat (length l) - 1)). unfold i. lia. }
  assert (Hx : is_u8 (aget l i)) by (by apply aget_Forall).
  destruct (packet_hit l i (Z.lxor (aget l i) e)) as (G4 & Gl & Gu & Gc); [done|done| | |].
  - apply lxor_u8; [done | unfold is_u8; lia].
  - intros E. assert (e = 0); [|lia].
    by rewrite <- (Z.lxor_0_l e), <- (Z.lxor_nilpotent (aget l i)), Z.lxor_assoc, E,
      Z.lxor_nilpotent.
  - split_and!; [done|done|by rewrite length_aset|done|]. by apply Z.eqb_neq.
Qed.

Lemma drained_ready p s n :
  reply_ok p -> port_ready (drained (Port (set_crc beyond (aset p 1 0)) 0 false n [] s)).
Proof.
  intros (Hl & Hu & Hc). unfold drained, port_ready, set_crc. cbn [dma_packet rx_count abort_on_idle tx_dma].
  rewrite !length_aset. split; [done|]. split; [|done].
  assert (Hu1 : Forall is_u8 (aset p 1 0)) by (by apply aset_Forall).
  apply aset_Forall; [done|]. unfold crc_packet.
  assert (Hsz : (PKT_SIZE (aset p 1 0) <= packet_size)%nat)
    by (rewrite pkt_size_aset by lia; unfold PKT_SIZE, packet_size, PKT_MAX_REGS in *; lia).
  rewrite pkt_size_app by (rewrite length_aset, Hl; unfold packet_size; lia).
  rewrite take_app_le by (rewrite length_aset; lia). by apply crc8_bytes_u8, Forall_take.
Qed.
(** The PX4IO side of an exchange. *)
Lemma io_side now r st q s' :
  port_ready st -> (4 <= length r)%nat -> length r = PKT_SIZE r -> (length r < packet_size)%nat ->
  handle now (r ++ drop (length r) (dma_packet st)) (regs st) = (q, s') -> reply_ok q ->
  let st1 := io_receive group rate_ok adc beyond now r st in
  regs st1 = s' /\ tx_dma st1 = take (PKT_SIZE q) (set_crc beyond (aset q 1 0))
  /\ packet_ok (tx_dma st1) /\ port_ready (drained st1).
Proof.
  intros Hst H4 Hl Hn Hh Hq. cbn zeta. rewrite (receive_packet group rate_ok adc beyond) by done.
  pose proof Hq as (Hql & Hqu & Hqc).
  destruct (callback_reply group rate_ok adc beyond now
    (Port (r ++ drop (length r) (dma_packet st)) (length r) false (breaks st) [] (regs st)) q s')
    as [-> Hok]; [done..|]. cbn [regs tx_dma abort_on_idle breaks].
  split; [done|]. split; [done|]. split; [done|]. by apply drained_ready.
Qed.

Lemma io_bad now r st :
  port_ready st -> (4 <= length r)%nat -> length r = PKT_SIZE r -> (length r < packet_size)%nat ->
  Forall is_u8 r -> (pkt_crc r =? crc8_bytes (aset r 1 0)) = false ->
  let st1 := io_receive group rate_ok adc beyond now r st in
  regs st1 = regs st /\ PKT_CODE (tx_dma st1) = PKT_CODE_CORRUPT
  /\ length (tx_dma st1) = 4%nat /\ packet_ok (tx_dma st1) /\ port_ready (drained st1).
Proof.
  intros Hst H4 Hl Hn Hu Hbad. cbn zeta. pose proof Hst as (Hpl & Hpu & _).
  set (p := r ++ drop (length r) (dma_packet st)).
  assert (Hp : length p = packet_size) by (unfold p; rewrite length_app, length_drop; lia).
  assert (Hpu' : Forall is_u8 p) by (apply Forall_app; split; [done | by apply Forall_drop]).
  assert (Hh : handle now p (regs st) = (bad_reply p 0xff, regs st))
    by (apply handle_corrupt; unfold p; by rewrite crc_field_ok).
  assert (Hq : reply_ok (bad_reply p 0xff)) by (by apply reply_bad).
  destruct (io_side now r st _ _ Hst H4 Hl Hn Hh Hq) as (Hr & Ht & Hok & Hrdy).
  split; [done|]. rewrite Ht in *. unfold bad_reply, set_crc in *.
  rewrite !pkt_size_aset in * by done.
  assert (Hcnt : PKT_COUNT (aset (aset p 1 0) 0 PKT_CODE_CORRUPT) = 0)
    by (rewrite count_of_byte by (rewrite length_aset, Hp; unfold packet_size; lia); done).
  assert (Hsz : PKT_SIZE (aset (aset p 1 0) 0 PKT_CODE_CORRUPT) = 4%nat)
    by (unfold PKT_SIZE; by rewrite Hcnt).
  rewrite Hsz in *. split; [|split; [rewrite length_take, !length_aset, Hp; done|done]].
  unfold PKT_CODE. rewrite aget_take, !aget_aset_ne, aget_aset_eq by (rewrite ?length_aset, ?Hp; done || lia).
  done.
Qed.

(** The FMU times out. *)
Lemma fmu_lost f :
  completion f = 0%nat ->
  exists f', exchange_end beyond f = (ERROR, f')
    /\ current_packet f' = current_packet f /\ fmu_ready f'.
Proof. intros Hc. unfold exchange_end. rewrite Hc. eexists. split; [reflexivity|]. by split. Qed.
Definition buffer_ok (b : list Z) : Prop := length b = packet_size /\ Forall is_u8 b.

(** What a reply buffer shows of the reply [q]. *)
Definition shows (cur q : list Z) : Prop :=
  forall i, 0 <= i < Z.of_nat (PKT_SIZE q) -> i <> 1 -> aget cur i = aget q i.

(** The outcome of an exchange whose request, undamaged, is answered by [q] in
    the state [s']. *)
Definition outcome (ft : fate) (s s' : io) (q : list Z) (ret : Z) (cur : list Z) (s1 : io) : Prop :=
  (ret = 0 /\ s1 = s' /\ shows cur q)
  \/ (ret < 0 /\ ft <> Clean /\ (s1 = s \/ s1 = s')).

(** The FMU side of an exchange that got a reply. *)
Lemma fmu_side r f buffer :
  completion f = 0%nat -> buffer_ok buffer -> Forall is_u8 r ->
  (4 <= length r)%nat -> length r = PKT_SIZE r -> (length r < packet_size)%nat ->
  exists f', exchange_end beyond (fmu_receive r (exchange_start beyond
      (Fmu buffer (frx_count f) (dmar f) (rx_dma_status f) (completion f) (ftx f))))
      = (if accepted r then 0 else - EIO, f')
    /\ fmu_ready f' /\ buffer_ok (current_packet f')
    /\ (forall i, 0 <= i < Z.of_nat (length r) -> i <> 1 -> aget (current_packet f') i = aget r i).
Proof.
  intros Hc [Hb Hbu] Hu H4 Hl Hn. unfold exchange_start. cbn [current_packet].
  edestruct (fmu_gets r) as (f' & E & Hcur & Hf'); cycle -1.
  - exists f'. split; [exact E|]. split; [done|]. rewrite Hcur. cbn [current_packet].
    split; [split|].
    + rewrite length_aset, length_app, length_drop. lia.
    + apply aset_Forall; [|done]. apply Forall_app. split; [done | by apply Forall_drop].
    + intros i Hi Hi1. by rewrite aget_aset_ne, aget_app_l by lia.
  - done.
  - done.
  - done.
  - done.
  - done.
  - done.
  - done.
  - done.
Qed.

Lemma accepted_code r : packet_ok r -> accepted r = negb (PKT_CODE r =? PKT_CODE_CORRUPT).
Proof. intros (_ & _ & _ & E). unfold accepted. by rewrite E, Z.eqb_refl. Qed.

Lemma reply_frame q :
  reply_ok q -> PKT_COUNT q <= 31 ->
  let r := take (PKT_SIZE q) (set_crc beyond (aset q 1 0)) in
  length r = PKT_SIZE q /\ (PKT_SIZE q < packet_size)%nat /\ PKT_CODE r = PKT_CODE q
  /\ (forall i, 0 <= i < Z.of_nat (PKT_SIZE q) -> i <> 1 -> aget r i = aget q i).
Proof.
  intros (Hl & _ & _) Hc. cbn zeta.
  assert (Hs : (4 <= PKT_SIZE q < packet_size)%nat) by (unfold PKT_SIZE, packet_size in *; lia).
  assert (Hg : forall i, 0 <= i < Z.of_nat (PKT_SIZE q) -> i <> 1 ->
    aget (take (PKT_SIZE q) (set_crc beyond (aset q 1 0))) i = aget q i).
  { intros i Hi Hi1. unfold set_crc. by rewrite aget_take, !aget_aset_ne by lia. }
  split; [unfold set_crc; rewrite length_take, !length_aset; lia|]. split; [lia|].
  split; [|done]. unfold PKT_CODE. by rewrite Hg by lia.
Qed.

Lemma attempt_spec buffer ft now fs f st l q s' :
  fate_ok ft -> fmu_ready f -> port_ready st -> buffer_ok buffer ->
  l = take (PKT_SIZE buffer) buffer -> packet_ok l -> (length l < packet_size)%nat ->
  handle now (l ++ drop (length l) (dma_packet st)) (regs st) = (q, s') ->
  reply_ok q -> PKT_COUNT q <= 31 -> PKT_CODE q <> PKT_CODE_CORRUPT ->
  exists ret cur f' st',
    line_exchange buffer ((ft, now) :: fs, f, st) = (ret, cur, (fs, f', st'))
    /\ fmu_ready f' /\ port_ready st' /\ buffer_ok cur
    /\ outcome ft (regs st) s' q ret cur (regs st').
Proof.
  intros Hft Hf Hst Hbuf El Hl Hn Hh Hq Hq31 Hqc.
  pose proof Hl as (H4 & Hsz & Hu & Hcrc). pose proof Hbuf as [Hb Hbu].
  assert (Hreq : ftx (exchange_start beyond (Fmu buffer (frx_count f) (dmar f) (rx_dma_status f)
                   (completion f) (ftx f))) = l).
  { unfold exchange_start. cbn [current_packet ftx]. rewrite take_app_le, El; [done|].
    rewrite El, length_take in Hn, H4. unfold packet_size in *. lia. }
  destruct (io_side now l st q s') as (Hr & Ht & Hrok & Hrdy); [done..|].
  destruct (reply_frame q Hq Hq31) as (Hrl & Hrn & Hrc & Hrg). rewrite <- Ht in Hrl, Hrc, Hrg.
  unfold line_exchange. cbn [head tail from_option id]. unfold id. rewrite Hreq. cbn [completion].
  assert (Hlost : forall st1, port_ready (drained st1) ->
    exists ret cur f' st',
      (let '(ret, f0) := exchange_end beyond (fmu_receive [] (exchange_start beyond
          (Fmu buffer (frx_count f) (dmar f) (rx_dma_status f) (completion f) (ftx f)))) in
       (ret, current_packet f0, (fs, f0, drained st1))) = (ret, cur, (fs, f', st'))
      /\ fmu_ready f' /\ port_ready st' /\ buffer_ok cur /\ ret < 0 /\ regs st' = regs st1).
  { intros st1 Hst1. destruct (fmu_lost (exchange_start beyond (Fmu buffer (frx_count f) (dmar f)
      (rx_dma_status f) (completion f) (ftx f)))) as (f' & E & Hcur & Hf'); [done|].
    cbn [fmu_receive]. rewrite E. do 4 eexists. split; [reflexivity|]. rewrite Hcur. by split_and!. }
  destruct ft as [|j e| |j e|]; cbn [up down].
  - destruct (fmu_side (tx_dma (io_receive group rate_ok adc beyond now l st)) f buffer)
      as (f' & -> & Hf' & Hcb & Hg); try done; try apply Hrok; [by rewrite Hrl|].
    do 4 eexists. split; [reflexivity|]. split_and!; [done..|]. left.
    rewrite accepted_code, Hrc, (proj2 (Z.eqb_neq _ _) Hqc) by done.
    split; [done|]. split; [done|]. intros i Hi Hi1. rewrite Hg by lia. by apply Hrg.
  - destruct Hft as [Hj He]. destruct (garble_bad j e l) as (G4 & Gs & Gl & Gu & Gc); [done..|].
    destruct (io_bad now (garble j e l) st) as (Hr' & Hc' & Hl' & Hok' & Hrdy'); [done|done|done|lia|done|done|].
    destruct (fmu_side (tx_dma (io_receive group rate_ok adc beyond now (garble j e l) st)) f buffer)
      as (f' & -> & Hf' & Hcb & Hg); try done; try apply Hok'; [rewrite Hl'; unfold packet_size; lia|].
    do 4 eexists. split; [reflexivity|]. split_and!; [done..|]. right.
    rewrite accepted_code, Hc' by done. split; [done|]. split; [done|]. by left.
  - destruct (Hlost st) as (ret & cur & f' & st' & E & ? & ? & ? & ? & Hst').
    { destruct Hst as (? & ? & ? & ? & ?). by split_and!. }
    pose proof Hst as (_ & _ & _ & _ & Htx). cbn [io_receive]. rewrite Htx.
    do 4 eexists. split; [exact E|]. split_and!; [done..|]. right. split_and!; [done|done|by left].
  - destruct Hft as [Hj He].
    destruct (garble_bad j e (tx_dma (io_receive group rate_ok adc beyond now l st)))
      as (G4 & Gs & Gl & Gu & Gc); [done..|].
    destruct (fmu_side (garble j e (tx_dma (io_receive group rate_ok adc beyond now l st))) f buffer)
      as (f' & -> & Hf' & Hcb & Hg); try done; [by rewrite Gl, Hrl|].
    do 4 eexists. split; [reflexivity|]. split_and!; [done..|]. right.
    unfold accepted. rewrite Gc. split_and!; [done|done|by right].
  - destruct (Hlost _ Hrdy) as (ret & cur & f' & st' & E & ? & ? & ? & ? & Hst').
    do 4 eexists. split; [exact E|]. split_and!; [done..|]. right.
    split_and!; [done|done|right]. by rewrite Hst', <- Hr.
Qed.
(** ** The registers in a packet *)

Lemma reg_bytes_lookup l : forall k v, l !! k = Some v ->
  reg_bytes l !! (2 * k)%nat = Some (v mod 256) /\ reg_bytes l !! (2 * k + 1)%nat = Some (v / 256).
Proof.
  induction l as [|w l IH]; intros k v Hk; [done|]. destruct k as [|k]; simpl in Hk.
  - simplify_eq. done.
  - replace (2 * S k)%nat with (S (S (2 * k))) by lia.
    replace (S (S (2 * k)) + 1)%nat with (S (S (2 * k + 1))) by lia. by apply IH.
Qed.

Lemma pkt_reg_bytes h0 h1 h2 h3 values rest k v :
  values !! k = Some v ->
  pkt_reg (h0 :: h1 :: h2 :: h3 :: reg_bytes values ++ rest) k = v.
Proof.
  intros Hk. unfold pkt_reg, aget.
  replace (Z.to_nat (4 + 2 * Z.of_nat k)) with (S (S (S (S (2 * k))))) by lia.
  replace (Z.to_nat (5 + 2 * Z.of_nat k)) with (S (S (S (S (2 * k + 1))))) by lia.
  destruct (reg_bytes_lookup values k v Hk) as [E1 E2]. cbn [lookup list_lookup].
  rewrite !(lookup_app_l_Some _ _ _ _ E1), !(lookup_app_l_Some _ _ _ _ E2). cbn [default from_option id].
  pose proof (Z.div_mod v 256). unfold id. lia.
Qed.

Lemma pkt_regs_bytes h0 h1 h2 h3 values rest :
  pkt_regs (length values) (h0 :: h1 :: h2 :: h3 :: reg_bytes values ++ rest) = values.
Proof.
  apply list_eq. intros k. unfold pkt_regs. rewrite list_lookup_fmap.
  destruct (decide (k < length values)%nat) as [Hk|Hk].
  - rewrite lookup_seq_lt by done. destruct (lookup_lt_is_Some_2 values k Hk) as [v Hv].
    rewrite Hv. cbn [fmap option_fmap option_map Nat.add]. f_equal. by apply pkt_reg_bytes.
  - rewrite lookup_seq_ge by lia. by rewrite lookup_ge_None_2 by lia.
Qed.

(** ** Valid requests *)

Lemma handle_valid now cc page offset body r s :
  packet_ok (request cc page offset body) ->
  handle now (request cc page offset body ++ r) s
  = let p := cc :: 0 :: page :: offset :: body ++ r in
    if Z.land cc PKT_CODE_MASK =? PKT_CODE_WRITE then
      let '(rv, s) := registers_set group rate_ok now page offset
                        (pkt_regs (Z.to_nat (Z.land cc PKT_COUNT_MASK)) (p ++ beyond)) s in
      (aset p 0 (if negb (rv =? 0) then PKT_CODE_ERROR else PKT_CODE_SUCCESS), s)
    else if Z.land cc PKT_CODE_MASK =? PKT_CODE_READ then
      match registers_get group adc page offset s with
      | (None, s) => (aset p 0 PKT_CODE_ERROR, s)
      | (Some registers, s) =>
          let count := Z.of_nat (length registers) in
          let count := if PKT_MAX_REGS <? count then PKT_MAX_REGS else count in
          let count := if Z.land cc PKT_COUNT_MASK <? count then Z.land cc PKT_COUNT_MASK else count in
          (aset (pkt_copy (take (Z.to_nat count) registers) p) 0 (Z.lor count PKT_CODE_SUCCESS), s)
      end
    else (bad_reply p 0xfe, s).
Proof.
  intros (H4 & Hl & _ & Hc). unfold rx_handle_packet.
  rewrite crc_field_ok by done. rewrite Hc, Z.eqb_refl. done.
Qed.
Lemma write_request_ok page offset values :
  (length values <= 31)%nat -> Forall is_u16 values -> is_u8 page -> is_u8 offset ->
  packet_ok (request (Z.lor (Z.of_nat (length values)) PKT_CODE_WRITE) page offset (reg_bytes values)).
Proof.
  intros Hn Hv Hp Ho. destruct (count_bits (Z.of_nat (length values))) as (Hc & _ & _ & _ & Hu); [lia|].
  apply request_ok; [done|done|done|by apply reg_bytes_u8|]. rewrite Hc, length_reg_bytes. lia.
Qed.

Lemma handle_write now page offset values r s :
  (length values <= 31)%nat -> Forall is_u16 values -> is_u8 page -> is_u8 offset ->
  Forall is_u8 r -> (4 + 2 * length values + length r)%nat = packet_size ->
  let l := request (Z.lor (Z.of_nat (length values)) PKT_CODE_WRITE) page offset (reg_bytes values) in
  let set := registers_set group rate_ok now page offset values s in
  exists q, handle now (l ++ r) s = (q, set.2) /\ reply_ok q /\ PKT_COUNT q = 0
    /\ PKT_CODE q = if negb (set.1 =? 0) then PKT_CODE_ERROR else PKT_CODE_SUCCESS.
Proof.
  intros Hn Hv Hp Ho Hr Hlen. cbn zeta. pose proof (write_request_ok page offset values Hn Hv Hp Ho) as Hok.
  rewrite handle_valid by done. cbn zeta.
  destruct (count_bits (Z.of_nat (length values))) as (Hc & _ & Hw & _ & Hu); [lia|].
  rewrite Hc, Hw, Z.eqb_refl, Nat2Z.id, <- !app_comm_cons, <- app_assoc, pkt_regs_bytes.
  destruct (registers_set group rate_ok now page offset values s) as [rv s']. cbn [fst snd].
  set (p := _ :: 0 :: page :: offset :: reg_bytes values ++ r).
  assert (Hpl : length p = packet_size)
    by (unfold p; cbn [length]; rewrite length_app, length_reg_bytes; lia).
  assert (Hpu : Forall is_u8 p).
  { unfold p. repeat (apply Forall_cons_2; [done|]). apply Forall_app. split; [by apply reg_bytes_u8 | done]. }
  eexists. split; [reflexivity|].
  rewrite count_of_byte, code_of_byte by (rewrite Hpl; unfold packet_size; lia).
  split; [apply reply_header; try done; by destruct (negb _)|]. by destruct (negb _).
Qed.

Lemma handle_read now page offset count body r s :
  wf s -> (forall c, is_u16 (adc c)) ->
  0 <= count <= 31 -> length body = (2 * Z.to_nat count)%nat -> Forall is_u8 body ->
  is_u8 page -> is_u8 offset ->
  Forall is_u8 r -> (4 + length body + length r)%nat = packet_size ->
  let l := request count page offset body in
  let get := registers_get group adc page offset s in
  packet_ok l /\
  exists q, handle now (l ++ r) s = (q, get.2) /\ reply_ok q /\ PKT_COUNT q <= 31
    /\ match get.1 with
       | None => PKT_CODE q = PKT_CODE_ERROR
       | Some regs =>
           PKT_CODE q = PKT_CODE_SUCCESS /\ PKT_COUNT q = Z.min (Z.of_nat (length regs)) count
           /\ pkt_regs (Z.to_nat (PKT_COUNT q)) q = take (Z.to_nat (PKT_COUNT q)) regs
       end.
Proof.
  intros Hs Hadc Hn Hbl Hb Hp Ho Hr Hlen. cbn zeta.
  destruct (count_bits count) as (_ & Hc & _ & Hrd & _); [lia|].
  assert (Hok : packet_ok (request count page offset body))
    by (apply request_ok; try done; [unfold is_u8; lia | by rewrite Hc]).
  split; [done|]. rewrite handle_valid by done. cbn zeta. rewrite Hc, Hrd.
  change (PKT_CODE_READ =? PKT_CODE_WRITE) with false. rewrite Z.eqb_refl. cbn [negb].
  destruct (wf_registers_get group adc page offset s Hs Hadc) as [_ Hu].
  set (p := count :: 0 :: page :: offset :: body ++ r).
  assert (Hpl : length p = packet_size) by (unfold p; cbn [length]; rewrite length_app; lia).
  assert (Hpu : Forall is_u8 p).
  { unfold p. repeat (apply Forall_cons_2; [first [done | unfold is_u8; lia]|]).
    apply Forall_app. by split. }
  destruct (registers_get group adc page offset s) as [[regs|] s']; cbn [fst snd] in *.
  2: { eexists. split; [reflexivity|].
       rewrite count_of_byte, code_of_byte by (rewrite Hpl; unfold packet_size; lia).
       split; [by apply reply_header|]. split; [by vm_compute | done]. }
  set (n := if count <? _ then count else _).
  assert (En : n = Z.min (Z.of_nat (length regs)) count).
  { unfold n, PKT_MAX_REGS. repeat case_match; lia. }
  clearbody n. subst n. set (n := Z.min (Z.of_nat (length regs)) count).
  assert (Hnn : 0 <= n <= 31 /\ n <= Z.of_nat (length regs)) by lia.
  assert (Htl : n = Z.of_nat (length (take (Z.to_nat n) regs))) by (rewrite length_take; lia).
  eexists. split; [reflexivity|].
  assert (Hcl : (4 + 2 * length (take (Z.to_nat n) regs) <= length p)%nat)
    by (rewrite Hpl, length_take; unfold packet_size; lia).
  destruct (count_bits n) as (_ & Hnc & _ & Hnr & _); [lia|].
  unfold PKT_CODE_SUCCESS. rewrite Z.lor_0_r.
  rewrite count_of_byte, code_of_byte by (rewrite length_pkt_copy, Hpl by done; unfold packet_size; lia).
  rewrite Hnc, Hnr. split.
  { rewrite Htl at 2. rewrite <- (Z.lor_0_r (Z.of_nat _)). apply reply_read; [done|done| |].
    - by apply Forall_take.
    - rewrite <- Htl. unfold PKT_MAX_REGS. lia. }
  split; [lia|]. split; [done|]. split; [done|].
  unfold pkt_copy. change (take 4 p) with [count; 0; page; offset].
  rewrite Htl at 1. rewrite Nat2Z.id. apply (pkt_regs_bytes n 0 page offset).
Qed.
(** The write requests PX4IO executed, at the given times. *)
Definition writes (page offset : Z) (values : list Z) (ts : list Z) (s : io) : io :=
  fold_left (fun s t => (registers_set group rate_ok t page offset values s).2) ts s.

(** Repeated reads. *)
Definition reads (page offset : Z) (k : nat) (s : io) : io :=
  Nat.iter k (fun s => (registers_get group adc page offset s).2) s.

Definition clean_first (fs : list (fate * Z)) : Prop :=
  match fs with (Clean, _) :: _ => True | _ => False end.

(** What the driver's write result tells of the executed writes [ts]. *)
Definition write_report (page offset : Z) (values : list Z) (s : io) (fs : list (fate * Z))
    (result : Z) (ts : list Z) : Prop :=
  (length ts <= length fs)%nat
  /\ (result = 0 -> exists ts0 t, ts = ts0 ++ [t]
        /\ (registers_set group rate_ok t page offset values (writes page offset values ts0 s)).1 = 0)
  /\ (clean_first fs -> length ts = 1%nat)
  /\ (Exists (fun x => x.1 = Clean) fs -> result = 0 \/ result = - EINVAL)
  /\ result <= 0.

Lemma shows_field cur q i :
  shows cur q -> reply_ok q -> 0 <= i < 4 -> i <> 1 -> aget cur i = aget q i.
Proof. intros H (_ & _ & _) Hi Hne. apply H; [|done]. unfold PKT_SIZE. lia. Qed.

Lemma shows_code cur q : shows cur q -> reply_ok q -> PKT_CODE cur = PKT_CODE q.
Proof. intros H Hq. unfold PKT_CODE. by rewrite (shows_field cur q) by done. Qed.
Lemma shows_count cur q : shows cur q -> reply_ok q -> PKT_COUNT cur = PKT_COUNT q.
Proof. intros H Hq. unfold PKT_COUNT. by rewrite (shows_field cur q) by done. Qed.

Lemma shows_regs cur q : shows cur q ->
  pkt_regs (Z.to_nat (PKT_COUNT q)) cur = pkt_regs (Z.to_nat (PKT_COUNT q)) q.
Proof.
  intros H. unfold pkt_regs. apply list_fmap_ext. intros j k [Hk Hj]%lookup_seq.
  unfold pkt_reg. rewrite !H; [done|unfold PKT_SIZE; lia..].
Qed.

Lemma set_crc_buffer p :
  buffer_ok p -> (PKT_SIZE p <= packet_size)%nat -> buffer_ok (set_crc beyond p).
Proof.
  intros [Hl Hu] Hs. unfold set_crc. split; [by rewrite length_aset|]. apply aset_Forall; [done|].
  unfold crc_packet. rewrite pkt_size_app by (rewrite Hl; unfold packet_size; lia).
  rewrite take_app_le by lia. by apply crc8_bytes_u8, Forall_take.
Qed.

Lemma fill_write_buffer page offset values :
  (length values <= 31)%nat -> Forall is_u16 values -> is_u8 page -> is_u8 offset ->
  buffer_ok (set_crc beyond (fill_write page offset values)).
Proof.
  intros Hn Hv Hp Ho.
  destruct (count_bits (Z.of_nat (length values))) as (Hc & _ & _ & _ & Hu); [lia|].
  apply set_crc_buffer; [split|].
  - apply length_fill_write. lia.
  - unfold fill_write. apply Forall_app. split; [by repeat (apply Forall_cons_2; [done|])|].
    apply reg_bytes_u8, Forall_app. split; [done|]. by apply Forall_replicate.
  - unfold PKT_SIZE, PKT_COUNT.
    change (aget (fill_write page offset values) 0) with (Z.lor (Z.of_nat (length values)) PKT_CODE_WRITE).
    rewrite Hc. unfold packet_size. lia.
Qed.

Lemma write_attempts page offset values w :
  (length values <= 31)%nat -> Forall is_u16 values -> is_u8 page -> is_u8 offset ->
  w = fill_write page offset values ->
  forall fs f st result0,
  fmu_ready f -> port_ready st -> Forall (fun x => fate_ok x.1) fs -> (fs = [] -> result0 < 0) ->
  exists result fs' f' st' ts,
    write_retry beyond line_exchange (length fs) w result0 (fs, f, st) = (result, (fs', f', st'))
    /\ fmu_ready f' /\ port_ready st' /\ regs st' = writes page offset values ts (regs st)
    /\ write_report page offset values (regs st) fs result ts.
Proof.
  intros Hn Hv Hp Ho -> fs. induction fs as [|[ft now] fs IH]; intros f st r0 Hf Hst Hfs Hr0.
  { exists r0, [], f, st, []. split_and!; try done. split_and!; try done; [| |specialize (Hr0 eq_refl); lia].
    - intros ->. by specialize (Hr0 eq_refl).
    - by intros ?%Exists_nil. }
  apply Forall_cons_1 in Hfs as [Hft Hfs]. cbn [fst] in Hft.
  set (w := set_crc beyond (fill_write page offset values)).
  destruct (write_request beyond page offset values) as [Hreq Hsz]; [lia|]. fold w in Hreq, Hsz.
  pose proof (write_request_ok page offset values Hn Hv Hp Ho) as Hok.
  set (l := request _ _ _ _) in *. assert (Hll : length l = (4 + 2 * length values)%nat)
    by (rewrite <- Hreq, length_take, Hsz; unfold w, set_crc; rewrite length_aset, length_fill_write;
        unfold packet_size; lia).
  assert (Hbuf : buffer_ok w) by (by apply fill_write_buffer).
  pose proof Hst as (Hpl & Hpu & _).
  destruct (handle_write now page offset values (drop (length l) (dma_packet st)) (regs st))
    as (q & Hh & Hq & Hqc & Hqk); [done|done|done|done|by apply Forall_drop| |].
  { rewrite length_drop, Hpl, Hll. unfold packet_size. lia. }
  destruct (attempt_spec w ft now fs f st l q
    (registers_set group rate_ok now page offset values (regs st)).2)
    as (ret & cur & f1 & st1 & E & Hf1 & Hst1 & _ & Hout); try done; [|lia| |].
  { rewrite Hll. unfold packet_size. lia. }
  { rewrite Hqk. by destruct (negb _). }
  cbn [length write_retry]. fold w. rewrite E.
  destruct Hout as [(-> & Hregs & Hshow)|(Hret & Hne & Hregs)].
  - cbn [Z.eqb]. rewrite (shows_code cur q Hshow Hq), Hqk.
    eexists _, fs, f1, st1, [now]. split; [reflexivity|]. split_and!; [done..|].
    unfold write_report. cbn [length].
    destruct (Z.eqb_spec (registers_set group rate_ok now page offset values (regs st)).1 0) as [Ez|Ez].
    + split_and!; [lia| |done|by left|done]. intros _. exists [], now. by split.
    + split_and!; [lia|done|done|by right|done].
  - destruct (Z.eqb_spec ret 0) as [->|_]; [lia|].
    destruct (IH f1 st1 ret) as (r & fs' & f' & st' & ts & E' & Hf' & Hst' & Hr' & R1 & R2 & R3 & R4 & R5);
      [done|done|done|lia|].
    destruct Hregs as [Hregs|Hregs]; rewrite Hregs in *.
    + exists r, fs', f', st', ts. split_and!; [done..|]. split_and!; cbn [length]; [lia|done| |  |done].
      * by destruct ft.
      * intros [?|?]%Exists_cons; [done|]. by apply R4.
    + exists r, fs', f', st', (now :: ts). split_and!; [done..|].
      split_and!; cbn [length]; [lia| | | |done].
      * intros Hz. destruct (R2 Hz) as (ts0 & t & -> & Ht). by exists (now :: ts0), t.
      * by destruct ft.
      * intros [?|?]%Exists_cons; [done|]. by apply R4.
Qed.
(** What the driver's read result tells of the [k] executed reads. *)
Definition read_report (page offset count : Z) (s : io) (fs : list (fate * Z))
    (result : Z) (values : option (list Z)) (k : nat) : Prop :=
  (k <= length fs)%nat
  /\ (result = 0 -> exists k0 registers, k = S k0
        /\ (registers_get group adc page offset (reads page offset k0 s)).1 = Some registers
        /\ count <= Z.of_nat (length registers)
        /\ values = Some (take (Z.to_nat count) registers))
  /\ (result <> 0 -> values = None)
  /\ (clean_first fs -> k = 1%nat)
  /\ result <= 0.

Lemma reads_S page offset k s :
  reads page offset k (registers_get group adc page offset s).2 = reads page offset (S k) s.
Proof.
  unfold reads. rewrite (Nat.iter_succ_r k). done.
Qed.

Lemma read_attempts page offset count :
  0 <= count <= 31 -> is_u8 page -> is_u8 offset -> (forall c, is_u16 (adc c)) ->
  forall fs buffer f st result0,
  buffer_ok buffer -> fmu_ready f -> port_ready st -> wf (regs st) ->
  Forall (fun x => fate_ok x.1) fs -> (fs = [] -> result0 < 0) ->
  exists result values fs' f' st' k,
    read_retry beyond line_exchange (length fs) page offset count buffer result0 (fs, f, st)
      = (result, values, (fs', f', st'))
    /\ fmu_ready f' /\ port_ready st' /\ wf (regs st') /\ regs st' = reads page offset k (regs st)
    /\ read_report page offset count (regs st) fs result values k.
Proof.
  intros Hn Hp Ho Hadc fs. induction fs as [|[ft now] fs IH]; intros buffer f st r0 Hb Hf Hst Hwf Hfs Hr0.
  { specialize (Hr0 eq_refl). exists r0, None, [], f, st, 0%nat. split_and!; try done.
    unfold read_report. split_and!; try done; lia. }
  apply Forall_cons_1 in Hfs as [Hft Hfs]. cbn [fst] in Hft. pose proof Hb as [Hbl Hbu].
  set (w := set_crc beyond (fill_read page offset count buffer)).
  destruct (read_request beyond page offset count buffer) as [Hreq Hsz];
    [done | unfold PKT_MAX_REGS; lia|]. fold w in Hreq, Hsz.
  set (body := take (2 * Z.to_nat count) (drop 4 buffer)) in *.
  assert (Hbody : length body = (2 * Z.to_nat count)%nat)
    by (unfold body; rewrite length_take, length_drop, Hbl; unfold packet_size; lia).
  assert (Hbodyu : Forall is_u8 body) by (by apply Forall_take, Forall_drop).
  set (l := request _ _ _ _) in *. assert (Hll : length l = (4 + 2 * Z.to_nat count)%nat)
    by (unfold l; cbn [length request]; lia).
  assert (Hbuf : buffer_ok w).
  { apply set_crc_buffer; [split; unfold fill_read|].
    - by rewrite !length_aset.
    - rewrite Z.lor_0_r. repeat (apply aset_Forall; [|first [done | unfold is_u8; lia]]). done.
    - assert (Hsz' : PKT_SIZE w = PKT_SIZE (fill_read page offset count buffer)) by (by apply pkt_size_aset).
      rewrite <- Hsz', Hsz. unfold packet_size. lia. }
  pose proof Hst as (Hpl & Hpu & _).
  destruct (handle_read now page offset count body (drop (length l) (dma_packet st)) (regs st))
    as (Hok & q & Hh & Hq & Hqc & Hqk); try done; [by apply Forall_drop| |].
  { rewrite length_drop, Hpl, Hll, Hbody. unfold packet_size. lia. }
  assert (Hcode : PKT_CODE q <> PKT_CODE_CORRUPT).
  { destruct (registers_get _ _ _ _ _).1; [destruct Hqk as [-> _]|rewrite Hqk]; done. }
  destruct (attempt_spec w ft now fs f st l q (registers_get group adc page offset (regs st)).2)
    as (ret & cur & f1 & st1 & E & Hf1 & Hst1 & Hcb & Hout); try done.
  { rewrite Hll. unfold packet_size. lia. }
  destruct (wf_registers_get group adc page offset (regs st) Hwf Hadc) as [Hwf' _].
  cbn [length read_retry]. fold w. rewrite E.
  destruct Hout as [(-> & Hregs & Hshow)|(Hret & Hne & Hregs)].
  - cbn [Z.eqb]. rewrite (shows_code cur q Hshow Hq), (shows_count cur q Hshow Hq).
    assert (Hend : forall r v, r <= 0 -> (r <> 0 -> v = None) ->
      (r = 0 -> exists registers, (registers_get group adc page offset (regs st)).1 = Some registers
        /\ count <= Z.of_nat (length registers) /\ v = Some (take (Z.to_nat count) registers)) ->
      exists result values fs' f' st' k, (r, v, (fs, f1, st1)) = (result, values, (fs', f', st'))
        /\ fmu_ready f' /\ port_ready st' /\ wf (regs st') /\ regs st' = reads page offset k (regs st)
        /\ read_report page offset count (regs st) ((ft, now) :: fs) result values k).
    { intros r v Hr0' Hv Hr. exists r, v, fs, f1, st1, 1%nat. rewrite Hregs. split_and!; [done..|].
      unfold read_report. cbn [length]. split_and!; [lia| |done|done|done].
      intros Hz. destruct (Hr Hz) as (registers & ? & ? & ?). by exists 0%nat, registers. }
    destruct (registers_get group adc page offset (regs st)).1 as [registers|].
    + destruct Hqk as (-> & Hcnt & Hpr). change (PKT_CODE_SUCCESS =? PKT_CODE_ERROR) with false.
      destruct (Z.eqb_spec (PKT_COUNT q) count) as [Ec|Ec]; cbn [negb]; apply Hend; try done.
      intros _. exists registers. split; [done|]. split; [lia|].
      rewrite <- Ec, (shows_regs cur q Hshow). by rewrite Hpr.
    + rewrite Hqk, Z.eqb_refl. by apply Hend.
  - destruct (Z.eqb_spec ret 0) as [->|_]; [lia|].
    assert (Hwf1 : wf (regs st1)) by (destruct Hregs as [->| ->]; done).
    destruct (IH cur f1 st1 ret Hcb Hf1 Hst1 Hwf1 Hfs) as
      (r & v & fs' & f' & st' & k & E' & Hf' & Hst' & Hw' & Hr' & R1 & R2 & R3 & R4 & R5); [lia|].
    destruct Hregs as [Hregs|Hregs]; rewrite Hregs in *.
    + exists r, v, fs', f', st', k. split_and!; [done..|].
      split_and!; cbn [length]; [lia|done|done|by destruct ft|done].
    + exists r, v, fs', f', st', (S k). rewrite reads_S in Hr'. split_and!; [done..|].
      split_and!; cbn [length]; [lia| |done|by destruct ft|done].
      intros Hz. destruct (R2 Hz) as (k0 & registers & -> & Hg & ?). exists (S k0), registers.
      by rewrite <- reads_S.
Qed.
End Line.
