(* ===== verification/Px4ioLink.v ===== *)
(** What the serial link between the FMU driver and PX4IO guarantees: requests
    over a faulty line, replies, and two races of the protocol. *)

From Stdlib Require Import ZArith Lia.
From stdpp Require Import base list numbers.
From S2P Require Import Prelude Crc Px4io Px4ioRegs Px4ioSerial.

Local Open Scope Z_scope.

Section Properties.
Context (group : Z -> Z) (rate_ok : Z -> Z -> bool) (adc : Z -> Z) (beyond : list Z).
Abbreviation exchange := (line_exchange group rate_ok adc beyond).

Lemma address_fields address :
  is_u8 (u8 (Z.shiftr address 8)) /\ is_u8 (Z.land address 0xff).
Proof.
  split; [apply u8_range|]. change 0xff with (Z.ones 8). rewrite Z.land_ones by lia.
  by apply Z.mod_pos_bound.
Qed.

(** C22: writing registers over a faulty line.  Whatever happens to the (up to)
    three exchanges - a byte of the request or of the reply damaged after the
    header byte, a request or a reply lost - the registers PX4IO ends with are
    those of executing the request some number of times, never anything else;
    when the driver reports success the last execution happened and was
    accepted; when the first exchange is clean it is executed exactly once; and
    if any of the three is clean the driver reports success or PX4IO's
    refusal. *)
Theorem write_at_least_once (address : Z) (values : list Z) (fs : list (fate * Z)) (f : fmu) (st : port) :
  fmu_ready f -> port_ready st -> (length values <= 31)%nat -> Forall is_u16 values ->
  length fs = 3%nat -> Forall (fun x => fate_ok x.1) fs ->
  let page := u8 (Z.shiftr address 8) in
  let offset := Z.land address 0xff in
  let count := Z.of_nat (length values) in
  exists result fs' f' st' ts,
    serial_write beyond exchange address values (fs, f, st) = (result, (fs', f', st'))
    /\ fmu_ready f' /\ port_ready st'
    /\ regs st' = writes group rate_ok page offset values ts (regs st) /\ (length ts <= 3)%nat
    /\ (0 <= result -> result = count /\ exists ts0 t, ts = ts0 ++ [t]
         /\ (registers_set group rate_ok t page offset values
               (writes group rate_ok page offset values ts0 (regs st))).1 = 0)
    /\ (clean_first fs -> length ts = 1%nat)
    /\ (Exists (fun x => x.1 = Clean) fs -> result = count \/ result = - EINVAL).
Proof.
  intros Hf Hst Hn Hv Hlen Hfs. cbn zeta. destruct (address_fields address) as [Hp Ho].
  destruct (write_attempts group rate_ok adc beyond (u8 (Z.shiftr address 8)) (Z.land address 0xff)
    values _ Hn Hv Hp Ho eq_refl fs f st 0 Hf Hst Hfs) as
    (r & fs' & f' & st' & ts & E & Hf' & Hst' & Hr & R1 & R2 & R3 & R4 & R5); [by intros ->|].
  rewrite Hlen in *. unfold serial_write, PKT_MAX_REGS.
  destruct (Z.ltb_spec 32 (Z.of_nat (length values))); [lia|]. rewrite E.
  exists (if r =? 0 then Z.of_nat (length values) else r), fs', f', st', ts.
  destruct (Z.eqb_spec r 0) as [Ez|Ez]; split_and!; try done.
  - intros _. split; [done|]. by apply R2.
  - intros _. by left.
  - lia.
  - intros Hc. destruct (R4 Hc); [done | by right].
Qed.

(** C24: reading registers over a faulty line.  When the driver reports success
    the values it returns are exactly [count] consecutive registers of the page
    as PX4IO held them at one of the executed reads; otherwise it returns
    nothing; no read executes more than three times. *)
Theorem read_exact (address count : Z) (buffer : list Z) (fs : list (fate * Z)) (f : fmu) (st : port) :
  fmu_ready f -> port_ready st -> buffer_ok buffer -> wf (regs st) -> (forall c, is_u16 (adc c)) ->
  0 <= count <= 31 -> length fs = 3%nat -> Forall (fun x => fate_ok x.1) fs ->
  let page := u8 (Z.shiftr address 8) in
  let offset := Z.land address 0xff in
  exists result values fs' f' st' k,
    serial_read beyond exchange address count buffer (fs, f, st) = (result, values, (fs', f', st'))
    /\ fmu_ready f' /\ port_ready st' /\ (k <= 3)%nat
    /\ regs st' = reads group adc page offset k (regs st)
    /\ (0 <= result -> result = count /\ exists k0 registers, k = S k0
         /\ (registers_get group adc page offset (reads group adc page offset k0 (regs st))).1
            = Some registers
         /\ (Z.to_nat count <= length registers)%nat
         /\ values = Some (take (Z.to_nat count) registers))
    /\ (result < 0 -> values = None)
    /\ (clean_first fs -> k = 1%nat).
Proof.
  intros Hf Hst Hb Hwf Hadc Hn Hlen Hfs. cbn zeta. destruct (address_fields address) as [Hp Ho].
  destruct (read_attempts group rate_ok adc beyond (u8 (Z.shiftr address 8)) (Z.land address 0xff)
    count Hn Hp Ho Hadc fs buffer f st 0 Hb Hf Hst Hwf Hfs) as
    (r & v & fs' & f' & st' & k & E & Hf' & Hst' & _ & Hr & R1 & R2 & R3 & R4 & R5); [by intros ->|].
  rewrite Hlen in *. unfold serial_read, PKT_MAX_REGS.
  destruct (Z.ltb_spec 32 count); [lia|]. rewrite E.
  exists (if r =? 0 then count else r), v, fs', f', st', k.
  destruct (Z.eqb_spec r 0) as [Ez|Ez]; split_and!; try done.
  - intros _. split; [done|]. destruct (R2 Ez) as (k0 & registers & Hk & Hg & Hc & Hv).
    exists k0, registers. split_and!; [done|done|lia|done].
  - lia.
  - lia.
  - intros _. by apply R3.
Qed.

(** Every reply PX4IO sends is a well-formed packet: whatever bytes are in
    the buffer, it fits the buffer, its length is the one its header announces
    and its checksum is right. *)
Theorem reply_valid (now : Z) (st : port) :
  length (dma_packet st) = packet_size -> Forall is_u8 (dma_packet st) ->
  wf (regs st) -> (forall c, is_u16 (adc c)) ->
  let reply := tx_dma (rx_dma_callback group rate_ok adc beyond now st) in
  packet_ok reply /\ (length reply <= packet_size)%nat.
Proof.
  intros Hl Hu Hwf Hadc. cbn zeta.
  destruct (rx_handle_packet group rate_ok adc beyond now (dma_packet st) (regs st)) as [q s'] eqn:E.
  assert (Hq : reply_ok q).
  { apply (handle_reply group rate_ok adc beyond now (dma_packet st) (regs st) q s'); [done|done| |done].
    intros page offset. apply (wf_registers_get group adc page offset (regs st) Hwf Hadc). }
  destruct Hq as (Hql & Hqu & Hqc).
  destruct (callback_reply group rate_ok adc beyond now st q s') as [-> Hok]; [done..|].
  cbn [tx_dma]. split; [done|]. unfold set_crc. rewrite length_take, !length_aset. lia.
Qed.

(** A request damaged in one byte after the header byte changes no register
    and is answered with the four-byte CORRUPT reply. *)
Theorem damaged_request_ignored (now j e : Z) (request : list Z) (st : port) :
  port_ready st -> packet_ok request -> (length request < packet_size)%nat -> 0 <= j -> 0 < e < 256 ->
  let st' := io_receive group rate_ok adc beyond now (garble j e request) st in
  regs st' = regs st /\ PKT_CODE (tx_dma st') = PKT_CODE_CORRUPT /\ length (tx_dma st') = 4%nat
  /\ packet_ok (tx_dma st').
Proof.
  intros Hst Hok Hn Hj He. cbn zeta.
  destruct (garble_bad j e request) as (G4 & Gs & Gl & Gu & Gc); [done..|].
  destruct (io_bad group rate_ok adc beyond now (garble j e request) st) as (? & ? & ? & ? & _);
    [done|done|done|lia|done|done|]. done.
Qed.

Lemma rx_full now l st :
  port_ready st -> length l = packet_size ->
  fold_left (rx_byte group rate_ok adc beyond now) l st
  = rx_dma_callback group rate_ok adc beyond now (Port l packet_size false (breaks st) [] (regs st)).
Proof.
  intros (Hp & _ & Hc & Ha & Ht) Hl.
  destruct (rev l) as [|b l'] eqn:E; [apply (f_equal (@length Z)) in E; rewrite length_rev in E; by rewrite Hl in E|].
  assert (Hll : l = rev l' ++ [b]) by (by rewrite <- (rev_involutive l), E).
  assert (Hn : length (rev l') = 67%nat)
    by (apply (f_equal (@length Z)) in Hll; rewrite length_app in Hll; unfold packet_size in *; simpl in Hll; lia).
  rewrite Hll, fold_left_app. cbn [fold_left].
  rewrite rx_bytes by (rewrite ?Hc, ?Hn; unfold packet_size; done || lia).
  unfold rx_byte. cbn [rx_count dma_packet abort_on_idle breaks tx_dma regs].
  rewrite Hc, Hn, Ha, Ht, take_0, app_nil_l. cbn [Nat.add Nat.eqb packet_size].
  do 2 f_equal. unfold aset.
  rewrite insert_app_r_alt by (rewrite Hn; vm_compute; lia). f_equal.
  rewrite Hn. change (Z.to_nat (Z.of_nat 67) - 67)%nat with 0%nat.
  destruct (drop 67 (dma_packet st)) as [|x [|y t]] eqn:Ed;
    apply (f_equal (@length Z)) in Ed; rewrite length_drop, Hp in Ed; try done.
Qed.

(** A request that fills the buffer (32 registers) is executed by the DMA
    completion, but the idle interrupt that follows it resets the DMA and drops
    what is left of the reply: the driver sees no answer and repeats the
    request. *)
Theorem full_packet_reply_dropped (now : Z) (l : list Z) (st : port) :
  port_ready st -> length l = packet_size ->
  let st' := io_receive group rate_ok adc beyond now l st in
  regs st' = (rx_handle_packet group rate_ok adc beyond now l (regs st)).2 /\ tx_dma st' = [].
Proof.
  intros Hst Hl. cbn zeta.
  assert (E : io_receive group rate_ok adc beyond now l st
    = serial_interrupt group rate_ok adc beyond now (Sr false true)
        (fold_left (rx_byte group rate_ok adc beyond now) l st)) by (by destruct l).
  rewrite E, rx_full by done. unfold rx_dma_callback. cbn [dma_packet regs].
  by destruct (rx_handle_packet group rate_ok adc beyond now l (regs st)) as [q s'].
Qed.
(** A completion that is posted after the exchange has timed out is taken
    by the next one.  When a reply arrives just after the time-out, the next
    exchange ends at once, and a read request, whose own bytes are still in the
    buffer, passes every check of the driver: it is reported as a successful
    read of whatever the buffer held. *)
Theorem stale_completion (late : list Z) (f : fmu) (page offset count : Z) (buffer : list Z) :
  fmu_ready f -> length (current_packet f) = packet_size -> buffer_ok buffer -> packet_ok late ->
  (length late < packet_size)%nat -> 0 <= count <= 31 -> is_u8 page -> is_u8 offset ->
  let timed_out := (exchange_timeout (fmu_receive late (exchange_start beyond f))).2 in
  let next := set_crc beyond (fill_read page offset count buffer) in
  let '(ret, f') := exchange_end beyond (exchange_start beyond
     (Fmu next (frx_count timed_out) (dmar timed_out) (rx_dma_status timed_out)
          (completion timed_out) (ftx timed_out))) in
  ret = 0 /\ PKT_CODE (current_packet f') = PKT_CODE_SUCCESS
  /\ PKT_COUNT (current_packet f') = count
  /\ (forall k, (k < Z.to_nat count)%nat -> pkt_reg (current_packet f') k = pkt_reg buffer k).
Proof.
  intros Hf Hl Hb (H4 & Hlen & Hu & Hc) Hn Hcount Hp Ho. cbn zeta.
  set (f1 := exchange_start beyond f).
  assert (Hpost : completion (fmu_receive late f1) = 1%nat).
  { assert (E : fmu_receive late f1 = do_interrupt (Sr false true) false (fold_left frx_byte late f1))
      by (destruct late; [simpl in H4; lia | done]).
    rewrite E, frx_bytes by done. unfold do_interrupt.
    cbn [sr_error sr_idle rx_dma_status frx_count current_packet completion ftx f1 exchange_start].
    rewrite take_0, app_nil_l, Nat.add_0_l, decide_True, pkt_size_app, <- Hlen by (done || lia).
    destruct (Nat.ltb_spec (length late) 1); [lia|]. rewrite Nat.ltb_irrefl. cbn [orb].
    unfold do_rx_dma_callback. cbn [rx_dma_status]. rewrite decide_True by done. cbn [completion].
    by rewrite Hf. }
  unfold exchange_timeout. cbn [snd completion abort_dma]. rewrite Hpost.
  unfold exchange_end, exchange_start. cbn [completion rx_dma_status current_packet].
  rewrite decide_False by done. cbn [current_packet].
  pose proof Hb as [Hbl Hbu].
  destruct (read_request beyond page offset count buffer) as [Hreq Hsz];
    [done | unfold PKT_MAX_REGS; lia|].
  set (next := set_crc beyond _) in *.
  destruct (count_bits count) as (_ & Hcb & _ & Hcr & _); [lia|].
  set (body := take (2 * Z.to_nat count) (drop 4 buffer)) in Hreq.
  assert (Hbody : length body = (2 * Z.to_nat count)%nat)
    by (unfold body; rewrite length_take, length_drop, Hbl; unfold packet_size; lia).
  assert (Hok : packet_ok (request count page offset body)).
  { apply request_ok; try done; [unfold is_u8; lia|by apply Forall_take, Forall_drop|by rewrite Hcb]. }
  pose proof Hok as (R4 & Rl & _ & Rc).
  rewrite <- (take_drop (PKT_SIZE next) next), Hreq, crc_field_ok, Rc, Z.eqb_refl by done.
  rewrite <- Hreq, take_drop.
  assert (H0 : aget next 0 = count).
  { unfold next, set_crc, fill_read. rewrite Z.lor_0_r.
    rewrite !aget_aset_ne, aget_aset_eq by (rewrite ?length_aset, ?Hbl; done || lia). done. }
  assert (Hcode : PKT_CODE (aset next 1 0) = PKT_CODE_READ)
    by (rewrite pkt_code_aset by lia; unfold PKT_CODE; by rewrite H0).
  rewrite Hcode. cbn [andb negb current_packet].
  split; [done|]. split; [done|]. split; [rewrite pkt_count_aset by lia; unfold PKT_COUNT; by rewrite H0|].
  intros k Hk. unfold pkt_reg, next, set_crc, fill_read. by rewrite !aget_aset_ne by lia.
Qed.
End Properties.

(** * Witnesses *)

Section Witnesses.

Definition wit_group (g : Z) : Z := if g =? 0 then 0x03 else if g =? 1 then 0xf0 else if g =? 2 then 0x0c else 0.
Definition wit_rate_ok (g rate : Z) : bool := true.
Definition wit_adc (c : Z) : Z := 2048.
Definition wit_beyond : list Z := replicate 62 0.
Definition wit_fmu : fmu := Fmu (replicate 68 0) 0 false Inactive 0 [].
Definition wit_port : port := Port (replicate 68 0) 0 false 0 [] (io_init 330).

Lemma wit_port_ready : port_ready wit_port.
Proof. split_and!; try done. by apply Forall_replicate. Qed.
Lemma wit_buffer : buffer_ok (replicate 68 0).
Proof. split; [done|]. by apply Forall_replicate. Qed.
Lemma wit_adc_ok c : is_u16 (wit_adc c).
Proof. by split. Qed.

(** The arming register is written over a line that damages the first request,
    loses the second reply and then works. *)
Definition wit_faults : list (fate * Z) := [(ReqHit 3 1, 10); (RepLost, 20); (Clean, 30)].

Lemma wit_faults_ok : Forall (fun x => fate_ok x.1) wit_faults.
Proof. repeat (apply Forall_cons_2; [by repeat split|]). by apply Forall_nil_2. Qed.

Lemma write_at_least_once_witness :
  (serial_write wit_beyond (line_exchange wit_group wit_rate_ok wit_adc wit_beyond)
     (PX4IO_PAGE_SETUP * 256 + PX4IO_P_SETUP_ARMING) [3] (wit_faults, wit_fmu, wit_port)).1 = 1
  /\ exists result fs' f' st' ts,
    serial_write wit_beyond (line_exchange wit_group wit_rate_ok wit_adc wit_beyond)
      (PX4IO_PAGE_SETUP * 256 + PX4IO_P_SETUP_ARMING) [3] (wit_faults, wit_fmu, wit_port)
      = (result, (fs', f', st'))
    /\ regs st' = writes wit_group wit_rate_ok 50 1 [3] ts (io_init 330) /\ (length ts <= 3)%nat.
Proof.
  split; [vm_compute; reflexivity|].
  destruct (write_at_least_once wit_group wit_rate_ok wit_adc wit_beyond
    (PX4IO_PAGE_SETUP * 256 + PX4IO_P_SETUP_ARMING) [3] wit_faults wit_fmu wit_port)
    as (r & fs' & f' & st' & ts & E & _ & _ & Hr & Hts & _).
  - reflexivity.
  - exact wit_port_ready.
  - apply le_S_n. vm_compute. lia.
  - by apply Forall_cons_2; [|apply Forall_nil_2].
  - reflexivity.
  - exact wit_faults_ok.
  - exact (ex_intro _ r (ex_intro _ fs' (ex_intro _ f' (ex_intro _ st' (ex_intro _ ts
      (conj E (conj Hr Hts))))))).
Defined.

Lemma read_exact_witness :
  (serial_read wit_beyond (line_exchange wit_group wit_rate_ok wit_adc wit_beyond)
     (PX4IO_PAGE_CONFIG * 256 + 1) 3 (replicate 68 0) (wit_faults, wit_fmu, wit_port)).1
  = (3, Some [2; PX4IO_BL_VERSION; PX4IO_MAX_TRANSFER_LEN])
  /\ exists result values fs' f' st' k,
    serial_read wit_beyond (line_exchange wit_group wit_rate_ok wit_adc wit_beyond)
      (PX4IO_PAGE_CONFIG * 256 + 1) 3 (replicate 68 0) (wit_faults, wit_fmu, wit_port)
      = (result, values, (fs', f', st'))
    /\ (k <= 3)%nat /\ regs st' = reads wit_group wit_adc 0 1 k (io_init 330).
Proof.
  split; [vm_compute; reflexivity|].
  destruct (read_exact wit_group wit_rate_ok wit_adc wit_beyond
    (PX4IO_PAGE_CONFIG * 256 + 1) 3 (replicate 68 0) wit_faults wit_fmu wit_port)
    as (r & v & fs' & f' & st' & k & E & _ & _ & Hk & Hr & _).
  - reflexivity.
  - exact wit_port_ready.
  - exact wit_buffer.
  - apply wf_io_init.
  - exact wit_adc_ok.
  - split; discriminate.
  - reflexivity.
  - exact wit_faults_ok.
  - exact (ex_intro _ r (ex_intro _ v (ex_intro _ fs' (ex_intro _ f' (ex_intro _ st' (ex_intro _ k
      (conj E (conj Hk Hr)))))))).
Defined.

Lemma reply_valid_witness :
  let reply := tx_dma (rx_dma_callback wit_group wit_rate_ok wit_adc wit_beyond 0 wit_port) in
  packet_ok reply /\ (length reply <= packet_size)%nat.
Proof.
  apply (reply_valid wit_group wit_rate_ok wit_adc wit_beyond 0 wit_port).
  - reflexivity.
  - by apply Forall_replicate.
  - apply wf_io_init.
  - exact wit_adc_ok.
Defined.

(** The request that sets the arming register to 3. *)
Definition wit_request : list Z := request 0x41 50 1 [3; 0].

Lemma wit_request_ok : packet_ok wit_request.
Proof. apply request_ok; try done. by repeat apply Forall_cons_2. Qed.

Lemma damaged_request_ignored_witness :
  let st' := io_receive wit_group wit_rate_ok wit_adc wit_beyond 0 (garble 3 0x10 wit_request) wit_port in
  regs st' = regs wit_port /\ PKT_CODE (tx_dma st') = PKT_CODE_CORRUPT
  /\ length (tx_dma st') = 4%nat /\ packet_ok (tx_dma st').
Proof.
  apply (damaged_request_ignored wit_group wit_rate_ok wit_adc wit_beyond 0 3 0x10 wit_request wit_port).
  - exact wit_port_ready.
  - exact wit_request_ok.
  - vm_compute. lia.
  - discriminate.
  - by split.
Defined.

(** A write of 32 registers. *)
Definition wit_full : list Z := request 0x60 51 0 (replicate 64 7).

Lemma full_packet_reply_dropped_witness :
  let st' := io_receive wit_group wit_rate_ok wit_adc wit_beyond 0 wit_full wit_port in
  regs st' = (rx_handle_packet wit_group wit_rate_ok wit_adc wit_beyond 0 wit_full (regs wit_port)).2
  /\ tx_dma st' = [].
Proof.
  apply (full_packet_reply_dropped wit_group wit_rate_ok wit_adc wit_beyond 0 wit_full wit_port).
  - exact wit_port_ready.
  - reflexivity.
Defined.

(** A late reply makes the next read of two registers succeed with the buffer's
    own bytes. *)
Definition wit_late : list Z := request 0x00 50 1 [].

Lemma stale_completion_witness :
  let timed_out := (exchange_timeout (fmu_receive wit_late (exchange_start wit_beyond wit_fmu))).2 in
  let next := set_crc wit_beyond (fill_read 1 2 2 (replicate 68 0x11)) in
  let '(ret, f') := exchange_end wit_beyond (exchange_start wit_beyond
     (Fmu next (frx_count timed_out) (dmar timed_out) (rx_dma_status timed_out)
          (completion timed_out) (ftx timed_out))) in
  ret = 0 /\ PKT_CODE (current_packet f') = PKT_CODE_SUCCESS
  /\ PKT_COUNT (current_packet f') = 2
  /\ (forall k, (k < Z.to_nat 2)%nat -> pkt_reg (current_packet f') k = pkt_reg (replicate 68 0x11) k).
Proof.
  apply (stale_completion wit_beyond wit_late wit_fmu 1 2 2 (replicate 68 0x11)).
  - reflexivity.
  - reflexivity.
  - split; [reflexivity|]. by apply Forall_replicate.
  - apply request_ok; [done|done|done|by apply Forall_nil_2|reflexivity].
  - vm_compute. lia.
  - split; discriminate.
  - by split.
  - by split.
Defined.
End Witnesses.
