(* ===== verification/Float32.v ===== *)
(** C's [float]: IEEE 754 binary32, by the executable specification of
    floating-point numbers of the core library, rounding to nearest even.  The
    conversions to integers truncate; out of the integer's range C leaves the
    value undefined and the model wraps. *)

From Stdlib Require Import ZArith Lia SpecFloat.
From stdpp Require Import base list numbers.
From S2P Require Import Prelude.

Local Open Scope Z_scope.

Abbreviation float := spec_float.

Definition fadd : float -> float -> float := SFadd 24 128.
Definition fmul : float -> float -> float := SFmul 24 128.
Definition fdiv : float -> float -> float := SFdiv 24 128.
Definition fneg : float -> float := SFopp.
Definition fsub (x y : float) : float := fadd x (fneg y).
Definition fltb : float -> float -> bool := SFltb.
Definition f_of_Z (z : Z) : float := binary_normalize 24 128 z 0 false.
Definition NAN : float := S754_nan.

Definition fleb : float -> float -> bool := SFleb.
Definition fabs : float -> float := SFabs.
Definition fsqrt : float -> float := SFsqrt 24 128.
Definition FLT_EPSILON : float := S754_finite false 8388608 (-46).

(** The decimal constant [n / 10^k], correctly rounded: the quotient of two
    integers that are exact in binary32. *)
Definition f_dec (n d : Z) : float := fdiv (f_of_Z n) (f_of_Z d).

Definition isfinite (x : float) : bool :=
  match x with S754_zero _ | S754_finite _ _ _ => true | _ => false end.

(** [(int)x] *)
Definition f_trunc (x : float) : Z :=
  match x with
  | S754_finite s m e =>
      let a := if 0 <=? e then Z.pos m * 2 ^ e else Z.pos m / 2 ^ (- e) in
      if s then - a else a
  | _ => 0
  end.

(** [floorf], as an integer. *)
Definition f_floor (x : float) : Z :=
  match x with
  | S754_finite s m e =>
      let a := cond_Zopp s (Z.pos m) in
      if 0 <=? e then a * 2 ^ e else a / 2 ^ (- e)
  | _ => 0
  end.

(** [roundf], as an integer: halves away from zero. *)
Definition f_round (x : float) : Z :=
  match x with
  | S754_finite s m e =>
      let a := if 0 <=? e then Z.pos m * 2 ^ e else (2 * Z.pos m + 2 ^ (- e)) / (2 * 2 ^ (- e)) in
      if s then - a else a
  | _ => 0
  end.

(** [math::constrain(x, lo, hi)] *)
Definition fconstrain (x lo hi : float) : float :=
  if fltb x lo then lo else if fltb hi x then hi else x.

(** [math::min] and [math::max] *)
Definition fmin (a b : float) : float := if fltb a b then a else b.
Definition fmax (a b : float) : float := if fltb b a then a else b.

Definition INFINITY : float := S754_infinity false.

(** [math::radians], with [MATH_PI] rounded to binary32. *)
Definition radians (degrees : float) : float :=
  fmul degrees (fdiv (S754_finite false 13176795 (-22)) (f_of_Z 180)).

(** ** Comparisons *)

(** Inside the interval, as far as comparisons tell: a NaN is. *)
Definition within (lo hi x : float) : Prop := fltb x lo = false /\ fltb hi x = false.

Lemma fltb_irrefl x : fltb x x = false.
Proof.
  unfold fltb, SFltb. destruct x as [s|s| |s m e]; try done; simpl; [by destruct s|].
  rewrite Z.compare_refl, Pos.compare_refl. by destruct s.
Qed.

Lemma constrain_within x lo hi : fltb hi lo = false -> within lo hi (fconstrain x lo hi).
Proof.
  intros H. unfold within, fconstrain. destruct (fltb x lo) eqn:E1; [split; [apply fltb_irrefl | done]|].
  destruct (fltb hi x) eqn:E2; [split; [done | apply fltb_irrefl] | by split].
Qed.

(** ** A NaN is contagious *)

Lemma fadd_nan_r x : fadd x NAN = NAN.
Proof. by destruct x. Qed.
Lemma fsub_nan_l x : fsub NAN x = NAN.
Proof. done. Qed.
Lemma fsub_nan_r x : fsub x NAN = NAN.
Proof. by destruct x. Qed.
Lemma fmul_nan_r x : fmul x NAN = NAN.
Proof. by destruct x. Qed.
Lemma fdiv_nan_r x : fdiv x NAN = NAN.
Proof. by destruct x. Qed.
Lemma fltb_nan_r x : fltb x NAN = false.
Proof. by destruct x as [[]|[]| |[]]. Qed.
Lemma fleb_nan_r x : fleb x NAN = false.
Proof. by destruct x as [[]|[]| |[]]. Qed.
Lemma fadd_nan_l x : fadd NAN x = NAN.
Proof. done. Qed.
Lemma fmul_nan_l x : fmul NAN x = NAN.
Proof. done. Qed.
Lemma fdiv_nan_l x : fdiv NAN x = NAN.
Proof. done. Qed.
Lemma fltb_nan_l x : fltb NAN x = false.
Proof. done. Qed.
Lemma fleb_nan_l x : fleb NAN x = false.
Proof. done. Qed.

Create Rewrite HintDb nan.
#[export] Hint Rewrite fadd_nan_l fadd_nan_r fsub_nan_l fsub_nan_r fmul_nan_l fmul_nan_r fdiv_nan_l fdiv_nan_r
  fltb_nan_l fltb_nan_r fleb_nan_l fleb_nan_r : nan.

Lemma f_dec_exact : f_dec 1 2 = S754_finite false 8388608 (-24).
Proof. reflexivity. Qed.

Lemma f_trunc_of_Z : f_trunc (f_of_Z 1500) = 1500 /\ f_trunc (fneg (f_dec 3 2)) = -1 /\ f_floor (fneg (f_dec 3 2)) = -2.
Proof. split_and!; reflexivity. Qed.
