(* ===== verification/PwmLimit.v ===== *)
(** The output limiter (src/lib/output_limit): the ramp between disarmed and
    full output, and the conversion of the mixer's outputs in [-1, 1] to pulse
    widths.  An output array is a list, [num_channels] long. *)

From Stdlib Require Import ZArith Lia.
From stdpp Require Import base list numbers.
From S2P Require Import Prelude Float32.

Local Open Scope Z_scope.

Definition INIT_TIME_US : Z := 50000.
Definition RAMP_TIME_US : Z := 500000.
Definition PROGRESS_INT_SCALING : Z := 10000.

Inductive output_limit_state :=
| OUTPUT_LIMIT_STATE_OFF | OUTPUT_LIMIT_STATE_INIT | OUTPUT_LIMIT_STATE_RAMP | OUTPUT_LIMIT_STATE_ON.
#[export] Instance output_limit_state_eq_dec : EqDecision output_limit_state.
Proof. solve_decision. Defined.

Record output_limit_t := Output_limit {
  limit_state : output_limit_state;
  time_armed : Z;
  ramp_up : bool
}.

Definition output_limit_init : output_limit_t := Output_limit OUTPUT_LIMIT_STATE_INIT 0 true.

(** [hrt_elapsed_time(&t) >= d] *)
Definition elapsed (now t : Z) : Z := u64 (now - t).

(** The state changes at the start of [output_limit_calc]. *)
Definition limit_step (now : Z) (armed : bool) (l : output_limit_t) : output_limit_t :=
  match limit_state l with
  | OUTPUT_LIMIT_STATE_INIT =>
      if armed then
        let t := if time_armed l =? 0 then now else time_armed l in
        Output_limit (if INIT_TIME_US <=? elapsed now t then OUTPUT_LIMIT_STATE_OFF
                      else OUTPUT_LIMIT_STATE_INIT) t (ramp_up l)
      else l
  | OUTPUT_LIMIT_STATE_OFF =>
      if armed then
        Output_limit (if ramp_up l then OUTPUT_LIMIT_STATE_RAMP else OUTPUT_LIMIT_STATE_ON) now (ramp_up l)
      else l
  | OUTPUT_LIMIT_STATE_RAMP =>
      if negb armed then Output_limit OUTPUT_LIMIT_STATE_OFF (time_armed l) (ramp_up l)
      else if RAMP_TIME_US <=? elapsed now (time_armed l)
      then Output_limit OUTPUT_LIMIT_STATE_ON (time_armed l) (ramp_up l)
      else l
  | OUTPUT_LIMIT_STATE_ON =>
      if negb armed then Output_limit OUTPUT_LIMIT_STATE_OFF (time_armed l) (ramp_up l) else l
  end.

(** What one channel has. *)
Record channel := Channel {
  ch_output : float;
  ch_reverse : bool;
  ch_disarmed : Z;
  ch_min : Z;
  ch_max : Z
}.

(** The pulse of a finite control value between [lo] and the channel's maximum:
    [control * (max - lo) / 2 + (max + lo) / 2], clamped. *)
Definition scale_output (lo : Z) (c : channel) : Z :=
  let control_value :=
    if ch_reverse c then fmul (fneg (f_of_Z 1)) (ch_output c) else ch_output c in
  let v := u16 (f_trunc (fadd (fdiv (fmul control_value (f_of_Z (ch_max c - lo))) (f_of_Z 2))
                              (f_of_Z (Z.quot (ch_max c + lo) 2)))) in
  if v <? lo then lo else if ch_max c <? v then ch_max c else v.

Definition ramp_progress (now : Z) (l : output_limit_t) : Z :=
  let progress := u32 (u64 (elapsed now (time_armed l) * PROGRESS_INT_SCALING) / RAMP_TIME_US) in
  if PROGRESS_INT_SCALING <? progress then PROGRESS_INT_SCALING else progress.

Definition ramp_min_output (progress : Z) (c : channel) : Z :=
  if 0 <? ch_disarmed c then
    let disarmed := if ch_min c <? ch_disarmed c then ch_min c else ch_disarmed c in
    let disarmed_min_diff := ch_min c - disarmed in
    u16 (disarmed + u32 (disarmed_min_diff * progress) / PROGRESS_INT_SCALING)
  else ch_min c.

Definition effective_output (now : Z) (pre_armed : bool) (l : output_limit_t) (c : channel) : Z :=
  match if pre_armed then OUTPUT_LIMIT_STATE_ON else limit_state l with
  | OUTPUT_LIMIT_STATE_OFF | OUTPUT_LIMIT_STATE_INIT => ch_disarmed c
  | OUTPUT_LIMIT_STATE_RAMP =>
      if negb (isfinite (ch_output c)) then ch_disarmed c
      else scale_output (ramp_min_output (ramp_progress now l) c) c
  | OUTPUT_LIMIT_STATE_ON =>
      if negb (isfinite (ch_output c)) then ch_disarmed c else scale_output (ch_min c) c
  end.

(** [now] is the clock during the call. *)
Definition output_limit_calc (now : Z) (armed pre_armed : bool) (channels : list channel)
    (l : output_limit_t) : list Z * output_limit_t :=
  let l := limit_step now armed l in
  (effective_output now pre_armed l <$> channels, l).

(** * Bounds *)

Definition channel_ok (c : channel) : Prop :=
  is_u16 (ch_disarmed c) /\ is_u16 (ch_min c) /\ is_u16 (ch_max c) /\ ch_min c <= ch_max c.

Lemma scale_output_range lo c : lo <= ch_max c -> lo <= scale_output lo c <= ch_max c.
Proof.
  intros H. unfold scale_output. set (v := u16 _). clearbody v.
  destruct (Z.ltb_spec v lo); [lia|]. destruct (Z.ltb_spec (ch_max c) v); lia.
Qed.

Lemma ramp_progress_range now l : 0 <= ramp_progress now l <= PROGRESS_INT_SCALING.
Proof.
  unfold ramp_progress. pose proof (u32_range (u64 (elapsed now (time_armed l) * PROGRESS_INT_SCALING) / RAMP_TIME_US)) as H.
  set (p := u32 _) in *. clearbody p. unfold PROGRESS_INT_SCALING.
  unfold is_u32 in H. destruct (Z.ltb_spec 10000 p); lia.
Qed.

(** The ramp starts no lower than the disarmed value or the minimum and never
    exceeds the minimum: the product in 32 bits does not overflow. *)
Lemma ramp_min_range p c :
  channel_ok c -> 0 <= p <= PROGRESS_INT_SCALING ->
  Z.min (ch_disarmed c) (ch_min c) <= ramp_min_output p c <= ch_min c.
Proof.
  intros (Hd & Hm & _ & _) Hp. unfold ramp_min_output, is_u16, PROGRESS_INT_SCALING in *.
  destruct (Z.ltb_spec 0 (ch_disarmed c)); [|lia].
  set (d := if ch_min c <? ch_disarmed c then _ else _).
  assert (Ed : d = Z.min (ch_disarmed c) (ch_min c)) by (subst d; destruct (Z.ltb_spec (ch_min c) (ch_disarmed c)); lia).
  rewrite <- Ed. clearbody d.
  rewrite (u32_small ((ch_min c - d) * p)) by (unfold is_u32; nia).
  assert (0 <= (ch_min c - d) * p / 10000 <= ch_min c - d).
  { split; [apply Z.div_pos; nia|]. apply Z.div_le_upper_bound; nia. }
  rewrite u16_small by (unfold is_u16; lia). lia.
Qed.

(** C37: whatever the mixer computes, NaN included, and whatever the clock, a
    pulse is the channel's disarmed value or lies between its minimum (during
    the ramp: the lower of minimum and disarmed value) and its maximum; and
    without arming and pre-arming every output is the disarmed value. *)
Theorem pulses_bounded (now : Z) (armed pre_armed : bool) (chs : list channel) (l : output_limit_t)
    (i : nat) (c : channel) (v : Z) :
  chs !! i = Some c -> channel_ok c ->
  (output_limit_calc now armed pre_armed chs l).1 !! i = Some v ->
  (v = ch_disarmed c \/ Z.min (ch_disarmed c) (ch_min c) <= v <= ch_max c)
  /\ (limit_state (output_limit_calc now armed pre_armed chs l).2 <> OUTPUT_LIMIT_STATE_RAMP \/ pre_armed = true ->
      v = ch_disarmed c \/ ch_min c <= v <= ch_max c)
  /\ (armed = false -> pre_armed = false -> v = ch_disarmed c).
Proof.
  unfold output_limit_calc. cbn [fst snd]. intros Hc Hok Hv.
  rewrite list_lookup_fmap, Hc in Hv. injection Hv as <-.
  set (l' := limit_step now armed l). pose proof Hok as (_ & _ & _ & Hmm).
  pose proof (scale_output_range (ch_min c) c Hmm) as Hs.
  pose proof (ramp_min_range _ c Hok (ramp_progress_range now l')) as Hr.
  pose proof (scale_output_range (ramp_min_output (ramp_progress now l') c) c ltac:(lia)) as Hs'.
  unfold effective_output.
  split; [|split].
  - destruct pre_armed, (limit_state l'); try (by left); destruct (isfinite _); simpl; try (by left); right; lia.
  - intros H. destruct pre_armed, (limit_state l'); try (by left); destruct (isfinite _); simpl;
      try (by left); try (right; lia); by destruct H.
  - intros -> ->. subst l'. unfold limit_step. by destruct l as [[] t r].
Qed.

(** * The ramp over a history of calls *)

(** A call: the clock and whether the system is armed. *)
Definition limit_call : Type := Z * bool.

Definition limit_run (cs : list limit_call) (l : output_limit_t) : output_limit_t :=
  fold_left (fun l c => limit_step c.1 c.2 l) cs l.

(** The clock does not run backwards (from [t]) or overflow. *)
Fixpoint clock_ok (t : Z) (cs : list limit_call) : Prop :=
  match cs with [] => True | c :: cs => t <= c.1 < 2 ^ 64 /\ clock_ok c.1 cs end.

Definition last_time (t : Z) (cs : list limit_call) : Z := fold_left (fun _ c => c.1) cs t.

Lemma clock_snoc t cs c :
  clock_ok t (cs ++ [c]) <-> clock_ok t cs /\ last_time t cs <= c.1 < 2 ^ 64.
Proof.
  revert t. induction cs as [|d cs IH]; intros t; simpl; [tauto|]. rewrite IH. unfold last_time. simpl. tauto.
Qed.

(** Armed at [t0] and at every call since; the calls since, from the first. *)
Definition armed_since (t0 : Z) (cs : list limit_call) : Prop :=
  exists pre suf, cs = pre ++ (t0, true) :: suf /\ Forall (fun c => c.2 = true) suf.

Lemma armed_since_snoc t0 cs t : armed_since t0 cs -> armed_since t0 (cs ++ [(t, true)]).
Proof.
  intros (pre & suf & -> & H). exists pre, (suf ++ [(t, true)]). split; [by rewrite <- app_assoc|].
  apply Forall_app. auto.
Qed.

Definition ramp_inv (cs : list limit_call) (l : output_limit_t) : Prop :=
  ramp_up l = true
  /\ match limit_state l with
     | OUTPUT_LIMIT_STATE_RAMP => armed_since (time_armed l) cs
     | OUTPUT_LIMIT_STATE_ON =>
         exists t0, armed_since t0 cs /\ t0 + RAMP_TIME_US <= last_time 0 cs
     | _ => True
     end.

Lemma last_time_snoc t cs c : last_time t (cs ++ [c]) = c.1.
Proof. unfold last_time. by rewrite fold_left_app. Qed.

Lemma since_before t0 cs : clock_ok 0 cs -> armed_since t0 cs -> 0 <= t0 <= last_time 0 cs.
Proof.
  intros Hc (pre & suf & -> & _). revert Hc. generalize 0. induction pre as [|p pre IH]; intros z; simpl.
  - intros [H1 H2]. split; [lia|]. unfold last_time. simpl. clear H1. revert H2.
    generalize t0. induction suf as [|q suf IHs]; intros t; simpl; [lia|].
    intros [H3 H4]. specialize (IHs q.1 H4). unfold last_time in *. lia.
  - intros [H1 H2]. specialize (IH _ H2). unfold last_time in *. simpl. lia.
Qed.

Lemma ramp_inv_step cs l t a :
  clock_ok 0 (cs ++ [(t, a)]) -> ramp_inv cs l -> ramp_inv (cs ++ [(t, a)]) (limit_step t a l).
Proof.
  intros [Hc Ht]%clock_snoc [Hu Hs]. simpl in Ht.
  unfold ramp_inv. rewrite last_time_snoc. cbn [fst].
  unfold limit_step. destruct (limit_state l) eqn:E.
  - destruct a; [|by rewrite E]. rewrite Hu. simpl. split; [done|]. by exists cs, [].
  - destruct a; [|by rewrite E]. simpl. split; [done|].
    by destruct (INIT_TIME_US <=? _).
  - destruct a; simpl; [|done].
    pose proof (since_before _ _ Hc Hs) as Hb. unfold elapsed.
    assert (Hw : u64 (t - time_armed l) = t - time_armed l)
      by (unfold u64; apply Z.mod_small; change 18446744073709551616 with (2 ^ 64); lia).
    rewrite Hw.
    destruct (Z.leb_spec RAMP_TIME_US (t - time_armed l)); simpl.
    + split; [done|]. exists (time_armed l). split; [by apply armed_since_snoc | lia].
    + rewrite E. split; [done|]. by apply armed_since_snoc.
  - destruct a; simpl; [|done]. rewrite E. split; [done|].
    destruct Hs as (t0 & H1 & H2). exists t0. split; [by apply armed_since_snoc | lia].
Qed.

(** Full output needs the whole ramp: from power-up, over every history of
    calls with a clock that does not run backwards, the limiter is ON only if
    every call of the last half second (from some call on, at least 500 ms
    before the last) was armed; a single disarmed call starts over. *)
Theorem full_output_after_ramp (cs : list limit_call) :
  clock_ok 0 cs -> limit_state (limit_run cs output_limit_init) = OUTPUT_LIMIT_STATE_ON ->
  exists pre t0 suf, cs = pre ++ (t0, true) :: suf /\ Forall (fun c => c.2 = true) suf
    /\ t0 + 500000 <= last_time 0 cs.
Proof.
  intros Hc Hon.
  assert (Hi : ramp_inv cs (limit_run cs output_limit_init)).
  { clear Hon. induction cs as [|[t a] cs IH] using rev_ind; [done|].
    unfold limit_run. rewrite fold_left_app. simpl. apply ramp_inv_step; [done|].
    apply IH. by apply clock_snoc in Hc as [Hc _]. }
  destruct Hi as [_ Hi]. rewrite Hon in Hi. destruct Hi as (t0 & (pre & suf & H1 & H2) & H3).
  by exists pre, t0, suf.
Qed.

(** ** Concrete runs *)

Definition some_channel (out : float) : channel := Channel out false 900 1000 2000.

Lemma pulses_bounded_witness :
  let r := output_limit_calc 1000000 true false [some_channel (f_dec 1 2); some_channel NAN]
             (Output_limit OUTPUT_LIMIT_STATE_RAMP 750000 true) in
  r.1 = [1737; 900] /\ Z.min 900 1000 <= 1737 <= 2000.
Proof.
  intros r. split; [vm_compute; reflexivity|].
  destruct (pulses_bounded 1000000 true false [some_channel (f_dec 1 2); some_channel NAN]
    (Output_limit OUTPUT_LIMIT_STATE_RAMP 750000 true) 0 (some_channel (f_dec 1 2)) 1737) as [[H|H] _].
  - reflexivity.
  - unfold channel_ok, is_u16. simpl. lia.
  - vm_compute. reflexivity.
  - simpl in H. discriminate H.
  - exact H.
Defined.

Definition arming_run : list limit_call :=
  [(100, true); (60000, true); (70000, true); (300000, true); (580000, true)].

Lemma full_output_after_ramp_witness :
  limit_state (limit_run arming_run output_limit_init) = OUTPUT_LIMIT_STATE_ON
  /\ exists pre t0 suf, arming_run = pre ++ (t0, true) :: suf /\ Forall (fun c => c.2 = true) suf
       /\ t0 + 500000 <= last_time 0 arming_run.
Proof.
  split; [vm_compute; reflexivity|].
  apply full_output_after_ramp; [simpl; lia | vm_compute; reflexivity].
Defined.
