(* ===== verification/Px4ioMixer.v ===== *)
(** The output side of PX4IO: [mixer_tick] (mixer.cpp), which every pass of the
    main loop runs.  It decides which controls the servos follow, whether the
    outputs are armed, when the flight is terminated, mixes, and drives the
    servos.

    The mixer library (lib/mixer, floating point C++) is the record
    [mixer_ops], with the callback through which it reads its inputs; the
    output limiter is [PwmLimit].  [now] is the clock and [dt] the time step of
    the pass; the register interrupts are taken between two passes. *)

From Stdlib Require Import ZArith Lia SpecFloat.
From stdpp Require Import base list numbers.
From S2P Require Import Prelude Float32 PwmLimit Px4io Px4ioRegs.

Local Open Scope Z_scope.

Definition FMU_INPUT_DROP_LIMIT_US : Z := 500000.

Inductive mixer_source :=
| MIX_NONE | MIX_DISARMED | MIX_FMU | MIX_OVERRIDE | MIX_FAILSAFE | MIX_OVERRIDE_FMU_OK.
#[export] Instance mixer_source_eq_dec : EqDecision mixer_source.
Proof. solve_decision. Defined.

(** actuator_controls.msg *)
Definition GROUP_INDEX_ATTITUDE : Z := 0.
Definition GROUP_INDEX_ATTITUDE_ALTERNATE : Z := 1.
Definition INDEX_ROLL : Z := 0.
Definition INDEX_PITCH : Z := 1.
Definition INDEX_YAW : Z := 2.
Definition INDEX_THROTTLE : Z := 3.

Definition CONTROL_PAGE_INDEX (group channel : Z) : Z := group * PX4IO_CONTROL_CHANNELS + channel.

(** protocol.h *)
Definition REG_TO_FLOAT (reg : Z) : float := fdiv (f_of_Z (s16 reg)) (f_of_Z 10000).
Definition FLOAT_TO_REG (x : float) : Z :=
  u16 (s16 (f_floor (fmul (fadd x (f_dec 5 100000)) (f_of_Z 10000)))).

(** The callback of the mixers: group and index to the return value and the
    control. *)
Definition callback : Type := Z -> Z -> Z * float.

(** The operations of the MixerGroup. *)
Record mixer_ops (G : Type) := Mixer_ops {
  mg_reset : G -> G;
  mg_load_from_buf : list Z -> G -> Z * G;         (* the text left over: its length *)
  mg_set_trims : list Z -> G -> G;
  mg_set_airmode : Z -> G -> G;
  mg_set_max_delta_out_once : float -> G -> G;
  mg_set_dt_once : float -> G -> G;
  mg_set_thrust_factor : float -> G -> G;
  mg_mix : callback -> G -> list float * G;        (* at most 8 outputs *)
  mg_get_saturation_status : G -> Z
}.
Arguments mg_reset {G}. Arguments mg_load_from_buf {G}. Arguments mg_set_trims {G}.
Arguments mg_set_airmode {G}. Arguments mg_set_max_delta_out_once {G}.
Arguments mg_set_dt_once {G}. Arguments mg_set_thrust_factor {G}. Arguments mg_mix {G}.
Arguments mg_get_saturation_status {G}.

(** What the tick keeps between passes. *)
Record mix G := Mix {
  mio : io;
  mixer_group : G;
  pwm_limit : output_limit_t;
  mixer_servos_armed : bool;
  should_arm : bool;
  should_arm_nothrottle : bool;
  should_always_enable_pwm : bool;
  new_fmu_data : bool;
  last_fmu_update : Z;
  source : mixer_source
}.
Arguments Mix {G}. Arguments mio {G}. Arguments mixer_group {G}. Arguments pwm_limit {G}.
Arguments mixer_servos_armed {G}. Arguments should_arm {G}. Arguments should_arm_nothrottle {G}.
Arguments should_always_enable_pwm {G}. Arguments new_fmu_data {G}. Arguments last_fmu_update {G}.
Arguments source {G}.

Section Tick.
Context {G : Type} (ops : mixer_ops G).

Definition on_io (f : io -> io) (m : mix G) : mix G :=
  Mix (f (mio m)) (mixer_group m) (pwm_limit m) (mixer_servos_armed m) (should_arm m)
    (should_arm_nothrottle m) (should_always_enable_pwm m) (new_fmu_data m) (last_fmu_update m)
    (source m).
Definition on_group (f : G -> G) (m : mix G) : mix G :=
  Mix (mio m) (f (mixer_group m)) (pwm_limit m) (mixer_servos_armed m) (should_arm m)
    (should_arm_nothrottle m) (should_always_enable_pwm m) (new_fmu_data m) (last_fmu_update m)
    (source m).
Definition set_source (v : mixer_source) (m : mix G) : mix G :=
  Mix (mio m) (mixer_group m) (pwm_limit m) (mixer_servos_armed m) (should_arm m)
    (should_arm_nothrottle m) (should_always_enable_pwm m) (new_fmu_data m) (last_fmu_update m) v.
Definition set_servos_armed (v : bool) (m : mix G) : mix G :=
  Mix (mio m) (mixer_group m) (pwm_limit m) v (should_arm m)
    (should_arm_nothrottle m) (should_always_enable_pwm m) (new_fmu_data m) (last_fmu_update m)
    (source m).
Definition set_should (a b c : bool) (m : mix G) : mix G :=
  Mix (mio m) (mixer_group m) (pwm_limit m) (mixer_servos_armed m) a b c (new_fmu_data m)
    (last_fmu_update m) (source m).
Definition set_fmu_data (new : bool) (last : Z) (m : mix G) : mix G :=
  Mix (mio m) (mixer_group m) (pwm_limit m) (mixer_servos_armed m) (should_arm m)
    (should_arm_nothrottle m) (should_always_enable_pwm m) new last (source m).
Definition set_limit (v : output_limit_t) (m : mix G) : mix G :=
  Mix (mio m) (mixer_group m) v (mixer_servos_armed m) (should_arm m)
    (should_arm_nothrottle m) (should_always_enable_pwm m) (new_fmu_data m) (last_fmu_update m)
    (source m).

Abbreviation status_flag m x := (status_is x (mio m)).
Abbreviation arming_flag m x := (arming_is x (mio m)).
Definition flags_or (x : Z) : mix G -> mix G := on_io (atomic_modify_or STATUS PX4IO_P_STATUS_FLAGS x).
Definition flags_clear (x : Z) : mix G -> mix G := on_io (atomic_modify_clear STATUS PX4IO_P_STATUS_FLAGS x).

(** ** mixer_callback *)

(** The control a source gives, [None] where the callback returns -1. *)
Definition source_control (m : mix G) (group index : Z) : option float :=
  let in_controls := (index <? PX4IO_CONTROL_CHANNELS) && (group <? PX4IO_CONTROL_GROUPS) in
  let fmu := rget CONTROLS (CONTROL_PAGE_INDEX group index) (mio m) in
  let rc_valid := Z.testbit (rget RC_INPUT PX4IO_P_RC_VALID (mio m)) (CONTROL_PAGE_INDEX group index) in
  let rc := REG_TO_FLOAT (rget RC_INPUT (PX4IO_P_RC_BASE + index) (mio m)) in
  match source m with
  | MIX_FMU =>
      if in_controls then Some (if fmu =? 32767 then NAN else REG_TO_FLOAT fmu) else None
  | MIX_OVERRIDE => if rc_valid then Some rc else None
  | MIX_OVERRIDE_FMU_OK =>
      if rc_valid then Some rc else if in_controls then Some (REG_TO_FLOAT fmu) else None
  | MIX_DISARMED | MIX_FAILSAFE | MIX_NONE => None
  end.

Definition apply_trim (m : mix G) (group index : Z) (control : float) : float :=
  let setup := fun i => REG_TO_FLOAT (rget SETUP i (mio m)) in
  if group =? GROUP_INDEX_ATTITUDE then
    if index =? INDEX_ROLL then
      fadd (fmul control (setup PX4IO_P_SETUP_SCALE_ROLL)) (setup PX4IO_P_SETUP_TRIM_ROLL)
    else if index =? INDEX_PITCH then
      fadd (fmul control (setup PX4IO_P_SETUP_SCALE_PITCH)) (setup PX4IO_P_SETUP_TRIM_PITCH)
    else if index =? INDEX_YAW then
      fadd (fmul control (setup PX4IO_P_SETUP_SCALE_YAW)) (setup PX4IO_P_SETUP_TRIM_YAW)
    else control
  else control.

Definition is_throttle (group index : Z) : bool :=
  ((group =? GROUP_INDEX_ATTITUDE) || (group =? GROUP_INDEX_ATTITUDE_ALTERNATE))
  && (index =? INDEX_THROTTLE).

Definition mixer_callback (m : mix G) : callback := fun group index =>
  if PX4IO_CONTROL_GROUPS <=? group then (-1, f_of_Z 0)
  else
    match source_control m group index with
    | None => (-1, f_of_Z 0)
    | Some control =>
        let control :=
          match source m with
          | MIX_OVERRIDE | MIX_OVERRIDE_FMU_OK => apply_trim m group index control
          | _ => control
          end in
        let control := fconstrain control (f_of_Z (-1)) (f_of_Z 1) in
        let prearmed := should_arm_nothrottle m && negb (should_arm m) in
        let control :=
          if (bool_decide (limit_state (pwm_limit m) = OUTPUT_LIMIT_STATE_RAMP) || prearmed)
             && is_throttle group index then f_of_Z 0 else control in
        (0, if prearmed && is_throttle group index then NAN else control)
    end.

(** ** Mixer text and failsafe defaults *)

(** [mixer_handle_text_create_mixer] *)
Definition create_mixer (m : mix G) : mix G :=
  if status_flag m FLAGS_SAFETY_OFF && arming_flag m ARMING_FMU_ARMED then m
  else
    let t := mixer (mio m) in
    let m := if mixer_reset_pending t then
               on_io (set_mixer (Mixtext (mixer_text t) (mixer_text_length t) false
                                   (mixer_update_pending t) (mix_failsafe t)))
                 (on_group (mg_reset ops) m)
             else m in
    let t := mixer (mio m) in
    if negb (mixer_update_pending t) || (mixer_text_length t =? 0) then m
    else
      let '(resid, g) := mg_load_from_buf ops (take (Z.to_nat (mixer_text_length t)) (mixer_text t))
                           (mixer_group m) in
      let m := on_group (fun _ => g) m in
      let text :=
        if (0 <? resid) && negb (resid =? mixer_text_length t) then
          aset (text_copy (take (Z.to_nat resid)
                  (drop (Z.to_nat (mixer_text_length t - resid)) (mixer_text t))) 0 (mixer_text t)) resid 0
        else mixer_text t in
      on_io (fun s => set_update_thrust true (set_update_trims true
               (set_mixer (Mixtext text resid (mixer_reset_pending t) false (mix_failsafe t)) s))) m.

(** The slew rate, time step, thrust model and mixing shared by the tick and by
    the failsafe defaults. *)
Definition run_mixers (dt : float) (m : mix G) : list float * mix G :=
  let slew := REG_TO_FLOAT (rget SETUP PX4IO_P_SETUP_MOTOR_SLEW_MAX (mio m)) in
  let m := if fltb FLT_EPSILON slew then
             let range := rget CMAX 0 (mio m) - rget CMIN 0 (mio m) in
             on_group (mg_set_max_delta_out_once ops
               (fdiv (fdiv (fmul (fmul (f_of_Z 2) (f_of_Z 1000)) dt) (f_of_Z range)) slew)) m
           else m in
  let m := on_group (mg_set_dt_once ops dt) m in
  let m := if update_mc_thrust_param (mio m) then
             on_io (set_update_thrust false)
               (on_group (mg_set_thrust_factor ops
                  (REG_TO_FLOAT (rget SETUP PX4IO_P_SETUP_THR_MDL_FAC (mio m)))) m)
           else m in
  if status_flag m FLAGS_MIXER_OK then
    let '(outputs, g) := mg_mix ops (mixer_callback m) (mixer_group m) in
    let m := on_group (fun _ => g) m in
    (outputs, on_io (rset STATUS PX4IO_P_STATUS_MIXER (u16 (mg_get_saturation_status ops g))) m)
  else ([], m).

Definition pad8 (v : Z) (l : list Z) : list Z := l ++ replicate (8 - length l) v.

Definition mixer_mix_failsafe (dt : float) (m : mix G) : mix G :=
  if arming_flag m ARMING_FAILSAFE_CUSTOM || negb (status_flag m FLAGS_MIXER_OK) then m
  else
    let '(outputs, m) := run_mixers dt m in
    on_io (pset FAILSAFE
      (pad8 0 ((fun x => u16 (f_trunc (fadd (fmul x (f_of_Z 600)) (f_of_Z 1500)))) <$> outputs))) m.

Definition clear_mix_failsafe (s : io) : io :=
  let t := mixer s in
  set_mixer (Mixtext (mixer_text t) (mixer_text_length t) (mixer_reset_pending t)
               (mixer_update_pending t) false) s.

(** ** The decisions of a tick *)

(** Is the FMU alive? *)
Definition tick_fmu (now : Z) (m : mix G) : mix G :=
  let t := fmu_data_received_time (mio m) in
  if (t =? 0) || (FMU_INPUT_DROP_LIMIT_US <? u64 (now - t)) then
    on_io (atomic_modify_or STATUS PX4IO_P_STATUS_ALARMS ALARMS_FMU_LOST) (flags_clear FLAGS_FMU_OK m)
  else
    let m := flags_or FLAGS_FMU_INITIALIZED (flags_or FLAGS_FMU_OK m) in
    if last_fmu_update m <? t then set_fmu_data true t m else m.

(** Which controls to use. *)
Definition select_source (m : mix G) : mix G :=
  let override := status_flag m FLAGS_OVERRIDE in
  let fmu_ok := status_flag m FLAGS_FMU_OK in
  if status_flag m FLAGS_RAW_PWM && fmu_ok then
    if override then set_source MIX_OVERRIDE_FMU_OK m
    else set_source MIX_NONE (on_io (fun s => pset SERVOS (pages s DIRECT_PWM) s) m)
  else if negb override && fmu_ok && status_flag m FLAGS_MIXER_OK then set_source MIX_FMU m
  else if override then set_source (if fmu_ok then MIX_OVERRIDE_FMU_OK else MIX_OVERRIDE) m
  else set_source MIX_DISARMED m.

(** Whether the servos should be armed. *)
Definition decide_arm (m : mix G) : mix G :=
  let io_armed := status_flag m FLAGS_INIT_OK && status_flag m FLAGS_SAFETY_OFF in
  let raw := status_flag m FLAGS_RAW_PWM in
  let mixer_ok := status_flag m FLAGS_MIXER_OK in
  set_should (io_armed && ((arming_flag m ARMING_FMU_ARMED && mixer_ok) || raw))
    (io_armed && ((arming_flag m ARMING_FMU_PREARMED && mixer_ok) || raw))
    (arming_flag m ARMING_ALWAYS_PWM_ENABLE && status_flag m FLAGS_INIT_OK && status_flag m FLAGS_FMU_OK) m.

(** Flight termination and the failsafe source. *)
Definition tick_failsafe (m : mix G) : mix G :=
  let m := if negb (rget SETUP PX4IO_P_SETUP_ENABLE_FLIGHTTERMINATION (mio m) =? 0)
              && bool_decide (source m = MIX_DISARMED) && should_arm m
              && status_flag m FLAGS_FMU_INITIALIZED
           then on_io (atomic_modify_or SETUP PX4IO_P_SETUP_ARMING ARMING_FORCE_FAILSAFE) m else m in
  let m := if arming_flag m ARMING_FORCE_FAILSAFE then set_source MIX_FAILSAFE m else m in
  if decide (source m = MIX_FAILSAFE) then flags_or FLAGS_FAILSAFE m else flags_clear FLAGS_FAILSAFE m.

(** [(r_page_servos[i] - 1500) / 600.0f] *)
Definition servo_feedback (v : Z) : Z := FLOAT_TO_REG (fdiv (f_of_Z (v - 1500)) (f_of_Z 600)).

(** The servo outputs follow a page of fixed values. *)
Definition hold_page (p : pg) (m : mix G) : mix G :=
  on_io (fun s => pset ACTUATORS (servo_feedback <$> pages s p) (pset SERVOS (pages s p) s)) m.

Definition limit_channels (outputs : list float) (s : io) : list channel :=
  imap (fun i x => let i := Z.of_nat i in
          Channel x (Z.testbit (rget SETUP PX4IO_P_SETUP_PWM_REVERSE s) i)
            (rget DISARMED i s) (rget CMIN i s) (rget CMAX i s)) outputs.

Definition mix_outputs (now : Z) (dt : float) (m : mix G) : mix G :=
  let '(outputs, m) := run_mixers dt m in
  let '(servos, l) := output_limit_calc now (should_arm m) (should_arm_nothrottle m)
                        (limit_channels outputs (mio m)) (pwm_limit m) in
  let m := set_limit l m in
  let m := on_io (fun s => pset ACTUATORS (pad8 (FLOAT_TO_REG (f_of_Z 0)) (FLOAT_TO_REG <$> outputs))
                             (pset SERVOS (pad8 0 servos) s)) m in
  if negb (bool_decide (outputs = [])) && new_fmu_data m
  then on_io (emit FxPwmUpdate) (set_fmu_data false (last_fmu_update m) m)
  else m.

Definition tick_mix (now : Z) (dt : float) (m : mix G) : mix G :=
  let m := if update_trims (mio m) && status_flag m FLAGS_MIXER_OK then
             on_group (mg_set_trims ops (pages (mio m) CTRIM)) (on_io (set_update_trims false) m)
           else m in
  let m := on_group (mg_set_airmode ops (s16 (rget SETUP PX4IO_P_SETUP_AIRMODE (mio m)))) m in
  match source m with
  | MIX_FAILSAFE => hold_page FAILSAFE m
  | MIX_DISARMED => hold_page DISARMED m
  | MIX_NONE => m
  | _ => if status_flag m FLAGS_MIXER_OK && negb (arming_flag m ARMING_LOCKDOWN)
         then mix_outputs now dt m else m
  end.

(** Arm or disarm the outputs. *)
Definition tick_arm (m : mix G) : mix G :=
  let needs_to_arm := should_arm m || should_arm_nothrottle m || should_always_enable_pwm m
                      || arming_flag m ARMING_LOCKDOWN in
  if needs_to_arm && negb (mixer_servos_armed m) then
    flags_or FLAGS_OUTPUTS_ARMED (set_servos_armed true (on_io (emit (FxServoArm true)) m))
  else if negb needs_to_arm && mixer_servos_armed m then
    flags_clear FLAGS_OUTPUTS_ARMED (set_servos_armed false (on_io (emit (FxServoArm false)) m))
  else m.

(** [up_pwm_servo_set] of channels [i, i + 1, ...]. *)
Fixpoint servo_set (vs : list Z) (i : Z) (s : io) : io :=
  match vs with
  | [] => s
  | v :: vs => servo_set vs (i + 1) (emit (FxServo i v) s)
  end.

Definition tick_output (m : mix G) : mix G :=
  let lockdown := arming_flag m ARMING_LOCKDOWN in
  let feature := fun s x => ftst (r_setup_features s) x in
  if mixer_servos_armed m
     && (should_arm m || should_arm_nothrottle m || bool_decide (source m = MIX_FAILSAFE))
     && negb lockdown then
    on_io (fun s =>
      let vs := pages s SERVOS in
      let s := servo_set vs 0 s in
      if feature s FEATURES_SBUS2_OUT then emit (FxSbus2 vs) s
      else if feature s FEATURES_SBUS1_OUT then emit (FxSbus1 vs) s else s) m
  else if mixer_servos_armed m && (should_always_enable_pwm m || lockdown) then
    on_io (fun s =>
      let vs := pages s DISARMED in
      let s := pset SERVOS vs (servo_set vs 0 s) in
      let s := if feature s FEATURES_SBUS1_OUT then emit (FxSbus1 vs) s else s in
      if feature s FEATURES_SBUS2_OUT then emit (FxSbus2 vs) s else s) m
  else m.

Definition mixer_tick (now : Z) (dt : float) (m : mix G) : mix G :=
  let m := create_mixer m in
  let m := if mix_failsafe (mixer (mio m))
           then on_io clear_mix_failsafe (mixer_mix_failsafe dt m) else m in
  let m := tick_fmu now m in
  let m := select_source m in
  let m := decide_arm m in
  let m := tick_failsafe m in
  let m := tick_mix now dt m in
  let m := tick_arm m in
  tick_output m.
End Tick.
