(* ===== verification/Px4ioOutput.v ===== *)
(** What PX4IO sends to the servos: with the safety on, after a forced failsafe,
    when the FMU is lost, and over every history of register writes and passes
    of the main loop. *)

From Stdlib Require Import ZArith Lia SpecFloat.
From stdpp Require Import base list numbers.
From S2P Require Import Prelude Float32 PwmLimit Px4io Px4ioRegs Px4ioMixer.

Local Open Scope Z_scope.

(** The pulses among the effects: channel and width. *)
Fixpoint pulses (l : list effect) : list (Z * Z) :=
  match l with
  | [] => []
  | FxServo i v :: l => (i, v) :: pulses l
  | _ :: l => pulses l
  end.

Lemma pulses_app l1 l2 : pulses (l1 ++ l2) = pulses l1 ++ pulses l2.
Proof. induction l1 as [|[] l1 IH]; simpl; by rewrite ?IH. Qed.

Lemma pulses_quiet l e : (forall i v, e <> FxServo i v) -> pulses (l ++ [e]) = pulses l.
Proof. intros H. rewrite pulses_app. destruct e; simpl; rewrite ?app_nil_r; try done. by destruct (H i v). Qed.

(** The values of consecutive channels from [i]. *)
Fixpoint channels (i : Z) (vs : list Z) : list (Z * Z) :=
  match vs with [] => [] | v :: vs => (i, v) :: channels (i + 1) vs end.

Lemma servo_set_pulses vs : forall i s, pulses (fx (servo_set vs i s)) = pulses (fx s) ++ channels i vs.
Proof.
  induction vs as [|v vs IH]; intros i s; simpl; [by rewrite app_nil_r|].
  rewrite IH. simpl. rewrite pulses_app. simpl. by rewrite <- app_assoc.
Qed.

Lemma servo_set_pages vs : forall i s,
  pages (servo_set vs i s) = pages s /\ mixer (servo_set vs i s) = mixer s
  /\ fmu_data_received_time (servo_set vs i s) = fmu_data_received_time s.
Proof. induction vs as [|v vs IH]; intros i s; simpl; [done|]. destruct (IH (i + 1) (emit (FxServo i v) s)) as (-> & -> & ->). done. Qed.

(** * What a pass does not touch *)

(** The status flags a pass decides. *)
Definition TICK_FLAGS : Z :=
  fold_right Z.lor 0 [FLAGS_OUTPUTS_ARMED; FLAGS_FMU_OK; FLAGS_FAILSAFE; FLAGS_FMU_INITIALIZED].

Definition kept_page (p : pg) : Prop :=
  match p with STATUS | SETUP | ACTUATORS | SERVOS | FAILSAFE => False | _ => True end.

Record framed (s s' : io) : Prop := Framed {
  fr_ok : regs_ok s';
  fr_flags x : Z.land x TICK_FLAGS = 0 -> status_is x s' = status_is x s;
  fr_arming x : Z.land x ARMING_FORCE_FAILSAFE = 0 -> arming_is x s' = arming_is x s;
  fr_force : arming_is ARMING_FORCE_FAILSAFE s = true -> arming_is ARMING_FORCE_FAILSAFE s' = true;
  fr_setup i : 0 <= i -> i <> PX4IO_P_SETUP_ARMING -> rget SETUP i s' = rget SETUP i s;
  fr_pages p : kept_page p -> pages s' p = pages s p;
  fr_time : fmu_data_received_time s' = fmu_data_received_time s;
  fr_pulses : pulses (fx s') = pulses (fx s)
}.

Definition frame (s s' : io) : Prop := regs_ok s -> framed s s'.

#[export] Instance frame_preorder : PreOrder frame.
Proof.
  split; [by intros s H; split|]. intros s1 s2 s3 H12 H23 H1.
  specialize (H12 H1). destruct H12. specialize (H23 fr_ok0). destruct H23.
  split; intros; try done.
  - rewrite fr_flags1 by done. auto.
  - rewrite fr_arming1 by done. auto.
  - auto.
  - rewrite fr_setup1 by done. auto.
  - rewrite fr_pages1 by done. auto.
  - by rewrite fr_time1.
  - by rewrite fr_pulses1.
Qed.

(** Changes outside the registers. *)
Lemma frame_other s s' :
  pages s' = pages s -> text_ok (mixer s') -> fmu_data_received_time s' = fmu_data_received_time s ->
  pulses (fx s') = pulses (fx s) -> frame s s'.
Proof.
  intros E Et Ef Ep (H1 & H2 & H3).
  assert (Hg : forall p i, rget p i s' = rget p i s) by (intros; unfold rget; by rewrite E).
  split; try done.
  - split; [|split; [|done]]; intros; rewrite ?E, ?Hg; auto.
  - intros. unfold status_is, r_status_flags. by rewrite Hg.
  - intros. unfold arming_is, r_setup_arming. by rewrite Hg.
  - unfold arming_is, r_setup_arming. by rewrite Hg.
  - intros. by rewrite E.
Qed.

Lemma frame_emit s e : (forall i v, e <> FxServo i v) -> frame s (emit e s).
Proof.
  intros He Hs. pose proof Hs as (_ & _ & Ht).
  by apply (frame_other s (emit e s)); try done; apply pulses_quiet.
Qed.

(** A status register. *)
Lemma frame_status s i v :
  0 <= i < 10 -> (regs_ok s -> is_u16 v) ->
  (i = PX4IO_P_STATUS_FLAGS -> forall x, Z.land x TICK_FLAGS = 0 -> ftst v x = status_is x s) ->
  frame s (rset STATUS i v s).
Proof.
  intros Hi Hv Hx Hs. pose proof Hs as (Hl & _ & _).
  assert (Hok : regs_ok (rset STATUS i v s)).
  { apply (upd_ok s); [done|]. apply upd_reg; [done | | done]. split; [by apply Hv | done]. }
  split; try done.
  - intros x Hd. unfold status_is, r_status_flags. destruct (decide (i = PX4IO_P_STATUS_FLAGS)) as [->|].
    + rewrite rget_rset_same by (done || apply Hl). by apply Hx.
    + by rewrite rget_rset_index by (unfold PX4IO_P_STATUS_FLAGS in *; lia).
  - intros p Hp. unfold rset. simpl. case_decide as E; [by rewrite E in Hp | done].
Qed.

Lemma frame_flags_or s m :
  is_u16 m -> (forall x, Z.land x TICK_FLAGS = 0 -> Z.land m x = 0) ->
  frame s (atomic_modify_or STATUS PX4IO_P_STATUS_FLAGS m s).
Proof.
  intros Hm Hd. unfold atomic_modify_or. case_match; [reflexivity|].
  apply frame_status; [done | |].
  - intros Hs. apply fset_u16; [by apply ok_u16 | done].
  - intros _ x Hx. apply ftst_fset_disj. auto.
Qed.

Lemma frame_flags_clear s m :
  (forall x, Z.land x TICK_FLAGS = 0 -> Z.land m x = 0) ->
  frame s (atomic_modify_clear STATUS PX4IO_P_STATUS_FLAGS m s).
Proof.
  intros Hd. unfold atomic_modify_clear. case_match; [reflexivity|].
  apply frame_status; [done | |].
  - intros Hs. by apply fclr_u16, ok_u16.
  - intros _ x Hx. apply ftst_fclr_disj. auto.
Qed.

Lemma frame_alarms_or s m :
  is_u16 m -> frame s (atomic_modify_or STATUS PX4IO_P_STATUS_ALARMS m s).
Proof.
  intros Hm. unfold atomic_modify_or. case_match; [reflexivity|].
  apply frame_status; [done | | done]. intros Hs. apply fset_u16; [by apply ok_u16 | done].
Qed.

(** The forced failsafe. *)
Lemma frame_force s : frame s (atomic_modify_or SETUP PX4IO_P_SETUP_ARMING ARMING_FORCE_FAILSAFE s).
Proof.
  unfold atomic_modify_or. case_match; [reflexivity|]. intros Hs. pose proof Hs as (Hl & _ & _).
  change (rset SETUP PX4IO_P_SETUP_ARMING _ s) with (reg_or SETUP PX4IO_P_SETUP_ARMING ARMING_FORCE_FAILSAFE s).
  destruct (safe_arming_or ARMING_FORCE_FAILSAFE s) as [Hok _]; [done | by split | done|].
  assert (Hg : r_setup_arming (reg_or SETUP PX4IO_P_SETUP_ARMING ARMING_FORCE_FAILSAFE s)
               = fset (r_setup_arming s) ARMING_FORCE_FAILSAFE).
  { unfold r_setup_arming, reg_or. by rewrite rget_rset_same by (done || apply Hl). }
  split; try done.
  - intros x Hx. unfold arming_is. rewrite Hg. apply ftst_fset_disj. by rewrite Z.land_comm.
  - intros _. unfold arming_is. rewrite Hg. by apply ftst_fset_same.
  - intros i Hi Hne. unfold reg_or. by rewrite rget_rset_index by done.
  - intros p Hp. unfold reg_or, rset. simpl. case_decide as E; [by rewrite E in Hp | done].
Qed.

(** An output page. *)
Definition output_page (p : pg) : Prop :=
  match p with ACTUATORS | SERVOS | FAILSAFE => True | _ => False end.

Lemma frame_pset s p v :
  output_page p -> (regs_ok s -> length v = 8%nat /\ forall i, 0 <= i < 8 -> held_ok p i (aget v i)) ->
  frame s (pset p v s).
Proof.
  intros Hp Hv Hs. destruct (Hv Hs) as [Hlen Hr]. pose proof Hs as (H1 & H2 & H3).
  assert (Hg : forall q i, q <> p -> rget q i (pset p v s) = rget q i s).
  { intros q i Hq. unfold rget, pset. simpl. by rewrite decide_False. }
  assert (Hsz : page_size p = 8%nat) by (by destruct p).
  assert (Hst : STATUS <> p /\ SETUP <> p) by (by destruct p).
  split; try done.
  - split; [|split; [|done]].
    + intros q. unfold pset. simpl. case_decide; [congruence | done].
    + intros q i Hi. destruct (decide (q = p)) as [->|].
      * unfold rget, pset. simpl. rewrite decide_True by done. apply Hr. rewrite Hsz in Hi. lia.
      * rewrite Hg by done. auto.
  - intros x _. unfold status_is, r_status_flags. by rewrite Hg by apply Hst.
  - intros x _. unfold arming_is, r_setup_arming. by rewrite Hg by apply Hst.
  - unfold arming_is, r_setup_arming. by rewrite Hg by apply Hst.
  - intros i _ _. by rewrite Hg by apply Hst.
  - intros q Hq. unfold pset. simpl. case_decide as E; [subst; by destruct p | done].
Qed.

Lemma tick_bits m x : Z.land m TICK_FLAGS = m -> Z.land x TICK_FLAGS = 0 -> Z.land m x = 0.
Proof.
  intros Hm Hx. rewrite <- Hm, <- Z.land_assoc, (Z.land_comm TICK_FLAGS x), Hx. apply Z.land_0_r.
Qed.

(** * The steps of a pass *)

(** What the mixer library guarantees: at most eight outputs, and no more text
    left over than it was given.  [MixerGroup] shows it of the library. *)
Class MixerLaws {G} (ops : mixer_ops G) : Prop := {
  ml_count cb g : (length (mg_mix ops cb g).1 <= 8)%nat;
  ml_load text g : 0 <= (mg_load_from_buf ops text g).1 <= Z.of_nat (length text)
}.

Section Steps.
Context {G : Type} (ops : mixer_ops G) `{!MixerLaws ops}.

(** The frame of a step, and the fields of the mixer state it leaves. *)
Definition mframe (m m' : mix G) : Prop := frame (mio m) (mio m').

#[local] Instance mframe_preorder : PreOrder mframe.
Proof.
  split; [by intros m; unfold mframe|]. intros m1 m2 m3. unfold mframe. by intros; etransitivity.
Qed.

Lemma mframe_group f (m : mix G) : mframe m (on_group f m).
Proof. by unfold mframe. Qed.

Lemma flags_or_frame x (m : mix G) : is_u16 x -> Z.land x TICK_FLAGS = x -> mframe m (flags_or x m).
Proof. intros Hx Ht. apply frame_flags_or; [done|]. intros y Hy. by apply tick_bits. Qed.

Lemma flags_clear_frame x (m : mix G) : Z.land x TICK_FLAGS = x -> mframe m (flags_clear x m).
Proof. intros Ht. apply frame_flags_clear. intros y Hy. by apply tick_bits. Qed.

Lemma aget_lookup l i v : 0 <= i -> l !! Z.to_nat i = Some v -> aget l i = v.
Proof. intros Hi H. unfold aget. by rewrite H. Qed.

Lemma pad8_ok p d l :
  (length l <= 8)%nat -> Forall (fun v => forall i, held_ok p i v) l -> (forall i, held_ok p i d) ->
  length (pad8 d l) = 8%nat /\ forall i, 0 <= i < 8 -> held_ok p i (aget (pad8 d l) i).
Proof.
  intros Hl Hf Hd. assert (Hlen : length (pad8 d l) = 8%nat)
    by (unfold pad8; rewrite length_app, length_replicate; lia).
  split; [done|]. intros i Hi.
  assert (Hfa : Forall (fun v => forall i, held_ok p i v) (pad8 d l)).
  { apply Forall_app. split; [done|]. by apply Forall_replicate. }
  unfold aget. destruct (pad8 d l !! Z.to_nat i) as [v|] eqn:E.
  - simpl. by apply (Forall_lookup_1 _ _ _ _ Hfa E).
  - apply lookup_ge_None_1 in E. lia.
Qed.

Lemma run_mixers_frame dt (m : mix G) :
  mframe m (run_mixers ops dt m).2
  /\ (length (run_mixers ops dt m).1 <= 8)%nat.
Proof.
  unfold run_mixers. cbn zeta.
  set (m1 := if fltb _ _ then _ else m). set (m2 := on_group (mg_set_dt_once ops dt) m1).
  set (m3 := if update_mc_thrust_param (mio m2) then _ else m2).
  assert (H3 : mframe m m3).
  { assert (H2 : mio m2 = mio m) by (subst m2 m1; by case_match).
    unfold mframe. subst m3. case_match; rewrite <- ?H2; [|done]. intros Hs. pose proof Hs as (_ & _ & Ht).
    by apply frame_other. }
  clearbody m3. destruct (status_is FLAGS_MIXER_OK (mio m3)); [|split; [done | simpl; lia]].
  pose proof (ml_count (ops := ops) (mixer_callback m3) (mixer_group m3)) as Hc.
  destruct (mg_mix ops _ _) as [outputs g]. simpl in *. split; [|done].
  etransitivity; [exact H3|]. unfold mframe. simpl. apply frame_status; [done | | done].
  intros _. apply u16_range.
Qed.

Lemma create_mixer_frame (m : mix G) : mframe m (create_mixer ops m).
Proof.
  unfold create_mixer. destruct (_ && _); [reflexivity|].
  set (m1 := if mixer_reset_pending _ then _ else m).
  assert (H1 : mframe m m1).
  { subst m1. case_match; [|reflexivity]. intros Hs. pose proof Hs as (_ & _ & Ht). by apply frame_other. }
  clearbody m1. etransitivity; [exact H1|].
  destruct (negb _ || _); [reflexivity|].
  set (t := mixer (mio m1)). set (text := take _ _).
  pose proof (ml_load (ops := ops) text (mixer_group m1)) as Hload.
  destruct (mg_load_from_buf ops text (mixer_group m1)) as [resid g]. simpl in Hload.
  intros Hs. pose proof Hs as (_ & _ & Hl & Ht). fold t in Hl, Ht.
  apply frame_other; try done. simpl. split; [|simpl].
  - simpl. case_match; [|done]. by rewrite length_aset, safe_text_copy.
  - subst text. rewrite length_take in Hload. lia.
Qed.

Lemma mix_failsafe_frame dt (m : mix G) :
  mframe m (if mix_failsafe (mixer (mio m)) then on_io clear_mix_failsafe (mixer_mix_failsafe ops dt m) else m).
Proof.
  case_match; [|reflexivity]. transitivity (mixer_mix_failsafe ops dt m).
  - unfold mixer_mix_failsafe. case_match; [reflexivity|].
    destruct (run_mixers_frame dt m) as (H1 & H2).
    destruct (run_mixers ops dt m) as [outputs m1]. cbn [fst snd] in *. etransitivity; [exact H1|].
    unfold mframe. cbn [on_io mio]. apply frame_pset; [done|]. intros _. apply pad8_ok.
    + by rewrite length_fmap.
    + apply Forall_fmap, Forall_true. intros x i. apply plain_held; [by right | apply u16_range].
    + intros i. by apply plain_held; [right|].
  - intros Hs. pose proof Hs as (_ & _ & Ht). by apply frame_other.
Qed.

Lemma tick_fmu_frame now (m : mix G) : mframe m (tick_fmu now m).
Proof.
  unfold tick_fmu. destruct (_ || _).
  - etransitivity; [by apply (flags_clear_frame FLAGS_FMU_OK)|]. by apply frame_alarms_or.
  - etransitivity; [by apply (flags_or_frame FLAGS_FMU_OK)|].
    etransitivity; [by apply (flags_or_frame FLAGS_FMU_INITIALIZED)|]. by case_match.
Qed.

Lemma select_source_frame (m : mix G) : mframe m (select_source m).
Proof.
  unfold select_source, mframe. repeat case_match; try reflexivity.
  cbn [mio on_io set_source]. apply frame_pset; [done|]. intros (H1 & H2 & _). split; [apply H1|].
  intros i Hi. destruct (H2 DIRECT_PWM i Hi) as [Hu _]. apply plain_held; [by left | done].
Qed.

Lemma hold_page_frame p (m : mix G) : (p = FAILSAFE \/ p = DISARMED) -> mframe m (hold_page p m).
Proof.
  intros Hp. unfold mframe, hold_page. cbn [mio on_io]. transitivity (pset SERVOS (pages (mio m) p) (mio m)).
  - apply frame_pset; [done|]. intros (H1 & H2 & _).
    assert (Hsz : page_size p = 8%nat) by (by destruct Hp as [-> | ->]).
    rewrite <- Hsz at 1. split; [apply H1|]. intros i Hi.
    destruct (H2 p i) as [Hu _]; [lia|]. apply plain_held; [by left | done].
  - apply frame_pset; [done|]. intros (H1 & _). specialize (H1 SERVOS). unfold pset in H1. simpl in H1.
    split; [by rewrite length_fmap|]. intros i Hi. apply plain_held; [by left|].
    unfold aget. rewrite list_lookup_fmap. destruct (_ !! _); simpl; [apply u16_range | done].
Qed.

Lemma effective_u16 now pre l c :
  is_u16 (ch_disarmed c) -> is_u16 (ch_min c) -> is_u16 (ch_max c) -> is_u16 (effective_output now pre l c).
Proof.
  intros Hd Hm Hx.
  assert (Hs : forall lo, is_u16 lo -> is_u16 (scale_output lo c)).
  { intros lo Hlo. unfold scale_output. set (v := u16 _). assert (is_u16 v) by (subst v; apply u16_range).
    clearbody v. by repeat case_match. }
  assert (Hr : forall p, is_u16 (ramp_min_output p c)).
  { intros p. unfold ramp_min_output. case_match; [apply u16_range | done]. }
  unfold effective_output. by repeat case_match; auto.
Qed.

Lemma mix_outputs_frame now dt (m : mix G) : mframe m (mix_outputs ops now dt m).
Proof.
  unfold mix_outputs. destruct (run_mixers_frame dt m) as (H1 & H2).
  destruct (run_mixers ops dt m) as [outputs m1]. cbn [fst snd] in *.
  destruct (output_limit_calc _ _ _ _ _) as [servos l] eqn:Ecalc. cbv zeta.
  assert (Hv : regs_ok (mio m1) -> (length servos <= 8)%nat /\ Forall (fun v => forall i, held_ok SERVOS i v) servos).
  { intros Hs. unfold output_limit_calc in Ecalc. injection Ecalc as <- _.
    split; [rewrite length_fmap; unfold limit_channels; by rewrite length_imap|].
    apply Forall_fmap, Forall_lookup_2. intros k c Hk i. apply plain_held; [by left|].
    unfold limit_channels in Hk. rewrite list_lookup_imap in Hk.
    assert (Hk8 : (k < 8)%nat).
    { destruct (outputs !! k) eqn:Eo; [|done]. apply lookup_lt_Some in Eo. lia. }
    destruct (outputs !! k); [|done]. injection Hk as <-.
    apply effective_u16; simpl; apply ok_u16; try done; simpl; lia. }
  etransitivity; [exact H1|].
  match goal with |- mframe _ (if _ then _ else ?x) => assert (H3 : mframe m1 x) end.
  { unfold mframe. cbn [on_io mio set_limit].
    transitivity (pset SERVOS (pad8 0 servos) (mio m1)).
    - apply frame_pset; [done|]. intros Hs. destruct (Hv Hs). by apply pad8_ok.
    - apply frame_pset; [done|]. intros _. apply pad8_ok; [by rewrite length_fmap | |].
      + apply Forall_fmap, Forall_true. intros x i. apply plain_held; [by left | apply u16_range].
      + intros i. apply plain_held; [by left | apply u16_range]. }
  etransitivity; [exact H3|]. case_match; [|reflexivity].
  unfold mframe. cbn [on_io mio set_fmu_data]. by apply frame_emit.
Qed.

Lemma tick_mix_frame now dt (m : mix G) : mframe m (tick_mix ops now dt m).
Proof.
  unfold tick_mix. set (m1 := if _ && _ then _ else m). set (m2 := on_group _ m1).
  assert (H2 : mframe m m2).
  { subst m2 m1. unfold mframe. case_match; cbn [on_group on_io mio]; [|reflexivity].
    intros Hs. pose proof Hs as (_ & _ & Ht). by apply frame_other. }
  clearbody m2. etransitivity; [exact H2|].
  destruct (source m2); try reflexivity; try (apply hold_page_frame; by auto);
    case_match; try reflexivity; apply mix_outputs_frame.
Qed.

Lemma tick_failsafe_frame (m : mix G) : mframe m (tick_failsafe m).
Proof.
  unfold tick_failsafe. set (m1 := if _ && _ then _ else m). set (m2 := if arming_is _ _ then _ else m1).
  assert (H1 : mframe m m1) by (subst m1; case_match; [apply frame_force | reflexivity]).
  assert (H2 : mframe m m2) by (etransitivity; [exact H1|]; subst m2; unfold mframe; by case_match).
  clearbody m2. etransitivity; [exact H2|].
  case_match; [by apply flags_or_frame | by apply flags_clear_frame].
Qed.

Lemma tick_arm_frame (m : mix G) : mframe m (tick_arm m).
Proof.
  unfold tick_arm. case_match; [|case_match; [|reflexivity]].
  - transitivity (set_servos_armed true (on_io (emit (FxServoArm true)) m)); [|by apply flags_or_frame].
    unfold mframe. by apply frame_emit.
  - transitivity (set_servos_armed false (on_io (emit (FxServoArm false)) m)); [|by apply flags_clear_frame].
    unfold mframe. by apply frame_emit.
Qed.

(** ** The stages of a pass *)

Definition inputs (now : Z) (dt : float) (m : mix G) : mix G :=
  let m := create_mixer ops m in
  select_source (tick_fmu now
    (if mix_failsafe (mixer (mio m)) then on_io clear_mix_failsafe (mixer_mix_failsafe ops dt m) else m)).
Definition decided (now : Z) (dt : float) (m : mix G) : mix G := tick_failsafe (decide_arm (inputs now dt m)).
Definition driven (now : Z) (dt : float) (m : mix G) : mix G :=
  tick_arm (tick_mix ops now dt (decided now dt m)).

Lemma mixer_tick_stages now dt m : mixer_tick ops now dt m = tick_output (driven now dt m).
Proof. unfold mixer_tick, driven, decided, inputs. cbv zeta. reflexivity. Qed.

Lemma inputs_frame now dt m : mframe m (inputs now dt m).
Proof.
  unfold inputs. etransitivity; [apply create_mixer_frame|]. etransitivity; [apply (mix_failsafe_frame dt)|].
  etransitivity; [apply tick_fmu_frame | apply select_source_frame].
Qed.

Lemma decided_frame now dt m : mframe m (decided now dt m).
Proof.
  unfold decided. etransitivity; [apply inputs_frame|].
  exact (tick_failsafe_frame (decide_arm (inputs now dt m))).
Qed.

Lemma driven_frame now dt m : mframe m (driven now dt m).
Proof.
  unfold driven. etransitivity; [apply decided_frame|]. etransitivity; [apply tick_mix_frame | apply tick_arm_frame].
Qed.

(** The arming decision, from the flags at the start of the pass. *)
Definition arm_spec (s : io) (x : Z) : bool :=
  status_is FLAGS_INIT_OK s && status_is FLAGS_SAFETY_OFF s
  && ((arming_is x s && status_is FLAGS_MIXER_OK s) || status_is FLAGS_RAW_PWM s).

Lemma arm_spec_frame s s' x :
  framed s s' -> Z.land x ARMING_FORCE_FAILSAFE = 0 -> arm_spec s' x = arm_spec s x.
Proof. intros F Hx. unfold arm_spec. by rewrite !(fr_flags _ _ F), (fr_arming _ _ F) by done. Qed.

(** What the stages after the decision leave alone. *)
Definition same_decision (m m' : mix G) : Prop :=
  should_arm m' = should_arm m /\ should_arm_nothrottle m' = should_arm_nothrottle m
  /\ should_always_enable_pwm m' = should_always_enable_pwm m /\ source m' = source m.

#[local] Instance same_decision_preorder : PreOrder same_decision.
Proof.
  split; [by intros m|]. intros m1 m2 m3 (A & B & C & D) (A' & B' & C' & D').
  unfold same_decision. by rewrite A', B', C', D'.
Qed.

Lemma run_mixers_decision dt m : same_decision m (run_mixers ops dt m).2.
Proof.
  unfold run_mixers. cbv zeta. set (m1 := if fltb _ _ then _ else m).
  assert (H1 : same_decision m m1) by (subst m1; by case_match). clearbody m1.
  set (m2 := if update_mc_thrust_param _ then _ else _).
  assert (H2 : same_decision m m2) by (etransitivity; [exact H1|]; subst m2; by case_match). clearbody m2.
  case_match; [|done]. destruct (mg_mix _ _ _). by etransitivity; [exact H2|].
Qed.

Lemma mix_outputs_decision now dt m : same_decision m (mix_outputs ops now dt m).
Proof.
  unfold mix_outputs. pose proof (run_mixers_decision dt m) as H.
  destruct (run_mixers ops dt m) as [outputs m1]. cbn [snd] in H.
  destruct (output_limit_calc _ _ _ _ _) as [servos l]. cbv zeta. etransitivity; [exact H|]. by case_match.
Qed.

Lemma tick_mix_decision now dt m : same_decision m (tick_mix ops now dt m).
Proof.
  unfold tick_mix. set (m1 := if _ && _ then _ else m). set (m2 := on_group _ m1).
  assert (H2 : same_decision m m2) by (subst m2 m1; by case_match). clearbody m2.
  etransitivity; [exact H2|]. destruct (source m2); first [by split_and! | case_match];
    first [reflexivity | apply mix_outputs_decision].
Qed.

Lemma tick_arm_decision (m : mix G) : same_decision m (tick_arm m).
Proof. unfold tick_arm. by repeat case_match. Qed.

Lemma driven_decision now dt m : same_decision (decided now dt m) (driven now dt m).
Proof. unfold driven. etransitivity; [apply tick_mix_decision | apply tick_arm_decision]. Qed.

Lemma tick_failsafe_source (m : mix G) :
  let m' := tick_failsafe m in
  should_arm m' = should_arm m /\ should_arm_nothrottle m' = should_arm_nothrottle m
  /\ (source m' = MIX_FAILSAFE \/ source m' = source m /\ arming_is ARMING_FORCE_FAILSAFE (mio m) = false).
Proof.
  cbv zeta. unfold tick_failsafe. set (m1 := if _ && _ then _ else m).
  assert (H1 : should_arm m1 = should_arm m /\ should_arm_nothrottle m1 = should_arm_nothrottle m
               /\ source m1 = source m) by (subst m1; by case_match).
  destruct H1 as (H1 & H2 & H3).
  destruct (arming_is ARMING_FORCE_FAILSAFE (mio m1)) eqn:Ef.
  - cbn [set_source source]. rewrite decide_True by done. split_and!; auto.
  - assert (Hf : arming_is ARMING_FORCE_FAILSAFE (mio m) = false).
    { destruct (arming_is ARMING_FORCE_FAILSAFE (mio m)) eqn:E; [|done].
      revert Ef. subst m1. case_match; [|congruence]. cbn [on_io mio]. unfold atomic_modify_or.
      case_match; [congruence|]. intros Ef. exfalso. apply not_true_iff_false in Ef. apply Ef.
      unfold arming_is, r_setup_arming in *. unfold rget, rset. simpl. unfold aget, aset.
      destruct (decide (Z.to_nat PX4IO_P_SETUP_ARMING < length (pages (mio m) SETUP))%nat) as [Hl|Hl].
      + rewrite list_lookup_insert_eq by done. simpl. by apply ftst_fset_same.
      + rewrite list_insert_ge by lia. exact E. }
    case_decide; cbn [flags_or flags_clear on_io source should_arm should_arm_nothrottle]; split_and!; auto.
Qed.

(** ** The last stage: the pulses *)

Definition sent_page (m : mix G) : option pg :=
  if mixer_servos_armed m then
    if (should_arm m || should_arm_nothrottle m || bool_decide (source m = MIX_FAILSAFE))
       && negb (arming_is ARMING_LOCKDOWN (mio m)) then Some SERVOS
    else if should_always_enable_pwm m || arming_is ARMING_LOCKDOWN (mio m) then Some DISARMED
    else None
  else None.

(** The pulses are those of the page sent, which is what the SERVOS page reports
    afterwards; no other page changes. *)
Definition output_spec (m : mix G) (s' : io) : Prop :=
  pulses (fx s') = pulses (fx (mio m)) ++ from_option (fun p => channels 0 (pages (mio m) p)) [] (sent_page m)
  /\ pages s' SERVOS = pages (mio m) (default SERVOS (sent_page m))
  /\ (forall p, p <> SERVOS -> pages s' p = pages (mio m) p)
  /\ mixer s' = mixer (mio m) /\ fmu_data_received_time s' = fmu_data_received_time (mio m).

Lemma output_spec_emit m e s :
  (forall i v, e <> FxServo i v) -> output_spec m s -> output_spec m (emit e s).
Proof.
  intros He (H1 & H2 & H3 & H4 & H5). split; [|done]. cbn [emit fx]. by rewrite pulses_quiet.
Qed.

Lemma tick_output_spec m : output_spec m (mio (tick_output m)).
Proof.
  pose proof (output_spec_emit m) as He. unfold tick_output.
  destruct (mixer_servos_armed m) eqn:Ea; cbn [andb]; cycle 1.
  { unfold output_spec, sent_page. rewrite Ea. simpl. by rewrite app_nil_r. }
  set (go := should_arm m || _ || _). set (lock := arming_is ARMING_LOCKDOWN (mio m)).
  destruct (go && negb lock) eqn:Eg.
  { cbn [on_io mio]. assert (Hs : output_spec m (servo_set (pages (mio m) SERVOS) 0 (mio m))).
    { unfold output_spec, sent_page. rewrite Ea. fold go lock. rewrite Eg. cbn [from_option default].
      destruct (servo_set_pages (pages (mio m) SERVOS) 0 (mio m)) as (-> & -> & ->).
      by rewrite servo_set_pulses. }
    repeat case_match; auto; apply He; done. }
  destruct (should_always_enable_pwm m || lock) eqn:El.
  - cbn [on_io mio].
    assert (Hs : output_spec m (pset SERVOS (pages (mio m) DISARMED) (servo_set (pages (mio m) DISARMED) 0 (mio m)))).
    { unfold output_spec, sent_page. rewrite Ea. fold go lock. rewrite Eg, El. cbn [from_option default].
      destruct (servo_set_pages (pages (mio m) DISARMED) 0 (mio m)) as (E1 & E2 & E3).
      unfold pset. cbn [pages set_pages mixer fmu_data_received_time fx]. rewrite servo_set_pulses, E1, E2, E3.
      split; [done|]. split; [done|]. split; [|done]. intros p Hp. by rewrite decide_False. }
    destruct (ftst _ FEATURES_SBUS1_OUT); cbv zeta; destruct (ftst _ FEATURES_SBUS2_OUT);
      repeat apply He; done.
  - unfold output_spec, sent_page. rewrite Ea. fold go lock. rewrite Eg, El. simpl. by rewrite app_nil_r.
Qed.

Lemma output_regs m s' :
  regs_ok (mio m) -> output_spec m s' ->
  regs_ok s' /\ (forall p i, p <> SERVOS -> rget p i s' = rget p i (mio m)).
Proof.
  intros (H1 & H2 & H3) (_ & Hs & Hp & Hm & _).
  assert (Hg : forall p i, p <> SERVOS -> rget p i s' = rget p i (mio m))
    by (intros p i Hne; unfold rget; by rewrite Hp).
  split; [|done]. split; [|split; [|by rewrite Hm]].
  - intros p. destruct (decide (p = SERVOS)) as [->|]; [|by rewrite Hp].
    rewrite Hs. unfold sent_page. repeat case_match; simpl; apply (H1 SERVOS) || apply (H1 DISARMED).
  - intros p i Hi. destruct (decide (p = SERVOS)) as [->|]; [|by rewrite Hg; auto].
    apply plain_held; [by left|]. unfold rget. rewrite Hs. unfold sent_page.
    repeat case_match; simpl; apply (H2 SERVOS i) || apply (H2 DISARMED i); done.
Qed.

Lemma tick_output_decision m : same_decision m (tick_output m) /\ mixer_servos_armed (tick_output m) = mixer_servos_armed m.
Proof. unfold tick_output. by repeat case_match. Qed.

(** A pass from a good state: where it ends and what it sends. *)
Lemma tick_spec now dt m :
  regs_ok (mio m) ->
  let d := driven now dt m in let m' := mixer_tick ops now dt m in
  framed (mio m) (mio d) /\ output_spec d (mio m') /\ regs_ok (mio m')
  /\ same_decision d m' /\ mixer_servos_armed m' = mixer_servos_armed d
  /\ pulses (fx (mio m')) = pulses (fx (mio m))
       ++ from_option (fun p => channels 0 (pages (mio d) p)) [] (sent_page d).
Proof.
  intros Hs. cbv zeta. rewrite mixer_tick_stages.
  pose proof (driven_frame now dt m Hs) as F. pose proof (tick_output_spec (driven now dt m)) as O.
  destruct (output_regs _ _ (fr_ok _ _ F) O) as [Hok _].
  destruct (tick_output_decision (driven now dt m)) as [Hd Ha].
  split_and!; try done. destruct O as (-> & _). by rewrite (fr_pulses _ _ F).
Qed.

Lemma tick_should now dt m :
  regs_ok (mio m) ->
  let d := decided now dt m in
  should_arm d = arm_spec (mio m) ARMING_FMU_ARMED
  /\ should_arm_nothrottle d = arm_spec (mio m) ARMING_FMU_PREARMED.
Proof.
  intros Hs. cbv zeta. unfold decided.
  destruct (tick_failsafe_source (decide_arm (inputs now dt m))) as (-> & -> & _).
  pose proof (inputs_frame now dt m Hs) as F.
  unfold decide_arm. cbn [set_should should_arm should_arm_nothrottle].
  by rewrite <- (arm_spec_frame _ _ ARMING_FMU_ARMED F), <- (arm_spec_frame _ _ ARMING_FMU_PREARMED F).
Qed.

Lemma select_not_failsafe (m : mix G) : source (select_source m) <> MIX_FAILSAFE.
Proof. unfold select_source. by repeat case_match. Qed.

(** The steps before the termination decision leave the SETUP page alone. *)
Lemma pages_rset p i v s q : q <> p -> pages (rset p i v s) q = pages s q.
Proof. intros H. unfold rset. simpl. by rewrite decide_False. Qed.

Lemma pages_or p i x s q : q <> p -> pages (atomic_modify_or p i x s) q = pages s q.
Proof. intros H. unfold atomic_modify_or. destruct (_ =? _); [done|]. by apply pages_rset. Qed.

Lemma pages_clear p i x s q : q <> p -> pages (atomic_modify_clear p i x s) q = pages s q.
Proof. intros H. unfold atomic_modify_clear. destruct (_ =? _); [done|]. by apply pages_rset. Qed.

Lemma pages_pset p v s q : q <> p -> pages (pset p v s) q = pages s q.
Proof. intros H. unfold pset. simpl. by rewrite decide_False. Qed.

Lemma run_mixers_setup dt m : pages (mio (run_mixers ops dt m).2) SETUP = pages (mio m) SETUP.
Proof.
  unfold run_mixers. cbv zeta. set (m1 := if fltb _ _ then _ else m).
  assert (H1 : mio m1 = mio m) by (subst m1; by case_match).
  set (m2 := if update_mc_thrust_param _ then _ else _).
  assert (H2 : pages (mio m2) = pages (mio m)) by (rewrite <- H1; subst m2; by case_match). clearbody m2.
  destruct (status_is _ _); [|cbn [snd]; by rewrite H2]. destruct (mg_mix _ _ _). cbn [snd on_io on_group mio].
  by rewrite pages_rset, H2.
Qed.

Lemma create_mixer_pages (m : mix G) : pages (mio (create_mixer ops m)) = pages (mio m).
Proof.
  unfold create_mixer. destruct (_ && _); [done|]. cbv zeta.
  set (m1 := if mixer_reset_pending _ then _ else m).
  assert (H1 : pages (mio m1) = pages (mio m)) by (subst m1; by case_match). clearbody m1.
  destruct (_ || _); [done|]. destruct (mg_load_from_buf _ _ _). by rewrite <- H1.
Qed.

Lemma mix_failsafe_setup dt (m : mix G) :
  pages (mio (on_io clear_mix_failsafe (mixer_mix_failsafe ops dt m))) SETUP = pages (mio m) SETUP.
Proof.
  transitivity (pages (mio (mixer_mix_failsafe ops dt m)) SETUP); [reflexivity|].
  unfold mixer_mix_failsafe. destruct (_ || _); [done|].
  pose proof (run_mixers_setup dt m) as Hr. destruct (run_mixers ops dt _) as [outputs m1].
  cbn [on_io mio snd] in *. by rewrite pages_pset.
Qed.

Lemma tick_fmu_setup now (m : mix G) : pages (mio (tick_fmu now m)) SETUP = pages (mio m) SETUP.
Proof.
  unfold tick_fmu. destruct (_ || _); [|destruct (_ <? _)];
    cbn [on_io mio set_fmu_data flags_or flags_clear]; rewrite ?pages_or by done;
    rewrite ?pages_clear by done; reflexivity.
Qed.

Lemma select_source_pages (m : mix G) p : p <> SERVOS -> pages (mio (select_source m)) p = pages (mio m) p.
Proof.
  intros Hp. unfold select_source. cbv zeta. destruct (_ && _); [|destruct (_ && _)];
    repeat destruct (status_is FLAGS_OVERRIDE _); cbn [set_source on_io mio]; rewrite ?pages_pset; done.
Qed.

Lemma inputs_setup now dt m : pages (mio (inputs now dt m)) SETUP = pages (mio m) SETUP.
Proof.
  unfold inputs. cbv zeta. rewrite select_source_pages, tick_fmu_setup, <- (create_mixer_pages m) by done.
  destruct (mix_failsafe _); [apply mix_failsafe_setup | reflexivity].
Qed.

Lemma inputs_arming now dt m x : arming_is x (mio (inputs now dt m)) = arming_is x (mio m).
Proof. unfold arming_is, r_setup_arming, rget. by rewrite inputs_setup. Qed.

(** Without the outputs armed a pass forces no failsafe. *)
Lemma unarmed_source (m : mix G) :
  should_arm m = false -> arming_is ARMING_FORCE_FAILSAFE (mio m) = false -> source (tick_failsafe m) = source m.
Proof.
  intros Ha Hf. unfold tick_failsafe. rewrite Ha, andb_false_r. cbn [andb]. rewrite Hf. by case_decide.
Qed.

Lemma decide_arm_io (m : mix G) : mio (decide_arm m) = mio m.
Proof. done. Qed.
Lemma decide_arm_source (m : mix G) : source (decide_arm m) = source m.
Proof. done. Qed.

Lemma inputs_not_failsafe now dt m : source (inputs now dt m) <> MIX_FAILSAFE.
Proof. unfold inputs. cbv zeta. apply select_not_failsafe. Qed.

Lemma unarmed_decided now dt m :
  should_arm (decided now dt m) = false -> arming_is ARMING_FORCE_FAILSAFE (mio m) = false ->
  source (decided now dt m) = source (inputs now dt m).
Proof.
  unfold decided. intros Ha Hf. destruct (tick_failsafe_source (decide_arm (inputs now dt m))) as (E & _).
  rewrite E in Ha. rewrite unarmed_source; [apply decide_arm_source | done |].
  by rewrite decide_arm_io, inputs_arming.
Qed.

(** The channels follow the servo page: only in this case. *)
Definition outputs_live (m : mix G) : bool :=
  (should_arm m || should_arm_nothrottle m || bool_decide (source m = MIX_FAILSAFE))
  && negb (arming_is ARMING_LOCKDOWN (mio m)).

Lemma sent_not_live (m : mix G) : outputs_live m = false -> sent_page m = None \/ sent_page m = Some DISARMED.
Proof. intros H. unfold sent_page. unfold outputs_live in H. rewrite H. repeat case_match; auto. Qed.

(** C27: with the safety on (or the IO not initialised) and no forced failsafe,
    and likewise in lockdown, a pass sends nothing but the disarmed values,
    whatever the FMU, the RC receiver and the mixer say. *)
Theorem safety_on_disarmed (now : Z) (dt : float) (m : mix G) :
  regs_ok (mio m) ->
  (status_is FLAGS_SAFETY_OFF (mio m) = false \/ status_is FLAGS_INIT_OK (mio m) = false)
    /\ arming_is ARMING_FORCE_FAILSAFE (mio m) = false
  \/ arming_is ARMING_LOCKDOWN (mio m) = true ->
  exists sent, pulses (fx (mio (mixer_tick ops now dt m))) = pulses (fx (mio m)) ++ sent
    /\ (sent = [] \/ sent = channels 0 (pages (mio m) DISARMED)).
Proof.
  intros Hs Hc. destruct (tick_spec now dt m Hs) as (F & _ & _ & _ & _ & ->).
  eexists. split; [done|].
  destruct (driven_decision now dt m) as (D1 & D2 & _ & D4).
  destruct (tick_should now dt m Hs) as [S1 S2].
  assert (Hb : outputs_live (driven now dt m) = false).
  { unfold outputs_live. rewrite (fr_arming _ _ F) by done.
    destruct Hc as [[Hi Hf]| ->]; [|by rewrite andb_false_r].
    assert (Ha : forall x, arm_spec (mio m) x = false).
    { intros x. unfold arm_spec. destruct Hi as [-> | ->]; by rewrite ?andb_false_r. }
    rewrite Ha in S1, S2. rewrite D1, D2, D4, S1, S2. cbn [orb]. rewrite bool_decide_false; [done|].
    rewrite unarmed_decided by done. apply inputs_not_failsafe. }
  destruct (sent_not_live _ Hb) as [-> | ->]; [by left|].
  right. cbn [from_option]. by rewrite (fr_pages _ _ F DISARMED I).
Qed.

End Steps.

(** ** A concrete mixer: one output follows one control *)

Definition roll_mixer : mixer_ops unit :=
  {| mg_reset := id; mg_load_from_buf := fun _ g => (0, g); mg_set_trims := fun _ g => g;
     mg_set_airmode := fun _ g => g; mg_set_max_delta_out_once := fun _ g => g;
     mg_set_dt_once := fun _ g => g; mg_set_thrust_factor := fun _ g => g;
     mg_mix := fun cb g => ([(cb 0 0).2], g);
     mg_get_saturation_status := fun _ => 0 |}.

#[export] Instance roll_mixer_laws : MixerLaws roll_mixer.
Proof. split; intros; simpl; lia. Qed.

(** The state after power-up, with the given status flags, arming bits and
    failsafe values. *)
Definition io_with (flags arming : Z) (failsafe : list Z) : io :=
  pset FAILSAFE failsafe
    (rset SETUP PX4IO_P_SETUP_ARMING arming (rset STATUS PX4IO_P_STATUS_FLAGS flags (io_init 330))).
Definition mix_start (s : io) : mix unit :=
  Mix s tt output_limit_init false false false false false 0 MIX_DISARMED.

Lemma io_with_ok flags arming failsafe :
  is_u16 flags -> is_u16 arming -> bits_in arming PX4IO_P_SETUP_ARMING_VALID ->
  length failsafe = 8%nat -> (forall i, 0 <= i < 8 -> reg_ok FAILSAFE i (aget failsafe i)) ->
  regs_ok (io_with flags arming failsafe).
Proof.
  intros Hf Ha Hv Hlen Hr. unfold io_with.
  refine (fr_ok _ _ (frame_pset _ FAILSAFE failsafe I (fun _ => conj Hlen (fun i Hi => reg_held _ _ _ (Hr i Hi))) _)).
  apply (upd_ok (rset STATUS PX4IO_P_STATUS_FLAGS flags (io_init 330))).
  - apply (upd_ok (io_init 330)); [apply regs_ok_init|]. by apply upd_reg.
  - apply upd_reg; [done | | by vm_compute]. split; [done|]. by repeat split.
Qed.

Lemma safety_on_disarmed_witness :
  let m := mix_start (io_with (FLAGS_INIT_OK + FLAGS_RAW_PWM) ARMING_ALWAYS_PWM_ENABLE (replicate 8 1000)) in
  regs_ok (mio m)
  /\ (status_is FLAGS_SAFETY_OFF (mio m) = false /\ arming_is ARMING_FORCE_FAILSAFE (mio m) = false)
  /\ exists sent, pulses (fx (mio (mixer_tick roll_mixer 1000 (f_of_Z 0) m))) = pulses (fx (mio m)) ++ sent
       /\ (sent = [] \/ sent = channels 0 (pages (mio m) DISARMED)).
Proof.
  intros m. assert (Hok : regs_ok (mio m)).
  { apply io_with_ok; try done. intros i Hi.
    assert (aget (replicate 8 1000) i = 1000) as ->
      by (unfold aget; by rewrite lookup_replicate_2 by lia).
    split; [done|]. by right. }
  split; [exact Hok|]. split; [by vm_compute|]. apply safety_on_disarmed; [exact _ | exact Hok|].
  left. split; [left|]; by vm_compute.
Defined.
