(* ===== verification/Px4ioFailsafe.v ===== *)
(** When PX4IO goes to failsafe, and that it stays there: the loss of the FMU
    during a pass, and the histories of passes and register writes after a
    termination. *)

From Stdlib Require Import ZArith Lia SpecFloat.
From stdpp Require Import base list numbers.
From S2P Require Import Prelude Float32 PwmLimit Px4io Px4ioRegs Px4ioMixer Px4ioOutput.

Local Open Scope Z_scope.

(** The data of the FMU are missing, or more than half a second old. *)
Definition fmu_lost (now : Z) (s : io) : bool :=
  let t := fmu_data_received_time s in
  (t =? 0) || (FMU_INPUT_DROP_LIMIT_US <? u64 (now - t)).

Lemma rget_or p i x s :
  regs_ok s -> 0 <= i < Z.of_nat (page_size p) ->
  rget p i (atomic_modify_or p i x s) = fset (rget p i s) x.
Proof.
  intros (Hl & _) Hi. unfold atomic_modify_or. destruct (Z.eqb_spec (Z.lor (rget p i s) x) (rget p i s)) as [E|_].
  - by unfold fset.
  - by rewrite rget_rset_same.
Qed.

Lemma rget_clear p i x s :
  regs_ok s -> 0 <= i < Z.of_nat (page_size p) ->
  rget p i (atomic_modify_clear p i x s) = fclr (rget p i s) x.
Proof.
  intros (Hl & _) Hi. unfold atomic_modify_clear. destruct (Z.eqb_spec (Z.ldiff (rget p i s) x) (rget p i s)) as [E|_].
  - by unfold fclr.
  - by rewrite rget_rset_same.
Qed.

Lemma rget_or_index p i j x s :
  0 <= i -> 0 <= j -> i <> j -> rget p j (atomic_modify_or p i x s) = rget p j s.
Proof. intros Hi Hj Hne. unfold atomic_modify_or. case_match; [reflexivity | by apply rget_rset_index]. Qed.

Section Failsafe.
Context {G : Type} (ops : mixer_ops G) `{!MixerLaws ops}.

(** ** The status flags through a pass *)

Lemma flags_or_status x (m : mix G) :
  regs_ok (mio m) -> r_status_flags (mio (flags_or x m)) = fset (r_status_flags (mio m)) x.
Proof. intros H. unfold r_status_flags, flags_or. cbn [on_io mio]. by apply rget_or. Qed.

Lemma flags_clear_status x (m : mix G) :
  regs_ok (mio m) -> r_status_flags (mio (flags_clear x m)) = fclr (r_status_flags (mio m)) x.
Proof. intros H. unfold r_status_flags, flags_clear. cbn [on_io mio]. by apply rget_clear. Qed.

Lemma run_mixers_flags dt (m : mix G) :
  r_status_flags (mio (run_mixers ops dt m).2) = r_status_flags (mio m).
Proof.
  unfold run_mixers. cbv zeta. set (m1 := if fltb _ _ then _ else m).
  assert (H1 : mio m1 = mio m) by (subst m1; by case_match).
  set (m2 := if update_mc_thrust_param _ then _ else _).
  assert (H2 : pages (mio m2) = pages (mio m)) by (rewrite <- H1; subst m2; by case_match). clearbody m2.
  unfold r_status_flags. destruct (status_is _ _); [|cbn [snd]; unfold rget; by rewrite H2].
  destruct (mg_mix _ _ _). cbn [snd on_io on_group mio].
  rewrite rget_rset_index by done. unfold rget. by rewrite H2.
Qed.

(** Everything a pass does before it looks at the FMU. *)
Definition prepared (dt : float) (m : mix G) : mix G :=
  let m := create_mixer ops m in
  if mix_failsafe (mixer (mio m)) then on_io clear_mix_failsafe (mixer_mix_failsafe ops dt m) else m.

Lemma inputs_prepared now dt m : inputs ops now dt m = select_source (tick_fmu now (prepared dt m)).
Proof. done. Qed.

Lemma prepared_frame dt m : frame (mio m) (mio (prepared dt m)).
Proof. unfold prepared. etransitivity; [by apply create_mixer_frame | by apply mix_failsafe_frame]. Qed.

Lemma prepared_flags dt m : r_status_flags (mio (prepared dt m)) = r_status_flags (mio m).
Proof.
  unfold prepared. cbv zeta. transitivity (r_status_flags (mio (create_mixer ops m))).
  2: { unfold r_status_flags, rget. by rewrite create_mixer_pages. }
  destruct (mix_failsafe _); [|done]. set (m1 := create_mixer ops m). clearbody m1.
  transitivity (r_status_flags (mio (mixer_mix_failsafe ops dt m1))); [reflexivity|].
  unfold mixer_mix_failsafe. destruct (_ || _); [done|].
  pose proof (run_mixers_flags dt m1) as H. destruct (run_mixers ops dt m1) as [outputs m2].
  cbn [snd on_io mio] in *. rewrite <- H. unfold r_status_flags, rget. by rewrite pages_pset.
Qed.

(** The flags and the source after a pass has looked at a lost FMU. *)
Lemma inputs_lost now dt m :
  regs_ok (mio m) -> fmu_lost now (mio m) = true ->
  r_status_flags (mio (inputs ops now dt m)) = fclr (r_status_flags (mio m)) FLAGS_FMU_OK
  /\ source (inputs ops now dt m) = if status_is FLAGS_OVERRIDE (mio m) then MIX_OVERRIDE else MIX_DISARMED.
Proof.
  intros Hs Hl. rewrite inputs_prepared. pose proof (prepared_frame dt m Hs) as F.
  pose proof (prepared_flags dt m) as Hf. set (p := prepared dt m) in *. clearbody p.
  assert (Ht : r_status_flags (mio (tick_fmu now p)) = fclr (r_status_flags (mio m)) FLAGS_FMU_OK).
  { unfold tick_fmu. unfold fmu_lost in Hl. rewrite (fr_time _ _ F), Hl. rewrite <- Hf.
    rewrite <- flags_clear_status by apply (fr_ok _ _ F).
    by apply rget_or_index. }
  set (t := tick_fmu now p) in *. clearbody t.
  split.
  - rewrite <- Ht. unfold r_status_flags, rget. by rewrite select_source_pages.
  - unfold select_source, status_is. rewrite Ht, ftst_fclr_same, !andb_false_r. cbn [andb].
    rewrite ftst_fclr_disj by done. by destruct (ftst _ _).
Qed.

(** The flags of the decision are those reported at the end of the pass. *)
Lemma mix_outputs_flags now dt (m : mix G) :
  r_status_flags (mio (mix_outputs ops now dt m)) = r_status_flags (mio m).
Proof.
  unfold mix_outputs. pose proof (run_mixers_flags dt m) as H.
  destruct (run_mixers ops dt m) as [outputs m1]. destruct (output_limit_calc _ _ _ _ _) as [servos l].
  cbv zeta. cbn [snd] in H. rewrite <- H. unfold r_status_flags, rget.
  destruct (_ && _); cbn [on_io mio set_fmu_data set_limit]; rewrite ?pages_pset by done; [|done].
  by cbn [emit pages]; rewrite !pages_pset by done.
Qed.

Lemma mix_outputs_setup now dt (m : mix G) :
  pages (mio (mix_outputs ops now dt m)) SETUP = pages (mio m) SETUP.
Proof.
  unfold mix_outputs. pose proof (run_mixers_setup ops dt m) as H.
  destruct (run_mixers ops dt m) as [outputs m1]. destruct (output_limit_calc _ _ _ _ _) as [servos l].
  cbv zeta. cbn [snd] in H. rewrite <- H.
  destruct (_ && _); cbn [on_io mio set_fmu_data set_limit emit pages]; by rewrite !pages_pset by done.
Qed.

(** The page followed by the outputs without mixing. *)
Lemma hold_page_pages p (m : mix G) q :
  pages (mio (hold_page p m)) SERVOS = pages (mio m) p
  /\ (q <> SERVOS -> q <> ACTUATORS -> pages (mio (hold_page p m)) q = pages (mio m) q).
Proof.
  unfold hold_page. cbn [on_io mio]. split; [|intros H1 H2; by rewrite !pages_pset by done].
  rewrite pages_pset by done. reflexivity.
Qed.

Lemma tick_mix_kept now dt (m : mix G) :
  r_status_flags (mio (tick_mix ops now dt m)) = r_status_flags (mio m)
  /\ pages (mio (tick_mix ops now dt m)) SETUP = pages (mio m) SETUP.
Proof.
  unfold tick_mix. cbv zeta. set (m1 := if _ && _ then _ else m).
  set (m2 := on_group (mg_set_airmode ops _) m1).
  assert (H2 : pages (mio m2) = pages (mio m)) by (subst m2 m1; by case_match). clearbody m2.
  assert (H : r_status_flags (mio m2) = r_status_flags (mio m)) by (unfold r_status_flags, rget; by rewrite H2).
  rewrite <- H, <- H2. unfold r_status_flags at 1, rget.
  destruct (source m2); try done; try (case_match; [|done]; split; [apply mix_outputs_flags | apply mix_outputs_setup]).
Qed.

Lemma tick_arm_kept (m : mix G) :
  regs_ok (mio m) ->
  (forall x, Z.land x FLAGS_OUTPUTS_ARMED = 0 -> status_is x (mio (tick_arm m)) = status_is x (mio m))
  /\ (forall q, q <> STATUS -> pages (mio (tick_arm m)) q = pages (mio m) q).
Proof.
  intros Hs. unfold tick_arm. cbv zeta. destruct (_ && _); [|destruct (_ && _); [|done]].
  - split; [|intros q Hq; unfold flags_or; cbn [on_io mio]; by rewrite pages_or].
    intros x Hx. unfold status_is. rewrite flags_or_status by exact Hs.
    apply ftst_fset_disj. by rewrite Z.land_comm.
  - split; [|intros q Hq; unfold flags_clear; cbn [on_io mio]; by rewrite pages_clear].
    intros x Hx. unfold status_is. rewrite flags_clear_status by exact Hs.
    apply ftst_fclr_disj. by rewrite Z.land_comm.
Qed.

Lemma kept_after_decision now dt (d : mix G) s' :
  regs_ok (mio d) -> output_spec (tick_arm (tick_mix ops now dt d)) s' ->
  (forall x, Z.land x FLAGS_OUTPUTS_ARMED = 0 -> status_is x s' = status_is x (mio d))
  /\ (forall x, arming_is x s' = arming_is x (mio d)).
Proof.
  intros Hok (_ & _ & Hp & _). destruct (tick_mix_kept now dt d) as [K1 K2].
  pose proof (fr_ok _ _ (tick_mix_frame ops now dt d Hok)) as Hok2.
  set (x := tick_mix ops now dt d) in *. clearbody x. destruct (tick_arm_kept x Hok2) as [K3 K4].
  split.
  - intros y Hy. transitivity (status_is y (mio (tick_arm x))).
    + unfold status_is, r_status_flags, rget. by rewrite Hp.
    + rewrite K3 by done. unfold status_is. by rewrite K1.
  - intros y. unfold arming_is, r_setup_arming, rget. by rewrite Hp, K4, K2.
Qed.

Lemma driven_eq now dt m : driven ops now dt m = tick_arm (tick_mix ops now dt (decided ops now dt m)).
Proof. unfold driven. reflexivity. Qed.

Lemma decided_eq now dt m : decided ops now dt m = tick_failsafe (decide_arm (inputs ops now dt m)).
Proof. unfold decided. reflexivity. Qed.

(** A pass ends with the flags, the arming register and the source it decided. *)
Lemma tick_decision now dt m :
  regs_ok (mio m) ->
  (forall x, Z.land x FLAGS_OUTPUTS_ARMED = 0 ->
     status_is x (mio (mixer_tick ops now dt m)) = status_is x (mio (decided ops now dt m)))
  /\ (forall x, arming_is x (mio (mixer_tick ops now dt m)) = arming_is x (mio (decided ops now dt m)))
  /\ source (mixer_tick ops now dt m) = source (decided ops now dt m).
Proof.
  intros Hs. destruct (tick_spec ops now dt m Hs) as (_ & O & _ & (_ & _ & _ & Hsrc) & _).
  destruct (driven_decision ops now dt m) as (_ & _ & _ & Hd).
  rewrite driven_eq in O. apply kept_after_decision in O; [|apply (fr_ok _ _ (decided_frame ops now dt m Hs))].
  destruct O as [H1 H2]. split; [exact H1|]. split; [exact H2|]. by rewrite Hsrc, Hd.
Qed.

(** ** The termination step *)

Definition termination_step (m : mix G) : bool :=
  negb (rget SETUP PX4IO_P_SETUP_ENABLE_FLIGHTTERMINATION (mio m) =? 0)
  && bool_decide (source m = MIX_DISARMED) && should_arm m && status_is FLAGS_FMU_INITIALIZED (mio m).

Lemma tick_failsafe_spec (m : mix G) :
  regs_ok (mio m) ->
  let m' := tick_failsafe m in
  let force := arming_is ARMING_FORCE_FAILSAFE (mio m) || termination_step m in
  arming_is ARMING_FORCE_FAILSAFE (mio m') = force
  /\ source m' = (if force then MIX_FAILSAFE else source m)
  /\ (forall x, Z.land x FLAGS_FAILSAFE = 0 -> status_is x (mio m') = status_is x (mio m))
  /\ status_is FLAGS_FAILSAFE (mio m') = bool_decide (source m' = MIX_FAILSAFE).
Proof.
  intros Hs. cbv zeta. unfold tick_failsafe. fold (termination_step m). cbv zeta.
  set (m1 := if termination_step m then _ else m).
  assert (H1 : regs_ok (mio m1) /\ source m1 = source m /\ r_status_flags (mio m1) = r_status_flags (mio m)
               /\ arming_is ARMING_FORCE_FAILSAFE (mio m1)
                  = arming_is ARMING_FORCE_FAILSAFE (mio m) || termination_step m).
  { subst m1. destruct (termination_step m); [|by rewrite orb_false_r].
    split_and!; [exact (fr_ok _ _ (frame_force (mio m) Hs)) | done | |].
    - unfold r_status_flags, rget. cbn [on_io mio]. by rewrite pages_or.
    - unfold arming_is at 1, r_setup_arming. cbn [on_io mio]. rewrite rget_or by done.
      by rewrite ftst_fset_same, orb_true_r. }
  clearbody m1. destruct H1 as (Hok & Hsrc & Hfl & <-).
  set (m2 := if arming_is _ _ then _ else m1).
  assert (H2 : mio m2 = mio m1 /\ source m2 = if arming_is ARMING_FORCE_FAILSAFE (mio m1) then MIX_FAILSAFE else source m)
    by (subst m2; destruct (arming_is _ _); by rewrite <- ?Hsrc).
  clearbody m2. destruct H2 as [E <-]. rewrite <- E in *. clear E.
  assert (Ha : forall s x, arming_is x s = ftst (rget SETUP PX4IO_P_SETUP_ARMING s) x) by done.
  destruct (decide (source m2 = MIX_FAILSAFE)) as [Es|Es].
  - split_and!; try done.
    + rewrite !Ha. unfold flags_or, rget. cbn [on_io mio]. by rewrite pages_or.
    + intros x Hx. unfold status_is. rewrite flags_or_status, <- Hfl by done.
      apply ftst_fset_disj. by rewrite Z.land_comm.
    + unfold status_is. rewrite flags_or_status, ftst_fset_same by done. by rewrite bool_decide_true.
  - split_and!; try done.
    + rewrite !Ha. unfold flags_clear, rget. cbn [on_io mio]. by rewrite pages_clear.
    + intros x Hx. unfold status_is. rewrite flags_clear_status, <- Hfl by done.
      apply ftst_fclr_disj. by rewrite Z.land_comm.
    + unfold status_is. rewrite flags_clear_status, ftst_fclr_same by done. by rewrite bool_decide_false.
Qed.

(** ** The loss of the FMU *)

(** The condition of flight termination. *)
Definition terminates (s : io) : bool :=
  negb (rget SETUP PX4IO_P_SETUP_ENABLE_FLIGHTTERMINATION s =? 0) && negb (status_is FLAGS_OVERRIDE s)
  && arm_spec s ARMING_FMU_ARMED && status_is FLAGS_FMU_INITIALIZED s.

(** C33: a pass that finds the FMU silent for more than half a second: the
    outputs are terminated (for good, by setting the forced failsafe) exactly
    when termination is enabled, the RC has not taken over, the outputs should
    be armed and the FMU was there before; otherwise the RC drives the mixers if
    it has taken over, and the outputs hold their disarmed values if not. *)
Theorem fmu_loss (now : Z) (dt : float) (m : mix G) :
  regs_ok (mio m) -> fmu_lost now (mio m) = true ->
  let s := mio m in let m' := mixer_tick ops now dt m in
  let force := arming_is ARMING_FORCE_FAILSAFE s || terminates s in
  source m' = (if force then MIX_FAILSAFE
               else if status_is FLAGS_OVERRIDE s then MIX_OVERRIDE else MIX_DISARMED)
  /\ arming_is ARMING_FORCE_FAILSAFE (mio m') = force
  /\ status_is FLAGS_FAILSAFE (mio m') = force
  /\ status_is FLAGS_FMU_OK (mio m') = false.
Proof.
  intros Hs Hl. cbv zeta. destruct (tick_decision now dt m Hs) as (Tf & Ta & Ts).
  rewrite Ts, Ta, !Tf by done. clear Tf Ta Ts.
  pose proof (tick_should ops now dt m Hs) as [S _].
  destruct (inputs_lost now dt m Hs Hl) as [If Is].
  pose proof (inputs_frame ops now dt m Hs) as F. pose proof (inputs_arming ops now dt m) as Ia.
  pose proof (inputs_setup ops now dt m) as Ip.
  rewrite decided_eq in *. set (i := inputs ops now dt m) in *. clearbody i.
  destruct (tick_failsafe_spec (decide_arm i) (fr_ok _ _ F)) as (Ea & Es & Ef & Efs).
  destruct (tick_failsafe_source (decide_arm i)) as (E & _). rewrite E in S. clear E.
  rewrite Efs, Es, Ea, Ef by done. clear Efs Es Ea Ef.
  rewrite decide_arm_io, decide_arm_source.
  assert (Et : termination_step (decide_arm i) = terminates (mio m)).
  { unfold termination_step, terminates. rewrite S, decide_arm_io, decide_arm_source, Is.
    unfold rget, status_is. rewrite Ip, If, ftst_fclr_disj by done.
    destruct (ftst _ FLAGS_OVERRIDE); by rewrite ?andb_false_r, ?andb_true_r. }
  rewrite Et, Ia, Is. split; [done|]. split; [done|]. split.
  - by repeat case_match.
  - unfold status_is. by rewrite If, ftst_fclr_same.
Qed.

(** ** After a termination *)

Lemma tick_mix_hold now dt (m : mix G) :
  source m = MIX_FAILSAFE ->
  pages (mio (tick_mix ops now dt m)) SERVOS = pages (mio m) FAILSAFE
  /\ forall p, p <> SERVOS -> p <> ACTUATORS -> pages (mio (tick_mix ops now dt m)) p = pages (mio m) p.
Proof.
  intros Hf. unfold tick_mix. cbv zeta. set (m1 := if _ && _ then _ else m).
  set (m2 := on_group (mg_set_airmode ops _) m1).
  assert (H2 : pages (mio m2) = pages (mio m) /\ source m2 = source m) by (subst m2 m1; by case_match).
  clearbody m2. destruct H2 as [<- E]. rewrite E, Hf.
  split; [by apply (hold_page_pages FAILSAFE m2 SERVOS)|]. intros p. apply hold_page_pages.
Qed.

Definition pulse_legal (p : Z * Z) : Prop := pulse_ok p.2.

Lemma channels_legal p s :
  regs_ok s -> failsafe_ok s -> p = FAILSAFE \/ p = DISARMED -> forall i, Forall pulse_legal (channels i (pages s p)).
Proof.
  intros (Hl & Hr & _) Hf Hp. assert (Ho : forall i, 0 <= i < 8 -> pulse_ok (rget p i s)).
  { intros i Hi. destruct Hp as [-> | ->]; [by apply Hf|]. destruct (Hr DISARMED i Hi) as [_ H]. by apply H. }
  assert (H : Forall pulse_ok (pages s p)).
  { apply Forall_lookup_2. intros k v Hk. pose proof (lookup_lt_Some _ _ _ Hk) as Hlt. rewrite Hl in Hlt.
    assert (Hsz : page_size p = 8%nat) by (by destruct Hp as [-> | ->]).
    specialize (Ho (Z.of_nat k) ltac:(lia)). unfold rget, aget in Ho. by rewrite Nat2Z.id, Hk in Ho. }
  induction H as [|v l Hv _ IH]; intros i; constructor; auto.
Qed.

(** A pass in forced failsafe. *)
Lemma forced_tick now dt m :
  regs_ok (mio m) -> arming_is ARMING_FORCE_FAILSAFE (mio m) = true ->
  let m' := mixer_tick ops now dt m in
  source m' = MIX_FAILSAFE /\ status_is FLAGS_FAILSAFE (mio m') = true
  /\ pulses (fx (mio m')) = pulses (fx (mio m)) ++
       if mixer_servos_armed m'
       then channels 0 (pages (mio m') (if arming_is ARMING_LOCKDOWN (mio m') then DISARMED else FAILSAFE))
       else [].
Proof.
  intros Hs Hf. cbv zeta. destruct (tick_decision now dt m Hs) as (Tf & Ta & Ts).
  destruct (tick_spec ops now dt m Hs) as (F & (_ & _ & Hp & _) & _ & (_ & _ & _ & Hsrc) & Harm & ->).
  pose proof (inputs_frame ops now dt m Hs) as Fi.
  destruct (tick_failsafe_spec (decide_arm (inputs ops now dt m)) (fr_ok _ _ Fi)) as (_ & Es & _ & Efs).
  rewrite decide_arm_io, inputs_arming, Hf in Es. cbn [orb] in Es.
  rewrite <- decided_eq in Es, Efs. rewrite Ts, Tf, Efs, Es by done.
  split; [done|]. split; [by rewrite bool_decide_true|].
  rewrite Harm, !Hp by (by case_match).
  assert (Hl : arming_is ARMING_LOCKDOWN (mio (mixer_tick ops now dt m))
               = arming_is ARMING_LOCKDOWN (mio (driven ops now dt m))).
  { unfold arming_is, r_setup_arming, rget. by rewrite Hp. }
  rewrite Hl. rewrite Ts, Es in Hsrc.
  assert (Hd : pages (mio (driven ops now dt m)) SERVOS = pages (mio (driven ops now dt m)) FAILSAFE).
  { rewrite driven_eq. destruct (tick_mix_hold now dt _ Es) as [Hh1 Hh2].
    destruct (tick_arm_kept (tick_mix ops now dt (decided ops now dt m))) as [_ Hk].
    - apply (fr_ok _ _ (tick_mix_frame ops now dt _ (fr_ok _ _ (decided_frame ops now dt m Hs)))).
    - by rewrite !Hk, Hh1, Hh2. }
  unfold sent_page. rewrite <- Hsrc. rewrite bool_decide_true, orb_true_r by done.
  destruct (mixer_servos_armed (driven ops now dt m)); [|reflexivity].
  destruct (arming_is ARMING_LOCKDOWN (mio (driven ops now dt m))); cbn [negb andb]; [by rewrite orb_true_r|]. cbn [from_option]. by rewrite Hd.
Qed.
End Failsafe.

(** * Histories *)

Section Histories.
Context {G : Type} (ops : mixer_ops G) `{!MixerLaws ops}.
Context (group : Z -> Z) (rate_ok : Z -> Z -> bool).

(** A register write of the FMU, or a pass of the main loop. *)
Definition io_step (m m' : mix G) : Prop :=
  (exists s', reg_step group rate_ok (mio m) s' /\ m' = on_io (fun _ => s') m)
  \/ exists now dt, m' = mixer_tick ops now dt m.

Definition held (m m' : mix G) : Prop :=
  regs_ok (mio m) -> regs_ok (mio m') /\ latched (r_setup_arming (mio m)) (r_setup_arming (mio m')).

Lemma latched_arming s s' :
  (arming_is ARMING_TERMINATION_FAILSAFE s = true -> arming_is ARMING_TERMINATION_FAILSAFE s' = true) ->
  (arming_is ARMING_FORCE_FAILSAFE s = true -> arming_is ARMING_FORCE_FAILSAFE s' = true) ->
  latched (r_setup_arming s) (r_setup_arming s').
Proof. intros H1 H2 H. split; [by apply H1 | exact H2]. Qed.

Lemma io_step_held m m' : io_step m m' -> held m m'.
Proof.
  intros [(s' & Hst & ->)|(now & dt & ->)] Hs.
  - destruct (step_safe _ _ _ _ Hst Hs) as [Hok Hu]. split; [done|]. by apply upds_latched.
  - destruct (tick_spec ops now dt m Hs) as (_ & _ & Hok & _). split; [done|].
    destruct (tick_decision ops now dt m Hs) as (_ & Ta & _).
    pose proof (decided_frame ops now dt m Hs) as F.
    apply latched_arming; intros H; rewrite Ta; [by rewrite (fr_arming _ _ F) | by apply (fr_force _ _ F)].
Qed.

Lemma io_steps_held m m' : star io_step m m' -> held m m'.
Proof.
  induction 1 as [|m1 m2 m3 H12 _ IH]; intros Hs; [by split|].
  destruct (io_step_held _ _ H12 Hs) as [Hs2 H2]. destruct (IH Hs2) as [Hs3 H3].
  split; [done|]. by etransitivity.
Qed.

End Histories.

(** ** Concrete passes *)

(** An armed flight whose FMU has been silent since power-up... *)
Definition lost_flight : mix unit :=
  mix_start (rset SETUP PX4IO_P_SETUP_ENABLE_FLIGHTTERMINATION 1
    (io_with (FLAGS_INIT_OK + FLAGS_SAFETY_OFF + FLAGS_MIXER_OK + FLAGS_FMU_INITIALIZED)
       ARMING_FMU_ARMED (replicate 8 950))).

(** ... and one that has been terminated. *)
Definition ended_flight : mix unit :=
  mix_start (io_with (FLAGS_INIT_OK + FLAGS_SAFETY_OFF + FLAGS_RAW_PWM)
    (ARMING_FORCE_FAILSAFE + ARMING_TERMINATION_FAILSAFE) (replicate 8 950)).

Lemma failsafe_950 i : 0 <= i < 8 -> reg_ok FAILSAFE i (aget (replicate 8 950) i).
Proof.
  intros Hi. assert (aget (replicate 8 950) i = 950) as ->
    by (unfold aget; by rewrite lookup_replicate_2 by lia).
  split; [done|]. by right.
Qed.

Lemma lost_flight_ok : regs_ok (mio lost_flight).
Proof.
  unfold lost_flight, mix_start. cbn [mio].
  eapply upd_ok; [|apply upd_reg; [done | split; [done | by repeat split] | done]].
  apply io_with_ok; try done. apply failsafe_950.
Qed.

Lemma ended_flight_ok : regs_ok (mio ended_flight).
Proof. unfold ended_flight, mix_start. cbn [mio]. apply io_with_ok; try done. apply failsafe_950. Qed.

Lemma fmu_loss_witness :
  regs_ok (mio lost_flight) /\ fmu_lost 1000000 (mio lost_flight) = true
  /\ terminates (mio lost_flight) = true
  /\ source (mixer_tick roll_mixer 1000000 (f_of_Z 0) lost_flight) = MIX_FAILSAFE.
Proof.
  split; [exact lost_flight_ok|]. split; [by vm_compute|]. split; [by vm_compute|].
  destruct (fmu_loss roll_mixer 1000000 (f_of_Z 0) lost_flight lost_flight_ok) as (H & _); [by vm_compute|].
  exact H.
Defined.
