(* ===== verification/MixerText.v ===== *)
(** The text of the mixers: the helpers of src/lib/mixer/MixerBase/Mixer.cpp and
    the part of the C library's [sscanf] that the parsers use.

    A buffer with its length is the list of its bytes; a pointer into it, whose
    length the parsers keep up to date, is a suffix.  A terminating NUL follows
    the text, so [sscanf] stops at the first NUL or at the end of the list. *)

From Stdlib Require Import ZArith Lia.
From stdpp Require Import base list numbers option.
From S2P Require Import Prelude.

Local Open Scope Z_scope.

(** * Characters *)

Definition NUL : Z := 0.
Definition LF : Z := 10.
Definition CR : Z := 13.
Definition colon : Z := 58.

Definition is_line_end (c : Z) : bool := (c =? LF) || (c =? CR).
Definition isspace (c : Z) : bool := (c =? 32) || (9 <=? c) && (c <=? 13).
Definition isdigit (c : Z) : bool := (48 <=? c) && (c <=? 57).
Definition isupper (c : Z) : bool := (65 <=? c) && (c <=? 90).

(** * Mixer.cpp *)

Fixpoint findtag (buf : list Z) (tag : Z) : option (list Z) :=
  match buf with
  | c :: ((d :: _) as buf') =>
      if (c =? tag) && (d =? colon) then Some buf else findtag buf' tag
  | _ => None
  end.

Fixpoint findnexttag (buf : list Z) : Z :=
  match buf with
  | c :: ((d :: _) as buf') => if isupper c && (d =? colon) then c else findnexttag buf'
  | _ => 0
  end.

(** What follows the first [c], by [memchr]. *)
Fixpoint after (c : Z) (buf : list Z) : option (list Z) :=
  match buf with
  | [] => None
  | d :: buf => if d =? c then Some buf else after c buf
  end.

(** A carriage return anywhere is preferred to a line feed. *)
Definition skipline (buf : list Z) : option (list Z) :=
  match after CR buf with
  | Some rest => Some rest
  | None => after LF buf
  end.

(** The loop of [string_well_formed], from the end of the buffer. *)
Fixpoint well_formed_loop (l : list Z) : bool :=
  match l with
  | [] => false
  | c :: l => if c =? NUL then well_formed_loop l
              else if is_line_end c then true else well_formed_loop l
  end.
Definition string_well_formed (buf : list Z) : bool := well_formed_loop (rev buf).

(** * sscanf *)

Inductive directive :=
| Lit (c : Z)            (* a character *)
| Blank                  (* white space: any amount, none included *)
| Dec                    (* %d *)
| Unsigned               (* %u *)
| Word (width : nat).    (* %<width>s *)

Inductive scanned := Int (n : Z) | Str (l : list Z).

Fixpoint skip_blanks (s : list Z) : list Z :=
  match s with
  | c :: s' => if isspace c then skip_blanks s' else s
  | [] => []
  end.

(** The value of the leading digits, after [acc]. *)
Fixpoint digits (acc : Z) (s : list Z) : Z * list Z :=
  match s with
  | c :: s' => if isdigit c then digits (10 * acc + (c - 48)) s' else (acc, s)
  | [] => (acc, [])
  end.

Definition number (s : list Z) : option (Z * list Z) :=
  match s with
  | c :: _ => if isdigit c then Some (digits 0 s) else None
  | [] => None
  end.

(** White space, a sign, and at least one digit. *)
Definition integer (s : list Z) : option (Z * list Z) :=
  match skip_blanks s with
  | c :: s' =>
      if c =? 45 then '(n, s) ← number s'; Some (- n, s)
      else if c =? 43 then number s' else number (c :: s')
  | [] => None
  end.

Fixpoint word (width : nat) (s : list Z) : list Z * list Z :=
  match width, s with
  | S width, c :: s' => if isspace c then ([], s) else let '(w, s) := word width s' in (c :: w, s)
  | _, _ => ([], s)
  end.

(** The value of a 32-bit [int]. *)
Definition s32 (n : Z) : Z := let n := u32 n in if n <? 2147483648 then n else n - 4294967296.

(** The values assigned before the first directive that fails.  A number out of
    range has no defined value in C; here it wraps. *)
Fixpoint scan (format : list directive) (s : list Z) : list scanned :=
  match format with
  | [] => []
  | Lit c :: format =>
      match s with
      | d :: s => if d =? c then scan format s else []
      | [] => []
      end
  | Blank :: format => scan format (skip_blanks s)
  | Dec :: format =>
      match integer s with
      | Some (n, s) => Int (s32 n) :: scan format s
      | None => []
      end
  | Unsigned :: format =>
      match integer s with
      | Some (n, s) => Int (u32 n) :: scan format s
      | None => []
      end
  | Word width :: format =>
      match word width (skip_blanks s) with
      | ([], _) => []
      | (w, s) => Str w :: scan format s
      end
  end.

Fixpoint c_string (buf : list Z) : list Z :=
  match buf with
  | c :: buf => if c =? NUL then [] else c :: c_string buf
  | [] => []
  end.

Definition sscanf (buf : list Z) (format : list directive) : list scanned := scan format (c_string buf).

(** The format "X: " followed by conversions separated by blanks. *)
Fixpoint spaced (l : list directive) : list directive :=
  match l with
  | [] => []
  | [d] => [d]
  | d :: l => d :: Blank :: spaced l
  end.
Definition tagged (tag : Z) (l : list directive) : list directive := Lit tag :: Lit colon :: Blank :: spaced l.

(** The integers assigned. *)
Definition ints (l : list scanned) : list Z :=
  omap (fun v => match v with Int n => Some n | Str _ => None end) l.

(** * Lemmas *)

Lemma after_length c buf rest : after c buf = Some rest -> (length rest < length buf)%nat.
Proof.
  revert rest. induction buf as [|d buf IH]; intros rest H; simpl in *; [done|].
  destruct (d =? c); [injection H as ->; lia|]. apply IH in H. lia.
Qed.

Lemma skipline_length buf rest : skipline buf = Some rest -> (length rest < length buf)%nat.
Proof.
  unfold skipline. destruct (after CR buf) eqn:E; intros H; [injection H as <-|]; by eapply after_length.
Qed.

Lemma findtag_length buf tag rest : findtag buf tag = Some rest -> (length rest <= length buf)%nat.
Proof.
  revert rest. induction buf as [|c buf IH]; intros rest H; [done|]. destruct buf as [|d buf]; [done|].
  cbn [findtag] in H. destruct ((c =? tag) && (d =? colon)); [injection H as <-; lia|].
  apply IH in H. cbn [length] in *. lia.
Qed.

(** The loop only asks for a line end somewhere. *)
Lemma well_formed_exists l : well_formed_loop l = existsb is_line_end l.
Proof.
  induction l as [|c l IH]; [done|]. cbn [well_formed_loop existsb].
  destruct (Z.eqb_spec c NUL) as [->|]; [by rewrite IH|]. rewrite IH. by destruct (is_line_end c).
Qed.

Lemma existsb_rev {A} (f : A -> bool) l : existsb f (rev l) = existsb f l.
Proof.
  induction l as [|x l IH]; [done|]. cbn [rev]. rewrite existsb_app, IH. cbn [existsb].
  by destruct (f x), (existsb f l).
Qed.

Lemma string_well_formed_exists buf : string_well_formed buf = existsb is_line_end buf.
Proof. unfold string_well_formed. by rewrite well_formed_exists, existsb_rev. Qed.
