(* ===== verification/SimpleMixer.v ===== *)
(** The mixers with one output: [NullMixer], [AllocatedActuatorMixer] and
    [SimpleMixer] of src/lib/mixer, each with its parser. *)

From Stdlib Require Import ZArith Lia SpecFloat.
From stdpp Require Import base list numbers option.
From S2P Require Import Prelude Float32 Px4ioMixer MixerText.

Local Open Scope Z_scope.

(** * NullMixer *)

Definition tag_Z : Z := 90.

(** What is left of the text, if a mixer was made. *)
Definition null_from_text (buf : list Z) : option (list Z) :=
  if negb (string_well_formed buf) then None
  else match buf with
       | c :: d :: rest => if (c =? tag_Z) && (d =? colon) then Some rest else None
       | _ => None
       end.

Definition null_mix (space : nat) : list float := if decide (0 < space)%nat then [NAN] else [].

(** * AllocatedActuatorMixer *)

Definition tag_A : Z := 65.

Record allocated := Allocated { a_group : Z; a_index : Z }.

(** [garbage] is what the new object holds where the constructor sets nothing. *)
Definition allocated_new (garbage : allocated) (index : Z) : allocated :=
  if index <? 8 then Allocated 4 index
  else if index <? 16 then Allocated 5 (index - 8)
  else garbage.

Definition allocated_parse (buf : list Z) : option (Z * list Z) :=
  if negb (string_well_formed buf) then None
  else match ints (sscanf buf (tagged tag_A [Dec])) with
       | [i] => rest ← skipline buf; if i <? 16 then Some (u8 i, rest) else None
       | _ => None
       end.

Definition allocated_from_text (garbage : allocated) (buf : list Z) : option (allocated * list Z) :=
  '(index, rest) ← allocated_parse buf; Some (allocated_new garbage index, rest).

Definition allocated_mix (cb : callback) (a : allocated) (space : nat) : list float :=
  if decide (space < 1)%nat then [] else [(cb (a_group a) (a_index a)).2].

(** * SimpleMixer *)

Definition tag_M : Z := 77.
Definition tag_O : Z := 79.
Definition tag_S : Z := 83.

Record mixer_scaler := Scaler {
  negative_scale : float;
  positive_scale : float;
  offset : float;
  min_output : float;
  max_output : float
}.

Record mixer_control := Control { control_group : Z; control_index : Z; scaler : mixer_scaler }.

Record simple := Simple {
  control_count : Z;
  output_scaler : mixer_scaler;
  slew_rate_rise_time : float;
  controls : list mixer_control;
  output_prev : float;
  s_dt : float
}.

Definition set_output (prev dt : float) (m : simple) : simple :=
  Simple (control_count m) (output_scaler m) (slew_rate_rise_time m) (controls m) prev dt.

(** ** Parsing *)

(** [s / 10000.0f] *)
Definition ten_thousandths (n : Z) : float := fdiv (f_of_Z n) (f_of_Z 10000).

Definition scaler_of (s0 s1 s2 s3 s4 : Z) : mixer_scaler :=
  Scaler (ten_thousandths s0) (ten_thousandths s1) (ten_thousandths s2) (ten_thousandths s3) (ten_thousandths s4).

Definition parse_output_scaler (buf : list Z) : option (mixer_scaler * float * list Z) :=
  buf ← findtag buf tag_O;
  if decide (length buf < 12)%nat then None
  else
    match ints (sscanf buf (tagged tag_O [Dec; Dec; Dec; Dec; Dec; Dec])) with
    | s0 :: s1 :: s2 :: s3 :: s4 :: l =>
        rest ← skipline buf;
        Some (scaler_of s0 s1 s2 s3 s4, ten_thousandths (default 0 (head l)), rest)
    | _ => None
    end.

Definition parse_control_scaler (buf : list Z) : option (mixer_control * list Z) :=
  buf ← findtag buf tag_S;
  if decide (length buf < 16)%nat then None
  else
    match ints (sscanf buf (tagged tag_S [Unsigned; Unsigned; Dec; Dec; Dec; Dec; Dec])) with
    | [u0; u1; s0; s1; s2; s3; s4] =>
        rest ← skipline buf; Some (Control (u8 u0) (u8 u1) (scaler_of s0 s1 s2 s3 s4), rest)
    | _ => None
    end.

Fixpoint parse_controls (n : nat) (buf : list Z) : option (list mixer_control * list Z) :=
  match n with
  | O => Some ([], buf)
  | S n =>
      '(c, buf) ← parse_control_scaler buf;
      '(l, buf) ← parse_controls n buf; Some (c :: l, buf)
  end.

Definition default_scaler : mixer_scaler :=
  Scaler (f_of_Z 1) (f_of_Z 1) (f_of_Z 0) (f_of_Z (-1)) (f_of_Z 1).

(** The output scaler, or its default when the next tag is that of an input. *)
Definition simple_output (buf : list Z) : option (mixer_scaler * float * list Z) :=
  if findnexttag buf =? tag_S then Some (default_scaler, f_of_Z 0, buf) else parse_output_scaler buf.

(** [MIXER_SIMPLE_SIZE], a 32-bit [size_t]. *)
Definition MIXER_SIMPLE_SIZE (inputs : Z) : Z := u32 (28 + inputs * 24).

(** [malloc_ok]: does the allocator have a block of this size? *)
Definition simple_from_text (malloc_ok : Z -> bool) (buf : list Z) : option (simple * list Z) :=
  if negb (string_well_formed buf) then None
  else match ints (sscanf buf (tagged tag_M [Unsigned])) with
       | [inputs] =>
           if inputs =? 0 then None
           else
             buf ← skipline buf;
             if negb (malloc_ok (MIXER_SIMPLE_SIZE inputs)) then None
             else
               '(out, slew, buf) ← simple_output buf;
               '(l, buf) ← parse_controls (Z.to_nat inputs) buf;
               Some (Simple (u8 inputs) out slew l (f_of_Z 0) (f_of_Z 0), buf)
       | _ => None
       end.

(** ** Mixing *)

Definition scale (s : mixer_scaler) (input : float) : float :=
  let output :=
    if fltb input (f_of_Z 0) then fadd (fmul input (negative_scale s)) (offset s)
    else fadd (fmul input (positive_scale s)) (offset s) in
  fconstrain output (min_output s) (max_output s).

(** The controls the loop reads: [control_count] is eight bits wide. *)
Definition active_controls (m : simple) : list mixer_control := take (Z.to_nat (control_count m)) (controls m).

Definition control_sum (cb : callback) (l : list mixer_control) : float :=
  fold_left (fun sum c => fadd sum (scale (scaler c) (cb (control_group c) (control_index c)).2)) l (f_of_Z 0).

(** The slew rate limit of an output. *)
Definition slew_limited (m : simple) (output : float) : float :=
  if fltb FLT_EPSILON (s_dt m) && fltb FLT_EPSILON (slew_rate_rise_time m) then
    let output_delta_max := fdiv (fmul (f_of_Z 2) (s_dt m)) (slew_rate_rise_time m) in
    let delta_out := fsub output (output_prev m) in
    if fltb output_delta_max delta_out then fadd (output_prev m) output_delta_max
    else if fltb delta_out (fneg output_delta_max) then fsub (output_prev m) output_delta_max
    else output
  else output.

Definition simple_mix (cb : callback) (m : simple) (space : nat) : list float * simple :=
  if decide (space < 1)%nat then ([], m)
  else
    let output := slew_limited m (scale (output_scaler m) (control_sum cb (active_controls m))) in
    ([output], set_output output (f_of_Z 0) m).

Definition simple_set_trim (trim : float) (m : simple) : simple :=
  let s := output_scaler m in
  Simple (control_count m) (Scaler (negative_scale s) (positive_scale s) trim (min_output s) (max_output s))
    (slew_rate_rise_time m) (controls m) (output_prev m) (s_dt m).

Definition simple_groups_required (m : simple) (groups : Z) : Z :=
  fold_left (fun groups c => Z.lor groups (u32 (Z.shiftl 1 (control_group c)))) (active_controls m) groups.

(** ** Validation *)

Definition scale_check (s : mixer_scaler) : Z :=
  if fltb (f_dec 1001 1000) (offset s) then 1
  else if fltb (offset s) (fneg (f_dec 1001 1000)) then 2
  else if fltb (max_output s) (min_output s) then 3
  else if fltb (min_output s) (fneg (f_dec 1001 1000)) then 4
  else if fltb (f_dec 1001 1000) (max_output s) then 5
  else 0.

Fixpoint check_controls (cb : callback) (i : Z) (l : list mixer_control) : Z :=
  match l with
  | [] => 0
  | c :: l =>
      if negb ((cb (control_group c) (control_index c)).1 =? 0) then -3
      else let ret := scale_check (scaler c) in
           if negb (ret =? 0) then 10 * i + ret else check_controls cb (i + 1) l
  end.

Definition check (cb : callback) (m : simple) : Z :=
  if 32 <? control_count m then -2
  else let ret := scale_check (output_scaler m) in
       if negb (ret =? 0) then ret else check_controls cb 0 (active_controls m).
