(* ===== verification/MultirotorMixer.v ===== *)
(** The multirotor mixer of src/lib/mixer/MultirotorMixer: the parser, the
    mixing strategies of the three airmodes, the thrust model and the slew rate
    limit with the report of saturation.

    The geometries come from a header the build generates; here they are a list
    of names with their rotors. *)

From Stdlib Require Import ZArith Lia SpecFloat.
From stdpp Require Import base list numbers option.
From S2P Require Import Prelude Float32 Px4ioMixer MixerText.

Local Open Scope Z_scope.


Record rotor := Rotor { roll_scale : float; pitch_scale : float; yaw_scale : float; thrust_scale : float }.

(** ** Saturation status *)

Definition SAT_VALID : Z := 1.
Definition SAT_MOTOR_POS : Z := 2.
Definition SAT_MOTOR_NEG : Z := 4.
Definition SAT_ROLL_POS : Z := 8.
Definition SAT_ROLL_NEG : Z := 16.
Definition SAT_PITCH_POS : Z := 32.
Definition SAT_PITCH_NEG : Z := 64.
Definition SAT_YAW_POS : Z := 128.
Definition SAT_YAW_NEG : Z := 256.
Definition SAT_THRUST_POS : Z := 512.
Definition SAT_THRUST_NEG : Z := 1024.

(** Airmodes *)
Definition AIRMODE_DISABLED : Z := 0.
Definition AIRMODE_ROLL_PITCH : Z := 1.
Definition AIRMODE_ROLL_PITCH_YAW : Z := 2.

Record multirotor := Multirotor {
  delta_out_max : float;
  thrust_factor : float;
  airmode : Z;
  saturation_status : Z;
  rotors : list rotor;
  outputs_prev : list float
}.

Definition multirotor_new (rotors : list rotor) : multirotor :=
  Multirotor (f_of_Z 0) (f_of_Z 0) AIRMODE_DISABLED 0 rotors ((fun _ => f_of_Z (-1)) <$> rotors).

(** ** Parsing *)

Definition tag_R : Z := 82.

Section Parser.
Context (geometries : list (list Z * list rotor)).

Fixpoint find_geometry (l : list (list Z * list rotor)) (name : list Z) : option (list rotor) :=
  match l with
  | [] => None
  | (key, rotors) :: l => if decide (name = key) then Some rotors else find_geometry l name
  end.

Definition multirotor_from_text (buf : list Z) : option (multirotor * list Z) :=
  if negb (string_well_formed buf) then None
  else match sscanf buf (tagged tag_R [Word 15]) with
       | [Str geomname] =>
           rest ← skipline buf;
           rotors ← find_geometry geometries geomname;
           Some (multirotor_new rotors, rest)
       | _ => None
       end.
End Parser.

(** ** Desaturation *)

(** The extreme gains seen so far, and the status. *)
Record gains := Gains { k_min : float; k_max : float; sat : Z }.

Definition seen (k : float) (flag : Z) (g : gains) : gains :=
  Gains (if fltb k (k_min g) then k else k_min g) (if fltb (k_max g) k then k else k_max g) (fset (sat g) flag).

Definition desaturation_step (lo hi : float) (g : gains) (vo : float * float) : gains :=
  let '(v, o) := vo in
  if fltb (fabs v) FLT_EPSILON then g
  else
    let g := if fltb o lo then seen (fdiv (fsub lo o) v) SAT_MOTOR_NEG g else g in
    if fltb hi o then seen (fdiv (fsub hi o) v) SAT_MOTOR_POS g else g.

Definition compute_desaturation_gain (vector outputs : list float) (status : Z) (lo hi : float) : float * Z :=
  let g := fold_left (desaturation_step lo hi) (zip vector outputs) (Gains (f_of_Z 0) (f_of_Z 0) status) in
  (fadd (k_min g) (k_max g), sat g).

Definition add_scaled (k : float) (vector outputs : list float) : list float :=
  zip_with (fun v o => fadd o (fmul k v)) vector outputs.

Definition minimize_saturation (vector : list float) (lo hi : float) (reduce_only : bool)
    (os : list float * Z) : list float * Z :=
  let '(outputs, status) := os in
  let '(k1, status) := compute_desaturation_gain vector outputs status lo hi in
  if reduce_only && fltb (f_of_Z 0) k1 then (outputs, status)
  else
    let outputs := add_scaled k1 vector outputs in
    let '(k, status) := compute_desaturation_gain vector outputs status lo hi in
    (add_scaled (fmul (f_dec 1 2) k) vector outputs, status).

(** ** The airmodes *)

Section Mixing.
Context (rs : list rotor).

Abbreviation desaturate scale := (minimize_saturation (scale <$> rs) (f_of_Z 0) (f_of_Z 1) false).

Definition mix_rp (roll pitch thrust : float) : list float :=
  (fun r => fadd (fadd (fmul roll (roll_scale r)) (fmul pitch (pitch_scale r))) (fmul thrust (thrust_scale r))) <$> rs.

Definition mix_rpy (roll pitch yaw thrust : float) : list float :=
  (fun r => fadd (fadd (fadd (fmul roll (roll_scale r)) (fmul pitch (pitch_scale r))) (fmul yaw (yaw_scale r)))
              (fmul thrust (thrust_scale r))) <$> rs.

Definition mix_yaw (yaw : float) (os : list float * Z) : list float * Z :=
  let '(outputs, status) := os in
  let os := (zip_with (fun r o => fadd o (fmul yaw (yaw_scale r))) rs outputs, status) in
  let os := minimize_saturation (yaw_scale <$> rs) (f_of_Z 0) (f_dec 115 100) false os in
  minimize_saturation (thrust_scale <$> rs) (f_of_Z 0) (f_of_Z 1) true os.

Definition mix_airmode_rp (roll pitch yaw thrust : float) (status : Z) : list float * Z :=
  mix_yaw yaw (desaturate thrust_scale (mix_rp roll pitch thrust, status)).

Definition mix_airmode_rpy (roll pitch yaw thrust : float) (status : Z) : list float * Z :=
  desaturate yaw_scale (desaturate thrust_scale (mix_rpy roll pitch yaw thrust, status)).

Definition mix_airmode_disabled (roll pitch yaw thrust : float) (status : Z) : list float * Z :=
  let os := minimize_saturation (thrust_scale <$> rs) (f_of_Z 0) (f_of_Z 1) true
              (mix_rp roll pitch thrust, status) in
  mix_yaw yaw (desaturate pitch_scale (desaturate roll_scale os)).
End Mixing.

(** ** mix *)

(** The thrust model, and the output scaled to [-1, 1]. *)
Definition thrust_model (factor o : float) : float :=
  if fltb (f_of_Z 0) factor then
    let rest := fsub (f_of_Z 1) factor in
    fadd (fdiv (fneg rest) (fmul (f_of_Z 2) factor))
      (fsqrt (fadd (fdiv (fmul rest rest) (fmul (fmul (f_of_Z 4) factor) factor))
                (if fltb o (f_of_Z 0) then f_of_Z 0 else fdiv o factor)))
  else o.
Definition motor_output (factor o : float) : float :=
  fconstrain (fsub (fmul (f_of_Z 2) (thrust_model factor o)) (f_of_Z 1)) (f_of_Z (-1)) (f_of_Z 1).

(** A flag by the sign of a scale. *)
Definition by_sign (scale : float) (pos neg : Z) (status : Z) : Z :=
  if fltb (f_of_Z 0) scale then fset status pos
  else if fltb scale (f_of_Z 0) then fset status neg else status.

Definition update_saturation_status (r : rotor) (clipping_high clipping_low_roll_pitch clipping_low_yaw : bool)
    (status : Z) : Z :=
  let status :=
    if clipping_high then
      fset (by_sign (yaw_scale r) SAT_YAW_POS SAT_YAW_NEG
              (by_sign (pitch_scale r) SAT_PITCH_POS SAT_PITCH_NEG
                 (by_sign (roll_scale r) SAT_ROLL_POS SAT_ROLL_NEG status))) SAT_THRUST_POS
    else status in
  let status :=
    if clipping_low_roll_pitch then
      fset (by_sign (pitch_scale r) SAT_PITCH_NEG SAT_PITCH_POS
              (by_sign (roll_scale r) SAT_ROLL_NEG SAT_ROLL_POS status)) SAT_THRUST_NEG
    else status in
  let status := if clipping_low_yaw then by_sign (yaw_scale r) SAT_YAW_NEG SAT_YAW_POS status else status in
  fset status SAT_VALID.

(** The slew rate limit of one motor, with its saturation report. *)
Definition slew_motor (mode : Z) (delta : float) (r : rotor) (prev o : float) (status : Z) : float * Z :=
  let low := fltb o (fneg (f_dec 99 100)) in
  let low_rp := low && (mode =? AIRMODE_DISABLED) in
  let low_yaw := low && ((mode =? AIRMODE_DISABLED) || (mode =? AIRMODE_ROLL_PITCH)) in
  let delta_out := fsub o prev in
  if fltb (f_of_Z 0) delta && fltb delta delta_out then
    (fadd prev delta, update_saturation_status r true low_rp low_yaw status)
  else if fltb (f_of_Z 0) delta && fltb delta_out (fneg delta) then
    (fsub prev delta, update_saturation_status r false true true status)
  else (o, update_saturation_status r false low_rp low_yaw status).

Fixpoint slew_motors (mode : Z) (delta : float) (l : list (rotor * (float * float))) (status : Z) : list float * Z :=
  match l with
  | [] => ([], status)
  | (r, (prev, o)) :: l =>
      let '(o, status) := slew_motor mode delta r prev o status in
      let '(os, status) := slew_motors mode delta l status in (o :: os, status)
  end.

Definition multirotor_mix (cb : callback) (m : multirotor) (space : nat) : list float * multirotor :=
  if decide (space < length (rotors m))%nat then ([], m)
  else
    let control i lo := fconstrain (cb 0 i).2 lo (f_of_Z 1) in
    let roll := control 0 (f_of_Z (-1)) in
    let pitch := control 1 (f_of_Z (-1)) in
    let yaw := control 2 (f_of_Z (-1)) in
    let thrust := control 3 (f_of_Z 0) in
    let '(outputs, status) :=
      if airmode m =? AIRMODE_ROLL_PITCH then mix_airmode_rp (rotors m) roll pitch yaw thrust 0
      else if airmode m =? AIRMODE_ROLL_PITCH_YAW then mix_airmode_rpy (rotors m) roll pitch yaw thrust 0
      else mix_airmode_disabled (rotors m) roll pitch yaw thrust 0 in
    let outputs := motor_output (thrust_factor m) <$> outputs in
    let '(outputs, status) :=
      slew_motors (airmode m) (delta_out_max m) (zip (rotors m) (zip (outputs_prev m) outputs)) status in
    (outputs, Multirotor (f_of_Z 0) (thrust_factor m) (airmode m) status (rotors m) outputs).

Definition set_max_delta_out_once (d : float) (m : multirotor) : multirotor :=
  Multirotor d (thrust_factor m) (airmode m) (saturation_status m) (rotors m) (outputs_prev m).
Definition set_thrust_factor (v : float) (m : multirotor) : multirotor :=
  Multirotor (delta_out_max m) (fconstrain v (f_of_Z 0) (f_of_Z 1)) (airmode m) (saturation_status m) (rotors m)
    (outputs_prev m).
Definition set_airmode (v : Z) (m : multirotor) : multirotor :=
  Multirotor (delta_out_max m) (thrust_factor m) v (saturation_status m) (rotors m) (outputs_prev m).

(** * The outputs *)

Lemma slew_motors_length mode delta l : forall status, length (slew_motors mode delta l status).1 = length l.
Proof.
  induction l as [|[r [prev o]] l IH]; intros status; cbn [slew_motors]; [done|].
  destruct (slew_motor mode delta r prev o status) as [o1 st]. specialize (IH st).
  destruct (slew_motors mode delta l st) as [os st']. simpl in *. by rewrite IH.
Qed.

Lemma multirotor_fits cb m space : (length (multirotor_mix cb m space).1 <= space)%nat.
Proof.
  unfold multirotor_mix. case_decide; [simpl; lia|]. cbv zeta.
  match goal with |- context [let '(_, _) := ?x in _] => destruct x as [os st] end.
  pose proof (slew_motors_length (airmode m) (delta_out_max m)
    (zip (rotors m) (zip (outputs_prev m) (motor_output (thrust_factor m) <$> os))) st) as H1.
  destruct (slew_motors _ _ _ st) as [os' st']. simpl in *. rewrite H1. rewrite length_zip_with. lia.
Qed.
