(* ===== verification/HelicopterMixer.v ===== *)
(** The helicopter mixer of src/lib/mixer/HelicopterMixer: the parser of the
    curves and swash plate servos, and the mixing.  Sine and cosine are those of
    the C library. *)

From Stdlib Require Import ZArith Lia SpecFloat.
From stdpp Require Import base list numbers option.
From S2P Require Import Prelude Float32 Px4ioMixer MixerText SimpleMixer.

Local Open Scope Z_scope.

Definition HELI_CURVES_NR_POINTS : Z := 5.
Definition M_PI_F : float := S754_finite false 13176795 (-22).

Record mixer_heli_servo := Heli_servo {
  angle : float; arm_length : float; h_scale : float; h_offset : float; h_min : float; h_max : float
}.

(** [control_count] is the number of the servos. *)
Record heli := Heli {
  throttle_curve : list float;
  pitch_curve : list float;
  servos : list mixer_heli_servo
}.

(** ** Parsing *)

Definition tag_H : Z := 72.
Definition tag_T : Z := 84.
Definition tag_P : Z := 80.

(** A line of the text with its tag, whose tail has at least 12 characters: the
    numbers and the text after the line. *)
Definition tagged_line (tag : Z) (format : list directive) (buf : list Z) : option (list Z * list Z) :=
  buf ← findtag buf tag;
  if decide (length buf < 12)%nat then None
  else
    let values := ints (sscanf buf (tagged tag format)) in
    if decide (length values = length format) then rest ← skipline buf; Some (values, rest) else None.

Definition servo_of (u0 u1 s0 s1 s2 s3 : Z) : mixer_heli_servo :=
  Heli_servo (fdiv (fmul (f_of_Z u0) M_PI_F) (f_of_Z 180)) (ten_thousandths u1) (ten_thousandths s0)
    (ten_thousandths s1) (ten_thousandths s2) (ten_thousandths s3).

Fixpoint parse_servos (n : nat) (buf : list Z) : option (list mixer_heli_servo * list Z) :=
  match n with
  | O => Some ([], buf)
  | S n =>
      '(values, buf) ← tagged_line tag_S [Unsigned; Unsigned; Dec; Dec; Dec; Dec] buf;
      match values with
      | [u0; u1; s0; s1; s2; s3] =>
          '(l, buf) ← parse_servos n buf; Some (servo_of u0 u1 s0 s1 s2 s3 :: l, buf)
      | _ => None
      end
  end.

Definition heli_from_text (buf : list Z) : option (heli * list Z) :=
  if negb (string_well_formed buf) then None
  else match ints (sscanf buf (tagged tag_H [Unsigned])) with
       | [n] =>
           if (n <? 3) || (4 <? n) then None
           else
             buf ← skipline buf;
             '(throttle, buf) ← tagged_line tag_T [Unsigned; Unsigned; Unsigned; Unsigned; Unsigned] buf;
             '(pitch, buf) ← tagged_line tag_P [Dec; Dec; Dec; Dec; Dec] buf;
             '(l, buf) ← parse_servos (Z.to_nat n) buf;
             Some (Heli (ten_thousandths <$> throttle) (ten_thousandths <$> pitch) l, buf)
       | _ => None
       end.

(** ** Mixing *)

(** The value of a curve at [x], in the segment [idx]. *)
Definition curve_at (curve : list float) (idx : Z) (x : float) : float :=
  let point i := default (f_of_Z 0) (curve !! Z.to_nat i) in
  let gradient := fdiv (fsub (point (idx + 1)) (point idx)) (f_dec 1 4) in
  let start := fsub (point idx) (fmul (fmul gradient (f_of_Z idx)) (f_dec 1 4)) in
  fadd (fmul gradient x) start.

Definition curve_index (thrust_cmd : float) : Z :=
  let idx := f_trunc (fdiv thrust_cmd (f_dec 1 4)) in
  if idx <? 0 then 0 else if HELI_CURVES_NR_POINTS - 2 <? idx then HELI_CURVES_NR_POINTS - 2 else idx.

Section Mixing.
Context (cosf sinf : float -> float).

Definition servo_output (collective roll_cmd pitch_cmd : float) (s : mixer_heli_servo) : float :=
  let o := fsub (fadd collective (fmul (fmul (cosf (angle s)) pitch_cmd) (arm_length s)))
             (fmul (fmul (sinf (angle s)) roll_cmd) (arm_length s)) in
  fconstrain (fadd (fmul o (h_scale s)) (h_offset s)) (h_min s) (h_max s).

Definition heli_mix (cb : callback) (h : heli) (space : nat) : list float :=
  if decide (space < length (servos h) + 1)%nat then []
  else
    let thrust_cmd := (cb 0 3).2 in
    let idx := curve_index thrust_cmd in
    let throttle := fconstrain (fsub (fmul (f_of_Z 2) (curve_at (throttle_curve h) idx thrust_cmd)) (f_of_Z 1))
                      (f_of_Z (-1)) (f_of_Z 1) in
    let collective := fconstrain (curve_at (pitch_curve h) idx thrust_cmd) (fneg (f_dec 1 2)) (f_dec 1 2) in
    throttle :: (servo_output collective (cb 0 0).2 (cb 0 1).2 <$> servos h).
End Mixing.
