(* ===== verification/MixerGroup.v ===== *)
(** The group of mixers of src/lib/mixer/MixerGroup.cpp, and the record of
    operations through which the PX4IO firmware uses it ([mixer_ops]). *)

From Stdlib Require Import ZArith Lia SpecFloat.
From stdpp Require Import base list numbers option.
From S2P Require Import Prelude Float32 Px4io Px4ioMixer Px4ioOutput MixerText SimpleMixer MultirotorMixer HelicopterMixer.

Local Open Scope Z_scope.

(** A mixer of the list. *)
Inductive mixer :=
| NullMixer
| AllocatedActuatorMixer (a : allocated)
| SimpleMixer (m : simple)
| MultirotorMixer (m : multirotor)
| HelicopterMixer (h : heli).

(** What lies outside the library: the generated geometries, the allocator, the
    indeterminate members of a new object, and the C library's functions. *)
Record platform := Platform {
  geometries : list (list Z * list rotor);
  malloc_ok : Z -> bool;
  garbage : allocated;
  cosf : float -> float;
  sinf : float -> float
}.

Section Group.
Context (P : platform).

(** ** load_from_buf *)

(** The parser that the next character selects; the outer option tells whether
    it selects one. *)
Definition from_text (buf : list Z) : option (option (mixer * list Z)) :=
  match buf with
  | [] => None
  | c :: _ =>
      if c =? tag_Z then Some (rest ← null_from_text buf; Some (NullMixer, rest))
      else if c =? tag_A then
        Some ('(a, rest) ← allocated_from_text (garbage P) buf; Some (AllocatedActuatorMixer a, rest))
      else if c =? tag_M then
        Some ('(m, rest) ← simple_from_text (malloc_ok P) buf; Some (SimpleMixer m, rest))
      else if c =? tag_R then
        Some ('(m, rest) ← multirotor_from_text (geometries P) buf; Some (MultirotorMixer m, rest))
      else if c =? tag_H then
        Some ('(h, rest) ← heli_from_text buf; Some (HelicopterMixer h, rest))
      else None
  end.

(** One turn of the loop; [None] leaves it. *)
Definition load_step (buf : list Z) (g : list mixer) : option (list Z * list mixer) :=
  match buf, from_text buf with
  | [], _ => None
  | _ :: buf, None => Some (buf, g)
  | _, Some (Some (m, rest)) => Some (rest, g ++ [m])
  | _, Some None => None
  end.

Fixpoint load_loop (fuel : nat) (buf : list Z) (g : list mixer) : list Z * list mixer :=
  match fuel with
  | O => (buf, g)
  | S fuel =>
      match load_step buf g with
      | Some (buf, g) => load_loop fuel buf g
      | None => (buf, g)
      end
  end.

(** Every turn shortens the text. *)
Definition load_from_buf (buf : list Z) (g : list mixer) : list Z * list mixer := load_loop (length buf) buf g.

(** What it returns: whether it added a mixer. *)
Definition load_result (buf : list Z) (g : list mixer) : Z :=
  if decide (length (load_from_buf buf g).2 = length g) then -1 else 0.

(** ** mix *)

Definition mix_one (cb : callback) (m : mixer) (space : nat) : list float * mixer :=
  match m with
  | NullMixer => (null_mix space, m)
  | AllocatedActuatorMixer a => (allocated_mix cb a space, m)
  | SimpleMixer s => let '(o, s) := simple_mix cb s space in (o, SimpleMixer s)
  | MultirotorMixer r => let '(o, r) := multirotor_mix cb r space in (o, MultirotorMixer r)
  | HelicopterMixer h => (heli_mix (cosf P) (sinf P) cb h space, m)
  end.

Fixpoint mix_group (cb : callback) (g : list mixer) (space : nat) : list float * list mixer :=
  match g with
  | [] => ([], [])
  | m :: g =>
      let '(o, m) := mix_one cb m space in
      if decide (space <= length o)%nat then (o, m :: g)
      else let '(os, g) := mix_group cb g (space - length o) in (o ++ os, m :: g)
  end.

(** ** Parameters *)

(** [set_trim]: the mixer and the number of outputs it says it feeds. *)
Definition set_trim (trim : float) (m : mixer) : nat * mixer :=
  match m with
  | NullMixer => (0%nat, m)
  | AllocatedActuatorMixer _ => (1%nat, m)
  | SimpleMixer s => (1%nat, SimpleMixer (simple_set_trim trim s))
  | MultirotorMixer r => (length (rotors r), m)
  | HelicopterMixer _ => (4%nat, m)
  end.

(** The trims from [values] on, [n] of which are left. *)
Fixpoint set_trims (values : list Z) (n : nat) (g : list mixer) : list mixer :=
  match g with
  | [] => []
  | m :: g =>
      let trim := fconstrain (fdiv (f_of_Z (s16 (default 0 (head values)))) (f_of_Z 10000))
                    (f_of_Z (-1)) (f_of_Z 1) in
      let '(k, m) := set_trim trim m in
      if decide (n <= k)%nat then m :: g else m :: set_trims (drop k values) (n - k) g
  end.

(** [get_trim]: the trim, and the number of outputs the mixer says it feeds. *)
Definition get_trim (m : mixer) : nat * float :=
  match m with
  | NullMixer => (0%nat, f_of_Z 0)
  | AllocatedActuatorMixer _ => (1%nat, f_of_Z 0)
  | SimpleMixer s => (1%nat, offset (output_scaler s))
  | MultirotorMixer r => (length (rotors r), f_of_Z 0)
  | HelicopterMixer _ => (4%nat, f_of_Z 0)
  end.
Definition get_trims (g : list mixer) : list Z :=
  m ← g; let '(k, trim) := get_trim m in replicate k (s16 (f_trunc (fmul trim (f_of_Z 10000)))).

Definition on_multirotor (f : multirotor -> multirotor) (m : mixer) : mixer :=
  match m with MultirotorMixer r => MultirotorMixer (f r) | _ => m end.
Definition on_simple (f : simple -> simple) (m : mixer) : mixer :=
  match m with SimpleMixer s => SimpleMixer (f s) | _ => m end.

Definition set_dt_once (dt : float) : mixer -> mixer := on_simple (fun s => set_output (output_prev s) dt s).

Definition get_saturation_status (g : list mixer) : Z :=
  fold_left (fun sat m => Z.lor sat (match m with MultirotorMixer r => saturation_status r | _ => 0 end)) g 0.

Fixpoint get_multirotor_count (g : list mixer) : nat :=
  match g with
  | [] => 0%nat
  | m :: g =>
      match m with
      | MultirotorMixer r => if decide (0 < length (rotors r))%nat then length (rotors r) else get_multirotor_count g
      | _ => get_multirotor_count g
      end
  end.

Definition groups_required_one (m : mixer) (groups : Z) : Z :=
  match m with
  | NullMixer => groups
  | AllocatedActuatorMixer a => Z.lor groups (u32 (Z.shiftl 1 (a_group a)))
  | SimpleMixer s => simple_groups_required s groups
  | MultirotorMixer _ | HelicopterMixer _ => Z.lor groups 1
  end.
Definition groups_required (g : list mixer) (groups : Z) : Z :=
  fold_left (fun groups m => groups_required_one m groups) g groups.

(** ** The operations of the firmware *)

Definition MixerGroup : mixer_ops (list mixer) :=
  {| mg_reset := fun _ => [];
     mg_load_from_buf := fun text g => let '(rest, g) := load_from_buf text g in (Z.of_nat (length rest), g);
     mg_set_trims := fun values g => set_trims values (Z.to_nat PX4IO_SERVO_COUNT) g;
     mg_set_airmode := fun mode g => on_multirotor (set_airmode mode) <$> g;
     mg_set_max_delta_out_once := fun d g => on_multirotor (set_max_delta_out_once d) <$> g;
     mg_set_dt_once := fun dt g => set_dt_once dt <$> g;
     mg_set_thrust_factor := fun v g => on_multirotor (set_thrust_factor v) <$> g;
     mg_mix := fun cb g => mix_group cb g (Z.to_nat PX4IO_SERVO_COUNT);
     mg_get_saturation_status := get_saturation_status |}.
End Group.

(** * The text is consumed *)

(** The branches of a parser that succeeded. *)
Ltac parse_inv H :=
  repeat match type of H with
  | mbind _ ?e = Some _ => destruct e as [?|] eqn:?; cbn [mbind option_bind] in H; [|discriminate H]
  | match ?e with _ => _ end = Some _ => destruct e eqn:?; try discriminate H
  end; simplify_eq.

(** Every line taken is shorter than what it was taken from. *)
Ltac lines :=
  repeat match goal with
  | Hp : skipline _ = Some _ |- _ => apply skipline_length in Hp
  | Hp : findtag _ _ = Some _ |- _ => apply findtag_length in Hp
  end; simpl in *; lia.

Lemma null_shorter buf rest : null_from_text buf = Some rest -> (length rest < length buf)%nat.
Proof. unfold null_from_text. intros H. parse_inv H. lines. Qed.

Lemma allocated_shorter junk buf a rest :
  allocated_from_text junk buf = Some (a, rest) -> (length rest < length buf)%nat.
Proof.
  unfold allocated_from_text. intros H. parse_inv H. unfold allocated_parse in *. parse_inv Heqo. lines.
Qed.

Lemma output_scaler_shorter buf out rest : parse_output_scaler buf = Some (out, rest) -> (length rest < length buf)%nat.
Proof. unfold parse_output_scaler. intros H. parse_inv H. lines. Qed.

Lemma control_scaler_shorter buf c rest : parse_control_scaler buf = Some (c, rest) -> (length rest < length buf)%nat.
Proof. unfold parse_control_scaler. intros H. parse_inv H. lines. Qed.

Lemma controls_shorter n : forall buf l rest,
  parse_controls n buf = Some (l, rest) -> (length rest <= length buf)%nat /\ length l = n.
Proof.
  induction n as [|n IH]; intros buf l rest H; cbn [parse_controls] in H; [by injection H as <- <-|].
  destruct (parse_control_scaler buf) as [[c b1]|] eqn:E; [|done]. cbn [mbind option_bind] in H.
  destruct (parse_controls n b1) as [[l1 b2]|] eqn:E1; [|done]. injection H as <- <-.
  apply control_scaler_shorter in E. apply IH in E1 as [H1 H2]. simpl. lia.
Qed.

Lemma simple_output_shorter buf out rest : simple_output buf = Some (out, rest) -> (length rest <= length buf)%nat.
Proof.
  unfold simple_output. case_match; [intros [= _ <-]; lia|]. intros Ho. apply output_scaler_shorter in Ho. lia.
Qed.

Lemma simple_shorter ok buf m rest : simple_from_text ok buf = Some (m, rest) -> (length rest < length buf)%nat.
Proof.
  unfold simple_from_text. intros H. parse_inv H.
  repeat match goal with
  | Hp : simple_output _ = Some _ |- _ => apply simple_output_shorter in Hp
  | Hp : parse_controls _ _ = Some _ |- _ => apply controls_shorter in Hp as [Hp _]
  end. lines.
Qed.

Lemma multirotor_shorter geo buf m rest : multirotor_from_text geo buf = Some (m, rest) -> (length rest < length buf)%nat.
Proof. unfold multirotor_from_text. intros H. parse_inv H. lines. Qed.

Lemma tagged_line_shorter tag format buf v rest : tagged_line tag format buf = Some (v, rest) -> (length rest < length buf)%nat.
Proof. unfold tagged_line. cbv zeta. intros H. parse_inv H. lines. Qed.

Lemma servos_shorter n : forall buf l rest, parse_servos n buf = Some (l, rest) -> (length rest <= length buf)%nat /\ length l = n.
Proof.
  induction n as [|n IH]; intros buf l rest H; cbn [parse_servos] in H; [by injection H as <- <-|].
  destruct (tagged_line _ _ buf) as [[v b1]|] eqn:E; [|done]. cbn [mbind option_bind] in H.
  apply tagged_line_shorter in E. parse_inv H.
  match goal with Hp : parse_servos n _ = Some _ |- _ => apply IH in Hp as [H1 H2] end. simpl. lia.
Qed.

Lemma heli_shorter buf h rest : heli_from_text buf = Some (h, rest) -> (length rest < length buf)%nat.
Proof.
  unfold heli_from_text. intros H. parse_inv H.
  repeat match goal with
  | Hp : tagged_line _ _ _ = Some _ |- _ => apply tagged_line_shorter in Hp
  | Hp : parse_servos _ _ = Some _ |- _ => apply servos_shorter in Hp as [Hp _]
  end. lines.
Qed.

Section Laws.
Context (P : platform).

Lemma from_text_shorter buf m rest : from_text P buf = Some (Some (m, rest)) -> (length rest < length buf)%nat.
Proof.
  unfold from_text. destruct buf as [|c buf]; [done|].
  repeat (case_match; [|]); intros [= Ht]; try done; parse_inv Ht;
    eauto using null_shorter, allocated_shorter, simple_shorter, multirotor_shorter, heli_shorter.
Qed.

Lemma load_step_shorter buf g buf' g' : load_step P buf g = Some (buf', g') -> (length buf' < length buf)%nat.
Proof.
  unfold load_step. destruct buf as [|c buf]; [done|].
  destruct (from_text P (c :: buf)) as [[[m rest]|]|] eqn:E; [|done|].
  - intros [= <- _]. by apply from_text_shorter in E.
  - intros [= <- _]. simpl. lia.
Qed.

(** The loop ends by itself: its fuel, the length of the text, never runs out. *)
Lemma load_loop_ends fuel : forall buf g,
  (length buf <= fuel)%nat ->
  let '(buf', g') := load_loop P fuel buf g in load_step P buf' g' = None /\ (length buf' <= length buf)%nat.
Proof.
  induction fuel as [|fuel IH]; intros buf g Hf; cbn [load_loop].
  - destruct buf; [done | simpl in Hf; lia].
  - destruct (load_step P buf g) as [[buf1 g1]|] eqn:E; [|by split].
    apply load_step_shorter in E. specialize (IH buf1 g1 ltac:(lia)).
    destruct (load_loop P fuel buf1 g1) as [buf' g']. destruct IH as [H1 H2]. split; [done | lia].
Qed.

(** ** The outputs fit *)

Lemma mix_one_fits cb m space : (length (mix_one P cb m space).1 <= space)%nat.
Proof.
  destruct m as [|a|s|r|h]; simpl.
  - unfold null_mix. case_decide; simpl; lia.
  - unfold allocated_mix. case_decide; simpl; lia.
  - unfold simple_mix. case_decide; simpl; lia.
  - pose proof (multirotor_fits cb r space) as H. by destruct (multirotor_mix cb r space).
  - unfold heli_mix. case_decide; simpl; [lia|]. rewrite length_fmap. lia.
Qed.

Lemma mix_group_fits cb g : forall space, (length (mix_group P cb g space).1 <= space)%nat.
Proof.
  induction g as [|m g IH]; intros space; cbn [mix_group]; [simpl; lia|].
  pose proof (mix_one_fits cb m space) as H. destruct (mix_one P cb m space) as [o m']. cbn [fst] in H.
  case_decide; [done|]. specialize (IH (space - length o)%nat). destruct (mix_group P cb g _) as [os g'].
  simpl in *. rewrite length_app. lia.
Qed.

#[export] Instance MixerGroup_laws : MixerLaws (MixerGroup P).
Proof.
  split.
  - intros cb g. apply (mix_group_fits cb g 8).
  - intros text g. cbn [mg_load_from_buf MixerGroup]. unfold load_from_buf.
    pose proof (load_loop_ends (length text) text g ltac:(done)) as H.
    destruct (load_loop P (length text) text g) as [rest g']. simpl. lia.
Qed.
End Laws.
