(* ===== verification/MixerRoundtrip.v ===== *)
(** The text format of the simple mixers, written and read back.

    [print_simple] writes a mixer the way the mixer files do; the parsers of
    [SimpleMixer] and the loop of [MixerGroup] recover it. *)

From Stdlib Require Import ZArith Lia SpecFloat.
From stdpp Require Import base list numbers option.
From S2P Require Import Prelude Float32 MixerText SimpleMixer MultirotorMixer HelicopterMixer MixerGroup.

Local Open Scope Z_scope.

(** * Numbers *)

Fixpoint decimal_nat (fuel : nat) (n : Z) : list Z :=
  match fuel with
  | O => []
  | S fuel => if n <? 10 then [48 + n] else decimal_nat fuel (n / 10) ++ [48 + n mod 10]
  end.

(** Ten digits are enough for 32 bits. *)
Definition decimal (n : Z) : list Z := if n <? 0 then 45 :: decimal_nat 10 (- n) else decimal_nat 10 n.

Lemma isdigit_48 n : 0 <= n < 10 -> isdigit (48 + n) = true.
Proof. intros. unfold isdigit. lia. Qed.

Definition no_digit (s : list Z) : Prop := match s with c :: _ => isdigit c = false | [] => True end.

Lemma digits_stop acc s : no_digit s -> digits acc s = (acc, s).
Proof. destruct s as [|c s]; [done|]. simpl. by intros ->. Qed.

Lemma digits_decimal fuel : forall n acc s, 0 <= n < 10 ^ Z.of_nat fuel ->
  digits acc (decimal_nat fuel n ++ s)
  = digits (acc * 10 ^ Z.of_nat (length (decimal_nat fuel n)) + n) s.
Proof.
  induction fuel as [|fuel IH]; intros n acc s Hn; [simpl in *; f_equal; lia|].
  rewrite Nat2Z.inj_succ, Z.pow_succ_r in Hn by lia. cbn [decimal_nat].
  destruct (Z.ltb_spec n 10).
  - cbn [app digits length]. rewrite isdigit_48 by lia. f_equal. lia.
  - pose proof (Z.div_mod n 10 ltac:(lia)) as E. pose proof (Z.mod_pos_bound n 10 ltac:(lia)).
    rewrite <- app_assoc, IH by (split; [apply Z.div_pos; lia | apply Z.div_lt_upper_bound; lia]).
    cbn [app digits]. rewrite isdigit_48 by done. f_equal.
    rewrite length_app, Nat2Z.inj_add, Z.pow_add_r by lia. change (10 ^ Z.of_nat (length [48 + n mod 10])) with 10. lia.
Qed.

Lemma decimal_nat_head fuel n : 0 <= n < 10 ^ Z.of_nat (S fuel) ->
  exists d l, decimal_nat (S fuel) n = 48 + d :: l /\ 0 <= d < 10.
Proof.
  revert n. induction fuel as [|fuel IH]; intros n Hn; rewrite Nat2Z.inj_succ, Z.pow_succ_r in Hn by lia.
  - simpl in *. destruct (Z.ltb_spec n 10); [|lia]. exists n, []. split; [done | lia].
  - change (decimal_nat (S (S fuel)) n) with (if n <? 10 then [48 + n] else decimal_nat (S fuel) (n / 10) ++ [48 + n mod 10]).
    destruct (Z.ltb_spec n 10); [exists n, []; split; [done | lia]|].
    destruct (IH (n / 10)) as (d & l & -> & Hd); [|by exists d, (l ++ [48 + n mod 10])].
    split; [apply Z.div_pos; lia | apply Z.div_lt_upper_bound; lia].
Qed.

Lemma number_decimal n s : 0 <= n < 10 ^ 10 -> no_digit s -> number (decimal_nat 10 n ++ s) = Some (n, s).
Proof.
  intros Hn Hs. destruct (decimal_nat_head 9 n Hn) as (d & l & E & Hd).
  unfold number. rewrite E. cbn [app]. rewrite isdigit_48 by done.
  change (48 + d :: l ++ s) with ((48 + d :: l) ++ s). rewrite <- E.
  rewrite digits_decimal by done. rewrite digits_stop by done. done.
Qed.

Lemma skip_blanks_idem s : skip_blanks (skip_blanks s) = skip_blanks s.
Proof.
  induction s as [|c s IH]; [done|]. cbn [skip_blanks]. destruct (isspace c) eqn:E; [done|].
  cbn [skip_blanks]. by rewrite E.
Qed.

Lemma integer_skip s : integer (skip_blanks s) = integer s.
Proof. unfold integer. by rewrite skip_blanks_idem. Qed.

Lemma integer_decimal n s : - 10 ^ 10 < n < 10 ^ 10 -> no_digit s -> integer (32 :: decimal n ++ s) = Some (n, s).
Proof.
  intros Hn Hs. unfold integer, decimal. destruct (Z.ltb_spec n 0).
  - cbn [app skip_blanks isspace Z.eqb orb andb Z.leb]. cbn -[number decimal_nat Z.opp].
    rewrite number_decimal by (done || lia). cbn [mbind option_bind]. by rewrite Z.opp_involutive.
  - destruct (decimal_nat_head 9 n ltac:(lia)) as (d & l & E & Hd). rewrite <- (number_decimal n s ltac:(lia) Hs).
    rewrite E. cbn [app skip_blanks]. change (isspace 32) with true. cbn iota.
    assert (isspace (48 + d) = false) as -> by (unfold isspace; lia).
    destruct (Z.eqb_spec (48 + d) 45); [lia|]. destruct (Z.eqb_spec (48 + d) 43); [lia | done].
Qed.

(** * Lines *)

Definition fits (d : directive) (v : Z) : Prop :=
  match d with
  | Dec => -2147483648 <= v < 2147483648
  | Unsigned => 0 <= v < 4294967296
  | _ => False
  end.

Definition args (vs : list Z) : list Z := concat ((fun v => 32 :: decimal v) <$> vs).
Definition line (tag : Z) (vs : list Z) : list Z := tag :: colon :: args vs ++ [LF].

Lemma s32_fits v : -2147483648 <= v < 2147483648 -> s32 v = v.
Proof.
  intros Hv. unfold s32, u32. destruct (Z_lt_le_dec v 0).
  - rewrite <- (Z.mod_add v 1) by done. rewrite Z.mod_small by lia.
    destruct (Z.ltb_spec (v + 1 * 4294967296) 2147483648); lia.
  - rewrite Z.mod_small by lia. destruct (Z.ltb_spec v 2147483648); lia.
Qed.

Lemma scan_conversion d v s format : fits d v -> no_digit s ->
  scan (d :: format) (32 :: decimal v ++ s) = Int v :: scan format s.
Proof.
  intros Hf Hs. destruct d; try done; cbn [scan fits] in *; rewrite integer_decimal by (done || lia); f_equal.
  - by rewrite s32_fits.
  - unfold u32. by rewrite Z.mod_small by lia.
Qed.

Lemma scan_blank d s format : (d = Dec \/ d = Unsigned) -> scan (d :: format) (skip_blanks s) = scan (d :: format) s.
Proof. intros [-> | ->]; cbn [scan]; by rewrite integer_skip. Qed.

Lemma fits_conversion d v : fits d v -> d = Dec \/ d = Unsigned.
Proof. destruct d; try done; auto. Qed.

Lemma no_digit_args vs s : no_digit s -> no_digit (args vs ++ s).
Proof. by destruct vs. Qed.

Lemma scan_args ds : forall vs s, Forall2 fits ds vs -> ds <> [] -> no_digit s ->
  scan (Blank :: spaced ds) (args vs ++ s) = Int <$> vs.
Proof.
  induction ds as [|d ds IH]; intros vs s H Hne Hs; [done|]. inversion H as [|? v ? vs' Hv Hvs]; subst.
  change (args (v :: vs')) with (32 :: decimal v ++ args vs'). rewrite <- app_comm_cons, <- app_assoc.
  change (scan (Blank :: spaced (d :: ds)) ?x) with (scan (spaced (d :: ds)) (skip_blanks x)).
  destruct ds as [|d' ds].
  - inversion Hvs; subst. cbn [spaced]. rewrite scan_blank by (by eapply fits_conversion).
    rewrite scan_conversion by done. done.
  - change (spaced (d :: d' :: ds)) with (d :: Blank :: spaced (d' :: ds)).
    rewrite scan_blank by (by eapply fits_conversion).
    rewrite scan_conversion by (done || by apply no_digit_args). rewrite IH by done. done.
Qed.

Lemma ints_Int vs : ints (Int <$> vs) = vs.
Proof. induction vs as [|v vs IH]; [done|]. unfold ints in *. cbn. by rewrite IH. Qed.

(** ** The characters of a line *)

Lemma decimal_nat_chars fuel : forall n, 0 <= n -> Forall (fun c => 32 <= c) (decimal_nat fuel n).
Proof.
  induction fuel as [|fuel IH]; intros n Hn; [constructor|]. cbn [decimal_nat].
  destruct (n <? 10); [repeat constructor; lia|]. apply Forall_app. split; [apply IH, Z.div_pos; lia|].
  repeat constructor. pose proof (Z.mod_pos_bound n 10). lia.
Qed.

Lemma args_chars vs : Forall (fun c => 32 <= c) (args vs).
Proof.
  unfold args. induction vs as [|v vs IH]; [constructor|]. cbn. constructor; [lia|]. apply Forall_app. split; [|done].
  unfold decimal. destruct (Z.ltb_spec v 0); [constructor; [lia|]|]; apply decimal_nat_chars; lia.
Qed.

Lemma c_string_line l s : Forall (fun c => 32 <= c) l -> c_string (l ++ LF :: s) = l ++ LF :: c_string s.
Proof.
  induction 1 as [|c l Hc _ IH]; [done|]. cbn [app c_string]. rewrite IH.
  destruct (Z.eqb_spec c NUL); [unfold NUL in *; lia | done].
Qed.

Lemma after_LF l s : Forall (fun c => 32 <= c) l -> after LF (l ++ LF :: s) = Some s.
Proof.
  induction 1 as [|c l Hc _ IH]; [done|]. cbn [app after]. destruct (Z.eqb_spec c LF); [unfold LF in *; lia | done].
Qed.

Lemma after_none c l : ~ In c l -> after c l = None.
Proof.
  induction l as [|d l IH]; intros H; [done|]. cbn [after]. destruct (Z.eqb_spec d c) as [->|]; [destruct H; by left|].
  apply IH. intros Hi. apply H. by right.
Qed.

Definition no_CR (s : list Z) : Prop := ~ In CR s.

Lemma chars_no_CR l s : Forall (fun c => 32 <= c) l -> no_CR s -> no_CR (l ++ LF :: s).
Proof.
  intros H Hs Hi. apply in_app_iff in Hi as [Hi|[Hi|Hi]]; [|done | done].
  rewrite List.Forall_forall in H. specialize (H _ Hi). unfold CR in H. lia.
Qed.

(** A line read with its own tag and format. *)
Section Lines.
Context (tag : Z) (ds : list directive) (vs : list Z) (s : list Z).
Context (Htag : 32 <= tag) (Hds : Forall2 fits ds vs) (Hne : ds <> []) (Hs : no_CR s).

Lemma line_app : line tag vs ++ s = (tag :: colon :: args vs) ++ LF :: s.
Proof. unfold line. rewrite !app_comm_cons, <- app_assoc. done. Qed.

Lemma line_chars : Forall (fun c => 32 <= c) (tag :: colon :: args vs).
Proof. constructor; [done|]. constructor; [unfold colon; lia | apply args_chars]. Qed.

Lemma sscanf_line : sscanf (line tag vs ++ s) (tagged tag ds) = Int <$> vs.
Proof.
  unfold sscanf. rewrite line_app, c_string_line by apply line_chars. unfold tagged.
  rewrite <- app_comm_cons. cbn [scan]. rewrite Z.eqb_refl. rewrite <- app_comm_cons. cbn [scan].
  rewrite Z.eqb_refl. exact (scan_args ds vs (LF :: c_string s) Hds Hne eq_refl).
Qed.

Lemma skipline_line : skipline (line tag vs ++ s) = Some s.
Proof.
  rewrite line_app. unfold skipline. rewrite after_none by (apply chars_no_CR; [apply line_chars | done]).
  apply after_LF, line_chars.
Qed.

Lemma findtag_line : findtag (line tag vs ++ s) tag = Some (line tag vs ++ s).
Proof. unfold line. rewrite <- !app_comm_cons. cbn [findtag]. by rewrite !Z.eqb_refl. Qed.

Lemma line_no_CR : no_CR (line tag vs ++ s).
Proof. rewrite line_app. apply chars_no_CR; [apply line_chars | done]. Qed.

Lemma line_well_formed : string_well_formed (line tag vs ++ s) = true.
Proof.
  rewrite string_well_formed_exists, line_app, existsb_app. cbn [existsb]. change (is_line_end LF) with true.
  by rewrite orb_true_r.
Qed.

Lemma line_long : (2 + 2 * length vs < length (line tag vs ++ s))%nat.
Proof.
  rewrite line_app, length_app. cbn [length].
  assert (H : (2 * length vs <= length (args vs))%nat); [|lia].
  clear. unfold args. induction vs as [|v l IH]; [simpl; lia|]. cbn. rewrite length_app.
  assert (1 <= length (decimal v))%nat; [|lia]. unfold decimal.
  destruct (v <? 0); cbn [length]; [lia|]. cbn [decimal_nat]. case_match; [simpl; lia|]. rewrite length_app. simpl. lia.
Qed.
End Lines.

(** * The mixers as text *)

Definition out_format : list directive := [Dec; Dec; Dec; Dec; Dec; Dec].
Definition in_format : list directive := [Unsigned; Unsigned; Dec; Dec; Dec; Dec; Dec].
Definition curve_format (d : directive) : list directive := [d; d; d; d; d].
Definition servo_format : list directive := [Unsigned; Unsigned; Dec; Dec; Dec; Dec].

(** The numbers of a mixer file. *)
Inductive mixer_text :=
| TNull
| TAllocated (index : Z)
| TSimple (out : list Z) (inputs : list (list Z))
| TMultirotor (name : list Z)
| THelicopter (throttle pitch : list Z) (servos : list (list Z)).

Definition print_mixer (t : mixer_text) : list Z :=
  match t with
  | TNull => [tag_Z; colon; LF]
  | TAllocated index => line tag_A [index]
  | TSimple out inputs => line tag_M [Z.of_nat (length inputs)] ++ line tag_O out ++ concat (line tag_S <$> inputs)
  | TMultirotor name => tag_R :: colon :: 32 :: name ++ [LF]
  | THelicopter throttle pitch servos =>
      line tag_H [Z.of_nat (length servos)] ++ line tag_T throttle ++ line tag_P pitch ++ concat (line tag_S <$> servos)
  end.

(** What they stand for. *)
Definition scaler_text (l : list Z) : mixer_scaler := let n k := aget l k in scaler_of (n 0) (n 1) (n 2) (n 3) (n 4).
Definition control_text (l : list Z) : mixer_control :=
  Control (u8 (aget l 0)) (u8 (aget l 1)) (scaler_text (drop 2 l)).
Definition servo_text (l : list Z) : mixer_heli_servo :=
  let n k := aget l k in servo_of (n 0) (n 1) (n 2) (n 3) (n 4) (n 5).

Section Texts.
Context (P : platform).

Definition mixer_of (t : mixer_text) : mixer :=
  match t with
  | TNull => NullMixer
  | TAllocated index => AllocatedActuatorMixer (allocated_new (garbage P) index)
  | TSimple out inputs =>
      SimpleMixer (Simple (u8 (Z.of_nat (length inputs))) (scaler_text out) (ten_thousandths (aget out 5))
                     (control_text <$> inputs) (f_of_Z 0) (f_of_Z 0))
  | TMultirotor name => MultirotorMixer (multirotor_new (default [] (find_geometry (geometries P) name)))
  | THelicopter throttle pitch servos =>
      HelicopterMixer (Heli (ten_thousandths <$> throttle) (ten_thousandths <$> pitch)
                         (servo_text <$> servos))
  end.

Definition text_ok (t : mixer_text) : Prop :=
  match t with
  | TNull => True
  | TAllocated index => 0 <= index < 16
  | TSimple out inputs =>
      Forall2 fits out_format out /\ Forall (Forall2 fits in_format) inputs
      /\ 0 < Z.of_nat (length inputs) < 256
      /\ malloc_ok P (MIXER_SIMPLE_SIZE (Z.of_nat (length inputs))) = true
  | TMultirotor name =>
      (0 < length name <= 15)%nat /\ Forall (fun c => 32 < c) name /\ is_Some (find_geometry (geometries P) name)
  | THelicopter throttle pitch servos =>
      Forall2 fits (curve_format Unsigned) throttle /\ Forall2 fits (curve_format Dec) pitch
      /\ Forall (Forall2 fits servo_format) servos /\ 3 <= Z.of_nat (length servos) <= 4
  end.

(** ** Reading them back *)

(** The values of a fixed format, one by one. *)
Ltac arguments H :=
  repeat match type of H with
  | Forall2 _ (_ :: _) _ => let H' := fresh in inversion H as [|? ? ? ? _ H']; subst; clear H; rename H' into H
  end; inversion H; subst.

Lemma parse_output_line vs s : Forall2 fits out_format vs -> no_CR s ->
  parse_output_scaler (line tag_O vs ++ s) = Some (scaler_text vs, ten_thousandths (aget vs 5), s).
Proof.
  intros Hv Hs. unfold parse_output_scaler. rewrite findtag_line. cbn [mbind option_bind].
  pose proof (line_long tag_O vs s) as Hl. rewrite <- (Forall2_length Hv) in Hl.
  rewrite decide_False by (unfold out_format in Hl; cbn [length] in Hl; lia).
  change [Dec; Dec; Dec; Dec; Dec; Dec] with out_format.
  rewrite sscanf_line by done. rewrite ints_Int, skipline_line by done.
  unfold out_format in Hv. arguments Hv. reflexivity.
Qed.

Lemma parse_control_line vs s : Forall2 fits in_format vs -> no_CR s ->
  parse_control_scaler (line tag_S vs ++ s) = Some (control_text vs, s).
Proof.
  intros Hv Hs. unfold parse_control_scaler. rewrite findtag_line. cbn [mbind option_bind].
  pose proof (line_long tag_S vs s) as Hl. rewrite <- (Forall2_length Hv) in Hl.
  rewrite decide_False by (unfold in_format in Hl; cbn [length] in Hl; lia).
  change [Unsigned; Unsigned; Dec; Dec; Dec; Dec; Dec] with in_format.
  rewrite sscanf_line by done. rewrite ints_Int, skipline_line by done.
  unfold in_format in Hv. arguments Hv. reflexivity.
Qed.

Lemma parse_control_lines inputs s : Forall (Forall2 fits in_format) inputs -> no_CR s ->
  no_CR (concat (line tag_S <$> inputs) ++ s)
  /\ parse_controls (length inputs) (concat (line tag_S <$> inputs) ++ s) = Some (control_text <$> inputs, s).
Proof.
  intros H Hs. induction H as [|vs inputs Hv _ [IH1 IH2]]; [done|].
  cbn [fmap list_fmap concat length parse_controls]. rewrite <- app_assoc.
  split; [by apply line_no_CR|]. rewrite parse_control_line by done. cbn [mbind option_bind].
  by rewrite IH2.
Qed.

Lemma simple_back out inputs s : text_ok (TSimple out inputs) -> no_CR s ->
  no_CR (print_mixer (TSimple out inputs) ++ s)
  /\ from_text P (print_mixer (TSimple out inputs) ++ s) = Some (Some (mixer_of (TSimple out inputs), s)).
Proof.
  intros (Ho & Hi & Hn & Hm) Hs. destruct (parse_control_lines inputs s Hi Hs) as [C1 C2].
  cbn [print_mixer]. rewrite <- !app_assoc. set (rest := concat _ ++ s) in *.
  assert (H1 : no_CR (line tag_O out ++ rest)) by (by apply line_no_CR).
  split; [by apply line_no_CR|]. set (n := Z.of_nat (length inputs)) in *.
  assert (Hf : Forall2 fits [Unsigned] [n]) by (repeat constructor; lia).
  transitivity (Some ('(m, rest) ← simple_from_text (malloc_ok P) (line tag_M [n] ++ line tag_O out ++ rest);
                      Some (SimpleMixer m, rest))); [reflexivity|].
  unfold simple_from_text. rewrite line_well_formed. cbn [negb].
  rewrite sscanf_line by done. rewrite ints_Int. destruct (Z.eqb_spec n 0); [lia|].
  rewrite skipline_line by done. cbn [mbind option_bind]. rewrite Hm. cbn [negb].
  assert (simple_output (line tag_O out ++ rest) = parse_output_scaler (line tag_O out ++ rest)) as -> by done.
  rewrite parse_output_line by done. cbn [mbind option_bind]. subst n. rewrite Nat2Z.id, C2. done.
Qed.

(** A line of the helicopter mixer. *)
Lemma tagged_line_back tag ds vs s :
  32 <= tag -> Forall2 fits ds vs -> (5 <= length ds)%nat -> no_CR s -> tagged_line tag ds (line tag vs ++ s) = Some (vs, s).
Proof.
  intros Ht Hv Hd Hs. assert (Hne : ds <> []) by (intros ->; simpl in Hd; lia).
  unfold tagged_line. rewrite findtag_line. cbn [mbind option_bind].
  pose proof (line_long tag vs s) as Hl. pose proof (Forall2_length Hv) as Hlen.
  rewrite decide_False by lia. cbv zeta. rewrite sscanf_line by done. rewrite ints_Int, decide_True by lia.
  by rewrite skipline_line by done.
Qed.

Lemma parse_servo_lines l s : Forall (Forall2 fits servo_format) l -> no_CR s ->
  no_CR (concat (line tag_S <$> l) ++ s)
  /\ parse_servos (length l) (concat (line tag_S <$> l) ++ s) = Some (servo_text <$> l, s).
Proof.
  intros H Hs. induction H as [|vs l Hv _ [IH1 IH2]]; [done|].
  cbn [fmap list_fmap concat length parse_servos]. rewrite <- app_assoc.
  split; [by apply line_no_CR|]. change [Unsigned; Unsigned; Dec; Dec; Dec; Dec] with servo_format.
  rewrite tagged_line_back by (done || (simpl; lia)). cbn [mbind option_bind]. rewrite IH2.
  unfold servo_format in Hv. arguments Hv. reflexivity.
Qed.

Lemma heli_back throttle pitch l s : text_ok (THelicopter throttle pitch l) -> no_CR s ->
  no_CR (print_mixer (THelicopter throttle pitch l) ++ s)
  /\ from_text P (print_mixer (THelicopter throttle pitch l) ++ s)
     = Some (Some (mixer_of (THelicopter throttle pitch l), s)).
Proof.
  intros (Ht & Hp & Hl & Hn) Hs. destruct (parse_servo_lines l s Hl Hs) as [C1 C2].
  cbn [print_mixer]. rewrite <- !app_assoc. set (rest := concat _ ++ s) in *.
  assert (H1 : no_CR (line tag_P pitch ++ rest)) by (by apply line_no_CR).
  assert (H2 : no_CR (line tag_T throttle ++ line tag_P pitch ++ rest)) by (by apply line_no_CR).
  split; [by apply line_no_CR|]. set (n := Z.of_nat (length l)) in *.
  assert (Hf : Forall2 fits [Unsigned] [n]) by (repeat constructor; lia).
  transitivity (Some ('(h, rest) ← heli_from_text (line tag_H [n] ++ line tag_T throttle ++ line tag_P pitch ++ rest);
                      Some (HelicopterMixer h, rest))); [reflexivity|].
  unfold heli_from_text. rewrite line_well_formed. cbn [negb].
  rewrite sscanf_line by done. rewrite ints_Int.
  destruct (Z.ltb_spec n 3), (Z.ltb_spec 4 n); try lia. cbn [orb].
  rewrite skipline_line by done. cbn [mbind option_bind].
  change [Unsigned; Unsigned; Unsigned; Unsigned; Unsigned] with (curve_format Unsigned).
  change [Dec; Dec; Dec; Dec; Dec] with (curve_format Dec).
  rewrite !tagged_line_back by (done || (simpl; lia)). cbn [mbind option_bind].
  rewrite tagged_line_back by (done || (simpl; lia)). cbn [mbind option_bind]. subst n. rewrite Nat2Z.id, C2. done.
Qed.

Lemma word_back name s width :
  Forall (fun c => 32 < c) name -> (length name <= width)%nat -> match s with c :: _ => isspace c = true | [] => True end ->
  word width (name ++ s) = (name, s).
Proof.
  revert width. induction name as [|c name IH]; intros width Hn Hw Hs.
  - destruct width, s; try done. cbn [app word]. by rewrite Hs.
  - inversion Hn as [|? ? Hc Hn']; subst. destruct width as [|width]; [simpl in Hw; lia|]. cbn [app word].
    assert (isspace c = false) as -> by (unfold isspace; lia). rewrite IH by (done || (simpl in Hw; lia)). done.
Qed.

Lemma multirotor_back name s : text_ok (TMultirotor name) -> no_CR s ->
  no_CR (print_mixer (TMultirotor name) ++ s)
  /\ from_text P (print_mixer (TMultirotor name) ++ s) = Some (Some (mixer_of (TMultirotor name), s)).
Proof.
  intros (Hw & Hn & [rs Hr]) Hs.
  assert (E : print_mixer (TMultirotor name) ++ s = (tag_R :: colon :: 32 :: name) ++ LF :: s)
    by (cbn [print_mixer]; by rewrite <- !app_comm_cons, <- app_assoc).
  assert (Hc : Forall (fun c => 32 <= c) (tag_R :: colon :: 32 :: name)).
  { do 3 (constructor; [done|]). eapply Forall_impl; [|exact Hn]. simpl. lia. }
  rewrite E. split; [by apply chars_no_CR|].
  transitivity (Some ('(m, rest) ← multirotor_from_text (geometries P) ((tag_R :: colon :: 32 :: name) ++ LF :: s);
                      Some (MultirotorMixer m, rest))); [reflexivity|].
  unfold multirotor_from_text. rewrite string_well_formed_exists, existsb_app. cbn [existsb].
  change (is_line_end LF) with true. cbn [orb]. rewrite orb_true_r. cbn [negb].
  assert (sscanf ((tag_R :: colon :: 32 :: name) ++ LF :: s) (tagged tag_R [Word 15]) = [Str name]) as ->.
  { unfold sscanf. rewrite c_string_line by done. unfold tagged. rewrite <- !app_comm_cons. cbn [scan spaced].
    rewrite !Z.eqb_refl. destruct name as [|c name]; [simpl in Hw; lia|]. inversion Hn as [|? ? Hc32 _]; subst.
    assert (skip_blanks (32 :: (c :: name) ++ LF :: c_string s) = (c :: name) ++ LF :: c_string s) as ->.
    { cbn [app skip_blanks]. change (isspace 32) with true. cbn iota.
      assert (isspace c = false) as -> by (unfold isspace; lia). done. }
    assert (skip_blanks ((c :: name) ++ LF :: c_string s) = (c :: name) ++ LF :: c_string s) as ->.
    { cbn [app skip_blanks]. assert (isspace c = false) as -> by (unfold isspace; lia). done. }
    rewrite word_back by (done || lia). done. }
  unfold skipline. rewrite after_none by (by apply chars_no_CR). rewrite after_LF by done. cbn [mbind option_bind].
  rewrite Hr. cbn [mbind option_bind mixer_of]. by rewrite Hr.
Qed.

Lemma allocated_back i s : text_ok (TAllocated i) -> no_CR s ->
  no_CR (print_mixer (TAllocated i) ++ s)
  /\ from_text P (print_mixer (TAllocated i) ++ s) = Some (Some (mixer_of (TAllocated i), s)).
Proof.
  intros Hi Hs. cbn [text_ok print_mixer] in *. split; [by apply line_no_CR|].
  assert (Hf : Forall2 fits [Dec] [i]) by (repeat constructor; lia).
  transitivity (Some ('(a, rest) ← allocated_from_text (garbage P) (line tag_A [i] ++ s);
                      Some (AllocatedActuatorMixer a, rest))); [reflexivity|].
  unfold allocated_from_text, allocated_parse. rewrite line_well_formed. cbn [negb].
  rewrite sscanf_line by done. rewrite ints_Int, skipline_line by done. cbn [mbind option_bind].
  destruct (Z.ltb_spec i 16); [|lia]. cbn [mbind option_bind]. by rewrite (u8_small i) by (unfold is_u8; lia).
Qed.

Lemma null_back s : no_CR s ->
  no_CR (print_mixer TNull ++ s) /\ from_text P (print_mixer TNull ++ s) = Some (Some (NullMixer, LF :: s)).
Proof.
  intros Hs. cbn [print_mixer app]. split; [intros [H|[H|[H|H]]]; done|].
  transitivity (Some (rest ← null_from_text (tag_Z :: colon :: LF :: s); Some (NullMixer, rest))); [reflexivity|].
  unfold null_from_text. rewrite string_well_formed_exists. reflexivity.
Qed.

Lemma load_step_mixer buf g m rest : from_text P buf = Some (Some (m, rest)) -> load_step P buf g = Some (rest, g ++ [m]).
Proof. unfold load_step. destruct buf; [done|]. by intros ->. Qed.

(** One turn of the loop per mixer, and one more for the line end of a null
    mixer. *)
Lemma load_one t s g fuel :
  text_ok t -> no_CR s -> (length (print_mixer t ++ s) <= fuel)%nat ->
  no_CR (print_mixer t ++ s)
  /\ exists fuel', (length s <= fuel')%nat
       /\ load_loop P fuel (print_mixer t ++ s) g = load_loop P fuel' s (g ++ [mixer_of t]).
Proof.
  intros Ht Hs Hf.
  assert (Hone : forall rest, from_text P (print_mixer t ++ s) = Some (Some (mixer_of t, rest)) ->
    exists fuel', (length rest <= fuel')%nat
      /\ load_loop P fuel (print_mixer t ++ s) g = load_loop P fuel' rest (g ++ [mixer_of t])).
  { intros rest E. pose proof (from_text_shorter P _ _ _ E) as Hl. destruct fuel as [|fuel]; [lia|].
    exists fuel. split; [lia|]. cbn [load_loop].
    by rewrite (load_step_mixer _ _ _ _ E). }
  destruct t as [|i|out inputs|name|throttle pitch l].
  - destruct (null_back s Hs) as [H1 H2]. split; [done|]. destruct (Hone _ H2) as (fuel' & Hf' & ->).
    destruct fuel' as [|fuel']; [simpl in Hf'; lia|]. exists fuel'. simpl in Hf'. split; [lia|]. reflexivity.
  - destruct (allocated_back i s Ht Hs) as [H1 H2]. split; [done | by apply Hone].
  - destruct (simple_back out inputs s Ht Hs) as [H1 H2]. split; [done | by apply Hone].
  - destruct (multirotor_back name s Ht Hs) as [H1 H2]. split; [done | by apply Hone].
  - destruct (heli_back throttle pitch l s Ht Hs) as [H1 H2]. split; [done | by apply Hone].
Qed.

Lemma load_all ts : Forall text_ok ts ->
  no_CR (concat (print_mixer <$> ts))
  /\ forall g fuel, (length (concat (print_mixer <$> ts)) <= fuel)%nat ->
     load_loop P fuel (concat (print_mixer <$> ts)) g = ([], g ++ (mixer_of <$> ts)).
Proof.
  induction 1 as [|t ts Ht _ [IH1 IH2]].
  - split; [intros []|]. intros g [|fuel] _; cbn; by rewrite app_nil_r.
  - cbn [fmap list_fmap concat]. destruct (load_one t _ [] _ Ht IH1 (Nat.le_refl _)) as [Hc _]. split; [done|].
    intros g fuel Hf. destruct (load_one t _ g fuel Ht IH1 Hf) as (_ & fuel' & Hf' & ->).
    rewrite IH2 by done. by rewrite <- app_assoc.
Qed.

(** C28: the text format round-trips.  Any list of mixers of the five kinds,
    written the way the mixer files are - the numbers in the range of their
    conversion, line feeds only - is read back by [load_from_buf] as exactly
    these mixers, in order, behind those already in the group, with no text left
    over. *)
Theorem mixer_text_roundtrip (ts : list mixer_text) (g : list mixer) :
  Forall text_ok ts ->
  load_from_buf P (concat (print_mixer <$> ts)) g = ([], g ++ (mixer_of <$> ts)).
Proof. intros H. unfold load_from_buf. by apply (load_all ts H). Qed.
End Texts.

(** ** A concrete file *)

(** A platform with the quadrotor geometry of the unit tests, and an allocator
    that always succeeds. *)
Definition quad_x : list rotor :=
  let h := f_dec 707107 1000000 in
  [Rotor (fneg h) h (f_of_Z 1) (f_of_Z 1); Rotor h (fneg h) (f_of_Z 1) (f_of_Z 1);
   Rotor h h (f_of_Z (-1)) (f_of_Z 1); Rotor (fneg h) (fneg h) (f_of_Z (-1)) (f_of_Z 1)].
Definition bench : platform :=
  Platform [([52; 120], quad_x)] (fun _ => true) (Allocated 0 0) (fun _ => f_of_Z 1) (fun _ => f_of_Z 0).

(** "R: 4x", a servo that follows the gimbal roll, and an unused output. *)
Definition quad_file : list mixer_text :=
  [TMultirotor [52; 120]; TSimple [10000; 10000; 0; -10000; 10000; 0] [[2; 0; 10000; 10000; 0; -10000; 10000]]; TNull].

Lemma mixer_text_roundtrip_witness :
  load_from_buf bench (concat (print_mixer <$> quad_file)) [] = ([], mixer_of bench <$> quad_file).
Proof.
  apply (mixer_text_roundtrip bench quad_file []). repeat apply Forall_cons_2; try apply Forall_nil_2; try done.
  - split; [simpl; lia|]. split; [repeat constructor | by eexists].
  - split; [repeat constructor; done|]. split; [repeat constructor; done|]. done.
Defined.
