(* ===== verification/MixerOutputs.v ===== *)
(** Theorems on the mixers: how the text of a group is consumed, which trim each
    output gets, and what the outputs are. *)

From Stdlib Require Import ZArith Lia SpecFloat.
From stdpp Require Import base list numbers option.
From S2P Require Import Prelude Float32 Px4io Px4ioMixer MixerText SimpleMixer MultirotorMixer HelicopterMixer MixerGroup.
From S2P Require Import MixerRoundtrip.

Local Open Scope Z_scope.

(** * The text is consumed *)

Section Load.
Context (P : platform).

Lemma load_step_grows buf g buf' g' : load_step P buf g = Some (buf', g') -> exists added, g' = g ++ added.
Proof.
  unfold load_step. destruct buf as [|c buf]; [done|].
  destruct (from_text P (c :: buf)) as [[[m rest]|]|]; intros [= _ <-]; [by exists [m] | exists []].
  by rewrite app_nil_r.
Qed.

Lemma load_loop_grows fuel : forall buf g, exists added, (load_loop P fuel buf g).2 = g ++ added.
Proof.
  induction fuel as [|fuel IH]; intros buf g; cbn [load_loop]; [exists []; by rewrite app_nil_r|].
  destruct (load_step P buf g) as [[buf1 g1]|] eqn:E; [|exists []; by rewrite app_nil_r].
  apply load_step_grows in E as [a1 ->]. destruct (IH buf1 (g ++ a1)) as [a2 ->].
  exists (a1 ++ a2). by rewrite app_assoc.
Qed.

(** Parsing ends.  On every text, and with every geometry table and
    allocator, the loop of [load_from_buf] stops by itself: when the text is
    used up, or in front of a mixer that does not parse, which stays in the
    buffer for the text still to come.  The mixers it already had are kept in
    front, and what is left is no longer than what it was given. *)
Theorem mixer_loading_ends (buf : list Z) (g : list mixer) :
  let '(rest, g') := load_from_buf P buf g in
  (rest = [] \/ from_text P rest = Some None)
  /\ (length rest <= length buf)%nat
  /\ exists added, g' = g ++ added.
Proof.
  unfold load_from_buf. pose proof (load_loop_ends P (length buf) buf g ltac:(done)) as H.
  pose proof (load_loop_grows (length buf) buf g) as Ha.
  destruct (load_loop P (length buf) buf g) as [rest g']. destruct H as [H1 H2]. split; [|by split].
  unfold load_step in H1. destruct rest as [|c rest]; [by left | right].
  by destruct (from_text P (c :: rest)) as [[[m l]|]|].
Qed.
End Load.

(** * Trims *)

(** The outputs a mixer produces when there is room. *)
Definition output_count (m : mixer) : nat :=
  match m with
  | NullMixer | AllocatedActuatorMixer _ | SimpleMixer _ => 1
  | MultirotorMixer r => length (rotors r)
  | HelicopterMixer h => length (servos h) + 1
  end.

Definition total_outputs (g : list mixer) : nat := sum_list_with output_count g.

(** The mixer counts its outputs in [set_trim]. *)
Definition trims_its_outputs (m : mixer) : bool := Nat.eqb (set_trim (f_of_Z 0) m).1 (output_count m).

(** The trim of an output. *)
Definition trim_value (values : list Z) (i : nat) : float :=
  fconstrain (fdiv (f_of_Z (s16 (default 0 (values !! i)))) (f_of_Z 10000)) (f_of_Z (-1)) (f_of_Z 1).

Lemma set_trim_count trim m : (set_trim trim m).1 = (set_trim (f_of_Z 0) m).1.
Proof. by destruct m. Qed.

Lemma head_trim values : default 0 (head values) = default 0 (values !! 0%nat).
Proof. by destruct values. Qed.

(** Which trim an output gets.  In a group whose mixers all count their
    outputs, a simple mixer whose output has the number [p] < [n] gets the trim
    of that output as its offset.  A null mixer produces an output but counts
    none: a simple mixer behind one gets the trim of the output before its own. *)
Theorem trims_follow_outputs (values : list Z) (n : nat) (pre : list mixer) (s : simple) (post : list mixer) :
  (Forall (fun m => trims_its_outputs m = true) pre -> (total_outputs pre < n)%nat ->
   exists pre' post', set_trims values n (pre ++ SimpleMixer s :: post)
     = pre' ++ SimpleMixer (simple_set_trim (trim_value values (total_outputs pre)) s) :: post'
     /\ length pre' = length pre)
  /\ ((1 < n)%nat -> exists post',
      set_trims values n (NullMixer :: SimpleMixer s :: post)
      = NullMixer :: SimpleMixer (simple_set_trim (trim_value values 0) s) :: post').
Proof.
  split.
  - intros H. revert values n. induction H as [|m pre Hm _ IH]; intros values n Hn.
    + cbn [app set_trims set_trim total_outputs sum_list_with] in *. rewrite head_trim. fold (trim_value values 0).
      case_decide; [by exists [], post | by exists [], (set_trims (drop 1 values) (n - 1) post)].
    + cbn [total_outputs sum_list_with] in Hn. fold (total_outputs pre) in Hn. cbn [app set_trims].
      set (trim := fconstrain _ _ _). pose proof (set_trim_count trim m) as Hc.
      unfold trims_its_outputs in Hm. apply Nat.eqb_eq in Hm.
      destruct (set_trim trim m) as [k m'] eqn:E. cbn [fst] in Hc. rewrite Hm in Hc. subst k.
      rewrite decide_False by lia.
      destruct (IH (drop (output_count m) values) (n - output_count m)%nat ltac:(lia)) as (pre' & post' & -> & Hl).
      exists (m' :: pre'), post'. split; [|simpl; lia]. cbn [app]. do 4 f_equal.
      unfold trim_value. rewrite lookup_drop. done.
  - intros Hn. cbn [set_trims set_trim]. rewrite decide_False by lia. rewrite drop_0, Nat.sub_0_r, head_trim.
    fold (trim_value values 0). case_decide; [lia|]. by eexists.
Qed.

Lemma trims_follow_outputs_witness :
  let s := Simple 1 default_scaler (f_of_Z 0) [] (f_of_Z 0) (f_of_Z 0) in
  exists post', set_trims [500; 1000; 0; 0; 0; 0; 0; 0] 8 [NullMixer; SimpleMixer s]
    = NullMixer :: SimpleMixer (simple_set_trim (trim_value [500; 1000; 0; 0; 0; 0; 0; 0] 0) s) :: post'.
Proof.
  intros s. apply (proj2 (trims_follow_outputs [500; 1000; 0; 0; 0; 0; 0; 0] 8 [] s [])). lia.
Defined.

(** * The outputs of the motors *)

Lemma unlimited_slew mode delta l : fltb (f_of_Z 0) delta = false ->
  forall status, (slew_motors mode delta l status).1 = (fun p => p.2.2) <$> l.
Proof.
  intros Hd. induction l as [|[r [prev o]] l IH]; intros status; cbn [slew_motors]; [done|].
  unfold slew_motor. rewrite Hd. cbn [andb]. specialize (IH (update_saturation_status r false
    (fltb o (fneg (f_dec 99 100)) && (mode =? AIRMODE_DISABLED))
    (fltb o (fneg (f_dec 99 100)) && ((mode =? AIRMODE_DISABLED) || (mode =? AIRMODE_ROLL_PITCH))) status)).
  destruct (slew_motors mode delta l _) as [os st]. cbn [fst] in *. by rewrite IH.
Qed.

(** A number inside the interval. *)
Definition fine (lo hi x : float) : Prop := isfinite x = true /\ within lo hi x.

(** Clamping leaves a number in range, or a NaN. *)
Lemma clamped_unit x : let y := fconstrain x (f_of_Z (-1)) (f_of_Z 1) in y = NAN \/ fine (f_of_Z (-1)) (f_of_Z 1) y.
Proof.
  cbv zeta. pose proof (constrain_within x (f_of_Z (-1)) (f_of_Z 1) eq_refl) as [H1 H2]. unfold fine, within.
  destruct (fconstrain x (f_of_Z (-1)) (f_of_Z 1)) as [s|[]| |s m e]; try done; by auto.
Qed.

(** C30: the motors get legal values.  Without a slew rate limit every output of
    the multirotor mixer is a number in [-1, 1] or a NaN (for which the output
    limiter sends the disarmed value), never an infinity or a number out of range,
    whatever the geometry, the airmode, the thrust model and the controls; and
    there are at most as many as there is room for. *)
Theorem motor_outputs_in_range (cb : callback) (m : multirotor) (space : nat) :
  fltb (f_of_Z 0) (delta_out_max m) = false ->
  Forall (fun x => x = NAN \/ fine (f_of_Z (-1)) (f_of_Z 1) x) (multirotor_mix cb m space).1
  /\ (length (multirotor_mix cb m space).1 <= space)%nat.
Proof.
  intros Hd. split; [|apply multirotor_fits]. unfold multirotor_mix. case_decide; [constructor|]. cbv zeta.
  match goal with |- context [let '(_, _) := ?x in _] => destruct x as [os st] end.
  pose proof (unlimited_slew (airmode m) (delta_out_max m)
    (zip (rotors m) (zip (outputs_prev m) (motor_output (thrust_factor m) <$> os))) Hd st) as E.
  destruct (slew_motors _ _ _ st) as [os' st']. cbn [fst] in *. subst os'.
  apply Forall_fmap, Forall_forall. intros [r [prev o]] Hin. cbn [compose]. apply list_elem_of_In in Hin.
  apply elem_of_zip_r, elem_of_zip_r, list_elem_of_fmap in Hin as (o' & -> & _).
  unfold motor_output. apply clamped_unit.
Qed.

(** * Desaturation *)

(** Equal, or two zeros. *)
Definition same (x y : float) : Prop := y = x \/ exists s t, x = S754_zero s /\ y = S754_zero t.

Lemma fine_same lo hi x y : same x y -> fine lo hi x -> fine lo hi y.
Proof.
  intros [->|(s & t & -> & ->)]; [done|]. intros [H1 H2]. split; [done|].
  unfold within, fltb, SFltb in *. by destruct lo, hi.
Qed.

Lemma same_trans x y z : same x y -> same y z -> same x z.
Proof.
  intros [->|(s & t & -> & ->)] H; [done|]. right. destruct H as [->|(s' & t' & _ & ->)]; by repeat eexists.
Qed.

Lemma same_all_trans l1 l2 l3 : Forall2 same l1 l2 -> Forall2 same l2 l3 -> Forall2 same l1 l3.
Proof.
  intros H. revert l3. induction H as [|x y l l' Hs _ IH]; intros l3 H3; [done|]. inversion H3; subst.
  constructor; [by eapply same_trans | by apply IH].
Qed.

Lemma add_zero o v : isfinite o = true -> isfinite v = true -> same o (fadd o (fmul (S754_zero false) v)).
Proof.
  intros Ho Hv. destruct v as [t|t| |t m e]; try done; destruct o as [s|s| |s mo eo]; try done; cbn;
    (by left) || (right; by destruct s; repeat eexists) || (right; by destruct s, t; repeat eexists).
Qed.

Section Desaturation.
Context (lo hi : float).

Lemma unsaturated_step g v o : within lo hi o -> desaturation_step lo hi g (v, o) = g.
Proof. intros [H1 H2]. unfold desaturation_step. case_match; [done|]. by rewrite H1, H2. Qed.

Lemma unsaturated_gain vector outputs status :
  Forall (fine lo hi) outputs ->
  compute_desaturation_gain vector outputs status lo hi = (S754_zero false, status).
Proof.
  intros Ho. unfold compute_desaturation_gain.
  assert (Hstep : forall l g, Forall (fun p => fine lo hi p.2) l -> fold_left (desaturation_step lo hi) l g = g).
  { induction l as [|[v o] l IH]; intros g H; [done|]. inversion H as [|? ? [_ Hw] Hl]; subst. cbn [fold_left].
    rewrite unsaturated_step by done. by apply IH. }
  rewrite Hstep; [done|]. apply Forall_forall. intros [v o] Hin.
  apply list_elem_of_In, elem_of_zip_r, list_elem_of_In in Hin. rewrite Forall_forall in Ho. by apply Ho.
Qed.

Lemma add_scaled_same k vector outputs :
  k = S754_zero false -> length vector = length outputs ->
  Forall (fun v => isfinite v = true) vector -> Forall (fine lo hi) outputs ->
  Forall2 same outputs (add_scaled k vector outputs).
Proof.
  intros -> Hl Hv. revert outputs Hl. induction Hv as [|v vector Hv _ IH]; intros outputs Hl Ho;
    destruct outputs as [|o outputs]; try done.
  inversion Ho as [|? ? [Hf _] Ho']; subst. constructor; [by apply add_zero|]. apply IH; [|done]. simpl in Hl. lia.
Qed.

Lemma fine_all outputs outputs' : Forall2 same outputs outputs' -> Forall (fine lo hi) outputs -> Forall (fine lo hi) outputs'.
Proof.
  induction 1 as [|x y l l' Hs _ IH]; intros H; [constructor|]. inversion H; subst. constructor; [by eapply fine_same | auto].
Qed.

(** What is not saturated is not touched.  If every output is a number
    inside the limits, sliding along any finite vector to minimise saturation
    leaves every output as it is (a zero may change its sign) and reports no
    motor as saturated. *)
Theorem unsaturated_untouched (vector outputs : list float) (reduce_only : bool) (status : Z) :
  length vector = length outputs -> Forall (fun v => isfinite v = true) vector -> Forall (fine lo hi) outputs ->
  let '(outputs', status') := minimize_saturation vector lo hi reduce_only (outputs, status) in
  Forall2 same outputs outputs' /\ status' = status.
Proof.
  intros Hl Hv Ho. unfold minimize_saturation. rewrite unsaturated_gain by done.
  change (fltb (f_of_Z 0) (S754_zero false)) with false. rewrite andb_false_r.
  pose proof (add_scaled_same (S754_zero false) vector outputs eq_refl Hl Hv Ho) as H1.
  pose proof (fine_all _ _ H1 Ho) as Ho1. rewrite unsaturated_gain by done. split; [|done].
  assert (Hl1 : length vector = length (add_scaled (S754_zero false) vector outputs)) by (rewrite <- (Forall2_length H1); done).
  pose proof (add_scaled_same (fmul (f_dec 1 2) (S754_zero false)) vector _ eq_refl Hl1 Hv Ho1) as H2.
  by eapply same_all_trans.
Qed.
End Desaturation.

Lemma motor_outputs_in_range_witness :
  Forall (fun x => x = NAN \/ fine (f_of_Z (-1)) (f_of_Z 1) x) (multirotor_mix (fun _ _ => (0, f_of_Z 1)) (multirotor_new quad_x) 8).1.
Proof.
  apply (motor_outputs_in_range (fun _ _ => (0, f_of_Z 1)) (multirotor_new quad_x) 8). reflexivity.
Defined.

Lemma unsaturated_untouched_witness :
  let '(outputs', status') := minimize_saturation [f_of_Z 1; f_of_Z 1] (f_of_Z 0) (f_of_Z 1) false ([f_dec 1 2; f_dec 1 4], 0) in
  Forall2 same [f_dec 1 2; f_dec 1 4] outputs' /\ status' = 0.
Proof.
  apply (unsaturated_untouched (f_of_Z 0) (f_of_Z 1) [f_of_Z 1; f_of_Z 1] [f_dec 1 2; f_dec 1 4] false 0);
    [done | by repeat constructor | by repeat constructor].
Defined.
