(* ===== verification/RcBuffer.v ===== *)
(** The memory the RC decoders share (src/lib/rc/common_rc.h): a union of the
    frame buffers of all the protocols.  It is a list of [RC_DECODE_BUF_SIZE]
    bytes, and each decoder reads and writes its own view of it, at the offset
    its structure has in the union (the structures are packed). *)

From Stdlib Require Import ZArith Lia.
From stdpp Require Import base list numbers.
From S2P Require Import Prelude.

Local Open Scope Z_scope.

(** The size of the largest member, [ReceiverFcPacketHoTT]. *)
Definition RC_DECODE_BUF_SIZE : Z := 71.

Definition RC_INPUT_RSSI_MAX : Z := 100.

Definition rc_decode_buf_init : list Z := replicate (Z.to_nat RC_DECODE_BUF_SIZE) 0.

(** [dst[at .. at + length src) = src], as far as the list reaches. *)
Fixpoint blit (at_ : Z) (src dst : list Z) : list Z :=
  match src with
  | [] => dst
  | v :: src => blit (at_ + 1) src (aset dst at_ v)
  end.

Lemma length_blit src : forall i dst, length (blit i src dst) = length dst.
Proof. induction src as [|v src IH]; intros i dst; simpl; [done|]. by rewrite IH, length_aset. Qed.

Lemma blit_before src : forall i j dst, 0 <= j < i -> aget (blit i src dst) j = aget dst j.
Proof.
  induction src as [|v src IH]; intros i j dst Hj; simpl; [done|].
  rewrite IH by lia. apply aget_aset_ne; lia.
Qed.

Lemma blit_at src : forall i j dst,
  0 <= i <= j -> j < i + Z.of_nat (length src) -> i + Z.of_nat (length src) <= Z.of_nat (length dst) ->
  aget (blit i src dst) j = aget src (j - i).
Proof.
  induction src as [|v src IH]; intros i j dst Hi Hj Hd; simpl in *; [lia|].
  destruct (decide (j = i)) as [->|].
  - rewrite blit_before, aget_aset_eq by lia. by rewrite Z.sub_diag.
  - rewrite IH by (rewrite ?length_aset; lia). unfold aget.
    replace (Z.to_nat (j - i)) with (S (Z.to_nat (j - (i + 1)))) by lia. done.
Qed.

Lemma blit_after src : forall i j dst,
  0 <= i -> i + Z.of_nat (length src) <= j -> aget (blit i src dst) j = aget dst j.
Proof.
  induction src as [|v src IH]; intros i j dst Hi Hj; simpl in *; [done|].
  rewrite IH by lia. apply aget_aset_ne; lia.
Qed.

Lemma blit_app_eq src : forall pre old rest,
  length old = length src ->
  blit (Z.of_nat (length pre)) src (pre ++ old ++ rest) = pre ++ src ++ rest.
Proof.
  induction src as [|v src IH]; intros pre [|x old] rest Hl; try done; cbn [blit].
  simpl in Hl. injection Hl as Hl.
  assert (aset (pre ++ (x :: old) ++ rest) (Z.of_nat (length pre)) v = (pre ++ [v]) ++ old ++ rest) as ->.
  { unfold aset. rewrite Nat2Z.id, <- (Nat.add_0_r (length pre)), insert_app_r. by rewrite <- app_assoc. }
  replace (Z.of_nat (length pre) + 1) with (Z.of_nat (length (pre ++ [v]))) by (rewrite length_app; simpl; lia).
  rewrite IH by done. by rewrite <- app_assoc.
Qed.

(** A copy to the start of an array. *)
Lemma blit_take src dst : (length src <= length dst)%nat -> take (length src) (blit 0 src dst) = src.
Proof.
  intros Hl. rewrite <- (take_drop (length src) dst) at 1.
  pose proof (blit_app_eq src [] (take (length src) dst) (drop (length src) dst)) as H. cbn [app length] in H. change (Z.of_nat 0) with 0 in H.
  rewrite H by (rewrite length_take; lia). by rewrite take_app_length.
Qed.
