(* ===== verification/Sbus.v ===== *)
(** S.BUS (src/lib/rc/sbus.cpp): the receiver of 25-byte frames with its
    resynchronisation, the decoding of the 16 channels of 11 bits and the two
    switches, and the frames PX4IO sends.

    What the UART's read returns and the clock are arguments.  The frame buffer
    is the decoders' shared buffer. *)

From Stdlib Require Import ZArith Lia SpecFloat.
From stdpp Require Import base list numbers.
From S2P Require Import Prelude Float32 RcBuffer.

Local Open Scope Z_scope.

Definition SBUS_FRAME_SIZE : Z := 25.
Definition SBUS_BUFFER_SIZE : Z := SBUS_FRAME_SIZE + SBUS_FRAME_SIZE / 2.
Definition SBUS_START_SYMBOL : Z := 0x0f.
Definition SBUS_INPUT_CHANNELS : Z := 16.
Definition SBUS_FLAGS_BYTE : Z := 23.
Definition SBUS_FAILSAFE_BIT : Z := 3.
Definition SBUS_FRAMELOST_BIT : Z := 2.
Definition SBUS1_MAX_RATE_HZ : Z := 300.
Definition SBUS1_MIN_RATE_HZ : Z := 50.
Definition SBUS1_DEFAULT_RATE_HZ : Z := 72.
Definition SBUS2_FRAME_SIZE_RX_VOLTAGE : Z := 3.

Definition SBUS_RANGE_MIN : float := f_of_Z 200.
Definition SBUS_RANGE_MAX : float := f_of_Z 1800.
Definition SBUS_TARGET_MIN : float := f_of_Z 1000.
Definition SBUS_TARGET_MAX : float := f_of_Z 2000.
Definition SBUS_SCALE_FACTOR : float :=
  fdiv (fsub SBUS_TARGET_MAX SBUS_TARGET_MIN) (fsub SBUS_RANGE_MAX SBUS_RANGE_MIN).
Definition SBUS_SCALE_OFFSET : Z :=
  f_trunc (fsub SBUS_TARGET_MIN (fadd (fmul SBUS_SCALE_FACTOR SBUS_RANGE_MIN) (f_dec 1 2))).

Inductive SBUS2_DECODE_STATE :=
| SBUS2_DECODE_STATE_DESYNC | SBUS2_DECODE_STATE_SBUS_START | SBUS2_DECODE_STATE_SBUS1_SYNC
| SBUS2_DECODE_STATE_SBUS2_SYNC | SBUS2_DECODE_STATE_SBUS2_RX_VOLTAGE | SBUS2_DECODE_STATE_SBUS2_GPS
| SBUS2_DECODE_STATE_SBUS2_DATA1 | SBUS2_DECODE_STATE_SBUS2_DATA2.
#[export] Instance SBUS2_DECODE_STATE_eq_dec : EqDecision SBUS2_DECODE_STATE.
Proof. solve_decision. Defined.

Record sbus := Sbus {
  sbus_decode_state : SBUS2_DECODE_STATE;
  partial_frame_count : Z;
  last_rx_time : Z;
  sbus_frame_drops : Z
}.

(** What the caller gets through its pointers. *)
Record sbus_out := Sbus_out {
  values : list Z;
  num_values : Z;
  sbus_failsafe : bool;
  sbus_frame_drop : bool
}.

Definition goto (st : SBUS2_DECODE_STATE) (d : sbus) : sbus :=
  Sbus st (partial_frame_count d) (last_rx_time d) (sbus_frame_drops d).
Definition set_count (n : Z) (d : sbus) : sbus :=
  Sbus (sbus_decode_state d) n (last_rx_time d) (sbus_frame_drops d).
Definition set_rx_time (t : Z) (d : sbus) : sbus :=
  Sbus (sbus_decode_state d) (partial_frame_count d) t (sbus_frame_drops d).
Definition drop_frame (d : sbus) : sbus :=
  Sbus (sbus_decode_state d) (partial_frame_count d) (last_rx_time d) (u32 (sbus_frame_drops d + 1)).

(** [sbus_config], and the static initial values. *)
Definition sbus_config (now : Z) : sbus := Sbus SBUS2_DECODE_STATE_DESYNC 0 now 0.

(** ** The decoder matrix: byte, right shift, mask, left shift *)

Definition sbus_bit_pick : Type := Z * Z * Z * Z.
Definition sbus_decoder : list (list sbus_bit_pick) := [
  [(0, 0, 0xff, 0); (1, 0, 0x07, 8); (0, 0, 0x00, 0)];
  [(1, 3, 0x1f, 0); (2, 0, 0x3f, 5); (0, 0, 0x00, 0)];
  [(2, 6, 0x03, 0); (3, 0, 0xff, 2); (4, 0, 0x01, 10)];
  [(4, 1, 0x7f, 0); (5, 0, 0x0f, 7); (0, 0, 0x00, 0)];
  [(5, 4, 0x0f, 0); (6, 0, 0x7f, 4); (0, 0, 0x00, 0)];
  [(6, 7, 0x01, 0); (7, 0, 0xff, 1); (8, 0, 0x03, 9)];
  [(8, 2, 0x3f, 0); (9, 0, 0x1f, 6); (0, 0, 0x00, 0)];
  [(9, 5, 0x07, 0); (10, 0, 0xff, 3); (0, 0, 0x00, 0)];
  [(11, 0, 0xff, 0); (12, 0, 0x07, 8); (0, 0, 0x00, 0)];
  [(12, 3, 0x1f, 0); (13, 0, 0x3f, 5); (0, 0, 0x00, 0)];
  [(13, 6, 0x03, 0); (14, 0, 0xff, 2); (15, 0, 0x01, 10)];
  [(15, 1, 0x7f, 0); (16, 0, 0x0f, 7); (0, 0, 0x00, 0)];
  [(16, 4, 0x0f, 0); (17, 0, 0x7f, 4); (0, 0, 0x00, 0)];
  [(17, 7, 0x01, 0); (18, 0, 0xff, 1); (19, 0, 0x03, 9)];
  [(19, 2, 0x3f, 0); (20, 0, 0x1f, 6); (0, 0, 0x00, 0)];
  [(20, 5, 0x07, 0); (21, 0, 0xff, 3); (0, 0, 0x00, 0)]].

Definition pick (frame : list Z) (value : Z) (p : sbus_bit_pick) : Z :=
  let '(byte, rshift, mask, lshift) := p in
  if mask =? 0 then value
  else Z.lor value (Z.shiftl (Z.land (Z.shiftr (aget frame (1 + byte)) rshift) mask) lshift).

(** [(uint16_t)(value * SBUS_SCALE_FACTOR + .5f) + SBUS_SCALE_OFFSET] *)
Definition sbus_pulse (value : Z) : Z :=
  u16 (u16 (f_trunc (fadd (fmul (f_of_Z value) SBUS_SCALE_FACTOR) (f_dec 1 2))) + SBUS_SCALE_OFFSET).

Definition decode_channel (frame : list Z) (row : list sbus_bit_pick) : Z :=
  sbus_pulse (fold_left (pick frame) row 0).

(** The state that follows a frame, from its last byte. *)
Definition next_state (end_byte : Z) : option SBUS2_DECODE_STATE :=
  if end_byte =? 0x00 then Some SBUS2_DECODE_STATE_SBUS1_SYNC
  else if end_byte =? 0x04 then Some SBUS2_DECODE_STATE_SBUS2_RX_VOLTAGE
  else if end_byte =? 0x14 then Some SBUS2_DECODE_STATE_SBUS2_GPS
  else if end_byte =? 0x24 then Some SBUS2_DECODE_STATE_SBUS2_SYNC
  else if end_byte =? 0x34 then Some SBUS2_DECODE_STATE_SBUS2_SYNC
  else None.

Definition switch_value (flags bit : Z) : Z := (if Z.testbit flags bit then 1000 else 0) + 998.

Definition sbus_decode (frame : list Z) (max_values : Z) (d : sbus) (o : sbus_out) : bool * sbus * sbus_out :=
  if negb (aget frame 0 =? SBUS_START_SYMBOL) then
    (false, goto SBUS2_DECODE_STATE_DESYNC (drop_frame d), o)
  else
    match next_state (aget frame 24) with
    | None => (false, goto SBUS2_DECODE_STATE_DESYNC d, o)
    | Some st =>
        let flags := aget frame SBUS_FLAGS_BYTE in
        let chancount := if SBUS_INPUT_CHANNELS <? max_values then SBUS_INPUT_CHANNELS else max_values in
        let vs := blit 0 (decode_channel frame <$> take (Z.to_nat chancount) sbus_decoder) (values o) in
        let '(chancount, vs) :=
          if (17 <? max_values) && (15 <? chancount)
          then (18, aset (aset vs 16 (switch_value flags 0)) 17 (switch_value flags 1))
          else (chancount, vs) in
        let failsafe := Z.testbit flags SBUS_FAILSAFE_BIT in
        (true, goto st d,
         Sbus_out vs chancount failsafe (failsafe || Z.testbit flags SBUS_FRAMELOST_BIT))
    end.

(** The first start symbol in [l], whose indices start at [i]; 0 if there is
    none. *)
Fixpoint find_start (l : list Z) (i : Z) : Z :=
  match l with
  | [] => 0
  | b :: l => if b =? SBUS_START_SYMBOL then i else find_start l (i + 1)
  end.

(** The state of [sbus_parse]'s loop: the shared buffer, the decoder, the
    outputs and [decode_ret]. *)
Record parse := Parse { buf : list Z; dec : sbus; out : sbus_out; decode_ret : bool }.

Definition with_dec (f : sbus -> sbus) (p : parse) : parse := Parse (buf p) (f (dec p)) (out p) (decode_ret p).

(** [sbus_frame[partial_frame_count++] = b] *)
Definition store (b : Z) (p : parse) : parse :=
  let n := partial_frame_count (dec p) in
  Parse (aset (buf p) n b) (set_count (n + 1) (dec p)) (out p) (decode_ret p).

(** Offset recovery after a frame that did not decode, and the reset of the
    count. *)
Definition recover (p : parse) : parse :=
  let n := partial_frame_count (dec p) in
  let start_index :=
    if negb (decode_ret p) && bool_decide (sbus_decode_state (dec p) = SBUS2_DECODE_STATE_DESYNC)
    then find_start (drop 1 (take (Z.to_nat n) (buf p))) 1 else 0 in
  if start_index =? 0 then with_dec (set_count 0) p
  else
    Parse (blit 0 (drop (Z.to_nat start_index) (take (Z.to_nat n) (buf p))) (buf p))
      (goto SBUS2_DECODE_STATE_SBUS_START (set_count (n - start_index) (dec p))) (out p) (decode_ret p).

Definition frame_byte (max_channels b : Z) (p : parse) : parse :=
  let p := store b p in
  if partial_frame_count (dec p) <? SBUS_FRAME_SIZE then p
  else
    let '(r, d, o) := sbus_decode (buf p) max_channels (dec p) (out p) in
    recover (Parse (buf p) d o r).

(** A byte of a telemetry slot of [size] bytes that starts with [id]. *)
Definition slot_byte (size id b : Z) (p : parse) : parse :=
  let p := store b p in
  let n := partial_frame_count (dec p) in
  let first := aget (buf p) 0 in
  let p := if (n =? 1) && (first =? SBUS_START_SYMBOL)
           then with_dec (goto SBUS2_DECODE_STATE_SBUS2_SYNC) p else p in
  if n <? size then p
  else if first =? id then with_dec (set_count 0) p
  else with_dec (fun d => goto SBUS2_DECODE_STATE_DESYNC (drop_frame d)) p.

Definition resync (d : sbus) : sbus := goto SBUS2_DECODE_STATE_DESYNC (set_count 0 d).

(** The switch over the decoder's state. *)
Definition handle_byte (max_channels b : Z) (p : parse) : parse :=
  match sbus_decode_state (dec p) with
  | SBUS2_DECODE_STATE_DESYNC =>
      if b =? SBUS_START_SYMBOL
      then store b (with_dec (fun d => set_count 0 (goto SBUS2_DECODE_STATE_SBUS_START d)) p) else p
  | SBUS2_DECODE_STATE_SBUS_START | SBUS2_DECODE_STATE_SBUS1_SYNC | SBUS2_DECODE_STATE_SBUS2_SYNC =>
      frame_byte max_channels b p
  | SBUS2_DECODE_STATE_SBUS2_RX_VOLTAGE => slot_byte SBUS2_FRAME_SIZE_RX_VOLTAGE 0x03 b p
  | SBUS2_DECODE_STATE_SBUS2_GPS => slot_byte 24 0x13 b p
  | SBUS2_DECODE_STATE_SBUS2_DATA1 | SBUS2_DECODE_STATE_SBUS2_DATA2 => Parse (buf p) (dec p) (out p) false
  end.

Definition parse_byte (max_channels : Z) (p : parse) (b : Z) : parse :=
  let p := if partial_frame_count (dec p) =? SBUS_BUFFER_SIZE then with_dec resync p else p in
  let p := if partial_frame_count (dec p) =? SBUS_FRAME_SIZE then with_dec resync p else p in
  handle_byte max_channels b p.

Definition sbus_parse (now max_channels : Z) (bytes : list Z) (bf : list Z) (d : sbus) (o : sbus_out) : parse :=
  fold_left (parse_byte max_channels) bytes (Parse bf (set_rx_time now d) o false).

(** [read_bytes] is what [read] returned, at most a frame. *)
Definition sbus_input (now max_channels : Z) (read_bytes : list Z) (bf : list Z) (d : sbus) (o : sbus_out) : parse :=
  match read_bytes with
  | [] => Parse bf d o false
  | first :: _ =>
      let d := if (3000 <? u64 (now - last_rx_time d)) && (0 <? partial_frame_count d) then resync d else d in
      if (partial_frame_count d =? 0) && negb (first =? SBUS_START_SYMBOL)
      then Parse bf (goto SBUS2_DECODE_STATE_DESYNC d) o false
      else sbus_parse now max_channels read_bytes bf d o
  end.

(** ** Output *)

Record sbus_tx := Sbus_tx { last_txframe_time : Z; sbus1_frame_delay : Z }.
Definition sbus_tx_init : sbus_tx := Sbus_tx 0 (1000 * 1000 / SBUS1_DEFAULT_RATE_HZ).

Definition or_byte (i v : Z) (frame : list Z) : list Z := aset frame i (Z.lor (aget frame i) v).

(** The 11-bit value of a pulse: [((pulse - OFFSET) / FACTOR) + .5f], limited
    from above only. *)
Definition sbus_raw (pulse : Z) : Z :=
  let value := u16 (f_trunc (fadd (fdiv (f_of_Z (pulse - SBUS_SCALE_OFFSET)) SBUS_SCALE_FACTOR) (f_dec 1 2))) in
  if 0x07ff <? value then 0x07ff else value.

(** [while (offset >= 8) { ++byteindex; offset -= 8; }], at most [fuel]
    rounds. *)
Fixpoint carry (fuel : nat) (byteindex offset : Z) : Z * Z :=
  match fuel with
  | O => (byteindex, offset)
  | S n => if 8 <=? offset then carry n (byteindex + 1) (offset - 8) else (byteindex, offset)
  end.

(** Two rounds always suffice: the offset never exceeds 18. *)
Fixpoint put_channels (vs : list Z) (byteindex offset : Z) (oframe : list Z) : list Z :=
  match vs with
  | [] => oframe
  | v :: vs =>
      let value := sbus_raw v in
      let '(byteindex, offset) := carry 3 byteindex offset in
      let oframe := or_byte byteindex (Z.land (Z.shiftl value offset) 0xff) oframe in
      let oframe := or_byte (byteindex + 1) (Z.land (Z.shiftr value (8 - offset)) 0xff) oframe in
      let oframe := or_byte (byteindex + 2) (Z.land (Z.shiftr value (16 - offset)) 0xff) oframe in
      put_channels vs byteindex (offset + 11) oframe
  end.

Definition sbus_frame_of (vs : list Z) : list Z :=
  put_channels (take 16 vs) 1 0 (aset (replicate 25 0) 0 0x0f).

(** The bytes written, if it is time for a frame. *)
Definition sbus1_output (now : Z) (vs : list Z) (t : sbus_tx) : option (list Z) * sbus_tx :=
  if sbus1_frame_delay t <? u64 (now - last_txframe_time t)
  then (Some (sbus_frame_of vs), Sbus_tx now (sbus1_frame_delay t))
  else (None, t).

Definition sbus1_set_output_rate_hz (rate_hz : Z) (t : sbus_tx) : sbus_tx :=
  let rate_hz := if SBUS1_MAX_RATE_HZ <? rate_hz then SBUS1_MAX_RATE_HZ else rate_hz in
  let rate_hz := if rate_hz <? SBUS1_MIN_RATE_HZ then SBUS1_MIN_RATE_HZ else rate_hz in
  Sbus_tx (last_txframe_time t) (1000 * 1000 / rate_hz).

Lemma sbus_constants : SBUS_SCALE_FACTOR = f_dec 5 8 /\ SBUS_SCALE_OFFSET = 874.
Proof. split; reflexivity. Qed.
