(* ===== verification/SbusLink.v ===== *)
(** S.BUS: the decoder's memory safety, and that a receiver decodes exactly the
    pulses that were sent. *)

From Stdlib Require Import ZArith Lia SpecFloat.
From stdpp Require Import base list numbers.
From S2P Require Import Prelude Float32 RcBuffer Sbus.

Local Open Scope Z_scope.

(** * The bits of a frame *)

Definition fbit (frame : list Z) (k : Z) : bool := Z.testbit (aget frame (k / 8)) (k mod 8).

Lemma aget_or i v frame j :
  0 <= i < Z.of_nat (length frame) -> 0 <= j ->
  aget (or_byte i v frame) j = if decide (j = i) then Z.lor (aget frame i) v else aget frame j.
Proof.
  intros Hi Hj. unfold or_byte. case_decide as E; [by subst; rewrite aget_aset_eq|].
  rewrite aget_aset_ne by lia. done.
Qed.

Lemma length_or i v frame : length (or_byte i v frame) = length frame.
Proof. apply length_aset. Qed.

Lemma small_bit v n j : 0 <= v < 2 ^ n -> 0 <= n <= j -> Z.testbit v j = false.
Proof.
  intros Hv Hn. destruct (decide (v = 0)) as [->|]; [apply Z.bits_0|].
  apply Z.bits_above_log2; [lia|]. apply Z.log2_lt_pow2; [lia|].
  pose proof (Z.pow_le_mono_r 2 n j). lia.
Qed.

(** The three bytes a value is spread over. *)
Definition put_value (value byteindex offset : Z) (oframe : list Z) : list Z :=
  or_byte (byteindex + 2) (Z.land (Z.shiftr value (16 - offset)) 0xff)
    (or_byte (byteindex + 1) (Z.land (Z.shiftr value (8 - offset)) 0xff)
      (or_byte byteindex (Z.land (Z.shiftl value offset) 0xff) oframe)).

Lemma low_byte_bit x b : 0 <= b < 8 -> Z.testbit (Z.land x 0xff) b = Z.testbit x b.
Proof.
  intros Hb. rewrite Z.land_spec. change 0xff with (Z.ones 8).
  rewrite Z.ones_spec_low by lia. apply andb_true_r.
Qed.

Lemma put_value_bits value bi off frame k :
  0 <= value < 2048 -> 0 <= bi -> 0 <= off < 8 -> bi + 2 < Z.of_nat (length frame) -> 0 <= k ->
  fbit (put_value value bi off frame) k
  = fbit frame k || ((8 * bi + off <=? k) && Z.testbit value (k - (8 * bi + off))).
Proof.
  intros Hv Hbi Hoff Hlen Hk. unfold fbit, put_value.
  pose proof (Z.div_mod k 8 ltac:(lia)) as Hdm. pose proof (Z.mod_pos_bound k 8 ltac:(lia)) as Hm.
  assert (Hq : 0 <= k / 8) by (apply Z.div_pos; lia).
  set (q := k / 8) in *. set (b := k mod 8) in *. clearbody q b.
  rewrite aget_or by (rewrite ?length_or; lia). case_decide as E2; [|rewrite aget_or by (rewrite ?length_or; lia)].
  - rewrite !aget_or by (rewrite ?length_or; lia). rewrite !decide_False by lia.
    rewrite Z.lor_spec, low_byte_bit, Z.shiftr_spec by lia. subst q.
    rewrite (proj2 (Z.leb_le _ _)) by lia. cbn [andb]. do 2 f_equal. lia.
  - case_decide as E1; [|rewrite aget_or by lia].
    + rewrite aget_or by lia. rewrite decide_False by lia.
      rewrite Z.lor_spec, low_byte_bit, Z.shiftr_spec by lia. subst q.
      rewrite (proj2 (Z.leb_le _ _)) by lia. cbn [andb]. do 2 f_equal. lia.
    + case_decide as E0.
      * subst q. rewrite Z.lor_spec, low_byte_bit by lia. f_equal.
        destruct (Z.leb_spec (8 * bi + off) k) as [H|H]; cbn [andb].
        -- rewrite Z.shiftl_spec by lia. f_equal. lia.
        -- apply Z.shiftl_spec_low. lia.
      * destruct (Z.leb_spec (8 * bi + off) k) as [H|H]; cbn [andb]; [|by rewrite orb_false_r].
        rewrite (small_bit value 11), orb_false_r by lia. done.
Qed.

Lemma carry_spec bi off : 0 <= off < 24 ->
  let '(bi', off') := carry 3 bi off in
  8 * bi' + off' = 8 * bi + off /\ 0 <= off' < 8 /\ bi <= bi'.
Proof. intros H. simpl. repeat case_match; simplify_eq; lia. Qed.

Lemma sbus_raw_range v : 0 <= sbus_raw v < 2048.
Proof.
  unfold sbus_raw. set (x := u16 _). assert (0 <= x < 65536) by (subst x; apply u16_range). clearbody x.
  destruct (Z.ltb_spec 0x07ff x); lia.
Qed.

(** The bits of a frame being filled from bit [o = 8 * bi + off] on. *)
Lemma put_channels_bits vs : forall bi off frame k,
  0 <= bi -> 0 <= off < 24 -> 0 <= k ->
  (vs <> [] -> 8 * bi + off + 11 * (Z.of_nat (length vs) - 1) < 8 * (Z.of_nat (length frame) - 2)) ->
  length (put_channels vs bi off frame) = length frame
  /\ fbit (put_channels vs bi off frame) k
     = fbit frame k
       || ((8 * bi + off <=? k)
           && match vs !! Z.to_nat ((k - (8 * bi + off)) / 11) with
              | Some v => Z.testbit (sbus_raw v) ((k - (8 * bi + off)) mod 11)
              | None => false
              end).
Proof.
  induction vs as [|v vs IH]; intros bi off frame k Hbi Hoff Hk Hlen.
  - simpl. split; [done|]. by rewrite andb_false_r, orb_false_r.
  - cbn [put_channels]. pose proof (carry_spec bi off Hoff) as Hc.
    destruct (carry 3 bi off) as [bi' off']. destruct Hc as (Hc & Ho & Hb).
    specialize (Hlen ltac:(done)). cbn [length] in Hlen.
    pose proof (sbus_raw_range v) as Hr.
    change (or_byte (bi' + 2) _ _) with (put_value (sbus_raw v) bi' off' frame).
    assert (Hpl : length (put_value (sbus_raw v) bi' off' frame) = length frame)
      by (unfold put_value; by rewrite !length_or).
    destruct (IH bi' (off' + 11) (put_value (sbus_raw v) bi' off' frame) k) as [IH1 IH2];
      [lia | lia | lia | rewrite Hpl; intros; lia |].
    split; [by rewrite IH1|]. rewrite IH2, put_value_bits by lia.
    rewrite <- Hc. set (o := 8 * bi' + off') in *. replace (8 * bi' + (off' + 11)) with (o + 11) by lia.
    rewrite <- orb_assoc. f_equal. clearbody o. clear IH IH1 IH2.
    destruct (Z.leb_spec o k) as [H|H]; cbn [andb]; [|by rewrite (proj2 (Z.leb_gt _ _)) by lia].
    destruct (Z.leb_spec (o + 11) k) as [H'|H']; cbn [andb].
    + rewrite (small_bit _ 11) by lia. cbn [orb].
      replace (k - o) with ((k - (o + 11)) + 1 * 11) by lia. rewrite Z.div_add, Z.mod_add by lia.
      assert (0 <= (k - (o + 11)) / 11) by (apply Z.div_pos; lia).
      rewrite Z2Nat.inj_add by lia. by rewrite Nat.add_comm.
    + rewrite orb_false_r. by rewrite Z.div_small, Z.mod_small by lia.
Qed.

(** * The decoder matrix *)

(** Which bit of the frame a pick puts at bit [j] of the value. *)
Definition covers (j : Z) (p : sbus_bit_pick) : option Z :=
  let '(byte, rshift, mask, lshift) := p in
  if (lshift <=? j) && Z.testbit mask (j - lshift) then Some (8 * (1 + byte) + (j - lshift + rshift)) else None.

Definition pick_ok (p : sbus_bit_pick) : bool :=
  let '(byte, rshift, mask, lshift) := p in
  (0 <=? byte) && (0 <=? rshift) && (0 <=? lshift) && (0 <=? mask) && (mask * 2 ^ lshift <? 2048)
  && forallb (fun j => negb (Z.testbit mask j) || (j + rshift <? 8)) (seqZ 0 8) && (mask <? 256).

Lemma pick_bit frame value p j :
  pick_ok p = true -> 0 <= j ->
  Z.testbit (pick frame value p) j
  = Z.testbit value j || match covers j p with Some k => fbit frame k | None => false end.
Proof.
  destruct p as [[[byte rs] mask] ls]. unfold pick_ok, pick, covers. intros Hok Hj.
  repeat (apply andb_prop in Hok; destruct Hok as [Hok ?]).
  repeat match goal with H : (_ <=? _) = true |- _ => apply Z.leb_le in H
                       | H : (_ <? _) = true |- _ => apply Z.ltb_lt in H end.
  destruct (Z.eqb_spec mask 0) as [->|Hm].
  { by rewrite Z.bits_0, andb_false_r, orb_false_r. }
  rewrite Z.lor_spec. f_equal. destruct (Z.leb_spec ls j) as [Hl|Hl]; cbn [andb].
  - rewrite Z.shiftl_spec, Z.land_spec, Z.shiftr_spec by lia.
    destruct (Z.testbit mask (j - ls)) eqn:Em; [|by rewrite andb_false_r]. rewrite andb_true_r.
    assert (Hj8 : j - ls < 8).
    { destruct (decide (j - ls < 8)); [done|]. by rewrite (small_bit mask 8) in Em by lia. }
    assert (Hb : j - ls + rs < 8).
    { match goal with Hf : forallb _ _ = true |- _ => rewrite forallb_forall in Hf;
        specialize (Hf (j - ls)); apply Z.ltb_lt; rewrite Em in Hf; apply Hf end.
      apply list_elem_of_In, elem_of_seqZ. lia. }
    unfold fbit. replace (8 * (1 + byte) + (j - ls + rs)) with ((j - ls + rs) + (1 + byte) * 8) by lia.
    rewrite Z.div_add, Z.mod_add, Z.div_small, Z.mod_small by lia. done.
  - rewrite Z.shiftl_spec_low by lia. done.
Qed.

(** Every row takes its 11 bits from the channel's place in the frame, and no
    other bit. *)
Definition row_ok (c : Z) (row : list sbus_bit_pick) : bool :=
  forallb pick_ok row
  && forallb (fun j => bool_decide (omap (covers j) row = [8 + 11 * c + j])) (seqZ 0 11).

Lemma sbus_decoder_ok : forallb (fun '(c, row) => row_ok c row) (zip (seqZ 0 16) sbus_decoder) = true.
Proof. vm_compute. reflexivity. Qed.

Lemma fold_pick_bit frame row j : forall value,
  forallb pick_ok row = true -> 0 <= j ->
  Z.testbit (fold_left (pick frame) row value) j
  = Z.testbit value j || existsb (fbit frame) (omap (covers j) row).
Proof.
  induction row as [|p row IH]; intros value Hok Hj; simpl; [by rewrite orb_false_r|].
  simpl in Hok. apply andb_prop in Hok as [Hp Hok]. rewrite IH, pick_bit by done.
  destruct (covers j p); simpl; [by rewrite orb_assoc | by rewrite orb_false_r].
Qed.

Lemma covers_high j p : pick_ok p = true -> 11 <= j -> covers j p = None.
Proof.
  destruct p as [[[byte rs] mask] ls]. unfold pick_ok, covers. intros Hok Hj.
  repeat (apply andb_prop in Hok; destruct Hok as [Hok ?]).
  repeat match goal with H : (_ <=? _) = true |- _ => apply Z.leb_le in H
                       | H : (_ <? _) = true |- _ => apply Z.ltb_lt in H end.
  destruct (Z.leb_spec ls j) as [Hl|Hl]; [|done]. cbn [andb].
  destruct (decide (mask = 0)) as [->|]; [by rewrite Z.bits_0|].
  assert (Hls : ls <= 11).
  { destruct (decide (ls <= 11)); [done|]. pose proof (Z.pow_le_mono_r 2 12 ls ltac:(lia) ltac:(lia)). nia. }
  rewrite (small_bit mask (11 - ls)); [done | | lia]. split; [done|].
  assert (E : 2 ^ 11 = 2 ^ (11 - ls) * 2 ^ ls) by (rewrite <- Z.pow_add_r by lia; f_equal; lia).
  pose proof (Z.pow_pos_nonneg 2 ls ltac:(lia) ltac:(lia)). change (2 ^ 11) with 2048 in E. nia.
Qed.

Lemma row_bit frame c row j :
  sbus_decoder !! c = Some row -> 0 <= j ->
  Z.testbit (fold_left (pick frame) row 0) j
  = (j <? 11) && fbit frame (8 + 11 * Z.of_nat c + j).
Proof.
  intros Hr Hj. pose proof sbus_decoder_ok as Hok. rewrite forallb_forall in Hok.
  assert (Hrow : row_ok (Z.of_nat c) row = true).
  { apply (Hok (Z.of_nat c, row)). apply list_elem_of_In, (list_elem_of_lookup_2 _ c).
    apply lookup_zip_with_Some. exists (Z.of_nat c), row. split; [done|]. split; [|done].
    apply lookup_lt_Some in Hr. change (length sbus_decoder) with 16%nat in Hr.
    rewrite lookup_seqZ. lia. }
  unfold row_ok in Hrow. apply andb_prop in Hrow as [Hp Hb].
  rewrite fold_pick_bit, Z.bits_0 by done. cbn [orb].
  destruct (Z.ltb_spec j 11) as [H|H]; cbn [andb].
  - rewrite forallb_forall in Hb. specialize (Hb j). rewrite bool_decide_eq_true in Hb.
    rewrite Hb by (apply list_elem_of_In, elem_of_seqZ; lia). simpl. by rewrite orb_false_r.
  - assert (omap (covers j) row = []) as ->; [|done].
    clear Hr Hb Hok. induction row as [|p row IH]; [done|]. simpl in *. apply andb_prop in Hp as [Hp1 Hp2].
    rewrite covers_high by done. by apply IH.
Qed.

(** * Pulses *)

(** The floating-point conversions, on every pulse an 11-bit value can carry. *)
Lemma pulse_exact v : 874 <= v <= 2153 -> sbus_pulse (sbus_raw v) = v.
Proof.
  intros Hv. assert (H : forallb (fun v => sbus_pulse (sbus_raw v) =? v) (seqZ 874 1280) = true)
    by (vm_compute; reflexivity).
  rewrite forallb_forall in H. apply Z.eqb_eq, H, list_elem_of_In, elem_of_seqZ. lia.
Qed.

(** ... and below that range the C conversion of the negative quotient to
    [uint16_t] is undefined. *)
Lemma low_pulse_negative v : 0 <= v <= 872 ->
  f_trunc (fadd (fdiv (f_of_Z (v - SBUS_SCALE_OFFSET)) SBUS_SCALE_FACTOR) (f_dec 1 2)) < 0.
Proof.
  intros Hv. assert (H : forallb (fun v => f_trunc (fadd (fdiv (f_of_Z (v - SBUS_SCALE_OFFSET)) SBUS_SCALE_FACTOR)
    (f_dec 1 2)) <? 0) (seqZ 0 873) = true) by (vm_compute; reflexivity).
  rewrite forallb_forall in H. apply Z.ltb_lt, H, list_elem_of_In, elem_of_seqZ. lia.
Qed.

(** * The frame that is sent *)

Lemma frame_bits vs k :
  (length vs <= 16)%nat -> 0 <= k ->
  length (sbus_frame_of vs) = 25%nat
  /\ fbit (sbus_frame_of vs) k
     = fbit (aset (replicate 25 0) 0 0x0f) k
       || ((8 <=? k) && match vs !! Z.to_nat ((k - 8) / 11) with
                        | Some v => Z.testbit (sbus_raw v) ((k - 8) mod 11)
                        | None => false
                        end).
Proof.
  intros Hl Hk. unfold sbus_frame_of. rewrite take_ge by done.
  destruct (put_channels_bits vs 1 0 (aset (replicate 25 0) 0 0x0f) k) as [H1 H2]; [lia | lia | lia | |].
  - rewrite length_aset, length_replicate. intros _. lia.
  - split; [by rewrite H1|]. exact H2.
Qed.

Lemma empty_frame_bit k : 8 <= k -> fbit (aset (replicate 25 0) 0 0x0f) k = false.
Proof.
  intros Hk. unfold fbit. assert (1 <= k / 8) by (apply Z.div_le_lower_bound; lia).
  rewrite aget_aset_ne by lia. unfold aget. destruct (replicate _ _ !! _) as [x|] eqn:E; simpl; [|apply Z.bits_0].
  apply lookup_replicate_1 in E as [-> _]. apply Z.bits_0.
Qed.

Definition is_byte (x : Z) : Prop := 0 <= x < 256.

Lemma or_byte_bytes i v frame : is_byte v -> Forall is_byte frame -> Forall is_byte (or_byte i v frame).
Proof.
  intros Hv Hf. apply aset_Forall; [done|].
  assert (Hg : is_byte (aget frame i)) by (apply (aget_Forall is_byte); [done | unfold is_byte; lia]).
  unfold is_byte in *. split; [apply Z.lor_nonneg; lia|].
  destruct (decide (Z.lor (aget frame i) v = 0)) as [->|]; [lia|].
  change 256 with (2 ^ 8). apply Z.log2_lt_pow2.
  - assert (0 <= Z.lor (aget frame i) v) by (apply Z.lor_nonneg; lia). lia.
  - rewrite Z.log2_lor by lia. apply Z.max_lub_lt.
    + destruct (decide (aget frame i = 0)) as [->|]; [done|]. apply Z.log2_lt_pow2; lia.
    + destruct (decide (v = 0)) as [->|]; [done|]. apply Z.log2_lt_pow2; lia.
Qed.

Lemma land_byte x : is_byte (Z.land x 0xff).
Proof. change 0xff with (Z.ones 8). rewrite Z.land_ones by lia. unfold is_byte. apply Z.mod_pos_bound. lia. Qed.

Lemma put_channels_bytes vs : forall bi off frame,
  Forall is_byte frame -> Forall is_byte (put_channels vs bi off frame).
Proof.
  induction vs as [|v vs IH]; intros bi off frame Hf; simpl; [done|].
  destruct (if 8 <=? off then _ else _) as [bi' off']. apply IH.
  by repeat apply or_byte_bytes; try apply land_byte.
Qed.

Lemma frame_bytes vs : Forall is_byte (sbus_frame_of vs).
Proof.
  unfold sbus_frame_of. apply put_channels_bytes. apply aset_Forall; [|done]. by apply Forall_replicate.
Qed.

(** A byte from its bits. *)
Lemma byte_of_bits frame i v :
  Forall is_byte frame -> is_byte v -> 0 <= i ->
  (forall b, 0 <= b < 8 -> fbit frame (8 * i + b) = Z.testbit v b) -> aget frame i = v.
Proof.
  intros Hf Hv Hi H. assert (Hg : is_byte (aget frame i)) by (apply (aget_Forall is_byte); [done | unfold is_byte; lia]).
  unfold is_byte in *. apply Z.bits_inj'. intros b Hb.
  destruct (decide (b < 8)) as [Hb8|]; [|by rewrite !(small_bit _ 8) by (simpl; lia)].
  rewrite <- H by lia. unfold fbit.
  rewrite (Z.mul_comm 8 i), Z.div_add_l, Z.div_small, Z.add_0_r by lia.
  by rewrite Z.add_comm, Z.mod_add, Z.mod_small by lia.
Qed.

Lemma frame_ends vs :
  (length vs <= 16)%nat ->
  aget (sbus_frame_of vs) 0 = SBUS_START_SYMBOL /\ aget (sbus_frame_of vs) SBUS_FLAGS_BYTE = 0
  /\ aget (sbus_frame_of vs) 24 = 0.
Proof.
  intros Hl. pose proof (frame_bytes vs) as Hf.
  assert (Htail : forall i, 23 <= i -> aget (sbus_frame_of vs) i = 0).
  { intros i Hi. apply byte_of_bits; [done | unfold is_byte; lia | lia |]. intros b Hb.
    destruct (frame_bits vs (8 * i + b) Hl ltac:(lia)) as [_ ->].
    rewrite empty_frame_bit, Z.bits_0 by lia. cbn [orb].
    assert (16 <= (8 * i + b - 8) / 11) by (apply Z.div_le_lower_bound; lia).
    rewrite lookup_ge_None_2 by lia. apply andb_false_r. }
  split; [|split; by apply Htail].
  apply byte_of_bits; [done | unfold is_byte, SBUS_START_SYMBOL; lia | lia |]. intros b Hb.
  destruct (frame_bits vs (8 * 0 + b) Hl ltac:(lia)) as [_ ->].
  rewrite (proj2 (Z.leb_gt 8 _)) by lia. cbn [andb]. rewrite orb_false_r.
  unfold fbit. rewrite Z.mul_0_r, Z.add_0_l, Z.div_small, Z.mod_small by lia. done.
Qed.

(** Decoding gives the values back. *)
Lemma decode_put vs c v row :
  (length vs <= 16)%nat -> vs !! c = Some v -> sbus_decoder !! c = Some row -> 874 <= v <= 2153 ->
  decode_channel (sbus_frame_of vs) row = v.
Proof.
  intros Hl Hv Hr Hrange. unfold decode_channel. transitivity (sbus_pulse (sbus_raw v)); [f_equal | by apply pulse_exact].
  pose proof (sbus_raw_range v) as Hraw. apply Z.bits_inj'. intros j Hj.
  rewrite (row_bit _ c row j Hr Hj). destruct (Z.ltb_spec j 11) as [H|H]; cbn [andb];
    [|by rewrite (small_bit _ 11) by (simpl; lia)].
  destruct (frame_bits vs (8 + 11 * Z.of_nat c + j) Hl ltac:(lia)) as [_ ->].
  rewrite empty_frame_bit, (proj2 (Z.leb_le 8 _)) by lia. cbn [orb andb].
  replace (8 + 11 * Z.of_nat c + j - 8) with (j + Z.of_nat c * 11) by lia.
  rewrite Z.div_add, Z.mod_add, Z.div_small, Z.mod_small by lia. rewrite Z.add_0_l, Nat2Z.id. by rewrite Hv.
Qed.

(** * The receiver *)

(** The decoder between two calls. *)
Definition dec_ok (d : sbus) : Prop :=
  0 <= partial_frame_count d <= SBUS_FRAME_SIZE
  /\ sbus_decode_state d <> SBUS2_DECODE_STATE_SBUS2_DATA1
  /\ sbus_decode_state d <> SBUS2_DECODE_STATE_SBUS2_DATA2.

Ltac dec_ok := unfold dec_ok, SBUS_FRAME_SIZE in *; simpl in *; split_and!; try done; lia.

(** Nothing is written outside the frame buffer. *)
Definition in_frame (bf bf' : list Z) : Prop :=
  length bf' = length bf /\ forall j, SBUS_BUFFER_SIZE <= j -> aget bf' j = aget bf j.

#[export] Instance in_frame_preorder : PreOrder in_frame.
Proof.
  split; [done|]. intros a b c [H1 H2] [H3 H4]. split; [by rewrite H3|]. intros j Hj. rewrite H4; auto.
Qed.

Lemma in_frame_aset i v bf : 0 <= i < SBUS_BUFFER_SIZE -> in_frame bf (aset bf i v).
Proof.
  intros Hi. split; [apply length_aset|]. intros j Hj. unfold SBUS_BUFFER_SIZE, SBUS_FRAME_SIZE in *.
  apply aget_aset_ne; lia.
Qed.

Lemma in_frame_blit src bf :
  Z.of_nat (length src) <= SBUS_BUFFER_SIZE -> in_frame bf (blit 0 src bf).
Proof. intros Hs. split; [apply length_blit|]. intros j Hj. apply blit_after; lia. Qed.

Lemma sbus_decode_state_ok frame max d o :
  dec_ok d -> let '(_, d', _) := sbus_decode frame max d o in
  dec_ok d' /\ partial_frame_count d' = partial_frame_count d.
Proof.
  intros (H1 & H2 & H3). unfold sbus_decode. destruct (negb _); [dec_ok|].
  destruct (next_state _) as [st|] eqn:E; [|dec_ok]. cbv zeta.
  assert (st <> SBUS2_DECODE_STATE_SBUS2_DATA1 /\ st <> SBUS2_DECODE_STATE_SBUS2_DATA2) as [Ha Hb]
    by (unfold next_state in E; repeat case_match; by simplify_eq).
  destruct (_ && _); dec_ok.
Qed.

Lemma find_start_range l : forall i, 0 <= i ->
  find_start l i = 0 \/ i <= find_start l i < i + Z.of_nat (length l).
Proof.
  induction l as [|b l IH]; intros i Hi; simpl; [by left|]. case_match; [right; lia|].
  destruct (IH (i + 1)); lia.
Qed.

Definition step_ok (p p' : parse) : Prop := dec_ok (dec p') /\ in_frame (buf p) (buf p').

Lemma recover_ok p :
  dec_ok (dec p) -> partial_frame_count (dec p) = SBUS_FRAME_SIZE -> step_ok p (recover p).
Proof.
  intros (H1 & H2 & H3) Hn. unfold recover. rewrite Hn.
  set (st := if _ && _ then _ else 0).
  assert (Hst : st = 0 \/ 1 <= st < 25).
  { subst st. case_match; [|by left].
    destruct (find_start_range (drop 1 (take (Z.to_nat SBUS_FRAME_SIZE) (buf p))) 1) as [|Hr]; [lia | by left|].
    right. rewrite length_drop, length_take in Hr. set (x := find_start _ _) in *. clearbody x.
    unfold SBUS_FRAME_SIZE in Hr. lia. }
  clearbody st. destruct (Z.eqb_spec st 0) as [Es|Es]; [split; [dec_ok | done]|]. split.
  - dec_ok.
  - apply in_frame_blit. rewrite length_drop, length_take. change SBUS_BUFFER_SIZE with 37. change SBUS_FRAME_SIZE with 25. lia.
Qed.

Lemma store_ok b p :
  dec_ok (dec p) -> partial_frame_count (dec p) < SBUS_FRAME_SIZE ->
  step_ok p (store b p) /\ partial_frame_count (dec (store b p)) = partial_frame_count (dec p) + 1.
Proof.
  intros (H1 & H2 & H3) Hn. split; [|done]. split.
  - dec_ok.
  - apply in_frame_aset. change SBUS_BUFFER_SIZE with 37. change SBUS_FRAME_SIZE with 25 in *. lia.
Qed.

Lemma frame_byte_ok max b p :
  dec_ok (dec p) -> partial_frame_count (dec p) < SBUS_FRAME_SIZE -> step_ok p (frame_byte max b p).
Proof.
  intros Hd Hn. destruct (store_ok b p Hd Hn) as [[Hs1 Hs2] Hc]. unfold frame_byte. cbv zeta.
  set (q := store b p) in *. clearbody q.
  destruct (Z.ltb_spec (partial_frame_count (dec q)) SBUS_FRAME_SIZE) as [Hl|Hl]; [by split|].
  pose proof (sbus_decode_state_ok (buf q) max (dec q) (out q) Hs1) as Hdec.
  destruct (sbus_decode _ _ _ _) as [[r d] o]. destruct Hdec as [Hd1 Hd2].
  destruct (recover_ok (Parse (buf q) d o r)) as [Hr1 Hr2]; [done | simpl; lia |].
  split; [done|]. etransitivity; [exact Hs2 | exact Hr2].
Qed.

Lemma slot_byte_ok size id b p :
  dec_ok (dec p) -> partial_frame_count (dec p) < SBUS_FRAME_SIZE -> step_ok p (slot_byte size id b p).
Proof.
  intros Hd Hn. destruct (store_ok b p Hd Hn) as [[Hs1 Hs2] Hc]. unfold slot_byte. cbv zeta.
  set (q := store b p) in *. clearbody q. destruct Hs1 as (H1 & H2 & H3).
  repeat case_match; (split; [dec_ok | exact Hs2]).
Qed.

Lemma resync_ok d : dec_ok d -> dec_ok (resync d).
Proof. intros (H1 & H2 & H3). dec_ok. Qed.

Lemma parse_byte_ok max b p : dec_ok (dec p) -> step_ok p (parse_byte max p b).
Proof.
  intros Hd. unfold parse_byte. cbv zeta.
  set (p1 := if _ =? SBUS_BUFFER_SIZE then _ else p).
  assert (H1 : dec_ok (dec p1) /\ buf p1 = buf p) by (subst p1; case_match; split; try done; by apply resync_ok).
  clearbody p1. destruct H1 as [H1 E1].
  set (p2 := if _ =? SBUS_FRAME_SIZE then _ else p1).
  assert (H2 : dec_ok (dec p2) /\ buf p2 = buf p1 /\ partial_frame_count (dec p2) < SBUS_FRAME_SIZE).
  { subst p2. destruct (Z.eqb_spec (partial_frame_count (dec p1)) SBUS_FRAME_SIZE) as [E|E].
    - split; [by apply resync_ok | done].
    - split; [done|]. split; [done|]. destruct H1 as (H1 & _). lia. }
  clearbody p2. destruct H2 as (H2 & E2 & Hn). unfold step_ok. rewrite <- E1, <- E2. clear E1 E2.
  pose proof (frame_byte_ok max b p2 H2 Hn). pose proof (fun s i => slot_byte_ok s i b p2 H2 Hn).
  unfold handle_byte. destruct (sbus_decode_state (dec p2)) eqn:Est; try apply H; try apply H0; try by (destruct H2 as (_ & ? & ?)).
  case_match; [|by split]. destruct H2 as (Ha & _).
  apply (store_ok b (with_dec (fun d => set_count 0 (goto SBUS2_DECODE_STATE_SBUS_START d)) p2)); [|done].
  dec_ok.
Qed.

(** Memory safety of the receiver.  From every state it can be in, whatever
    bytes and however many the UART delivers, it writes nothing outside its own
    frame buffer in the memory the decoders share, its byte count stays within
    a frame, and it is again in such a state. *)
Theorem sbus_in_bounds (now max_channels : Z) (bytes bf : list Z) (d : sbus) (o : sbus_out) :
  dec_ok d ->
  let p := sbus_input now max_channels bytes bf d o in
  dec_ok (dec p) /\ length (buf p) = length bf
  /\ forall j, SBUS_BUFFER_SIZE <= j -> aget (buf p) j = aget bf j.
Proof.
  intros Hd. cbv zeta. unfold sbus_input. destruct bytes as [|b0 bytes]; [done|].
  set (d1 := if _ && _ then _ else d).
  assert (Hd1 : dec_ok d1) by (subst d1; case_match; [by apply resync_ok | done]). clearbody d1.
  case_match; [destruct Hd1 as (? & ? & ?); split; [dec_ok | done]|].
  unfold sbus_parse. generalize (b0 :: bytes). intros l.
  assert (H0 : dec_ok (set_rx_time now d1)) by (destruct Hd1 as (? & ? & ?); dec_ok).
  set (p0 := Parse bf (set_rx_time now d1) o false).
  assert (Hgen : forall l p, dec_ok (dec p) -> step_ok p (fold_left (parse_byte max_channels) l p)).
  { clear. induction l as [|b l IH]; intros p Hp; simpl; [by split|].
    destruct (parse_byte_ok max_channels b p Hp) as [H1 H2]. destruct (IH _ H1) as [H3 H4].
    split; [done|]. by etransitivity. }
  destruct (Hgen l p0 H0) as [H1 [H2 H3]]. done.
Qed.

(** * A frame from the transmitter to the receiver *)

Lemma blit_app a : forall i b l, blit i (a ++ b) l = blit (i + Z.of_nat (length a)) b (blit i a l).
Proof.
  induction a as [|v a IH]; intros i b l; simpl; [by rewrite Z.add_0_r|].
  rewrite IH. f_equal. lia.
Qed.

Definition collecting (d : sbus) : Prop :=
  sbus_decode_state d = SBUS2_DECODE_STATE_SBUS_START \/ sbus_decode_state d = SBUS2_DECODE_STATE_SBUS1_SYNC
  \/ sbus_decode_state d = SBUS2_DECODE_STATE_SBUS2_SYNC.

Lemma parse_handle max b p :
  partial_frame_count (dec p) < SBUS_FRAME_SIZE -> parse_byte max p b = handle_byte max b p.
Proof.
  intros Hn. unfold parse_byte. cbv zeta.
  rewrite (proj2 (Z.eqb_neq _ SBUS_BUFFER_SIZE)) by (change SBUS_BUFFER_SIZE with 37; change SBUS_FRAME_SIZE with 25 in *; lia).
  by rewrite (proj2 (Z.eqb_neq _ SBUS_FRAME_SIZE)) by lia.
Qed.

Lemma collecting_byte max b p :
  collecting (dec p) -> partial_frame_count (dec p) < SBUS_FRAME_SIZE ->
  parse_byte max p b = frame_byte max b p.
Proof. intros Hc Hn. rewrite parse_handle by done. unfold handle_byte. by destruct Hc as [-> | [-> | ->]]. Qed.

(** The bytes of a frame before its last. *)
Lemma collect max l : forall p,
  collecting (dec p) -> 0 <= partial_frame_count (dec p) ->
  partial_frame_count (dec p) + Z.of_nat (length l) < SBUS_FRAME_SIZE ->
  fold_left (parse_byte max) l p
  = Parse (blit (partial_frame_count (dec p)) l (buf p))
      (set_count (partial_frame_count (dec p) + Z.of_nat (length l)) (dec p)) (out p) (decode_ret p).
Proof.
  induction l as [|b l IH]; intros p Hc H0 Hn; cbn [length] in *.
  - simpl. rewrite Z.add_0_r. by destruct p as [? [] ? ?].
  - cbn [fold_left]. rewrite collecting_byte by (done || lia). unfold frame_byte. cbv zeta.
    rewrite (proj2 (Z.ltb_lt _ _)) by (simpl; lia). rewrite IH; [|done|simpl; lia|simpl; lia].
    simpl. f_equal. unfold set_count. simpl. f_equal. lia.
Qed.

(** The start symbol, in every state without a partial frame. *)
Lemma first_byte max p :
  dec_ok (dec p) -> partial_frame_count (dec p) = 0 -> (0 < length (buf p))%nat ->
  exists d, parse_byte max p SBUS_START_SYMBOL = Parse (aset (buf p) 0 SBUS_START_SYMBOL) d (out p) (decode_ret p)
    /\ collecting d /\ partial_frame_count d = 1.
Proof.
  intros (_ & Hd1 & Hd2) Hn Hlen. rewrite parse_handle by (rewrite Hn; done).
  assert (Hst : store SBUS_START_SYMBOL p
                = Parse (aset (buf p) 0 SBUS_START_SYMBOL) (set_count 1 (dec p)) (out p) (decode_ret p))
    by (unfold store; by rewrite Hn).
  assert (Hf : collecting (dec p) -> exists d, frame_byte max SBUS_START_SYMBOL p
                = Parse (aset (buf p) 0 SBUS_START_SYMBOL) d (out p) (decode_ret p)
                /\ collecting d /\ partial_frame_count d = 1).
  { intros Hc. unfold frame_byte. rewrite Hst. eexists. split; [reflexivity|]. by split. }
  assert (Hs : forall size id, 1 < size -> exists d, slot_byte size id SBUS_START_SYMBOL p
                = Parse (aset (buf p) 0 SBUS_START_SYMBOL) d (out p) (decode_ret p)
                /\ collecting d /\ partial_frame_count d = 1).
  { intros size id Hsz. unfold slot_byte. rewrite Hst. cbn [partial_frame_count dec set_count buf].
    rewrite aget_aset_eq by lia. rewrite Z.eqb_refl, (proj2 (Z.ltb_lt 1 size)) by done. cbn [andb Z.eqb Pos.eqb].
    eexists. split; [reflexivity|]. split; [by right; right | done]. }
  unfold handle_byte. unfold collecting in Hf.
  destruct (sbus_decode_state (dec p)) eqn:Est; try done; try (apply Hf; tauto); try (by apply Hs).
  rewrite Z.eqb_refl. eexists. split; [reflexivity|]. split; [by left | done].
Qed.

(** Decoding depends on the frame's 25 bytes only. *)
Lemma decode_channel_ext f g c row :
  sbus_decoder !! c = Some row -> (forall i, 0 <= i < 25 -> aget f i = aget g i) ->
  decode_channel f row = decode_channel g row.
Proof.
  intros Hr Hfg. unfold decode_channel. f_equal. apply Z.bits_inj'. intros j Hj.
  rewrite !(row_bit _ c row j Hr Hj). destruct (Z.ltb_spec j 11) as [H|H]; cbn [andb]; [|done].
  apply lookup_lt_Some in Hr. change (length sbus_decoder) with 16%nat in Hr.
  unfold fbit. rewrite Hfg; [done|]. split; [apply Z.div_pos; lia|]. apply Z.div_lt_upper_bound; lia.
Qed.

(** What a frame of [vs] is decoded to, found anywhere in a larger buffer. *)
Lemma decode_frame vs bf d o :
  (length vs <= 16)%nat -> Forall (fun v => 874 <= v <= 2153) vs ->
  (forall i, 0 <= i < 25 -> aget bf i = aget (sbus_frame_of vs) i) -> length (values o) = 18%nat ->
  exists vs', sbus_decode bf 18 d o = (true, goto SBUS2_DECODE_STATE_SBUS1_SYNC d, Sbus_out vs' 18 false false)
    /\ take (length vs) vs' = vs.
Proof.
  intros Hl Hv Hf Ho. destruct (frame_ends vs Hl) as (E0 & E23 & E24).
  unfold sbus_decode. rewrite !Hf by (unfold SBUS_FLAGS_BYTE; lia). rewrite E0, E23, E24.
  rewrite Z.eqb_refl. cbn [negb next_state Z.eqb]. change (SBUS_INPUT_CHANNELS <? 18) with true. cbv iota zeta.
  change ((17 <? 18) && (15 <? SBUS_INPUT_CHANNELS)) with true. cbv iota zeta.
  eexists. split; [by rewrite !Z.bits_0|].
  rewrite (take_ge sbus_decoder) by reflexivity.
  apply list_eq. intros c. destruct (decide (c < length vs)%nat) as [Hc|Hc];
    [|rewrite lookup_take_ge, lookup_ge_None_2 by lia; done].
  rewrite lookup_take_lt by lia. destruct (lookup_lt_is_Some_2 vs c Hc) as [v Ev]. rewrite Ev.
  assert (Hrow : exists row, sbus_decoder !! c = Some row).
  { apply lookup_lt_is_Some_2. change (length sbus_decoder) with 16%nat. lia. }
  destruct Hrow as [row Er].
  assert (Hget : forall l, (c < length l)%nat -> aget l (Z.of_nat c) = v -> l !! c = Some v).
  { intros l Hlt. unfold aget. rewrite Nat2Z.id. destruct (lookup_lt_is_Some_2 l c Hlt) as [x ->]. by intros <-. }
  apply Hget; [rewrite !length_aset, length_blit; lia|].
  rewrite !aget_aset_ne by lia. rewrite blit_at.
  - rewrite Z.sub_0_r. unfold aget. rewrite Nat2Z.id.
    rewrite list_lookup_fmap, Er. simpl. rewrite (decode_channel_ext _ (sbus_frame_of vs) c row Er Hf).
    apply (decode_put vs c); try done. by apply (Forall_lookup_1 _ _ _ _ Hv Ev).
  - lia.
  - rewrite length_fmap. change (length sbus_decoder) with 16%nat. lia.
  - rewrite length_fmap, Ho. change (length sbus_decoder) with 16%nat. lia.
Qed.

(** C32: a frame is received as it was sent.  Up to 16 pulses in [874, 2153] us,
    put into a frame by [sbus1_output] and delivered in one read to a receiver
    in any state it can be in, after a silence of more than 3 ms (or at a frame
    boundary), decode to exactly the same pulses: the 11-bit scaling and the
    bit matrix lose nothing. *)
Theorem sbus_roundtrip (now t : Z) (vs bf bytes : list Z) (d : sbus) (o : sbus_out) (tx : sbus_tx) :
  (length vs <= 16)%nat -> Forall (fun v => 874 <= v <= 2153) vs ->
  (sbus1_output t vs tx).1 = Some bytes ->
  dec_ok d -> partial_frame_count d = 0 \/ 3000 < u64 (now - last_rx_time d) ->
  (25 <= length bf)%nat -> length (values o) = 18%nat ->
  let p := sbus_input now 18 bytes bf d o in
  decode_ret p = true /\ take (length vs) (values (out p)) = vs /\ num_values (out p) = 18
  /\ sbus_failsafe (out p) = false /\ sbus_frame_drop (out p) = false.
Proof.
  intros Hl Hv Htx Hd Hsil Hbf Ho. cbv zeta.
  assert (bytes = sbus_frame_of vs) as -> by (unfold sbus1_output in Htx; case_match; by simplify_eq/=).
  destruct (frame_bits vs 0 Hl ltac:(lia)) as [HF _]. destruct (frame_ends vs Hl) as (E0 & _ & _).
  pose proof (fun bf => decode_frame vs bf) as Hdec. set (F := sbus_frame_of vs) in *. clearbody F.
  destruct F as [|f0 F]; [done|]. unfold aget in E0. simpl in E0. subst f0.
  destruct (exists_last (l := F)) as (m & x & ->); [by destruct F|].
  assert (Hm : length m = 23%nat) by (simpl in HF; rewrite length_app in HF; simpl in HF; lia).
  unfold sbus_input. set (d1 := if _ && _ then resync d else d).
  assert (Hd1 : dec_ok d1 /\ partial_frame_count d1 = 0).
  { subst d1. destruct (Z.ltb_spec 3000 (u64 (now - last_rx_time d))); cbn [andb];
      [destruct (Z.ltb_spec 0 (partial_frame_count d))|]; destruct Hsil as [E|?]; try lia;
      split; try done; try by apply resync_ok.
    destruct Hd as (? & _); lia. }
  clearbody d1. destruct Hd1 as [Hd1 Hn1].
  rewrite Hn1, (Z.eqb_refl SBUS_START_SYMBOL). cbn [negb andb Z.eqb].
  unfold sbus_parse. cbn [fold_left].
  destruct (first_byte 18 (Parse bf (set_rx_time now d1) o false)) as (d2 & -> & Hc & Hn2);
    [by destruct Hd1 as (? & ? & ?); dec_ok | done | simpl; lia |].
  rewrite fold_left_app, (collect 18 m); [|done | simpl; lia | simpl; rewrite Hn2, Hm; done].
  cbn [dec buf out decode_ret fold_left]. rewrite Hn2, Hm.
  change (1 + Z.of_nat 23) with 24.
  rewrite collecting_byte by done. unfold frame_byte. cbv zeta.
  unfold store. cbn [dec buf out decode_ret partial_frame_count set_count].
  change (24 + 1 <? SBUS_FRAME_SIZE) with false. cbv iota.
  assert (Hb : aset (blit 1 m (aset bf 0 SBUS_START_SYMBOL)) 24 x = blit 0 (SBUS_START_SYMBOL :: m ++ [x]) bf).
  { cbn [blit]. rewrite blit_app, Hm. reflexivity. }
  rewrite Hb. set (fr := SBUS_START_SYMBOL :: m ++ [x]) in *.
  destruct (Hdec (blit 0 fr bf) (set_count (24 + 1) (set_count 24 d2)) o) as (vs' & -> & Hvs); try done.
  { intros i Hi. rewrite blit_at; [by rewrite Z.sub_0_r | lia | rewrite HF; lia | rewrite HF; lia]. }
Qed.

Definition sent_pulses : list Z := [1000; 1500; 2000; 874; 2153; 1001; 1002; 1999].

Lemma sbus_roundtrip_witness :
  Forall (fun v => 874 <= v <= 2153) sent_pulses
  /\ let bytes := default [] (sbus1_output 20000 sent_pulses sbus_tx_init).1 in
     take 8 (values (out (sbus_input 9000 18 bytes rc_decode_buf_init (sbus_config 0)
                            (Sbus_out (replicate 18 0) 0 false false)))) = sent_pulses.
Proof.
  assert (H : Forall (fun v => 874 <= v <= 2153) sent_pulses) by (repeat constructor; lia).
  split; [exact H|]. cbv zeta.
  apply (sbus_roundtrip 9000 20000 sent_pulses rc_decode_buf_init _ (sbus_config 0)
           (Sbus_out (replicate 18 0) 0 false false) sbus_tx_init).
  - vm_compute. lia.
  - exact H.
  - vm_compute; reflexivity.
  - dec_ok.
  - by left.
  - vm_compute. lia.
  - reflexivity.
Defined.

Lemma sbus_in_bounds_witness :
  dec_ok (sbus_config 0)
  /\ length (buf (sbus_input 9000 18 [15; 1; 2; 15; 255] rc_decode_buf_init (sbus_config 0)
                    (Sbus_out (replicate 18 0) 0 false false))) = 71%nat.
Proof.
  assert (H : dec_ok (sbus_config 0)) by dec_ok. split; [exact H|].
  destruct (sbus_in_bounds 9000 18 [15; 1; 2; 15; 255] rc_decode_buf_init (sbus_config 0)
              (Sbus_out (replicate 18 0) 0 false false) H) as (_ & E & _).
  rewrite E. reflexivity.
Defined.
