(* ===== verification/St24.v ===== *)
(** The Yuneec ST24 receiver protocol (src/lib/rc/st24.cpp): a byte-wise
    decoder whose packet lives in the memory the decoders share.

    [overrun] is a ghost: it records that a byte was stored past the end of
    [st24_data]. *)

From Stdlib Require Import ZArith Lia SpecFloat.
From stdpp Require Import base list numbers.
From S2P Require Import Prelude Float32 RcBuffer.

Local Open Scope Z_scope.

Definition ST24_DATA_LEN_MAX : Z := 64.
Definition ST24_STX1 : Z := 0x55.
Definition ST24_STX2 : Z := 0x55.
Definition ST24_PACKET_TYPE_CHANNELDATA12 : Z := 0.
Definition ST24_PACKET_TYPE_CHANNELDATA24 : Z := 1.
Definition ST24_PACKET_TYPE_TRANSMITTERGPSDATA : Z := 2.

Definition ST24_RANGE_MIN : float := f_of_Z 500.
Definition ST24_RANGE_MAX : float := f_of_Z 3500.
Definition ST24_TARGET_MIN : float := f_of_Z 1000.
Definition ST24_TARGET_MAX : float := f_of_Z 2000.
Definition ST24_SCALE_FACTOR : float :=
  fdiv (fsub ST24_TARGET_MAX ST24_TARGET_MIN) (fsub ST24_RANGE_MAX ST24_RANGE_MIN).
Definition ST24_SCALE_OFFSET : Z :=
  f_trunc (fsub ST24_TARGET_MIN (fadd (fmul ST24_SCALE_FACTOR ST24_RANGE_MIN) (f_dec 1 2))).

Inductive ST24_DECODE_STATE :=
| ST24_DECODE_STATE_UNSYNCED | ST24_DECODE_STATE_GOT_STX1 | ST24_DECODE_STATE_GOT_STX2
| ST24_DECODE_STATE_GOT_LEN | ST24_DECODE_STATE_GOT_TYPE | ST24_DECODE_STATE_GOT_DATA.

Record st24 := St24 { st_state : ST24_DECODE_STATE; st_rxlen : Z; overrun : bool }.
Definition st24_init : st24 := St24 ST24_DECODE_STATE_UNSYNCED 0 false.

(** [ReceiverFcPacket], packed, at the start of the union. *)
Definition PKT_LENGTH : Z := 2.
Definition PKT_TYPE : Z := 3.
Definition PKT_DATA : Z := 4.
Definition PKT_CRC8 : Z := PKT_DATA + ST24_DATA_LEN_MAX.

(** [ChannelData12], [ChannelData24] inside [st24_data]. *)
Definition D_RSSI : Z := 2.
Definition D_LOST_COUNT : Z := 3.
Definition D_CHANNEL : Z := 4.

(** One bit of the CRC-8. *)
Definition crc8_bit (bit : bool) (crc : Z) : Z :=
  let crc := if Z.testbit crc 7 then Z.lxor (u8 (Z.shiftl crc 1)) 0x07 else u8 (Z.shiftl crc 1) in
  if bit then Z.lxor crc 0x07 else crc.

Definition crc8_byte (crc b : Z) : Z :=
  fold_left (fun crc i => crc8_bit (Z.testbit b i) crc) [7; 6; 5; 4; 3; 2; 1; 0] crc.

Definition st24_common_crc8 (bytes : list Z) : Z := fold_left crc8_byte bytes 0.

(** What [st24_decode] reports through its pointers. *)
Record st24_out := St24_out {
  st_rssi : Z;
  st_lost_count : Z;
  st_channel_count : Z;
  st_channels : list Z
}.

(** [(uint16_t)(v * ST24_SCALE_FACTOR + .5f) + ST24_SCALE_OFFSET] *)
Definition st24_pulse (v : Z) : Z :=
  u16 (u16 (f_trunc (fadd (fmul (f_of_Z v) ST24_SCALE_FACTOR) (f_dec 1 2))) + ST24_SCALE_OFFSET).

(** The loop over the strides of three bytes; [channel] is the channel array of
    the packet. *)
Fixpoint st24_strides (fuel : nat) (channel : Z -> Z) (i stride_count chan_index : Z) (chs : list Z) : list Z :=
  match fuel with
  | O => chs
  | S n =>
      if i <? stride_count then
        let a := Z.lor (Z.shiftl (channel i) 4) (Z.shiftr (Z.land 0xF0 (channel (i + 1))) 4) in
        let b := Z.lor (channel (i + 2)) (Z.shiftl (Z.land 0x0F (channel (i + 1))) 8) in
        st24_strides n channel (i + 3) stride_count (chan_index + 2)
          (aset (aset chs chan_index (st24_pulse a)) (chan_index + 1) (st24_pulse b))
      else chs
  end.

(** A channel packet of at most [limit] channels; 12 rounds cover 36 bytes. *)
Definition st24_channels (limit : Z) (bf : list Z) (max_chan_count : Z) (o : st24_out) : st24_out :=
  let data := fun i => aget bf (PKT_DATA + i) in
  let count := if max_chan_count <? limit then max_chan_count else limit in
  St24_out (u8 (f_trunc (fmul (f_of_Z (data D_RSSI)) (fdiv (f_of_Z 100) (f_of_Z 255)))))
    (data D_LOST_COUNT) count
    (st24_strides 12 (fun i => data (D_CHANNEL + i)) 0 (count * 3 / 2) 0 (st_channels o)).

Definition st24_packet (bf : list Z) (max_chan_count : Z) (o : st24_out) : Z * st24_out :=
  let type := aget bf PKT_TYPE in
  if type =? ST24_PACKET_TYPE_CHANNELDATA12 then (0, st24_channels 12 bf max_chan_count o)
  else if type =? ST24_PACKET_TYPE_CHANNELDATA24 then (0, st24_channels 24 bf max_chan_count o)
  else if type =? ST24_PACKET_TYPE_TRANSMITTERGPSDATA then (5, o)
  else (2, o).

Definition st24_decode (byte max_chan_count : Z) (bf : list Z) (d : st24) (o : st24_out)
    : Z * list Z * st24 * st24_out :=
  let goto := fun st => St24 st (st_rxlen d) (overrun d) in
  match st_state d with
  | ST24_DECODE_STATE_UNSYNCED =>
      if byte =? ST24_STX1 then (1, bf, goto ST24_DECODE_STATE_GOT_STX1, o) else (3, bf, d, o)
  | ST24_DECODE_STATE_GOT_STX1 =>
      (1, bf, goto (if byte =? ST24_STX2 then ST24_DECODE_STATE_GOT_STX2 else ST24_DECODE_STATE_UNSYNCED), o)
  | ST24_DECODE_STATE_GOT_STX2 =>
      if byte <=? 1 + 1 + ST24_DATA_LEN_MAX
      then (1, aset bf PKT_LENGTH byte, St24 ST24_DECODE_STATE_GOT_LEN 0 (overrun d), o)
      else (1, bf, goto ST24_DECODE_STATE_UNSYNCED, o)
  | ST24_DECODE_STATE_GOT_LEN =>
      (1, aset bf PKT_TYPE byte, St24 ST24_DECODE_STATE_GOT_TYPE (u8 (st_rxlen d + 1)) (overrun d), o)
  | ST24_DECODE_STATE_GOT_TYPE =>
      let i := st_rxlen d - 1 in
      let bf := aset bf (PKT_DATA + i) byte in
      let rxlen := u8 (st_rxlen d + 1) in
      (1, bf, St24 (if rxlen =? aget bf PKT_LENGTH - 1 then ST24_DECODE_STATE_GOT_DATA
                    else ST24_DECODE_STATE_GOT_TYPE)
                rxlen (overrun d || (i <? 0) || (ST24_DATA_LEN_MAX <=? i)), o)
  | ST24_DECODE_STATE_GOT_DATA =>
      let bf := aset bf PKT_CRC8 byte in
      let rxlen := u8 (st_rxlen d + 1) in
      let '(ret, o) :=
        if st24_common_crc8 (take (Z.to_nat rxlen) (drop (Z.to_nat PKT_LENGTH) bf)) =? aget bf PKT_CRC8
        then st24_packet bf max_chan_count o else (4, o) in
      (ret, bf, St24 ST24_DECODE_STATE_UNSYNCED rxlen (overrun d), o)
  end.

(** The caller's loop over the bytes of one read. *)
Definition st24_bytes (max_chan_count : Z) (bytes : list Z) (bf : list Z) (d : st24) (o : st24_out)
    : list Z * st24 * st24_out :=
  fold_left (fun '(bf, d, o) b => let '(_, bf, d, o) := st24_decode b max_chan_count bf d o in (bf, d, o))
    bytes (bf, d, o).

(** ** The length byte *)

(** A decoder in the middle of the data, with the room it has left. *)
Definition in_data (bf : list Z) (d : st24) : Prop :=
  st_state d = ST24_DECODE_STATE_GOT_TYPE /\ aget bf PKT_LENGTH <= 2.

(** With a length of 2 or less the end of the data is never found. *)
Lemma data_byte b max bf d o :
  in_data bf d -> (4 <= length bf)%nat -> 1 <= st_rxlen d < 255 ->
  let '(_, bf', d', _) := st24_decode b max bf d o in
  in_data bf' d' /\ length bf' = length bf /\ st_rxlen d' = st_rxlen d + 1
  /\ overrun d' = overrun d || (ST24_DATA_LEN_MAX <=? st_rxlen d - 1).
Proof.
  intros [Hs Hl] Hbf Hr. unfold st24_decode. rewrite Hs. cbv zeta.
  assert (Hu : u8 (st_rxlen d + 1) = st_rxlen d + 1) by (unfold u8; rewrite Z.mod_small; lia).
  rewrite Hu. unfold in_data. cbn [st_state st_rxlen overrun].
  assert (Hlen : aget (aset bf (PKT_DATA + (st_rxlen d - 1)) b) PKT_LENGTH = aget bf PKT_LENGTH)
    by (apply aget_aset_ne; unfold PKT_DATA, PKT_LENGTH; lia).
  rewrite Hlen, (proj2 (Z.eqb_neq _ _)) by lia. rewrite (proj2 (Z.ltb_ge _ 0)) by lia.
  rewrite length_aset, orb_false_r. done.
Qed.

Lemma data_bytes max l : forall bf d o,
  in_data bf d -> (4 <= length bf)%nat -> 1 <= st_rxlen d -> st_rxlen d + Z.of_nat (length l) <= 255 ->
  overrun d = true \/ l <> [] /\ ST24_DATA_LEN_MAX <= st_rxlen d + Z.of_nat (length l) - 2 ->
  let '(_, d', _) := st24_bytes max l bf d o in overrun d' = true.
Proof.
  induction l as [|b l IH]; intros bf d o Hd Hbf H1 Hn Ho; cbn [length] in *.
  - simpl. destruct Ho as [|[]]; done.
  - unfold st24_bytes. cbn [fold_left]. pose proof (data_byte b max bf d o Hd Hbf ltac:(lia)) as Hb.
    destruct (st24_decode b max bf d o) as [[[r bf'] d'] o']. destruct Hb as (Hd' & Hl' & Hr' & Ho').
    apply IH; [done | lia | lia | lia |]. rewrite Ho', Hr'.
    destruct Ho as [->|[_ Ho]]; [by left|]. destruct l as [|b' l].
    + left. apply orb_true_intro. right. apply Z.leb_le. cbn [length] in Ho. lia.
    + right. split; [done|]. cbn [length] in *. lia.
Qed.

Lemma st24_bytes_cons max b l bf d o :
  st24_bytes max (b :: l) bf d o
  = let '(_, bf, d, o) := st24_decode b max bf d o in st24_bytes max l bf d o.
Proof. unfold st24_bytes. cbn [fold_left]. by destruct (st24_decode b max bf d o) as [[[] ] ]. Qed.

Lemma start_of_packet max len type l bf d o :
  st_state d = ST24_DECODE_STATE_UNSYNCED -> len <= 1 + 1 + ST24_DATA_LEN_MAX ->
  st24_bytes max (ST24_STX1 :: ST24_STX2 :: len :: type :: l) bf d o
  = st24_bytes max l (aset (aset bf PKT_LENGTH len) PKT_TYPE type) (St24 ST24_DECODE_STATE_GOT_TYPE 1 (overrun d)) o.
Proof.
  intros Hs Hl. destruct d as [s r ov]. simpl in Hs. subst s.
  rewrite st24_bytes_cons. unfold st24_decode at 1. cbn [st_state st_rxlen overrun]. rewrite Z.eqb_refl.
  rewrite st24_bytes_cons. unfold st24_decode at 1. cbn [st_state st_rxlen overrun]. rewrite Z.eqb_refl.
  rewrite st24_bytes_cons. unfold st24_decode at 1. cbn [st_state st_rxlen overrun].
  rewrite (proj2 (Z.leb_le _ _)) by done.
  rewrite st24_bytes_cons. reflexivity.
Qed.

(** A short length byte overruns the packet.  The decoder checks that the
    announced length is not too large, but a length of 0, 1 or 2 is never
    reached by the count of received bytes: after the two start bytes, such a
    length and a type, the 65th byte that follows is stored past the end of
    [st24_data], whatever the bytes are. *)
Theorem st24_short_length_overruns (max_chan_count len type : Z) (data bf : list Z) (d : st24) (o : st24_out) :
  st_state d = ST24_DECODE_STATE_UNSYNCED -> 0 <= len <= 2 ->
  (65 <= length data <= 250)%nat -> (4 <= length bf)%nat ->
  let '(_, d', _) := st24_bytes max_chan_count (ST24_STX1 :: ST24_STX2 :: len :: type :: data) bf d o in
  overrun d' = true.
Proof.
  intros Hs Hlen Hdata Hbf. rewrite (start_of_packet _ len type) by (done || unfold ST24_DATA_LEN_MAX; lia).
  apply data_bytes.
  - split; [done|]. rewrite aget_aset_ne by (unfold PKT_TYPE, PKT_LENGTH; lia).
    rewrite aget_aset_eq by (unfold PKT_LENGTH; lia). lia.
  - by rewrite !length_aset.
  - done.
  - simpl. lia.
  - right. split; [intros ->; simpl in Hdata; lia|]. simpl. unfold ST24_DATA_LEN_MAX. lia.
Qed.

Lemma st24_short_length_overruns_witness :
  0 <= 1 <= 2
  /\ overrun (st24_bytes 18 (ST24_STX1 :: ST24_STX2 :: 1 :: 0 :: replicate 65 7) rc_decode_buf_init st24_init
                (St24_out 100 0 0 (replicate 18 0))).1.2 = true.
Proof.
  split; [lia|].
  pose proof (st24_short_length_overruns 18 1 0 (replicate 65 7) rc_decode_buf_init st24_init
                (St24_out 100 0 0 (replicate 18 0)) eq_refl ltac:(lia) ltac:(vm_compute; lia) ltac:(vm_compute; lia)) as H.
  destruct (st24_bytes _ _ _ _ _) as [[bf' d'] o']. exact H.
Defined.
