(* ===== verification/Sumd.v ===== *)
(** The Graupner SUMD and SUMH receiver protocols (src/lib/rc/sumd.cpp): a
    byte-wise decoder whose packet lives in the memory the decoders share.  The
    checksums are accumulated while the bytes arrive.

    [sumd_overrun] is a ghost: it records that a byte was stored past the end of
    [sumd_data]. *)

From Stdlib Require Import ZArith Lia.
From stdpp Require Import base list numbers.
From S2P Require Import Prelude RcBuffer.

Local Open Scope Z_scope.

Definition SUMD_MAX_CHANNELS : Z := 32.
Definition SUMD_HEADER_ID : Z := 0xA8.
Definition SUMD_ID_SUMH : Z := 0x00.
Definition SUMD_ID_SUMD : Z := 0x01.
Definition SUMD_ID_FAILSAFE : Z := 0x81.

Inductive SUMD_DECODE_STATE :=
| SUMD_DECODE_STATE_UNSYNCED | SUMD_DECODE_STATE_GOT_HEADER | SUMD_DECODE_STATE_GOT_STATE
| SUMD_DECODE_STATE_GOT_LEN | SUMD_DECODE_STATE_GOT_DATA | SUMD_DECODE_STATE_GOT_CRC
| SUMD_DECODE_STATE_GOT_CRC16_BYTE_1 | SUMD_DECODE_STATE_GOT_CRC16_BYTE_2.

(** [ReceiverFcPacketHoTT], packed, at the start of the union. *)
Definition HOTT_HEADER : Z := 0.
Definition HOTT_STATUS : Z := 1.
Definition HOTT_LENGTH : Z := 2.
Definition HOTT_DATA : Z := 3.
Definition HOTT_CRC16_HIGH : Z := HOTT_DATA + SUMD_MAX_CHANNELS * 2.
Definition HOTT_CRC16_LOW : Z := HOTT_CRC16_HIGH + 1.
Definition HOTT_TELEMETRY : Z := HOTT_CRC16_HIGH + 2.
Definition HOTT_CRC8 : Z := HOTT_CRC16_HIGH + 3.

Record sumd := Sumd {
  sumd_state : SUMD_DECODE_STATE;
  sumd_rxlen : Z;
  sumd_crc8_acc : Z;
  sumd_crc16_acc : Z;
  is_sumd : bool;
  crc_ok : bool;
  sumd_overrun : bool
}.
Definition sumd_init : sumd := Sumd SUMD_DECODE_STATE_UNSYNCED 0 0 0 true false false.

(** What [sumd_decode] reports through its pointers. *)
Record sumd_out := Sumd_out {
  sumd_rssi : Z;
  sumd_rx_count : Z;
  sumd_channel_count : Z;
  sumd_channels : list Z;
  sumd_failsafe : bool
}.

Definition crc16_shift (crc : Z) : Z :=
  u16 (if Z.testbit crc 15 then Z.lxor (Z.shiftl crc 1) 0x1021 else Z.shiftl crc 1).

Definition sumd_crc16 (crc value : Z) : Z :=
  Nat.iter 8 crc16_shift (Z.lxor crc (Z.shiftl value 8)).

Definition sumd_crc8 (crc value : Z) : Z := u8 (crc + value).

Definition goto (st : SUMD_DECODE_STATE) (d : sumd) : sumd :=
  Sumd st (sumd_rxlen d) (sumd_crc8_acc d) (sumd_crc16_acc d) (is_sumd d) (crc_ok d) (sumd_overrun d).
Definition set_is_sumd (v : bool) (d : sumd) : sumd :=
  Sumd (sumd_state d) (sumd_rxlen d) (sumd_crc8_acc d) (sumd_crc16_acc d) v (crc_ok d) (sumd_overrun d).
Definition set_crc_ok (v : bool) (d : sumd) : sumd :=
  Sumd (sumd_state d) (sumd_rxlen d) (sumd_crc8_acc d) (sumd_crc16_acc d) (is_sumd d) v (sumd_overrun d).
Definition incr_rxlen (d : sumd) : sumd :=
  Sumd (sumd_state d) (u8 (sumd_rxlen d + 1)) (sumd_crc8_acc d) (sumd_crc16_acc d) (is_sumd d) (crc_ok d) (sumd_overrun d).
Definition mark_overrun (v : bool) (d : sumd) : sumd :=
  Sumd (sumd_state d) (sumd_rxlen d) (sumd_crc8_acc d) (sumd_crc16_acc d) (is_sumd d) (crc_ok d) (sumd_overrun d || v).

(** The running checksum: CRC-16 for SUMD, the sum for SUMH. *)
Definition accumulate (byte : Z) (d : sumd) : sumd :=
  if is_sumd d
  then Sumd (sumd_state d) (sumd_rxlen d) (sumd_crc8_acc d) (sumd_crc16 (sumd_crc16_acc d) byte)
         (is_sumd d) (crc_ok d) (sumd_overrun d)
  else Sumd (sumd_state d) (sumd_rxlen d) (sumd_crc8 (sumd_crc8_acc d) byte) (sumd_crc16_acc d)
         (is_sumd d) (crc_ok d) (sumd_overrun d).

(** [(uint16_t)((sumd_data[i*2+1] << 8) | sumd_data[i*2+2]) >> 3] *)
Definition sumd_channel (bf : list Z) (i : Z) : Z :=
  Z.shiftr (Z.lor (Z.shiftl (aget bf (HOTT_DATA + (i * 2 + 1))) 8) (aget bf (HOTT_DATA + (i * 2 + 2)))) 3.

(** The channels after the fourth. *)
Fixpoint sumd_rest (n : nat) (i : Z) (bf : list Z) (chs : list Z) : list Z :=
  match n with
  | O => chs
  | S n => sumd_rest n (i + 1) bf (aset chs i (sumd_channel bf i))
  end.

(** A packet whose checksum is right. *)
Definition sumd_accept (max_chan_count : Z) (bf : list Z) (o : sumd_out) : list Z * sumd_out :=
  let bf := if max_chan_count <? aget bf HOTT_LENGTH then aset bf HOTT_LENGTH (u8 max_chan_count) else bf in
  let count := aget bf HOTT_LENGTH in
  let chs := aset (aset (aset (aset (sumd_channels o) 0 (sumd_channel bf 1)) 1 (sumd_channel bf 2))
                    2 (sumd_channel bf 0)) 3 (sumd_channel bf 3) in
  (bf, Sumd_out 100 (u8 (sumd_rx_count o + 1)) count (sumd_rest (Z.to_nat (count - 4)) 4 bf chs)
         (aget bf HOTT_STATUS =? SUMD_ID_FAILSAFE)).

Definition sumd_decode (byte max_chan_count : Z) (bf : list Z) (d : sumd) (o : sumd_out)
    : Z * list Z * sumd * sumd_out :=
  match sumd_state d with
  | SUMD_DECODE_STATE_UNSYNCED =>
      if byte =? SUMD_HEADER_ID then
        (1, aset bf HOTT_HEADER byte,
         Sumd SUMD_DECODE_STATE_GOT_HEADER 0 (sumd_crc8 0 byte) (sumd_crc16 0 byte) true false (sumd_overrun d), o)
      else (3, bf, d, o)
  | SUMD_DECODE_STATE_GOT_HEADER =>
      if (byte =? SUMD_ID_SUMD) || (byte =? SUMD_ID_FAILSAFE) || (byte =? SUMD_ID_SUMH) then
        let d := if byte =? SUMD_ID_SUMH then set_is_sumd false d else d in
        (1, aset bf HOTT_STATUS byte, goto SUMD_DECODE_STATE_GOT_STATE (accumulate byte d), o)
      else (1, bf, goto SUMD_DECODE_STATE_UNSYNCED d, o)
  | SUMD_DECODE_STATE_GOT_STATE =>
      if (2 <=? byte) && (byte <=? SUMD_MAX_CHANNELS) then
        (1, aset bf HOTT_LENGTH byte, goto SUMD_DECODE_STATE_GOT_LEN (incr_rxlen (accumulate byte d)), o)
      else (1, bf, goto SUMD_DECODE_STATE_UNSYNCED d, o)
  | SUMD_DECODE_STATE_GOT_LEN =>
      let i := sumd_rxlen d in
      let bf := aset bf (HOTT_DATA + i) byte in
      let d := incr_rxlen (accumulate byte (mark_overrun (SUMD_MAX_CHANNELS * 2 <=? i) d)) in
      (1, bf, if sumd_rxlen d <=? aget bf HOTT_LENGTH * 2 then d else goto SUMD_DECODE_STATE_GOT_DATA d, o)
  | SUMD_DECODE_STATE_GOT_DATA =>
      (1, aset bf HOTT_CRC16_HIGH byte,
       goto (if is_sumd d then SUMD_DECODE_STATE_GOT_CRC else SUMD_DECODE_STATE_GOT_CRC16_BYTE_1) d, o)
  | SUMD_DECODE_STATE_GOT_CRC16_BYTE_1 =>
      (1, aset bf HOTT_CRC16_LOW byte, goto SUMD_DECODE_STATE_GOT_CRC16_BYTE_2 d, o)
  | SUMD_DECODE_STATE_GOT_CRC16_BYTE_2 =>
      (1, aset bf HOTT_TELEMETRY byte, goto SUMD_DECODE_STATE_GOT_CRC d, o)
  | SUMD_DECODE_STATE_GOT_CRC =>
      let bf := aset bf (if is_sumd d then HOTT_CRC16_LOW else HOTT_CRC8) byte in
      let ok := if is_sumd d
                then sumd_crc16_acc d =? u16 (Z.shiftl (aget bf HOTT_CRC16_HIGH) 8) + aget bf HOTT_CRC16_LOW
                else sumd_crc8_acc d =? aget bf HOTT_CRC8 in
      let d := if ok then set_crc_ok true d else d in
      if crc_ok d then
        let '(bf, o) := sumd_accept max_chan_count bf o in
        (0, bf, goto SUMD_DECODE_STATE_UNSYNCED d, o)
      else (4, bf, goto SUMD_DECODE_STATE_UNSYNCED d, o)
  end.

(** A packet of [n] channels: the checksums are accumulated over it. *)
Definition sumd_bytes (max_chan_count : Z) (bytes : list Z) (bf : list Z) (d : sumd) (o : sumd_out)
    : Z * list Z * sumd * sumd_out :=
  fold_left (fun '(_, bf, d, o) b => sumd_decode b max_chan_count bf d o) bytes (1, bf, d, o).

(** * An intact packet *)

#[local] Opaque sumd_crc16 sumd_crc8.

Definition crc16_of (l : list Z) : Z := fold_left sumd_crc16 l 0.

Lemma crc16_of_app l1 l2 : crc16_of (l1 ++ l2) = fold_left sumd_crc16 l2 (crc16_of l1).
Proof. apply fold_left_app. Qed.

(** The packet a transmitter sends: [data] holds two bytes per channel. *)
Definition sumd_packet (status n : Z) (data : list Z) : list Z :=
  let body := SUMD_HEADER_ID :: status :: n :: data in
  body ++ [Z.shiftr (crc16_of body) 8; Z.land (crc16_of body) 0xff].

Lemma sumd_bytes_cons max b l bf d o :
  sumd_bytes max (b :: l) bf d o
  = match l with
    | [] => sumd_decode b max bf d o
    | _ => let '(_, bf, d, o) := sumd_decode b max bf d o in sumd_bytes max l bf d o
    end.
Proof.
  unfold sumd_bytes. cbn [fold_left]. destruct (sumd_decode b max bf d o) as [[[r bf'] d'] o'].
  by destruct l.
Qed.

Lemma sumd_bytes_step max b l bf d o r bf' d' o' :
  sumd_decode b max bf d o = (r, bf', d', o') -> l <> [] ->
  sumd_bytes max (b :: l) bf d o = sumd_bytes max l bf' d' o'.
Proof. intros E Hl. rewrite sumd_bytes_cons, E. by destruct l. Qed.

(** The decoder while it receives the channels of a SUMD packet. *)
Definition receiving (n k crc : Z) (over : bool) (d : sumd) : Prop :=
  sumd_state d = SUMD_DECODE_STATE_GOT_LEN /\ sumd_rxlen d = 1 + k /\ sumd_crc16_acc d = crc
  /\ is_sumd d = true /\ crc_ok d = false /\ sumd_overrun d = over.

(** After the last data byte. *)
Definition received (crc : Z) (over : bool) (d : sumd) : Prop :=
  sumd_state d = SUMD_DECODE_STATE_GOT_DATA /\ sumd_crc16_acc d = crc /\ is_sumd d = true
  /\ crc_ok d = false /\ sumd_overrun d = over.

Lemma sumd_header max status n l bf d o :
  sumd_state d = SUMD_DECODE_STATE_UNSYNCED -> status = SUMD_ID_SUMD \/ status = SUMD_ID_FAILSAFE ->
  2 <= n <= SUMD_MAX_CHANNELS -> l <> [] ->
  exists d', receiving n 0 (crc16_of [SUMD_HEADER_ID; status; n]) (sumd_overrun d) d'
    /\ sumd_bytes max (SUMD_HEADER_ID :: status :: n :: l) bf d o
       = sumd_bytes max l (aset (aset (aset bf HOTT_HEADER SUMD_HEADER_ID) HOTT_STATUS status) HOTT_LENGTH n) d' o.
Proof.
  intros Hs Hst Hn Hl. destruct d as [s r c8 c16 sm ok ov]. simpl in Hs. subst s.
  rewrite sumd_bytes_cons. unfold sumd_decode at 1. cbn [sumd_state]. rewrite Z.eqb_refl.
  rewrite sumd_bytes_cons. unfold sumd_decode at 1. cbn [sumd_state].
  assert (Hid : (status =? SUMD_ID_SUMD) || (status =? SUMD_ID_FAILSAFE) || (status =? SUMD_ID_SUMH) = true
                /\ (status =? SUMD_ID_SUMH) = false) by (by destruct Hst as [-> | ->]).
  destruct Hid as [-> ->]. rewrite sumd_bytes_cons. destruct l as [|b l]; [done|].
  unfold sumd_decode at 1, accumulate. cbn [sumd_state is_sumd goto sumd_rxlen sumd_crc8_acc sumd_crc16_acc crc_ok sumd_overrun].
  rewrite (proj2 (Z.leb_le 2 n)), (proj2 (Z.leb_le n _)) by lia. cbn [andb].
  eexists. split; [|reflexivity]. by split_and!.
Qed.

Lemma sumd_data_byte max n k crc over b bf d o :
  receiving n k crc over d -> aget bf HOTT_LENGTH = n -> 0 <= k < 2 * n -> n <= SUMD_MAX_CHANNELS ->
  exists d',
    sumd_decode b max bf d o = (1, aset bf (HOTT_DATA + (1 + k)) b, d', o)
    /\ (k + 1 < 2 * n -> receiving n (k + 1) (sumd_crc16 crc b) (over || (SUMD_MAX_CHANNELS * 2 <=? 1 + k)) d')
    /\ (k + 1 = 2 * n -> received (sumd_crc16 crc b) (over || (SUMD_MAX_CHANNELS * 2 <=? 1 + k)) d').
Proof.
  intros (H1 & H2 & H3 & H4 & H5 & H6) Hb Hk Hn. unfold sumd_decode. rewrite H1, H2. cbv zeta.
  rewrite aget_aset_ne by (unfold HOTT_DATA, HOTT_LENGTH; lia). rewrite Hb.
  unfold incr_rxlen, accumulate, mark_overrun. cbn [is_sumd]. rewrite H4.
  cbn [is_sumd sumd_rxlen sumd_state sumd_crc8_acc sumd_crc16_acc crc_ok sumd_overrun]. rewrite H2, H3, H5, H6.
  unfold SUMD_MAX_CHANNELS in *.
  assert (Hu : u8 (1 + k + 1) = 1 + k + 1) by (unfold u8; rewrite Z.mod_small; lia). rewrite Hu.
  eexists. split; [reflexivity|]. split.
  - intros H. rewrite (proj2 (Z.leb_le (1 + k + 1) (n * 2))) by lia. split_and!; simpl; lia || done.
  - intros H. rewrite (proj2 (Z.leb_gt (1 + k + 1) (n * 2))) by lia. by split_and!.
Qed.

Lemma sumd_data max n rest l : forall k crc over bf d o,
  receiving n k crc over d -> aget bf HOTT_LENGTH = n -> 0 <= k -> n <= SUMD_MAX_CHANNELS ->
  k + Z.of_nat (length l) = 2 * n -> l <> [] -> rest <> [] ->
  exists d', sumd_bytes max (l ++ rest) bf d o = sumd_bytes max rest (blit (HOTT_DATA + (1 + k)) l bf) d' o
    /\ received (fold_left sumd_crc16 l crc) (over || (SUMD_MAX_CHANNELS <=? n)) d'.
Proof.
  induction l as [|b l IH]; [done|]. intros k crc over bf d o Hd Hb Hk Hn Hl _ Hrest. cbn [length] in Hl.
  destruct (sumd_data_byte max n k crc over b bf d o Hd Hb ltac:(lia) Hn) as (d' & E & Hmid & Hend).
  change ((b :: l) ++ rest) with (b :: (l ++ rest)).
  assert (Hne : l ++ rest <> []) by (intros H; apply app_nil in H as [_ H]; done).
  rewrite (sumd_bytes_step _ _ _ _ _ _ _ _ _ _ E Hne).
  change (blit (HOTT_DATA + (1 + k)) (b :: l) bf) with (blit (HOTT_DATA + (1 + k) + 1) l (aset bf (HOTT_DATA + (1 + k)) b)).
  change (fold_left sumd_crc16 (b :: l) crc) with (fold_left sumd_crc16 l (sumd_crc16 crc b)).
  set (bf1 := aset bf (HOTT_DATA + (1 + k)) b) in *. set (crc1 := sumd_crc16 crc b) in *.
  assert (Hb1 : aget bf1 HOTT_LENGTH = n)
    by (subst bf1; rewrite aget_aset_ne by (unfold HOTT_DATA, HOTT_LENGTH; lia); done).
  clearbody bf1 crc1. clear E.
  destruct l as [|b' l].
  - cbn [length] in Hl. destruct (Hend ltac:(lia)) as (? & ? & ? & ? & Ho).
    exists d'. split; [reflexivity|]. split_and!; try assumption. rewrite Ho. f_equal. unfold SUMD_MAX_CHANNELS in *.
    destruct (Z.leb_spec (32 * 2) (1 + k)), (Z.leb_spec 32 n); try done; lia.
  - cbn [length] in Hl. specialize (Hmid ltac:(lia)).
    destruct (IH (k + 1) _ _ bf1 d' o Hmid Hb1) as (d2 & E2 & Hr2); [lia | lia | cbn [length]; lia | done | done |].
    exists d2. rewrite E2. split.
    + do 2 f_equal; lia.
    + destruct Hr2 as (? & ? & ? & ? & Ho). split_and!; try assumption. rewrite Ho.
      rewrite <- orb_assoc. f_equal. unfold SUMD_MAX_CHANNELS in *.
      rewrite (proj2 (Z.leb_gt (32 * 2) (1 + k))) by lia. done.
Qed.

Lemma sumd_rest_get m : forall i bf chs j,
  0 <= i -> 0 <= j -> i + Z.of_nat m <= Z.of_nat (length chs) ->
  aget (sumd_rest m i bf chs) j = if decide (i <= j < i + Z.of_nat m) then sumd_channel bf j else aget chs j.
Proof.
  induction m as [|m IH]; intros i bf chs j Hi Hj Hl; cbn [sumd_rest].
  - by rewrite decide_False by lia.
  - rewrite IH by (rewrite ?length_aset; lia). destruct (decide (j = i)) as [->|].
    + rewrite decide_False by lia. rewrite decide_True by lia. rewrite aget_aset_eq by lia. done.
    + destruct (decide (i + 1 <= j < i + 1 + Z.of_nat m)).
      * by rewrite decide_True by lia.
      * rewrite decide_False by lia. apply aget_aset_ne; lia.
Qed.

(** Where channel [i] of the packet goes: roll, pitch and throttle are
    reordered. *)
Definition channel_place (i : Z) : Z :=
  if i =? 0 then 2 else if i =? 1 then 0 else if i =? 2 then 1 else i.

#[local] Transparent sumd_crc16.
Lemma crc16_range l b : 0 <= crc16_of (l ++ [b]) < 65536.
Proof. unfold crc16_of. rewrite fold_left_app. cbn [fold_left]. unfold sumd_crc16. cbn [Nat.iter nat_rect]. apply u16_range. Qed.
#[local] Opaque sumd_crc16.

Lemma sumd_end max crc over bf d o :
  received crc over d -> 0 <= crc < 65536 -> (71 <= length bf)%nat ->
  let bf' := aset (aset bf HOTT_CRC16_HIGH (Z.shiftr crc 8)) HOTT_CRC16_LOW (Z.land crc 0xff) in
  exists d', sumd_bytes max [Z.shiftr crc 8; Z.land crc 0xff] bf d o
    = (0, (sumd_accept max bf' o).1, d', (sumd_accept max bf' o).2) /\ sumd_overrun d' = over.
Proof.
  intros (H1 & H2 & H3 & H4 & H5) Hc Hl. cbv zeta.
  assert (E1 : sumd_decode (Z.shiftr crc 8) max bf d o
               = (1, aset bf HOTT_CRC16_HIGH (Z.shiftr crc 8), goto SUMD_DECODE_STATE_GOT_CRC d, o))
    by (unfold sumd_decode; by rewrite H1, H3).
  rewrite (sumd_bytes_step _ _ _ _ _ _ _ _ _ _ E1) by done. rewrite sumd_bytes_cons.
  unfold sumd_decode. cbn [sumd_state goto is_sumd sumd_crc16_acc]. rewrite H3. cbv zeta.
  set (bf1 := aset bf HOTT_CRC16_HIGH _). set (bf2 := aset bf1 HOTT_CRC16_LOW _).
  assert (Hhi : aget bf2 HOTT_CRC16_HIGH = Z.shiftr crc 8).
  { subst bf2. rewrite aget_aset_ne by (vm_compute; congruence). subst bf1. apply aget_aset_eq.
    unfold HOTT_CRC16_HIGH, HOTT_DATA, SUMD_MAX_CHANNELS. lia. }
  assert (Hlo : aget bf2 HOTT_CRC16_LOW = Z.land crc 0xff).
  { subst bf2. apply aget_aset_eq. subst bf1. rewrite length_aset.
    unfold HOTT_CRC16_LOW, HOTT_CRC16_HIGH, HOTT_DATA, SUMD_MAX_CHANNELS. lia. }
  rewrite Hhi, Hlo, H2.
  assert (Heq : (crc =? (u16 (Z.shiftl (Z.shiftr crc 8) 8) + Z.land crc 0xff)) = true).
  { apply Z.eqb_eq. rewrite Z.shiftr_div_pow2, Z.shiftl_mul_pow2 by lia. change 0xff with (Z.ones 8).
    rewrite Z.land_ones by lia. change (2 ^ 8) with 256. pose proof (Z.div_mod crc 256 ltac:(lia)).
    pose proof (Z.mod_pos_bound crc 256 ltac:(lia)). unfold u16. rewrite Z.mod_small; lia. }
  rewrite Heq. cbn [crc_ok set_crc_ok]. destruct (sumd_accept max bf2 o) as [bf3 o3].
  eexists. split; [reflexivity | exact H5].
Qed.

(** What an accepted frame delivers: the count, the failsafe flag and the
    channels in their places. *)
Lemma sumd_accept_decodes n bf data o :
  4 <= n <= 18 -> length (sumd_channels o) = 18%nat -> aget bf HOTT_LENGTH = n ->
  (forall j, 0 <= j < 2 * n -> aget bf (HOTT_DATA + (j + 1)) = aget data j) ->
  let o' := (sumd_accept 18 bf o).2 in
  sumd_channel_count o' = n /\ sumd_failsafe o' = (aget bf HOTT_STATUS =? SUMD_ID_FAILSAFE)
  /\ forall i, 0 <= i < n ->
       aget (sumd_channels o') (channel_place i)
       = Z.shiftr (Z.lor (Z.shiftl (aget data (2 * i)) 8) (aget data (2 * i + 1))) 3.
Proof.
  intros Hn Hch Hlen Hd. unfold sumd_accept. rewrite Hlen, (proj2 (Z.ltb_ge 18 n)) by lia. rewrite Hlen.
  cbn [fst snd sumd_channel_count sumd_failsafe sumd_channels]. split_and!; try done. intros i Hi.
  assert (Hsc : sumd_channel bf i = Z.shiftr (Z.lor (Z.shiftl (aget data (2 * i)) 8) (aget data (2 * i + 1))) 3).
  { unfold sumd_channel. replace (i * 2 + 1) with (2 * i + 1) by lia.
    replace (i * 2 + 2) with (2 * i + 1 + 1) by lia. by rewrite !Hd by lia. }
  rewrite <- Hsc, sumd_rest_get; [|lia | unfold channel_place; repeat case_match; lia | rewrite !length_aset; lia].
  unfold channel_place.
  destruct (Z.eqb_spec i 0) as [->|]; [|destruct (Z.eqb_spec i 1) as [->|]; [|destruct (Z.eqb_spec i 2) as [->|]]].
  1-3: rewrite decide_False by lia; rewrite !aget_aset_ne by lia; apply aget_aset_eq; rewrite ?length_aset; lia.
  destruct (decide (i = 3)) as [->|].
  - rewrite decide_False by lia. apply aget_aset_eq. rewrite ?length_aset. lia.
  - by rewrite decide_True by lia.
Qed.

(** An intact SUMD packet is decoded.  From a decoder waiting for a header,
    the bytes of a packet of 4 to 18 channels, received without interruption,
    give a success that reports the number of channels, the failsafe flag of the
    status byte, and for every channel its 13-bit value, the first three
    reordered; nothing is stored past the end of the packet. *)
Theorem sumd_packet_decoded (status n : Z) (data bf : list Z) (d : sumd) (o : sumd_out) :
  sumd_state d = SUMD_DECODE_STATE_UNSYNCED -> status = SUMD_ID_SUMD \/ status = SUMD_ID_FAILSAFE ->
  4 <= n <= 18 -> Z.of_nat (length data) = 2 * n -> length bf = 71%nat -> length (sumd_channels o) = 18%nat ->
  let '(ret, _, d', o') := sumd_bytes 18 (sumd_packet status n data) bf d o in
  ret = 0 /\ sumd_channel_count o' = n /\ sumd_failsafe o' = (status =? SUMD_ID_FAILSAFE)
  /\ sumd_overrun d' = sumd_overrun d
  /\ forall i, 0 <= i < n ->
       aget (sumd_channels o') (channel_place i)
       = Z.shiftr (Z.lor (Z.shiftl (aget data (2 * i)) 8) (aget data (2 * i + 1))) 3.
Proof.
  intros Hs Hst Hn Hdata Hbf Hch. unfold sumd_packet.
  pose proof (crc16_of_app [SUMD_HEADER_ID; status; n] data) as Happ. cbn [app] in Happ.
  set (crc := crc16_of (SUMD_HEADER_ID :: status :: n :: data)) in *. assert (Hcrc : 0 <= crc < 65536).
  { subst crc. clear Happ. destruct (exists_last (l := data)) as (l & b & ->); [intros ->; simpl in Hdata; lia|].
    apply (crc16_range (SUMD_HEADER_ID :: status :: n :: l)). }
  assert (Hne : data <> []) by (intros ->; simpl in Hdata; lia).
  destruct (sumd_header 18 status n (data ++ [Z.shiftr crc 8; Z.land crc 0xff]) bf d o Hs Hst) as (d1 & Hd1 & E1);
    [unfold SUMD_MAX_CHANNELS; lia | by destruct data|].
  change ((SUMD_HEADER_ID :: status :: n :: data) ++ _)
    with (SUMD_HEADER_ID :: status :: n :: data ++ [Z.shiftr crc 8; Z.land crc 0xff]).
  rewrite E1. set (bf1 := aset (aset (aset bf _ _) _ _) _ _).
  assert (Hl1 : length bf1 = 71%nat) by (subst bf1; by rewrite !length_aset).
  assert (Hg1 : aget bf1 HOTT_LENGTH = n /\ aget bf1 HOTT_STATUS = status).
  { subst bf1. unfold HOTT_LENGTH, HOTT_STATUS, HOTT_HEADER. split.
    - apply aget_aset_eq. rewrite !length_aset. lia.
    - rewrite aget_aset_ne by lia. apply aget_aset_eq. rewrite !length_aset. lia. }
  clearbody bf1. destruct Hg1 as [Hg1 Hg2].
  destruct (sumd_data 18 n [Z.shiftr crc 8; Z.land crc 0xff] data 0 _ _ bf1 d1 o Hd1 Hg1) as (d2 & E2 & Hd2);
    [lia | unfold SUMD_MAX_CHANNELS; lia | lia | done | done |].
  rewrite E2. assert (Hc : received crc (sumd_overrun d || (SUMD_MAX_CHANNELS <=? n)) d2).
  { rewrite Happ. exact Hd2. }
  set (bf2 := blit (HOTT_DATA + (1 + 0)) data bf1).
  assert (Hl2 : length bf2 = 71%nat) by (subst bf2; by rewrite length_blit).
  destruct (sumd_end 18 crc _ bf2 d2 o Hc Hcrc) as (d3 & E3 & Ho3); [lia|]. rewrite E3. clear E1 E2 E3 Hd1 Hd2.
  set (bf3 := aset (aset bf2 _ _) _ _).
  assert (Hget : forall j, 0 <= j < 67 -> aget bf3 j = aget bf2 j).
  { intros j Hj. subst bf3. rewrite !aget_aset_ne; try done;
      unfold HOTT_CRC16_LOW, HOTT_CRC16_HIGH, HOTT_DATA, SUMD_MAX_CHANNELS; lia. }
  assert (Hd : forall j, 0 <= j < 2 * n -> aget bf3 (HOTT_DATA + (j + 1)) = aget data j).
  { intros j Hj. rewrite Hget by (unfold HOTT_DATA; lia). subst bf2. unfold HOTT_DATA.
    rewrite blit_at by lia. f_equal. lia. }
  assert (Hlen : aget bf3 HOTT_LENGTH = n /\ aget bf3 HOTT_STATUS = status).
  { unfold HOTT_LENGTH, HOTT_STATUS in *. rewrite !Hget by lia. subst bf2. unfold HOTT_DATA.
    by rewrite !blit_before by lia. }
  clearbody bf3. destruct Hlen as [Hlen Hstat].
  destruct (sumd_accept_decodes n bf3 data o Hn Hch Hlen Hd) as (R1 & R2 & R3).
  split_and!; try done; [by rewrite R2, Hstat|].
  rewrite Ho3. unfold SUMD_MAX_CHANNELS. rewrite (proj2 (Z.leb_gt 32 n)) by lia. apply orb_false_r.
Qed.

(** The packet of 20 bytes of channel data used as an example. *)
Definition example_packet : list Z :=
  sumd_packet SUMD_ID_SUMD 4 [0x2e; 0xe0; 0x3e; 0x80; 0x1f; 0x40; 0x2e; 0xe0].

Lemma sumd_packet_decoded_witness :
  4 <= 4 <= 18
  /\ aget (sumd_channels (sumd_bytes 18 example_packet rc_decode_buf_init sumd_init
                            (Sumd_out 0 0 0 (replicate 18 0) false)).2) 2 = 1500.
Proof.
  split; [lia|].
  pose proof (sumd_packet_decoded SUMD_ID_SUMD 4 [0x2e; 0xe0; 0x3e; 0x80; 0x1f; 0x40; 0x2e; 0xe0]
                rc_decode_buf_init sumd_init (Sumd_out 0 0 0 (replicate 18 0) false) eq_refl
                (or_introl eq_refl) ltac:(lia) eq_refl eq_refl eq_refl) as H.
  change (sumd_packet SUMD_ID_SUMD 4 _) with example_packet in H.
  destruct (sumd_bytes 18 example_packet _ _ _) as [[[r bf] d] o]. destruct H as (_ & _ & _ & _ & H).
  specialize (H 0 ltac:(lia)). exact H.
Defined.
