(* ===== verification/Dsm.v ===== *)
(** The Spektrum DSM receiver protocol (src/lib/rc/dsm.cpp): 16-byte frames
    found by the gaps between them, the guess of the 10- or 11-bit format, and
    the channels.

    The frame and the bytes of the last read live in the memory the decoders
    share.  What the UART's read returns and the clock are arguments. *)

From Stdlib Require Import ZArith Lia SpecFloat.
From stdpp Require Import base list numbers.
From S2P Require Import Prelude Float32 RcBuffer.

Local Open Scope Z_scope.

Definition DSM_FRAME_SIZE : Z := 16.
Definition DSM_FRAME_CHANNELS : Z := 7.
Definition DSM_MAX_CHANNEL_COUNT : Z := 18.
Definition DSM_BUFFER_SIZE : Z := DSM_FRAME_SIZE + DSM_FRAME_SIZE / 2.

(** [dsm_decode_t] in the union: the frame, then the bytes read. *)
Definition DSM_BUF : Z := DSM_BUFFER_SIZE.
Definition DSM_BUF_SIZE : Z := DSM_FRAME_SIZE * 2.

Inductive DSM_DECODE_STATE := DSM_DECODE_STATE_DESYNC | DSM_DECODE_STATE_SYNC.

Record dsm := Dsm {
  dsm_decode_state : DSM_DECODE_STATE;
  dsm_last_rx_time : Z;
  dsm_last_frame_time : Z;
  dsm_chan_buf : list Z;
  dsm_partial_frame_count : Z;
  dsm_channel_shift : Z;
  dsm_frame_drops : Z;
  dsm_chan_count : Z;
  dsm_chan_count_prev : Z;
  cs10 : Z;
  cs11 : Z;
  samples : Z
}.

Definition set_sync (st : DSM_DECODE_STATE) (n : Z) (d : dsm) : dsm :=
  Dsm st (dsm_last_rx_time d) (dsm_last_frame_time d) (dsm_chan_buf d) n (dsm_channel_shift d)
    (dsm_frame_drops d) (dsm_chan_count d) (dsm_chan_count_prev d) (cs10 d) (cs11 d) (samples d).
Definition set_rx_time (t : Z) (d : dsm) : dsm :=
  Dsm (dsm_decode_state d) t (dsm_last_frame_time d) (dsm_chan_buf d) (dsm_partial_frame_count d) (dsm_channel_shift d)
    (dsm_frame_drops d) (dsm_chan_count d) (dsm_chan_count_prev d) (cs10 d) (cs11 d) (samples d).
Definition set_frame_time (t : Z) (d : dsm) : dsm :=
  Dsm (dsm_decode_state d) (dsm_last_rx_time d) t (dsm_chan_buf d) (dsm_partial_frame_count d) (dsm_channel_shift d)
    (dsm_frame_drops d) (dsm_chan_count d) (dsm_chan_count_prev d) (cs10 d) (cs11 d) (samples d).
Definition set_chans (chs : list Z) (n : Z) (d : dsm) : dsm :=
  Dsm (dsm_decode_state d) (dsm_last_rx_time d) (dsm_last_frame_time d) chs (dsm_partial_frame_count d) (dsm_channel_shift d)
    (dsm_frame_drops d) n (dsm_chan_count_prev d) (cs10 d) (cs11 d) (samples d).
Definition set_prev (n : Z) (d : dsm) : dsm :=
  Dsm (dsm_decode_state d) (dsm_last_rx_time d) (dsm_last_frame_time d) (dsm_chan_buf d) (dsm_partial_frame_count d) (dsm_channel_shift d)
    (dsm_frame_drops d) (dsm_chan_count d) n (cs10 d) (cs11 d) (samples d).
Definition set_guess (shift c10 c11 n : Z) (d : dsm) : dsm :=
  Dsm (dsm_decode_state d) (dsm_last_rx_time d) (dsm_last_frame_time d) (dsm_chan_buf d) (dsm_partial_frame_count d) shift
    (dsm_frame_drops d) (dsm_chan_count d) (dsm_chan_count_prev d) c10 c11 n.
Definition count_drop (d : dsm) : dsm :=
  Dsm (dsm_decode_state d) (dsm_last_rx_time d) (dsm_last_frame_time d) (dsm_chan_buf d) (dsm_partial_frame_count d) (dsm_channel_shift d)
    (u32 (dsm_frame_drops d + 1)) (dsm_chan_count d) (dsm_chan_count_prev d) (cs10 d) (cs11 d) (samples d).

(** [dsm_proto_init] over the static initial values. *)
Definition dsm_proto_init : dsm :=
  Dsm DSM_DECODE_STATE_DESYNC 0 0 (replicate (Z.to_nat DSM_MAX_CHANNEL_COUNT) 0) 0 0 0 0 0 0 0 0.

(** The range check shared by the two formats. *)
Definition in_range (channel value : Z) : option (Z * Z) :=
  if (value <? 903) || (2097 <? value) then None else Some (channel, value).

(** [dsm_decode_channel]: channel and value, [None] where it returns false.
    [2 >> 15] is 0. *)
Definition dsm_decode_channel (raw shift : Z) : option (Z * Z) :=
  if (raw =? 0) || (raw =? 0xffff) then None
  else if shift =? 10 then
    let channel := Z.shiftr (Z.land raw 0xFC00) 10 in
    let servo_position := Z.land raw 0x03FF in
    if DSM_MAX_CHANNEL_COUNT <? channel then None
    else in_range channel (u16 (f_trunc (fadd (f_of_Z (f_round (fmul (f_of_Z servo_position) (f_dec 1166 1000)))) (f_of_Z 903))))
  else if shift =? 11 then
    let phase := negb (Z.land raw (Z.shiftr 2 15) =? 0) in
    let chan := Z.land (Z.shiftr raw 11) 0x0F in
    let value := fun pos =>
      u16 (f_trunc (fadd (f_of_Z (f_round (fmul (f_of_Z pos) (f_dec 583 1000)))) (f_of_Z 903))) in
    if chan <? 12 then in_range chan (value (Z.land raw 0x07FF))
    else if chan =? 12 then
      let chan := chan + Z.land (Z.shiftr raw 9) 0x03 in
      let chan := if phase then chan + 4 else chan in
      if DSM_MAX_CHANNEL_COUNT <? chan then None
      else in_range chan (value (Z.shiftl (Z.land raw 0x01FF) 2))
    else None
  else None.

(** The seven raw values of a frame. *)
Definition raw_values (bf : list Z) : list Z :=
  (fun i => Z.lor (Z.shiftl (aget bf (2 + 2 * i)) 8) (aget bf (2 + 2 * i + 1))) <$> seqZ 0 DSM_FRAME_CHANNELS.

(** Channels found in one format: [None] once one is found twice. *)
Definition found (shift : Z) (raws : list Z) : option (list Z) :=
  fold_left (fun acc raw =>
    match dsm_decode_channel raw shift with
    | None => acc
    | Some (channel, _) =>
        match acc with
        | None => None
        | Some l => if bool_decide (channel ∈ l) then None else Some (channel :: l)
        end
    end) raws (Some []).

(** [for (channel = 0; channel < DSM_FRAME_CHANNELS; channel++) ...] *)
Definition add_found (cs : Z) (l : option (list Z)) : Z :=
  match l with
  | None => cs
  | Some l => fold_left (fun cs c => if bool_decide (c ∈ l) then Z.lor cs (Z.shiftl 1 c) else cs)
                (seqZ 0 DSM_FRAME_CHANNELS) cs
  end.

Definition masks : list Z := [0x3f; 0x7f; 0xff; 0x1ff; 0x3ff; 0x1fff; 0xffff; 0x3ffff].
Definition votes (cs : Z) : Z := Z.of_nat (length (filter (fun m => m = cs) masks)).

Definition guess_reset (d : dsm) : dsm := set_guess 0 0 0 0 d.

(** [dsm_guess_format(false)] *)
Definition dsm_guess_format (bf : list Z) (d : dsm) : bool * dsm :=
  let raws := raw_values bf in
  let c10 := add_found (cs10 d) (found 10 raws) in
  let c11 := add_found (cs11 d) (found 11 raws) in
  let n := u32 (samples d + 1) in
  let d := set_guess (dsm_channel_shift d) c10 c11 n d in
  if n <? 10 then (false, d)
  else if (votes c11 =? 1) && (votes c10 =? 0) then (true, set_guess 11 c10 c11 n d)
  else if (votes c10 =? 1) && (votes c11 =? 0) then (true, set_guess 10 c10 c11 n d)
  else (false, guess_reset d).

(** spektrum_rssi.h *)
Definition lu_dbm_percent : list Z :=
  replicate 43 100 ++ [99; 98; 98; 97; 96;
  95; 94; 93; 92; 91; 90; 89; 88; 87; 86; 85; 84; 83; 82; 81; 79;
  78; 77; 75; 74; 73; 71; 70; 68; 66; 65; 63; 61; 59; 57; 55; 52;
  50; 47; 45; 42; 39; 35; 32; 28; 24; 19; 13; 7] ++ replicate 37 0.
Definition spek_dbm_to_percent (dbm : Z) : Z := aget lu_dbm_percent (Z.abs dbm).

Definition s8 (z : Z) : Z := (z + 128) `mod` 256 - 128.

Definition frame_rssi (bf : list Z) : Z :=
  let dbm := s8 (aget bf 0) in
  if dbm <? 0 then if dbm =? -128 then 0 else spek_dbm_to_percent dbm else 127.

(** The first four channels are thrust, roll, pitch and yaw. *)
Definition dsm_place (channel : Z) : Z :=
  if channel =? 0 then 2 else if channel =? 1 then 0 else if channel =? 2 then 1 else channel.

(** The loop over the channels of a frame, with the channels found so far and
    the failures; false where [dsm_decode] returns false. *)
Fixpoint dsm_channels (raws : list Z) (max_values : Z) (seen : list Z) (failures : Z) (d : dsm) : bool * dsm :=
  match raws with
  | [] => (true, d)
  | raw :: raws =>
      if (raw =? 0) || (raw =? 0xffff) then dsm_channels raws max_values seen failures d
      else
        match dsm_decode_channel raw (dsm_channel_shift d) with
        | None => dsm_channels raws max_values seen (failures + 1) d
        | Some (channel, value) =>
            if 4 <=? failures then (false, d)
            else if bool_decide (channel ∈ seen) then (false, guess_reset d)
            else if DSM_MAX_CHANNEL_COUNT <? channel then (false, guess_reset d)
            else if max_values <=? channel then dsm_channels raws max_values (channel :: seen) failures d
            else
              let n := if dsm_chan_count d <=? channel then channel + 1 else dsm_chan_count d in
              dsm_channels raws max_values (channel :: seen) failures
                (set_chans (aset (dsm_chan_buf d) (dsm_place channel) value) n d)
        end
  end.

(** What a decode reports besides the channels: the format and the RSSI. *)
Record dsm_out := Dsm_out { dsm_11_bit : bool; rssi_percent : Z }.

Definition dsm_decode (frame_time max_values : Z) (bf : list Z) (d : dsm) (o : dsm_out) : bool * dsm * dsm_out :=
  let d := if (1000000 <? u64 (frame_time - dsm_last_frame_time d)) && negb (dsm_channel_shift d =? 0)
           then guess_reset d else d in
  let '(known, d) := if dsm_channel_shift d =? 0 then dsm_guess_format bf d else (true, d) in
  if negb known then (false, d, o)
  else
    let o := Dsm_out (dsm_11_bit o) (frame_rssi bf) in
    let '(ok, d) := dsm_channels (raw_values bf) max_values [] 0 d in
    if negb ok then (false, d, o)
    else
      let o := Dsm_out (dsm_channel_shift d =? 11) (rssi_percent o) in
      let d := set_frame_time frame_time d in
      if forallb (fun v => (903 <=? v) && (v <=? 2097)) (take (Z.to_nat (dsm_chan_count d)) (dsm_chan_buf d))
      then (true, d, o)
      else (false, set_chans (dsm_chan_buf d) 0 d, o).

(** The loop of [dsm_parse]: the shared buffer, the decoder, the report and
    [decode_ret]. *)
Record dparse := Dparse { dbuf : list Z; ddec : dsm; dout : dsm_out; dret : bool }.

Definition dresync (d : dsm) : dsm := set_sync DSM_DECODE_STATE_DESYNC 0 d.

Definition dsm_byte (now max_channels : Z) (p : dparse) (b : Z) : dparse :=
  let d := if dsm_partial_frame_count (ddec p) =? DSM_BUFFER_SIZE then dresync (ddec p) else ddec p in
  let d := if dsm_partial_frame_count d =? DSM_FRAME_SIZE then dresync d else d in
  match dsm_decode_state d with
  | DSM_DECODE_STATE_DESYNC =>
      if 5000 <? u64 (now - dsm_last_rx_time d)
      then Dparse (aset (dbuf p) 0 b)
             (set_sync DSM_DECODE_STATE_SYNC 1 (set_chans (dsm_chan_buf d) 0 d)) (dout p) (dret p)
      else Dparse (dbuf p) d (dout p) (dret p)
  | DSM_DECODE_STATE_SYNC =>
      let n := dsm_partial_frame_count d in
      let bf := aset (dbuf p) n b in
      let d := set_sync DSM_DECODE_STATE_SYNC (n + 1) d in
      if n + 1 <? DSM_FRAME_SIZE then Dparse bf d (dout p) (dret p)
      else
        let '(r, d, o) := dsm_decode now max_channels bf d (dout p) in
        if r then Dparse bf (set_sync (dsm_decode_state d) 0 d) o true
        else Dparse bf (count_drop (set_sync DSM_DECODE_STATE_DESYNC 0 d)) o false
  end.

(** The result: updated, the values and their number, as the caller sees
    them. *)
Definition dsm_parse (now max_channels : Z) (bytes bf : list Z) (d : dsm) (o : dsm_out) (values : list Z) (num_values : Z)
    : bool * list Z * Z * dparse :=
  let max_channels := if DSM_MAX_CHANNEL_COUNT <? max_channels then DSM_MAX_CHANNEL_COUNT else max_channels in
  let p := fold_left (dsm_byte now max_channels) bytes (Dparse bf d o false) in
  let d := ddec p in
  let finish := fun d => set_rx_time now d in
  if dret p then
    let stable := (0 <? dsm_chan_count d) && (dsm_chan_count d <=? DSM_MAX_CHANNEL_COUNT)
                  && (dsm_chan_count d =? dsm_chan_count_prev d) in
    let d' := finish (set_prev (dsm_chan_count d) d) in
    if stable
    then (true, blit 0 (take (Z.to_nat (dsm_chan_count d)) (dsm_chan_buf d)) values, dsm_chan_count d,
          Dparse (dbuf p) d' (dout p) true)
    else (false, values, num_values, Dparse (dbuf p) d' (dout p) false)
  else (false, values, num_values, Dparse (dbuf p) (finish d) (dout p) false).

(** [dsm_input]: the bytes of the read (at most [DSM_BUF_SIZE]) are stored in
    the shared buffer first.  The caller's [frame_drops] is not written. *)
Definition dsm_input (now max_values : Z) (read_bytes bf : list Z) (d : dsm) (o : dsm_out) (values : list Z) (num_values : Z)
    : bool * list Z * Z * dparse :=
  match read_bytes with
  | [] => (false, values, num_values, Dparse bf d o false)
  | _ => dsm_parse now max_values read_bytes (blit DSM_BUF read_bytes bf) d o values num_values
  end.

Lemma lu_dbm_percent_size : length lu_dbm_percent = 129%nat /\ spek_dbm_to_percent (-80) = 50
  /\ spek_dbm_to_percent (-92) = 0 /\ spek_dbm_to_percent (-42) = 100.
Proof. vm_compute. done. Qed.

(** * The channels *)

(** A decoded channel: the value is in the receiver's range, and the channel
    number is below 16 in the 11-bit format. *)
Lemma in_range_spec channel value c v :
  in_range channel value = Some (c, v) -> c = channel /\ v = value /\ 903 <= v <= 2097.
Proof.
  unfold in_range. destruct (Z.ltb_spec value 903), (Z.ltb_spec 2097 value); cbn [orb]; intros H1; simplify_eq; lia.
Qed.

Lemma decode_channel_range raw shift c v :
  dsm_decode_channel raw shift = Some (c, v) -> 903 <= v <= 2097 /\ 0 <= c <= DSM_MAX_CHANNEL_COUNT.
Proof.
  intros H. unfold dsm_decode_channel in H. destruct (_ || _); [done|].
  assert (Hand : forall x m, 0 <= m -> 0 <= Z.land x m) by (intros; apply Z.land_nonneg; lia).
  destruct (shift =? 10).
  - destruct (Z.ltb_spec DSM_MAX_CHANNEL_COUNT (Z.shiftr (Z.land raw 0xFC00) 10)); [done|].
    apply in_range_spec in H as (-> & _ & ?). split; [done|]. split; [|done].
    apply Z.shiftr_nonneg, Hand. lia.
  - destruct (shift =? 11); [|done].
    set (chan := Z.land (Z.shiftr raw 11) 0x0F) in *.
    assert (0 <= chan) by (apply Hand; lia). clearbody chan. cbv zeta in H.
    destruct (Z.ltb_spec chan 12).
    { apply in_range_spec in H as (-> & _ & ?). unfold DSM_MAX_CHANNEL_COUNT. lia. }
    destruct (chan =? 12); [|done].
    match type of H with (if ?b then _ else in_range ?x _) = _ => destruct (Z.ltb_spec DSM_MAX_CHANNEL_COUNT x) end; [done|].
    apply in_range_spec in H as (-> & _ & ?). split; [done|]. split; [|done].
    pose proof (Hand (Z.shiftr raw 9) 3 ltac:(lia)). case_match; lia.
Qed.

(** The phase bit of an extended (X-Plus) channel is never seen: its mask is
    computed as [2 >> 15], which is 0.  In the 11-bit format no raw value at all
    decodes to a channel above 15, so the channels 16 and up that the phase bit
    selects are stored as channels 12 to 15. *)
Theorem xplus_phase_ignored (raw c v : Z) : dsm_decode_channel raw 11 = Some (c, v) -> 0 <= c <= 15.
Proof.
  intros H. unfold dsm_decode_channel in H. destruct (_ || _); [done|].
  change (11 =? 10) with false in H. change (11 =? 11) with true in H. cbv iota zeta in H.
  change (Z.shiftr 2 15) with 0 in H. rewrite Z.land_0_r in H. change (negb (0 =? 0)) with false in H.
  cbv iota in H. assert (Hchan : 0 <= Z.land (Z.shiftr raw 11) 0x0F) by (apply Z.land_nonneg; lia).
  set (chan := Z.land (Z.shiftr raw 11) 0x0F) in *. clearbody chan.
  destruct (Z.ltb_spec chan 12); [apply in_range_spec in H as (-> & _); lia|].
  destruct (Z.eqb_spec chan 12) as [E|]; [|done]. rewrite E in H.
  destruct (DSM_MAX_CHANNEL_COUNT <? _); [done|]. apply in_range_spec in H as (-> & _).
  change 0x03 with (Z.ones 2). rewrite Z.land_ones by lia. pose proof (Z.mod_pos_bound (Z.shiftr raw 9) (2 ^ 2)). lia.
Qed.

(** The same raw value with and without the phase bit. *)
Lemma xplus_phase_ignored_witness :
  dsm_decode_channel 0xE100 11 = Some (12, 1500) /\ dsm_decode_channel 0x6100 11 = Some (12, 1500)
  /\ 0 <= 12 <= 15.
Proof.
  assert (H : dsm_decode_channel 0xE100 11 = Some (12, 1500)) by (vm_compute; reflexivity).
  split; [exact H|]. split; [vm_compute; reflexivity | exact (xplus_phase_ignored _ _ _ H)].
Defined.

(** * A frame that is accepted *)

Definition dsm_ok (d : dsm) : Prop :=
  length (dsm_chan_buf d) = Z.to_nat DSM_MAX_CHANNEL_COUNT
  /\ 0 <= dsm_chan_count d <= DSM_MAX_CHANNEL_COUNT
  /\ 0 <= dsm_partial_frame_count d <= DSM_FRAME_SIZE.

Lemma guess_reset_ok d :
  dsm_ok d -> dsm_ok (guess_reset d) /\ dsm_decode_state (guess_reset d) = dsm_decode_state d.
Proof. intros H. split; [exact H | reflexivity]. Qed.

Lemma dsm_channels_ok raws max : forall seen failures d,
  max <= DSM_MAX_CHANNEL_COUNT -> dsm_ok d ->
  let '(_, d') := dsm_channels raws max seen failures d in
  dsm_ok d' /\ dsm_decode_state d' = dsm_decode_state d.
Proof.
  induction raws as [|raw raws IH]; intros seen failures d Hm Hd; cbn [dsm_channels]; [done|].
  destruct (_ || _); [by apply IH|].
  destruct (dsm_decode_channel raw _) as [[c v]|] eqn:E; [|by apply IH].
  apply decode_channel_range in E as [_ Hc].
  destruct (4 <=? failures); [done|]. destruct (bool_decide _); [by apply guess_reset_ok|].
  destruct (_ <? c); [by apply guess_reset_ok|].
  destruct (Z.leb_spec max c); [by apply IH|]. cbv zeta.
  set (d1 := set_chans _ _ d).
  assert (Hd1 : dsm_ok d1 /\ dsm_decode_state d1 = dsm_decode_state d).
  { destruct Hd as (H1 & H2 & H3). subst d1. split; [|done]. split; [by simpl; rewrite length_aset|].
    split; [|done]. cbn [dsm_chan_count set_chans]. destruct (_ <=? c); lia. }
  clearbody d1. destruct Hd1 as [Hd1 Ep].
  specialize (IH (c :: seen) failures d1 Hm Hd1). destruct (dsm_channels _ _ _ _ _) as [r d2].
  by rewrite <- Ep.
Qed.

(** The decoded values of a state that reported success. *)
Definition values_ok (d : dsm) : Prop :=
  Forall (fun v => 903 <= v <= 2097) (take (Z.to_nat (dsm_chan_count d)) (dsm_chan_buf d)).

Lemma guess_ok bf d :
  dsm_ok d -> let '(_, d') := dsm_guess_format bf d in
  dsm_ok d' /\ dsm_decode_state d' = dsm_decode_state d.
Proof. intros H. unfold dsm_guess_format. cbv zeta. repeat case_match; simplify_eq; (split; [exact H | reflexivity]). Qed.

Lemma dsm_decode_ok t max bf d o :
  max <= DSM_MAX_CHANNEL_COUNT -> dsm_ok d ->
  let '(r, d', _) := dsm_decode t max bf d o in
  dsm_ok d' /\ dsm_decode_state d' = dsm_decode_state d /\ (r = true -> values_ok d').
Proof.
  intros Hm Hd. unfold dsm_decode. cbv zeta.
  set (d1 := if _ && _ then guess_reset d else d).
  assert (Hd1 : dsm_ok d1 /\ dsm_decode_state d1 = dsm_decode_state d)
    by (subst d1; case_match; split; try exact Hd; done).
  clearbody d1. destruct Hd1 as [Hd1 <-]. pose proof (guess_ok bf d1 Hd1) as Hg.
  destruct (if dsm_channel_shift d1 =? 0 then _ else _) as [known d2] eqn:E2.
  assert (Hd2 : dsm_ok d2 /\ dsm_decode_state d2 = dsm_decode_state d1).
  { destruct (dsm_channel_shift d1 =? 0); [rewrite E2 in Hg; apply Hg | by simplify_eq]. }
  clear E2 Hg. destruct Hd2 as [Hd2 <-]. destruct (negb known); [done|].
  pose proof (dsm_channels_ok (raw_values bf) max [] 0 d2 Hm Hd2) as Hc.
  destruct (dsm_channels _ _ _ _ _) as [ok d3]. destruct Hc as [Hd3 <-].
  destruct (negb ok); [done|]. destruct (forallb _ _) eqn:Ef.
  - split; [exact Hd3|]. split; [done|]. intros _. unfold values_ok.
    cbn [set_frame_time dsm_chan_count dsm_chan_buf] in *.
    apply Forall_forall. intros v Hv. rewrite forallb_forall in Ef.
    specialize (Ef v). rewrite andb_true_iff, !Z.leb_le in Ef. apply Ef, Hv.
  - split; [|done]. destruct Hd3 as (H1 & H2 & H3). split; [exact H1|]. split; [|exact H3].
    simpl. unfold DSM_MAX_CHANNEL_COUNT. lia.
Qed.

(** The state of the loop: only the frame is written, and a success stands until
    the next frame is complete. *)
Definition loop_ok (bf : list Z) (p : dparse) : Prop :=
  dsm_ok (ddec p) /\ length (dbuf p) = length bf
  /\ (forall j, DSM_FRAME_SIZE <= j -> aget (dbuf p) j = aget bf j)
  /\ (dret p = true -> values_ok (ddec p) /\ dsm_decode_state (ddec p) = DSM_DECODE_STATE_SYNC
                      /\ dsm_partial_frame_count (ddec p) < DSM_FRAME_SIZE).

Lemma loop_store bf p i b d o r :
  loop_ok bf p -> 0 <= i < DSM_FRAME_SIZE -> dsm_ok d ->
  (r = true -> values_ok d /\ dsm_decode_state d = DSM_DECODE_STATE_SYNC
               /\ dsm_partial_frame_count d < DSM_FRAME_SIZE) ->
  loop_ok bf (Dparse (aset (dbuf p) i b) d o r).
Proof.
  intros (_ & Hl & Hb & _) Hi Hd Hr. split_and!; simpl; try done; [by rewrite length_aset|].
  intros j Hj. rewrite aget_aset_ne by lia. by apply Hb.
Qed.

Lemma dsm_byte_ok now max bf p b :
  max <= DSM_MAX_CHANNEL_COUNT -> loop_ok bf p -> loop_ok bf (dsm_byte now max p b).
Proof.
  intros Hm Hp. pose proof Hp as (Hd & Hl & Hb & Hr). unfold dsm_byte. cbv zeta.
  set (d1 := if dsm_partial_frame_count (ddec p) =? DSM_BUFFER_SIZE then _ else ddec p).
  set (d2 := if dsm_partial_frame_count d1 =? DSM_FRAME_SIZE then dresync d1 else d1).
  assert (H2 : dsm_ok d2 /\ dsm_partial_frame_count d2 < DSM_FRAME_SIZE
               /\ (dret p = true -> d2 = ddec p)).
  { destruct Hd as (A & B & C). assert (E1 : d1 = ddec p).
    { subst d1. rewrite (proj2 (Z.eqb_neq _ _)); [done|]. change DSM_BUFFER_SIZE with 24. unfold DSM_FRAME_SIZE in C. lia. }
    subst d2. rewrite E1. destruct (Z.eqb_spec (dsm_partial_frame_count (ddec p)) DSM_FRAME_SIZE) as [E|E].
    - split; [split_and!; try done; simpl; lia|]. split; [done|]. intros H. destruct (Hr H) as (_ & _ & ?). lia.
    - split; [exact (conj A (conj B C))|]. split; [lia | done]. }
  clearbody d2. clear d1. destruct H2 as (H2 & Hn & Heq). pose proof H2 as (A & B & C).
  destruct (dsm_decode_state d2) eqn:Est.
  - assert (Hret : dret p = true -> False).
    { intros H. destruct (Hr H) as (_ & Hs & _). rewrite <- Heq in Hs by done. congruence. }
    case_match.
    + apply (loop_store bf p); [done | done | | by intros ?%Hret].
      split; [exact A|]. split; simpl; unfold DSM_MAX_CHANNEL_COUNT, DSM_FRAME_SIZE; lia.
    + split; [exact H2|]. split; [done|]. split; [done|]. by intros ?%Hret.
  - set (n := dsm_partial_frame_count d2) in *. set (d3 := set_sync _ (n + 1) d2).
    assert (H3 : dsm_ok d3) by (split; [exact A|]; split; [exact B | simpl; lia]).
    destruct (Z.ltb_spec (n + 1) DSM_FRAME_SIZE).
    + apply (loop_store bf p); [done | lia | done |]. intros Hret. destruct (Hr Hret) as (Hv & _ & _).
      rewrite <- Heq in Hv by done. split; [exact Hv | done].
    + pose proof (dsm_decode_ok now max (aset (dbuf p) n b) d3 (dout p) Hm H3) as Hdec.
      destruct (dsm_decode _ _ _ _ _) as [[r d4] o]. destruct Hdec as ((A4 & B4 & C4) & Es & Hv). destruct r.
      * apply (loop_store bf p); [done | lia | split; [exact A4|]; split; [exact B4 | simpl; unfold DSM_FRAME_SIZE; lia] |]. intros _.
        split; [exact (Hv eq_refl)|]. split; [|done]. cbn [dsm_decode_state set_sync]. by rewrite Es.
      * apply (loop_store bf p); [done | lia | split; [exact A4|]; split; [exact B4 | simpl; unfold DSM_FRAME_SIZE; lia] | done].
Qed.

Lemma dsm_loop_ok now max l : forall bf p,
  max <= DSM_MAX_CHANNEL_COUNT -> loop_ok bf p -> loop_ok bf (fold_left (dsm_byte now max) l p).
Proof. induction l as [|b l IH]; intros bf p Hm Hp; simpl; [done|]. apply IH; [done|]. by apply dsm_byte_ok. Qed.

(** What the DSM receiver delivers.  From every state it can be in and for
    every bytes of a read, nothing but its frame and its read buffer are written
    in the memory the decoders share, the decoder is again in such a state, and
    a success delivers between 1 and 18 channels whose pulses are all in
    [903, 2097] us. *)
Theorem dsm_delivers (now max_values : Z) (bytes bf : list Z) (d : dsm) (o : dsm_out) (values : list Z) (num_values : Z) :
  dsm_ok d -> length values = 18%nat -> Z.of_nat (length bytes) <= DSM_BUF_SIZE ->
  let '(updated, vs, n, p) := dsm_input now max_values bytes bf d o values num_values in
  dsm_ok (ddec p) /\ length (dbuf p) = length bf
  /\ (forall j, DSM_BUF + DSM_BUF_SIZE <= j -> aget (dbuf p) j = aget bf j)
  /\ (updated = true -> 1 <= n <= DSM_MAX_CHANNEL_COUNT /\ Forall (fun v => 903 <= v <= 2097) (take (Z.to_nat n) vs)).
Proof.
  intros Hd Hvals Hlen. unfold dsm_input. destruct bytes as [|b0 bytes]; [done|].
  set (bs := b0 :: bytes) in *. unfold dsm_parse. cbv zeta.
  set (max := if _ <? max_values then _ else max_values).
  assert (Hmax : max <= DSM_MAX_CHANNEL_COUNT) by (subst max; destruct (Z.ltb_spec DSM_MAX_CHANNEL_COUNT max_values); lia).
  set (bf1 := blit DSM_BUF bs bf).
  pose proof (dsm_loop_ok now max bs bf1 (Dparse bf1 d o false) Hmax) as Hp.
  destruct Hp as (Hd' & Hl & Hb & Hr); [by split_and!|].
  set (p := fold_left _ bs _) in *. clearbody p.
  assert (Hl' : length (dbuf p) = length bf) by (rewrite Hl; apply length_blit).
  assert (Hb' : forall j, DSM_BUF + DSM_BUF_SIZE <= j -> aget (dbuf p) j = aget bf j).
  { change DSM_BUF with 24 in *. change DSM_BUF_SIZE with 32 in *. unfold DSM_FRAME_SIZE in Hb.
    intros j Hj. rewrite Hb by lia. subst bf1. apply blit_after; change DSM_BUF with 24; lia. }
  destruct (dret p); [|by split_and!].
  destruct (Hr eq_refl) as (Hv & _). destruct (_ && _) eqn:Estable; [|by split_and!].
  split; [exact Hd'|]. split; [done|]. split; [done|]. intros _.
  repeat (apply andb_prop in Estable; destruct Estable as [Estable ?]).
  apply Z.ltb_lt in Estable. destruct Hd' as (A & B & C). split; [lia|].
  unfold DSM_MAX_CHANNEL_COUNT in *.
  assert (Hn : length (take (Z.to_nat (dsm_chan_count (ddec p))) (dsm_chan_buf (ddec p))) = Z.to_nat (dsm_chan_count (ddec p)))
    by (rewrite length_take, A; lia).
  rewrite <- Hn at 1. rewrite blit_take by (rewrite Hn, Hvals; lia). exact Hv.
Qed.

(** Two identical frames of the 11-bit format, after the format is known. *)
Definition dsm_known : dsm := set_guess 11 0x3f 0x7f 10 (set_chans (replicate 18 0) 0 dsm_proto_init).
Definition dsm_frame_bytes : list Z :=
  [0; 0; 0x04; 0x00; 0x0c; 0x00; 0x14; 0x00; 0x1c; 0x00; 0x24; 0x00; 0x2c; 0x00; 0x34; 0x00].

Lemma dsm_delivers_witness :
  dsm_ok dsm_known
  /\ let '(updated, vs, n, p) := dsm_input 10000 18 dsm_frame_bytes rc_decode_buf_init (set_prev 7 dsm_known)
                                   (Dsm_out false 127) (replicate 18 0) 0 in
     updated = true /\ 1 <= n <= DSM_MAX_CHANNEL_COUNT /\ Forall (fun v => 903 <= v <= 2097) (take (Z.to_nat n) vs).
Proof.
  assert (Hd : dsm_ok dsm_known) by (split; [reflexivity|]; split; vm_compute; split; congruence).
  split; [exact Hd|].
  pose proof (dsm_delivers 10000 18 dsm_frame_bytes rc_decode_buf_init (set_prev 7 dsm_known) (Dsm_out false 127)
                (replicate 18 0) 0 Hd eq_refl ltac:(vm_compute; congruence)) as H.
  assert (Hu : (dsm_input 10000 18 dsm_frame_bytes rc_decode_buf_init (set_prev 7 dsm_known) (Dsm_out false 127)
                  (replicate 18 0) 0).1.1.1 = true) by (vm_compute; reflexivity).
  destruct (dsm_input _ _ _ _ _ _ _ _) as [[[u vs] n] p]. destruct H as (_ & _ & _ & H).
  cbn [fst] in Hu. split; [exact Hu|]. exact (H Hu).
Defined.
