(* ===== verification/RcStream.v ===== *)
(** What the CRSF and GHST parsers share (src/lib/rc/crsf.cpp, ghst.cpp and
    common_rc.cpp): the CRC-8 (DVB-S2), bit fields, and a parser of frames that
    announce their length.  The two parsers differ in the size of the buffer, the
    pair of length and type they synchronise on, the frames they handle and what
    they do if there is no room; these are the parameters of the section. *)

From Stdlib Require Import ZArith Lia.
From stdpp Require Import base list numbers.
From S2P Require Import Prelude RcBuffer.

Local Open Scope Z_scope.

(** * CRC-8 *)

Definition crc8_shift (crc : Z) : Z :=
  u8 (if Z.testbit crc 7 then Z.lxor (Z.shiftl crc 1) 0xD5 else Z.shiftl crc 1).
Definition crc8_dvb_s2 (crc a : Z) : Z := Nat.iter 8 crc8_shift (Z.lxor crc a).
Definition crc8_dvb_s2_buf (buf : list Z) : Z := fold_left crc8_dvb_s2 buf 0.

(** * Packed bit fields, the first in the least significant bits *)

Fixpoint le_value (bytes : list Z) : Z :=
  match bytes with [] => 0 | b :: bytes => b + 256 * le_value bytes end.

(** [w] bits from bit [off] on. *)
Definition field (bytes : list Z) (off w : Z) : Z := Z.land (Z.shiftr (le_value bytes) off) (Z.ones w).

(** * The parser *)

Record stream := Stream { sbuf : list Z; position : Z; synced : bool }.

Section Parser.
Context {Out : Type} (SIZE : Z) (starts : Z -> Z -> bool) (handle : list Z -> Out -> bool * Out) (stop_if_full : bool).

(** The search for a length and a type that match, over [n] positions from [i] on. *)
Fixpoint find_start (n : nat) (i : Z) (buf : list Z) : option Z :=
  match n with
  | O => None
  | S n => if starts (aget buf i) (aget buf (i + 1)) then Some i else find_start n (i + 1) buf
  end.

(** [memmove(buf, buf + from, position - from)] *)
Definition move_front (from : Z) (s : stream) : list Z :=
  blit 0 (take (Z.to_nat (position s - from)) (drop (Z.to_nat from) (sbuf s))) (sbuf s).

Definition synchronise (s : stream) : stream :=
  if synced s then s
  else match find_start (Z.to_nat (u32 (position s - 1) - 1)) 1 (sbuf s) with
       | Some i =>
           let frame_offset := i - 1 in
           if frame_offset =? 0 then Stream (sbuf s) (position s) true
           else Stream (move_front frame_offset s) (position s - frame_offset) true
       | None => s
       end.

(** Without a start the last three bytes of a full buffer are kept. *)
Definition discard (s : stream) : stream :=
  if SIZE <=? position s
  then Stream (blit 0 (take 3 (drop (Z.to_nat (SIZE - 3)) (sbuf s))) (sbuf s)) 3 false else s.

Definition parse_buffer (s : stream) (o : Out) : bool * stream * Out :=
  let s := synchronise s in
  if negb (synced s) then (false, discard s, o)
  else if position s <? 3 then (false, s, o)
  else
    let current_frame_length := aget (sbuf s) 1 + 2 in
    if (SIZE <? current_frame_length) || (current_frame_length <? 4) then (false, Stream (sbuf s) 0 false, o)
    else if position s <? current_frame_length then (false, s, o)
    else
      let '(ret, o) := handle (sbuf s) o in
      (ret,
       if current_frame_length <? position s
       then Stream (move_front current_frame_length s) (position s - current_frame_length) true
       else Stream (sbuf s) 0 true, o).

(** The bytes of one call, as many at a time as there is room for. *)
Fixpoint parse_loop (fuel : nat) (bytes : list Z) (s : stream) (o : Out) (ret : bool) : option (bool * stream * Out) :=
  match bytes with
  | [] => Some (ret, s, o)
  | _ =>
      match fuel with
      | O => None
      | S fuel =>
          let current_len := Z.min (Z.of_nat (length bytes)) (SIZE - position s) in
          let chunk := take (Z.to_nat current_len) bytes in
          if current_len =? 0 then
            let s := Stream (sbuf s) 0 false in
            if stop_if_full then Some (false, s, o) else parse_loop fuel bytes s o false
          else
            let '(r, s, o) := parse_buffer (Stream (blit (position s) chunk (sbuf s)) (position s + current_len) (synced s)) o in
            parse_loop fuel (drop (Z.to_nat current_len) bytes) s o (ret || r)
      end
  end.

(** One call; a round for each byte is enough. *)
Definition parse (bytes : list Z) (s : stream) (o : Out) : option (bool * stream * Out) :=
  parse_loop (length bytes) bytes s o false.

(** A sequence of calls, with their answers. *)
Fixpoint parse_all (chunks : list (list Z)) (s : stream) (o : Out) : option (list bool * stream * Out) :=
  match chunks with
  | [] => Some ([], s, o)
  | c :: chunks =>
      match parse c s o with
      | Some (r, s, o) =>
          match parse_all chunks s o with Some (rs, s, o) => Some (r :: rs, s, o) | None => None end
      | None => None
      end
  end.

(** * Bounds and termination *)

Hypothesis size_ok : 4 <= SIZE < 4294967296.

Definition stream_ok (s : stream) : Prop := 0 <= position s < SIZE /\ SIZE <= Z.of_nat (length (sbuf s)).

Lemma start_position_range n : forall i buf j, find_start n i buf = Some j -> i <= j < i + Z.of_nat n.
Proof.
  induction n as [|n IH]; intros i buf j H; [done|]. cbn in H.
  destruct (starts _ _); [injection H as <-; lia|]. specialize (IH _ _ _ H). lia.
Qed.

Lemma length_front from s : length (move_front from s) = length (sbuf s).
Proof. apply length_blit. Qed.

(** The buffer after a fill: something in it, perhaps full. *)
Definition filled (s : stream) : Prop := 1 <= position s <= SIZE /\ SIZE <= Z.of_nat (length (sbuf s)).

Lemma synchronise_filled s : filled s -> filled (synchronise s).
Proof.
  intros [Hp Hl]. unfold synchronise. destruct (synced s); [done|].
  destruct (find_start _ _ _) as [i|] eqn:E; [|done]. apply start_position_range in E.
  assert (u32 (position s - 1) = position s - 1) as E1 by (apply Z.mod_small; lia). rewrite E1 in E.
  destruct (_ =? 0); (split; cbn; rewrite ?length_front; lia).
Qed.

Lemma parse_buffer_ok s o : filled s -> stream_ok (parse_buffer s o).1.2.
Proof.
  intros Hf. apply synchronise_filled in Hf. unfold parse_buffer. set (t := synchronise s) in *. clearbody t.
  destruct Hf as [Hp Hl]. destruct (synced t); cbn [negb].
  2: { cbn. unfold discard. destruct (Z.leb_spec SIZE (position t)); split; cbn; rewrite ?length_blit; lia. }
  destruct (Z.ltb_spec (position t) 3); [split; cbn; lia|]. cbv zeta. set (n := aget (sbuf t) 1 + 2).
  destruct (Z.ltb_spec SIZE n), (Z.ltb_spec n 4); cbn [orb]; try (split; cbn; lia).
  destruct (Z.ltb_spec (position t) n); [split; cbn; lia|]. destruct (handle _ _) as [r o'].
  destruct (Z.ltb_spec n (position t)); split; cbn; rewrite ?length_front; lia.
Qed.

Lemma filled_fill bytes s :
  stream_ok s -> bytes <> [] ->
  let n := Z.min (Z.of_nat (length bytes)) (SIZE - position s) in
  0 < n /\ filled (Stream (blit (position s) (take (Z.to_nat n) bytes) (sbuf s)) (position s + n) (synced s)).
Proof.
  intros [Hp Hl] Hb. cbv zeta. destruct bytes; [done|]. cbn [length].
  split; [lia|]. split; cbn; rewrite ?length_blit; lia.
Qed.

(** Every call ends, consumes all its bytes and leaves room; the branch for a
    buffer without room is never taken. *)
Lemma parse_loop_total fuel : forall bytes s o ret,
  (length bytes <= fuel)%nat -> stream_ok s ->
  exists r s' o', parse_loop fuel bytes s o ret = Some (r, s', o') /\ stream_ok s'.
Proof.
  induction fuel as [|fuel IH]; intros [|b bytes] s o ret Hf Hok; [by exists ret, s, o | cbn in Hf; lia | by exists ret, s, o |].
  destruct (filled_fill (b :: bytes) s Hok ltac:(done)) as [Hn Hfill]. cbn [parse_loop].
  set (n := Z.min _ _) in *. clearbody n. destruct (Z.eqb_spec n 0); [lia|].
  set (s1 := Stream _ _ _) in *. clearbody s1. pose proof (parse_buffer_ok s1 o Hfill) as H.
  destruct (parse_buffer s1 o) as [[r s2] o2]. apply IH; [|done]. rewrite length_drop. cbn [length] in *. lia.
Qed.

Lemma parse_all_total chunks : forall s o,
  stream_ok s -> exists rs s' o', parse_all chunks s o = Some (rs, s', o') /\ stream_ok s'.
Proof.
  induction chunks as [|c chunks IH]; intros s o Hok; [by eexists _, _, _|]. cbn [parse_all].
  destruct (parse_loop_total (length c) c s o false ltac:(lia) Hok) as (r & s1 & o1 & H & Hok1).
  unfold parse. rewrite H. destruct (IH s1 o1 Hok1) as (rs & s2 & o2 & -> & ?). by eexists _, _, _.
Qed.

(** * Streams of frames *)

(** A frame announces its length. *)
Definition well_formed (f : list Z) : Prop :=
  Z.of_nat (length f) = aget f 1 + 2 /\ 4 <= Z.of_nat (length f) <= SIZE.

(** The handler reads the frame only. *)
Hypothesis handle_local : forall f r o, well_formed f -> handle (f ++ r) o = handle f o.

(** The frames one after the other, as they are. *)
Fixpoint process (fs : list (list Z)) (o : Out) : bool * Out :=
  match fs with
  | [] => (false, o)
  | f :: fs => let '(r, o) := handle f o in let '(r', o) := process fs o in (r || r', o)
  end.

Lemma process_app fs1 fs2 o :
  process (fs1 ++ fs2) o
  = let '(r1, o1) := process fs1 o in let '(r2, o2) := process fs2 o1 in (r1 || r2, o2).
Proof.
  revert o. induction fs1 as [|f fs1 IH]; intros o; cbn; [by destruct (process fs2 o)|].
  destruct (handle f o) as [r o1]. rewrite IH. destruct (process fs1 o1) as [r1 o2]. destruct (process fs2 o2) as [r2 o3].
  by rewrite orb_assoc.
Qed.

(** The parser has the bytes [B] of the stream in its buffer, from the start of
    the next frame on; it is synchronised, or will be by that frame. *)
Record aligned (B : list Z) (fs : list (list Z)) (s : stream) : Prop := {
  al_bytes : exists junk, sbuf s = B ++ junk;
  al_position : position s = Z.of_nat (length B);
  al_room : SIZE <= Z.of_nat (length (sbuf s));
  al_synced : synced s = true \/ forall f, head fs = Some f -> starts (aget f 1) (aget f 2) = true
}.

Lemma aget_prefix (l k : list Z) i : 0 <= i < Z.of_nat (length l) -> aget (l ++ k) i = aget l i.
Proof. intros Hi. unfold aget. rewrite lookup_app_l by lia. done. Qed.

(** The first three bytes of the buffer are those of the next frame. *)
Lemma head_bytes B rest f fs i :
  B ++ rest = concat (f :: fs) -> 0 <= i < Z.of_nat (length B) -> i < Z.of_nat (length f) -> aget B i = aget f i.
Proof.
  intros E Hi Hf. cbn in E. rewrite <- (aget_prefix B rest i), E by lia. apply aget_prefix; lia.
Qed.

Lemma front_aligned f B fs s :
  aligned (f ++ B) (f :: fs) s -> 
  exists junk, move_front (Z.of_nat (length f)) s = B ++ junk.
Proof.
  intros [[junk E] P _ _]. unfold move_front. rewrite P, E, length_app, Nat2Z.id.
  replace (Z.to_nat (Z.of_nat (length f + length B) - Z.of_nat (length f))) with (length B) by lia.
  rewrite <- app_assoc, drop_app_length, take_app_length.
  assert (exists x y, f ++ B ++ junk = x ++ y /\ length x = length B) as (x & y & Ex & Hx).
  { exists (take (length B) (f ++ B ++ junk)), (drop (length B) (f ++ B ++ junk)). rewrite take_drop.
    split; [done|]. rewrite length_take, !length_app. lia. }
  rewrite Ex. exists y. exact (blit_app_eq B [] x y Hx).
Qed.

Lemma u32_pred n : 1 <= n < 4294967296 -> u32 (n - 1) = n - 1.
Proof. intros Hn. apply Z.mod_small. lia. Qed.

(** A parser that is not synchronised finds the frame at the start of its buffer
    as soon as it has three bytes of it. *)
Lemma synchronise_aligned B rest fs s :
  Forall well_formed fs -> B ++ rest = concat fs -> 1 <= Z.of_nat (length B) <= SIZE -> aligned B fs s ->
  synchronise s = if Z.of_nat (length B) <? 3 then s else Stream (sbuf s) (position s) true.
Proof.
  intros Hw E Hne [[junk Eb] P R Sy]. destruct fs as [|f fs].
  { destruct B; [cbn in Hne; lia|done]. }
  apply Forall_cons_iff in Hw as [(W1 & W2) _]. unfold synchronise. destruct s as [buf pos sy]. cbn in *.
  destruct sy; [by destruct (_ <? 3)|]. destruct Sy as [|Sy]; [done|]. rewrite P, u32_pred by lia.
  destruct (Z.ltb_spec (Z.of_nat (length B)) 3) as [H3|H3].
  - by replace (Z.to_nat (Z.of_nat (length B) - 1 - 1)) with O by lia.
  - replace (Z.to_nat (Z.of_nat (length B) - 1 - 1)) with (S (length B - 3)) by lia.
    cbn. subst buf. rewrite !aget_prefix by lia.
    by rewrite !(head_bytes B rest f fs) by (done || lia); rewrite Sy.
Qed.

Lemma app_split_le (B rest f l : list Z) :
  B ++ rest = f ++ l -> (length f <= length B)%nat -> exists B', B = f ++ B' /\ B' ++ rest = l.
Proof.
  intros E Hl. exists (drop (length f) B).
  pose proof (f_equal (take (length f)) E) as Ht. rewrite take_app_length, take_app_le in Ht by done.
  pose proof (f_equal (drop (length f)) E) as Hd. rewrite drop_app_length, drop_app_le in Hd by done.
  split; [|done]. by rewrite <- Ht at 1; rewrite take_drop.
Qed.

(** A fill of an aligned parser handles the next frame or waits for the rest of it. *)
Lemma parse_buffer_aligned B rest fs s o :
  Forall well_formed fs -> B ++ rest = concat fs -> 1 <= Z.of_nat (length B) <= SIZE -> aligned B fs s ->
  exists done later B' s',
    fs = done ++ later /\ B' ++ rest = concat later /\ aligned B' later s' /\ Z.of_nat (length B') < SIZE
    /\ parse_buffer s o = ((process done o).1, s', (process done o).2).
Proof.
  intros Hw E HB Hal. destruct fs as [|f fs].
  { destruct B; [cbn in HB; lia|done]. }
  pose proof (synchronise_aligned _ _ _ _ Hw E HB Hal) as Hs.
  apply Forall_cons_iff in Hw as [Wf Hw]. pose proof Wf as [W1 W2]. unfold parse_buffer. rewrite Hs.
  destruct Hal as [[junk Eb] P R Sy].
  destruct (Z.ltb_spec (Z.of_nat (length B)) 3) as [H3|H3].
  { exists [], (f :: fs), B, s. split_and!; try done; [by split; [exists junk|..] | lia |].
    unfold discard. destruct (Z.leb_spec SIZE (position s)); [lia|]. destruct (Z.ltb_spec (position s) 3); [|lia].
    by destruct (synced s). }
  cbn [synced negb position sbuf]. destruct (Z.ltb_spec (position s) 3); [lia|]. cbv zeta.
  assert (aget (sbuf s) 1 + 2 = Z.of_nat (length f)) as ->.
  { rewrite Eb, aget_prefix, (head_bytes B rest f fs) by (done || lia). lia. }
  destruct (Z.ltb_spec SIZE (Z.of_nat (length f))); [lia|]. destruct (Z.ltb_spec (Z.of_nat (length f)) 4); [lia|]. cbn [orb].
  destruct (Z.ltb_spec (position s) (Z.of_nat (length f))) as [Hlt|Hge].
  { exists [], (f :: fs), B, (Stream (sbuf s) (position s) true).
    split_and!; try done; [by split; [exists junk| | |left] | lia]. }
  destruct (app_split_le B rest f (concat fs) E ltac:(lia)) as (B' & -> & E').
  assert (Hh : handle (sbuf s) o = handle f o) by (rewrite Eb, <- app_assoc; by apply handle_local).
  rewrite Hh. destruct (handle f o) as [r o1] eqn:Ef. rewrite length_app in *.
  assert (Hp : process [f] o = (r, o1)) by (cbn; rewrite Ef; by destruct r). 
  destruct (Z.ltb_spec (Z.of_nat (length f)) (position s)).
  - destruct (front_aligned f B' fs (Stream (sbuf s) (position s) true)) as [junk' Hj].
    { split; [by exists junk | cbn; rewrite P, length_app; lia | done | by left]. }
    exists [f], fs, B', (Stream (B' ++ junk') (position s - Z.of_nat (length f)) true).
    rewrite Hp, Hj. split_and!; try done; [|lia].
    split; [by exists junk' | cbn; lia | cbn; rewrite <- Hj, length_front; done | by left].
  - destruct B'; [|cbn in *; lia].
    exists [f], fs, [], (Stream (sbuf s) 0 true). rewrite Hp. split_and!; try done; [|cbn; lia].
    split; [by exists (sbuf s) | done | done | by left].
Qed.

(** Bytes are added behind those that are there. *)
Lemma fill_aligned B chunk fs s :
  aligned B fs s -> Z.of_nat (length B + length chunk) <= SIZE ->
  aligned (B ++ chunk) fs (Stream (blit (position s) chunk (sbuf s)) (position s + Z.of_nat (length chunk)) (synced s)).
Proof.
  intros [[junk E] P R S] Hl. split; cbn; [|rewrite length_app; lia | by rewrite length_blit | done].
  rewrite P, E. exists (drop (length chunk) junk). rewrite <- app_assoc.
  rewrite E, length_app in R. rewrite <- (take_drop (length chunk) junk) at 1.
  apply blit_app_eq. rewrite length_take. lia.
Qed.

Lemma parse_loop_aligned fuel : forall bytes B rest fs s o ret,
  (length bytes <= fuel)%nat -> Forall well_formed fs -> B ++ bytes ++ rest = concat fs -> aligned B fs s ->
  Z.of_nat (length B) < SIZE ->
  exists done later B' s',
    fs = done ++ later /\ B' ++ rest = concat later /\ aligned B' later s' /\ Z.of_nat (length B') < SIZE
    /\ parse_loop fuel bytes s o ret = Some (ret || (process done o).1, s', (process done o).2).
Proof.
  induction fuel as [|fuel IH]; intros [|b bytes] B rest fs s o ret Hf Hw E Hal HB; [| cbn in Hf; lia | |];
    try (by exists [], fs, B, s; rewrite orb_false_r).
  cbn [parse_loop]. set (l := b :: bytes) in *. assert (Hl : (0 < length l)%nat) by (cbn; lia). clearbody l.
  rewrite (al_position _ _ _ Hal). set (n := Z.min _ _).
  assert (Hn : 0 < n <= Z.of_nat (length l)) by lia. destruct (Z.eqb_spec n 0); [lia|].
  set (chunk := take (Z.to_nat n) l). assert (Hc : Z.of_nat (length chunk) = n) by (unfold chunk; rewrite length_take; lia).
  pose proof (fill_aligned B chunk fs s Hal ltac:(lia)) as Hal1. rewrite (al_position _ _ _ Hal), Hc in Hal1.
  assert (E0 : (B ++ chunk) ++ drop (Z.to_nat n) l ++ rest = concat fs).
  { rewrite <- app_assoc, (app_assoc chunk). unfold chunk. by rewrite take_drop. }
  destruct (parse_buffer_aligned (B ++ chunk) (drop (Z.to_nat n) l ++ rest) fs _ o Hw E0 ltac:(rewrite length_app; lia) Hal1)
    as (d1 & l1 & B1 & s1 & -> & E1 & Hal2 & HB1 & ->).
  apply Forall_app in Hw as [_ Hw1].
  destruct (IH (drop (Z.to_nat n) l) B1 rest l1 s1 (process d1 o).2 (ret || (process d1 o).1)) as (d2 & l2 & B2 & s2 & -> & E2 & Hal3 & HB2 & ->);
    [rewrite length_drop; lia | done..|].
  exists (d1 ++ d2), l2, B2, s2. rewrite process_app. destruct (process d1 o) as [r1 o1]. cbn [fst snd].
  destruct (process d2 o1) as [r2 o2]. cbn [fst snd]. by rewrite app_assoc, orb_assoc.
Qed.

(** Whatever the calls make of the stream, the parser stays at the frames: the
    frames handled are the first of the stream, each once and in order, and fewer
    than [SIZE] bytes wait for the next call. *)
Lemma parse_all_aligned chunks : forall B rest fs s o,
  Forall well_formed fs -> B ++ concat chunks ++ rest = concat fs -> aligned B fs s -> Z.of_nat (length B) < SIZE ->
  exists done later B' s' rs,
    fs = done ++ later /\ B' ++ rest = concat later /\ aligned B' later s' /\ Z.of_nat (length B') < SIZE
    /\ parse_all chunks s o = Some (rs, s', (process done o).2)
    /\ existsb id rs = (process done o).1.
Proof.
  induction chunks as [|c chunks IH]; intros B rest fs s o Hw E Hal HB; [by exists [], fs, B, s, []|].
  cbn [concat] in E. rewrite <- app_assoc in E. cbn [parse_all].
  destruct (parse_loop_aligned (length c) c B (concat chunks ++ rest) fs s o false ltac:(lia) Hw E Hal HB)
    as (d1 & l1 & B1 & s1 & -> & E1 & Hal1 & HB1 & H). unfold parse. rewrite H. cbn [orb].
  apply Forall_app in Hw as [_ Hw1].
  destruct (IH B1 rest l1 s1 (process d1 o).2 Hw1 E1 Hal1 HB1) as (d2 & l2 & B2 & s2 & rs & -> & E2 & Hal2 & HB2 & -> & Hrs).
  exists (d1 ++ d2), l2, B2, s2, ((process d1 o).1 :: rs). rewrite process_app. destruct (process d1 o) as [r1 o1]. cbn [fst snd] in *.
  destruct (process d2 o1) as [r2 o2]. cbn [fst snd] in *. cbn. by rewrite Hrs, app_assoc.
Qed.
End Parser.


(** * Bit fields *)

(** [w] bits for each value, the first in the least significant bits. *)
Definition pack (w : Z) (vs : list Z) : Z := foldr (fun v acc => v + 2 ^ w * acc) 0 vs.

Fixpoint le_bytes (n : nat) (v : Z) : list Z :=
  match n with O => [] | S n => v `mod` 256 :: le_bytes n (v / 256) end.

Lemma length_le_bytes n : forall v, length (le_bytes n v) = n.
Proof. induction n as [|n IH]; intros v; cbn; [done|]. by rewrite IH. Qed.

Lemma le_value_bytes n : forall v, 0 <= v < 256 ^ Z.of_nat n -> le_value (le_bytes n v) = v.
Proof.
  induction n as [|n IH]; intros v Hv; [cbn in *; lia|]. cbn [le_bytes le_value].
  rewrite Nat2Z.inj_succ, Z.pow_succ_r in Hv by lia.
  rewrite IH; [pose proof (Z_div_mod_eq_full v 256); lia|].
  split; [apply Z.div_pos; lia|]. apply Z.div_lt_upper_bound; lia.
Qed.

Lemma pack_range w vs : 0 <= w -> Forall (fun v => 0 <= v < 2 ^ w) vs -> 0 <= pack w vs < 2 ^ (w * Z.of_nat (length vs)).
Proof.
  intros Hw. induction 1 as [|v vs Hv _ IH]; [cbn [pack foldr length]; rewrite Z.mul_0_r; cbn; lia|].
  change (pack w (v :: vs)) with (v + 2 ^ w * pack w vs). cbn [length].
  rewrite Nat2Z.inj_succ, Z.mul_succ_r, Z.pow_add_r by lia. nia.
Qed.

Lemma pack_app w vs ws : 0 <= w -> pack w (vs ++ ws) = pack w vs + 2 ^ (w * Z.of_nat (length vs)) * pack w ws.
Proof.
  intros Hw. induction vs as [|v vs IH].
  - cbn [app length]. rewrite Z.mul_0_r. change (pack w []) with 0. lia.
  - change (pack w ((v :: vs) ++ ws)) with (v + 2 ^ w * pack w (vs ++ ws)). change (pack w (v :: vs)) with (v + 2 ^ w * pack w vs).
    cbn [length]. rewrite IH, Nat2Z.inj_succ, Z.mul_succ_r, Z.pow_add_r by lia. lia.
Qed.

(** The field of a value gives it back, whatever follows. *)
Lemma field_pack w vs v ws bytes :
  0 <= w -> Forall (fun v => 0 <= v < 2 ^ w) (vs ++ v :: ws) -> le_value bytes = pack w (vs ++ v :: ws) ->
  field bytes (w * Z.of_nat (length vs)) w = v.
Proof.
  intros Hw HF E. apply Forall_app in HF as [Hvs HF]. apply Forall_cons_iff in HF as [Hv _].
  unfold field. rewrite E, pack_app, Z.land_ones, Z.shiftr_div_pow2 by lia.
  pose proof (pack_range w vs Hw Hvs). set (n := w * Z.of_nat (length vs)) in *. assert (0 <= n) by lia.
  rewrite (Z.mul_comm (2 ^ n)), Z.div_add, Z.div_small, Z.add_0_l by (pose proof (Z.pow_pos_nonneg 2 n); lia).
  cbn [pack foldr]. rewrite (Z.mul_comm (2 ^ w)), Z.mod_add, Z.mod_small by (pose proof (Z.pow_pos_nonneg 2 w); lia). done.
Qed.
