(* ===== verification/Crsf.v ===== *)
(** The CRSF receiver protocol (src/lib/rc/crsf.cpp): the parser of [RcStream] over
    the memory the decoders share, the channels of an RC frame, and the telemetry
    frames the autopilot sends back. *)

From Stdlib Require Import ZArith Lia SpecFloat.
From stdpp Require Import base list numbers.
From S2P Require Import Prelude Float32 RcBuffer RcStream.

Local Open Scope Z_scope.

Definition CRSF_FRAME_SIZE_MAX : Z := 30.
Definition CRSF_SYNC_BYTE : Z := 0xC8.

(** [crsf_frame_type_t] *)
Definition TYPE_GPS : Z := 0x02.
Definition TYPE_BATTERY_SENSOR : Z := 0x08.
Definition TYPE_RC_CHANNELS_PACKED : Z := 0x16.
Definition TYPE_ATTITUDE : Z := 0x1E.
Definition TYPE_FLIGHT_MODE : Z := 0x21.

(** [crsf_payload_size_t] *)
Definition SIZE_GPS : Z := 15.
Definition SIZE_BATTERY_SENSOR : Z := 8.
Definition SIZE_RC_CHANNELS : Z := 22.
Definition SIZE_ATTITUDE : Z := 6.

(** What [crsf_parse] reports through its pointers. *)
Record crsf_out := Crsf_out { crsf_values : list Z; crsf_num_values : Z }.

Definition scale : float := fdiv (fsub (f_of_Z 2012) (f_of_Z 988)) (fsub (f_of_Z 1811) (f_of_Z 172)).
Definition offset : float := fsub (f_of_Z 988) (fmul (f_of_Z 172) scale).
Definition convert_channel_value (chan_value : Z) : Z := u16 (f_trunc (fadd (fmul scale (f_of_Z chan_value)) offset)).

(** The fields of [crsf_frame_t]: address, length, type, payload. *)
Definition frame_length (buf : list Z) : Z := aget buf 1.
Definition frame_type (buf : list Z) : Z := aget buf 2.
Definition payload (n : Z) (buf : list Z) : list Z := take (Z.to_nat n) (drop 3 buf).

(** Over the type and the payload without the CRC itself. *)
Definition crsf_frame_CRC (buf : list Z) : Z :=
  fold_left crc8_dvb_s2 (payload (frame_length buf - 2) buf) (crc8_dvb_s2 0 (frame_type buf)).

(** The channels, as many as the caller has room for. *)
Fixpoint store_channels (n : nat) (i max_channels : Z) (chan : Z -> Z) (values : list Z) : list Z :=
  match n with
  | O => values
  | S n => store_channels n (i + 1) max_channels chan
             (if i <? max_channels then aset values i (convert_channel_value (chan i)) else values)
  end.

(** [crsf_payload_RC_channels_packed_t] *)
Definition rc_channel_field (buf : list Z) (i : Z) : Z := field (payload SIZE_RC_CHANNELS buf) (11 * i) 11.

Definition crsf_starts (length type : Z) : bool := (length =? SIZE_RC_CHANNELS + 2) && (type =? TYPE_RC_CHANNELS_PACKED).

(** A complete frame. *)
Definition crsf_frame (max_channels : Z) (buf : list Z) (o : crsf_out) : bool * crsf_out :=
  if (frame_type buf =? TYPE_RC_CHANNELS_PACKED) && (frame_length buf =? SIZE_RC_CHANNELS + 2) then
    let crc := aget buf (3 + (frame_length buf - 2)) in
    if crc =? crsf_frame_CRC buf then
      (true, Crsf_out (store_channels 16 0 max_channels (rc_channel_field buf) (crsf_values o)) (Z.min max_channels 16))
    else (false, o)
  else (false, o).

Definition crsf_parse_buffer (max_channels : Z) : stream -> crsf_out -> bool * stream * crsf_out :=
  parse_buffer CRSF_FRAME_SIZE_MAX crsf_starts (crsf_frame max_channels).

Definition crsf_parse (max_channels : Z) : list Z -> stream -> crsf_out -> option (bool * stream * crsf_out) :=
  parse CRSF_FRAME_SIZE_MAX crsf_starts (crsf_frame max_channels) true.

(** The reads of a driver, one call for each. *)
Definition crsf_parse_all (max_channels : Z)
  : list (list Z) -> stream -> crsf_out -> option (list bool * stream * crsf_out) :=
  parse_all CRSF_FRAME_SIZE_MAX crsf_starts (crsf_frame max_channels) true.

(** * Telemetry *)

Definition write_uint16_t (value : Z) : list Z := [u8 (Z.shiftr value 8); Z.land value 0xff].
Definition write_uint24_t (value : Z) : list Z :=
  [u8 (Z.shiftr value 16); Z.land (Z.shiftr value 8) 0xff; Z.land value 0xff].
Definition write_int32_t (value : Z) : list Z :=
  [u8 (Z.shiftr value 24); Z.land (Z.shiftr value 16) 0xff; Z.land (Z.shiftr value 8) 0xff; Z.land value 0xff].
Definition write_frame_header (type payload_size : Z) : list Z := [CRSF_SYNC_BYTE; u8 (payload_size + 2); type].
Definition write_frame_crc (buf : list Z) : list Z := buf ++ [crc8_dvb_s2_buf (drop 2 buf)].

Definition crsf_send_telemetry_battery (voltage current fuel remaining : Z) : list Z :=
  write_frame_crc (write_frame_header TYPE_BATTERY_SENSOR SIZE_BATTERY_SENSOR ++ write_uint16_t (u16 voltage)
    ++ write_uint16_t (u16 current) ++ write_uint24_t fuel ++ [u8 remaining]).

Definition crsf_send_telemetry_gps (latitude longitude groundspeed gps_heading altitude num_satellites : Z) : list Z :=
  write_frame_crc (write_frame_header TYPE_GPS SIZE_GPS ++ write_int32_t latitude ++ write_int32_t longitude
    ++ write_uint16_t (u16 groundspeed) ++ write_uint16_t (u16 gps_heading) ++ write_uint16_t (u16 altitude)
    ++ [u8 num_satellites]).

Definition crsf_send_telemetry_attitude (pitch roll yaw : Z) : list Z :=
  write_frame_crc (write_frame_header TYPE_ATTITUDE SIZE_ATTITUDE ++ write_uint16_t (u16 pitch)
    ++ write_uint16_t (u16 roll) ++ write_uint16_t (u16 yaw)).

(** [flight_mode] holds the characters before the terminating zero. *)
Definition crsf_send_telemetry_flight_mode (flight_mode : list Z) : list Z :=
  let max_length := 16 in
  let length := Z.min (Z.of_nat (length flight_mode) + 1) max_length in
  write_frame_crc (write_frame_header TYPE_FLIGHT_MODE length ++ take (Z.to_nat (length - 1)) flight_mode ++ [0]).

(** * What a receiver sends *)

(** An RC frame: sixteen values of eleven bits, and the CRC. *)
Definition rc_frame (address : Z) (vs : list Z) : list Z :=
  let body := TYPE_RC_CHANNELS_PACKED :: le_bytes 22 (pack 11 vs) in
  address :: SIZE_RC_CHANNELS + 2 :: body ++ [crc8_dvb_s2_buf body].

(** The messages of a link: channels, and frames of other types. *)
Inductive message := Channels (address : Z) (vs : list Z) | Other (bytes : list Z).

Definition bytes_of (m : message) : list Z :=
  match m with Channels address vs => rc_frame address vs | Other bytes => bytes end.

Definition good (m : message) : Prop :=
  match m with
  | Channels _ vs => length vs = 16%nat /\ Forall (fun v => 0 <= v < 2 ^ 11) vs
  | Other bytes => well_formed CRSF_FRAME_SIZE_MAX bytes /\ aget bytes 2 <> TYPE_RC_CHANNELS_PACKED
  end.

(** The pulse for a value: 988 us at 172, 2012 us at 1811. *)
Definition pulse (v : Z) : Z := 988 + (v - 172) * 1024 / 1639.

(** The report after a message. *)
Definition report (max_channels : Z) (m : message) (o : crsf_out) : crsf_out :=
  match m with
  | Channels _ vs =>
      let n := Z.min max_channels 16 in
      Crsf_out (take (Z.to_nat n) (map pulse vs) ++ drop (Z.to_nat n) (crsf_values o)) n
  | Other _ => o
  end.
Definition reports (max_channels : Z) (ms : list message) (o : crsf_out) : crsf_out :=
  fold_left (fun o m => report max_channels m o) ms o.
Definition is_channels (m : message) : bool := match m with Channels _ _ => true | Other _ => false end.

(** * Lemmas *)

Lemma convert_pulse v : 0 <= v < 2048 -> convert_channel_value v = pulse v.
Proof.
  assert (forallb (fun v => convert_channel_value v =? pulse v) (seqZ 0 2048) = true) as H by (by vm_compute).
  intros Hv. rewrite forallb_forall in H. apply Z.eqb_eq, H. apply list_elem_of_In, elem_of_seqZ. lia.
Qed.

Lemma pulse_bounds v : 0 <= v < 2048 -> 880 <= pulse v <= 2159.
Proof.
  intros Hv. unfold pulse.
  assert (-108 <= (v - 172) * 1024 / 1639) by (apply Z.div_le_lower_bound; lia).
  assert ((v - 172) * 1024 / 1639 < 1172) by (apply Z.div_lt_upper_bound; lia). lia.
Qed.

Lemma length_rc_frame a vs : length (rc_frame a vs) = 26%nat.
Proof. unfold rc_frame. cbn [length]. by rewrite length_app, length_cons, length_le_bytes. Qed.

Lemma rc_frame_well_formed a vs : well_formed CRSF_FRAME_SIZE_MAX (rc_frame a vs).
Proof. unfold well_formed. rewrite length_rc_frame. done. Qed.

(** A frame is all that the handler reads. *)
Lemma crsf_frame_local max f r o :
  well_formed CRSF_FRAME_SIZE_MAX f -> crsf_frame max (f ++ r) o = crsf_frame max f o.
Proof.
  intros [W1 W2]. unfold crsf_frame, frame_type, frame_length.
  rewrite !aget_prefix by lia. destruct (_ && _) eqn:E; [|done].
  apply andb_true_iff in E as [_ E%Z.eqb_eq].
  assert (length f = 26%nat) by (unfold SIZE_RC_CHANNELS in E; lia).
  assert (Hp : forall n, 0 <= n <= 23 -> payload n (f ++ r) = payload n f).
  { intros n Hn. unfold payload. rewrite drop_app_le, take_app_le by (rewrite ?length_drop; lia). done. }
  unfold crsf_frame_CRC, frame_type, frame_length. rewrite !aget_prefix by lia. rewrite E, Hp by (unfold SIZE_RC_CHANNELS; lia).
  destruct (_ =? _); [|done]. f_equal. f_equal. generalize 16%nat 0 (crsf_values o). clear o E.
  induction n as [|n IH]; intros i l; cbn [store_channels]; [done|]. rewrite IH. unfold rc_channel_field.
  by rewrite Hp.
Qed.

Lemma store_channels_app max chan vs : forall i pre l,
  Z.of_nat (length pre) = i -> (length vs <= length l)%nat ->
  (forall k v, vs !! k = Some v -> convert_channel_value (chan (i + Z.of_nat k)) = v) ->
  store_channels (length vs) i max chan (pre ++ l)
  = pre ++ take (Z.to_nat (max - i)) vs ++ drop (Z.to_nat (Z.min (max - i) (Z.of_nat (length vs)))) l.
Proof.
  induction vs as [|v vs IH]; intros i pre l Hp Hl Hc.
  { cbn [length store_channels]. rewrite take_nil.
    replace (Z.to_nat (Z.min (max - i) (Z.of_nat 0))) with O by lia. done. }
  destruct l as [|x l]; [cbn in Hl; lia|]. cbn [length store_channels] in *.
  assert (Hv : convert_channel_value (chan i) = v) by (pose proof (Hc O v eq_refl) as H; by rewrite Z.add_0_r in H).
  assert (Hc' : forall k w, vs !! k = Some w -> convert_channel_value (chan (i + 1 + Z.of_nat k)) = w).
  { intros k w Hk. replace (i + 1 + Z.of_nat k) with (i + Z.of_nat (S k)) by lia. by apply Hc. }
  destruct (Z.ltb_spec i max) as [Hlt|Hge].
  - rewrite Hv. assert (aset (pre ++ x :: l) i v = (pre ++ [v]) ++ l) as ->.
    { unfold aset. rewrite <- Hp, Nat2Z.id. replace (length pre) with (length pre + 0)%nat by lia.
      rewrite insert_app_r. cbn. by rewrite <- app_assoc. }
    rewrite IH; [|rewrite length_app; cbn; lia | lia | done]. rewrite <- app_assoc. f_equal.
    replace (Z.to_nat (max - i)) with (S (Z.to_nat (max - (i + 1)))) by lia. cbn [take app]. f_equal. f_equal.
    replace (Z.to_nat (Z.min (max - i) (Z.of_nat (S (length vs)))))
      with (S (Z.to_nat (Z.min (max - (i + 1)) (Z.of_nat (length vs))))) by lia. done.
  - replace (pre ++ x :: l) with ((pre ++ [x]) ++ l) by (by rewrite <- app_assoc).
    rewrite IH; [|rewrite length_app; cbn; lia | lia | done].
    replace (Z.to_nat (max - i)) with O by lia. replace (Z.to_nat (max - (i + 1))) with O by lia.
    replace (Z.to_nat (Z.min (max - i) (Z.of_nat (S (length vs))))) with O by lia.
    replace (Z.to_nat (Z.min (max - (i + 1)) (Z.of_nat (length vs)))) with O by lia.
    cbn. by rewrite <- app_assoc.
Qed.

Lemma payload_rc_frame a vs : payload SIZE_RC_CHANNELS (rc_frame a vs) = le_bytes 22 (pack 11 vs).
Proof.
  unfold payload, rc_frame. cbn [drop app]. replace (Z.to_nat SIZE_RC_CHANNELS) with (length (le_bytes 22 (pack 11 vs)))
    by (by rewrite length_le_bytes). apply take_app_length.
Qed.

#[local] Opaque crc8_dvb_s2.

Lemma rc_frame_crc a vs : aget (rc_frame a vs) 25 = crsf_frame_CRC (rc_frame a vs).
Proof.
  unfold crsf_frame_CRC, frame_length. change (aget (rc_frame a vs) 1 - 2) with SIZE_RC_CHANNELS. rewrite payload_rc_frame.
  unfold rc_frame. set (l := le_bytes 22 (pack 11 vs)). assert (length l = 22%nat) by apply length_le_bytes.
  clearbody l. change (frame_type _) with TYPE_RC_CHANNELS_PACKED.
  change (aget _ 25) with (default 0 ((l ++ [crc8_dvb_s2_buf (TYPE_RC_CHANNELS_PACKED :: l)]) !! 22%nat)).
  rewrite lookup_app_r by lia. replace (22 - length l)%nat with O by lia.
  unfold crc8_dvb_s2_buf. reflexivity.
Qed.

(** The fields of an RC frame are the values it was made of. *)
Lemma rc_frame_field a vs k v :
  length vs = 16%nat -> Forall (fun v => 0 <= v < 2 ^ 11) vs -> vs !! k = Some v ->
  rc_channel_field (rc_frame a vs) (Z.of_nat k) = v.
Proof.
  intros Hl Hv Hk. unfold rc_channel_field. rewrite payload_rc_frame.
  assert (Hk' : (k < length vs)%nat) by (by eapply lookup_lt_Some).
  pose proof (take_drop_middle vs k v Hk) as E. rewrite <- E in Hv |- *.
  replace (Z.of_nat k) with (Z.of_nat (length (take k vs))) by (rewrite length_take; lia).
  pose proof (pack_range 11 _ ltac:(lia) Hv) as Hp. rewrite E, Hl in Hp. 
  eapply field_pack; [lia | exact Hv |]. apply le_value_bytes. rewrite E. exact Hp.
Qed.

Lemma crsf_frame_channels max a vs o :
  good (Channels a vs) -> (16 <= length (crsf_values o))%nat ->
  crsf_frame max (rc_frame a vs) o = (true, report max (Channels a vs) o).
Proof.
  intros [Hl Hv] Ho. unfold crsf_frame.
  change (frame_type (rc_frame a vs) =? TYPE_RC_CHANNELS_PACKED) with true.
  change (frame_length (rc_frame a vs) =? SIZE_RC_CHANNELS + 2) with true.
  change (3 + (frame_length (rc_frame a vs) - 2)) with 25. cbn [andb]. cbv zeta.
  rewrite rc_frame_crc, Z.eqb_refl. f_equal. cbn [report]. cbv zeta. f_equal.
  pose proof (store_channels_app max (rc_channel_field (rc_frame a vs)) (map pulse vs) 0 [] (crsf_values o) eq_refl) as H.
  rewrite length_map, Hl in H. cbn [app] in H. rewrite H; [| lia |].
  - rewrite Z.sub_0_r. change (Z.of_nat 16) with 16. f_equal.
    destruct (Z.min_spec max 16) as [[? ->]|[? ->]]; [done|]. by rewrite !take_ge by (rewrite length_map; lia).
  - intros k v Hk. rewrite list_lookup_fmap in Hk. destruct (vs !! k) as [w|] eqn:Ek; [|done]. injection Hk as <-.
    rewrite Z.add_0_l, (rc_frame_field a vs k w Hl Hv Ek). apply convert_pulse.
    rewrite Forall_lookup in Hv. exact (Hv _ _ Ek).
Qed.

Lemma length_report max m o : (16 <= length (crsf_values o))%nat -> good m -> (16 <= length (crsf_values (report max m o)))%nat.
Proof.
  intros Ho Hg. destruct m as [a vs|]; [|done]. destruct Hg as [Hl _]. cbn. rewrite length_app, length_take, length_drop, length_map. lia.
Qed.

Lemma process_messages max ms : forall o,
  Forall good ms -> (16 <= length (crsf_values o))%nat ->
  process (crsf_frame max) (map bytes_of ms) o = (existsb is_channels ms, reports max ms o).
Proof.
  induction ms as [|m ms IH]; intros o Hg Ho; [done|]. apply Forall_cons_iff in Hg as [Hm Hg].
  cbn [map process existsb]. assert (crsf_frame max (bytes_of m) o = (is_channels m, report max m o)) as ->.
  { destruct m as [a vs|f]; [by apply crsf_frame_channels|]. destruct Hm as [_ Ht]. cbn. unfold crsf_frame, frame_type.
    by destruct (Z.eqb_spec (aget f 2) TYPE_RC_CHANNELS_PACKED). }
  rewrite IH by (done || by apply length_report). done.
Qed.

Lemma good_well_formed ms : Forall good ms -> Forall (well_formed CRSF_FRAME_SIZE_MAX) (map bytes_of ms).
Proof.
  induction 1 as [|m ms Hm _ IH]; constructor; [|done]. destruct m; [apply rc_frame_well_formed | apply Hm].
Qed.

(** A parser with an empty buffer that is synchronised, or that receives an RC
    frame first. *)
Definition listening (ms : list message) (s : stream) : Prop :=
  position s = 0 /\ CRSF_FRAME_SIZE_MAX <= Z.of_nat (length (sbuf s))
  /\ (synced s = true \/ (forall m, head ms = Some m -> is_channels m = true)).

Lemma listening_aligned ms s : listening ms s -> aligned CRSF_FRAME_SIZE_MAX crsf_starts [] (map bytes_of ms) s.
Proof.
  intros (Hp & Hl & Hs). split; [by exists (sbuf s) | done | done |]. destruct Hs as [Hs|Hs]; [by left | right].
  intros f Hf. destruct ms as [|m ms]; [done|]. injection Hf as <-. specialize (Hs m eq_refl). by destruct m.
Qed.

(** * Channels are received as they are sent *)

(** C31: CRSF channels are received.  Let a receiver send frames of channels and
    other frames of the protocol, and let the driver read the bytes in whatever
    pieces.  Every call of the parser ends; it has then handled the first so many
    frames of the stream, each once and in order, and what it reports are the
    pulses of the last channels among them; fewer than 30 bytes wait for the next
    call.  It answers true in some call only if there were channels. *)
Theorem crsf_received (max_channels : Z) (ms : list message) (chunks : list (list Z)) (rest : list Z)
    (s : stream) (o : crsf_out) :
  Forall good ms -> concat chunks ++ rest = concat (map bytes_of ms) -> listening ms s ->
  (16 <= length (crsf_values o))%nat ->
  exists k rs s',
    crsf_parse_all max_channels chunks s o = Some (rs, s', reports max_channels (take k ms) o)
    /\ existsb id rs = existsb is_channels (take k ms)
    /\ Z.of_nat (length (concat (map bytes_of (take k ms)))) + position s' = Z.of_nat (length (concat chunks))
    /\ position s' < CRSF_FRAME_SIZE_MAX.
Proof.
  intros Hg E Hs Ho.
  destruct (parse_all_aligned CRSF_FRAME_SIZE_MAX crsf_starts (crsf_frame max_channels) true ltac:(by vm_compute)
    (crsf_frame_local max_channels) chunks [] rest (map bytes_of ms) s o (good_well_formed _ Hg) E (listening_aligned _ _ Hs)
    ltac:(by vm_compute)) as (d & l & B & s' & rs & Ed & El & [_ Hp _ _] & HB & H & Hr).
  exists (length d), rs, s'.
  assert (d = map bytes_of (take (length d) ms)) as Edk.
  { pose proof (f_equal (take (length d)) Ed) as Ht. rewrite take_app_length, <- fmap_take in Ht. done. }
  rewrite Edk, process_messages in H, Hr by (done || by apply Forall_take). rewrite <- Edk.
  split_and!; [exact H | exact Hr | | lia].
  rewrite Hp. assert (concat chunks = concat d ++ B) as ->; [|rewrite length_app; lia].
  rewrite Ed, concat_app, <- El, app_assoc in E. by apply app_inv_tail in E.
Qed.

(** Every call ends and leaves room in the buffer, whatever the bytes. *)
Theorem crsf_terminates (max_channels : Z) (chunks : list (list Z)) (s : stream) (o : crsf_out) :
  stream_ok CRSF_FRAME_SIZE_MAX s ->
  exists rs s' o', crsf_parse_all max_channels chunks s o = Some (rs, s', o') /\ stream_ok CRSF_FRAME_SIZE_MAX s'.
Proof. apply parse_all_total. by vm_compute. Qed.

(** * Telemetry frames are frames of the protocol *)

(** A frame as [write_frame_header] and [write_frame_crc] make it. *)
Definition framed (type : Z) (payload : list Z) (f : list Z) : Prop :=
  f = CRSF_SYNC_BYTE :: Z.of_nat (length payload) + 2 :: type :: payload ++ [crc8_dvb_s2_buf (type :: payload)].

Lemma framed_good type p f :
  framed type p f -> type <> TYPE_RC_CHANNELS_PACKED -> (1 <= length p <= 26)%nat -> good (Other f).
Proof.
  intros -> Ht Hl. split; [|exact Ht]. unfold well_formed, CRSF_FRAME_SIZE_MAX.
  rewrite !length_cons, length_app. cbn [length]. change (aget _ 1) with (Z.of_nat (length p) + 2). lia.
Qed.

(** The most significant byte first. *)
Definition be_value (bytes : list Z) : Z := fold_left (fun v b => v * 256 + b) bytes 0.

(** The bytes of a number, written with shifts and masks. *)
Ltac be_bytes :=
  unfold be_value; cbn [fold_left]; change 0xff with (Z.ones 8);
  rewrite ?Z.land_ones, ?Z.shiftr_div_pow2 by lia; unfold u8, u16, u32;
  change (2 ^ 8) with 256; change (2 ^ 16) with 65536; change (2 ^ 24) with 16777216;
  Z.div_mod_to_equations; lia.

Lemma be_uint16 v : be_value (write_uint16_t v) = u16 v.
Proof. unfold write_uint16_t. be_bytes. Qed.

Lemma be_uint24 v : be_value (write_uint24_t v) = v `mod` 16777216.
Proof. unfold write_uint24_t. be_bytes. Qed.

Lemma be_int32 v : be_value (write_int32_t v) = u32 v.
Proof. unfold write_int32_t. be_bytes. Qed.

(** Every frame the autopilot sends back is a frame of the protocol, so that a
    parser that hears it stays at the frames. *)
Theorem telemetry_good (voltage current fuel remaining latitude longitude groundspeed heading altitude satellites
    pitch roll yaw : Z) (flight_mode : list Z) :
  Forall (fun f => good (Other f))
    [crsf_send_telemetry_battery voltage current fuel remaining;
     crsf_send_telemetry_gps latitude longitude groundspeed heading altitude satellites;
     crsf_send_telemetry_attitude pitch roll yaw; crsf_send_telemetry_flight_mode flight_mode].
Proof.
  assert (Hf : forall type p, type <> TYPE_RC_CHANNELS_PACKED -> (1 <= length p <= 26)%nat ->
    good (Other (write_frame_crc (write_frame_header type (Z.of_nat (length p)) ++ p)))).
  { intros type p Ht Hl. eapply (framed_good type p); [|done..]. unfold framed, write_frame_crc, write_frame_header.
    cbn [app drop]. do 3 f_equal. unfold u8. apply Z.mod_small. lia. }
  repeat apply Forall_cons; try apply Forall_nil_2.
  - eapply (Hf TYPE_BATTERY_SENSOR (write_uint16_t _ ++ write_uint16_t _ ++ write_uint24_t _ ++ [_])); [done | cbn; lia].
  - eapply (Hf TYPE_GPS (write_int32_t _ ++ write_int32_t _ ++ write_uint16_t _ ++ write_uint16_t _ ++ write_uint16_t _ ++ [_]));
      [done | cbn; lia].
  - eapply (Hf TYPE_ATTITUDE (write_uint16_t _ ++ write_uint16_t _ ++ write_uint16_t _)); [done | cbn; lia].
  - unfold crsf_send_telemetry_flight_mode. cbv zeta. set (n := Z.min _ _).
    assert (Hn : Z.of_nat (length (take (Z.to_nat (n - 1)) flight_mode ++ [0])) = n)
      by (rewrite length_app, length_take; cbn [length]; lia).
    rewrite <- Hn at 1. apply Hf; [done|]. lia.
Qed.

(** * Examples *)

Definition example_messages : list message :=
  [Channels 0xC8 (replicate 16 992); Other (crsf_send_telemetry_battery 168 20 1500 80);
   Channels 0xC8 (172 :: 1811 :: replicate 14 0)].

(** Read in pieces of forty bytes and one. *)
Definition example_reads : list (list Z) :=
  let bytes := concat (map bytes_of example_messages) in [take 40 bytes; take 1 (drop 40 bytes); drop 41 bytes].
Definition example_start : stream := Stream rc_decode_buf_init 0 false.
Definition example_out : crsf_out := Crsf_out (replicate 18 0) 0.

Lemma crsf_received_witness :
  exists k rs s',
    crsf_parse_all 18 example_reads example_start example_out
      = Some (rs, s', reports 18 (take k example_messages) example_out)
    /\ existsb id rs = existsb is_channels (take k example_messages)
    /\ Z.of_nat (length (concat (map bytes_of (take k example_messages)))) + position s'
       = Z.of_nat (length (concat example_reads))
    /\ position s' < CRSF_FRAME_SIZE_MAX.
Proof.
  refine (crsf_received 18 example_messages example_reads [] example_start example_out _ _ _ _).
  - repeat constructor; vm_compute; congruence.
  - vm_compute. reflexivity.
  - split; [reflexivity|]. split; [vm_compute; congruence|]. right. intros m [= <-]. reflexivity.
  - vm_compute. lia.
Defined.

Lemma example_channels :
  match crsf_parse_all 18 example_reads example_start example_out with
  | Some (rs, s', o) => rs = [true; false; true] /\ position s' = 0 /\ take 3 (crsf_values o) = [988; 2012; 880]
  | None => False
  end.
Proof. by vm_compute. Qed.

(** A frame with a damaged byte changes nothing. *)
Lemma damaged_frame_dropped :
  match crsf_parse 18 (aset (rc_frame 0xC8 (replicate 16 992)) 9 0) (Stream rc_decode_buf_init 0 true) example_out with
  | Some (r, s', o) => r = false /\ position s' = 0 /\ o = example_out
  | None => False
  end.
Proof. by vm_compute. Qed.
