(* ===== verification/Ghst.v ===== *)
(** The GHST receiver protocol (src/lib/rc/ghst.cpp): the parser of [RcStream] over
    the memory the decoders share, the channels and the signal strength of a frame,
    and the telemetry frame.  Each frame carries four of the later channels, so that
    the parser remembers the others from call to call. *)

From Stdlib Require Import ZArith Lia SpecFloat.
From stdpp Require Import base list numbers.
From S2P Require Import Prelude Float32 RcBuffer RcStream Dsm Crsf.

Local Open Scope Z_scope.

(** [sizeof(ghst_frame_t)] *)
Definition GHST_FRAME_SIZE : Z := 18.
Definition GHST_TYPE_DATA_CRC_SIZE : Z := 12.
Definition GHST_MAX_NUM_CHANNELS : Z := 16.
Definition GHST_FRAME_PAYLOAD_SIZE_TELEMETRY : Z := 10.
Definition rxAddress : Z := 0x89.
Definition batteryPack : Z := 0x23.

(** [ghstFrameType] *)
Definition frameTypeFirst : Z := 0x10.
Definition frameType5to8 : Z := 0x10.
Definition frameType9to12 : Z := 0x11.
Definition frameType13to16 : Z := 0x12.
Definition frameTypeRssi : Z := 0x13.
Definition frameTypeLast : Z := 0x1f.

(** What [ghst_parse] reports through its pointers, and the variables of the file
    that outlive a call. *)
Record ghst := Ghst {
  ghst_values : list Z;
  ghst_out_rssi : Z;
  ghst_num_values : Z;
  prev_rc_vals : list Z;
  ghst_rssi : Z
}.

(** [ghst_config]: no channel is known. *)
Definition ghst_config (g : ghst) : ghst :=
  Ghst (ghst_values g) (ghst_out_rssi g) (ghst_num_values g) (replicate (Z.to_nat GHST_MAX_NUM_CHANNELS) 65535) (ghst_rssi g).

Definition ghst_convert (chan_value : Z) : Z :=
  let scale := fdiv (fsub (f_of_Z 2012) (f_of_Z 988)) (fsub (f_of_Z 1811) (f_of_Z 172)) in
  let offset := fsub (f_of_Z 988) (fmul (f_of_Z 172) scale) in
  u16 (f_trunc (fadd (fmul scale (f_of_Z chan_value)) offset)).

Definition ghst_frame_CRC (buf : list Z) : Z :=
  fold_left crc8_dvb_s2 (payload (frame_length buf - 1 - 1) buf) (crc8_dvb_s2 0 (frame_type buf)).

Definition rc_type (type : Z) : bool := (frameTypeFirst <=? type) && (type <=? frameTypeLast).
Definition ghst_starts (length type : Z) : bool := rc_type type && (length =? GHST_TYPE_DATA_CRC_SIZE).

(** [if (max_channels > i) { values[i] = ...; }], for [vs] from [i] on. *)
Fixpoint store_values (i max_channels : Z) (vs values : list Z) : list Z :=
  match vs with
  | [] => values
  | v :: vs => store_values (i + 1) max_channels vs (if i <? max_channels then aset values i v else values)
  end.

(** [ghstChannelData_t]: four channels of twelve bits. *)
Definition chan1to4 (buf : list Z) : list Z :=
  map (fun i => ghst_convert (Z.shiftr (field (payload 6 buf) (12 * i) 12) 1)) (seqZ 0 4).

(** Four channels of eight bits. *)
Definition chanAtoD (buf : list Z) : list Z :=
  map (fun i => ghst_convert (Z.shiftl (aget buf (3 + 6 + i)) 3)) (seqZ 0 4).

(** A complete frame. *)
Definition ghst_frame (max_channels : Z) (buf : list Z) (g : ghst) : bool * ghst :=
  if rc_type (frame_type buf) && (frame_length buf =? GHST_TYPE_DATA_CRC_SIZE) then
    let crc := aget buf (3 + (frame_length buf - 2)) in
    if crc =? ghst_frame_CRC buf then
      let type := frame_type buf in
      let values := store_values 0 max_channels (chan1to4 buf) (ghst_values g) in
      let values :=
        if type =? frameType5to8 then store_values 4 max_channels (chanAtoD buf) values
        else if type =? frameType9to12 then store_values 8 max_channels (chanAtoD buf) values
        else if type =? frameType13to16 then store_values 12 max_channels (chanAtoD buf) values
        else values in
      let rssi := if type =? frameTypeRssi then spek_dbm_to_percent (s8 (aget buf (3 + 6 + 1))) else ghst_rssi g in
      (true, Ghst values rssi (Z.min max_channels GHST_MAX_NUM_CHANNELS)
               (take (Z.to_nat GHST_MAX_NUM_CHANNELS) values) rssi)
    else (false, g)
  else (false, g).

Definition ghst_parse_buffer (max_channels : Z) : stream -> ghst -> bool * stream * ghst :=
  parse_buffer GHST_FRAME_SIZE ghst_starts (ghst_frame max_channels).

(** The caller's channels are first those of the last frame. *)
Definition recall (g : ghst) : ghst :=
  Ghst (blit 0 (prev_rc_vals g) (ghst_values g)) (ghst_out_rssi g) (ghst_num_values g) (prev_rc_vals g) (ghst_rssi g).

Definition ghst_parse (max_channels : Z) (bytes : list Z) (s : stream) (g : ghst) : option (bool * stream * ghst) :=
  parse GHST_FRAME_SIZE ghst_starts (ghst_frame max_channels) false bytes s (recall g).

(** The reads of a driver, one call for each, with the array the caller passes: it
    may have written to it in between. *)
Definition with_values (values : list Z) (g : ghst) : ghst :=
  Ghst values (ghst_out_rssi g) (ghst_num_values g) (prev_rc_vals g) (ghst_rssi g).

Fixpoint ghst_parse_all (max_channels : Z) (calls : list (list Z * list Z)) (s : stream) (g : ghst)
    : option (list bool * stream * ghst) :=
  match calls with
  | [] => Some ([], s, g)
  | (bytes, values) :: calls =>
      match ghst_parse max_channels bytes s (with_values values g) with
      | Some (r, s, g) =>
          match ghst_parse_all max_channels calls s g with Some (rs, s, g) => Some (r :: rs, s, g) | None => None end
      | None => None
      end
  end.

(** * Telemetry *)

(** The least significant byte first, unlike CRSF. *)
Definition ghst_write_uint16_t (value : Z) : list Z := [Z.land value 0xFF; u8 (Z.shiftr value 8)].

Definition ghst_send_telemetry_battery_status (voltage_in_10mV current_in_10mA fuel_in_10mAh : Z) : list Z :=
  write_frame_crc ([rxAddress; u8 (GHST_FRAME_PAYLOAD_SIZE_TELEMETRY + 1 + 1); batteryPack]
    ++ ghst_write_uint16_t (u16 voltage_in_10mV) ++ ghst_write_uint16_t (u16 current_in_10mA)
    ++ ghst_write_uint16_t (u16 fuel_in_10mAh) ++ [0; 0; 0; 0]).

(** * What a receiver sends *)

(** A frame of the type: four values of twelve bits, four bytes, and the CRC. *)
Definition ghst_frame_of (address type : Z) (vs bytes : list Z) : list Z :=
  let body := type :: le_bytes 6 (pack 12 vs) ++ bytes in
  address :: GHST_TYPE_DATA_CRC_SIZE :: body ++ [crc8_dvb_s2_buf body].

Inductive ghst_message := Frame (address type : Z) (vs bytes : list Z) | Foreign (bytes : list Z).

Definition ghst_bytes (m : ghst_message) : list Z :=
  match m with Frame address type vs bytes => ghst_frame_of address type vs bytes | Foreign bytes => bytes end.

Definition ghst_good (m : ghst_message) : Prop :=
  match m with
  | Frame _ type vs bytes =>
      rc_type type = true /\ length vs = 4%nat /\ Forall (fun v => 0 <= v < 2 ^ 12) vs
      /\ length bytes = 4%nat /\ Forall (fun b => 0 <= b < 256) bytes
  | Foreign bytes => well_formed GHST_FRAME_SIZE bytes /\ rc_type (aget bytes 2) = false
  end.
Definition is_frame (m : ghst_message) : bool := match m with Frame _ _ _ _ => true | Foreign _ => false end.

(** The place of the four bytes among the channels. *)
Definition later_channels (type : Z) : option nat :=
  if type =? frameType5to8 then Some 4%nat
  else if type =? frameType9to12 then Some 8%nat
  else if type =? frameType13to16 then Some 12%nat
  else None.

(** [l] with [vs] from [i] on. *)
Definition replace_at (i : nat) (vs l : list Z) : list Z := take i l ++ vs ++ drop (i + length vs) l.

(** What is known of the channels and of the signal strength after a message. *)
Definition ghst_report (m : ghst_message) (known : list Z * Z) : list Z * Z :=
  match m with
  | Frame _ type vs bytes =>
      let '(chs, rssi) := known in
      let chs := replace_at 0 (map (fun v => pulse (v / 2)) vs) chs in
      (match later_channels type with
       | Some i => replace_at i (map (fun b => pulse (8 * b)) bytes) chs
       | None => chs
       end,
       if type =? frameTypeRssi then spek_dbm_to_percent (s8 (aget bytes 1)) else rssi)
  | Foreign _ => known
  end.
Definition ghst_reports (ms : list ghst_message) (known : list Z * Z) : list Z * Z :=
  fold_left (fun known m => ghst_report m known) ms known.

(** * Lemmas *)

Lemma ghst_pulse v : 0 <= v < 2048 -> ghst_convert v = pulse v.
Proof. apply convert_pulse. Qed.

Lemma length_ghst_frame_of a t vs bytes : length bytes = 4%nat -> length (ghst_frame_of a t vs bytes) = 14%nat.
Proof. intros Hb. unfold ghst_frame_of. rewrite !length_cons, !length_app, !length_cons, length_app, length_le_bytes, Hb. done. Qed.

Lemma store_values_app max vs : forall i pre l,
  Z.of_nat (length pre) = i -> (length vs <= length l)%nat -> i + Z.of_nat (length vs) <= max ->
  store_values i max vs (pre ++ l) = pre ++ vs ++ drop (length vs) l.
Proof.
  induction vs as [|v vs IH]; intros i pre [|x l] Hp Hl Hm; try (cbn in Hl; lia); try done.
  cbn [length store_values] in *. destruct (Z.ltb_spec i max); [|lia].
  assert (aset (pre ++ x :: l) i v = (pre ++ [v]) ++ l) as ->.
  { unfold aset. rewrite <- Hp, Nat2Z.id. replace (length pre) with (length pre + 0)%nat by lia.
    rewrite insert_app_r. cbn. by rewrite <- app_assoc. }
  rewrite IH by (rewrite ?length_app; cbn; lia). rewrite <- app_assoc. done.
Qed.

Lemma store_values_at i max vs l :
  (i + length vs <= length l)%nat -> Z.of_nat (i + length vs) <= max ->
  store_values (Z.of_nat i) max vs l = replace_at i vs l.
Proof.
  intros Hl Hm. unfold replace_at. rewrite <- (take_drop i l) at 1.
  rewrite store_values_app; [by rewrite drop_drop | rewrite length_take; lia | rewrite length_drop; lia | lia].
Qed.

Lemma length_replace_at i vs l : (i + length vs <= length l)%nat -> length (replace_at i vs l) = length l.
Proof. intros Hl. unfold replace_at. rewrite !length_app, length_take, length_drop. lia. Qed.

Lemma payload_app n f r : 0 <= n -> n + 3 <= Z.of_nat (length f) -> payload n (f ++ r) = payload n f.
Proof. intros Hn Hl. unfold payload. rewrite drop_app_le, take_app_le by (rewrite ?length_drop; lia). done. Qed.

(** A frame is all that the handler reads. *)
Lemma ghst_frame_local max f r g :
  well_formed GHST_FRAME_SIZE f -> ghst_frame max (f ++ r) g = ghst_frame max f g.
Proof.
  intros [W1 W2]. unfold ghst_frame, frame_type, frame_length. rewrite !aget_prefix by lia. destruct (_ && _) eqn:E; [|done].
  apply andb_true_iff in E as [_ E%Z.eqb_eq]. unfold GHST_TYPE_DATA_CRC_SIZE in E. assert (length f = 14%nat) by lia.
  assert (chan1to4 (f ++ r) = chan1to4 f) as -> by (unfold chan1to4; by rewrite payload_app by lia).
  assert (chanAtoD (f ++ r) = chanAtoD f) as ->.
  { unfold chanAtoD. change (seqZ 0 4) with [0; 1; 2; 3]. cbn [map]. by rewrite !aget_prefix by lia. }
  unfold ghst_frame_CRC, frame_type, frame_length. rewrite !aget_prefix by lia. by rewrite E, payload_app by lia.
Qed.

(** The fields of a frame are the values it was made of. *)
Lemma payload_frame_of a t vs bytes : payload 6 (ghst_frame_of a t vs bytes) = le_bytes 6 (pack 12 vs).
Proof.
  unfold payload, ghst_frame_of. cbn [drop app]. rewrite <- app_assoc.
  replace (Z.to_nat 6) with (length (le_bytes 6 (pack 12 vs))) by (by rewrite length_le_bytes). apply take_app_length.
Qed.

Lemma chan1to4_of a t vs bytes :
  length vs = 4%nat -> Forall (fun v => 0 <= v < 2 ^ 12) vs ->
  chan1to4 (ghst_frame_of a t vs bytes) = map (fun v => pulse (v / 2)) vs.
Proof.
  intros Hl Hv. unfold chan1to4. rewrite payload_frame_of.
  pose proof (pack_range 12 vs ltac:(lia) Hv) as Hp. rewrite Hl in Hp.
  assert (Hf : forall pre v post, vs = pre ++ v :: post -> field (le_bytes 6 (pack 12 vs)) (12 * Z.of_nat (length pre)) 12 = v).
  { intros pre v post ->. eapply field_pack; [lia | exact Hv |]. by apply le_value_bytes. }
  destruct vs as [|v0 [|v1 [|v2 [|v3 [|? ?]]]]]; try done. change (seqZ 0 4) with [0; 1; 2; 3]. cbn [map].
  set (l := le_bytes _ _) in *.
  assert (F0 : field l (12 * 0) 12 = v0) by exact (Hf [] v0 [v1; v2; v3] eq_refl).
  assert (F1 : field l (12 * 1) 12 = v1) by exact (Hf [v0] v1 [v2; v3] eq_refl).
  assert (F2 : field l (12 * 2) 12 = v2) by exact (Hf [v0; v1] v2 [v3] eq_refl).
  assert (F3 : field l (12 * 3) 12 = v3) by exact (Hf [v0; v1; v2] v3 [] eq_refl).
  rewrite F0, F1, F2, F3.
  clear - Hv. rewrite Forall_forall in Hv. rewrite !Z.shiftr_div_pow2 by lia. change (2 ^ 1) with 2.
  assert (Hd : forall v, In v [v0; v1; v2; v3] -> ghst_convert (v / 2) = pulse (v / 2)).
  { intros v Hi. apply ghst_pulse. specialize (Hv v Hi). split; [apply Z.div_pos; lia|]. apply Z.div_lt_upper_bound; lia. }
  by rewrite !Hd by (cbn; tauto).
Qed.

Lemma frame_of_byte a t vs bytes i :
  0 <= i < Z.of_nat (length bytes) -> aget (ghst_frame_of a t vs bytes) (3 + 6 + i) = aget bytes i.
Proof.
  intros Hi. unfold ghst_frame_of. set (c := crc8_dvb_s2_buf _). clearbody c. cbn [app].
  set (l := le_bytes _ _). assert (Hl : length l = 6%nat) by apply length_le_bytes. clearbody l.
  rewrite <- app_assoc. change (a :: GHST_TYPE_DATA_CRC_SIZE :: t :: l ++ ?z) with ([a; GHST_TYPE_DATA_CRC_SIZE; t] ++ l ++ z).
  unfold aget.
  rewrite lookup_app_r, lookup_app_r, lookup_app_l by (cbn [length]; lia). cbn [length]. do 2 f_equal. lia.
Qed.

Lemma chanAtoD_of a t vs bytes :
  length bytes = 4%nat -> Forall (fun b => 0 <= b < 256) bytes ->
  chanAtoD (ghst_frame_of a t vs bytes) = map (fun b => pulse (8 * b)) bytes.
Proof.
  intros Hl Hb. unfold chanAtoD. change (seqZ 0 4) with [0; 1; 2; 3]. cbn [map].
  rewrite !frame_of_byte by lia. destruct bytes as [|b0 [|b1 [|b2 [|b3 [|? ?]]]]]; try done.
  rewrite Forall_forall in Hb.
  assert (Hd : forall b, In b [b0; b1; b2; b3] -> ghst_convert (Z.shiftl b 3) = pulse (8 * b)).
  { intros b Hi. rewrite Z.shiftl_mul_pow2, Z.mul_comm by lia. apply ghst_pulse. specialize (Hb b Hi). lia. }
  unfold aget. cbn. by rewrite !Hd by (cbn; tauto).
Qed.

#[local] Opaque crc8_dvb_s2.

Lemma ghst_frame_crc a t vs bytes :
  length bytes = 4%nat -> aget (ghst_frame_of a t vs bytes) 13 = ghst_frame_CRC (ghst_frame_of a t vs bytes).
Proof.
  intros Hb. unfold ghst_frame_CRC, frame_length, payload. change (aget (ghst_frame_of a t vs bytes) 1 - 1 - 1) with 10.
  unfold ghst_frame_of. set (l := le_bytes 6 (pack 12 vs)). assert (Hl : length l = 6%nat) by apply length_le_bytes.
  clearbody l. set (lb := l ++ bytes). assert (Hlb : length lb = 10%nat) by (unfold lb; rewrite length_app; lia). clearbody lb.
  change (frame_type _) with t.
  change (aget _ 13) with (default 0 ((lb ++ [crc8_dvb_s2_buf (t :: lb)]) !! 10%nat)).
  rewrite lookup_app_r by lia. replace (10 - length lb)%nat with O by lia. cbn [drop app].
  replace (Z.to_nat 10) with (length lb) by lia. rewrite drop_0, take_app_length. reflexivity.
Qed.

(** The array of the caller holds the channels the parser remembers. *)
Record consistent (g : ghst) : Prop := {
  co_values : (16 <= length (ghst_values g))%nat;
  co_prev : prev_rc_vals g = take 16 (ghst_values g)
}.

Definition known (g : ghst) : list Z * Z := (prev_rc_vals g, ghst_rssi g).

Lemma take_replace_at i vs l :
  (i + length vs <= 16)%nat -> (16 <= length l)%nat -> take 16 (replace_at i vs l) = replace_at i vs (take 16 l).
Proof.
  intros Hi Hl. unfold replace_at. rewrite take_take, !take_app, length_take, Nat.min_l by lia.
  rewrite (take_ge vs) by lia. replace (Nat.min i 16) with i by lia.
  rewrite (take_ge (take i l)) by (rewrite length_take; lia). do 2 f_equal.
  rewrite skipn_firstn_comm. f_equal. lia.
Qed.

Lemma later_channels_small t i : later_channels t = Some i -> (i <= 12)%nat.
Proof. unfold later_channels. repeat case_match; intros [= <-]; lia. Qed.

Lemma ghst_frame_exact max a t vs bytes g :
  16 <= max -> ghst_good (Frame a t vs bytes) -> consistent g ->
  exists g', ghst_frame max (ghst_frame_of a t vs bytes) g = (true, g') /\ consistent g'
    /\ known g' = ghst_report (Frame a t vs bytes) (known g)
    /\ ghst_out_rssi g' = ghst_rssi g' /\ ghst_num_values g' = 16.
Proof.
  intros Hm (Ht & Hl & Hv & Hbl & Hb) [Hg Hp]. unfold ghst_frame.
  change (frame_type (ghst_frame_of a t vs bytes)) with t. rewrite Ht.
  change (frame_length (ghst_frame_of a t vs bytes)) with GHST_TYPE_DATA_CRC_SIZE.
  change (3 + (GHST_TYPE_DATA_CRC_SIZE - 2)) with 13. rewrite Z.eqb_refl. cbn [andb]. cbv zeta.
  rewrite ghst_frame_crc, Z.eqb_refl, chan1to4_of, chanAtoD_of by done.
  rewrite frame_of_byte by lia.
  set (va := map (fun v => pulse (v / 2)) vs). set (vb := map (fun b => pulse (8 * b)) bytes).
  assert (Ha : length va = 4%nat) by (unfold va; by rewrite length_map).
  assert (Hbb : length vb = 4%nat) by (unfold vb; by rewrite length_map).
  assert (store_values 0 max va (ghst_values g) = replace_at 0 va (ghst_values g)) as -> by (apply (store_values_at 0); lia).
  assert (H0 : length (replace_at 0 va (ghst_values g)) = length (ghst_values g)) by (apply length_replace_at; lia).
  eexists. split; [reflexivity|]. 
  set (values := if t =? frameType5to8 then _ else _).
  assert (Hval : values = match later_channels t with
                          | Some i => replace_at i vb (replace_at 0 va (ghst_values g))
                          | None => replace_at 0 va (ghst_values g) end).
  { unfold values, later_channels.
    change 4 with (Z.of_nat 4). change 8 with (Z.of_nat 8). change 12 with (Z.of_nat 12).
    destruct (t =? _); [by rewrite store_values_at by lia|]. destruct (t =? _); [by rewrite store_values_at by lia|].
    destruct (t =? _); [by rewrite store_values_at by lia | done]. }
  assert (Hlen : length values = length (ghst_values g)).
  { rewrite Hval. destruct (later_channels t) as [i|] eqn:Ei; [|done]. apply later_channels_small in Ei.
    rewrite length_replace_at; lia. }
  split; [split; cbn; [lia | done]|]. split; [|split; [done | unfold GHST_MAX_NUM_CHANNELS; cbn; lia]].
  unfold known. cbn [ghst_report prev_rc_vals ghst_rssi]. fold va vb. change (Z.to_nat GHST_MAX_NUM_CHANNELS) with 16%nat.
  rewrite Hp, Hval. f_equal. destruct (later_channels t) as [i|] eqn:Ei; [apply later_channels_small in Ei|];
    rewrite ?take_replace_at by lia; done.
Qed.

Lemma ghst_process max ms : forall g,
  16 <= max -> Forall ghst_good ms -> consistent g ->
  exists g', process (ghst_frame max) (map ghst_bytes ms) g = (existsb is_frame ms, g')
    /\ consistent g' /\ known g' = ghst_reports ms (known g)
    /\ (existsb is_frame ms = true -> ghst_out_rssi g' = ghst_rssi g' /\ ghst_num_values g' = 16).
Proof.
  induction ms as [|m ms IH]; intros g Hm Hg Hc; [by exists g|]. apply Forall_cons_iff in Hg as [Hg1 Hg].
  cbn [map process existsb]. destruct m as [a t vs bytes|f].
  - destruct (ghst_frame_exact max a t vs bytes g Hm Hg1 Hc) as (g1 & E1 & Hc1 & Hk1 & Ho1). cbn [ghst_bytes]. rewrite E1.
    destruct (IH g1 Hm Hg Hc1) as (g2 & E2 & Hc2 & Hk2 & Ho2). rewrite E2. exists g2. rewrite Hk2, Hk1.
    split_and!; try done. intros _. destruct (existsb is_frame ms) eqn:Ex; [by apply Ho2|].
    assert (Hid : forall ms g, existsb is_frame ms = false -> Forall ghst_good ms -> (process (ghst_frame max) (map ghst_bytes ms) g).2 = g).
    { clear. induction ms as [|[| f] ms IH]; intros g E Hg; [done..|]. apply Forall_cons_iff in Hg as [[_ Hf] Hg].
      cbn. unfold ghst_frame, frame_type. rewrite Hf. cbn. specialize (IH g E Hg). by destruct (process _ _ _). }
    specialize (Hid ms g1 Ex Hg). rewrite E2 in Hid. cbn in Hid. by subst g2.
  - destruct Hg1 as [_ Hf]. cbn [ghst_bytes]. unfold ghst_frame at 1, frame_type. rewrite Hf. cbn [andb].
    destruct (IH g Hm Hg Hc) as (g2 & -> & Hc2 & Hk2 & Ho2). by exists g2.
Qed.

(** The caller's array is brought up to date by each call. *)
Lemma recall_consistent values g :
  length (prev_rc_vals g) = 16%nat -> (16 <= length values)%nat ->
  consistent (recall (with_values values g)) /\ known (recall (with_values values g)) = known g.
Proof.
  intros Hp Hv. split; [|done]. split; cbn; [by rewrite length_blit|]. rewrite <- Hp at 1. by rewrite blit_take by lia.
Qed.

Lemma ghst_good_well_formed ms : Forall ghst_good ms -> Forall (well_formed GHST_FRAME_SIZE) (map ghst_bytes ms).
Proof.
  induction 1 as [|m ms Hm _ IH]; constructor; [|done]. destruct m as [a t vs bytes|f]; [|apply Hm].
  destruct Hm as (_ & _ & _ & Hb & _). cbn. split; rewrite length_ghst_frame_of by done; done.
Qed.

(** A parser with an empty buffer that is synchronised, or that receives a GHST
    frame first. *)
Definition ghst_listening (ms : list ghst_message) (s : stream) : Prop :=
  position s = 0 /\ GHST_FRAME_SIZE <= Z.of_nat (length (sbuf s))
  /\ (synced s = true \/ (forall m, head ms = Some m -> is_frame m = true /\ ghst_good m)).

Lemma ghst_listening_aligned ms s :
  ghst_listening ms s -> aligned GHST_FRAME_SIZE ghst_starts [] (map ghst_bytes ms) s.
Proof.
  intros (Hp & Hl & Hs). split; [by exists (sbuf s) | done | done |]. destruct Hs as [Hs|Hs]; [by left | right].
  intros f Hf. destruct ms as [|m ms]; [done|]. injection Hf as <-. destruct (Hs m eq_refl) as [Hm Hg].
  destruct m as [a t vs bytes|]; [|done]. destruct Hg as [Ht _].
  change (aget (ghst_bytes (Frame a t vs bytes)) 1) with GHST_TYPE_DATA_CRC_SIZE.
  change (aget (ghst_bytes (Frame a t vs bytes)) 2) with t. unfold ghst_starts. by rewrite Ht.
Qed.

Lemma map_split {A B} (f : A -> B) l d k : map f l = d ++ k -> exists l1 l2, l = l1 ++ l2 /\ d = map f l1 /\ k = map f l2.
Proof. intros E. apply map_eq_app in E as (l1 & l2 & -> & <- & <-). by exists l1, l2. Qed.

Lemma ghst_parse_all_aligned max calls : forall B rest ms s g,
  16 <= max -> Forall ghst_good ms -> B ++ concat (map fst calls) ++ rest = concat (map ghst_bytes ms) ->
  aligned GHST_FRAME_SIZE ghst_starts B (map ghst_bytes ms) s -> Z.of_nat (length B) < GHST_FRAME_SIZE ->
  length (prev_rc_vals g) = 16%nat -> Forall (fun c => (16 <= length c.2)%nat) calls ->
  exists handled later B' s' rs g',
    ms = handled ++ later /\ B' ++ rest = concat (map ghst_bytes later)
    /\ aligned GHST_FRAME_SIZE ghst_starts B' (map ghst_bytes later) s' /\ Z.of_nat (length B') < GHST_FRAME_SIZE
    /\ ghst_parse_all max calls s g = Some (rs, s', g')
    /\ existsb id rs = existsb is_frame handled /\ known g' = ghst_reports handled (known g)
    /\ (calls <> [] \/ take 16 (ghst_values g) = prev_rc_vals g -> take 16 (ghst_values g') = prev_rc_vals g').
Proof.
  induction calls as [|[c values] calls IH]; intros B rest ms s g Hm Hg E Hal HB Hp Hc.
  { exists [], ms, B, s, [], g. split_and!; try done. by intros [|]. }
  apply Forall_cons_iff in Hc as [Hv Hc]. cbn [map fst concat] in E. rewrite <- app_assoc in E. cbn [ghst_parse_all].
  destruct (recall_consistent values g Hp Hv) as [Hco Hk].
  destruct (parse_loop_aligned GHST_FRAME_SIZE ghst_starts (ghst_frame max) false ltac:(by vm_compute) (ghst_frame_local max)
    (length c) c B (concat (map fst calls) ++ rest) _ s (recall (with_values values g)) false ltac:(lia)
    (ghst_good_well_formed _ Hg) E Hal HB) as (d & l & B1 & s1 & Ed & E1 & Hal1 & HB1 & H).
  apply map_split in Ed as (h1 & l1 & -> & -> & ->). apply Forall_app in Hg as [Hg1 Hg2].
  unfold ghst_parse, parse. rewrite H. clear H. cbn [orb].
  destruct (ghst_process max h1 _ Hm Hg1 Hco) as (g1 & -> & Hco1 & Hk1 & _). cbn [fst snd].
  assert (Hp1 : length (prev_rc_vals g1) = 16%nat).
  { destruct Hco1 as [Hv1 ->]. rewrite length_take. lia. }
  destruct (IH B1 rest l1 s1 g1 Hm Hg2 E1 Hal1 HB1 Hp1 Hc) as (h2 & l2 & B2 & s2 & rs & g2 & -> & E2 & Hal2 & HB2 & -> & Hr & Hk2 & Hf).
  exists (h1 ++ h2), l2, B2, s2, (existsb is_frame h1 :: rs), g2.
  split_and!; try done; [by rewrite app_assoc | cbn; by rewrite existsb_app, Hr | |].
  - unfold ghst_reports. rewrite fold_left_app. fold (ghst_reports h1 (known g)). by rewrite Hk2, Hk1, Hk.
  - intros _. apply Hf. right. symmetry. apply Hco1.
Qed.

(** * Channels are received as they are sent *)

(** GHST channels are received.  Let a receiver send GHST frames and other frames
    of the protocol, let the driver read the bytes in whatever pieces and let it
    write into its array between the calls.  Every call ends; the first so many
    frames of the stream have been handled, each once and in order; the array holds
    the last value of each of the sixteen channels, whichever frame it came in, and
    the signal strength is the last one reported. *)
Theorem ghst_received (max_channels : Z) (ms : list ghst_message) (calls : list (list Z * list Z)) (rest : list Z)
    (s : stream) (g : ghst) :
  16 <= max_channels -> Forall ghst_good ms -> concat (map fst calls) ++ rest = concat (map ghst_bytes ms) ->
  ghst_listening ms s -> length (prev_rc_vals g) = 16%nat -> Forall (fun c => (16 <= length c.2)%nat) calls ->
  exists k rs s' g',
    ghst_parse_all max_channels calls s g = Some (rs, s', g')
    /\ (prev_rc_vals g', ghst_rssi g') = ghst_reports (take k ms) (prev_rc_vals g, ghst_rssi g)
    /\ (calls <> [] -> take 16 (ghst_values g') = prev_rc_vals g')
    /\ existsb id rs = existsb is_frame (take k ms)
    /\ Z.of_nat (length (concat (map ghst_bytes (take k ms)))) + position s' = Z.of_nat (length (concat (map fst calls)))
    /\ position s' < GHST_FRAME_SIZE.
Proof.
  intros Hm Hg E Hs Hp Hc.
  destruct (ghst_parse_all_aligned max_channels calls [] rest ms s g Hm Hg E (ghst_listening_aligned _ _ Hs)
    ltac:(by vm_compute) Hp Hc) as (h & l & B & s' & rs & g' & -> & El & [_ HP _ _] & HB & H & Hr & Hk & Hf).
  exists (length h), rs, s', g'. rewrite take_app_length.
  split_and!; [exact H | exact Hk | intros ?; apply Hf; by left | exact Hr | | lia].
  rewrite HP. assert (concat (map fst calls) = concat (map ghst_bytes h) ++ B) as ->; [|rewrite length_app; lia].
  rewrite map_app, concat_app, <- El, app_assoc in E. by apply app_inv_tail in E.
Qed.

(** The telemetry frame is a frame of the protocol. *)
Theorem ghst_telemetry_good (voltage current fuel : Z) :
  ghst_good (Foreign (ghst_send_telemetry_battery_status voltage current fuel)).
Proof. done. Qed.

(** * Examples *)

(** Channels 1 to 8, then 1 to 4 with the signal strength, in two reads; the driver
    clears its array in between. *)
Definition example_frames : list ghst_message :=
  [Frame 0x89 frameType5to8 [1984; 1984; 1984; 1984] [124; 124; 124; 0];
   Frame 0x89 frameTypeRssi [344; 3622; 1984; 1984] [100; 216; 0; 0]].
Definition example_calls : list (list Z * list Z) :=
  let bytes := concat (map ghst_bytes example_frames) in
  [(take 20 bytes, replicate 18 65535); (drop 20 bytes, replicate 18 65535)].
Definition example_ghst : ghst := ghst_config (Ghst (replicate 18 65535) (-1) 0 (replicate 16 0) (-1)).

Lemma ghst_received_witness :
  exists k rs s' g',
    ghst_parse_all 18 example_calls (Stream rc_decode_buf_init 0 false) example_ghst = Some (rs, s', g')
    /\ (prev_rc_vals g', ghst_rssi g')
       = ghst_reports (take k example_frames) (prev_rc_vals example_ghst, ghst_rssi example_ghst)
    /\ (example_calls <> [] -> take 16 (ghst_values g') = prev_rc_vals g')
    /\ existsb id rs = existsb is_frame (take k example_frames)
    /\ Z.of_nat (length (concat (map ghst_bytes (take k example_frames)))) + position s'
       = Z.of_nat (length (concat (map fst example_calls)))
    /\ position s' < GHST_FRAME_SIZE.
Proof.
  assert (Hg : Forall ghst_good example_frames) by (repeat constructor; vm_compute; congruence).
  refine (ghst_received 18 example_frames example_calls [] (Stream rc_decode_buf_init 0 false) example_ghst _ Hg _ _ _ _).
  - vm_compute. congruence.
  - vm_compute. reflexivity.
  - split; [reflexivity|]. split; [vm_compute; congruence|]. right. intros m [= <-]. split; [reflexivity|].
    by inversion Hg.
  - reflexivity.
  - repeat constructor.
Defined.

Lemma example_ghst_channels :
  match ghst_parse_all 18 example_calls (Stream rc_decode_buf_init 0 false) example_ghst with
  | Some (rs, _, g) =>
      rs = [true; true] /\ take 9 (ghst_values g) = [988; 2012; 1500; 1500; 1500; 1500; 1500; 880; 65535]
      /\ ghst_out_rssi g = spek_dbm_to_percent (-40)
  | None => False
  end.
Proof. by vm_compute. Qed.
