(* ===== verification/Px4ioControls.v ===== *)
(** The input side of PX4IO: controls.c, which gathers the RC input from the
    receivers on its ports, scales and maps it, detects its loss and decides on
    the manual override.

    The receivers' decoders ([Sbus], [Dsm], [St24], [Sumd]) share the memory
    [rc_buf].  What the pass reads from the outside is [rc_in]: the bytes the
    two UARTs deliver, the ADC count, and the value an uninitialised local
    variable happens to hold.  [now] is the clock of the pass; the PPM decoder
    runs in the timer interrupt and leaves its last frame in [ppm]. *)

From Stdlib Require Import ZArith Lia SpecFloat.
From stdpp Require Import base list numbers.
From S2P Require Import Prelude Float32 RcBuffer Sbus St24 Sumd Dsm Px4io Px4ioRegs Px4ioMixer.

Local Open Scope Z_scope.

Definition RC_CHANNEL_LOW_THRESH : Z := -8000.
Definition PPM_MAX_CHANNELS : Z := 12.

(** systemlib/ppm_decode.h: the last frame the timer interrupt decoded. *)
Record ppm := Ppm {
  ppm_last_valid_decode : Z;
  ppm_decoded_channels : Z;
  ppm_buffer : list Z;
  ppm_frame_length : Z
}.

(** The static state of controls.c and of the decoders. *)
Record ctl := Ctl {
  cio : io;
  rc_buf : list Z;
  sbus_d : sbus;
  dsm_d : dsm;
  st24_d : st24;
  sumd_d : sumd;
  ppm_d : ppm;
  rc_value_override : Z;
  rssi_adc_counts : Z;
  rssi : Z;
  frame_drops : Z
}.

Definition on_cio (f : io -> io) (c : ctl) : ctl :=
  Ctl (f (cio c)) (rc_buf c) (sbus_d c) (dsm_d c) (st24_d c) (sumd_d c) (ppm_d c) (rc_value_override c)
    (rssi_adc_counts c) (rssi c) (frame_drops c).
Definition set_sbus (bf : list Z) (d : sbus) (c : ctl) : ctl :=
  Ctl (cio c) bf d (dsm_d c) (st24_d c) (sumd_d c) (ppm_d c) (rc_value_override c)
    (rssi_adc_counts c) (rssi c) (frame_drops c).
Definition set_dsm (bf : list Z) (d : dsm) (c : ctl) : ctl :=
  Ctl (cio c) bf (sbus_d c) d (st24_d c) (sumd_d c) (ppm_d c) (rc_value_override c)
    (rssi_adc_counts c) (rssi c) (frame_drops c).
Definition set_st24 (bf : list Z) (d : st24) (c : ctl) : ctl :=
  Ctl (cio c) bf (sbus_d c) (dsm_d c) d (sumd_d c) (ppm_d c) (rc_value_override c)
    (rssi_adc_counts c) (rssi c) (frame_drops c).
Definition set_sumd (bf : list Z) (d : sumd) (c : ctl) : ctl :=
  Ctl (cio c) bf (sbus_d c) (dsm_d c) (st24_d c) d (ppm_d c) (rc_value_override c)
    (rssi_adc_counts c) (rssi c) (frame_drops c).
Definition set_ppm (p : ppm) (c : ctl) : ctl :=
  Ctl (cio c) (rc_buf c) (sbus_d c) (dsm_d c) (st24_d c) (sumd_d c) p (rc_value_override c)
    (rssi_adc_counts c) (rssi c) (frame_drops c).
Definition set_override (v : Z) (c : ctl) : ctl :=
  Ctl (cio c) (rc_buf c) (sbus_d c) (dsm_d c) (st24_d c) (sumd_d c) (ppm_d c) v
    (rssi_adc_counts c) (rssi c) (frame_drops c).
Definition set_rssi (adc v : Z) (c : ctl) : ctl :=
  Ctl (cio c) (rc_buf c) (sbus_d c) (dsm_d c) (st24_d c) (sumd_d c) (ppm_d c) (rc_value_override c)
    adc v (frame_drops c).
Definition set_drops (v : Z) (c : ctl) : ctl :=
  Ctl (cio c) (rc_buf c) (sbus_d c) (dsm_d c) (st24_d c) (sumd_d c) (ppm_d c) (rc_value_override c)
    (rssi_adc_counts c) (rssi c) v.

Record rc_in := Rc_in {
  adc_counts : Z;            (* adc_measure(ADC_RSSI) *)
  sbus_read : list Z;        (* read on the S.BUS port *)
  dsm_read : list Z;         (* read on the DSM port *)
  uninitialised : Z          (* the local frame_drops of dsm_port_input *)
}.

(** [r_raw_rc_values], [r_raw_rc_count] as the decoders' out parameters. *)
Definition raw_values_of (s : io) : list Z := take 18 (drop 6 (pages s RAW_RC)).
Definition set_raw (vs : list Z) (n : Z) (s : io) : io :=
  let page := pages s RAW_RC in
  rset RAW_RC PX4IO_P_RAW_RC_COUNT n (pset RAW_RC (take 6 page ++ vs ++ drop 24 page) s).

Definition raw_or (m : Z) : ctl -> ctl := on_cio (reg_or RAW_RC PX4IO_P_RAW_RC_FLAGS m).
Definition raw_clear (m : Z) : ctl -> ctl := on_cio (reg_clear RAW_RC PX4IO_P_RAW_RC_FLAGS m).
Definition raw_put (m : Z) (on : bool) : ctl -> ctl := if on then raw_or m else raw_clear m.
Definition cflag_or (m : Z) : ctl -> ctl := on_cio (atomic_modify_or STATUS PX4IO_P_STATUS_FLAGS m).
Definition cflag_clear (m : Z) : ctl -> ctl := on_cio (atomic_modify_clear STATUS PX4IO_P_STATUS_FLAGS m).
Definition raw_is (m : Z) (s : io) : bool := ftst (r_raw_rc_flags s) m.
Definition feature_is (m : Z) (s : io) : bool := ftst (r_setup_features s) m.
Definition adc_rssi_off : ctl -> ctl := on_cio (reg_clear SETUP PX4IO_P_SETUP_FEATURES FEATURES_ADC_RSSI).

(** ** The receivers *)

(** The ADC RSSI, low-pass filtered, and the loss of the signal. *)
Definition tick_rssi (inp : rc_in) (c : ctl) : ctl :=
  let c :=
    if feature_is FEATURES_ADC_RSSI (cio c) && negb (adc_counts inp =? 0xffff) then
      let counts := u32 (f_trunc (fadd (fmul (f_of_Z (rssi_adc_counts c)) (f_dec 998 1000))
                                       (fmul (f_of_Z (adc_counts inp)) (f_dec 2 1000)))) in
      let mV := u32 (counts * 3300) / 4095 in
      let v := u16 (u32 (mV * RC_INPUT_RSSI_MAX) / 3300) in
      set_rssi counts (if RC_INPUT_RSSI_MAX <? v then RC_INPUT_RSSI_MAX else v) c
    else c in
  if raw_is RAW_RC_RC_OK (cio c) then c else set_rssi (rssi_adc_counts c) 0 c.

Definition DSM_ST24_SUMD : Z := Z.lor FLAGS_RC_DSM (Z.lor FLAGS_RC_ST24 FLAGS_RC_SUMD).

(** S.BUS: updated, and the state. *)
Definition tick_sbus (now : Z) (inp : rc_in) (c : ctl) : bool * ctl :=
  if status_is DSM_ST24_SUMD (cio c) then (false, c)
  else
    let p := sbus_input now PX4IO_RC_INPUT_CHANNELS (sbus_read inp) (rc_buf c) (sbus_d c)
               (Sbus_out (raw_values_of (cio c)) (r_raw_rc_count (cio c)) false false) in
    let c := set_sbus (buf p) (dec p) (on_cio (set_raw (values (out p)) (num_values (out p))) c) in
    if decode_ret p then
      let c := cflag_or FLAGS_RC_SBUS c in
      let c := raw_put RAW_RC_FRAME_DROP (sbus_frame_drop (out p)) c in
      let c := raw_put RAW_RC_FAILSAFE (sbus_failsafe (out p)) c in
      let v := if sbus_frame_drop (out p) then RC_INPUT_RSSI_MAX / 2 else RC_INPUT_RSSI_MAX in
      (true, if feature_is FEATURES_ADC_RSSI (cio c) then c else set_rssi (rssi_adc_counts c) v c)
    else (false, c).

(** [ppm_input] *)
Definition ppm_input (now : Z) (c : ctl) : bool * ctl :=
  let p := ppm_d c in
  if u64 (now - ppm_last_valid_decode p) <? 200000 then
    let n := if PX4IO_RC_INPUT_CHANNELS <? ppm_decoded_channels p then PX4IO_RC_INPUT_CHANNELS
             else ppm_decoded_channels p in
    let vs := blit 0 (take (Z.to_nat (Z.min n PPM_MAX_CHANNELS)) (ppm_buffer p)) (raw_values_of (cio c)) in
    let c := on_cio (fun s => rset RAW_RC PX4IO_P_RAW_RC_DATA (ppm_frame_length p) (set_raw vs n s)) c in
    (0 <? n, set_ppm (Ppm 0 (ppm_decoded_channels p) (ppm_buffer p) (ppm_frame_length p)) c)
  else (false, c).

Definition tick_ppm (now : Z) (c : ctl) : bool * ctl :=
  let '(updated, c) := ppm_input now c in
  if updated then (true, raw_clear RAW_RC_FAILSAFE (raw_clear RAW_RC_FRAME_DROP (cflag_or FLAGS_RC_PPM c)))
  else (false, c).

(** The DSM part of [dsm_port_input]. *)
Definition port_dsm (now : Z) (inp : rc_in) (c : ctl) : bool * ctl :=
  let '(updated, vs, n, p) :=
    dsm_input now PX4IO_RC_INPUT_CHANNELS (dsm_read inp) (rc_buf c) (dsm_d c) (Dsm_out false 0)
      (raw_values_of (cio c)) (r_raw_rc_count (cio c)) in
  let c := set_dsm (dbuf p) (ddec p) (on_cio (set_raw vs n) c) in
  if updated then
    let c := raw_put RAW_RC_DSM11 (dsm_11_bit (dout p)) c in
    let c := raw_put RAW_RC_FRAME_DROP (negb (uninitialised inp =? frame_drops c)) c in
    let c := raw_clear RAW_RC_FAILSAFE (set_drops (uninitialised inp) c) in
    let percent := rssi_percent (dout p) in
    (true, if (0 <=? percent) && (percent <=? 100)
           then set_rssi (rssi_adc_counts c) percent (adc_rssi_off c) else c)
  else (false, c).

(** The loops over the bytes read: the byte is fetched from the shared buffer
    each time. *)
Fixpoint port_st24_bytes (n : nat) (i : Z) (bf : list Z) (d : st24) (o : st24_out) (updated : bool)
    : list Z * st24 * st24_out * bool :=
  match n with
  | O => (bf, d, o, updated)
  | S n =>
      let o := St24_out RC_INPUT_RSSI_MAX (st_lost_count o) (st_channel_count o) (st_channels o) in
      let '(ret, bf, d, o) := st24_decode (aget bf (DSM_BUF + i)) PX4IO_RC_INPUT_CHANNELS bf d o in
      port_st24_bytes n (i + 1) bf d o (updated || (ret =? 0))
  end.

Definition port_st24 (n_bytes : nat) (c : ctl) : bool * ctl :=
  if status_is (Z.lor FLAGS_RC_DSM FLAGS_RC_SUMD) (cio c) then (false, c)
  else
    let '(bf, d, o, updated) :=
      port_st24_bytes n_bytes 0 (rc_buf c) (st24_d c) (St24_out 0 0 0 (raw_values_of (cio c))) false in
    let c := set_st24 bf d (on_cio (fun s => set_raw (st_channels o) (r_raw_rc_count s) s) c) in
    let c := if updated && (st_lost_count o =? 0) then
               let c := set_rssi (rssi_adc_counts c) (st_rssi o) (adc_rssi_off c) in
               let c := on_cio (rset RAW_RC PX4IO_P_RAW_RC_COUNT (st_channel_count o)) c in
               raw_clear RAW_RC_FAILSAFE (raw_clear RAW_RC_FRAME_DROP (cflag_or FLAGS_RC_ST24 c))
             else c in
    (updated, c).

Fixpoint port_sumd_bytes (n : nat) (i : Z) (bf : list Z) (d : sumd) (o : sumd_out) (updated : bool)
    : list Z * sumd * sumd_out * bool :=
  match n with
  | O => (bf, d, o, updated)
  | S n =>
      let o := Sumd_out RC_INPUT_RSSI_MAX (sumd_rx_count o) (sumd_channel_count o) (sumd_channels o) (sumd_failsafe o) in
      let '(ret, bf, d, o) := sumd_decode (aget bf (DSM_BUF + i)) PX4IO_RC_INPUT_CHANNELS bf d o in
      port_sumd_bytes n (i + 1) bf d o (updated || (ret =? 0))
  end.

Definition port_sumd (n_bytes : nat) (c : ctl) : bool * ctl :=
  if status_is (Z.lor FLAGS_RC_DSM FLAGS_RC_ST24) (cio c) then (false, c)
  else
    let '(bf, d, o, updated) :=
      port_sumd_bytes n_bytes 0 (rc_buf c) (sumd_d c) (Sumd_out 0 0 0 (raw_values_of (cio c)) false) false in
    let c := set_sumd bf d (on_cio (fun s => set_raw (sumd_channels o) (r_raw_rc_count s) s) c) in
    if updated then
      let c := on_cio (rset RAW_RC PX4IO_P_RAW_RC_COUNT (sumd_channel_count o)) c in
      let c := raw_clear RAW_RC_FRAME_DROP (cflag_or FLAGS_RC_SUMD c) in
      (true, raw_put RAW_RC_FAILSAFE (sumd_failsafe o) c)
    else (false, c).

(** [dsm_port_input] and the flags set after it: which of the three protocols
    were updated. *)
Definition tick_dsm_port (now : Z) (inp : rc_in) (c : ctl) : bool * ctl :=
  if status_is (Z.lor FLAGS_RC_SBUS FLAGS_RC_PPM) (cio c) then (false, c)
  else
    let '(dsm_updated, c) := port_dsm now inp c in
    let '(st24_updated, c) := port_st24 (length (dsm_read inp)) c in
    let '(sumd_updated, c) := port_sumd (length (dsm_read inp)) c in
    let c := if dsm_updated then cflag_or FLAGS_RC_DSM c else c in
    let c := if st24_updated then cflag_or FLAGS_RC_ST24 c else c in
    let c := if sumd_updated then cflag_or FLAGS_RC_SUMD c else c in
    (dsm_updated || st24_updated || sumd_updated, c).

(** ** Mapping *)

(** The scaled value of a channel, before it is inverted: the divisions are in
    single precision. *)
Definition constrain_raw (conf : Z -> Z) (raw : Z) : Z :=
  let raw := if raw <? conf PX4IO_P_RC_CONFIG_MIN then conf PX4IO_P_RC_CONFIG_MIN else raw in
  if conf PX4IO_P_RC_CONFIG_MAX <? raw then conf PX4IO_P_RC_CONFIG_MAX else raw.

(** The quotient to take, numerator and denominator: [None] in the dead zone. *)
Definition scale_fraction (conf : Z -> Z) (raw : Z) : option (Z * Z) :=
  let center := conf PX4IO_P_RC_CONFIG_CENTER in
  let deadzone := conf PX4IO_P_RC_CONFIG_DEADZONE in
  if center + deadzone <? raw
  then Some (raw - center - deadzone, conf PX4IO_P_RC_CONFIG_MAX - center - deadzone)
  else if raw <? center - deadzone
  then Some (raw - center + deadzone, center - deadzone - conf PX4IO_P_RC_CONFIG_MIN)
  else None.

Definition scale_raw (conf : Z -> Z) (raw : Z) : Z :=
  let scaled :=
    match scale_fraction conf raw with
    | Some (num, den) => s16 (f_trunc (fmul (f_of_Z 10000) (fdiv (f_of_Z num) (f_of_Z den))))
    | None => 0
    end in
  if ftst (conf PX4IO_P_RC_CONFIG_OPTIONS) OPTIONS_REVERSE then s16 (- scaled) else scaled.

(** Throttle failsafe detection, on the constrained value. *)
Definition throttle_failsafe (conf : Z -> Z) (threshold raw : Z) : bool :=
  (raw <? conf PX4IO_P_RC_CONFIG_MIN) && (raw <? threshold)
  || (conf PX4IO_P_RC_CONFIG_MAX <? raw) && (threshold <? raw).

Definition thr_failsafe_us (s : io) : Z := rget SETUP PX4IO_P_SETUP_RC_THR_FAILSAFE_US s.

(** One channel, with the bitmask of the channels assigned so far. *)
Definition map_channel (i : Z) (assigned : Z) (c : ctl) : Z * ctl :=
  let conf := fun k => rget RC_CONFIG (i * PX4IO_P_RC_CONFIG_STRIDE + k) (cio c) in
  if ftst (conf PX4IO_P_RC_CONFIG_OPTIONS) OPTIONS_ENABLED then
    let raw := constrain_raw conf (rget RAW_RC (PX4IO_P_RAW_RC_BASE + i) (cio c)) in
    let scaled := scale_raw conf raw in
    let mapped := conf PX4IO_P_RC_CONFIG_ASSIGNMENT in
    if mapped <? PX4IO_CONTROL_CHANNELS then
      let scaled := if mapped =? 1 then s16 (- scaled) else scaled in
      let c := if (mapped =? 3) && negb (thr_failsafe_us (cio c) =? 0)
               then raw_put RAW_RC_FAILSAFE (throttle_failsafe conf (thr_failsafe_us (cio c)) raw) c else c in
      (Z.lor assigned (Z.shiftl 1 mapped), on_cio (rset RC_INPUT (PX4IO_P_RC_BASE + mapped) (u16 scaled)) c)
    else if mapped =? PX4IO_P_RC_CONFIG_ASSIGNMENT_MODESWITCH
    then (assigned, set_override (u16 scaled) c)
    else (assigned, c)
  else (assigned, c).

Fixpoint map_channels (n : nat) (i assigned : Z) (c : ctl) : Z * ctl :=
  match n with
  | O => (assigned, c)
  | S n => let '(assigned, c) := map_channel i assigned c in map_channels n (i + 1) assigned c
  end.

(** Un-assigned controls are set to zero. *)
Fixpoint zero_unassigned (n : nat) (i assigned : Z) (s : io) : io :=
  match n with
  | O => s
  | S n => zero_unassigned n (i + 1) assigned
             (if Z.testbit assigned i then s else rset RC_INPUT (PX4IO_P_RC_BASE + i) 0 s)
  end.

Definition process_frame (now : Z) (c : ctl) : ctl :=
  let c := on_cio (set_rc_times now) c in
  let '(assigned, c) := map_channels (Z.to_nat (r_raw_rc_count (cio c))) 0 0 c in
  let c := on_cio (zero_unassigned (Z.to_nat PX4IO_CONTROL_CHANNELS) 0 assigned) c in
  let c := raw_or RAW_RC_RC_OK (cflag_or FLAGS_RC_OK c) in
  let c := raw_put RAW_RC_MAPPING_OK (4 <? assigned) c in
  on_cio (rset RC_INPUT PX4IO_P_RC_VALID (u16 assigned)) c.

(** ** Loss of the input and override *)

Definition RC_KINDS : Z :=
  Z.lor FLAGS_RC_PPM (Z.lor FLAGS_RC_DSM (Z.lor FLAGS_RC_SBUS (Z.lor FLAGS_RC_ST24 FLAGS_RC_SUMD))).

Definition rc_lost (now : Z) (s : io) : bool := 200000 <? u64 (now - rc_received_time s).

(** The receiver is gone. *)
Definition lose_input (c : ctl) : ctl :=
  let c := raw_clear RAW_RC_RC_OK (cflag_clear (Z.lor FLAGS_OVERRIDE FLAGS_RC_OK) c) in
  let c := on_cio (fun s => rset RAW_RC PX4IO_P_RAW_RC_COUNT 0 (rset RC_INPUT PX4IO_P_RC_VALID 0 s)) c in
  on_cio (atomic_modify_or STATUS PX4IO_P_STATUS_ALARMS ALARMS_RC_LOST) c.

Definition tick_loss (now : Z) (c : ctl) : ctl :=
  let lost := rc_lost now (cio c) in
  let c := if lost then cflag_clear RC_KINDS c else c in
  let c := if raw_is RAW_RC_FAILSAFE (cio c) then cflag_clear FLAGS_OVERRIDE c else c in
  if lost then lose_input c else c.

(** Is manual override possible, and wanted? *)
Definition override_possible (s : io) : bool :=
  arming_is ARMING_MANUAL_OVERRIDE_OK s && status_is FLAGS_RC_OK s && negb (raw_is RAW_RC_FAILSAFE s)
  && negb (arming_is ARMING_RC_HANDLING_DISABLED s) && status_is FLAGS_MIXER_OK s.

Definition override_wanted (channel : Z) (s : io) : bool :=
  (status_is FLAGS_RC_OK s && (s16 channel <? RC_CHANNEL_LOW_THRESH))
  || (negb (status_is FLAGS_FMU_OK s) && arming_is ARMING_OVERRIDE_IMMEDIATE s
      && negb (arming_is ARMING_TERMINATION_FAILSAFE s)).

Definition tick_override (c : ctl) : ctl :=
  if override_possible (cio c) && override_wanted (rc_value_override c) (cio c)
  then cflag_or FLAGS_OVERRIDE c else cflag_clear FLAGS_OVERRIDE c.

Definition limit_count (s : io) : io :=
  if PX4IO_RC_INPUT_CHANNELS <? r_raw_rc_count s
  then rset RAW_RC PX4IO_P_RAW_RC_COUNT PX4IO_RC_INPUT_CHANNELS s else s.

(** The part of a pass before the frame is processed: was there one? *)
Definition gather (now : Z) (inp : rc_in) (c : ctl) : bool * ctl :=
  let c := tick_rssi inp c in
  let '(sbus_updated, c) := tick_sbus now inp c in
  let '(ppm_updated, c) := tick_ppm now c in
  let '(port_updated, c) := tick_dsm_port now inp c in
  let c := on_cio limit_count c in
  (sbus_updated || ppm_updated || port_updated, on_cio (rset RAW_RC PX4IO_P_RAW_RC_NRSSI (rssi c)) c).

Definition controls_tick (now : Z) (inp : rc_in) (c : ctl) : ctl :=
  let '(updated, c) := gather now inp c in
  let c := if updated then process_frame now c else c in
  tick_override (tick_loss now c).

(** [controls_init]: the registers, and the decoders' own initialisation at
    [now]. *)
Fixpoint default_map (n : nat) (i : Z) (s : io) : io :=
  match n with
  | O => s
  | S n =>
      let base := i * PX4IO_P_RC_CONFIG_STRIDE in
      default_map n (i + 1)
        (fold_left (fun s '(k, v) => rset RC_CONFIG (base + k) v s)
           [(PX4IO_P_RC_CONFIG_OPTIONS, 0); (PX4IO_P_RC_CONFIG_MIN, 1000); (PX4IO_P_RC_CONFIG_CENTER, 1500);
            (PX4IO_P_RC_CONFIG_MAX, 2000); (PX4IO_P_RC_CONFIG_DEADZONE, 30);
            (PX4IO_P_RC_CONFIG_ASSIGNMENT, i); (PX4IO_P_RC_CONFIG_OPTIONS, OPTIONS_ENABLED)] s)
  end.

Definition controls_init (now : Z) (s : io) : ctl :=
  let s := set_rc_times 0 (rset RAW_RC PX4IO_P_RAW_RC_COUNT 0 s) in
  Ctl (default_map (Z.to_nat PX4IO_RC_INPUT_CHANNELS) 0 s) rc_decode_buf_init (sbus_config now) dsm_proto_init
    st24_init sumd_init (Ppm 0 0 (replicate (Z.to_nat PPM_MAX_CHANNELS) 0) 0) 0 0 0 0.
