(* ===== verification/Px4ioRc.v ===== *)
(** What the input side of PX4IO ([Px4ioControls]) guarantees: the registers
    stay legal whatever the receivers send, the flag that says there is RC
    input is exact, the input is dropped when the receivers fall silent, and the
    manual override is on exactly when it may and should be. *)

From Stdlib Require Import ZArith Lia SpecFloat.
From stdpp Require Import base list numbers.
From S2P Require Import Prelude Float32 RcBuffer Sbus SbusLink St24 Sumd Dsm Px4io Px4ioRegs Px4ioControls.

Local Open Scope Z_scope.

(** * What a pass over the inputs does not touch *)

(** The status flags and raw flags a part of a pass may change, and whether it
    may set the time of the last reception. *)
Record scope := Scope { sc_flags : Z; sc_raw : Z; sc_time : bool }.

Definition GATHER : scope :=
  Scope RC_KINDS (Z.lor RAW_RC_FRAME_DROP (Z.lor RAW_RC_FAILSAFE RAW_RC_DSM11)) false.
Definition PASS : scope :=
  Scope (Z.lor RC_KINDS (Z.lor FLAGS_RC_OK FLAGS_OVERRIDE)) 31 true.

Definition foreign_page (p : pg) : Prop :=
  match p with STATUS | SETUP | RAW_RC | RC_INPUT => False | _ => True end.

Record rc_framed (S : scope) (s s' : io) : Prop := Rc_framed {
  rf_ok : regs_ok s';
  rf_flags x : Z.land x (sc_flags S) = 0 -> status_is x s' = status_is x s;
  rf_raw x : Z.land x (sc_raw S) = 0 -> raw_is x s' = raw_is x s;
  rf_time : sc_time S = false -> rc_received_time s' = rc_received_time s;
  rf_setup i : 0 <= i -> i <> PX4IO_P_SETUP_FEATURES -> rget SETUP i s' = rget SETUP i s;
  rf_pages p : foreign_page p -> pages s' p = pages s p;
  rf_fmu : fmu_data_received_time s' = fmu_data_received_time s;
  rf_fx : fx s' = fx s;
  rf_mixer : mixer s' = mixer s
}.

Definition rc_frame (S : scope) (s s' : io) : Prop := regs_ok s -> rc_framed S s s'.

#[export] Instance rc_frame_preorder S : PreOrder (rc_frame S).
Proof.
  split; [by intros s H; split|]. intros s1 s2 s3 H12 H23 H1.
  destruct (H12 H1) as [O2 F2 R2 E2 S2 P2 M2 X2 T2]. destruct (H23 O2) as [O3 F3 R3 E3 S3 P3 M3 X3 T3].
  split; intros; try done.
  - rewrite F3 by done. auto.
  - rewrite R3 by done. auto.
  - rewrite E3 by done. auto.
  - rewrite S3 by done. auto.
  - rewrite P3 by done. auto.
  - by rewrite M3.
  - by rewrite X3.
  - by rewrite T3.
Qed.

Lemma sub_mask m x y : Z.land m y = m -> Z.land x y = 0 -> Z.land m x = 0.
Proof. intros <- H. by rewrite <- Z.land_assoc, (Z.land_comm y), H, Z.land_0_r. Qed.

Lemma rc_frame_wider s s' : rc_frame GATHER s s' -> rc_frame PASS s s'.
Proof.
  intros H Hs. destruct (H Hs) as [O F R E S P M X T]. split; try done.
  - intros x Hx. apply F. rewrite Z.land_comm. by apply (sub_mask _ _ (sc_flags PASS)).
  - intros x Hx. apply R. rewrite Z.land_comm. by apply (sub_mask _ _ (sc_raw PASS)).
Qed.

(** What changes a register and what does not. *)
Lemma status_is_page p i v x s : p <> STATUS -> status_is x (rset p i v s) = status_is x s.
Proof. intros Hp. unfold status_is, r_status_flags. by rewrite rget_rset_page. Qed.

Lemma raw_is_page p i v x s : p <> RAW_RC -> raw_is x (rset p i v s) = raw_is x s.
Proof. intros Hp. unfold raw_is, r_raw_rc_flags. by rewrite rget_rset_page. Qed.

Lemma page_kept p q i v s : p <> q -> pages (rset p i v s) q = pages s q.
Proof. intros Hp. unfold rset. cbn [pages set_pages]. by rewrite decide_False. Qed.

(** A register of the two pages the input side owns. *)
Lemma rc_frame_own S p i v s :
  p = RAW_RC \/ p = RC_INPUT -> 0 <= i < Z.of_nat (page_size p) -> (regs_ok s -> is_u16 v) ->
  (regs_ok s -> p = RAW_RC -> i = PX4IO_P_RAW_RC_FLAGS -> forall x, Z.land x (sc_raw S) = 0 -> ftst v x = raw_is x s) ->
  rc_frame S s (rset p i v s).
Proof.
  intros Hp Hi Hv Hx Hs. assert (Hst : p <> STATUS /\ p <> SETUP) by (by destruct Hp as [-> | ->]).
  destruct Hst as [H1 H2]. split; try done.
  - apply (upd_ok s); [done|]. apply upd_reg; [done | | by destruct Hp as [-> | ->]].
    split; [auto | by destruct Hp as [-> | ->]].
  - intros x _. by apply status_is_page.
  - intros x Hd. destruct (decide (p = RAW_RC)) as [->|]; [|by apply raw_is_page].
    unfold raw_is, r_raw_rc_flags. destruct (decide (i = PX4IO_P_RAW_RC_FLAGS)) as [->|].
    + rewrite rget_rset_same by (done || apply Hs). by apply Hx.
    + by rewrite rget_rset_index by (unfold PX4IO_P_RAW_RC_FLAGS in *; lia).
  - intros j _ _. by rewrite rget_rset_page.
  - intros q Hq. apply page_kept. intros <-. by destruct Hp as [-> | ->].
Qed.

Lemma rc_frame_raw_page S vs s :
  (regs_ok s -> length vs = page_size RAW_RC /\ Forall is_u16 vs /\ aget vs PX4IO_P_RAW_RC_FLAGS = r_raw_rc_flags s) ->
  rc_frame S s (pset RAW_RC vs s).
Proof.
  intros Hvs Hs. destruct (Hvs Hs) as (Hl & Hf & Hx). pose proof Hs as (H1 & H2 & H3).
  assert (Hne : forall q i, q <> RAW_RC -> rget q i (pset RAW_RC vs s) = rget q i s)
    by (intros q i Hq; unfold rget, pset; cbn [pages set_pages]; by rewrite decide_False by done).
  split; try done.
  - split; [|split; [|done]].
    + intros q. unfold pset. cbn [pages set_pages]. case_decide as E; [by subst q | apply H1].
    + intros q i Hi. destruct (decide (q = RAW_RC)) as [->|]; [|rewrite Hne by done; auto].
      apply plain_held; [by left|]. apply (aget_Forall is_u16); [done | split; lia].
  - intros x _. unfold raw_is, r_raw_rc_flags at 1. rewrite <- Hx. reflexivity.
  - intros q Hq. unfold pset. cbn [pages set_pages]. by rewrite decide_False by (intros E; subst q; done).
Qed.

Lemma rc_frame_status S i v s :
  0 <= i < 10 -> (regs_ok s -> is_u16 v) ->
  (i = PX4IO_P_STATUS_FLAGS -> forall x, Z.land x (sc_flags S) = 0 -> ftst v x = status_is x s) ->
  rc_frame S s (rset STATUS i v s).
Proof.
  intros Hi Hv Hx Hs. pose proof Hs as (Hl & _ & _). split; try done.
  - apply (upd_ok s); [done|]. apply upd_reg; [done | | done]. split; [by apply Hv | done].
  - intros x Hd. unfold status_is, r_status_flags. destruct (decide (i = PX4IO_P_STATUS_FLAGS)) as [->|].
    + rewrite rget_rset_same by (done || apply Hl). by apply Hx.
    + by rewrite rget_rset_index by (unfold PX4IO_P_STATUS_FLAGS in *; lia).
  - intros p Hp. apply page_kept. by intros <-.
Qed.

Lemma rc_frame_or S m s :
  is_u16 m -> Z.land m (sc_flags S) = m -> rc_frame S s (atomic_modify_or STATUS PX4IO_P_STATUS_FLAGS m s).
Proof.
  intros Hm Hd. unfold atomic_modify_or. case_match; [reflexivity|]. apply rc_frame_status; [done| |].
  - intros Hs. apply fset_u16; [by apply ok_u16 | done].
  - intros _ x Hx. apply ftst_fset_disj. by eapply sub_mask.
Qed.

Lemma rc_frame_clear S m s :
  Z.land m (sc_flags S) = m -> rc_frame S s (atomic_modify_clear STATUS PX4IO_P_STATUS_FLAGS m s).
Proof.
  intros Hd. unfold atomic_modify_clear. case_match; [reflexivity|]. apply rc_frame_status; [done| |].
  - intros Hs. by apply fclr_u16, ok_u16.
  - intros _ x Hx. apply ftst_fclr_disj. by eapply sub_mask.
Qed.

Lemma rc_frame_alarm S m s : is_u16 m -> rc_frame S s (atomic_modify_or STATUS PX4IO_P_STATUS_ALARMS m s).
Proof.
  intros Hm. unfold atomic_modify_or. case_match; [reflexivity|]. apply rc_frame_status; [done| |done].
  intros Hs. apply fset_u16; [by apply ok_u16 | done].
Qed.

Lemma rc_frame_features S s : rc_frame S s (reg_clear SETUP PX4IO_P_SETUP_FEATURES FEATURES_ADC_RSSI s).
Proof.
  intros Hs. pose proof (ok_u16 SETUP PX4IO_P_SETUP_FEATURES s Hs ltac:(done)) as Hu.
  destruct (ok_setup PX4IO_P_SETUP_FEATURES s Hs ltac:(done)) as [Hf _]. split; try done.
  - apply (upd_ok s); [done|]. apply upd_reg; [done | | done]. split; [by apply fclr_u16|].
    split; [|done]. intros _. destruct (Hf eq_refl) as [->|[->|[->|[->| ->]]]]; vm_compute; tauto.
  - intros i H0 Hi. unfold reg_clear. by rewrite rget_rset_index by done.
  - intros p Hp. apply page_kept. by intros <-.
Qed.

Lemma rc_frame_times t s : rc_frame PASS s (set_rc_times t s).
Proof. by intros (H1 & H2 & H3). Qed.

(** * What the decoders deliver *)

Definition bytes_ok (bf : list Z) : Prop := Z.of_nat (length bf) = RC_DECODE_BUF_SIZE /\ Forall is_u8 bf.
Definition vals_ok (vs : list Z) : Prop := length vs = Z.to_nat PX4IO_RC_INPUT_CHANNELS /\ Forall is_u16 vs.

Lemma aset_bytes i b bf : is_u8 b -> bytes_ok bf -> bytes_ok (aset bf i b).
Proof. intros Hb [H1 H2]. split; [by rewrite length_aset | by apply aset_Forall]. Qed.

Lemma aset_vals i v vs : is_u16 v -> vals_ok vs -> vals_ok (aset vs i v).
Proof. intros Hb [H1 H2]. split; [by rewrite length_aset | by apply aset_Forall]. Qed.

Lemma blit_Forall (P : Z -> Prop) src : forall i dst, Forall P src -> Forall P dst -> Forall P (blit i src dst).
Proof.
  induction src as [|v src IH]; intros i dst Hs Hd; simpl; [done|].
  inversion Hs; subst. apply IH; [done|]. by apply aset_Forall.
Qed.

Lemma blit_bytes i src bf : Forall is_u8 src -> bytes_ok bf -> bytes_ok (blit i src bf).
Proof. intros Hs [H1 H2]. split; [by rewrite length_blit | by apply blit_Forall]. Qed.

Lemma blit_vals i src vs : Forall is_u16 src -> vals_ok vs -> vals_ok (blit i src vs).
Proof. intros Hs [H1 H2]. split; [by rewrite length_blit | by apply blit_Forall]. Qed.

Lemma aget_byte bf i : bytes_ok bf -> is_u8 (aget bf i).
Proof. intros [_ H]. apply (aget_Forall is_u8); [done | split; lia]. Qed.

Lemma u8_u16 v : is_u8 v -> is_u16 v.
Proof. unfold is_u8, is_u16. lia. Qed.

Create HintDb rc.
#[local] Hint Resolve aset_bytes aset_vals blit_bytes blit_vals aget_byte u8_u16 u8_range u16_range : rc.

(** ** S.BUS *)

Definition sbus_rx_ok (p : parse) : Prop :=
  dec_ok (dec p) /\ bytes_ok (buf p) /\ vals_ok (values (out p)) /\ is_u16 (num_values (out p)).

Lemma sbus_pulse_u16 v : is_u16 (sbus_pulse v).
Proof. apply u16_range. Qed.

Lemma channels_u16 frame rows : Forall is_u16 (decode_channel frame <$> rows).
Proof. apply Forall_fmap, Forall_true. intros row. apply sbus_pulse_u16. Qed.

Lemma sbus_decode_vals frame max d o :
  is_u16 max -> vals_ok (values o) -> is_u16 (num_values o) ->
  let '(_, _, o') := sbus_decode frame max d o in vals_ok (values o') /\ is_u16 (num_values o').
Proof.
  intros Hm Hv Hn. unfold sbus_decode. destruct (negb _); [done|].
  destruct (next_state _) as [st|]; [|done]. cbv zeta.
  set (count := if _ <? max then _ else max).
  assert (Hc : is_u16 count) by (subst count; case_match; [by split | done]).
  set (vs := blit 0 _ _). assert (Hvs : vals_ok vs) by (apply blit_vals; [apply channels_u16 | done]).
  clearbody vs count.
  assert (Hs : forall b, is_u16 (switch_value (aget frame SBUS_FLAGS_BYTE) b))
    by (intros b; unfold switch_value; case_match; by split).
  destruct (_ && _); cbn [values num_values]; [|done]. split; [|by split]. auto with rc.
Qed.

Lemma store_rx b p : is_u8 b -> bytes_ok (buf p) -> bytes_ok (buf (store b p)).
Proof. apply aset_bytes. Qed.

Lemma drop_take_bytes n m bf : bytes_ok bf -> Forall is_u8 (drop n (take m bf)).
Proof. intros [_ H]. by apply Forall_drop, Forall_take. Qed.

Lemma recover_rx p : bytes_ok (buf p) -> bytes_ok (buf (recover p)) /\ out (recover p) = out p.
Proof.
  intros Hb. unfold recover. cbv zeta. case_match; [done|]. split; [|done].
  apply blit_bytes; [by apply drop_take_bytes | done].
Qed.

Lemma handle_rx max b p :
  is_u16 max -> is_u8 b -> bytes_ok (buf p) -> vals_ok (values (out p)) -> is_u16 (num_values (out p)) ->
  let q := handle_byte max b p in
  bytes_ok (buf q) /\ vals_ok (values (out q)) /\ is_u16 (num_values (out q)).
Proof.
  intros Hm Hu Hb Hv Hn. cbv zeta.
  assert (Hf : forall st, st = frame_byte max b p -> bytes_ok (buf st) /\ vals_ok (values (out st)) /\ is_u16 (num_values (out st))).
  { intros st ->. unfold frame_byte. cbv zeta. pose proof (store_rx b p Hu Hb) as Hs.
    case_match; [done|].
    pose proof (sbus_decode_vals (buf (store b p)) max (dec (store b p)) (out (store b p)) Hm Hv Hn) as Hd.
    destruct (sbus_decode _ _ _ _) as [[r d] o].
    destruct (recover_rx (Parse (buf (store b p)) d o r)) as [H1 ->]; done. }
  assert (Hsl : forall size id, let q := slot_byte size id b p in
            bytes_ok (buf q) /\ vals_ok (values (out q)) /\ is_u16 (num_values (out q))).
  { intros size id. cbv zeta. pose proof (store_rx b p Hu Hb) as Hs.
    unfold slot_byte. cbv zeta. repeat case_match; done. }
  unfold handle_byte. destruct (sbus_decode_state (dec p)); try by apply Hf.
  - case_match; [|done]. split; [|done]. by apply store_rx.
  - apply Hsl.
  - apply Hsl.
  - done.
  - done.
Qed.

Lemma parse_byte_rx max b p : is_u16 max -> is_u8 b -> sbus_rx_ok p -> sbus_rx_ok (parse_byte max p b).
Proof.
  intros Hm Hu (Hd & Hb & Hv & Hn). destruct (parse_byte_ok max b p Hd) as [Hd' _]. split; [done|].
  unfold parse_byte. cbv zeta. apply handle_rx; repeat case_match; done.
Qed.

Lemma sbus_input_rx now max bytes bf d o :
  is_u16 max -> Forall is_u8 bytes ->
  dec_ok d -> bytes_ok bf -> vals_ok (values o) -> is_u16 (num_values o) ->
  sbus_rx_ok (sbus_input now max bytes bf d o).
Proof.
  intros Hm Hbs Hd Hb Hv Hn. unfold sbus_input. destruct bytes as [|b0 bytes]; [done|].
  set (d1 := if _ && _ then _ else d).
  assert (Hd1 : dec_ok d1) by (subst d1; case_match; [by apply resync_ok | done]). clearbody d1.
  destruct Hd1 as (H1 & H2 & H3). case_match; [split; [dec_ok | done]|].
  unfold sbus_parse. set (p0 := Parse _ _ _ _).
  assert (H0 : sbus_rx_ok p0) by (split; [dec_ok | done]). clearbody p0. clear - Hbs Hm H0.
  revert p0 H0. induction Hbs as [|b l Hb _ IH]; intros p Hp; simpl; [done|].
  apply IH. by apply parse_byte_rx.
Qed.

(** ** ST24 and SUMD *)

Definition st24_rx_ok (o : st24_out) : Prop :=
  vals_ok (st_channels o) /\ is_u16 (st_channel_count o) /\ is_u16 (st_rssi o).

Lemma st24_strides_vals fuel channel : forall i n c vs,
  vals_ok vs -> vals_ok (st24_strides fuel channel i n c vs).
Proof.
  induction fuel as [|fuel IH]; intros i n c vs Hv; cbn [st24_strides]; [done|].
  case_match; [|done]. apply IH. unfold st24_pulse. auto with rc.
Qed.

Lemma st24_channels_rx limit bf max o :
  is_u16 limit -> is_u16 max -> st24_rx_ok o -> st24_rx_ok (st24_channels limit bf max o).
Proof.
  intros Hl Hm (Hv & _ & _). unfold st24_channels. cbv zeta. split; [|split].
  - by apply st24_strides_vals.
  - cbn [st_channel_count]. by case_match.
  - cbn [st_rssi]. apply u8_u16, u8_range.
Qed.

Lemma st24_packet_rx bf max o : is_u16 max -> st24_rx_ok o -> st24_rx_ok (st24_packet bf max o).2.
Proof.
  intros Hm Ho. unfold st24_packet. cbv zeta.
  repeat case_match; simpl; try done; by apply st24_channels_rx.
Qed.

Lemma st24_decode_rx b max bf d o :
  is_u8 b -> is_u16 max -> bytes_ok bf -> st24_rx_ok o ->
  let '(_, bf', _, o') := st24_decode b max bf d o in bytes_ok bf' /\ st24_rx_ok o'.
Proof.
  intros Hb Hm Hbf Ho. pose proof (fun i => aset_bytes i b bf Hb Hbf) as Hset.
  unfold st24_decode. cbv zeta. destruct (st_state d); repeat case_match; simplify_eq; try done; try by split.
  split; [apply Hset|].
  match goal with H : st24_packet ?f ?m o = _ |- _ => pose proof (st24_packet_rx f m o Hm Ho) as Hp; rewrite H in Hp end.
  exact Hp.
Qed.

Lemma port_st24_bytes_rx n : forall i bf d o u,
  bytes_ok bf -> st24_rx_ok o ->
  let '(bf', _, o', _) := port_st24_bytes n i bf d o u in bytes_ok bf' /\ st24_rx_ok o'.
Proof.
  induction n as [|n IH]; intros i bf d o u Hbf Ho; cbn [port_st24_bytes]; [done|]. cbv zeta.
  destruct Ho as (Hv & Hc & _). set (o1 := St24_out _ _ _ _).
  assert (Ho1 : st24_rx_ok o1) by (split_and!; try done).
  pose proof (st24_decode_rx (aget bf (DSM_BUF + i)) PX4IO_RC_INPUT_CHANNELS bf d o1
                (aget_byte _ _ Hbf) ltac:(done) Hbf Ho1) as H.
  destruct (st24_decode _ _ _ _ _) as [[[ret bf'] d'] o']. destruct H. by apply IH.
Qed.

Definition sumd_rx_ok (o : sumd_out) : Prop := vals_ok (sumd_channels o) /\ is_u16 (sumd_channel_count o).

Lemma sumd_channel_u16 bf i : bytes_ok bf -> is_u16 (sumd_channel bf i).
Proof.
  intros H. unfold sumd_channel, is_u16.
  pose proof (aget_byte bf (HOTT_DATA + (i * 2 + 1)) H) as H1.
  pose proof (aget_byte bf (HOTT_DATA + (i * 2 + 2)) H) as H2.
  set (x := aget bf (HOTT_DATA + (i * 2 + 1))) in *. set (y := aget bf (HOTT_DATA + (i * 2 + 2))) in *.
  clearbody x y. unfold is_u8 in *.
  assert (0 <= Z.lor (Z.shiftl x 8) y < 2 ^ 16) as Hl
    by (rewrite Z.shiftl_mul_pow2 by lia; apply lor_bounded; change (2 ^ 8) with 256; change (2 ^ 16) with 65536; lia).
  change (2 ^ 16) with 65536 in Hl.
  rewrite Z.shiftr_div_pow2 by lia. set (z := Z.lor _ _) in *. clearbody z.
  split; [apply Z.div_pos; [apply Hl | done] | apply Z.div_lt_upper_bound; [done|]; change (2 ^ 3) with 8; lia].
Qed.

Lemma sumd_rest_vals n : forall i bf vs, bytes_ok bf -> vals_ok vs -> vals_ok (sumd_rest n i bf vs).
Proof.
  induction n as [|n IH]; intros i bf vs Hb Hv; simpl; [done|]. apply IH; [done|].
  apply aset_vals; [by apply sumd_channel_u16 | done].
Qed.

Lemma sumd_accept_rx max bf o :
  bytes_ok bf -> sumd_rx_ok o -> bytes_ok (sumd_accept max bf o).1 /\ sumd_rx_ok (sumd_accept max bf o).2.
Proof.
  intros Hb [Hv _]. unfold sumd_accept. set (bf1 := if _ <? _ then _ else bf).
  assert (Hb1 : bytes_ok bf1) by (subst bf1; case_match; auto with rc). clearbody bf1.
  cbn [fst snd]. split; [done|]. split; cbn [sumd_channels sumd_channel_count]; [|auto with rc].
  apply sumd_rest_vals; [done|]. repeat apply aset_vals; try done; by apply sumd_channel_u16.
Qed.

Lemma sumd_decode_rx b max bf d o :
  is_u8 b -> bytes_ok bf -> sumd_rx_ok o ->
  let '(_, bf', _, o') := sumd_decode b max bf d o in bytes_ok bf' /\ sumd_rx_ok o'.
Proof.
  intros Hb Hbf Ho. pose proof (fun i => aset_bytes i b bf Hb Hbf) as Hset.
  unfold sumd_decode. destruct (sumd_state d); cbv zeta; try by (repeat case_match; simplify_eq).
  set (bf1 := aset bf _ b). assert (Hb1 : bytes_ok bf1) by apply Hset. clearbody bf1.
  match goal with |- context [crc_ok ?x] => set (d1 := x); clearbody d1 end.
  destruct (crc_ok d1); [|done]. pose proof (sumd_accept_rx max bf1 o Hb1 Ho) as H.
  by destruct (sumd_accept max bf1 o).
Qed.

Lemma port_sumd_bytes_rx n : forall i bf d o u,
  bytes_ok bf -> sumd_rx_ok o ->
  let '(bf', _, o', _) := port_sumd_bytes n i bf d o u in bytes_ok bf' /\ sumd_rx_ok o'.
Proof.
  induction n as [|n IH]; intros i bf d o u Hbf Ho; cbn [port_sumd_bytes]; [done|]. cbv zeta.
  set (o1 := Sumd_out _ _ _ _ _). assert (Ho1 : sumd_rx_ok o1) by exact Ho.
  pose proof (sumd_decode_rx (aget bf (DSM_BUF + i)) PX4IO_RC_INPUT_CHANNELS bf d o1 (aget_byte _ _ Hbf) Hbf Ho1) as H.
  destruct (sumd_decode _ _ _ _ _) as [[[ret bf'] d'] o']. destruct H. by apply IH.
Qed.

(** ** DSM *)

Lemma dsm_byte_bytes now max p b : is_u8 b -> bytes_ok (dbuf p) -> bytes_ok (dbuf (dsm_byte now max p b)).
Proof. intros Hb Hp. unfold dsm_byte. cbv zeta. repeat case_match; simpl; auto with rc. Qed.

Lemma dsm_input_rx now bytes bf d o vs n :
  Forall is_u8 bytes -> dsm_ok d -> bytes_ok bf -> vals_ok vs -> is_u16 n ->
  let '(_, vs', n', p) := dsm_input now PX4IO_RC_INPUT_CHANNELS bytes bf d o vs n in
  dsm_ok (ddec p) /\ bytes_ok (dbuf p) /\ vals_ok vs' /\ is_u16 n'.
Proof.
  intros Hbs Hd Hb Hv Hn. unfold dsm_input. destruct bytes as [|b0 bytes]; [done|].
  unfold dsm_parse. change (if DSM_MAX_CHANNEL_COUNT <? PX4IO_RC_INPUT_CHANNELS then _ else _) with 18. cbv zeta.
  set (bs := b0 :: bytes) in *. clearbody bs. set (p0 := Dparse (blit DSM_BUF bs bf) d o false).
  assert (H0 : bytes_ok (dbuf p0)) by (apply blit_bytes; done).
  assert (Hp : bytes_ok (dbuf (fold_left (dsm_byte now 18) bs p0))).
  { revert H0. generalize p0. clear - Hbs. induction Hbs as [|b l Hb _ IH]; intros p Hp; simpl; [done|].
    apply IH. by apply dsm_byte_bytes. }
  destruct (dsm_loop_ok now 18 bs (dbuf p0) p0) as (Hd' & _ & _ & Hr); [done | by split_and!|].
  set (p := fold_left _ bs p0) in *. clearbody p. clear H0.
  destruct (dret p); [|done]. destruct (Hr eq_refl) as [Hvs _].
  destruct (_ && _) eqn:Es; [|done]. split; [exact Hd'|]. split; [done|].
  destruct Hd' as (_ & Hc & _). split; [|unfold is_u16, DSM_MAX_CHANNEL_COUNT in *; lia].
  apply blit_vals; [|done]. eapply Forall_impl; [|exact Hvs]. intros v Hv'. cbv beta in Hv'. split; lia.
Qed.

(** * The invariant of the input side *)

Definition ctl_ok (c : ctl) : Prop :=
  regs_ok (cio c) /\ bytes_ok (rc_buf c) /\ dec_ok (sbus_d c) /\ dsm_ok (dsm_d c)
  /\ Forall is_u16 (ppm_buffer (ppm_d c)) /\ is_u16 (ppm_frame_length (ppm_d c))
  /\ is_u16 (ppm_decoded_channels (ppm_d c))
  /\ is_u16 (rc_value_override c) /\ is_u16 (rssi c).

(** From a good state [c'] is good and differs from [c] by what its scope may
    change. *)
Definition ctl_safe (S : scope) (c c' : ctl) : Prop := ctl_ok c -> ctl_ok c' /\ rc_frame S (cio c) (cio c').

#[export] Instance ctl_safe_preorder S : PreOrder (ctl_safe S).
Proof.
  split; [by intros c H|]. intros c1 c2 c3 H12 H23 H1. destruct (H12 H1) as [H2 ?].
  destruct (H23 H2) as [H3 ?]. split; [done|]. by etransitivity.
Qed.

Lemma ctl_safe_wider c c' : ctl_safe GATHER c c' -> ctl_safe PASS c c'.
Proof. intros H Hc. destruct (H Hc). split; [done|]. by apply rc_frame_wider. Qed.

Lemma ctl_safe_io S f c : rc_frame S (cio c) (f (cio c)) -> ctl_safe S c (on_cio f c).
Proof. intros Hf (H1 & H2). split; [|exact Hf]. split; [by apply Hf | exact H2]. Qed.

(** The raw flags, the status flags and the features. *)
Lemma raw_or_safe S m c : is_u16 m -> Z.land m (sc_raw S) = m -> ctl_safe S c (raw_or m c).
Proof.
  intros Hm Hd. apply ctl_safe_io, rc_frame_own; [by left | done | |].
  - intros Hs. apply fset_u16; [by apply ok_u16 | done].
  - intros _ _ _ x Hx. apply ftst_fset_disj. by eapply sub_mask.
Qed.

Lemma raw_clear_safe S m c : Z.land m (sc_raw S) = m -> ctl_safe S c (raw_clear m c).
Proof.
  intros Hd. apply ctl_safe_io, rc_frame_own; [by left | done | |].
  - intros Hs. by apply fclr_u16, ok_u16.
  - intros _ _ _ x Hx. apply ftst_fclr_disj. by eapply sub_mask.
Qed.

Lemma raw_put_safe S m on c : is_u16 m -> Z.land m (sc_raw S) = m -> ctl_safe S c (raw_put m on c).
Proof. intros Hm Hd. destruct on; [by apply raw_or_safe | by apply raw_clear_safe]. Qed.

Lemma cflag_or_safe S m c : is_u16 m -> Z.land m (sc_flags S) = m -> ctl_safe S c (cflag_or m c).
Proof. intros. by apply ctl_safe_io, rc_frame_or. Qed.

Lemma cflag_clear_safe S m c : Z.land m (sc_flags S) = m -> ctl_safe S c (cflag_clear m c).
Proof. intros. by apply ctl_safe_io, rc_frame_clear. Qed.

Lemma adc_rssi_off_safe S c : ctl_safe S c (adc_rssi_off c).
Proof. apply ctl_safe_io, rc_frame_features. Qed.

(** A register of its own pages other than the raw flags. *)
Lemma own_frame S p i v s :
  p = RAW_RC /\ i <> PX4IO_P_RAW_RC_FLAGS \/ p = RC_INPUT -> 0 <= i < Z.of_nat (page_size p) ->
  (regs_ok s -> is_u16 v) -> rc_frame S s (rset p i v s).
Proof.
  intros Hp Hi Hv. apply rc_frame_own; [by destruct Hp as [[-> _]|]; [left|right] | done | done |].
  intros _ -> ->. by destruct Hp as [[_ ?]|].
Qed.

Lemma own_safe S p i v c :
  p = RAW_RC /\ i <> PX4IO_P_RAW_RC_FLAGS \/ p = RC_INPUT -> 0 <= i < Z.of_nat (page_size p) ->
  (ctl_ok c -> is_u16 v) -> ctl_safe S c (on_cio (rset p i v) c).
Proof.
  intros Hp Hi Hv Hc. apply ctl_safe_io; [|done]. apply own_frame; [done | done |]. intros _. by apply Hv.
Qed.

Lemma set_rssi_safe S adc v c : (ctl_ok c -> is_u16 v) -> ctl_safe S c (set_rssi adc v c).
Proof.
  intros Hv Hc. split; [|done]. specialize (Hv Hc).
  destruct Hc as (? & ? & ? & ? & ? & ? & ? & ? & _). by split_and!.
Qed.

Lemma raw_page s : regs_ok s -> length (pages s RAW_RC) = page_size RAW_RC /\ Forall is_u16 (pages s RAW_RC).
Proof.
  intros (Hl & Hr & _). specialize (Hl RAW_RC). split; [done|].
  apply Forall_lookup. intros i v Hi. pose proof (lookup_lt_Some _ _ _ Hi).
  destruct (Hr RAW_RC (Z.of_nat i)) as [Hu _]; [lia|].
  unfold rget, aget in Hu. by rewrite Nat2Z.id, Hi in Hu.
Qed.

Lemma raw_vals s : regs_ok s -> vals_ok (raw_values_of s).
Proof.
  intros Hs. unfold raw_values_of, vals_ok. pose proof (raw_page s Hs) as [Hl Hf].
  split; [rewrite length_take, length_drop, Hl; done|]. by apply Forall_take, Forall_drop.
Qed.

Lemma count_u16 s : regs_ok s -> is_u16 (r_raw_rc_count s).
Proof. intros H. by apply ok_u16. Qed.

Lemma set_raw_frame S vs n s : vals_ok vs -> is_u16 n -> rc_frame S s (set_raw vs n s).
Proof.
  intros [Hv1 Hv2] Hn. unfold set_raw. etransitivity; [|apply own_frame; [by left | done | done]].
  apply rc_frame_raw_page. intros Hs. pose proof (raw_page s Hs) as [Hl Hf].
  split; [rewrite !length_app, length_take, length_drop, Hl, Hv1; done|]. split.
  - rewrite !Forall_app. split; [by apply Forall_take|]. split; [done | by apply Forall_drop].
  - unfold r_raw_rc_flags, rget, aget. rewrite lookup_app_l by (rewrite length_take, Hl; vm_compute; lia).
    by rewrite lookup_take_lt by (vm_compute; lia).
Qed.

(** Bytes are what the UARTs deliver. *)
Definition in_ok (inp : rc_in) : Prop := Forall is_u8 (sbus_read inp) /\ Forall is_u8 (dsm_read inp).

Lemma tick_rssi_safe inp c : ctl_safe GATHER c (tick_rssi inp c).
Proof.
  unfold tick_rssi. cbv zeta. set (c1 := if _ && _ then _ else c).
  assert (H1 : ctl_safe GATHER c c1).
  { subst c1. case_match; [|reflexivity]. apply set_rssi_safe. intros _. by case_match; [|apply u16_range]. }
  etransitivity; [exact H1|]. case_match; [reflexivity|]. by apply set_rssi_safe.
Qed.

Lemma tick_sbus_safe now inp c : in_ok inp -> ctl_safe GATHER c (tick_sbus now inp c).2.
Proof.
  intros [Hi _]. unfold tick_sbus. case_match; [reflexivity|]. cbv zeta. set (p := sbus_input _ _ _ _ _ _).
  assert (Hp : ctl_ok c -> sbus_rx_ok p).
  { intros (H1 & H2 & H3 & _). apply sbus_input_rx; try done; [by apply raw_vals | by apply ok_u16]. }
  clearbody p. set (c1 := set_sbus _ _ _).
  assert (H1 : ctl_safe GATHER c c1).
  { intros Hc. destruct (Hp Hc) as (Pd & Pb & Pv & Pn).
    pose proof (set_raw_frame GATHER (values (out p)) (num_values (out p)) (cio c) Pv Pn) as Hf.
    split; [|exact Hf]. destruct Hc as (C1 & C2 & C3 & C4). split_and!; try done; try apply C4. by apply Hf. }
  clearbody c1. destruct (decode_ret p); [|exact H1].
  etransitivity; [exact H1|]. etransitivity; [by apply (cflag_or_safe GATHER FLAGS_RC_SBUS)|].
  etransitivity; [by apply (raw_put_safe GATHER RAW_RC_FRAME_DROP (sbus_frame_drop (out p)))|].
  etransitivity; [by apply (raw_put_safe GATHER RAW_RC_FAILSAFE (sbus_failsafe (out p)))|].
  cbn [snd]. case_match; [reflexivity|]. apply set_rssi_safe. intros _. by case_match.
Qed.

Lemma tick_ppm_safe now c : ctl_safe GATHER c (tick_ppm now c).2.
Proof.
  unfold tick_ppm. destruct (ppm_input now c) as [u c1] eqn:E.
  assert (H1 : ctl_safe GATHER c c1).
  { unfold ppm_input in E. cbv zeta in E. case_match; simplify_eq; [|reflexivity].
    intros Hc. pose proof Hc as (C1 & C2 & C3 & C4 & P1 & P2 & P3 & C5 & C6).
    set (n := if _ <? ppm_decoded_channels _ then _ else _).
    assert (Hn : is_u16 n) by (subst n; by case_match).
    set (vs := blit 0 _ _). assert (Hvs : vals_ok vs) by (apply blit_vals; [by apply Forall_take | by apply raw_vals]).
    assert (Hf : rc_frame GATHER (cio c) (rset RAW_RC PX4IO_P_RAW_RC_DATA (ppm_frame_length (ppm_d c)) (set_raw vs n (cio c)))).
    { etransitivity; [by apply set_raw_frame|]. apply own_frame; [by left | done | done]. }
    split; [|exact Hf]. split_and!; try done. by apply Hf. }
  destruct u; [|exact H1]. cbn [snd]. etransitivity; [exact H1|].
  etransitivity; [by apply (cflag_or_safe GATHER FLAGS_RC_PPM)|].
  etransitivity; by apply raw_clear_safe.
Qed.

Lemma port_dsm_safe now inp c : in_ok inp -> ctl_safe GATHER c (port_dsm now inp c).2.
Proof.
  intros [_ Hi]. unfold port_dsm.
  pose proof (dsm_input_rx now (dsm_read inp) (rc_buf c) (dsm_d c) (Dsm_out false 0)
                (raw_values_of (cio c)) (r_raw_rc_count (cio c)) Hi) as Hr.
  destruct (dsm_input _ _ _ _ _ _ _ _) as [[[u vs] n] p]. set (c1 := set_dsm _ _ _).
  assert (H1 : ctl_safe GATHER c c1).
  { intros Hc. pose proof Hc as (C1 & C2 & C3 & C4 & C5).
    destruct (Hr C4 C2 (raw_vals _ C1) (count_u16 _ C1)) as (Pd & Pb & Pv & Pn).
    pose proof (set_raw_frame GATHER vs n (cio c) Pv Pn) as Hf.
    split; [|exact Hf]. split_and!; try done; try apply C5. by apply Hf. }
  clearbody c1. destruct u; [|exact H1]. cbv zeta. cbn [snd].
  etransitivity; [exact H1|]. etransitivity; [by apply (raw_put_safe GATHER RAW_RC_DSM11 (dsm_11_bit (dout p)))|].
  etransitivity; [by apply (raw_put_safe GATHER RAW_RC_FRAME_DROP (negb (uninitialised inp =? frame_drops (raw_put RAW_RC_DSM11 (dsm_11_bit (dout p)) c1))))|].
  set (c2 := raw_put RAW_RC_FRAME_DROP _ _). clearbody c2.
  assert (H2 : ctl_safe GATHER c2 (raw_clear RAW_RC_FAILSAFE (set_drops (uninitialised inp) c2))).
  { etransitivity; [|by apply raw_clear_safe]. intros Hc. split; [exact Hc | reflexivity]. }
  etransitivity; [exact H2|]. set (c3 := raw_clear _ _). clearbody c3.
  destruct (_ && _) eqn:Ep; [|reflexivity].
  etransitivity; [apply adc_rssi_off_safe|]. apply set_rssi_safe. intros _. unfold is_u16. lia.
Qed.

Lemma port_st24_safe n c : ctl_safe GATHER c (port_st24 n c).2.
Proof.
  unfold port_st24. case_match; [reflexivity|].
  pose proof (port_st24_bytes_rx n 0 (rc_buf c) (st24_d c) (St24_out 0 0 0 (raw_values_of (cio c))) false) as Hr.
  destruct (port_st24_bytes _ _ _ _ _ _) as [[[bf d] o] u]. cbv zeta. cbn [snd]. set (c1 := set_st24 _ _ _).
  assert (H1 : ctl_safe GATHER c c1 /\ (ctl_ok c -> st24_rx_ok o)).
  { assert (Hr' : ctl_ok c -> bytes_ok bf /\ st24_rx_ok o).
    { intros (C1 & C2 & _). apply Hr; [done|]. split_and!; try done; by apply raw_vals. }
    split; [|apply Hr']. intros Hc. destruct (Hr' Hc) as (Pb & Pv & Pc & _). pose proof Hc as (C1 & C2 & C3).
    pose proof (set_raw_frame GATHER (st_channels o) (r_raw_rc_count (cio c)) (cio c) Pv (count_u16 _ C1)) as Hf.
    split; [|exact Hf]. split; [by apply Hf|]. split; [done | exact C3]. }
  clearbody c1. clear Hr. destruct H1 as [H1 Ho]. case_match; [|exact H1].
  intros Hc. destruct (Ho Hc) as (_ & Oc & Or). revert Hc. change (ctl_safe GATHER c (raw_clear RAW_RC_FAILSAFE (raw_clear RAW_RC_FRAME_DROP (cflag_or FLAGS_RC_ST24 (on_cio (rset RAW_RC PX4IO_P_RAW_RC_COUNT (st_channel_count o)) (set_rssi (rssi_adc_counts c1) (st_rssi o) (adc_rssi_off c1))))))).
  etransitivity; [exact H1|]. etransitivity; [apply adc_rssi_off_safe|].
  etransitivity; [by apply (set_rssi_safe GATHER (rssi_adc_counts c1) (st_rssi o))|].
  etransitivity; [apply (own_safe GATHER RAW_RC PX4IO_P_RAW_RC_COUNT (st_channel_count o)); [by left | done | done]|].
  etransitivity; [by apply (cflag_or_safe GATHER FLAGS_RC_ST24)|]. etransitivity; by apply raw_clear_safe.
Qed.

Lemma port_sumd_safe n c : ctl_safe GATHER c (port_sumd n c).2.
Proof.
  unfold port_sumd. case_match; [reflexivity|].
  pose proof (port_sumd_bytes_rx n 0 (rc_buf c) (sumd_d c) (Sumd_out 0 0 0 (raw_values_of (cio c)) false) false) as Hr.
  destruct (port_sumd_bytes _ _ _ _ _ _) as [[[bf d] o] u]. cbv zeta. set (c1 := set_sumd _ _ _).
  assert (H1 : ctl_safe GATHER c c1 /\ (ctl_ok c -> sumd_rx_ok o)).
  { assert (Hr' : ctl_ok c -> bytes_ok bf /\ sumd_rx_ok o).
    { intros (C1 & C2 & _). apply Hr; [done|]. split; [by apply raw_vals | by split]. }
    split; [|apply Hr']. intros Hc. destruct (Hr' Hc) as (Pb & Pv & _). pose proof Hc as (C1 & C2 & C3).
    pose proof (set_raw_frame GATHER (sumd_channels o) (r_raw_rc_count (cio c)) (cio c) Pv (count_u16 _ C1)) as Hf.
    split; [|exact Hf]. split; [by apply Hf|]. split; [done | exact C3]. }
  clearbody c1. clear Hr. destruct H1 as [H1 Ho]. destruct u; [|exact H1]. cbn [snd].
  intros Hc. destruct (Ho Hc) as (_ & Oc). revert Hc. change (ctl_safe GATHER c (raw_put RAW_RC_FAILSAFE (sumd_failsafe o) (raw_clear RAW_RC_FRAME_DROP (cflag_or FLAGS_RC_SUMD (on_cio (rset RAW_RC PX4IO_P_RAW_RC_COUNT (sumd_channel_count o)) c1))))).
  etransitivity; [exact H1|].
  etransitivity; [apply (own_safe GATHER RAW_RC PX4IO_P_RAW_RC_COUNT (sumd_channel_count o)); [by left | done | done]|].
  etransitivity; [by apply (cflag_or_safe GATHER FLAGS_RC_SUMD)|].
  etransitivity; [by apply (raw_clear_safe GATHER RAW_RC_FRAME_DROP) | by apply raw_put_safe].
Qed.

Lemma tick_dsm_port_safe now inp c : in_ok inp -> ctl_safe GATHER c (tick_dsm_port now inp c).2.
Proof.
  intros Hi. unfold tick_dsm_port. case_match; [reflexivity|].
  pose proof (port_dsm_safe now inp c Hi) as H1. destruct (port_dsm now inp c) as [u1 c1].
  pose proof (port_st24_safe (length (dsm_read inp)) c1) as H2. destruct (port_st24 _ c1) as [u2 c2].
  pose proof (port_sumd_safe (length (dsm_read inp)) c2) as H3. destruct (port_sumd _ c2) as [u3 c3].
  cbn [snd] in *. etransitivity; [exact H1|]. etransitivity; [exact H2|]. etransitivity; [exact H3|].
  clear. assert (Hf : forall (u : bool) m d, is_u16 m -> Z.land m (sc_flags GATHER) = m -> ctl_safe GATHER d (if u then cflag_or m d else d))
    by (intros [] m d ? ?; [by apply cflag_or_safe | reflexivity]).
  cbv zeta. etransitivity; [by apply (Hf u1 FLAGS_RC_DSM)|]. etransitivity; [by apply (Hf u2 FLAGS_RC_ST24)|].
  by apply (Hf u3 FLAGS_RC_SUMD).
Qed.

Lemma limit_count_frame s : rc_frame GATHER s (limit_count s).
Proof. unfold limit_count. case_match; [|reflexivity]. apply own_frame; [by left | done | done]. Qed.

Lemma gather_safe now inp c : in_ok inp -> ctl_safe GATHER c (gather now inp c).2.
Proof.
  intros Hi. unfold gather. pose proof (tick_rssi_safe inp c) as H1. set (c1 := tick_rssi inp c) in *. clearbody c1.
  pose proof (tick_sbus_safe now inp c1 Hi) as H2. destruct (tick_sbus now inp c1) as [u2 c2].
  pose proof (tick_ppm_safe now c2) as H3. destruct (tick_ppm now c2) as [u3 c3].
  pose proof (tick_dsm_port_safe now inp c3 Hi) as H4. destruct (tick_dsm_port now inp c3) as [u4 c4].
  cbn [snd] in *. etransitivity; [exact H1|]. etransitivity; [exact H2|]. etransitivity; [exact H3|].
  etransitivity; [exact H4|]. cbv zeta. etransitivity; [apply ctl_safe_io, limit_count_frame|].
  apply own_safe; [by left | done |]. by intros (_ & _ & _ & _ & _ & _ & _ & _ & ?).
Qed.

Lemma rget_nonneg p i s : regs_ok s -> 0 <= rget p i s.
Proof.
  intros (Hl & Hr & Ht). unfold rget. apply (aget_Forall (fun v => 0 <= v)); [|done].
  apply Forall_lookup. intros k x Hk. pose proof (lookup_lt_Some _ _ _ Hk) as Hlt. rewrite Hl in Hlt.
  destruct (Hr p (Z.of_nat k)) as [[? _] _]; [lia|]. unfold rget, aget in *. by rewrite Nat2Z.id, Hk in *.
Qed.

Lemma map_channel_safe i a c : ctl_safe GATHER c (map_channel i a c).2.
Proof.
  unfold map_channel. cbv zeta beta. case_match; [|reflexivity].
  set (mapped := rget RC_CONFIG (i * PX4IO_P_RC_CONFIG_STRIDE + PX4IO_P_RC_CONFIG_ASSIGNMENT) (cio c)).
  set (v := scale_raw _ _). set (thr := throttle_failsafe _ _ _).
  destruct (Z.ltb_spec mapped PX4IO_CONTROL_CHANNELS) as [Hm|Hm].
  - intros Hc. assert (Hu : 0 <= mapped) by (destruct Hc; by apply rget_nonneg).
    revert Hc. cbn [snd]. set (c1 := if _ && _ then _ else c).
    change (ctl_safe GATHER c (on_cio (rset RC_INPUT (PX4IO_P_RC_BASE + mapped) (u16 (if mapped =? 1 then s16 (- v) else v))) c1)).
    assert (H1 : ctl_safe GATHER c c1) by (subst c1; case_match; [by apply raw_put_safe | reflexivity]).
    etransitivity; [exact H1|]. apply own_safe; [by right | | intros _; apply u16_range].
    unfold PX4IO_CONTROL_CHANNELS, PX4IO_P_RC_BASE in *. simpl. lia.
  - case_match; [|reflexivity]. intros Hc. cbn [snd]. split; [|reflexivity].
    destruct Hc as (? & ? & ? & ? & ? & ? & ? & ? & ?). split_and!; try done; apply u16_range.
Qed.

Lemma map_channels_safe n : forall i a c, ctl_safe GATHER c (map_channels n i a c).2.
Proof.
  induction n as [|n IH]; intros i a c; cbn [map_channels]; [reflexivity|].
  pose proof (map_channel_safe i a c) as H. destruct (map_channel i a c) as [a' c'].
  etransitivity; [exact H | apply IH].
Qed.

Lemma zero_unassigned_frame n : forall i a s,
  0 <= i -> i + Z.of_nat n <= 8 -> rc_frame GATHER s (zero_unassigned n i a s).
Proof.
  induction n as [|n IH]; intros i a s Hi Hn; cbn [zero_unassigned]; [reflexivity|].
  etransitivity; [|apply IH; lia]. case_match; [reflexivity|].
  apply own_frame; [by right | unfold PX4IO_P_RC_BASE; simpl; lia | done].
Qed.

Lemma process_frame_safe now c : ctl_safe PASS c (process_frame now c).
Proof.
  unfold process_frame. cbv zeta. set (c0 := on_cio (set_rc_times now) c).
  assert (H0 : ctl_safe PASS c c0) by apply ctl_safe_io, rc_frame_times.
  pose proof (ctl_safe_wider _ _ (map_channels_safe (Z.to_nat (r_raw_rc_count (cio c0))) 0 0 c0)) as H1.
  destruct (map_channels _ 0 0 c0) as [a c1]. cbn [snd] in H1. clearbody c0.
  etransitivity; [exact H0|]. etransitivity; [exact H1|].
  etransitivity; [apply ctl_safe_io, rc_frame_wider, (zero_unassigned_frame (Z.to_nat PX4IO_CONTROL_CHANNELS) 0 a); done|].
  etransitivity; [by apply (cflag_or_safe PASS FLAGS_RC_OK)|]. etransitivity; [by apply (raw_or_safe PASS RAW_RC_RC_OK)|].
  etransitivity; [by apply (raw_put_safe PASS RAW_RC_MAPPING_OK (4 <? a))|].
  apply own_safe; [by right | done | intros _; apply u16_range].
Qed.

Lemma lose_input_safe c : ctl_safe PASS c (lose_input c).
Proof.
  unfold lose_input. cbv zeta. etransitivity; [by apply (cflag_clear_safe PASS (Z.lor FLAGS_OVERRIDE FLAGS_RC_OK))|].
  etransitivity; [by apply (raw_clear_safe PASS RAW_RC_RC_OK)|].
  etransitivity; [|apply ctl_safe_io; by apply rc_frame_alarm].
  apply ctl_safe_io. etransitivity; [apply (own_frame PASS RC_INPUT PX4IO_P_RC_VALID 0); [by right | done | done]|].
  apply own_frame; [by left | done | done].
Qed.

Lemma tick_loss_safe now c : ctl_safe PASS c (tick_loss now c).
Proof.
  unfold tick_loss. cbv zeta. set (c1 := if rc_lost _ _ then _ else c).
  assert (H1 : ctl_safe PASS c c1) by (subst c1; case_match; [by apply cflag_clear_safe | reflexivity]). clearbody c1.
  etransitivity; [exact H1|]. set (c2 := if raw_is _ _ then _ else c1).
  assert (H2 : ctl_safe PASS c1 c2) by (subst c2; case_match; [by apply cflag_clear_safe | reflexivity]). clearbody c2.
  etransitivity; [exact H2|]. case_match; [apply lose_input_safe | reflexivity].
Qed.

Lemma tick_override_safe c : ctl_safe PASS c (tick_override c).
Proof. unfold tick_override. case_match; [by apply cflag_or_safe | by apply cflag_clear_safe]. Qed.

Lemma controls_tick_safe now inp c : in_ok inp -> ctl_safe PASS c (controls_tick now inp c).
Proof.
  intros Hi. unfold controls_tick. pose proof (ctl_safe_wider _ _ (gather_safe now inp c Hi)) as H1.
  destruct (gather now inp c) as [u c1]. cbn [snd] in H1. cbv zeta. etransitivity; [exact H1|].
  etransitivity; [|apply tick_override_safe]. etransitivity; [|apply tick_loss_safe].
  destruct u; [apply process_frame_safe | reflexivity].
Qed.
