(* ===== verification/Px4ioRcLoss.v ===== *)
(** What a pass over the inputs decides: whether there is RC input, its loss
    when the receivers fall silent, and the manual override. *)

From Stdlib Require Import ZArith Lia SpecFloat.
From stdpp Require Import base list numbers.
From S2P Require Import Prelude Float32 RcBuffer Sbus SbusLink St24 Sumd Dsm Px4io Px4ioRegs Px4ioControls.
From S2P Require Import Px4ioFailsafe Px4ioRc.

Local Open Scope Z_scope.

(** * The flags a step sets *)

Lemma status_or x m s :
  regs_ok s -> status_is x (atomic_modify_or STATUS PX4IO_P_STATUS_FLAGS m s) = ftst (fset (r_status_flags s) m) x.
Proof. intros H. unfold status_is, r_status_flags. by rewrite rget_or. Qed.

Lemma status_clear x m s :
  regs_ok s -> status_is x (atomic_modify_clear STATUS PX4IO_P_STATUS_FLAGS m s) = ftst (fclr (r_status_flags s) m) x.
Proof. intros H. unfold status_is, r_status_flags. by rewrite rget_clear. Qed.

Lemma raw_or_is x m c :
  regs_ok (cio c) -> raw_is x (cio (raw_or m c)) = ftst (fset (r_raw_rc_flags (cio c)) m) x.
Proof. intros (H & _). unfold raw_is, r_raw_rc_flags, raw_or, reg_or. cbn [cio on_cio]. by rewrite rget_rset_same. Qed.

Lemma raw_clear_is x m c :
  regs_ok (cio c) -> raw_is x (cio (raw_clear m c)) = ftst (fclr (r_raw_rc_flags (cio c)) m) x.
Proof. intros (H & _). unfold raw_is, r_raw_rc_flags, raw_clear, reg_clear. cbn [cio on_cio]. by rewrite rget_rset_same. Qed.

Lemma ftst_fclr_sub f m x : Z.land x m = x -> ftst (fclr f m) x = false.
Proof.
  intros H. unfold ftst. apply negb_false_iff, Z.eqb_eq. rewrite <- H.
  rewrite (Z.land_comm x), Z.land_assoc, land_fclr_same. by rewrite Z.land_0_l.
Qed.

(** Frames narrower than a pass. *)
Definition OVERRIDE_SCOPE : scope := Scope FLAGS_OVERRIDE 0 false.
Definition MAPPING_SCOPE : scope := Scope 0 RAW_RC_MAPPING_OK false.

Lemma override_frame c : ctl_safe OVERRIDE_SCOPE c (tick_override c).
Proof. unfold tick_override. case_match; [by apply cflag_or_safe | by apply cflag_clear_safe]. Qed.

(** * Reception *)

Lemma process_frame_ok now c :
  ctl_ok c ->
  status_is FLAGS_RC_OK (cio (process_frame now c)) = true
  /\ raw_is RAW_RC_RC_OK (cio (process_frame now c)) = true
  /\ rc_received_time (cio (process_frame now c)) = now.
Proof.
  intros Hc. unfold process_frame. cbv zeta. set (c0 := on_cio (set_rc_times now) c).
  assert (H0 : ctl_ok c0) by (apply (ctl_safe_io PASS (set_rc_times now) c (rc_frame_times now (cio c)) Hc)).
  destruct (map_channels_safe (Z.to_nat (r_raw_rc_count (cio c0))) 0 0 c0 H0) as [H1 F1].
  assert (T0 : rc_received_time (cio c0) = now) by done. destruct H0 as [R0 _].
  destruct (map_channels _ 0 0 c0) as [a c1]. cbn [snd] in *. clearbody c0.
  set (c2 := on_cio (zero_unassigned _ _ _) c1).
  destruct (ctl_safe_io GATHER (zero_unassigned (Z.to_nat PX4IO_CONTROL_CHANNELS) 0 a) c1) as [H2 F2];
    [by apply zero_unassigned_frame | exact H1 |]. change (on_cio _ c1) with c2 in H2, F2.
  assert (T2 : rc_received_time (cio c2) = now).
  { destruct H1 as [R1 _]. rewrite (rf_time _ _ _ (F2 R1) eq_refl), (rf_time _ _ _ (F1 R0) eq_refl). exact T0. }
  clearbody c2. clear F1 F2 H1 R0.
  destruct (cflag_or_safe PASS FLAGS_RC_OK c2) as [H3 _]; [done | done | exact H2|].
  assert (S3 : status_is FLAGS_RC_OK (cio (cflag_or FLAGS_RC_OK c2)) = true).
  { destruct H2 as [R2 _]. unfold cflag_or. cbn [cio on_cio]. rewrite status_or by done. by rewrite ftst_fset_same. }
  assert (T3 : rc_received_time (cio (cflag_or FLAGS_RC_OK c2)) = now)
    by (unfold cflag_or, atomic_modify_or; cbn [cio on_cio]; case_match; done).
  set (c3 := cflag_or FLAGS_RC_OK c2) in *. clearbody c3. clear H2 T2.
  destruct H3 as [R3 H3]. assert (S4 : raw_is RAW_RC_RC_OK (cio (raw_or RAW_RC_RC_OK c3)) = true)
    by (rewrite raw_or_is by done; by rewrite ftst_fset_same).
  assert (H4 : ctl_ok (raw_or RAW_RC_RC_OK c3)).
  { apply (raw_or_safe PASS RAW_RC_RC_OK c3); [done | done | by split]. }
  assert (S5 : status_is FLAGS_RC_OK (cio (raw_or RAW_RC_RC_OK c3)) = true)
    by (unfold raw_or; cbn [cio on_cio]; unfold reg_or; by rewrite status_is_page).
  set (c4 := raw_or RAW_RC_RC_OK c3) in *. assert (T4 : rc_received_time (cio c4) = now) by exact T3.
  clearbody c4. set (put := fun c => on_cio (rset RC_INPUT PX4IO_P_RC_VALID (u16 a)) (raw_put RAW_RC_MAPPING_OK (4 <? a) c)).
  change (on_cio _ (raw_put _ _ c4)) with (put c4).
  assert (F : ctl_safe MAPPING_SCOPE c4 (put c4)).
  { etransitivity; [by apply (raw_put_safe MAPPING_SCOPE RAW_RC_MAPPING_OK (4 <? a))|].
    apply own_safe; [by right | done | intros _; apply u16_range]. }
  destruct (F H4) as [_ F']. destruct H4 as [R4 _]. specialize (F' R4).
  rewrite (rf_flags _ _ _ F') by done. rewrite (rf_raw _ _ _ F') by done. by rewrite (rf_time _ _ _ F').
Qed.

(** The end of a pass, from the decision whether the input is lost. *)
Lemma tick_loss_received now c :
  rc_lost now (cio c) = false -> ctl_safe OVERRIDE_SCOPE c (tick_loss now c).
Proof.
  intros H1. unfold tick_loss. cbv zeta. rewrite H1. case_match; [by apply cflag_clear_safe | reflexivity].
Qed.

(** What the loss clears. *)
Record silenced (s : io) : Prop := Silenced {
  no_rc : status_is FLAGS_RC_OK s = false;
  no_kind x : Z.land x RC_KINDS = x -> status_is x s = false;
  no_raw : raw_is RAW_RC_RC_OK s = false;
  no_valid : rget RC_INPUT PX4IO_P_RC_VALID s = 0;
  no_count : r_raw_rc_count s = 0;
  lost_alarm : ftst (r_status_alarms s) ALARMS_RC_LOST = true
}.

(** The registers [lose_input] writes last. *)
Lemma lose_registers s :
  regs_ok s ->
  let s' := atomic_modify_or STATUS PX4IO_P_STATUS_ALARMS ALARMS_RC_LOST
              (rset RAW_RC PX4IO_P_RAW_RC_COUNT 0 (rset RC_INPUT PX4IO_P_RC_VALID 0 s)) in
  (forall x, status_is x s' = status_is x s) /\ (forall x, raw_is x s' = raw_is x s)
  /\ rget RC_INPUT PX4IO_P_RC_VALID s' = 0 /\ r_raw_rc_count s' = 0
  /\ ftst (r_status_alarms s') ALARMS_RC_LOST = true.
Proof.
  intros R. set (s1 := rset RC_INPUT PX4IO_P_RC_VALID 0 s). set (s2 := rset RAW_RC PX4IO_P_RAW_RC_COUNT 0 s1). cbv zeta.
  assert (R1 : regs_ok s1) by (apply (own_frame PASS RC_INPUT PX4IO_P_RC_VALID 0 s); [by right | done | done | exact R]).
  assert (R2 : regs_ok s2) by (apply (own_frame PASS RAW_RC PX4IO_P_RAW_RC_COUNT 0 s1); [by left | done | done | exact R1]).
  assert (Hpg : forall p i, p <> STATUS ->
            rget p i (atomic_modify_or STATUS PX4IO_P_STATUS_ALARMS ALARMS_RC_LOST s2) = rget p i s2).
  { intros p i Hp. unfold atomic_modify_or. case_match; [done|]. by rewrite rget_rset_page. }
  split_and!.
  - intros x. unfold status_is at 1, r_status_flags. rewrite rget_or_index by done.
    change (status_is x s2 = status_is x s). unfold s2, s1. by rewrite !status_is_page.
  - intros x. unfold raw_is at 1, r_raw_rc_flags. rewrite Hpg by done. unfold s2. rewrite rget_rset_index by done.
    unfold s1. by rewrite rget_rset_page.
  - rewrite Hpg by done. unfold s2. rewrite rget_rset_page by done. unfold s1. apply rget_rset_same; [by apply R | done].
  - unfold r_raw_rc_count. rewrite Hpg by done. apply rget_rset_same; [by apply R1 | done].
  - unfold r_status_alarms. rewrite rget_or by done. by apply ftst_fset_same.
Qed.

Lemma lose_input_silenced c :
  ctl_ok c -> (forall x, Z.land x RC_KINDS = x -> status_is x (cio c) = false) -> silenced (cio (lose_input c)).
Proof.
  intros Hc Hk. set (m := Z.lor FLAGS_OVERRIDE FLAGS_RC_OK).
  destruct (cflag_clear_safe PASS m c) as [H1 _]; [done | exact Hc|]. pose proof Hc as [R _].
  assert (S1 : status_is FLAGS_RC_OK (cio (cflag_clear m c)) = false).
  { unfold cflag_clear. cbn [cio on_cio]. rewrite status_clear by done. by apply ftst_fclr_sub. }
  assert (K1 : forall x, Z.land x RC_KINDS = x -> status_is x (cio (cflag_clear m c)) = false).
  { intros x Hx. unfold cflag_clear. cbn [cio on_cio]. rewrite status_clear by done.
    rewrite ftst_fclr_disj; [by apply Hk|].
    rewrite <- Hx, (Z.land_comm x), Z.land_assoc. change (Z.land m RC_KINDS) with 0. apply Z.land_0_l. }
  unfold lose_input. cbv zeta. fold m. set (c1 := cflag_clear m c) in *. clearbody c1. clear Hk Hc R. destruct H1 as [R1 H1].
  destruct (raw_clear_safe PASS RAW_RC_RC_OK c1) as [[R2 _] _]; [done | by split|].
  assert (A2 : forall x, status_is x (cio (raw_clear RAW_RC_RC_OK c1)) = status_is x (cio c1))
    by (intros x; unfold raw_clear, reg_clear; cbn [cio on_cio]; by rewrite status_is_page).
  destruct (lose_registers _ R2) as (L1 & L2 & L3 & L4 & L5). split.
  - etransitivity; [apply L1|]. by rewrite A2.
  - intros x Hx. etransitivity; [apply L1|]. rewrite A2. by apply K1.
  - etransitivity; [apply L2|]. rewrite raw_clear_is by done. apply ftst_fclr_same.
  - exact L3.
  - exact L4.
  - exact L5.
Qed.

Lemma tick_loss_lost now c : ctl_ok c -> rc_lost now (cio c) = true -> silenced (cio (tick_loss now c)).
Proof.
  intros Hc Hl. unfold tick_loss. cbv zeta. rewrite Hl.
  destruct (cflag_clear_safe PASS RC_KINDS c) as [H1 _]; [done | exact Hc|].
  assert (S1 : forall x, Z.land x RC_KINDS = x -> status_is x (cio (cflag_clear RC_KINDS c)) = false).
  { intros x Hx. destruct Hc as [R _]. unfold cflag_clear. cbn [cio on_cio]. rewrite status_clear by done. by apply ftst_fclr_sub. }
  set (c1 := cflag_clear RC_KINDS c) in *. clearbody c1. clear Hc Hl.
  set (c2 := if raw_is _ _ then _ else c1).
  assert (F2 : ctl_safe OVERRIDE_SCOPE c1 c2) by (subst c2; case_match; [by apply cflag_clear_safe | reflexivity]).
  destruct (F2 H1) as [H2 F2']. destruct H1 as [R1 _]. specialize (F2' R1). clearbody c2.
  apply lose_input_silenced; [exact H2|]. intros x Hx. rewrite (rf_flags _ _ _ F2'); [by apply S1|].
  rewrite <- Hx, <- Z.land_assoc. change (Z.land RC_KINDS (sc_flags OVERRIDE_SCOPE)) with 0. apply Z.land_0_r.
Qed.

(** * Properties *)

Lemma time_or m c : rc_received_time (cio (cflag_or m c)) = rc_received_time (cio c).
Proof. unfold cflag_or, atomic_modify_or. cbn [cio on_cio]. by case_match. Qed.

Lemma time_clear m c : rc_received_time (cio (cflag_clear m c)) = rc_received_time (cio c).
Proof. unfold cflag_clear, atomic_modify_clear. cbn [cio on_cio]. by case_match. Qed.

Lemma time_lose c : rc_received_time (cio (lose_input c)) = rc_received_time (cio c).
Proof.
  rewrite <- (time_clear (Z.lor FLAGS_OVERRIDE FLAGS_RC_OK) c). unfold lose_input. cbv zeta.
  set (c1 := cflag_clear _ c). clearbody c1. cbn [cio on_cio]. unfold atomic_modify_or. by case_match.
Qed.

Lemma rc_time_kept now c :
  rc_received_time (cio (tick_override (tick_loss now c))) = rc_received_time (cio c).
Proof.
  assert (rc_received_time (cio (tick_loss now c)) = rc_received_time (cio c)) as <-.
  { unfold tick_loss. cbv zeta. destruct (rc_lost now (cio c)), (raw_is _ _); by rewrite ?time_lose, ?time_clear. }
  unfold tick_override. destruct (_ && _); [apply time_or | apply time_clear].
Qed.

Lemma just_received t s : rc_received_time s = t -> rc_lost t s = false.
Proof. intros <-. unfold rc_lost. by rewrite Z.sub_diag. Qed.

(** What the state after the reception tells of the end of the pass. *)
Lemma end_of_pass now c :
  ctl_ok c ->
  let s' := cio (tick_override (tick_loss now c)) in
  status_is FLAGS_RC_OK s' = status_is FLAGS_RC_OK (cio c) && negb (rc_lost now (cio c))
  /\ raw_is RAW_RC_RC_OK s' = raw_is RAW_RC_RC_OK (cio c) && negb (rc_lost now (cio c)).
Proof.
  intros Hc. cbv zeta. destruct (tick_loss_safe now c Hc) as [H1 _].
  destruct (override_frame _ H1) as [_ F]. destruct H1 as [R1 _]. specialize (F R1).
  rewrite (rf_flags _ _ _ F), (rf_raw _ _ _ F) by done. clear F R1.
  destruct (rc_lost now (cio c)) eqn:El; simpl.
  - destruct (tick_loss_lost now c Hc El) as [-> _ -> _ _ _]. by rewrite !andb_false_r.
  - destruct (tick_loss_received now c El Hc) as [_ F]. destruct Hc as [R _]. specialize (F R).
    rewrite (rf_flags _ _ _ F), (rf_raw _ _ _ F) by done. by rewrite !andb_true_r.
Qed.

(** The flag that says there is RC input is exact.  After a pass, with
    whatever bytes the receivers delivered, it is on if a frame was received in
    this pass, or if it was on and the last reception is at most 200 ms old;
    the flag of the raw page agrees, and the time of the last reception is that
    of this pass or as before. *)
Theorem rc_ok_exact (now : Z) (inp : rc_in) (c : ctl) :
  in_ok inp -> ctl_ok c ->
  let received := (gather now inp c).1 in
  let s' := cio (controls_tick now inp c) in
  status_is FLAGS_RC_OK s' = received || status_is FLAGS_RC_OK (cio c) && negb (rc_lost now (cio c))
  /\ raw_is RAW_RC_RC_OK s' = received || raw_is RAW_RC_RC_OK (cio c) && negb (rc_lost now (cio c))
  /\ rc_received_time s' = (if received then now else rc_received_time (cio c)).
Proof.
  intros Hi Hc. cbv zeta. unfold controls_tick. destruct (gather_safe now inp c Hi Hc) as [H1 F1].
  pose proof Hc as [R _]. specialize (F1 R).
  assert (T1 : rc_received_time (cio (gather now inp c).2) = rc_received_time (cio c)) by exact (rf_time _ _ _ F1 eq_refl).
  destruct (gather now inp c) as [u c1]. cbn [fst snd] in *. rewrite rc_time_kept.
  destruct u; cbn [orb].
  - destruct (process_frame_ok now c1 H1) as (E1 & E2 & E3). destruct (process_frame_safe now c1 H1) as [H2 _].
    destruct (end_of_pass now _ H2) as [-> ->]. rewrite E1, E2, (just_received now) by done. done.
  - destruct (end_of_pass now c1 H1) as [-> ->]. rewrite (rf_flags _ _ _ F1), (rf_raw _ _ _ F1) by done.
    unfold rc_lost. by rewrite T1.
Qed.

(** Nothing is read from the receivers, and the last PPM frame is old. *)
Definition silent (now : Z) (inp : rc_in) (c : ctl) : Prop :=
  sbus_read inp = [] /\ dsm_read inp = [] /\ 200000 <= u64 (now - ppm_last_valid_decode (ppm_d c)).

Lemma silent_gather now inp c : silent now inp c -> (gather now inp c).1 = false.
Proof.
  intros (Hs & Hd & Hp). unfold gather. set (c1 := tick_rssi inp c).
  assert (P1 : ppm_d c1 = ppm_d c) by (subst c1; unfold tick_rssi; cbv zeta; repeat case_match; reflexivity).
  clearbody c1. cbv zeta. destruct (tick_sbus now inp c1) as [u2 c2] eqn:E2.
  assert (H2 : u2 = false /\ ppm_d c2 = ppm_d c).
  { unfold tick_sbus in E2. rewrite Hs in E2. case_match; [by simplify_eq|]. cbn [sbus_input decode_ret] in E2.
    cbv zeta in E2. injection E2 as <- <-. by split. }
  clear E2. destruct H2 as [-> P2]. destruct (tick_ppm now c2) as [u3 c3] eqn:E3.
  assert (u3 = false) as ->.
  { unfold tick_ppm, ppm_input in E3. cbv zeta in E3. rewrite P2, (proj2 (Z.ltb_ge _ _)) in E3 by done. by simplify_eq. }
  clear E3. destruct (tick_dsm_port now inp c3) as [u4 c4] eqn:E4.
  assert (u4 = false) as ->; [|done].
  unfold tick_dsm_port, port_dsm, port_st24, port_sumd in E4. rewrite Hd in E4. case_match; [by simplify_eq|].
  cbn [dsm_input length port_st24_bytes port_sumd_bytes] in E4. cbv zeta in E4. cbn [fst snd andb orb] in E4.
  repeat case_match; by simplify_eq.
Qed.

(** C29: loss of the RC input.  When nothing has been received for more than
    200 ms the pass withdraws everything that rested on it: the RC and receiver
    flags, the valid channels and their number and the manual override are
    cleared, and the loss is reported as an alarm. *)
Theorem rc_loss (now : Z) (inp : rc_in) (c : ctl) :
  in_ok inp -> ctl_ok c -> silent now inp c -> rc_lost now (cio c) = true ->
  silenced (cio (controls_tick now inp c)) /\ status_is FLAGS_OVERRIDE (cio (controls_tick now inp c)) = false.
Proof.
  intros Hi Hc Hs Hl. unfold controls_tick. pose proof (silent_gather now inp c Hs) as Hu.
  destruct (gather_safe now inp c Hi Hc) as [H1 F1]. pose proof Hc as [R _]. specialize (F1 R).
  assert (T1 : rc_received_time (cio (gather now inp c).2) = rc_received_time (cio c)) by exact (rf_time _ _ _ F1 eq_refl).
  destruct (gather now inp c) as [u c1]. cbn [fst snd] in *. subst u. clear F1 R Hc.
  assert (L1 : rc_lost now (cio c1) = true) by (unfold rc_lost; by rewrite T1).
  pose proof (tick_loss_lost now c1 H1 L1) as S2. destruct (tick_loss_safe now c1 H1) as [H2 _].
  set (c2 := tick_loss now c1) in *. clearbody c2. unfold tick_override.
  assert (override_possible (cio c2) = false) as ->
    by (unfold override_possible; rewrite (no_rc _ S2); by rewrite andb_false_r).
  destruct H2 as [R2 H2]. pose proof (rc_frame_clear OVERRIDE_SCOPE FLAGS_OVERRIDE (cio c2) eq_refl R2) as F.
  cbn [andb]. unfold cflag_clear. cbn [cio on_cio]. split; [|rewrite status_clear by done; apply ftst_fclr_same].
  destruct S2 as [A B C D E G]. split.
  - rewrite (rf_flags _ _ _ F) by done. exact A.
  - intros x Hx. rewrite (rf_flags _ _ _ F); [by apply B|].
    rewrite <- Hx, <- Z.land_assoc. change (Z.land RC_KINDS (sc_flags OVERRIDE_SCOPE)) with 0. apply Z.land_0_r.
  - rewrite (rf_raw _ _ _ F) by done. exact C.
  - rewrite <- D. unfold atomic_modify_clear. case_match; [done | by apply rget_rset_page].
  - rewrite <- E. unfold atomic_modify_clear. case_match; [done | by apply rget_rset_page].
  - rewrite <- G. unfold r_status_alarms, atomic_modify_clear. case_match; [done | by rewrite rget_rset_index].
Qed.

(** The manual override is exact.  After every pass the override flag is on
    if and only if the override is allowed, there is RC input that is not in
    failsafe, RC handling is enabled and a mixer is loaded, and either the
    override switch is on or the FMU is lost and immediate override is
    configured without termination - all read from the registers the pass
    leaves. *)
Theorem override_exact (now : Z) (inp : rc_in) (c : ctl) :
  in_ok inp -> ctl_ok c ->
  let c' := controls_tick now inp c in
  status_is FLAGS_OVERRIDE (cio c')
  = override_possible (cio c') && override_wanted (rc_value_override c') (cio c').
Proof.
  intros Hi Hc. cbv zeta. unfold controls_tick. destruct (gather_safe now inp c Hi Hc) as [H1 _].
  destruct (gather now inp c) as [u c1]. cbn [snd] in H1.
  set (c2 := if u then _ else c1). assert (H2 : ctl_ok c2)
    by (subst c2; destruct u; [by apply (process_frame_safe now c1 H1) | done]).
  destruct (tick_loss_safe now c2 H2) as [[R3 H3] _]. set (c3 := tick_loss now c2) in *. clearbody c3.
  set (on := override_possible (cio c3) && override_wanted (rc_value_override c3) (cio c3)).
  assert (E : rc_value_override (tick_override c3) = rc_value_override c3
              /\ override_possible (cio (tick_override c3)) = override_possible (cio c3)
              /\ override_wanted (rc_value_override c3) (cio (tick_override c3))
                 = override_wanted (rc_value_override c3) (cio c3)).
  { destruct (override_frame c3 (conj R3 H3)) as [_ F]. specialize (F R3).
    split; [unfold tick_override; by case_match|].
    assert (Ha : r_setup_arming (cio (tick_override c3)) = r_setup_arming (cio c3)) by (apply (rf_setup _ _ _ F); done).
    unfold override_possible, override_wanted, arming_is. rewrite Ha.
    rewrite !(rf_flags _ _ _ F), (rf_raw _ _ _ F) by done. done. }
  destruct E as (-> & -> & ->). fold on. unfold tick_override. fold on. destruct on.
  - unfold cflag_or. cbn [cio on_cio]. rewrite status_or by done. by apply ftst_fset_same.
  - unfold cflag_clear. cbn [cio on_cio]. rewrite status_clear by done. apply ftst_fclr_same.
Qed.

(** * From power-up *)

Lemma default_map_ok n : forall i s,
  0 <= i -> i + Z.of_nat n <= PX4IO_RC_INPUT_CHANNELS -> regs_ok s -> regs_ok (default_map n i s).
Proof.
  unfold PX4IO_RC_INPUT_CHANNELS.
  induction n as [|n IH]; intros i s Hi Hn Hs; cbn [default_map]; [done|]. apply IH; [lia | lia |].
  assert (Hset : forall k v s, 0 <= k < 6 -> is_u16 v -> regs_ok s ->
            regs_ok (rset RC_CONFIG (i * PX4IO_P_RC_CONFIG_STRIDE + k) v s)).
  { intros k v s0 Hk Hv Hs0. apply (upd_ok s0); [done|]. apply upd_reg; [|by split|done].
    unfold PX4IO_P_RC_CONFIG_STRIDE. simpl. lia. }
  cbn [fold_left]. repeat (apply Hset; [done | first [done | unfold is_u16; lia] |]). done.
Qed.

Definition powered_up : ctl := controls_init 0 (io_init 330).

Lemma powered_up_ok : ctl_ok powered_up.
Proof.
  assert (Hf : Forall is_u8 rc_decode_buf_init) by (by apply Forall_replicate).
  split; [|split_and!; try done; try (vm_compute; done); by apply Forall_replicate].
  unfold powered_up, controls_init. cbn [cio]. apply default_map_ok; [done | done |].
  apply (own_frame PASS RAW_RC PX4IO_P_RAW_RC_COUNT 0 (io_init 330)); [by left | done | done | exact regs_ok_init].
Qed.

(** Nothing is connected. *)
Definition no_bytes : rc_in := Rc_in 0xffff [] [] 0.

Lemma no_bytes_ok : in_ok no_bytes.
Proof. split; constructor. Qed.

Lemma rc_ok_exact_witness :
  ctl_ok powered_up /\ rc_received_time (cio (controls_tick 1000 no_bytes powered_up)) = 0.
Proof.
  split; [exact powered_up_ok|].
  destruct (rc_ok_exact 1000 no_bytes powered_up no_bytes_ok powered_up_ok) as (_ & _ & ->). by vm_compute.
Defined.

Lemma rc_loss_witness : silenced (cio (controls_tick 1000000 no_bytes powered_up)).
Proof.
  refine (proj1 (rc_loss 1000000 no_bytes powered_up no_bytes_ok powered_up_ok _ _)); [|by vm_compute].
  split; [done|]. split; [done|]. by vm_compute.
Defined.

Lemma override_exact_witness :
  ctl_ok powered_up /\ status_is FLAGS_OVERRIDE (cio (controls_tick 1000 no_bytes powered_up)) = false.
Proof.
  split; [exact powered_up_ok|].
  rewrite (override_exact 1000 no_bytes powered_up no_bytes_ok powered_up_ok). by vm_compute.
Defined.
