(* ===== verification/Px4ioRcMap.v ===== *)
(** The mapping of the RC channels in PX4IO: the scaled value of a channel, what
    a received frame leaves in the control registers, the throttle failsafe, and
    a packet that arrives in pieces. *)

From Stdlib Require Import ZArith Lia SpecFloat.
From stdpp Require Import base list numbers.
From S2P Require Import Prelude Float32 RcBuffer Sbus SbusLink St24 Sumd Dsm Px4io Px4ioRegs Px4ioControls.
From S2P Require Import Px4ioRc Px4ioRcLoss.

Local Open Scope Z_scope.

(** * The scaled value *)

(** A configuration whose limits are in order. *)
Definition ordered (conf : Z -> Z) : Prop := conf PX4IO_P_RC_CONFIG_MIN <= conf PX4IO_P_RC_CONFIG_MAX.

Lemma constrain_range conf raw :
  ordered conf -> conf PX4IO_P_RC_CONFIG_MIN <= constrain_raw conf raw <= conf PX4IO_P_RC_CONFIG_MAX.
Proof.
  unfold ordered, constrain_raw. intros H. cbv zeta.
  destruct (Z.ltb_spec raw (conf PX4IO_P_RC_CONFIG_MIN));
    match goal with |- context [?a <? ?b] => destruct (Z.ltb_spec a b) end; lia.
Qed.

Lemma constrain_high conf raw :
  ordered conf -> conf PX4IO_P_RC_CONFIG_MAX <= raw -> constrain_raw conf raw = conf PX4IO_P_RC_CONFIG_MAX.
Proof.
  unfold ordered, constrain_raw. intros H Hr. cbv zeta.
  destruct (Z.ltb_spec raw (conf PX4IO_P_RC_CONFIG_MIN)); [lia|].
  destruct (Z.ltb_spec (conf PX4IO_P_RC_CONFIG_MAX) raw); lia.
Qed.

Lemma constrain_low conf raw :
  ordered conf -> raw <= conf PX4IO_P_RC_CONFIG_MIN -> constrain_raw conf raw = conf PX4IO_P_RC_CONFIG_MIN.
Proof.
  unfold ordered, constrain_raw. intros H Hr. cbv zeta.
  destruct (Z.ltb_spec raw (conf PX4IO_P_RC_CONFIG_MIN)); rewrite (proj2 (Z.ltb_ge _ _)) by lia; lia.
Qed.

Lemma fraction_bounds conf raw n d :
  ordered conf -> scale_fraction conf (constrain_raw conf raw) = Some (n, d) -> 0 < d /\ - d <= n <= d /\ n <> 0.
Proof.
  intros H. pose proof (constrain_range conf raw H) as Hr. set (r := constrain_raw conf raw) in *. clearbody r.
  unfold scale_fraction. cbv zeta.
  destruct (Z.ltb_spec (conf PX4IO_P_RC_CONFIG_CENTER + conf PX4IO_P_RC_CONFIG_DEADZONE) r).
  - intros [= <- <-]. lia.
  - destruct (Z.ltb_spec r (conf PX4IO_P_RC_CONFIG_CENTER - conf PX4IO_P_RC_CONFIG_DEADZONE)); [|done].
    intros [= <- <-]. lia.
Qed.

(** The quotient of a full deflection, in single precision, is exact. *)
Definition full_scale (num den : Z) : Z := f_trunc (fmul (f_of_Z 10000) (fdiv (f_of_Z num) (f_of_Z den))).

Lemma full_scale_table :
  forallb (fun n => (full_scale n n =? 10000) && (full_scale (- n) n =? -10000)) (seqZ 1 2500) = true.
Proof. vm_compute. reflexivity. Qed.

Lemma full_scale_exact n : 1 <= n <= 2500 -> full_scale n n = 10000 /\ full_scale (- n) n = -10000.
Proof.
  intros Hn. pose proof full_scale_table as Ht. rewrite forallb_forall in Ht.
  specialize (Ht n). rewrite andb_true_iff, !Z.eqb_eq in Ht. apply Ht, list_elem_of_In, elem_of_seqZ. lia.
Qed.

(** The reversal bit. *)
Definition reversed (conf : Z -> Z) (v : Z) : Z :=
  if ftst (conf PX4IO_P_RC_CONFIG_OPTIONS) OPTIONS_REVERSE then s16 (- v) else v.

Lemma scale_fraction_of conf raw n d :
  scale_fraction conf raw = Some (n, d) -> scale_raw conf raw = reversed conf (s16 (full_scale n d)).
Proof. intros H. unfold scale_raw, reversed, full_scale. by rewrite H. Qed.

(** The scaling of a channel.  For a configuration that PX4IO accepts
    (limits in order, at most 2500 us) the comment in the code holds: whatever
    the raw pulse, no division is by zero and the quotient is at most one in
    magnitude.  A pulse at or beyond the upper (lower) limit gives exactly 10000
    (-10000), unless the limit is in the dead zone, and a pulse in the dead zone
    gives 0; the reverse option negates. *)
Theorem scale_exact (conf : Z -> Z) (raw : Z) :
  0 <= conf PX4IO_P_RC_CONFIG_MIN <= conf PX4IO_P_RC_CONFIG_CENTER ->
  conf PX4IO_P_RC_CONFIG_CENTER <= conf PX4IO_P_RC_CONFIG_MAX <= 2500 ->
  0 <= conf PX4IO_P_RC_CONFIG_DEADZONE ->
  let lo := conf PX4IO_P_RC_CONFIG_CENTER - conf PX4IO_P_RC_CONFIG_DEADZONE in
  let hi := conf PX4IO_P_RC_CONFIG_CENTER + conf PX4IO_P_RC_CONFIG_DEADZONE in
  let r := constrain_raw conf raw in
  (forall n d, scale_fraction conf r = Some (n, d) -> 0 < d /\ - d <= n <= d)
  /\ (lo <= r <= hi -> scale_raw conf r = 0)
  /\ (hi < conf PX4IO_P_RC_CONFIG_MAX <= raw -> scale_raw conf r = reversed conf 10000)
  /\ (raw <= conf PX4IO_P_RC_CONFIG_MIN < lo -> scale_raw conf r = reversed conf (-10000)).
Proof.
  intros Hmin Hmax Hdz lo hi r. assert (Ho : ordered conf) by (unfold ordered; lia).
  split; [|split; [|split]].
  - intros n d H. destruct (fraction_bounds conf raw n d Ho H) as (? & ? & _). done.
  - intros Hr. unfold scale_raw, scale_fraction. cbv zeta. fold lo hi.
    rewrite (proj2 (Z.ltb_ge _ _)), (proj2 (Z.ltb_ge _ _)) by lia. by case_match.
  - intros Hr. assert (Er : r = conf PX4IO_P_RC_CONFIG_MAX) by (apply constrain_high; [done | lia]).
    set (d := conf PX4IO_P_RC_CONFIG_MAX - conf PX4IO_P_RC_CONFIG_CENTER - conf PX4IO_P_RC_CONFIG_DEADZONE).
    assert (Hd : 1 <= d <= 2500) by (subst d hi; lia).
    rewrite (scale_fraction_of conf r d d), (proj1 (full_scale_exact d Hd)); [done|].
    unfold scale_fraction. cbv zeta. fold hi. rewrite (proj2 (Z.ltb_lt _ _)) by lia. by rewrite Er.
  - intros Hr. assert (Er : r = conf PX4IO_P_RC_CONFIG_MIN) by (apply constrain_low; [done | lia]).
    set (d := conf PX4IO_P_RC_CONFIG_CENTER - conf PX4IO_P_RC_CONFIG_DEADZONE - conf PX4IO_P_RC_CONFIG_MIN).
    assert (Hd : 1 <= d <= 2500) by (subst d lo; lia).
    rewrite (scale_fraction_of conf r (- d) d), (proj2 (full_scale_exact d Hd)); [done|].
    unfold scale_fraction. cbv zeta. fold lo hi. rewrite (proj2 (Z.ltb_ge _ _)) by (subst lo hi; lia).
    rewrite (proj2 (Z.ltb_lt _ _)) by (subst lo; lia). rewrite Er. f_equal. f_equal; subst d lo; lia.
Qed.

(** The default configuration of a channel. *)
Definition default_conf (k : Z) : Z :=
  if k =? PX4IO_P_RC_CONFIG_MIN then 1000 else if k =? PX4IO_P_RC_CONFIG_CENTER then 1500
  else if k =? PX4IO_P_RC_CONFIG_MAX then 2000 else if k =? PX4IO_P_RC_CONFIG_DEADZONE then 30
  else if k =? PX4IO_P_RC_CONFIG_OPTIONS then OPTIONS_ENABLED else 0.

Lemma scale_exact_witness : scale_raw default_conf (constrain_raw default_conf 2100) = 10000.
Proof.
  destruct (scale_exact default_conf 2100 ltac:(vm_compute; split; congruence) ltac:(vm_compute; split; congruence)
              ltac:(vm_compute; congruence)) as (_ & _ & H & _).
  apply H. vm_compute. split; congruence.
Defined.

(** * The throttle failsafe *)

(** The throttle failsafe cannot act.  It looks for a throttle pulse outside
    the calibrated range, but after the pulse has been constrained to that
    range: for a channel mapped to the throttle, with its limits in order and
    the threshold set, the failsafe flag is cleared whatever the pulse is - even
    when the receiver itself has just reported a failsafe. *)
Theorem throttle_failsafe_never (i assigned : Z) (c : ctl) :
  ctl_ok c ->
  rc_enabled i (cio c) -> rc_conf i PX4IO_P_RC_CONFIG_ASSIGNMENT (cio c) = 3 ->
  ordered (fun k => rc_conf i k (cio c)) -> thr_failsafe_us (cio c) <> 0 ->
  raw_is RAW_RC_FAILSAFE (cio (map_channel i assigned c).2) = false.
Proof.
  intros [R _] He Ha Ho Ht. unfold map_channel. cbv zeta beta.
  change (rget RC_CONFIG (i * PX4IO_P_RC_CONFIG_STRIDE + ?k) (cio c)) with (rc_conf i k (cio c)).
  rewrite He, Ha. change (3 <? PX4IO_CONTROL_CHANNELS) with true. change (3 =? 3) with true.
  rewrite (proj2 (Z.eqb_neq _ _) Ht). cbn [andb negb snd].
  set (conf := fun k => rc_conf i k (cio c)).
  change (fun k => rget RC_CONFIG (i * PX4IO_P_RC_CONFIG_STRIDE + k) (cio c)) with conf.
  set (raw := rget RAW_RC _ _). pose proof (constrain_range conf raw Ho) as Hr.
  assert (throttle_failsafe conf (thr_failsafe_us (cio c)) (constrain_raw conf raw) = false) as ->.
  { unfold throttle_failsafe. destruct Hr as [H1 H2].
    by rewrite (proj2 (Z.ltb_ge _ _) H1), (proj2 (Z.ltb_ge _ _) H2). }
  cbn [cio on_cio]. rewrite raw_is_page by done. cbn [raw_put]. rewrite raw_clear_is by done. apply ftst_fclr_same.
Qed.

(** A throttle at 900 us, below the calibrated 1000, with the threshold at 950. *)
Definition low_throttle : ctl :=
  on_cio (fun s => rset SETUP PX4IO_P_SETUP_RC_THR_FAILSAFE_US 950 (rset RAW_RC (PX4IO_P_RAW_RC_BASE + 3) 900 s)) powered_up.

Lemma ctl_ok_io f c : ctl_ok c -> (regs_ok (cio c) -> regs_ok (f (cio c))) -> ctl_ok (on_cio f c).
Proof. intros [R H] Hf. split; [by apply Hf | exact H]. Qed.

Lemma low_throttle_ok : ctl_ok low_throttle.
Proof.
  apply ctl_ok_io; [exact powered_up_ok|]. generalize (cio powered_up). intros s R.
  eapply upd_ok; [|apply upd_reg; [done | | done]].
  - apply (own_frame PASS RAW_RC (PX4IO_P_RAW_RC_BASE + 3) 900); [by left | done | done | exact R].
  - split; [done|]. split_and!; try done. intros _. right. lia.
Qed.

Lemma throttle_failsafe_never_witness :
  ctl_ok low_throttle /\ raw_is RAW_RC_FAILSAFE (cio (map_channel 3 0 low_throttle).2) = false.
Proof.
  split; [exact low_throttle_ok|].
  apply (throttle_failsafe_never 3 0 low_throttle low_throttle_ok); vm_compute; congruence.
Defined.

(** * A received frame *)

(** Channel [i] is enabled and assigned to control [k], and the value it then
    gives to that control; pitch is inverted. *)
Definition routed (s : io) (i k : Z) : bool :=
  ftst (rc_conf i PX4IO_P_RC_CONFIG_OPTIONS s) OPTIONS_ENABLED && (rc_conf i PX4IO_P_RC_CONFIG_ASSIGNMENT s =? k).

Definition control_of (s : io) (i : Z) : Z :=
  let conf := fun k => rc_conf i k s in
  let v := scale_raw conf (constrain_raw conf (rget RAW_RC (PX4IO_P_RAW_RC_BASE + i) s)) in
  u16 (if conf PX4IO_P_RC_CONFIG_ASSIGNMENT =? 1 then s16 (- v) else v).

(** The value control [k] gets from the channels [is]: that of the last channel
    routed to it. *)
Definition from_channels (s : io) (k : Z) (is_ : list Z) (before : option Z) : option Z :=
  fold_left (fun acc i => if routed s i k then Some (control_of s i) else acc) is_ before.

(** What the loop over the channels keeps, with the values given so far. *)
Record mapping (s : io) (acc : Z -> option Z) (assigned : Z) (c : ctl) : Prop := Mapping {
  mp_ok : ctl_ok c;
  mp_conf i : rget RC_CONFIG i (cio c) = rget RC_CONFIG i s;
  mp_raw i : PX4IO_P_RAW_RC_BASE <= i -> rget RAW_RC i (cio c) = rget RAW_RC i s;
  mp_bits k : 0 <= k < 8 -> Z.testbit assigned k = bool_decide (is_Some (acc k));
  mp_vals k v : 0 <= k < 8 -> acc k = Some v -> rget RC_INPUT (PX4IO_P_RC_BASE + k) (cio c) = v;
  mp_mask : 0 <= assigned < 256
}.

Lemma testbit_set a m k : 0 <= m -> 0 <= k -> Z.testbit (Z.lor a (Z.shiftl 1 m)) k = Z.testbit a k || (m =? k).
Proof.
  intros Hm Hk. rewrite Z.lor_spec. f_equal. rewrite Z.shiftl_1_l, Z.pow2_bits_eqb by done. apply Z.eqb_sym || apply eq_refl.
Qed.

(** The raw flags change nothing the mapping reads or writes. *)
Lemma mapping_flags s acc a c m on :
  is_u16 m -> Z.land m (sc_raw GATHER) = m -> mapping s acc a c -> mapping s acc a (raw_put m on c).
Proof.
  intros Hm Hd [Hc H1 H2 H3 H4 H5]. destruct (raw_put_safe GATHER m on c Hm Hd Hc) as [Hc' _].
  assert (Hp : forall p i, p <> RAW_RC \/ PX4IO_P_RAW_RC_BASE <= i -> rget p i (cio (raw_put m on c)) = rget p i (cio c)).
  { intros p i Hpi. assert (forall v, rget p i (rset RAW_RC PX4IO_P_RAW_RC_FLAGS v (cio c)) = rget p i (cio c)) as Hv.
    { intros v. destruct (decide (p = RAW_RC)) as [->|]; [|by apply rget_rset_page].
      destruct Hpi as [|Hi]; [done|]. unfold PX4IO_P_RAW_RC_BASE, PX4IO_P_RAW_RC_FLAGS in *. apply rget_rset_index; lia. }
    destruct on; apply Hv. }
  split; intros; rewrite ?Hp by (by left); auto. rewrite Hp by (by right). auto.
Qed.

(** [map_channel] by cases. *)
Lemma map_channel_eq i a c :
  map_channel i a c =
  let m := rc_conf i PX4IO_P_RC_CONFIG_ASSIGNMENT (cio c) in
  let thr := thr_failsafe_us (cio c) in
  let conf := fun k => rc_conf i k (cio c) in
  let raw := constrain_raw conf (rget RAW_RC (PX4IO_P_RAW_RC_BASE + i) (cio c)) in
  if ftst (rc_conf i PX4IO_P_RC_CONFIG_OPTIONS (cio c)) OPTIONS_ENABLED then
    if m <? PX4IO_CONTROL_CHANNELS then
      (Z.lor a (Z.shiftl 1 m),
       on_cio (rset RC_INPUT (PX4IO_P_RC_BASE + m) (control_of (cio c) i))
         (if (m =? 3) && negb (thr =? 0) then raw_put RAW_RC_FAILSAFE (throttle_failsafe conf thr raw) c else c))
    else if m =? PX4IO_P_RC_CONFIG_ASSIGNMENT_MODESWITCH then (a, set_override (u16 (scale_raw conf raw)) c)
    else (a, c)
  else (a, c).
Proof. reflexivity. Qed.

(** A channel that is routed to none of the controls. *)
Lemma mapping_unrouted s acc a c c' i :
  (forall k, 0 <= k < 8 -> routed s i k = false) -> ctl_ok c' -> cio c' = cio c -> mapping s acc a c ->
  mapping s (fun k => if routed s i k then Some (control_of s i) else acc k) a c'.
Proof. intros Hr Hok E [Hc H1 H2 H3 H4 H5]. split; try done; rewrite ?E; auto; intros k; intros; rewrite ?Hr in * by done; auto. Qed.

Lemma mapping_routed s acc a c i m :
  0 <= m < 8 -> (forall k, routed s i k = (m =? k)) ->
  ctl_ok (on_cio (rset RC_INPUT (PX4IO_P_RC_BASE + m) (control_of s i)) c) -> mapping s acc a c ->
  mapping s (fun k => if routed s i k then Some (control_of s i) else acc k) (Z.lor a (Z.shiftl 1 m))
    (on_cio (rset RC_INPUT (PX4IO_P_RC_BASE + m) (control_of s i)) c).
Proof.
  intros Hmr Hr Hok [Hc H1 H2 H3 H4 H5]. split; [done| | | | |]; cbn [cio on_cio].
  - intros j. by rewrite rget_rset_page.
  - intros j Hj. rewrite rget_rset_page by done. auto.
  - intros k Hk. rewrite testbit_set, H3, Hr by lia. destruct (Z.eqb_spec m k); [|by rewrite orb_false_r].
    rewrite orb_true_r. symmetry. by apply bool_decide_eq_true_2.
  - intros k v Hk. rewrite Hr. destruct (Z.eqb_spec m k) as [->|].
    + intros [= <-]. destruct Hc as [(Hl & _) _]. apply rget_rset_same; [apply Hl|].
      unfold PX4IO_P_RC_BASE. simpl. lia.
    + intros Hv. rewrite rget_rset_index by (unfold PX4IO_P_RC_BASE; lia). auto.
  - apply (lor_bounded 8); [done | done |]. rewrite Z.shiftl_1_l. split; [lia|]. apply Z.pow_lt_mono_r; lia.
Qed.

Lemma map_channel_mapping s acc a c i :
  0 <= i -> mapping s acc a c ->
  let '(a', c') := map_channel i a c in
  mapping s (fun k => if routed s i k then Some (control_of s i) else acc k) a' c'.
Proof.
  intros Hi Hm. pose proof (map_channel_safe i a c (mp_ok _ _ _ _ Hm)) as [Hok _]. revert Hok.
  assert (Econf : forall k, rc_conf i k (cio c) = rc_conf i k s) by (intros k; apply (mp_conf _ _ _ _ Hm)).
  assert (Eraw : rget RAW_RC (PX4IO_P_RAW_RC_BASE + i) (cio c) = rget RAW_RC (PX4IO_P_RAW_RC_BASE + i) s)
    by (apply (mp_raw _ _ _ _ Hm); lia).
  assert (Ev : control_of (cio c) i = control_of s i).
  { unfold control_of, scale_raw, scale_fraction, constrain_raw. cbv zeta. by rewrite !Econf, Eraw. }
  rewrite map_channel_eq. cbv zeta. rewrite Ev, !Econf.
  assert (H0 : 0 <= rc_conf i PX4IO_P_RC_CONFIG_ASSIGNMENT s)
    by (rewrite <- Econf; apply rget_nonneg; apply (mp_ok _ _ _ _ Hm)).
  assert (Hr : forall k, routed s i k = ftst (rc_conf i PX4IO_P_RC_CONFIG_OPTIONS s) OPTIONS_ENABLED
                                       && (rc_conf i PX4IO_P_RC_CONFIG_ASSIGNMENT s =? k)) by reflexivity.
  set (m := rc_conf i PX4IO_P_RC_CONFIG_ASSIGNMENT s) in *. set (thr := throttle_failsafe _ _ _). clearbody thr.
  destruct (ftst _ OPTIONS_ENABLED); cbn [andb] in Hr.
  - destruct (Z.ltb_spec m PX4IO_CONTROL_CHANNELS) as [Hlt|Hge]; unfold PX4IO_CONTROL_CHANNELS in *.
    + cbn [snd]. intros Hok. apply mapping_routed; [lia | done | done |].
      destruct (_ && _); [by apply mapping_flags | done].
    + assert (Hno : forall k, 0 <= k < 8 -> routed s i k = false) by (intros k Hk; rewrite Hr; lia).
      destruct (m =? _); intros Hok; by apply (mapping_unrouted s acc a c).
  - intros Hok. by apply (mapping_unrouted s acc a c).
Qed.

Lemma map_channels_mapping s n : forall i acc a c,
  0 <= i -> mapping s acc a c ->
  let '(a', c') := map_channels n i a c in
  mapping s (fun k => from_channels s k (seqZ i (Z.of_nat n)) (acc k)) a' c'.
Proof.
  induction n as [|n IH]; intros i acc a c Hi Hm; cbn [map_channels]; [exact Hm|].
  pose proof (map_channel_mapping s acc a c i Hi Hm) as H1. destruct (map_channel i a c) as [a1 c1].
  specialize (IH (i + 1) _ a1 c1 ltac:(lia) H1). destruct (map_channels n (i + 1) a1 c1) as [a2 c2].
  rewrite seqZ_cons by lia. replace (Z.pred (Z.of_nat (S n))) with (Z.of_nat n) by lia. exact IH.
Qed.

(** ** What the frame leaves *)

Lemma zero_unassigned_get n : forall i a s k,
  regs_ok s -> 0 <= i -> i + Z.of_nat n <= 8 -> 0 <= k < 8 ->
  rget RC_INPUT (PX4IO_P_RC_BASE + k) (zero_unassigned n i a s)
  = if (i <=? k) && (k <? i + Z.of_nat n) && negb (Z.testbit a k) then 0 else rget RC_INPUT (PX4IO_P_RC_BASE + k) s.
Proof.
  induction n as [|n IH]; intros i a s k Hs Hi Hn Hk; cbn [zero_unassigned].
  - rewrite Z.add_0_r. destruct (Z.leb_spec i k), (Z.ltb_spec k i); done || lia.
  - assert (Hs' : regs_ok (if Z.testbit a i then s else rset RC_INPUT (PX4IO_P_RC_BASE + i) 0 s)).
    { case_match; [done|]. apply (own_frame GATHER RC_INPUT (PX4IO_P_RC_BASE + i) 0 s);
        [by right | unfold PX4IO_P_RC_BASE; simpl; lia | done | done]. }
    rewrite IH by (done || lia). destruct (decide (i = k)) as [->|Hne].
    + rewrite (proj2 (Z.leb_gt (k + 1) k)), (proj2 (Z.leb_le k k)), (proj2 (Z.ltb_lt k (k + Z.of_nat (S n)))) by lia. cbn [andb].
      destruct (Z.testbit a k); [done|]. cbn [negb]. apply rget_rset_same; [apply Hs|].
      unfold PX4IO_P_RC_BASE. simpl. lia.
    + assert ((i + 1 <=? k) && (k <? i + 1 + Z.of_nat n) = (i <=? k) && (k <? i + Z.of_nat (S n))) as ->
        by (apply eq_true_iff_eq; rewrite !andb_true_iff, !Z.leb_le, !Z.ltb_lt; lia).
      destruct (Z.testbit a i); [done|]. by rewrite rget_rset_index by (unfold PX4IO_P_RC_BASE; lia).
Qed.

(** The mapping of a received frame.  Each control register holds the
    scaled value of the last enabled channel assigned to it, and 0 if no channel
    is, and the bit mask of valid controls has exactly the assigned ones. *)
Theorem frame_mapping (now : Z) (c : ctl) (k : Z) :
  ctl_ok c -> 0 <= k < PX4IO_CONTROL_CHANNELS ->
  let value := from_channels (cio c) k (seqZ 0 (r_raw_rc_count (cio c))) None in
  let s' := cio (process_frame now c) in
  rget RC_INPUT (PX4IO_P_RC_BASE + k) s' = default 0 value
  /\ Z.testbit (rget RC_INPUT PX4IO_P_RC_VALID s') k = bool_decide (is_Some value).
Proof.
  unfold PX4IO_CONTROL_CHANNELS. intros Hc Hk. cbv zeta. unfold process_frame. cbv zeta.
  set (c0 := on_cio (set_rc_times now) c).
  assert (Hs : forall p i, rget p i (cio c0) = rget p i (cio c)) by reflexivity.
  assert (H0 : mapping (cio c) (fun _ => None) 0 c0).
  { split; try done.
    intros j _. by rewrite Z.bits_0. }
  assert (Hn : 0 <= r_raw_rc_count (cio c)) by (apply rget_nonneg, Hc).
  pose proof (map_channels_mapping (cio c) (Z.to_nat (r_raw_rc_count (cio c))) 0 _ 0 c0 ltac:(lia) H0) as H1.
  change (r_raw_rc_count (cio c0)) with (r_raw_rc_count (cio c)).
  destruct (map_channels _ 0 0 c0) as [a c1]. rewrite Z2Nat.id in H1 by done.
  destruct H1 as [Hc1 _ _ Hb Hv Ha]. specialize (Hb k Hk). specialize (Hv k).
  set (value := from_channels (cio c) k _ None) in *. clearbody value c0. clear H0 Hs Hc Hn.
  set (s1 := zero_unassigned (Z.to_nat PX4IO_CONTROL_CHANNELS) 0 a (cio c1)).
  assert (R1 : regs_ok s1) by (apply zero_unassigned_frame; [done | done | apply Hc1]).
  assert (E1 : rget RC_INPUT (PX4IO_P_RC_BASE + k) s1 = default 0 value).
  { unfold s1. rewrite zero_unassigned_get by (done || apply Hc1 || (simpl; lia)).
    change (0 + Z.of_nat (Z.to_nat PX4IO_CONTROL_CHANNELS)) with 8.
    rewrite (proj2 (Z.leb_le 0 k)), (proj2 (Z.ltb_lt k 8)), Hb by lia. cbn [andb].
    destruct value as [v|]; cbn [default from_option id]; [|by rewrite bool_decide_eq_false_2 by (by intros [])].
    rewrite bool_decide_eq_true_2 by done. by apply Hv. }
  set (c2 := on_cio _ c1). change s1 with (cio c2) in R1, E1. clearbody c2. clear Hv.
  set (c3 := raw_put _ _ _).
  assert (E3 : rget RC_INPUT (PX4IO_P_RC_BASE + k) (cio c3) = default 0 value /\ length (pages (cio c3) RC_INPUT) = page_size RC_INPUT).
  { assert (Hp : pages (cio c3) RC_INPUT = pages (cio c2) RC_INPUT).
    { unfold c3, raw_or, cflag_or, atomic_modify_or. destruct (4 <? a); cbn [raw_put]; unfold raw_or, raw_clear;
        cbn [cio on_cio]; unfold reg_or, reg_clear; case_match; by rewrite !page_kept. }
    unfold rget. rewrite Hp. split; [exact E1 | apply R1]. }
  clearbody c3. destruct E3 as [E3 L3]. cbn [cio on_cio]. rewrite rget_rset_index by (unfold PX4IO_P_RC_BASE, PX4IO_P_RC_VALID; lia).
  split; [exact E3|]. rewrite rget_rset_same by (exact L3 || (unfold PX4IO_P_RC_VALID; simpl; lia)).
  rewrite u16_small by (unfold is_u16; lia). exact Hb.
Qed.

(** The low throttle as the fourth channel of a frame. *)
Definition four_channels : ctl := on_cio (rset RAW_RC PX4IO_P_RAW_RC_COUNT 4) low_throttle.

Lemma four_channels_ok : ctl_ok four_channels.
Proof.
  apply ctl_ok_io; [exact low_throttle_ok|]. generalize (cio low_throttle). intros s R.
  apply (own_frame PASS RAW_RC PX4IO_P_RAW_RC_COUNT 4); [by left | done | done | exact R].
Qed.

Lemma frame_mapping_witness :
  ctl_ok four_channels
  /\ rget RC_INPUT (PX4IO_P_RC_BASE + 3) (cio (process_frame 1000 four_channels)) = u16 (-10000).
Proof.
  split; [exact four_channels_ok|].
  destruct (frame_mapping 1000 four_channels 3 four_channels_ok ltac:(vm_compute; split; congruence)) as [-> _].
  vm_compute. reflexivity.
Defined.

(** * A packet in pieces *)

(** Passes over what the UART of the DSM port delivers at each of them. *)
Definition deliver (reads : list (Z * list Z)) : ctl :=
  fold_left (fun c '(now, bytes) => controls_tick now (Rc_in 0xffff [] bytes 0) c) reads powered_up.

(** Eight channels, all at 1500 us but the first two. *)
Definition eight_channels : list Z :=
  sumd_packet SUMD_ID_SUMD 8
    ([0x2e; 0xe0; 0x3e; 0x80; 0x1f; 0x40] ++ concat (replicate 5 [0x2e; 0xe0])).

(** A SUMD packet is only safe in one piece.  Its bytes are kept in the
    memory the decoders share while its checksum is accumulated on the fly, and
    the DSM decoder, which sees the same bytes first, stores them one place
    lower.  Delivered in one read the packet gives its eight channels; the same
    bytes in three reads within a millisecond are accepted as well, with RC_OK,
    but the third channel is 21 us off and the fourth is 7196 us. *)
Theorem split_packet_corrupted :
  let whole := cio (deliver [(100000, eight_channels)]) in
  let pieces := cio (deliver [(100000, take 5 eight_channels); (100500, take 5 (drop 5 eight_channels));
                              (101000, drop 10 eight_channels)]) in
  status_is FLAGS_RC_OK whole = true /\ status_is FLAGS_RC_OK pieces = true
  /\ take 8 (raw_values_of whole) = [2000; 1000; 1500; 1500; 1500; 1500; 1500; 1500]
  /\ take 8 (raw_values_of pieces) = [2000; 1000; 1479; 7196; 1500; 1500; 1500; 1500].
Proof. vm_compute. repeat split. Qed.
