(* ===== verification/Px4ioMain.v ===== *)
(** The firmware of PX4IO as a whole: the main loop of px4io.c, the safety
    switch and the failsafe lamp of safety.c, and the histories in which passes
    of the loop, register writes of the FMU and the two timers' handlers follow
    one another in any order.

    A handler that runs from an interrupt is taken between two passes. *)

From Stdlib Require Import ZArith Lia SpecFloat.
From stdpp Require Import base list numbers.
From S2P Require Import Prelude Float32 PwmLimit Px4io Px4ioRegs Px4ioMixer Px4ioOutput Px4ioFailsafe.
From S2P Require Import Px4ioControls Px4ioRc Px4ioRcLoss.

Local Open Scope Z_scope.

(** * The safety switch *)

Definition ARM_COUNTER_THRESHOLD : Z := 10.
Definition LED_PATTERN_FMU_OK_TO_ARM : Z := 0x0003.
Definition LED_PATTERN_FMU_REFUSE_TO_ARM : Z := 0x5555.
Definition LED_PATTERN_IO_ARMED : Z := 0x5050.
Definition LED_PATTERN_FMU_ARMED : Z := 0x5500.
Definition LED_PATTERN_IO_FMU_ARMED : Z := 0xffff.

(** The static state of safety.c. *)
Record switch := Switch { counter : Z; blink_counter : Z; failsafe_led : bool }.
Definition switch_init : switch := Switch 0 0 false.

Definition flash_pattern (s : io) : Z :=
  if status_is FLAGS_SAFETY_OFF s then
    if arming_is ARMING_FMU_ARMED s then LED_PATTERN_IO_FMU_ARMED else LED_PATTERN_IO_ARMED
  else if arming_is ARMING_FMU_ARMED s then LED_PATTERN_FMU_ARMED
  else if arming_is ARMING_IO_ARM_OK s then LED_PATTERN_FMU_OK_TO_ARM
  else LED_PATTERN_FMU_REFUSE_TO_ARM.

(** A press that counts. *)
Definition press_counts (pressed : bool) (s : io) : bool :=
  pressed && negb (status_is FLAGS_SAFETY_OFF s) && arming_is ARMING_IO_ARM_OK s.

Definition safety_check_button (pressed : bool) (b : switch) (s : io) : switch * io :=
  let '(n, s) :=
    if press_counts pressed s then
      let n := if counter b <=? ARM_COUNTER_THRESHOLD then counter b + 1 else counter b in
      (n, if n =? ARM_COUNTER_THRESHOLD
          then atomic_modify_or STATUS PX4IO_P_STATUS_FLAGS FLAGS_SAFETY_OFF s else s)
    else (0, s) in
  let lit := Z.testbit (flash_pattern s) (blink_counter b) in
  let k := blink_counter b + 1 in
  (Switch n (if 15 <? k then 0 else k) (failsafe_led b), emit (FxSafetyLed lit) s).

Definition failsafe_blink (b : switch) (s : io) : switch * io :=
  if negb (status_is FLAGS_INIT_OK s) then (b, emit (FxAmber true) s)
  else
    let failsafe := if negb (status_is FLAGS_FMU_OK s) then negb (failsafe_led b) else false in
    (Switch (counter b) (blink_counter b) failsafe, emit (FxAmber failsafe) s).

(** * The main loop *)

(** The static state of [ring_blink]. *)
Record ring := Ring { r_counter : Z; brightness : Z; brightness_counter : Z; on_counter : Z }.
Definition max_brightness : Z := 118.
Definition ring_init : ring := Ring 0 max_brightness 0 0.

(** A division by zero gives 0, as the processor has it: in C it is undefined. *)
Definition ring_blink (r : ring) (s : io) : ring * io :=
  if status_is FLAGS_SAFETY_OFF s && arming_is ARMING_FMU_ARMED s then (r, emit (FxRing true) s)
  else if brightness_counter r <? max_brightness then
    let on := on_counter r * 100 / brightness_counter r + 1 <=? brightness r * 100 / max_brightness + 1 in
    (Ring (r_counter r) (brightness r) (brightness_counter r + 1) (if on then on_counter r + 1 else on_counter r),
     emit (FxRing (negb on)) s)
  else
    let c := if 62 <=? r_counter r then 0 else r_counter r in
    let n := if c <? 32 then c else 62 - c in
    (Ring (c + 1) (n * n / 8) 0 0, s).

(** The variables of the loop, and the static ones of the functions it calls. *)
Record loop := Loop {
  last_heartbeat_time : Z;
  last_loop_time : Z;
  heartbeat : bool;
  last_mem_time : Z;
  ring_led : ring
}.
Definition loop_init : loop := Loop 0 0 false 0 ring_init.

(** The clock at the points of a pass that read it. *)
Record clock := Clock {
  t_dt : Z; t_loop : Z; t_mixer : Z; t_controls : Z; t_heart : Z; t_heart_set : Z; t_mem : Z; t_reboot : Z
}.

Definition loop_dt (now last : Z) : float :=
  let dt := fdiv (f_of_Z (u64 (now - last))) (f_of_Z 1000000) in
  if fltb dt (f_dec 1 10000) then f_dec 1 10000 else if fltb (f_dec 2 100) dt then f_dec 2 100 else dt.

(** The blue LED, which some boards use as a heater. *)
Definition tick_heartbeat (t : clock) (l : loop) (s : io) : loop * io :=
  let thermal := rget SETUP PX4IO_P_SETUP_THERMAL s in
  if thermal =? PX4IO_THERMAL_IGNORE then
    let period := 250 * 1000 in
    let period := if status_is FLAGS_OVERRIDE s then period / 4 else period in
    if period <? u64 (t_heart t - last_heartbeat_time l) then
      (Loop (t_heart_set t) (last_loop_time l) (negb (heartbeat l)) (last_mem_time l) (ring_led l),
       emit (FxBlue (negb (heartbeat l))) s)
    else (l, s)
  else if thermal <? PX4IO_THERMAL_FULL then (l, emit (FxBlue false) s)
  else (l, emit (FxBlue true) s).

(** [free_memory] is what mallinfo reports. *)
Definition update_mem_usage (t : clock) (free_memory : Z) (l : loop) (s : io) : loop * io :=
  if status_is FLAGS_SAFETY_OFF s && arming_is ARMING_FMU_ARMED s then (l, s)
  else if 500 * 1000 <? u64 (t_mem t - last_mem_time l) then
    (Loop (last_heartbeat_time l) (last_loop_time l) (heartbeat l) (t_mem t) (ring_led l),
     rset STATUS PX4IO_P_STATUS_FREEMEM (u16 free_memory) s)
  else (l, s).

(** The end of a pass: lamps, memory and reboot. *)
Definition housekeeping (t : clock) (free_memory : Z) (l : loop) (s : io) : loop * io :=
  let '(l, s) := tick_heartbeat t l s in
  let '(l, s) := update_mem_usage t free_memory l s in
  let '(r, s) := ring_blink (ring_led l) s in
  (Loop (last_heartbeat_time l) (last_loop_time l) (heartbeat l) (last_mem_time l) r, check_reboot (t_reboot t) s).

(** The whole state.  The registers are those of the output side; the input
    side's own copy is refreshed when it runs. *)
Record firmware G := Firmware { outputs_of : mix G; controls_of : ctl; loop_of : loop; switch_of : switch }.
Arguments Firmware {G}. Arguments outputs_of {G}. Arguments controls_of {G}. Arguments loop_of {G}.
Arguments switch_of {G}.

Section Firmware.
Context {G : Type} (ops : mixer_ops G) (group : Z -> Z) (rate_ok : Z -> Z -> bool).

Definition registers (u : firmware G) : io := mio (outputs_of u).
Definition set_registers (s : io) (u : firmware G) : firmware G :=
  Firmware (on_io (fun _ => s) (outputs_of u)) (controls_of u) (loop_of u) (switch_of u).

(** The input side on the current registers. *)
Definition refreshed (s : io) (c : ctl) : ctl := on_cio (fun _ => s) c.

(** The end of a pass, after the outputs [m] and the inputs [c]. *)
Definition finish_pass (t : clock) (free_memory : Z) (u : firmware G) (m : mix G) (c : ctl) : firmware G :=
  let l := Loop (last_heartbeat_time (loop_of u)) (t_loop t) (heartbeat (loop_of u)) (last_mem_time (loop_of u))
             (ring_led (loop_of u)) in
  let '(l, s) := housekeeping t free_memory l (cio c) in
  Firmware (on_io (fun _ => s) m) (refreshed s c) l (switch_of u).

Definition pass_outputs (t : clock) (u : firmware G) : mix G :=
  mixer_tick ops (t_mixer t) (loop_dt (t_dt t) (last_loop_time (loop_of u))) (outputs_of u).

Definition loop_pass (t : clock) (inp : rc_in) (free_memory : Z) (u : firmware G) : firmware G :=
  let m := pass_outputs t u in
  finish_pass t free_memory u m (controls_tick (t_controls t) inp (refreshed (mio m) (controls_of u))).

(** What can happen. *)
Inductive event :=
| Pass (t : clock) (inp : rc_in) (free_memory : Z)
| Write (now page offset : Z) (values : list Z)
| Button (pressed : bool)
| Blink.

Definition handle (e : event) (u : firmware G) : firmware G :=
  match e with
  | Pass t inp free_memory => loop_pass t inp free_memory u
  | Write now page offset values =>
      set_registers (registers_set group rate_ok now page offset values (registers u)).2 u
  | Button pressed =>
      let '(b, s) := safety_check_button pressed (switch_of u) (registers u) in
      Firmware (on_io (fun _ => s) (outputs_of u)) (controls_of u) (loop_of u) b
  | Blink =>
      let '(b, s) := failsafe_blink (switch_of u) (registers u) in
      Firmware (on_io (fun _ => s) (outputs_of u)) (controls_of u) (loop_of u) b
  end.

Definition run (es : list event) (u : firmware G) : firmware G := fold_left (fun u e => handle e u) es u.

(** What the hardware guarantees of an event: bytes and 16-bit registers. *)
Definition event_ok (e : event) : Prop :=
  match e with
  | Pass _ inp _ => in_ok inp
  | Write _ _ offset values => is_u8 offset /\ Forall is_u16 values
  | _ => True
  end.
End Firmware.

(** * Start-up *)

(** The memory of the application, whose checksum the FMU compares before an
    update.  [crc32part] is that of NuttX. *)
Definition APP_SIZE_MAX : Z := 0xf000.
Fixpoint crc_words (crc32part : list Z -> Z -> Z) (n : nat) (image : list Z) (sum : Z) : Z :=
  match n with
  | O => sum
  | S n => crc_words crc32part n (drop 4 image) (crc32part (aget image <$> [0; 1; 2; 3]) sum)
  end.

Definition calculate_fw_crc (crc32part : list Z -> Z -> Z) (image : list Z) (s : io) : io :=
  let sum := crc_words crc32part (Z.to_nat (APP_SIZE_MAX / 4)) image 0 in
  rset SETUP (PX4IO_P_SETUP_CRC + 1) (u16 (Z.shiftr sum 16))
    (rset SETUP PX4IO_P_SETUP_CRC (u16 (Z.land sum 0xffff)) s).

(** The static state of mixer.cpp. *)
Definition mixer_start {G} (g : G) (s : io) : mix G :=
  Mix s g output_limit_init false false false false false 0 MIX_DISARMED.

(** [user_start] up to its loop; [largest_block] is what mallinfo reports.
    [None]: too little memory is left, and the board flashes its lamps for ever. *)
Definition user_start {G} (g : G) (crc32part : list Z -> Z -> Z) (image : list Z)
    (largest_block now : Z) : option (firmware G) :=
  let s := calculate_fw_crc crc32part image (io_init (Z.to_nat PX4IO_MAX_MIXER_LENGTH)) in
  let s := emit (FxSbusOut false) (emit (FxRing false) (emit (FxSafetyLed false)
             (emit (FxBlue false) (emit (FxAmber false) s)))) in
  let c := controls_init now s in
  let s := rset STATUS PX4IO_P_STATUS_FREEMEM (u16 largest_block) (cio c) in
  if largest_block <? 550 then None
  else Some (Firmware (mixer_start g s) (refreshed s c) loop_init switch_init).
