(* ===== verification/Px4ioFirmware.v ===== *)
(** Theorems on the whole firmware of PX4IO ([Px4ioMain]): its invariant, the
    finality of a termination and what turns the safety off, over every history
    of passes, register writes and timer handlers. *)

From Stdlib Require Import ZArith Lia SpecFloat.
From stdpp Require Import base list numbers.
From S2P Require Import Prelude Float32 PwmLimit Px4io Px4ioRegs Px4ioMixer Px4ioOutput Px4ioFailsafe.
From S2P Require Import RcBuffer Px4ioControls Px4ioRc Px4ioRcLoss Px4ioMain.

Local Open Scope Z_scope.

(** * Steps that only light lamps *)

Record lamps (s s' : io) : Prop := Lamps {
  lm_ok : regs_ok s';
  lm_status x : status_is x s' = status_is x s;
  lm_pages p : p <> STATUS -> pages s' p = pages s p;
  lm_pulses : pulses (fx s') = pulses (fx s)
}.
Definition lamp_step (s s' : io) : Prop := regs_ok s -> lamps s s'.

#[export] Instance lamp_step_preorder : PreOrder lamp_step.
Proof.
  split; [by intros s H; split|]. intros s1 s2 s3 H12 H23 H1.
  destruct (H12 H1) as [O2 S2 P2 X2]. destruct (H23 O2) as [O3 S3 P3 X3].
  split; [done| | |by rewrite X3].
  - intros x. by rewrite S3.
  - intros p Hp. by rewrite P3, P2.
Qed.

Lemma lamp_emit e s : (forall i v, e <> FxServo i v) -> lamp_step s (emit e s).
Proof. intros He (H1 & H2 & H3). split; try done. by apply pulses_quiet. Qed.

Lemma lamp_freemem v s : is_u16 v -> lamp_step s (rset STATUS PX4IO_P_STATUS_FREEMEM v s).
Proof.
  intros Hv Hs. split; try done.
  - apply (upd_ok s); [done|]. by apply upd_reg.
  - intros x. unfold status_is, r_status_flags. by rewrite rget_rset_index.
  - intros p Hp. apply page_kept. congruence.
Qed.

Lemma ring_blink_lamps r s : lamp_step s (ring_blink r s).2.
Proof. unfold ring_blink. cbv zeta. repeat case_match; (reflexivity || by apply lamp_emit). Qed.

Lemma tick_heartbeat_lamps t l s : lamp_step s (tick_heartbeat t l s).2.
Proof. unfold tick_heartbeat. cbv zeta. repeat case_match; (reflexivity || by apply lamp_emit). Qed.

Lemma update_mem_usage_lamps t n l s : lamp_step s (update_mem_usage t n l s).2.
Proof.
  unfold update_mem_usage. repeat case_match; try reflexivity. apply lamp_freemem, u16_range.
Qed.

Lemma check_reboot_lamps now s : lamp_step s (check_reboot now s).
Proof. unfold check_reboot. case_match; [by apply lamp_emit | reflexivity]. Qed.

Lemma housekeeping_lamps t n l s : lamp_step s (housekeeping t n l s).2.
Proof.
  unfold housekeeping. pose proof (tick_heartbeat_lamps t l s) as H1. destruct (tick_heartbeat t l s) as [l1 s1].
  pose proof (update_mem_usage_lamps t n l1 s1) as H2. destruct (update_mem_usage t n l1 s1) as [l2 s2].
  pose proof (ring_blink_lamps (ring_led l2) s2) as H3. destruct (ring_blink (ring_led l2) s2) as [r s3].
  cbn [snd] in *. etransitivity; [exact H1|]. etransitivity; [exact H2|].
  etransitivity; [exact H3 | apply check_reboot_lamps].
Qed.

Lemma failsafe_blink_lamps b s : lamp_step s (failsafe_blink b s).2.
Proof. unfold failsafe_blink. case_match; by apply lamp_emit. Qed.

(** The button changes the safety flag only, and only when it counts to ten. *)
Definition SAFETY_SCOPE : scope := Scope FLAGS_SAFETY_OFF 0 false.

Lemma button_frame pressed b s :
  exists s1, rc_frame SAFETY_SCOPE s s1 /\ lamp_step s1 (safety_check_button pressed b s).2
             /\ (status_is FLAGS_SAFETY_OFF s = false ->
                 s1 = s \/ press_counts pressed s = true /\ counter b = 9).
Proof.
  unfold safety_check_button. destruct (press_counts pressed s).
  - cbv zeta. set (n := if _ <=? _ then _ else _). destruct (Z.eqb_spec n ARM_COUNTER_THRESHOLD) as [E|E].
    + eexists. split; [by apply (rc_frame_or SAFETY_SCOPE FLAGS_SAFETY_OFF s)|]. split; [by apply lamp_emit|].
      intros _. right. split; [done|]. subst n. unfold ARM_COUNTER_THRESHOLD in *. destruct (Z.leb_spec (counter b) 10); lia.
    + exists s. split; [reflexivity|]. split; [by apply lamp_emit | by left].
  - exists s. split; [reflexivity|]. split; [by apply lamp_emit | by left].
Qed.

(** * The invariant *)

Section Histories.
Context {G : Type} (ops : mixer_ops G) `{!MixerLaws ops}.
Context (group : Z -> Z) (rate_ok : Z -> Z -> bool).

Definition firmware_ok (u : firmware G) : Prop := ctl_ok (refreshed (registers u) (controls_of u)).

Lemma refreshed_ok s s0 c : ctl_ok (refreshed s0 c) -> regs_ok s -> ctl_ok (refreshed s c).
Proof. intros [_ H] Hs. split; [exact Hs | exact H]. Qed.

Lemma refreshed_io s c : cio (refreshed s c) = s.
Proof. reflexivity. Qed.

Lemma pass_outputs_tick t (u : firmware G) :
  exists now dt, pass_outputs ops t u = mixer_tick ops now dt (outputs_of u).
Proof. exists (t_mixer t), (loop_dt (t_dt t) (last_loop_time (loop_of u))). reflexivity. Qed.

Lemma pass_outputs_ok t (u : firmware G) : regs_ok (registers u) -> regs_ok (mio (pass_outputs ops t u)).
Proof.
  destruct (pass_outputs_tick t u) as (now & dt & ->). intros H.
  exact (proj1 (proj2 (proj2 (tick_spec ops now dt _ H)))).
Qed.

Lemma pass_outputs_latched t (u : firmware G) :
  regs_ok (registers u) -> latched (r_setup_arming (registers u)) (r_setup_arming (mio (pass_outputs ops t u))).
Proof.
  destruct (pass_outputs_tick t u) as (now & dt & ->). intros H.
  refine (proj2 (io_step_held ops group rate_ok (outputs_of u) _ _ H)). right. by exists now, dt.
Qed.

Lemma loop_pass_eq t inp n (u : firmware G) :
  loop_pass ops t inp n u
  = finish_pass t n u (pass_outputs ops t u)
      (controls_tick (t_controls t) inp (refreshed (mio (pass_outputs ops t u)) (controls_of u))).
Proof. reflexivity. Qed.

Lemma lamps_arming s s' : lamps s s' -> r_setup_arming s' = r_setup_arming s.
Proof. intros H. unfold r_setup_arming, rget. by rewrite (lm_pages _ _ H). Qed.

Lemma rc_arming S s s' : rc_framed S s s' -> r_setup_arming s' = r_setup_arming s.
Proof. intros H. by apply (rf_setup _ _ _ H). Qed.

(** What a pass adds to the outputs [m] of its first part. *)
Record continues (m : mix G) (u' : firmware G) : Prop := Continues {
  ct_ok : firmware_ok u';
  ct_source : source (outputs_of u') = source m;
  ct_armed : mixer_servos_armed (outputs_of u') = mixer_servos_armed m;
  ct_arming : r_setup_arming (registers u') = r_setup_arming (mio m);
  ct_status x : Z.land x (sc_flags PASS) = 0 -> status_is x (registers u') = status_is x (mio m);
  ct_pulses : pulses (fx (registers u')) = pulses (fx (mio m));
  ct_pages p : foreign_page p -> pages (registers u') p = pages (mio m) p
}.

Lemma finish_pass_continues t n (u : firmware G) m c :
  ctl_ok c -> rc_framed PASS (mio m) (cio c) -> continues m (finish_pass t n u m c).
Proof.
  intros Hc F. unfold finish_pass. cbv zeta. set (l := Loop _ _ _ _ _).
  pose proof (housekeeping_lamps t n l (cio c) (proj1 Hc)) as H. destruct (housekeeping t n l (cio c)) as [l' s'].
  cbn [snd] in H. split; unfold registers; cbn [outputs_of controls_of on_io mio source mixer_servos_armed]; try done.
  - split; [apply (lm_ok _ _ H) | apply Hc].
  - rewrite (lamps_arming _ _ H). exact (rc_arming _ _ _ F).
  - intros x Hx. rewrite (lm_status _ _ H). by apply (rf_flags _ _ _ F).
  - rewrite (lm_pulses _ _ H). by rewrite (rf_fx _ _ _ F).
  - intros p Hp. rewrite (lm_pages _ _ H) by (by intros ->). by apply (rf_pages _ _ _ F).
Qed.

Lemma loop_pass_continues t inp n (u : firmware G) :
  in_ok inp -> firmware_ok u -> continues (pass_outputs ops t u) (loop_pass ops t inp n u).
Proof.
  intros Hi Hu. rewrite loop_pass_eq. pose proof (pass_outputs_ok t u (proj1 Hu)) as R1.
  generalize dependent (pass_outputs ops t u). intros m R1.
  pose proof (refreshed_ok (mio m) _ _ Hu R1) as Hc. clear Hu. generalize dependent (controls_of u). intros c Hc.
  destruct (controls_tick_safe (t_controls t) inp _ Hi Hc) as [Hc' F]. rewrite refreshed_io in F.
  generalize dependent (controls_tick (t_controls t) inp (refreshed (mio m) c)). intros c' Hc' F.
  apply finish_pass_continues; [exact Hc' | exact (F R1)].
Qed.

(** Every event keeps the invariant and the latch. *)
Definition kept (u u' : firmware G) : Prop :=
  firmware_ok u -> firmware_ok u' /\ latched (r_setup_arming (registers u)) (r_setup_arming (registers u')).

#[export] Instance kept_preorder : PreOrder kept.
Proof.
  split; [by intros u H|]. intros u1 u2 u3 H12 H23 H1. destruct (H12 H1) as [H2 L2]. destruct (H23 H2) as [H3 L3].
  split; [done|]. by etransitivity.
Qed.

Lemma same_arming_kept s' b (u : firmware G) :
  (regs_ok (registers u) -> regs_ok s' /\ r_setup_arming s' = r_setup_arming (registers u)) ->
  kept u (Firmware (on_io (fun _ => s') (outputs_of u)) (controls_of u) (loop_of u) b).
Proof.
  intros H [R Hu]. destruct (H R) as [R' E]. split; [by split|]. unfold registers. cbn [outputs_of on_io mio].
  rewrite E. reflexivity.
Qed.

Lemma handle_kept e (u : firmware G) : event_ok e -> kept u (handle ops group rate_ok e u).
Proof.
  destruct e as [t inp n|now page offset values|pressed|]; intros He; cbn [handle].
  - intros Hu. destruct (loop_pass_continues t inp n u He Hu) as [H1 _ _ H2 _ _ _]. split; [exact H1|].
    rewrite H2. exact (pass_outputs_latched t u (proj1 Hu)).
  - intros [R Hu]. assert (Hst : reg_step group rate_ok (registers u) (registers_set group rate_ok now page offset values (registers u)).2)
      by (exists now, page, offset, values; by destruct He).
    destruct (step_safe group rate_ok _ _ Hst R) as [R' Hup]. split; [by split|].
    exact (upds_latched _ _ Hup R).
  - destruct (button_frame pressed (switch_of u) (registers u)) as (s1 & F & L & _).
    destruct (safety_check_button pressed (switch_of u) (registers u)) as [b s']. cbn [snd] in L.
    apply same_arming_kept. intros R. specialize (F R). specialize (L (rf_ok _ _ _ F)).
    split; [apply (lm_ok _ _ L)|]. rewrite (lamps_arming _ _ L). exact (rc_arming _ _ _ F).
  - pose proof (failsafe_blink_lamps (switch_of u) (registers u)) as L.
    destruct (failsafe_blink (switch_of u) (registers u)) as [b s']. cbn [snd] in L.
    apply same_arming_kept. intros R. specialize (L R). split; [apply (lm_ok _ _ L) | apply (lamps_arming _ _ L)].
Qed.

Lemma run_kept es : forall u : firmware G, Forall event_ok es -> kept u (run ops group rate_ok es u).
Proof.
  induction es as [|e es IH]; intros u Hes; [reflexivity|]. inversion Hes; subst.
  change (run ops group rate_ok (e :: es) u) with (run ops group rate_ok es (handle ops group rate_ok e u)).
  etransitivity; [by apply handle_kept | by apply IH].
Qed.

(** ** From power-up *)

Lemma rset_crc_ok i v s : 11 <= i <= 12 -> is_u16 v -> regs_ok s -> regs_ok (rset SETUP i v s).
Proof.
  intros Hi Hv Hs. apply (upd_ok s); [done|]. apply upd_reg.
  - change (Z.of_nat (page_size SETUP)) with 29. lia.
  - split; [done|]. unfold setup_ok, PX4IO_P_SETUP_FEATURES, PX4IO_P_SETUP_ARMING, PX4IO_P_SETUP_PWM_RATES,
      PX4IO_P_SETUP_PWM_DEFAULTRATE, PX4IO_P_SETUP_PWM_ALTRATE, PX4IO_P_SETUP_RC_THR_FAILSAFE_US.
    do 5 (split; [intros ?; lia|]). intros ?. lia.
  - intros _ E. unfold PX4IO_P_SETUP_ARMING in E. lia.
Qed.

Lemma fw_crc_ok crc32part image s : regs_ok s -> regs_ok (calculate_fw_crc crc32part image s).
Proof.
  intros Hs. unfold calculate_fw_crc. generalize (crc_words crc32part (Z.to_nat (APP_SIZE_MAX / 4)) image 0). intros sum. cbv zeta.
  by repeat (apply rset_crc_ok; [done | apply u16_range |]).
Qed.

Lemma controls_init_ok now s : regs_ok s -> ctl_ok (controls_init now s).
Proof.
  intros Hs. assert (Hf : Forall is_u8 rc_decode_buf_init) by (by apply Forall_replicate).
  split; [|split_and!; try done; try (vm_compute; done); by apply Forall_replicate].
  unfold controls_init. cbn [cio]. apply default_map_ok; [done | done |].
  by apply (own_frame PASS RAW_RC PX4IO_P_RAW_RC_COUNT 0 s); [left | | |].
Qed.

Lemma user_start_ok (g : G) crc32part image largest_block now :
  550 <= largest_block ->
  exists u0, user_start g crc32part image largest_block now = Some u0 /\ firmware_ok u0.
Proof.
  intros Hm. unfold user_start. cbv zeta. rewrite (proj2 (Z.ltb_ge _ _)) by lia. set (s := emit _ _).
  assert (Hs : regs_ok s).
  { subst s. set (s := calculate_fw_crc _ _ _). assert (H : regs_ok s) by apply fw_crc_ok, regs_ok_init. exact H. }
  clearbody s. pose proof (controls_init_ok now s Hs) as Hc. generalize dependent (controls_init now s). intros c Hc.
  eexists. split; [reflexivity|].
  assert (Hf : regs_ok (rset STATUS PX4IO_P_STATUS_FREEMEM (u16 largest_block) (cio c)))
    by (apply (lm_ok _ _ (lamp_freemem (u16 largest_block) (cio c) (u16_range _) (proj1 Hc)))).
  unfold firmware_ok, registers, mixer_start. cbn [outputs_of controls_of mio]. destruct Hc as [_ Hc].
  split; [exact Hf | exact Hc].
Qed.

(** C2: the invariant of the whole coprocessor.  With memory enough,
    [user_start] leaves a legal state: every register holds a legal value, every
    array has its length and the decoders are in a legal state.  And every
    history of passes over whatever the receivers deliver, register writes of
    any page, offset and values, and timer handlers keeps it so, and never
    releases the termination latch. *)
Theorem firmware_invariant (es : list event) :
  (forall (g : G) crc32part image largest_block now, 550 <= largest_block ->
   exists u0, user_start g crc32part image largest_block now = Some u0 /\ firmware_ok u0)
  /\ forall u : firmware G, firmware_ok u -> Forall event_ok es ->
     let u' := run ops group rate_ok es u in
     firmware_ok u' /\ latched (r_setup_arming (registers u)) (r_setup_arming (registers u')).
Proof. split; [exact user_start_ok|]. intros u Hu Hes. exact (run_kept es u Hes Hu). Qed.

(** What a pass sends in a forced failsafe. *)
Definition failsafe_page (s : io) : pg := if arming_is ARMING_LOCKDOWN s then DISARMED else FAILSAFE.

Record forced_pass (u u' : firmware G) : Prop := ForcedPass {
  fp_source : source (outputs_of u') = MIX_FAILSAFE;
  fp_flag : status_is FLAGS_FAILSAFE (registers u') = true;
  fp_pulses : pulses (fx (registers u')) = pulses (fx (registers u)) ++
    if mixer_servos_armed (outputs_of u') then channels 0 (pages (registers u') (failsafe_page (registers u'))) else []
}.

Lemma forced_outputs t (u : firmware G) :
  regs_ok (registers u) -> arming_is ARMING_FORCE_FAILSAFE (registers u) = true ->
  let m := pass_outputs ops t u in
  source m = MIX_FAILSAFE /\ status_is FLAGS_FAILSAFE (mio m) = true
  /\ pulses (fx (mio m)) = pulses (fx (registers u)) ++
       if mixer_servos_armed m then channels 0 (pages (mio m) (failsafe_page (mio m))) else [].
Proof. destruct (pass_outputs_tick t u) as (now & dt & ->). intros H Hf. exact (forced_tick ops now dt _ H Hf). Qed.

Lemma arming_is_eq x s s' : r_setup_arming s' = r_setup_arming s -> arming_is x s' = arming_is x s.
Proof. unfold arming_is. by intros ->. Qed.

Lemma failsafe_page_foreign s : foreign_page (failsafe_page s).
Proof. unfold failsafe_page. by case_match. Qed.

Lemma loop_pass_forced t inp n (u : firmware G) :
  in_ok inp -> firmware_ok u -> arming_is ARMING_FORCE_FAILSAFE (registers u) = true ->
  forced_pass u (loop_pass ops t inp n u).
Proof.
  intros Hi Hu Hf. pose proof (loop_pass_continues t inp n u Hi Hu) as C. generalize dependent (loop_pass ops t inp n u).
  intros u' [_ Es Em Ea Ex Ep Eg]. pose proof (forced_outputs t u (proj1 Hu) Hf) as (H1 & H2 & H3).
  generalize dependent (pass_outputs ops t u). intros m Es Em Ea Ex Ep Eg H1 H2 H3.
  split; [by rewrite Es | by rewrite Ex|]. rewrite Ep, H3, Em.
  replace (failsafe_page (registers u')) with (failsafe_page (mio m)).
  - by rewrite Eg by apply failsafe_page_foreign.
  - unfold failsafe_page. by rewrite (arming_is_eq ARMING_LOCKDOWN _ _ Ea).
Qed.

(** C1: a termination is final.  Once termination failsafe is enabled and the
    failsafe forced, after every history of the coprocessor - whatever the FMU
    writes, the pilot's receivers deliver and the safety switch does - every
    further pass follows the failsafe source and reports it; while the outputs
    are armed it sends exactly the failsafe page, or the disarmed page if the FMU
    has set the lockdown, and while they are not it sends nothing; the pulses
    sent are 0 or inside the legal range. *)
Theorem flight_termination_final (es : list event) (u : firmware G) (t : clock) (inp : rc_in) (free_memory : Z) :
  firmware_ok u -> Forall event_ok es -> in_ok inp ->
  arming_is ARMING_TERMINATION_FAILSAFE (registers u) = true ->
  arming_is ARMING_FORCE_FAILSAFE (registers u) = true ->
  let u' := run ops group rate_ok es u in
  let u'' := loop_pass ops t inp free_memory u' in
  source (outputs_of u'') = MIX_FAILSAFE /\ status_is FLAGS_FAILSAFE (registers u'') = true
  /\ exists sent, pulses (fx (registers u'')) = pulses (fx (registers u')) ++ sent
       /\ (failsafe_ok (registers u'') -> Forall pulse_legal sent)
       /\ sent = if mixer_servos_armed (outputs_of u'')
                 then channels 0 (pages (registers u'') (if arming_is ARMING_LOCKDOWN (registers u'') then DISARMED else FAILSAFE))
                 else [].
Proof.
  intros Hu Hes Hi Ht Hf. cbv zeta. destruct (run_kept es u Hes Hu) as [Hu' Hl].
  generalize dependent (run ops group rate_ok es u). intros u' Hu' Hl. pose proof (proj2 (Hl Ht) Hf) as Hf'.
  pose proof (loop_pass_continues t inp free_memory u' Hi Hu') as [R _ _ _ _ _ _].
  pose proof (loop_pass_forced t inp free_memory u' Hi Hu' Hf') as [H1 H2 H3].
  generalize dependent (loop_pass ops t inp free_memory u'). intros u'' [R _] H1 H2 H3.
  split; [exact H1|]. split; [exact H2|]. eexists. split; [exact H3|].
  split; [|reflexivity]. intros Hok. destruct (mixer_servos_armed (outputs_of u'')); [|done].
  apply channels_legal; [exact R | exact Hok |]. unfold failsafe_page. case_match; auto.
Qed.
End Histories.
