(* ===== verification/Px4ioSafety.v ===== *)
(** The safety switch over the histories of the whole firmware ([Px4ioMain]):
    what can turn the safety off.  The register writes come first - [stays_on]
    holds of every one that does not itself carry the flag - then the handlers. *)

From Stdlib Require Import ZArith Lia SpecFloat.
From stdpp Require Import base list numbers.
From S2P Require Import Prelude Float32 PwmLimit Px4io Px4ioRegs Px4ioMixer Px4ioOutput Px4ioFailsafe.
From S2P Require Import Px4ioControls Px4ioRc Px4ioRcLoss Px4ioMain Px4ioFirmware.

Local Open Scope Z_scope.

(** * Steps that leave the safety on *)

Definition safety_is_off (s : io) : bool := status_is FLAGS_SAFETY_OFF s.
Definition stays_on (s s' : io) : Prop := safety_is_off s = false -> safety_is_off s' = false.

#[export] Instance stays_on_preorder : PreOrder stays_on.
Proof. split; [by intros s H|]. intros s1 s2 s3 H12 H23 H. auto. Qed.

Lemma on_same s s' : pages s' = pages s -> stays_on s s'.
Proof. unfold stays_on, safety_is_off, status_is, r_status_flags, rget. by intros ->. Qed.

Lemma on_page p i v s : p <> STATUS -> stays_on s (rset p i v s).
Proof. intros Hp H. unfold safety_is_off. by rewrite status_is_page. Qed.

Lemma on_index i v s : 0 <= i -> i <> PX4IO_P_STATUS_FLAGS -> stays_on s (rset STATUS i v s).
Proof.
  intros Hi Hne H. unfold safety_is_off, status_is, r_status_flags.
  by rewrite rget_rset_index by (done || congruence).
Qed.

Lemma on_flags v s : ftst v FLAGS_SAFETY_OFF = false -> safety_is_off (rset STATUS PX4IO_P_STATUS_FLAGS v s) = false.
Proof.
  intros Hv. unfold safety_is_off, status_is, r_status_flags, rget, rset. cbn [pages set_pages].
  rewrite decide_True by done. unfold aget, aset. destruct (decide (Z.to_nat PX4IO_P_STATUS_FLAGS < length (pages s STATUS))%nat).
  - by rewrite list_lookup_insert_eq.
  - rewrite lookup_ge_None_2; [done|]. rewrite length_insert. lia.
Qed.

Lemma on_or m s : Z.land m FLAGS_SAFETY_OFF = 0 -> stays_on s (reg_or STATUS PX4IO_P_STATUS_FLAGS m s).
Proof. intros Hm H. apply on_flags. by rewrite ftst_fset_disj. Qed.

Lemma land_fclr_comm f m n : Z.land (fclr f m) n = fclr (Z.land f n) m.
Proof. flag_bits. destruct (Z.testbit f n0), (Z.testbit m n0), (Z.testbit n n0); done. Qed.

Lemma on_clear m s : stays_on s (reg_clear STATUS PX4IO_P_STATUS_FLAGS m s).
Proof.
  intros H. apply on_flags. unfold safety_is_off, status_is, r_status_flags, ftst in *.
  apply negb_false_iff, Z.eqb_eq in H. by rewrite land_fclr_comm, H.
Qed.

Lemma on_atomic_clear m s : stays_on s (atomic_modify_clear STATUS PX4IO_P_STATUS_FLAGS m s).
Proof. unfold atomic_modify_clear. case_match; [reflexivity | apply on_clear]. Qed.

Lemma on_copy lim f values : (forall o v s, stays_on s (f o v s)) ->
  forall offset s, stays_on s (copy_regs lim f offset values s).
Proof.
  intros Hf. induction values as [|v values IH]; intros offset s; simpl; [reflexivity|].
  case_match; [|reflexivity]. etransitivity; [apply Hf | apply IH].
Qed.

Create HintDb safety.
#[local] Hint Extern 1 (stays_on _ (reg_or STATUS PX4IO_P_STATUS_FLAGS _ _)) => apply on_or; reflexivity : safety.
#[local] Hint Extern 1 (stays_on _ (reg_clear STATUS PX4IO_P_STATUS_FLAGS _ _)) => apply on_clear : safety.
#[local] Hint Extern 1 (stays_on _ (atomic_modify_clear STATUS PX4IO_P_STATUS_FLAGS _ _)) => apply on_atomic_clear : safety.
#[local] Hint Extern 2 (stays_on _ (reg_or STATUS PX4IO_P_STATUS_ALARMS _ _)) => apply on_index; done : safety.
#[local] Hint Extern 2 (stays_on _ (reg_clear STATUS PX4IO_P_STATUS_ALARMS _ _)) => apply on_index; done : safety.
#[local] Hint Extern 3 (stays_on _ (emit _ _)) => apply on_same; reflexivity : safety.
#[local] Hint Extern 3 (stays_on _ (set_fmu_time _ _)) => apply on_same; reflexivity : safety.
#[local] Hint Extern 3 (stays_on _ (set_mixer _ _)) => apply on_same; reflexivity : safety.
#[local] Hint Extern 3 (stays_on _ (set_update_thrust _ _)) => apply on_same; reflexivity : safety.
#[local] Hint Extern 3 (stays_on _ (set_update_trims _ _)) => apply on_same; reflexivity : safety.
#[local] Hint Extern 3 (stays_on _ (schedule_reboot _ _ _)) => apply on_same; reflexivity : safety.
#[local] Hint Extern 4 (stays_on _ (rset _ _ _ _)) => apply on_page; done : safety.
#[local] Hint Extern 4 (stays_on _ (reg_or _ _ _ _)) => apply on_page; done : safety.
#[local] Hint Extern 4 (stays_on _ (reg_clear _ _ _ _)) => apply on_page; done : safety.

(** One operation at a time, from the last one performed. *)
Ltac last_op :=
  match goal with
  | |- stays_on _ (_ ?x) => match type of x with io => transitivity x; [|solve [eauto with safety]] end
  end.
Ltac stay := repeat first [reflexivity | solve [eauto with safety] | last_op | case_match].

(** * The register writes *)

Lemma on_controls now offset values s : stays_on s (set_controls now offset values s).
Proof. unfold set_controls. cbv zeta. stay. apply on_copy. intros. stay. Qed.

Lemma on_direct_pwm now offset values s : stays_on s (set_direct_pwm now offset values s).
Proof.
  unfold set_direct_pwm. cbv zeta. stay. apply on_copy. intros. unfold direct_pwm_one. stay.
Qed.

Lemma on_clamp p lo hi o v s : p <> STATUS -> stays_on s (clamp_one p lo hi o v s).
Proof. intros Hp. unfold clamp_one. repeat case_match; (reflexivity || by apply on_page). Qed.

Lemma on_failsafe o v s : stays_on s (failsafe_one o v s).
Proof. unfold failsafe_one. etransitivity; [by apply (on_clamp FAILSAFE PWM_LOWEST_MIN PWM_HIGHEST_MAX o v) | stay]. Qed.

Lemma on_trim offset values s : stays_on s (set_trim_pwm offset values s).
Proof.
  unfold set_trim_pwm. transitivity (copy_regs PX4IO_SERVO_COUNT (rset CTRIM) offset values s); [|stay].
  apply on_copy. intros. stay.
Qed.

Lemma on_disarmed offset values s : stays_on s (set_disarmed_pwm offset values s).
Proof.
  unfold set_disarmed_pwm. cbv zeta. transitivity (copy_regs PX4IO_SERVO_COUNT disarmed_one offset values s).
  - apply on_copy. intros. unfold disarmed_one. repeat case_match; by apply on_page.
  - stay.
Qed.

Lemma on_append text s : stays_on s (mixer_append text s).2.
Proof. unfold mixer_append. cbv zeta. repeat case_match; cbn [snd]; stay. Qed.

Lemma on_handle_text buffer s : stays_on s (interrupt_mixer_handle_text buffer s).2.
Proof.
  unfold interrupt_mixer_handle_text. case_match; [reflexivity|]. set (s1 := atomic_modify_clear _ _ _ s).
  transitivity s1; [subst s1; stay|]. clearbody s1. cbv zeta. repeat case_match; cbn [snd]; try reflexivity.
  - etransitivity; [|apply on_append]. stay.
  - apply on_append.
Qed.

Section Writes.
Context (group : Z -> Z) (rate_ok : Z -> Z -> bool).

Lemma on_rates n map : forall g s, stays_on s (rates_apply group rate_ok n g map s).
Proof.
  induction n as [|n IH]; intros g s; simpl; [reflexivity|]. case_match; [apply IH|].
  etransitivity; [|apply IH]. case_match; stay.
Qed.

Lemma on_configure map d a s : stays_on s (pwm_configure_rates group rate_ok map d a s).
Proof.
  unfold pwm_configure_rates. cbv zeta. case_match; [|stay].
  transitivity (rates_apply group rate_ok 8 0 map s); [apply on_rates | stay].
Qed.

Lemma on_arming v s : stays_on s (set_arming v s).
Proof.
  unfold set_arming. cbv zeta. match goal with |- context [rset SETUP _ _ ?x] => transitivity x end; [|stay].
  case_match; stay.
Qed.

(** The registers of the setup page, the one that forces the safety off apart. *)
Lemma on_setup now offset v s : v <> PX4IO_FORCE_SAFETY_MAGIC -> stays_on s (set_setup group rate_ok now offset v s).2.
Proof.
  intros Hv. unfold set_setup. cbv zeta.
  repeat case_match; cbn [snd]; try reflexivity; try (by apply on_arming); try (by apply on_configure); try stay.
  exfalso. apply Hv. by apply Z.eqb_eq.
Qed.

Lemma on_rc_options base v s : stays_on s (set_rc_options base v s).
Proof. unfold set_rc_options. cbv zeta. repeat case_match; stay. Qed.

Lemma on_rc_config offset v s : stays_on s (set_rc_config offset v s).2.
Proof.
  unfold set_rc_config. cbv zeta. repeat case_match; cbn [snd]; try reflexivity; try stay.
  etransitivity; [|apply on_rc_options]. stay.
Qed.

Lemma on_set_one now page offset v s :
  page <> PX4IO_PAGE_STATUS -> (page = PX4IO_PAGE_SETUP -> v <> PX4IO_FORCE_SAFETY_MAGIC) ->
  stays_on s (registers_set_one group rate_ok now page offset v s).2.
Proof.
  intros Hp Hv. unfold registers_set_one. destruct (Z.eqb_spec page PX4IO_PAGE_STATUS); [done|].
  destruct (Z.eqb_spec page PX4IO_PAGE_SETUP); [by apply on_setup; auto|].
  repeat case_match; cbn [snd]; try reflexivity; [apply on_rc_config | stay].
Qed.

(** A write that carries the flag itself: to the status page, or with the
    magic value to the setup page. *)
Definition carries_safety (page : Z) (values : list Z) : bool :=
  (page =? PX4IO_PAGE_STATUS) || (page =? PX4IO_PAGE_SETUP) && existsb (Z.eqb PX4IO_FORCE_SAFETY_MAGIC) values.

Lemma on_set_each now page values : forall offset s,
  carries_safety page values = false -> stays_on s (set_each group rate_ok now page offset values s).2.
Proof.
  unfold carries_safety. induction values as [|v values IH]; intros offset s Hc; simpl; [reflexivity|].
  apply orb_false_iff in Hc as [Hp Hv]. cbn [existsb] in Hv.
  pose proof (on_set_one now page offset v s) as H. destruct (registers_set_one _ _ _ _ _ _ _) as [rv s'].
  transitivity s'.
  - apply H; [by apply Z.eqb_neq|]. intros E ->. rewrite E, !Z.eqb_refl in Hv. done.
  - case_match; [reflexivity|]. apply IH. rewrite Hp.
    destruct (page =? PX4IO_PAGE_SETUP), (PX4IO_FORCE_SAFETY_MAGIC =? v); cbn in *; congruence.
Qed.

Lemma existsb_take x n (l : list Z) : existsb (Z.eqb x) l = false -> existsb (Z.eqb x) (take n l) = false.
Proof.
  revert n. induction l as [|y l IH]; intros [|n]; simpl; try done. intros H. apply orb_false_iff in H as [-> H].
  by rewrite IH.
Qed.

Lemma on_registers_set now page offset values s :
  carries_safety page values = false -> stays_on s (registers_set group rate_ok now page offset values s).2.
Proof.
  intros Hc. unfold registers_set.
  case_match; [apply on_controls|]. case_match; [apply on_direct_pwm|].
  case_match; [by apply on_copy; intros; apply on_failsafe|].
  case_match; [by apply on_copy; intros; apply on_clamp|].
  case_match; [by apply on_copy; intros; apply on_clamp|].
  case_match; [apply on_trim|]. case_match; [apply on_disarmed|]. case_match; [apply on_handle_text|].
  apply on_set_each. unfold carries_safety in *. apply orb_false_iff in Hc as [-> Hc].
  destruct (page =? PX4IO_PAGE_SETUP); [|done]. by apply existsb_take.
Qed.
End Writes.

(** * The handlers *)

Section Switch.
Context {G : Type} (ops : mixer_ops G) `{!MixerLaws ops}.
Context (group : Z -> Z) (rate_ok : Z -> Z -> bool).

Lemma on_lamps s s' : lamps s s' -> stays_on s s'.
Proof. intros L H. unfold safety_is_off in *. by rewrite (lm_status _ _ L). Qed.

Lemma on_pass t inp n (u : firmware G) :
  in_ok inp -> firmware_ok u -> stays_on (registers u) (registers (loop_pass ops t inp n u)).
Proof.
  intros Hi Hu H. unfold safety_is_off in *.
  rewrite (ct_status _ _ (loop_pass_continues ops t inp n u Hi Hu)) by done.
  destruct (pass_outputs_tick ops t u) as (now & dt & ->). destruct (tick_decision ops now dt (outputs_of u) (proj1 Hu)) as (-> & _); [|done].
  by rewrite (fr_flags _ _ (decided_frame ops now dt (outputs_of u) (proj1 Hu))).
Qed.

(** The button handler sets the flag at the tenth counted press, and counts. *)
Lemma button_counts pressed b s :
  counter (safety_check_button pressed b s).1
  = if press_counts pressed s then (if counter b <=? ARM_COUNTER_THRESHOLD then counter b + 1 else counter b) else 0.
Proof. unfold safety_check_button. by destruct (press_counts pressed s). Qed.

Lemma button_pressed pressed s : press_counts pressed s = true -> pressed = true.
Proof. unfold press_counts. by destruct pressed. Qed.

(** ** Histories *)

(** The states of the button, as the handler sampled it. *)
Definition presses (es : list event) : list bool :=
  omap (fun e => match e with Button pressed => Some pressed | _ => None end) es.

(** The FMU does not turn the safety off itself. *)
Definition hands_off (e : event) : Prop :=
  match e with Write _ page _ values => carries_safety page values = false | _ => True end.

Definition held_for (n : nat) (l : list bool) : Prop := exists pre, l = pre ++ replicate n true.
Definition held_once (n : nat) (l : list bool) : Prop := exists pre post, l = pre ++ replicate n true ++ post.

Lemma held_for_0 l : held_for 0 l.
Proof. exists l. by rewrite app_nil_r. Qed.

Lemma held_for_snoc n l : held_for n l -> held_for (S n) (l ++ [true]).
Proof. intros [pre ->]. exists pre. by rewrite <- app_assoc, <- replicate_cons_app. Qed.

Lemma held_for_less n l : held_for (S n) l -> held_for n l.
Proof. intros [pre ->]. exists (pre ++ [true]). by rewrite <- app_assoc. Qed.

Lemma held_for_once n l : held_for n l -> held_once n l.
Proof. intros [pre ->]. exists pre, []. by rewrite app_nil_r. Qed.

Lemma held_once_app n l l' : held_once n l -> held_once n (l ++ l').
Proof. intros (pre & post & ->). exists pre, (post ++ l'). by rewrite <- !app_assoc. Qed.

(** The safety is on and the counter counts presses just seen, or the button
    has been held long enough. *)
Record counting (l : list bool) (u : firmware G) : Prop := Counting {
  cn_on : safety_is_off (registers u) = false;
  cn_range : 0 <= counter (switch_of u);
  cn_held : held_for (Z.to_nat (counter (switch_of u))) l
}.
Definition guarded (l : list bool) (u : firmware G) : Prop := counting l u \/ held_once 10 l.

Lemma pass_switch t inp n (u : firmware G) : switch_of (loop_pass ops t inp n u) = switch_of u.
Proof.
  rewrite loop_pass_eq. generalize (pass_outputs ops t u). intros m.
  generalize (controls_tick (t_controls t) inp (refreshed (mio m) (controls_of u))). intros c.
  unfold finish_pass. by destruct (housekeeping _ _ _ _).
Qed.

Lemma button_guarded pressed l (u : firmware G) :
  firmware_ok u -> counting l u -> guarded (l ++ [pressed]) (handle ops group rate_ok (Button pressed) u).
Proof.
  intros Hu [H0 Hc Hl]. cbn [handle]. destruct (button_frame pressed (switch_of u) (registers u)) as (s1 & F & L & E).
  pose proof (button_counts pressed (switch_of u) (registers u)) as N.
  destruct (safety_check_button pressed (switch_of u) (registers u)) as [b s']. cbn [fst snd] in *.
  pose proof (button_pressed pressed (registers u)) as P. destruct (E H0) as [->|[C N9]].
  - left. split; unfold registers; cbn [outputs_of switch_of on_io mio].
    + by apply (on_lamps _ _ (L (proj1 Hu))).
    + rewrite N. repeat case_match; lia.
    + rewrite N. destruct (press_counts _ _); [|apply held_for_0]. rewrite P by done.
      pose proof (held_for_snoc _ _ Hl). case_match; [|by apply held_for_less].
      by rewrite Z2Nat.inj_add, Nat.add_comm by lia.
  - right. rewrite P by done. rewrite N9 in Hl. apply held_for_once. by apply held_for_snoc in Hl.
Qed.

Lemma handle_guarded e l (u : firmware G) :
  firmware_ok u -> event_ok e -> hands_off e -> guarded l u -> guarded (l ++ presses [e]) (handle ops group rate_ok e u).
Proof.
  intros Hu He Hh [C|O]; [|right; by apply held_once_app].
  destruct e as [t inp n|now page offset values|pressed|]; [| |by apply button_guarded|]; destruct C as [H0 Hc Hl];
    left; cbn [presses omap list_omap]; rewrite app_nil_r; cbn [handle].
  - split; rewrite ?pass_switch; try done. by apply (on_pass t inp n u He Hu).
  - split; [|done|done]. by apply (on_registers_set group rate_ok now page offset values (registers u) Hh).
  - pose proof (failsafe_blink_lamps (switch_of u) (registers u)) as L.
    assert (N : counter (failsafe_blink (switch_of u) (registers u)).1 = counter (switch_of u))
      by (unfold failsafe_blink; by case_match).
    destruct (failsafe_blink (switch_of u) (registers u)) as [b s']. cbn [fst snd] in *.
    split; cbn [switch_of]; rewrite ?N; try done. by apply (on_lamps _ _ (L (proj1 Hu))).
Qed.

Lemma run_guarded es : forall l (u : firmware G),
  firmware_ok u -> Forall event_ok es -> Forall hands_off es -> guarded l u ->
  guarded (l ++ presses es) (run ops group rate_ok es u).
Proof.
  induction es as [|e es IH]; intros l u Hu He Hh Hg; [by rewrite app_nil_r|].
  inversion He; inversion Hh; subst. change (presses (e :: es)) with (omap (fun e => match e with Button p => Some p | _ => None end) ([e] ++ es)).
  unfold presses. rewrite omap_app, app_assoc.
  apply (IH _ (handle ops group rate_ok e u)); [by apply (handle_kept ops group rate_ok e u) | done | done |].
  by apply handle_guarded.
Qed.

(** ** Holding the button *)

(** The safety is on, the button counts and has been seen [n] times. *)
Record held (n : Z) (u : firmware G) : Prop := Held {
  hd_counts : press_counts true (registers u) = true;
  hd_counter : counter (switch_of u) = n
}.

Lemma press_counts_emit pressed e s : press_counts pressed (emit e s) = press_counts pressed s.
Proof. reflexivity. Qed.

Lemma press_held n (u : firmware G) :
  n < 9 -> held n u -> held (n + 1) (handle ops group rate_ok (Button true) u).
Proof.
  intros Hn [H C]. cbn [handle]. unfold safety_check_button. rewrite H, C.
  destruct (Z.leb_spec n ARM_COUNTER_THRESHOLD); [|unfold ARM_COUNTER_THRESHOLD in *; lia].
  cbv zeta. destruct (Z.eqb_spec (n + 1) ARM_COUNTER_THRESHOLD); [unfold ARM_COUNTER_THRESHOLD in *; lia|].
  by split.
Qed.

Lemma presses_held k : forall n (u : firmware G), n + Z.of_nat k < 10 ->
  held n u -> held (n + Z.of_nat k) (run ops group rate_ok (replicate k (Button true)) u).
Proof.
  induction k as [|k IH]; intros n u Hk H; [by rewrite Z.add_0_r|].
  replace (n + Z.of_nat (S k)) with (n + 1 + Z.of_nat k) by lia.
  apply (IH (n + 1) (handle ops group rate_ok (Button true) u)); [lia|]. apply press_held; [lia | done].
Qed.

Lemma atomic_or_set m s : regs_ok s -> m <> 0 -> status_is m (atomic_modify_or STATUS PX4IO_P_STATUS_FLAGS m s) = true.
Proof.
  intros (Hl & _) Hm. unfold atomic_modify_or, status_is, r_status_flags.
  destruct (Z.eqb_spec (Z.lor (rget STATUS PX4IO_P_STATUS_FLAGS s) m) (rget STATUS PX4IO_P_STATUS_FLAGS s)) as [<-|_].
  - by apply ftst_fset_same.
  - rewrite rget_rset_same by done. by apply ftst_fset_same.
Qed.

Lemma tenth_press (u : firmware G) :
  regs_ok (registers u) -> held 9 u -> safety_is_off (registers (handle ops group rate_ok (Button true) u)) = true.
Proof.
  intros R [H C]. cbn [handle]. unfold safety_check_button. rewrite H, C. cbv zeta. cbn [Z.leb Z.eqb].
  unfold registers. cbn [outputs_of on_io mio]. by apply (atomic_or_set FLAGS_SAFETY_OFF).
Qed.

Lemma firmware_regs (u : firmware G) : firmware_ok u -> regs_ok (registers u).
Proof. intros [H _]. exact H. Qed.

Lemma run_snoc es e (u : firmware G) :
  run ops group rate_ok (es ++ [e]) u = handle ops group rate_ok e (run ops group rate_ok es u).
Proof. unfold run. by rewrite fold_left_app. Qed.

Lemma run_ok es (u : firmware G) :
  firmware_ok u -> Forall event_ok es -> firmware_ok (run ops group rate_ok es u).
Proof. intros Hu He. exact (proj1 (run_kept ops group rate_ok es u He Hu)). Qed.

(** C3: the safety switch.  With the safety on and the button not yet held,
    (1) whatever the passes, the failsafe lamp and the register writes do - as
    long as the FMU itself writes neither the status page nor the magic value
    into the setup page - the safety is off afterwards only if the button was
    sampled ten times in a row as pressed; and (2) holding it for ten samples
    does turn it off when the FMU allows the I/O processor to arm. *)
Theorem safety_needs_ten_presses (es : list event) (u : firmware G) :
  firmware_ok u -> safety_is_off (registers u) = false -> counter (switch_of u) = 0 ->
  (Forall event_ok es -> Forall hands_off es -> safety_is_off (registers (run ops group rate_ok es u)) = true ->
   held_once 10 (presses es))
  /\ (arming_is ARMING_IO_ARM_OK (registers u) = true ->
      safety_is_off (registers (run ops group rate_ok (replicate 10 (Button true)) u)) = true).
Proof.
  intros Hu H0 C. split.
  - intros He Hh H. destruct (run_guarded es [] u Hu He Hh) as [G'|G']; [| |exact G'].
    + left. split; rewrite ?C; [done | done | apply held_for_0].
    + exfalso. by rewrite (cn_on _ _ G') in H.
  - intros Ha. change (replicate 10 (Button true)) with (replicate 9 (Button true) ++ [Button true]).
    rewrite run_snoc. apply tenth_press.
    + apply firmware_regs, run_ok; [exact Hu | by apply Forall_replicate].
    + apply (presses_held 9 0); [done|]. split; [|exact C]. unfold press_counts, safety_is_off in *. by rewrite H0, Ha.
Qed.
End Switch.

(** * Concrete histories *)

Definition boot (m : mix unit) : firmware unit := Firmware m powered_up loop_init switch_init.

Lemma boot_ok m : regs_ok (mio m) -> firmware_ok (boot m).
Proof.
  intros H. unfold firmware_ok, boot. cbn [controls_of]. generalize powered_up_ok. generalize powered_up.
  intros c Hc. unfold registers. cbn [outputs_of]. destruct Hc as [_ Hc]. split; [exact H | exact Hc].
Qed.

(** The FMU asks for everything to be released, between a press and a pass
    without receivers. *)
Definition a_clock : clock := Clock 1000 1000 1000 1000 1000 1000 1000 1000.
Definition a_history : list event :=
  [Button true; Write 0 PX4IO_PAGE_SETUP PX4IO_P_SETUP_ARMING [0]; Pass a_clock no_bytes 65536; Blink].

Lemma a_history_ok : Forall event_ok a_history.
Proof.
  repeat apply Forall_cons_2; try apply Forall_nil_2; try done; try exact no_bytes_ok.
  split; [by vm_compute|]. repeat constructor; by vm_compute.
Qed.

Lemma firmware_invariant_witness :
  firmware_ok (boot ended_flight)
  /\ firmware_ok (run roll_mixer id (fun _ _ => true) a_history (boot ended_flight)).
Proof.
  split; [exact (boot_ok _ ended_flight_ok)|].
  exact (proj1 (proj2 (firmware_invariant roll_mixer id (fun _ _ => true) a_history) (boot ended_flight)
                  (boot_ok _ ended_flight_ok) a_history_ok)).
Defined.

(** A board on the ground that the FMU allows to arm. *)
Definition grounded : mix unit := mix_start (io_with FLAGS_INIT_OK ARMING_IO_ARM_OK (replicate 8 950)).

Lemma grounded_ok : regs_ok (mio grounded).
Proof. unfold grounded, mix_start. cbn [mio]. apply io_with_ok; try done. apply failsafe_950. Qed.

Lemma safety_needs_ten_presses_witness :
  safety_is_off (registers (boot grounded)) = false
  /\ safety_is_off (registers (run roll_mixer id (fun _ _ => true) (replicate 10 (Button true)) (boot grounded))) = true.
Proof.
  split; [by vm_compute|].
  refine (proj2 (safety_needs_ten_presses roll_mixer id (fun _ _ => true) [] (boot grounded) (boot_ok _ grounded_ok) _ _) _);
    by vm_compute.
Defined.
