(* ===== verification/Px4ioMixerFailsafe.v ===== *)
(** The whole coprocessor with the real mixers: a mixer text uploaded over the
    register interface, and the failsafe values the firmware derives from it. *)

From Stdlib Require Import ZArith Lia SpecFloat.
From stdpp Require Import base list numbers.
From S2P Require Import Prelude Float32 PwmLimit Px4io Px4ioRegs Px4ioMixer Px4ioOutput Px4ioFailsafe.
From S2P Require Import Px4ioControls Px4ioRcLoss Px4ioMain Px4ioFirmware Px4ioSafety.
From S2P Require Import MixerText SimpleMixer MixerGroup MixerRoundtrip.

Local Open Scope Z_scope.

(** A write of a mixer text: the magic number, the action and the text, as
    registers. *)
Fixpoint registers_of (bytes : list Z) : list Z :=
  match bytes with
  | a :: b :: bytes => a + 256 * b :: registers_of bytes
  | [a] => [a]
  | [] => []
  end.
Definition upload (text : list Z) : event :=
  Write 0 PX4IO_PAGE_MIXERLOAD 0 (registers_of ([0x6d; 0x74; F2I_MIXER_ACTION_RESET] ++ text)).

Definition at_time (t : Z) : clock := Clock t t t t t t t t.
Definition a_pass (t : Z) : event := Pass (at_time t) no_bytes 65536.
Definition setup (offset v : Z) : event := Write 0 PX4IO_PAGE_SETUP offset [v].

(** One servo held at three times the full deflection. *)
Definition wild : mixer_text := TSimple [0; 0; 30000; 0; 30000; 0] [[0; 0; 0; 0; 0; 0; 0]].

(** The text is uploaded and declared good, the safety is taken off, and the FMU
    forces the failsafe. *)
Definition wild_history : list event :=
  [upload (print_mixer wild); a_pass 1000; Write 0 PX4IO_PAGE_STATUS PX4IO_P_STATUS_FLAGS [FLAGS_MIXER_OK]; a_pass 2000;
   setup PX4IO_P_SETUP_ARMING ARMING_RC_HANDLING_DISABLED; setup PX4IO_P_SETUP_FORCE_SAFETY_OFF PX4IO_FORCE_SAFETY_MAGIC;
   setup PX4IO_P_SETUP_ARMING (ARMING_FMU_ARMED + ARMING_FORCE_FAILSAFE); a_pass 3000].

Definition started : option (firmware (list mixer)) := user_start [] (fun _ _ => 0) [] 60000 0.
Definition flown (u : firmware (list mixer)) : firmware (list mixer) :=
  run (MixerGroup bench) id (fun _ _ => true) wild_history u.

(** The verdicts of [SimpleMixer::check] on the mixers loaded. *)
Definition checks (m : mix (list mixer)) : list Z :=
  omap (fun m => match m with SimpleMixer s => Some (check (fun _ _ => (0, f_of_Z 0)) s) | _ => None end) (mixer_group m).

(** The failsafe values derived from the mixers are not bounded.  A mixer
    text whose servo is scaled beyond full deflection is accepted - the mixer's
    own [check], which rejects it, is never called - and declaring it good fills
    the failsafe page with a pulse of 3300 us, beyond the 2500 us that every
    other way to set the page enforces; a forced failsafe sends it. *)
Theorem ill_scaled_failsafe_sent :
  Forall event_ok wild_history
  /\ (fun u => (checks (outputs_of u), pages (registers u) FAILSAFE, pulses (fx (registers u)))) ∘ flown <$> started
     = Some ([5], [3300; 0; 0; 0; 0; 0; 0; 0], channels 0 [3300; 0; 0; 0; 0; 0; 0; 0])
  /\ PWM_HIGHEST_MAX < 3300.
Proof.
  split; [|split; vm_compute; reflexivity].
  repeat apply Forall_cons_2; try apply Forall_nil_2; try exact no_bytes_ok; (split; [by vm_compute|]);
    repeat constructor; by vm_compute.
Qed.

(** A flight with the quadrotor file, terminated by the FMU. *)
Definition quad_history : list event :=
  [upload (concat (print_mixer <$> quad_file)); a_pass 1000; setup PX4IO_P_SETUP_ARMING ARMING_RC_HANDLING_DISABLED;
   setup PX4IO_P_SETUP_FORCE_SAFETY_OFF PX4IO_FORCE_SAFETY_MAGIC;
   setup PX4IO_P_SETUP_ARMING (ARMING_FMU_ARMED + ARMING_TERMINATION_FAILSAFE + ARMING_FORCE_FAILSAFE)].

Lemma quad_history_ok : Forall event_ok quad_history.
Proof.
  repeat apply Forall_cons_2; try apply Forall_nil_2; try exact no_bytes_ok; (split; [by vm_compute|]);
    repeat constructor; by vm_compute.
Qed.

Definition terminated : option (firmware (list mixer)) :=
  run (MixerGroup bench) id (fun _ _ => true) quad_history <$> started.

Lemma started_ok : exists u, started = Some u /\ firmware_ok u.
Proof. apply user_start_ok. lia. Qed.

Lemma terminated_ok :
  exists u, terminated = Some u /\ firmware_ok u
    /\ arming_is ARMING_TERMINATION_FAILSAFE (registers u) = true
    /\ arming_is ARMING_FORCE_FAILSAFE (registers u) = true.
Proof.
  assert (E : (fun u => (arming_is ARMING_TERMINATION_FAILSAFE (registers u), arming_is ARMING_FORCE_FAILSAFE (registers u)))
              <$> terminated = Some (true, true)) by (vm_compute; reflexivity).
  unfold terminated in *. destruct started_ok as (u & Es & Hu). rewrite Es in *. cbn [fmap option_fmap option_map] in *.
  pose proof (proj1 (run_kept (MixerGroup bench) id (fun _ _ => true) quad_history u quad_history_ok Hu)) as Hr.
  generalize dependent (run (MixerGroup bench) id (fun _ _ => true) quad_history u). intros u' E Hu'.
  injection E as E1 E2. by exists u'.
Qed.

(** The FMU tries to release it. *)
Definition release : list event := [setup PX4IO_P_SETUP_ARMING 0; a_pass 4000].

Lemma release_ok : Forall event_ok release.
Proof.
  repeat apply Forall_cons_2; try apply Forall_nil_2; try exact no_bytes_ok. split; [by vm_compute|].
  repeat constructor; by vm_compute.
Qed.

Lemma flight_termination_final_witness :
  exists u, terminated = Some u
    /\ source (outputs_of (loop_pass (MixerGroup bench) (at_time 5000) no_bytes 65536
                 (run (MixerGroup bench) id (fun _ _ => true) release u))) = MIX_FAILSAFE.
Proof.
  destruct terminated_ok as (u & E & Hu & Ht & Hf). exists u. split; [exact E|].
  exact (proj1 (flight_termination_final (MixerGroup bench) id (fun _ _ => true) release u (at_time 5000) no_bytes 65536
                  Hu release_ok no_bytes_ok Ht Hf)).
Defined.
