(* ===== verification/Hysteresis.v ===== *)
(** systemlib::Hysteresis (src/lib/hysteresis): a boolean whose changes take
    effect after a delay, with what its users rely on. *)

From Stdlib Require Import ZArith Lia.
From stdpp Require Import base list numbers option.
From S2P Require Import Prelude.

Local Open Scope Z_scope.

Record hysteresis := Hysteresis {
  _last_time_to_change_state : Z;
  _time_from_true_us : Z;
  _time_from_false_us : Z;
  _state : bool;
  _requested_state : bool
}.

Definition hysteresis_new (init_state : bool) : hysteresis := Hysteresis 0 0 0 init_state init_state.

Definition set_hysteresis_time_from (from_state : bool) (new_hysteresis_time_us : Z) (h : hysteresis) : hysteresis :=
  if from_state
  then Hysteresis (_last_time_to_change_state h) new_hysteresis_time_us (_time_from_false_us h) (_state h) (_requested_state h)
  else Hysteresis (_last_time_to_change_state h) (_time_from_true_us h) new_hysteresis_time_us (_state h) (_requested_state h).

Definition hysteresis_update (now_us : Z) (h : hysteresis) : hysteresis :=
  let 'Hysteresis last from_true from_false state requested := h in
  if eqb requested state then h
  else
    let elapsed := u64 (now_us - last) in
    if state && negb requested then
      if from_true <=? elapsed then Hysteresis last from_true from_false false requested else h
    else if negb state && requested then
      if from_false <=? elapsed then Hysteresis last from_true from_false true requested else h
    else h.

Definition set_state_and_update (new_state : bool) (now_us : Z) (h : hysteresis) : hysteresis :=
  let 'Hysteresis last from_true from_false state requested := h in
  hysteresis_update now_us
    (if negb (eqb new_state state) then
       if negb (eqb new_state requested) then Hysteresis now_us from_true from_false state new_state else h
     else Hysteresis last from_true from_false state state).

(** ** Histories *)

(** Since when the input has been true without interruption. *)
Definition raised (rise : option Z) (v : bool) (now : Z) : option Z := if v then Some (default now rise) else None.

(** The state of a hysteresis without delay towards false, whose input has been
    true since [rise] and was last seen at [now]: true only after [lo], false for
    less than [hi]. *)
Record tracks (lo hi now : Z) (rise : option Z) (h : hysteresis) : Prop := {
  tracks_from_true : _time_from_true_us h = 0;
  tracks_requested : _requested_state h = bool_decide (is_Some rise);
  tracks_low : rise = None -> _state h = false;
  tracks_range t : rise = Some t -> 0 <= t <= now;
  tracks_high t : rise = Some t -> _state h = true -> lo <= now - t;
  tracks_wait t : rise = Some t -> _state h = false -> now - t < hi /\ _last_time_to_change_state h = t
}.

(** Nothing but the delay depends on [set_hysteresis_time_from(false, ...)]. *)
Lemma tracks_set_time lo hi now rise h T :
  tracks lo hi now rise h -> tracks lo hi now rise (set_hysteresis_time_from false T h).
Proof. by intros []; split. Qed.

Lemma tracks_step lo hi now now' rise v h :
  tracks lo hi now rise h -> 0 <= now <= now' -> now' < 2 ^ 64 ->
  lo <= _time_from_false_us h <= hi ->
  tracks lo hi now' (raised rise v now') (set_state_and_update v now' h).
Proof.
  intros [Ht Hr Hl Hg Hh Hw] Hn Hb HT. destruct h as [last from_true from_false state requested]. cbn in *. subst.
  destruct rise as [t|]; cbn in *.
  - destruct (Hg t eq_refl). destruct v, state; cbn.
    + split; cbn; try done; intros ? [= <-]; [lia|]. specialize (Hh t eq_refl eq_refl). lia.
    + destruct (Hw t eq_refl eq_refl) as [H1 ->]. unfold u64. rewrite Z.mod_small by lia.
      destruct (Z.leb_spec from_false (now' - t)); split; cbn; try done; intros ? [= <-]; try done; try split; lia.
    + rewrite Z.sub_diag. by split.
    + by split.
  - rewrite (Hl eq_refl). destruct v; cbn; [|by split]. rewrite Z.sub_diag. change (u64 0) with 0.
    destruct (Z.leb_spec from_false 0); split; cbn; try done; intros ? [= <-]; try done; try split; lia.
Qed.

(** Towards false there is no delay, whatever came before. *)
Lemma hysteresis_down lo hi now h :
  _time_from_true_us h = 0 -> tracks lo hi now None (set_state_and_update false now h).
Proof.
  destruct h as [last from_true from_false state requested]. cbn. intros ->.
  assert (H : forall x, (0 <=? u64 x) = true).
  { intros x. unfold u64. pose proof (Z.mod_pos_bound x 18446744073709551616). lia. }
  by destruct state, requested; cbn; rewrite ?H; split.
Qed.

Lemma hysteresis_falls now h : _time_from_true_us h = 0 -> _state (set_state_and_update false now h) = false.
Proof. intros H. exact (tracks_low _ _ _ _ _ (hysteresis_down 0 0 now h H) eq_refl). Qed.

Lemma hysteresis_times v now h :
  _time_from_true_us (set_state_and_update v now h) = _time_from_true_us h
  /\ _time_from_false_us (set_state_and_update v now h) = _time_from_false_us h.
Proof. destruct h as [? ? ? [] []], v; cbn; repeat (case_match; cbn); done. Qed.

(** A true input leaves a true state true. *)
Lemma hysteresis_stays now h : _state h = true -> _state (set_state_and_update true now h) = true.
Proof. destruct h as [? ? ? [] []]; done. Qed.

(** ** Chains

    Two inputs of which the second is up only while the first has been up for at
    least [lo] longer. *)
Definition chain (lo : Z) (ra rb : option Z) : Prop :=
  forall t, rb = Some t -> exists t', ra = Some t' /\ lo <= t - t'.

(** The first input is up whenever the second is. *)
Lemma chain_input ra rb va vb now :
  chain 0 ra rb -> (forall t, ra = Some t -> t <= now) -> (vb = true -> va = true) ->
  chain 0 (raised ra va now) (raised rb vb now).
Proof.
  intros H Hle Hv t Hb. destruct vb; [|done]. rewrite Hv by done. cbn in *. injection Hb as <-.
  destruct rb as [t|]; cbn; [destruct (H t eq_refl) as (t' & -> & ?); by exists t'|].
  destruct ra as [t'|]; cbn; eexists; split; try done; [|lia]. specialize (Hle t' eq_refl). lia.
Qed.

(** The second input is up only with the hysteresis of the first. *)
Lemma chain_hysteresis lo hi now ra rb va vb h :
  chain lo ra rb -> tracks lo hi now (raised ra va now) h -> (vb = true -> _state h = true) ->
  chain lo (raised ra va now) (raised rb vb now).
Proof.
  intros H Ht Hv t Hb. destruct vb; [|done]. specialize (Hv eq_refl). cbn in Hb. injection Hb as <-.
  destruct (raised ra va now) as [t'|] eqn:E; [|by rewrite (tracks_low _ _ _ _ _ Ht eq_refl) in Hv].
  exists t'. split; [done|]. destruct rb as [t|]; cbn; [|exact (tracks_high _ _ _ _ _ Ht _ eq_refl Hv)].
  destruct (H t eq_refl) as (t'' & -> & ?). destruct va; cbn in E; [|done]. congruence.
Qed.

Lemma raised_le rise v now now' :
  (forall t, rise = Some t -> t <= now) -> now <= now' -> forall t, raised rise v now' = Some t -> t <= now'.
Proof. intros H Hn t. destruct v, rise as [t'|]; cbn; intros [= <-]; [specialize (H t' eq_refl)|]; lia. Qed.

(** ** Exact readings

    What a hysteresis with the delay [T] stands for: its input has been true
    since a moment, as of a sample not after [last]. *)
Definition holds (T last : Z) (since : option Z) (h : hysteresis) : Prop :=
  exists n, 0 <= n <= last /\ tracks T T n since h.

(** Whether [T] has passed at [now]. *)
Definition lasted (T now : Z) (since : option Z) : bool :=
  match since with Some t => T <=? now - t | None => false end.

Lemma holds_later T last last' since h : holds T last since h -> last <= last' -> holds T last' since h.
Proof. intros (n & Hn & Ht) Hl. exists n. split; [lia | done]. Qed.

Lemma tracks_lasted T n rise h : tracks T T n rise h -> _state h = lasted T n rise.
Proof.
  intros []. destruct rise as [t|]; [|by apply tracks_low0]. cbn. destruct (_state h) eqn:E.
  - specialize (tracks_high0 t eq_refl eq_refl). lia.
  - destruct (tracks_wait0 t eq_refl eq_refl). lia.
Qed.

Lemma holds_sample T last now v since h :
  holds T last since h -> _time_from_false_us h = T -> last <= now < 2 ^ 64 ->
  let h' := set_state_and_update v now h in
  holds T now (raised since v now) h' /\ _state h' = lasted T now (raised since v now).
Proof.
  intros (n & Hn & Ht) HT Hb h'.
  pose proof (tracks_step T T n now _ v _ Ht ltac:(lia) ltac:(lia) ltac:(lia)) as Hs.
  split; [exists now; split; [lia | exact Hs] | exact (tracks_lasted _ _ _ _ Hs)].
Qed.

Lemma holds_set_time T last since h T' : holds T last since h -> holds T last since (set_hysteresis_time_from false T' h).
Proof. intros (n & Hn & Ht). exists n. split; [done | by apply tracks_set_time]. Qed.
