(* ===== verification/EsoVector.v ===== *)
(** The interface of the ESO controllers to the code outside the repository:
    the vectors, matrices and quaternions of PX4-Matrix and the constants of the
    ecl library (submodules whose sources are absent) and the trigonometric
    functions of the C library.  What the theorems rely on is the class
    [MatrixLaws]; [bench] is a concrete instance for the witnesses. *)

From Stdlib Require Import ZArith Lia SpecFloat.
From stdpp Require Import base list numbers.
From S2P Require Import Prelude Float32.


(** The data: an element is read with [operator()]. *)
Record vec2 := V2 { v0 : float; v1 : float }.
Record vec3 := V3 { vx : float; vy : float; vz : float }.
Record quat := Q { q0 : float; q1 : float; q2 : float; q3 : float }.
(** A matrix by its rows. *)
Record mat3 := M3 { row0 : vec3; row1 : vec3; row2 : vec3 }.

Definition fzero : float := f_of_Z 0.
Definition fone : float := f_of_Z 1.
Definition zero3 : vec3 := V3 fzero fzero fzero.
Definition zero_mat : mat3 := M3 zero3 zero3 zero3.

(** [v.xy()], and the assignment to it. *)
Definition xy (v : vec3) : vec2 := V2 (vx v) (vy v).
Definition set_xy (w : vec2) (v : vec3) : vec3 := V3 (v0 w) (v1 w) (vz v).
Definition set_z (z : float) (v : vec3) : vec3 := V3 (vx v) (vy v) z.

(** The loops [for (int i = 0; i < 3; i++)] that treat the elements alike. *)
Definition map3 (f : float -> float) (v : vec3) : vec3 := V3 (f (vx v)) (f (vy v)) (f (vz v)).
Definition map3_2 (f : float -> float -> float) (v w : vec3) : vec3 :=
  V3 (f (vx v) (vx w)) (f (vy v) (vy w)) (f (vz v) (vz w)).
Definition map3_3 (f : float -> float -> float -> float) (u v w : vec3) : vec3 :=
  V3 (f (vx u) (vx v) (vx w)) (f (vy u) (vy v) (vy w)) (f (vz u) (vz v) (vz w)).
Definition all3 (p : float -> bool) (v : vec3) : bool := p (vx v) && p (vy v) && p (vz v).

(** An axis, and the element on it. *)
Inductive axis := Ax | Ay | Az.
Definition get (a : axis) (v : vec3) : float := match a with Ax => vx v | Ay => vy v | Az => vz v end.

Lemma get_map3 a f v : get a (map3 f v) = f (get a v).
Proof. by destruct a. Qed.
Lemma get_map3_2 a f v w : get a (map3_2 f v w) = f (get a v) (get a w).
Proof. by destruct a. Qed.
Lemma get_map3_3 a f u v w : get a (map3_3 f u v w) = f (get a u) (get a v) (get a w).
Proof. by destruct a. Qed.
(** A vector given by element. *)
Definition vec_of (f : axis -> float) : vec3 := V3 (f Ax) (f Ay) (f Az).
Lemma get_vec_of a f : get a (vec_of f) = f a.
Proof. by destruct a. Qed.
Lemma all3_get p v : all3 p v = true <-> forall a, p (get a v) = true.
Proof.
  unfold all3. rewrite !andb_true_iff. split; [intros [[? ?] ?] []; done|].
  intros H. split_and!; [apply (H Ax) | apply (H Ay) | apply (H Az)].
Qed.
Lemma vec3_ext v w : (forall a, get a v = get a w) -> v = w.
Proof. intros H. destruct v, w. f_equal; [apply (H Ax) | apply (H Ay) | apply (H Az)]. Qed.

Class Matrix := {
  v2_add : vec2 -> vec2 -> vec2; v2_sub : vec2 -> vec2 -> vec2;
  v2_scale : vec2 -> float -> vec2; v2_div : vec2 -> float -> vec2;
  v2_dot : vec2 -> vec2 -> float; v2_norm : vec2 -> float; v2_normalized : vec2 -> vec2;
  v2_longerThan : vec2 -> float -> bool;
  v3_add : vec3 -> vec3 -> vec3; v3_sub : vec3 -> vec3 -> vec3; v3_neg : vec3 -> vec3;
  v3_emult : vec3 -> vec3 -> vec3; v3_scale : vec3 -> float -> vec3; v3_div : vec3 -> float -> vec3;
  v3_dot : vec3 -> vec3 -> float; v3_cross : vec3 -> vec3 -> vec3;
  v3_norm : vec3 -> float; v3_norm_squared : vec3 -> float; v3_normalized : vec3 -> vec3;
  mat_vec : mat3 -> vec3 -> vec3; mat_mul : mat3 -> mat3 -> mat3; transpose : mat3 -> mat3;
  mat_inverse : mat3 -> option mat3;
  Dcm : quat -> mat3; quat_of_Dcm : mat3 -> quat; euler_of_Dcm : mat3 -> vec3; euler_of_quat : quat -> vec3;
  quat_norm_squared : quat -> float; quat_normalized : quat -> quat; quat_scale : quat -> float -> quat;
  quat_mul : quat -> quat -> quat;
  acosf : float -> float; cosf : float -> float; sinf : float -> float;
  CONSTANTS_ONE_G : float
}.

Declare Scope vec_scope.
Delimit Scope vec_scope with vec.
Infix "+" := v3_add : vec_scope.
Infix "-" := v3_sub : vec_scope.
Infix "**" := v3_emult (at level 40, left associativity) : vec_scope.
Infix "*" := v3_scale : vec_scope.

Definition has_nan2 (v : vec2) : Prop := v0 v = NAN \/ v1 v = NAN.
Definition has_nan (v : vec3) : Prop := vx v = NAN \/ vy v = NAN \/ vz v = NAN.
Definition all_nan (v : vec3) : Prop := vx v = NAN /\ vy v = NAN /\ vz v = NAN.

(** The documented behaviour: sums, differences and element-wise products go by
    element; a norm, a normalised vector and the product of a matrix are sums and
    products of all elements of the vector, so that a NaN spreads to all of the
    result. *)
Class MatrixLaws `{Matrix} : Prop := {
  v2_add_law v w : v2_add v w = V2 (fadd (v0 v) (v0 w)) (fadd (v1 v) (v1 w));
  v2_sub_law v w : v2_sub v w = V2 (fsub (v0 v) (v0 w)) (fsub (v1 v) (v1 w));
  v2_scale_law v k : v2_scale v k = V2 (fmul (v0 v) k) (fmul (v1 v) k);
  v3_add_law v w : v3_add v w = map3_2 fadd v w;
  v3_sub_law v w : v3_sub v w = map3_2 fsub v w;
  v3_emult_law v w : v3_emult v w = map3_2 fmul v w;
  v3_scale_law v k : v3_scale v k = map3 (fun x => fmul x k) v;
  v2_norm_nan v : has_nan2 v -> v2_norm v = NAN;
  v2_norm_zero : v2_norm (V2 fzero fzero) = fzero;
  v2_normalized_nan v : has_nan2 v -> v2_normalized v = V2 NAN NAN;
  v2_dot_nan v w : has_nan2 v -> v2_dot v w = NAN;
  v3_norm_nan v : has_nan v -> v3_norm v = NAN;
  v3_normalized_nan v : has_nan v -> all_nan (v3_normalized v);
  mat_vec_nan m v : has_nan v -> all_nan (mat_vec m v)
}.
Create Rewrite HintDb vec.
#[export] Hint Rewrite @v2_add_law @v2_sub_law @v2_scale_law @v3_add_law @v3_sub_law @v3_emult_law @v3_scale_law
  using (exact _) : vec.
#[export] Hint Rewrite get_map3 get_map3_2 get_map3_3 get_vec_of : vec.

(** Reads an element of a vector expression, and carries a NaN through it. *)
Ltac vec_nan := autorewrite with vec; repeat first [progress autorewrite with nan | progress autorewrite with vec].

(** ** A concrete instance *)

Section Bench.
Definition bench_dot (v w : vec3) : float :=
  fadd (fadd (fmul (vx v) (vx w)) (fmul (vy v) (vy w))) (fmul (vz v) (vz w)).
Definition bench_dot2 (v w : vec2) : float := fadd (fmul (v0 v) (v0 w)) (fmul (v1 v) (v1 w)).
Definition bench_norm (v : vec3) : float := fsqrt (bench_dot v v).
Definition bench_norm2 (v : vec2) : float := fsqrt (bench_dot2 v v).
Definition bench_cross (a b : vec3) : vec3 :=
  V3 (fsub (fmul (vy a) (vz b)) (fmul (vz a) (vy b))) (fsub (fmul (vz a) (vx b)) (fmul (vx a) (vz b)))
     (fsub (fmul (vx a) (vy b)) (fmul (vy a) (vx b))).
Definition bench_mat_vec (m : mat3) (v : vec3) : vec3 :=
  V3 (bench_dot (row0 m) v) (bench_dot (row1 m) v) (bench_dot (row2 m) v).
Definition bench_transpose (m : mat3) : mat3 :=
  M3 (V3 (vx (row0 m)) (vx (row1 m)) (vx (row2 m))) (V3 (vy (row0 m)) (vy (row1 m)) (vy (row2 m)))
     (V3 (vz (row0 m)) (vz (row1 m)) (vz (row2 m))).
Definition bench_unit : mat3 := M3 (V3 fone fzero fzero) (V3 fzero fone fzero) (V3 fzero fzero fone).

(** Rotations are the identity and the trigonometric functions those of the
    angle zero: the witnesses fly level.  The Euler angles of a quaternion are
    those of a small rotation. *)
#[export] Instance bench : Matrix := {|
  v2_add v w := V2 (fadd (v0 v) (v0 w)) (fadd (v1 v) (v1 w));
  v2_sub v w := V2 (fsub (v0 v) (v0 w)) (fsub (v1 v) (v1 w));
  v2_scale v k := V2 (fmul (v0 v) k) (fmul (v1 v) k);
  v2_div v k := V2 (fdiv (v0 v) k) (fdiv (v1 v) k);
  v2_dot := bench_dot2; v2_norm := bench_norm2;
  v2_longerThan v x := fltb (fmul x x) (bench_dot2 v v);
  v2_normalized v := let n := bench_norm2 v in V2 (fdiv (v0 v) n) (fdiv (v1 v) n);
  v3_add := map3_2 fadd; v3_sub := map3_2 fsub; v3_neg := map3 fneg; v3_emult := map3_2 fmul;
  v3_scale v k := map3 (fun x => fmul x k) v; v3_div v k := map3 (fun x => fdiv x k) v;
  v3_dot := bench_dot; v3_cross := bench_cross; v3_norm := bench_norm; v3_norm_squared v := bench_dot v v;
  v3_normalized v := let n := bench_norm v in map3 (fun x => fdiv x n) v;
  mat_vec := bench_mat_vec; transpose := bench_transpose;
  mat_mul a b := bench_transpose (M3 (bench_mat_vec a (row0 (bench_transpose b)))
                                     (bench_mat_vec a (row1 (bench_transpose b)))
                                     (bench_mat_vec a (row2 (bench_transpose b))));
  mat_inverse m := None;
  Dcm q := bench_unit; quat_of_Dcm m := Q fone fzero fzero fzero; euler_of_Dcm m := zero3;
  euler_of_quat q := V3 (fmul (f_of_Z 2) (q1 q)) (fmul (f_of_Z 2) (q2 q)) (fmul (f_of_Z 2) (q3 q));
  quat_norm_squared q := fone; quat_normalized q := q; quat_scale q k := q; quat_mul q r := r;
  acosf x := fzero; cosf x := fone; sinf x := fzero;
  CONSTANTS_ONE_G := f_dec 980665 100000
|}.

Ltac nan_cases :=
  repeat match goal with H : _ \/ _ |- _ => destruct H as [H|H] end;
  repeat match goal with H : _ = NAN |- _ => rewrite H end.

Lemma bench_dot_nan v w : has_nan v \/ has_nan w -> bench_dot v w = NAN.
Proof.
  unfold bench_dot, has_nan. intros [H|H]; nan_cases; autorewrite with nan; try done.
Qed.

Lemma bench_dot2_nan v w : has_nan2 v -> bench_dot2 v w = NAN.
Proof. unfold bench_dot2, has_nan2. intros H. nan_cases; by autorewrite with nan. Qed.

#[export] Instance bench_laws : @MatrixLaws bench.
Proof.
  split; try done; intros; cbn; unfold bench_norm, bench_norm2, all_nan, bench_mat_vec; cbn;
    rewrite ?bench_dot_nan, ?bench_dot2_nan by auto; cbn [fsqrt SFsqrt NAN]; rewrite ?fdiv_nan_r; try done.
Qed.
End Bench.
