(* ===== verification/EsoTakeoff.v ===== *)
(** The take-off of the position controller (src/modules/eso_pos_control,
    ESOTakeoff/Takeoff.cpp): the state machine from disarmed to flight and the
    ramp of the climb rate. *)

From Stdlib Require Import ZArith Lia.
From stdpp Require Import base list numbers.
From S2P Require Import Prelude Float32 Hysteresis.

Local Open Scope Z_scope.

(** * ESOTakeoff *)

Inductive ESOTakeoffState := disarmed | spoolup | ready_for_takeoff | rampup | flight.
#[export] Instance ESOTakeoffState_eq_dec : EqDecision ESOTakeoffState.
Proof. solve_decision. Defined.

(** The values of takeoff_status.msg, by which the states are compared. *)
Definition state_value (s : ESOTakeoffState) : Z :=
  match s with disarmed => 1 | spoolup => 2 | ready_for_takeoff => 3 | rampup => 4 | flight => 5 end.

Record takeoff := Takeoff {
  _takeoff_state : ESOTakeoffState;
  _spoolup_time_hysteresis : hysteresis;
  _takeoff_ramp_time : float;
  _takeoff_ramp_vz_init : float;
  _takeoff_ramp_progress : float
}.

Definition takeoff_new : takeoff :=
  Takeoff disarmed (hysteresis_new false) (f_of_Z 0) (f_of_Z 0) (f_of_Z 0).

(** [seconds * 1_s], converted to [hrt_abstime] *)
Definition setSpoolupTime (seconds : float) (t : takeoff) : takeoff :=
  Takeoff (_takeoff_state t)
    (set_hysteresis_time_from false (u64 (f_trunc (fmul seconds (f_of_Z 1000000)))) (_spoolup_time_hysteresis t))
    (_takeoff_ramp_time t) (_takeoff_ramp_vz_init t) (_takeoff_ramp_progress t).

Definition setTakeoffRampTime (seconds : float) (t : takeoff) : takeoff :=
  Takeoff (_takeoff_state t) (_spoolup_time_hysteresis t) seconds (_takeoff_ramp_vz_init t) (_takeoff_ramp_progress t).

(** [ONE_G] is CONSTANTS_ONE_G of the ecl library. *)
Definition generateInitialRampValue (ONE_G : float) (velocity_p_gain : float) (t : takeoff) : takeoff :=
  Takeoff (_takeoff_state t) (_spoolup_time_hysteresis t) (_takeoff_ramp_time t)
    (fdiv (fneg ONE_G) (fmax velocity_p_gain (f_dec 1 100))) (_takeoff_ramp_progress t).

(** The switch of updateTakeoffState: each case either breaks or falls through
    to the next. *)
Definition from_flight (landed : bool) (sp : ESOTakeoffState * float) : ESOTakeoffState * float :=
  if landed then (ready_for_takeoff, sp.2) else sp.

Definition from_rampup (landed : bool) (sp : ESOTakeoffState * float) : ESOTakeoffState * float :=
  if fleb (f_of_Z 1) sp.2 then from_flight landed (flight, sp.2) else sp.

Definition from_ready (want_takeoff landed : bool) (sp : ESOTakeoffState * float) : ESOTakeoffState * float :=
  if want_takeoff then from_rampup landed (rampup, f_of_Z 0) else sp.

Definition from_spoolup (spooled want_takeoff landed : bool) (sp : ESOTakeoffState * float) : ESOTakeoffState * float :=
  if spooled then from_ready want_takeoff landed (ready_for_takeoff, sp.2) else sp.

Definition from_disarmed (armed spooled want_takeoff landed : bool) (sp : ESOTakeoffState * float) :=
  if armed then from_spoolup spooled want_takeoff landed (spoolup, sp.2) else sp.

Definition takeoff_switch (armed spooled want_takeoff landed : bool) (sp : ESOTakeoffState * float) :=
  match sp.1 with
  | disarmed => from_disarmed armed spooled want_takeoff landed sp
  | spoolup => from_spoolup spooled want_takeoff landed sp
  | ready_for_takeoff => from_ready want_takeoff landed sp
  | rampup => from_rampup landed sp
  | flight => from_flight landed sp
  end.

Definition updateTakeoffState (armed landed want_takeoff : bool) (takeoff_desired_vz : float) (skip_takeoff : bool)
    (now_us : Z) (t : takeoff) : takeoff :=
  let h := set_state_and_update armed now_us (_spoolup_time_hysteresis t) in
  let '(s, progress) :=
    takeoff_switch armed (_state h) want_takeoff landed (_takeoff_state t, _takeoff_ramp_progress t) in
  let s := if armed && skip_takeoff then flight else s in
  let s := if negb armed then disarmed else s in
  Takeoff s h (_takeoff_ramp_time t) (_takeoff_ramp_vz_init t) progress.

Definition updateRamp (dt takeoff_desired_vz : float) (t : takeoff) : float * takeoff :=
  if decide (_takeoff_state t = rampup) then
    let progress := if fltb dt (_takeoff_ramp_time t)
                    then fadd (_takeoff_ramp_progress t) (fdiv dt (_takeoff_ramp_time t)) else f_of_Z 1 in
    let limit := if fltb progress (f_of_Z 1)
                 then fadd (_takeoff_ramp_vz_init t)
                        (fmul progress (fsub takeoff_desired_vz (_takeoff_ramp_vz_init t)))
                 else takeoff_desired_vz in
    (limit, Takeoff (_takeoff_state t) (_spoolup_time_hysteresis t) (_takeoff_ramp_time t) (_takeoff_ramp_vz_init t) progress)
  else (if state_value (_takeoff_state t) <? state_value rampup then _takeoff_ramp_vz_init t else takeoff_desired_vz, t).

(** * Histories *)

Inductive takeoff_event :=
| Update (armed landed want_takeoff : bool) (takeoff_desired_vz : float) (skip_takeoff : bool) (now_us : Z)
| Ramp (dt takeoff_desired_vz : float)
| RampTime (seconds : float)
| RampInit (ONE_G velocity_p_gain : float).

Definition takeoff_step (t : takeoff) (e : takeoff_event) : takeoff :=
  match e with
  | Update armed landed want_takeoff vz skip now_us => updateTakeoffState armed landed want_takeoff vz skip now_us t
  | Ramp dt vz => (updateRamp dt vz t).2
  | RampTime seconds => setTakeoffRampTime seconds t
  | RampInit g p => generateInitialRampValue g p t
  end.

Definition takeoff_run (l : list takeoff_event) (t : takeoff) : takeoff := fold_left takeoff_step l t.

(** What an observer of the inputs knows: since when the vehicle has been armed
    without interruption, and whether a take-off was wanted and the sequence
    skipped since then; and the time of the last update. *)
Record armed_period := Armed_period { since : Z; asked : bool; skipped : bool }.
Definition observation : Type := option armed_period * Z.

Definition observe (o : observation) (e : takeoff_event) : observation :=
  match e with
  | Update true _ want _ skip now =>
      (Some match o.1 with
            | None => Armed_period now want skip
            | Some p => Armed_period (since p) (asked p || want) (skipped p || skip)
            end, now)
  | Update false _ _ _ _ now => (None, now)
  | _ => o
  end.

Definition observed (l : list takeoff_event) : observation := fold_left observe l (None, 0).

(** The updates come in the order of their time stamps. *)
Definition in_order (e : takeoff_event) (last : Z) : Prop :=
  match e with Update _ _ _ _ _ now => last <= now < 2 ^ 64 | _ => True end.

Fixpoint ordered (l : list takeoff_event) (o : observation) : Prop :=
  match l with
  | [] => True
  | e :: l => in_order e o.2 /\ ordered l (observe o e)
  end.

(** The abstract reading of a state of the machine. *)
Section Invariant.
Context (spoolup_time : Z).

Definition spooled (o : observation) (p : armed_period) : Prop := spoolup_time <= o.2 - since p.

Definition hysteresis_ok (o : observation) (h : hysteresis) : Prop :=
  _time_from_false_us h = spoolup_time /\ tracks spoolup_time spoolup_time o.2 (since <$> o.1) h.

Definition takeoff_ok (o : observation) (t : takeoff) : Prop :=
  hysteresis_ok o (_spoolup_time_hysteresis t)
  /\ match o.1 with
     | None => _takeoff_state t = disarmed
     | Some p =>
         _takeoff_state t <> disarmed
         /\ (skipped p = false ->
             (_takeoff_state t = spoolup <-> ~ spooled o p)
             /\ (state_value rampup <= state_value (_takeoff_state t) -> asked p = true)
             /\ (_takeoff_state t = flight -> fleb (f_of_Z 1) (_takeoff_ramp_progress t) = true))
     end.

Lemma hysteresis_step o h armed now e :
  (exists landed want vz skip, e = Update armed landed want vz skip now) ->
  hysteresis_ok o h -> 0 <= o.2 -> o.2 <= now < 2 ^ 64 ->
  hysteresis_ok (observe o e) (set_state_and_update armed now h).
Proof.
  intros (landed & want & vz & skip & ->) [Hf H] Ho Hn. unfold hysteresis_ok. destruct (hysteresis_times armed now h) as [_ ->].
  split; [done|]. pose proof (tracks_step _ _ _ now _ armed _ H ltac:(lia) ltac:(lia) ltac:(lia)) as H'.
  destruct o as [[p|] old], armed; exact H'.
Qed.

Lemma hysteresis_ok_spooled o p h : hysteresis_ok o h -> o.1 = Some p -> (_state h = true <-> spooled o p).
Proof.
  intros [_ H] Ho. rewrite Ho in H. pose proof (tracks_high _ _ _ _ _ H _ eq_refl) as H1.
  pose proof (tracks_wait _ _ _ _ _ H _ eq_refl) as H2. unfold spooled.
  destruct (_state h); split; intros; try done; [by apply H1 | destruct (H2 eq_refl); lia].
Qed.

(** The switch of an armed vehicle, with [b] the hysteresis. *)
Lemma switch_armed b want landed s g :
  let '(s', g') := takeoff_switch true b want landed (s, g) in
  s' <> disarmed
  /\ (s = disarmed \/ s = spoolup -> (s' = spoolup <-> b = false))
  /\ (s <> disarmed -> s <> spoolup -> s' <> spoolup)
  /\ (state_value rampup <= state_value s' -> want = true \/ state_value rampup <= state_value s)
  /\ (s' = flight -> (s = flight -> fleb (f_of_Z 1) g = true) -> fleb (f_of_Z 1) g' = true).
Proof.
  unfold takeoff_switch. destruct s, b, want, landed; cbn -[fleb f_of_Z];
    unfold from_rampup, from_flight; cbn -[fleb f_of_Z];
    try destruct (fleb (f_of_Z 1) g) eqn:E; cbn -[fleb f_of_Z];
    split_and!; intros; try done; try lia; try tauto; try (by destruct_or?); try (split; done).
Qed.

Lemma takeoff_ok_step o t e :
  takeoff_ok o t -> 0 <= o.2 -> in_order e o.2 -> 0 <= spoolup_time -> takeoff_ok (observe o e) (takeoff_step t e).
Proof.
  intros [Hh Ht] Ho He Hs. destruct e as [armed landed want vz skip now|dt vz|seconds|g p]; cbn [observe takeoff_step].
  - pose proof (hysteresis_step o _ armed now (Update armed landed want vz skip now)
      ltac:(by eexists _, _, _, _) Hh Ho He) as Hh'.
    split; [unfold updateTakeoffState; by destruct (takeoff_switch _ _ _ _ _)|].
    destruct armed; cbn [observe fst]; unfold updateTakeoffState;
      [|by destruct (takeoff_switch _ _ _ _ _)].
    set (b := _state (set_state_and_update true now (_spoolup_time_hysteresis t))) in *.
    pose proof (switch_armed b want landed (_takeoff_state t) (_takeoff_ramp_progress t)) as Hsw.
    destruct (takeoff_switch true b want landed _) as [s' g']. destruct Hsw as (H1 & H2 & H3 & H4 & H5).
    pose proof (hysteresis_ok_spooled _ _ _ Hh' eq_refl) as Hb. fold b in Hb. clear Hh'. cbn [observe fst snd] in Hb.
    cbn [andb negb _takeoff_state _takeoff_ramp_progress].
    split; [by destruct skip|]. intros Hsk. destruct o as [[p|] old]; cbn [fst snd] in *.
    + cbn [skipped since asked] in *. apply orb_false_iff in Hsk as [Hsk ->]. destruct Ht as (Hd & Ht).
      destruct (Ht Hsk) as (Ha & Hr & Hf). split_and!.
      * destruct (decide (_takeoff_state t = spoolup)) as [Es|Es].
        -- rewrite H2 by auto. destruct b; [|split; [intros _ Hc; by apply Hb in Hc | done]].
           split; [done|]. intros Hc. destruct Hc. by apply Hb.
        -- split; [intros; by exfalso; apply H3|]. intros Hc. exfalso. apply Es, Ha. unfold spooled in *. cbn in *. lia.
      * intros Hs'. apply orb_true_iff. destruct (H4 Hs') as [->|H]; [by right | left; by apply Hr].
      * intros Hf'. by apply H5.
    + cbn [skipped since asked] in *. subst skip. split_and!.
      * rewrite H2 by auto. destruct b; [|split; [intros _ Hc; by apply Hb in Hc | done]].
        split; [done|]. intros Hc. destruct Hc. by apply Hb.
      * intros Hs'. destruct (H4 Hs') as [->|H]; [done|]. by rewrite Ht in H.
      * intros Hf'. apply H5; [done|]. by rewrite Ht.
  - unfold updateRamp. case_decide; [|done]. cbn [snd]. split; [done|]. cbn [_takeoff_state].
    destruct o as [[p|] old]; [|done]. destruct Ht as [Hd Ht]. split; [done|]. intros Hsk.
    destruct (Ht Hsk) as (? & ? & ?). split_and!; [done | done | intros; congruence].
  - split; done.
  - split; done.
Qed.

Lemma takeoff_ok_run l : forall o t,
  takeoff_ok o t -> 0 <= o.2 -> ordered l o -> 0 <= spoolup_time -> takeoff_ok (fold_left observe l o) (takeoff_run l t).
Proof.
  induction l as [|e l IH]; intros o t Ht Ho Hl Hs; [done|]. destruct Hl as [He Hl].
  apply IH; [by apply takeoff_ok_step | | done | done].
  destruct e as [[] ? ? ? ? ?|?|?|?]; cbn in *; lia.
Qed.
End Invariant.

(** C18: the take-off sequence is exact.  In every history of updates with
    increasing time stamps, ramp steps and parameter changes, the machine is
    disarmed exactly while the vehicle is; and in an armed period that does not
    skip the sequence it spools up for exactly the spool-up time counted from the
    moment of arming (a disarming in between starts it again), leaves the ground
    only when a take-off was asked for in this period, and is in flight only with
    the ramp completed. *)
Theorem takeoff_exact (seconds : float) (l : list takeoff_event) :
  let t0 := setSpoolupTime seconds takeoff_new in
  let T := _time_from_false_us (_spoolup_time_hysteresis t0) in
  let t := takeoff_run l t0 in
  ordered l (None, 0) ->
  match observed l with
  | (None, _) => _takeoff_state t = disarmed
  | (Some p, now) =>
      _takeoff_state t <> disarmed
      /\ (skipped p = false ->
          (_takeoff_state t = spoolup <-> now - since p < T)
          /\ (state_value rampup <= state_value (_takeoff_state t) -> asked p = true)
          /\ (_takeoff_state t = flight -> fleb (f_of_Z 1) (_takeoff_ramp_progress t) = true))
  end.
Proof.
  intros t0 T t Hl.
  assert (0 <= T) as HT by apply Z.mod_pos_bound, eq_refl.
  pose proof (takeoff_ok_run T l (None, 0) t0 ltac:(done) ltac:(done) Hl HT) as [_ H].
  fold t in H. change (fold_left observe l (None, 0)) with (observed l) in H.
  destruct (observed l) as [[p|] now]; cbn [fst] in H; [|done]. destruct H as [H1 H2]. split; [done|]. intros Hs.
  destruct (H2 Hs) as (H3 & H4 & H5). split_and!; try done. rewrite H3. unfold spooled. cbn. lia.
Qed.

(** Armed at 1 s with a spool-up time of one second, ramp of 3 s in steps of
    1 s: in flight at 4 s. *)
Definition takeoff_history : list takeoff_event :=
  let z := f_of_Z 0 in let one := f_of_Z 1 in
  [Update true true false z false 1000000; RampTime (f_of_Z 2); Update true true true z false 1500000;
   Update true true true z false 2000000; Ramp one z; Update true false true z false 3000000; Ramp one z;
   Update true false true z false 4000000].

Lemma takeoff_exact_witness :
  _takeoff_state (takeoff_run takeoff_history (setSpoolupTime (f_of_Z 1) takeoff_new)) = flight
  /\ fleb (f_of_Z 1) (_takeoff_ramp_progress (takeoff_run takeoff_history (setSpoolupTime (f_of_Z 1) takeoff_new))) = true.
Proof.
  assert (H : ordered takeoff_history (None, 0)) by (vm_compute; intuition congruence).
  pose proof (takeoff_exact (f_of_Z 1) takeoff_history H) as Ht.
  split; [vm_compute; reflexivity|]. apply (proj2 Ht); vm_compute; reflexivity.
Defined.
