(* ===== verification/EsoPosition.v ===== *)
(** The position controller of the fork, src/modules/eso_pos_control
    (ESOPositionControl: ControlMath.cpp, PositionESO.cpp, PositionControl.cpp):
    a cascade from position over velocity to acceleration and thrust, with an
    extended state observer that estimates the disturbance. *)

From Stdlib Require Import ZArith Lia.
From stdpp Require Import base list numbers.
From S2P Require Import Prelude Float32 EsoVector.

Local Open Scope Z_scope.

Section Position.
Context `{M : Matrix}.
Local Open Scope vec_scope.

(** * ControlMath *)

Definition constrainXY (a b : vec2) (max : float) : vec2 :=
  if fleb (v2_norm (v2_add a b)) max then v2_add a b
  else if fleb max (v2_norm a) then v2_scale (v2_normalized a) max
  else if fltb (fabs (v2_norm (v2_sub b a))) (f_dec 1 1000) then v2_scale (v2_normalized a) max
  else if fltb (v2_norm a) (f_dec 1 1000) then v2_scale (v2_normalized b) max
  else
    let u1 := v2_normalized b in
    let m := v2_dot u1 a in
    let c := fsub (v2_dot a a) (fmul max max) in
    let s := fadd (fneg m) (fsqrt (fsub (fmul m m) c)) in
    v2_add a (v2_scale u1 s).

Definition limitTilt (body_unit world_unit : vec3) (max_angle : float) : vec3 :=
  let dot_product_unit := v3_dot body_unit world_unit in
  let angle := fmin (acosf dot_product_unit) max_angle in
  let rejection := body_unit - world_unit * dot_product_unit in
  let rejection := if fltb (v3_norm_squared rejection) FLT_EPSILON
                   then V3 fone (vy rejection) (vz rejection) else rejection in
  world_unit * cosf angle + v3_normalized rejection * sinf angle.

Definition addIfNotNan (setpoint addition : float) : float :=
  if isfinite setpoint && isfinite addition then fadd setpoint addition
  else if negb (isfinite setpoint) then addition
  else setpoint.

Definition addIfNotNanVector3f (setpoint addition : vec3) : vec3 := map3_2 addIfNotNan setpoint addition.
Definition setZeroIfNanVector3f (vector : vec3) : vec3 := addIfNotNanVector3f vector zero3.

(** The attitude setpoint message. *)
Record attitude_setpoint := Attitude_setpoint {
  q_d : quat; euler_body : vec3; thrust_body_z : float; yaw_sp_move_rate : float
}.

Definition bodyzToAttitude (body_z : vec3) (yaw_sp : float) : quat * vec3 :=
  let body_z := if fltb (v3_norm_squared body_z) FLT_EPSILON then set_z fone body_z else body_z in
  let body_z := v3_normalized body_z in
  let y_C := V3 (fneg (sinf yaw_sp)) (cosf yaw_sp) fzero in
  let body_x := v3_cross y_C body_z in
  let body_x := if fltb (vz body_z) fzero then v3_neg body_x else body_x in
  let body_x := if fltb (fabs (vz body_z)) (f_dec 1 1000000) then V3 fzero fzero fone else body_x in
  let body_x := v3_normalized body_x in
  let body_y := v3_cross body_z body_x in
  let R_sp := M3 (V3 (vx body_x) (vx body_y) (vx body_z)) (V3 (vy body_x) (vy body_y) (vy body_z))
                 (V3 (vz body_x) (vz body_y) (vz body_z)) in
  (quat_of_Dcm R_sp, euler_of_Dcm R_sp).

Definition thrustToAttitude (thr_sp : vec3) (yaw_sp : float) (att : attitude_setpoint) : attitude_setpoint :=
  let '(q, e) := bodyzToAttitude (v3_neg thr_sp) yaw_sp in
  Attitude_setpoint q e (fneg (v3_norm thr_sp)) (yaw_sp_move_rate att).

(** * PositionESO *)

Record position_eso := Position_eso {
  _bw : vec3; _beta1 : vec3; _beta2 : vec3; _beta3 : vec3;
  _z1 : vec3; _z2 : vec3; _z3 : vec3
}.

Definition setBandwidth (bw : vec3) (e : position_eso) : position_eso :=
  Position_eso bw (bw * f_of_Z 3) (bw ** bw * f_of_Z 3) (bw ** bw ** bw) (_z1 e) (_z2 e) (_z3 e).

Definition eso_reset (e : position_eso) : position_eso :=
  Position_eso (_bw e) (_beta1 e) (_beta2 e) (_beta3 e) zero3 zero3 zero3.

Definition eso_reset_at (pos_meas vel_meas : vec3) (e : position_eso) : position_eso :=
  Position_eso (_bw e) (_beta1 e) (_beta2 e) (_beta3 e) pos_meas vel_meas zero3.

Definition position_eso_new : position_eso :=
  setBandwidth (V3 (f_of_Z 8) (f_of_Z 8) (f_of_Z 4))
    (eso_reset (Position_eso zero3 zero3 zero3 zero3 zero3 zero3 zero3)).

(** The new state; its [_z3] is the returned disturbance. *)
Definition eso_update (pos_meas u_control : vec3) (dt : float) (e : position_eso) : position_eso :=
  let err := pos_meas - _z1 e in
  let z1_dot := _z2 e + _beta1 e ** err in
  let z2_dot := _z3 e + u_control + _beta2 e ** err in
  let z3_dot := _beta3 e ** err in
  Position_eso (_bw e) (_beta1 e) (_beta2 e) (_beta3 e)
    (_z1 e + z1_dot * dt) (_z2 e + z2_dot * dt) (_z3 e + z3_dot * dt).

(** * ESOPositionControl *)

Record pc_gains := Pc_gains {
  _gain_pos_p : vec3; _gain_pos_i : vec3; _gain_vel_p : vec3; _gain_vel_i : vec3; _gain_vel_d : vec3
}.

Record pc_limits := Pc_limits {
  _lim_pos_int : float; _lim_vel_horizontal : float; _lim_vel_up : float; _lim_vel_down : float;
  _lim_thr_min : float; _lim_thr_max : float; _lim_thr_xy_margin : float; _lim_tilt : float
}.

Record pc_model := Pc_model { _hover_thrust : float; _sys_com_pos : vec3; _dyn_ff_enabled : bool }.

(** What is measured. *)
Record pc_states := Pc_states {
  _pos : vec3; _vel : vec3; _vel_dot : vec3; _yaw : float; _body_rate : vec3; _attitude : quat
}.

(** The integrals and the observer. *)
Record pc_observer := Pc_observer {
  _vel_int : vec3; _pos_int : vec3;
  _eso : position_eso; _eso_disturbance : vec3;
  _eso_update_enabled : bool; _eso_update_enabled_prev : bool;
  _acc_cmd_prev : vec3; _eso_input : vec3
}.

Record pc_setpoints := Pc_setpoints {
  _pos_sp : vec3; _vel_sp : vec3; _acc_sp : vec3; _thr_sp : vec3; _yaw_sp : float; _yawspeed_sp : float
}.

Record pos_control := Pos_control {
  gains : pc_gains; lims : pc_limits; model : pc_model; meas : pc_states; obs : pc_observer; sps : pc_setpoints
}.

Definition on_gains f (s : pos_control) : pos_control := Pos_control (f (gains s)) (lims s) (model s) (meas s) (obs s) (sps s).
Definition on_lims f (s : pos_control) : pos_control := Pos_control (gains s) (f (lims s)) (model s) (meas s) (obs s) (sps s).
Definition on_model f (s : pos_control) : pos_control := Pos_control (gains s) (lims s) (f (model s)) (meas s) (obs s) (sps s).
Definition on_meas f (s : pos_control) : pos_control := Pos_control (gains s) (lims s) (model s) (f (meas s)) (obs s) (sps s).
Definition on_obs f (s : pos_control) : pos_control := Pos_control (gains s) (lims s) (model s) (meas s) (f (obs s)) (sps s).
Definition on_sps f (s : pos_control) : pos_control := Pos_control (gains s) (lims s) (model s) (meas s) (obs s) (f (sps s)).

(** The members as the class initialises them; the members without an
    initialiser are zero vectors by the constructor of the vector. *)
Definition pos_control_new : pos_control :=
  Pos_control (Pc_gains zero3 zero3 zero3 zero3 zero3)
    (Pc_limits fzero fzero fzero fzero fzero fzero fzero fzero) (Pc_model fzero zero3 false)
    (Pc_states zero3 zero3 zero3 fzero zero3 (Q fone fzero fzero fzero))
    (Pc_observer zero3 zero3 position_eso_new zero3 true true zero3 zero3)
    (Pc_setpoints zero3 zero3 zero3 zero3 fzero fzero).

(** ** Setters *)

Definition setPositionGains (P I : vec3) : pos_control -> pos_control :=
  on_gains (fun g => Pc_gains P I (_gain_vel_p g) (_gain_vel_i g) (_gain_vel_d g)).
Definition setVelocityGains (P I D : vec3) : pos_control -> pos_control :=
  on_gains (fun g => Pc_gains (_gain_pos_p g) (_gain_pos_i g) P I D).
Definition setPositionIntegralLimit (limit : float) : pos_control -> pos_control :=
  on_lims (fun l => Pc_limits limit (_lim_vel_horizontal l) (_lim_vel_up l) (_lim_vel_down l) (_lim_thr_min l)
                     (_lim_thr_max l) (_lim_thr_xy_margin l) (_lim_tilt l)).
Definition setVelocityLimits (vel_horizontal vel_up vel_down : float) : pos_control -> pos_control :=
  on_lims (fun l => Pc_limits (_lim_pos_int l) vel_horizontal vel_up vel_down (_lim_thr_min l)
                     (_lim_thr_max l) (_lim_thr_xy_margin l) (_lim_tilt l)).
(** [10e-4f] *)
Definition setThrustLimits (min max : float) : pos_control -> pos_control :=
  on_lims (fun l => Pc_limits (_lim_pos_int l) (_lim_vel_horizontal l) (_lim_vel_up l) (_lim_vel_down l)
                     (fmax min (f_dec 1 1000)) max (_lim_thr_xy_margin l) (_lim_tilt l)).
Definition setHorizontalThrustMargin (margin : float) : pos_control -> pos_control :=
  on_lims (fun l => Pc_limits (_lim_pos_int l) (_lim_vel_horizontal l) (_lim_vel_up l) (_lim_vel_down l)
                     (_lim_thr_min l) (_lim_thr_max l) margin (_lim_tilt l)).
Definition setTiltLimit (tilt : float) : pos_control -> pos_control :=
  on_lims (fun l => Pc_limits (_lim_pos_int l) (_lim_vel_horizontal l) (_lim_vel_up l) (_lim_vel_down l)
                     (_lim_thr_min l) (_lim_thr_max l) (_lim_thr_xy_margin l) tilt).
Definition setHoverThrust (hover_thrust : float) : pos_control -> pos_control :=
  on_model (fun m => Pc_model (fconstrain hover_thrust (f_dec 1 10) (f_dec 9 10)) (_sys_com_pos m) (_dyn_ff_enabled m)).
Definition setSystemCoM (com : vec3) : pos_control -> pos_control :=
  on_model (fun m => Pc_model (_hover_thrust m) com (_dyn_ff_enabled m)).
Definition setDynamicsFeedforwardEnabled (enabled : bool) : pos_control -> pos_control :=
  on_model (fun m => Pc_model (_hover_thrust m) (_sys_com_pos m) enabled).
Definition setBodyRate (rate : vec3) : pos_control -> pos_control :=
  on_meas (fun m => Pc_states (_pos m) (_vel m) (_vel_dot m) (_yaw m) rate (_attitude m)).
Definition setAttitude (att : quat) : pos_control -> pos_control :=
  on_meas (fun m => Pc_states (_pos m) (_vel m) (_vel_dot m) (_yaw m) (_body_rate m) att).
Definition on_eso f : pos_control -> pos_control :=
  on_obs (fun o => Pc_observer (_vel_int o) (_pos_int o) (f (_eso o)) (_eso_disturbance o) (_eso_update_enabled o)
                     (_eso_update_enabled_prev o) (_acc_cmd_prev o) (_eso_input o)).
Definition setESOBandwidth (bw : vec3) : pos_control -> pos_control := on_eso (setBandwidth bw).
Definition setESOUpdateEnabled (enabled : bool) : pos_control -> pos_control :=
  on_obs (fun o => Pc_observer (_vel_int o) (_pos_int o) (_eso o) (_eso_disturbance o) enabled
                     (_eso_update_enabled_prev o) (_acc_cmd_prev o) (_eso_input o)).

(** PositionControlStates *)
Record control_states := Control_states { position : vec3; velocity : vec3; acceleration : vec3; yaw : float }.
Definition setState (states : control_states) : pos_control -> pos_control :=
  on_meas (fun m => Pc_states (position states) (velocity states) (acceleration states) (yaw states)
                     (_body_rate m) (_attitude m)).

(** vehicle_local_position_setpoint_s *)
Record position_setpoint := Position_setpoint {
  sp_pos : vec3; sp_yaw : float; sp_yawspeed : float; sp_vel : vec3; sp_acc : vec3; sp_thrust : vec3
}.
Definition setInputSetpoint (setpoint : position_setpoint) : pos_control -> pos_control :=
  on_sps (fun p => Pc_setpoints (sp_pos setpoint) (sp_vel setpoint) (sp_acc setpoint) (_thr_sp p)
                    (sp_yaw setpoint) (sp_yawspeed setpoint)).

Definition updateHoverThrust (hover_thrust_new : float) (s : pos_control) : pos_control :=
  if fltb FLT_EPSILON hover_thrust_new then
    let acc_z := vz (_acc_sp (sps s)) in
    let delta := fsub (fadd (fdiv (fmul (fsub acc_z CONSTANTS_ONE_G) (_hover_thrust (model s))) hover_thrust_new)
                            CONSTANTS_ONE_G) acc_z in
    setHoverThrust hover_thrust_new
      (on_obs (fun o => Pc_observer (set_z (fadd (vz (_vel_int o)) delta) (_vel_int o)) (_pos_int o) (_eso o)
                          (_eso_disturbance o) (_eso_update_enabled o) (_eso_update_enabled_prev o)
                          (_acc_cmd_prev o) (_eso_input o)) s)
  else s.

Definition resetIntegral : pos_control -> pos_control :=
  on_obs (fun o => Pc_observer zero3 zero3 (eso_reset (_eso o)) (_eso_disturbance o) (_eso_update_enabled o)
                     false zero3 zero3).

(** ** The control law *)

Definition fconstrain_to (lim x : float) : float := fconstrain x (fneg lim) lim.

(** The anti-windup gain of an axis. *)
Definition arw (gain : float) : float := if fltb FLT_EPSILON gain then fdiv (f_of_Z 2) gain else fzero.

Definition _positionControl (dt : float) (s : pos_control) : pos_control :=
  let g := gains s in let l := lims s in let o := obs s in let p := sps s in
  let pos_err := _pos_sp p - _pos (meas s) in
  let vel_sp_p := pos_err ** _gain_pos_p g in
  let vel_sp_unc := addIfNotNanVector3f (vel_sp_p + _pos_int o ** _gain_pos_i g) (_vel_sp p) in
  let limited := setZeroIfNanVector3f vel_sp_unc in
  let limited := set_xy (constrainXY (xy limited) (xy (limited - vel_sp_p - _pos_int o ** _gain_pos_i g))
                           (_lim_vel_horizontal l)) limited in
  let limited := set_z (fconstrain (vz limited) (fneg (_lim_vel_up l)) (_lim_vel_down l)) limited in
  let saturation_diff := vel_sp_unc - limited in
  let pos_err_for_int := pos_err - saturation_diff ** map3 arw (_gain_pos_p g) in
  let pos_int := if all3 isfinite pos_err
                 then map3 (fconstrain_to (_lim_pos_int l)) (_pos_int o + pos_err_for_int * dt)
                 else _pos_int o in
  on_sps (fun p => Pc_setpoints (_pos_sp p) limited (_acc_sp p) (_thr_sp p) (_yaw_sp p) (_yawspeed_sp p))
    (on_obs (fun o => Pc_observer (_vel_int o) pos_int (_eso o) (_eso_disturbance o) (_eso_update_enabled o)
                        (_eso_update_enabled_prev o) (_acc_cmd_prev o) (_eso_input o)) s).

Definition set_acc_sp (a : vec3) : pos_control -> pos_control :=
  on_sps (fun p => Pc_setpoints (_pos_sp p) (_vel_sp p) a (_thr_sp p) (_yaw_sp p) (_yawspeed_sp p)).
Definition set_thr_sp (t : vec3) : pos_control -> pos_control :=
  on_sps (fun p => Pc_setpoints (_pos_sp p) (_vel_sp p) (_acc_sp p) t (_yaw_sp p) (_yawspeed_sp p)).

Definition _accelerationControl (s : pos_control) : pos_control :=
  let acc := _acc_sp (sps s) in
  let up := V3 fzero fzero fone in
  let body_z := v3_normalized (V3 (fneg (vx acc)) (fneg (vy acc)) CONSTANTS_ONE_G) in
  let body_z := limitTilt body_z up (_lim_tilt (lims s)) in
  let hover := _hover_thrust (model s) in
  let collective_thrust := fsub (fmul (vz acc) (fdiv hover CONSTANTS_ONE_G)) hover in
  let collective_thrust := fdiv collective_thrust (v3_dot up body_z) in
  let collective_thrust := fmin collective_thrust (fneg (_lim_thr_min (lims s))) in
  set_thr_sp (body_z * collective_thrust) s.

(** The limits of the thrust: the vertical part has priority but leaves a margin
    to the horizontal one. *)
Definition limit_thrust (l : pc_limits) (thr : vec3) : vec3 :=
  let thrust_sp_xy := xy thr in
  let thrust_sp_xy_norm := v2_norm thrust_sp_xy in
  let thrust_max_squared := fmul (_lim_thr_max l) (_lim_thr_max l) in
  let allocated_horizontal_thrust := fmin thrust_sp_xy_norm (_lim_thr_xy_margin l) in
  let thrust_z_max_squared :=
    fsub thrust_max_squared (fmul allocated_horizontal_thrust allocated_horizontal_thrust) in
  let thr := set_z (fmax (vz thr) (fneg (fsqrt thrust_z_max_squared))) thr in
  let thrust_max_xy_squared := fsub thrust_max_squared (fmul (vz thr) (vz thr)) in
  let thrust_max_xy := if fltb fzero thrust_max_xy_squared then fsqrt thrust_max_xy_squared else fzero in
  if fltb thrust_max_xy thrust_sp_xy_norm
  then set_xy (v2_scale (v2_div thrust_sp_xy thrust_sp_xy_norm) thrust_max_xy) thr
  else thr.

(** [vel_error(2)] is cleared in saturation but not used after that. *)
Definition _velocityControl (dt : float) (s : pos_control) : pos_control :=
  let m := model s in
  let vel_error := _vel_sp (sps s) - _vel (meas s) in
  let w_cross_p := v3_cross (_body_rate (meas s)) (_sys_com_pos m) in
  let centrifugal_body := v3_cross (_body_rate (meas s)) w_cross_p in
  let a_f_ned := mat_vec (Dcm (_attitude (meas s))) centrifugal_body * f_of_Z (-1) in
  let a_f_ned := if _dyn_ff_enabled m then a_f_ned else zero3 in
  let acc_sp := setZeroIfNanVector3f (_acc_sp (sps s)) in
  let acc_cmd := acc_sp + vel_error ** _gain_vel_p (gains s) - _eso_disturbance (obs s) - a_f_ned in
  let s := _accelerationControl (set_acc_sp acc_cmd s) in
  let s := set_thr_sp (limit_thrust (lims s) (_thr_sp (sps s))) s in
  let hover := _hover_thrust m in
  let acc_cmd_prev := if fltb FLT_EPSILON hover then _thr_sp (sps s) * fdiv CONSTANTS_ONE_G hover
                      else _thr_sp (sps s) * CONSTANTS_ONE_G in
  let eso_input := acc_cmd_prev + V3 fzero fzero CONSTANTS_ONE_G + a_f_ned in
  on_obs (fun o => Pc_observer (_vel_int o) (_pos_int o) (_eso o) (_eso_disturbance o) (_eso_update_enabled o)
                     (_eso_update_enabled_prev o) acc_cmd_prev eso_input) s.

(** ** The input check *)

Definition has_setpoint (pos vel acc : float) : bool := isfinite pos || isfinite vel || isfinite acc.

(** An axis whose setpoint is given has a valid estimate. *)
Definition state_valid (pos_sp vel_sp pos vel vel_dot : float) : bool :=
  (negb (isfinite pos_sp) || isfinite pos) && (negb (isfinite vel_sp) || isfinite vel && isfinite vel_dot).

Definition _inputValid (s : pos_control) : bool :=
  let p := sps s in let m := meas s in
  has_setpoint (vx (_pos_sp p)) (vx (_vel_sp p)) (vx (_acc_sp p))
  && has_setpoint (vy (_pos_sp p)) (vy (_vel_sp p)) (vy (_acc_sp p))
  && has_setpoint (vz (_pos_sp p)) (vz (_vel_sp p)) (vz (_acc_sp p))
  && eqb (isfinite (vx (_pos_sp p))) (isfinite (vy (_pos_sp p)))
  && eqb (isfinite (vx (_vel_sp p))) (isfinite (vy (_vel_sp p)))
  && eqb (isfinite (vx (_acc_sp p))) (isfinite (vy (_acc_sp p)))
  && state_valid (vx (_pos_sp p)) (vx (_vel_sp p)) (vx (_pos m)) (vx (_vel m)) (vx (_vel_dot m))
  && state_valid (vy (_pos_sp p)) (vy (_vel_sp p)) (vy (_pos m)) (vy (_vel m)) (vy (_vel_dot m))
  && state_valid (vz (_pos_sp p)) (vz (_vel_sp p)) (vz (_pos m)) (vz (_vel m)) (vz (_vel_dot m)).

(** ** update *)

(** The observer's part: initialised with the measurement when it is switched
    on, updated while it is on. *)
Definition observer_step (dt : float) (s : pos_control) : pos_control :=
  let o := obs s in
  let eso := if _eso_update_enabled o && negb (_eso_update_enabled_prev o)
             then eso_reset_at (_pos (meas s)) (_vel (meas s)) (_eso o) else _eso o in
  let eso := if _eso_update_enabled o then eso_update (_pos (meas s)) (_eso_input o) dt eso else eso in
  let disturbance := if _eso_update_enabled o then _z3 eso else zero3 in
  on_obs (fun o => Pc_observer (_vel_int o) (_pos_int o) eso disturbance (_eso_update_enabled o)
                     (_eso_update_enabled_prev o) (_acc_cmd_prev o) (_eso_input o)) s.

Definition default_yaw (s : pos_control) : pos_control :=
  on_sps (fun p => Pc_setpoints (_pos_sp p) (_vel_sp p) (_acc_sp p) (_thr_sp p)
                    (if isfinite (_yaw_sp p) then _yaw_sp p else _yaw (meas s))
                    (if isfinite (_yawspeed_sp p) then _yawspeed_sp p else fzero)) s.

Definition note_enabled : pos_control -> pos_control :=
  on_obs (fun o => Pc_observer (_vel_int o) (_pos_int o) (_eso o) (_eso_disturbance o) (_eso_update_enabled o)
                     (_eso_update_enabled o) (_acc_cmd_prev o) (_eso_input o)).

Definition output_valid (s : pos_control) : bool :=
  all3 isfinite (_acc_sp (sps s)) && all3 isfinite (_thr_sp (sps s)).

(** The result of [update] and the new state. *)
Definition update (dt : float) (s : pos_control) : bool * pos_control :=
  let valid := _inputValid s in
  let s := if valid then default_yaw (_velocityControl dt (_positionControl dt (observer_step dt s))) else s in
  let s := note_enabled s in
  (valid && output_valid s, s).

(** ** Getters *)

Definition getLocalPositionSetpoint (s : pos_control) : position_setpoint :=
  let p := sps s in
  Position_setpoint (_pos_sp p) (_yaw_sp p) (_yawspeed_sp p) (_vel_sp p) (_acc_sp p) (_thr_sp p).

Definition getAttitudeSetpoint (s : pos_control) (att : attitude_setpoint) : attitude_setpoint :=
  let att := thrustToAttitude (_thr_sp (sps s)) (_yaw_sp (sps s)) att in
  Attitude_setpoint (q_d att) (euler_body att) (thrust_body_z att) (_yawspeed_sp (sps s)).

End Position.
