(* ===== verification/EsoPositionSafety.v ===== *)
(** Theorems about the position controller ([EsoPosition]): what a NaN does to
    the observer and to the velocity setpoint, how the observer is started, the
    limits, and the feed-forward. *)

From Stdlib Require Import ZArith Lia SpecFloat.
From stdpp Require Import base list numbers.
From S2P Require Import Prelude Float32 EsoVector EsoPosition.

Local Open Scope Z_scope.

(** * The methods of the class *)

Inductive pc_call :=
| PositionGains (Kp Ki : vec3) | VelocityGains (Kp Ki Kd : vec3) | PositionIntegralLimit (limit : float)
| VelocityLimits (horizontal up down : float) | ThrustLimits (min max : float) | HorizontalThrustMargin (margin : float)
| TiltLimit (tilt : float) | HoverThrust (thrust : float) | UpdateHoverThrust (thrust : float) | SystemCoM (com : vec3)
| DynamicsFeedforward (enabled : bool) | BodyRate (rate : vec3) | Attitude (att : quat) | ESOBandwidth (bw : vec3)
| ESOUpdateEnabled (enabled : bool) | State (states : control_states) | InputSetpoint (setpoint : position_setpoint)
| ResetIntegral | Update (dt : float).

Section Calls.
Context `{M : Matrix}.

(** The result of [update], if that was called, and the new state. *)
Definition call (c : pc_call) (s : pos_control) : option bool * pos_control :=
  match c with
  | PositionGains Kp Ki => (None, setPositionGains Kp Ki s)
  | VelocityGains Kp Ki Kd => (None, setVelocityGains Kp Ki Kd s)
  | PositionIntegralLimit limit => (None, setPositionIntegralLimit limit s)
  | VelocityLimits horizontal up down => (None, setVelocityLimits horizontal up down s)
  | ThrustLimits min max => (None, setThrustLimits min max s)
  | HorizontalThrustMargin margin => (None, setHorizontalThrustMargin margin s)
  | TiltLimit tilt => (None, setTiltLimit tilt s)
  | HoverThrust thrust => (None, setHoverThrust thrust s)
  | UpdateHoverThrust thrust => (None, updateHoverThrust thrust s)
  | SystemCoM com => (None, setSystemCoM com s)
  | DynamicsFeedforward enabled => (None, setDynamicsFeedforwardEnabled enabled s)
  | BodyRate rate => (None, setBodyRate rate s)
  | Attitude att => (None, setAttitude att s)
  | ESOBandwidth bw => (None, setESOBandwidth bw s)
  | ESOUpdateEnabled enabled => (None, setESOUpdateEnabled enabled s)
  | State states => (None, setState states s)
  | InputSetpoint setpoint => (None, setInputSetpoint setpoint s)
  | ResetIntegral => (None, resetIntegral s)
  | Update dt => let '(r, s) := update dt s in (Some r, s)
  end.

Definition calls (l : list pc_call) (s : pos_control) : pos_control := fold_left (fun s c => (call c s).2) l s.

(** The results of the updates of a history. *)
Fixpoint results (l : list pc_call) (s : pos_control) : list bool :=
  match l with
  | [] => []
  | c :: l => let '(r, s) := call c s in option_list r ++ results l s
  end.

(** * A NaN in the observer *)

(** The calls that neither reset the observer nor switch it off. *)
Definition keeps_observer (c : pc_call) : bool :=
  match c with ResetIntegral => false | ESOUpdateEnabled enabled => enabled | _ => true end.

Definition poisoned (a : axis) (s : pos_control) : Prop :=
  get a (_z1 (_eso (obs s))) = NAN /\ _eso_update_enabled (obs s) = true /\ _eso_update_enabled_prev (obs s) = true.

Context `{L : !MatrixLaws}.

Lemma eso_update_nan a pos u dt e :
  get a pos = NAN \/ get a (_z1 e) = NAN ->
  get a (_z1 (eso_update pos u dt e)) = NAN /\ get a (_z3 (eso_update pos u dt e)) = NAN.
Proof.
  intros H. unfold eso_update. cbn [_z1 _z3]. autorewrite with vec.
  assert (fsub (get a pos) (get a (_z1 e)) = NAN) as -> by (destruct H as [-> | ->]; by autorewrite with nan).
  by autorewrite with nan.
Qed.

(** The parts of the state that the control law leaves alone. *)
Lemma control_observer dt s :
  let s' := _velocityControl dt (_positionControl dt s) in
  _eso (obs s') = _eso (obs s) /\ _eso_update_enabled (obs s') = _eso_update_enabled (obs s)
  /\ _eso_disturbance (obs s') = _eso_disturbance (obs s).
Proof. by split_and!. Qed.

(** A disturbance that is not a number reaches the acceleration. *)
Lemma nan_disturbance a dt s :
  get a (_eso_disturbance (obs s)) = NAN -> get a (_acc_sp (sps (_velocityControl dt s))) = NAN.
Proof.
  intros H. unfold _velocityControl, _accelerationControl. cbn [on_obs set_thr_sp set_acc_sp on_sps sps _acc_sp].
  autorewrite with vec. rewrite H. by autorewrite with nan.
Qed.

(** The valid branch of [update], in steps. *)
Definition controlled (dt : float) (s : pos_control) : pos_control := _velocityControl dt (_positionControl dt s).

Lemma output_valid_note s : output_valid (note_enabled (default_yaw s)) = output_valid s.
Proof. done. Qed.

Lemma update_valid dt s :
  _inputValid s = true -> update dt s = (output_valid (controlled dt (observer_step dt s)),
                                         note_enabled (default_yaw (controlled dt (observer_step dt s)))).
Proof. intros Hv. unfold update. rewrite Hv. cbn [andb]. rewrite output_valid_note. reflexivity. Qed.

Lemma update_invalid dt s : _inputValid s = false -> update dt s = (false, note_enabled s).
Proof. intros Hv. unfold update. by rewrite Hv. Qed.

Lemma note_enabled_obs s :
  let o := obs (note_enabled (default_yaw s)) in
  _eso o = _eso (obs s) /\ _eso_update_enabled o = _eso_update_enabled (obs s)
  /\ _eso_update_enabled_prev o = _eso_update_enabled (obs s).
Proof. done. Qed.

Lemma nan_output a s : get a (_acc_sp (sps s)) = NAN -> output_valid s = false.
Proof.
  intros H. unfold output_valid. destruct (all3 isfinite (_acc_sp (sps s))) eqn:E; [|done].
  rewrite all3_get in E. specialize (E a). by rewrite H in E.
Qed.

Lemma observed_nan_step a dt s :
  _eso_update_enabled (obs s) = true ->
  get a (_pos (meas s)) = NAN \/ _eso_update_enabled_prev (obs s) = true /\ get a (_z1 (_eso (obs s))) = NAN ->
  let o := obs (observer_step dt s) in
  get a (_z1 (_eso o)) = NAN /\ get a (_eso_disturbance o) = NAN /\ _eso_update_enabled o = true.
Proof.
  intros He Hn. unfold observer_step. rewrite He.
  cbn [on_obs obs _eso _eso_disturbance _eso_update_enabled andb]. rewrite He.
  assert (forall P Q R : Prop, P /\ Q -> R -> P /\ Q /\ R) as Hand by tauto. apply Hand; [|done].
  apply eso_update_nan. destruct Hn as [Hn|[-> Hn]]; by auto.
Qed.

(** A valid update after which the observer's position is a NaN on an axis
    fails, if the observer is on. *)
Lemma observed_nan a dt s :
  _inputValid s = true -> _eso_update_enabled (obs s) = true ->
  get a (_pos (meas s)) = NAN \/ _eso_update_enabled_prev (obs s) = true /\ get a (_z1 (_eso (obs s))) = NAN ->
  (update dt s).1 = false /\ poisoned a (update dt s).2.
Proof.
  intros Hv He Hn. rewrite update_valid by done. cbn [fst snd].
  destruct (observed_nan_step a dt s He Hn) as (H1 & H2 & H3). generalize dependent (observer_step dt s).
  intros s1 H1 H2 H3. destruct (control_observer dt s1) as (E1 & E2 & _). split.
  - by apply (nan_output a), nan_disturbance.
  - unfold poisoned. destruct (note_enabled_obs (controlled dt s1)) as (-> & -> & ->).
    unfold controlled. by rewrite E1, E2.
Qed.

Lemma poisoned_update a dt s : poisoned a s -> (update dt s).1 = false /\ poisoned a (update dt s).2.
Proof.
  intros (Hz & He & Hp). destruct (_inputValid s) eqn:Hv; [apply observed_nan; auto|].
  rewrite update_invalid by done. unfold poisoned, note_enabled. by cbn.
Qed.

Lemma poisoned_call a c s :
  keeps_observer c = true -> poisoned a s -> Forall (eq false) (option_list (call c s).1) /\ poisoned a (call c s).2.
Proof.
  intros Hk Hs. pose proof Hs as (Hz & He & Hp).
  destruct c; cbn [call fst snd option_list]; try (split; [constructor | done]); try done.
  - split; [constructor|]. unfold updateHoverThrust. by case_match.
  - pose proof (poisoned_update a dt s Hs) as [Hr Hs']. destruct (update dt s) as [r s']. cbn in *. subst. split; [by repeat constructor | done].
Qed.

Lemma poisoned_results a l : forall s,
  Forall (fun c => keeps_observer c = true) l -> poisoned a s -> Forall (eq false) (results l s) /\ poisoned a (calls l s).
Proof.
  induction l as [|c l IH]; intros s Hl Hs; [by split|]. inversion Hl; subst.
  destruct (poisoned_call a c s) as [Hr Hs']; [done|done|]. cbn [results calls fold_left].
  destruct (call c s) as [r s'] eqn:E. cbn [fst snd] in *. destruct (IH s') as [H1' H2']; [done|done|].
  split; [by apply Forall_app | done].
Qed.

(** C21: the observer does not recover from a NaN.  If the observer is on and an
    update is given a valid input in which the position of an axis is not a number
    (a velocity or acceleration setpoint needs no position), that update fails,
    and so does every later one of any history of calls, whatever measurements
    and setpoints come, until the controller is reset or the observer switched
    off. *)
Theorem nan_position_never_recovers (a : axis) (dt : float) (s : pos_control) (l : list pc_call) :
  _eso_update_enabled (obs s) = true -> _inputValid s = true -> get a (_pos (meas s)) = NAN ->
  Forall (fun c => keeps_observer c = true) l ->
  Forall (eq false) (results (Update dt :: l) s).
Proof.
  intros He Hv Hp Hl. destruct (observed_nan a dt s Hv He (or_introl Hp)) as [Hr Hs].
  cbn [results call]. destruct (update dt s) as [r s']. cbn in *. subst. constructor; [done|].
  by apply (poisoned_results a).
Qed.

(** * A velocity setpoint without a position *)

Lemma constrainXY_nan v w max : has_nan2 w -> fleb max (v2_norm v) = false -> constrainXY v w max = V2 NAN NAN.
Proof.
  intros Hw Hm. unfold constrainXY. autorewrite with vec.
  rewrite v2_norm_nan by (unfold has_nan2 in *; cbn; destruct Hw as [-> | ->]; autorewrite with nan; auto).
  rewrite fleb_nan_l, Hm.
  rewrite v2_norm_nan by (unfold has_nan2 in *; cbn; destruct Hw as [-> | ->]; autorewrite with nan; auto).
  change (fltb (fabs NAN) (f_dec 1 1000)) with false. cbv iota. rewrite v2_normalized_nan by done.
  cbn [v0 v1]. case_match; autorewrite with vec; cbn [v0 v1]; by autorewrite with nan.
Qed.

(** The horizontal velocity setpoint of an axis without a position setpoint. *)
Lemma position_control_nan dt s :
  get Ax (_pos_sp (sps s)) = NAN -> get Ay (_pos_sp (sps s)) = NAN ->
  fleb (_lim_vel_horizontal (lims s)) (v2_norm (xy (setZeroIfNanVector3f (_vel_sp (sps s))))) = false ->
  get Ax (_vel_sp (sps (_positionControl dt s))) = NAN.
Proof.
  cbn [get]. intros Hx Hy Hm. unfold _positionControl. cbn [on_sps on_obs sps _vel_sp set_z set_xy vx].
  rewrite constrainXY_nan; [done| |].
  - left. unfold setZeroIfNanVector3f, addIfNotNanVector3f, xy. autorewrite with vec.
    unfold map3_2. cbn [vx v0]. rewrite Hx. by autorewrite with nan.
  - unfold setZeroIfNanVector3f, addIfNotNanVector3f in *. autorewrite with vec.
    unfold xy, map3_2 in *. cbn [vx vy] in *. rewrite Hx, Hy. autorewrite with nan. exact Hm.
Qed.

Lemma nan_velocity a dt s : get a (_vel_sp (sps s)) = NAN -> get a (_acc_sp (sps (_velocityControl dt s))) = NAN.
Proof.
  intros H. unfold _velocityControl, _accelerationControl. cbn [on_obs set_thr_sp set_acc_sp on_sps sps _acc_sp].
  autorewrite with vec. rewrite H. by autorewrite with nan.
Qed.

Lemma observer_step_frame dt s :
  sps (observer_step dt s) = sps s /\ lims (observer_step dt s) = lims s.
Proof. done. Qed.

(** A velocity below the limit without a horizontal position setpoint makes the
    update fail. *)
Lemma velocity_without_position dt s :
  get Ax (_pos_sp (sps s)) = NAN -> get Ay (_pos_sp (sps s)) = NAN ->
  fleb (_lim_vel_horizontal (lims s)) (v2_norm (xy (setZeroIfNanVector3f (_vel_sp (sps s))))) = false ->
  (update dt s).1 = false.
Proof.
  intros Hx Hy Hm. destruct (_inputValid s) eqn:Hv; [|by rewrite update_invalid].
  rewrite update_valid by done. cbn [fst]. destruct (observer_step_frame dt s) as [E1 E2].
  apply (nan_output Ax), nan_velocity, position_control_nan; by rewrite ?E1, ?E2.
Qed.

(** * The feed-forward *)

Definition is_zero (x : float) : Prop := exists b, x = S754_zero b.
Definition is_number (x : float) : Prop := exists b m e, x = S754_finite b m e.

Lemma fsub_self x : isfinite x = true -> is_zero (fsub x x).
Proof.
  intros Hx. destruct x as [b| | |b m e]; try done; [by destruct b; eexists|]. exists false.
  unfold fsub, fadd, fneg, SFopp, SFadd. rewrite Z.min_id. unfold shl_align. rewrite Z.sub_diag.
  cbn [fst Z.opp]. destruct b; cbn [cond_Zopp negb]; by rewrite ?Z.add_opp_diag_l, ?Z.add_opp_diag_r.
Qed.

Lemma zero_mul x y : is_zero x -> isfinite y = true -> is_zero (fmul x y).
Proof. intros [b ->] Hy. destruct y; try done; by eexists. Qed.
Lemma mul_zero x y : isfinite x = true -> is_zero y -> is_zero (fmul x y).
Proof. intros Hx [b ->]. destruct x; try done; by eexists. Qed.
Lemma zero_add x y : is_zero x -> is_zero y -> is_zero (fadd x y).
Proof. intros [b ->] [c ->]. destruct b, c; by eexists. Qed.
Lemma add_to_zero x y : is_zero x -> is_number y -> fadd x y = y.
Proof. by intros [b ->] (c & m & e & ->). Qed.
Lemma add_zero_to x y : is_number x -> is_zero y -> fadd x y = x.
Proof. by intros (c & m & e & ->) [b ->]. Qed.
Lemma sub_zero_from x y : is_number x -> is_zero y -> fsub x y = x.
Proof. by intros (c & m & e & ->) [b ->]. Qed.
Lemma zero_finite x : is_zero x -> isfinite x = true.
Proof. by intros [b ->]. Qed.
Lemma number_finite x : is_number x -> isfinite x = true.
Proof. by intros (b & m & e & ->). Qed.

(** An axis at its position setpoint, with nothing integrated. *)
Record at_rest (a : axis) (s : pos_control) : Prop := {
  rest_pos : get a (_pos_sp (sps s)) = get a (_pos (meas s));
  rest_finite : isfinite (get a (_pos (meas s))) = true;
  rest_int : is_zero (get a (_pos_int (obs s)));
  rest_p : isfinite (get a (_gain_pos_p (gains s))) = true;
  rest_i : isfinite (get a (_gain_pos_i (gains s))) = true;
  rest_ff : is_number (get a (_vel_sp (sps s)))
}.

(** At rest the limited velocity is the feed-forward, and so is what is left of
    it without the two control terms. *)
Lemma rest_velocity a s :
  at_rest a s ->
  let g := gains s in let p := sps s in let o := obs s in
  let P := v3_emult (v3_sub (_pos_sp p) (_pos (meas s))) (_gain_pos_p g) in
  let I := v3_emult (_pos_int o) (_gain_pos_i g) in
  let v := setZeroIfNanVector3f (addIfNotNanVector3f (v3_add P I) (_vel_sp p)) in
  get a v = get a (_vel_sp p) /\ get a (v3_sub (v3_sub v P) I) = get a (_vel_sp p).
Proof.
  intros [Hp Hf Hi Hkp Hki Hff] g p o P I v.
  assert (is_zero (get a P)) as HP.
  { subst P p g. autorewrite with vec. rewrite Hp. apply zero_mul; [by apply fsub_self | done]. }
  assert (is_zero (get a I)) as HI by (subst I o g; autorewrite with vec; by apply zero_mul).
  assert (get a v = get a (_vel_sp p)) as Hv.
  { subst v. unfold setZeroIfNanVector3f, addIfNotNanVector3f. autorewrite with vec. unfold addIfNotNan at 2.
    rewrite (zero_finite (fadd _ _)) by by apply zero_add. rewrite (number_finite (get a (_vel_sp p))) by done.
    cbn [andb]. rewrite add_to_zero by (done || by apply zero_add).
    unfold addIfNotNan. rewrite number_finite by done.
    assert (is_zero (get a zero3)) as Hz by (destruct a; by eexists).
    rewrite (zero_finite (get a zero3)) by done. by rewrite add_zero_to. }
  split; [done|]. autorewrite with vec. rewrite Hv, !sub_zero_from; try done; by rewrite ?sub_zero_from.
Qed.

Lemma xy_set z w v : xy (set_z z (set_xy w v)) = w.
Proof. by destruct w. Qed.

Lemma constrain_twice ff v w max :
  let twice := V2 (fadd (vx ff) (vx ff)) (fadd (vy ff) (vy ff)) in
  v = xy ff -> w = xy ff -> fleb (v2_norm twice) max = true -> constrainXY v w max = twice.
Proof. intros twice -> -> H. unfold constrainXY. autorewrite with vec. cbn [xy v0 v1]. fold twice. by rewrite H. Qed.

(** The feed-forward is counted twice.  On a vehicle that is where its
    position setpoint wants it and has nothing integrated, the horizontal velocity
    setpoint of a valid update is twice the velocity feed-forward of the input
    (within the speed limit), not the feed-forward. *)
Theorem feedforward_counted_twice (dt : float) (s : pos_control) :
  let ff := _vel_sp (sps s) in
  let twice := V2 (fadd (vx ff) (vx ff)) (fadd (vy ff) (vy ff)) in
  _inputValid s = true -> at_rest Ax s -> at_rest Ay s ->
  fleb (v2_norm twice) (_lim_vel_horizontal (lims s)) = true ->
  xy (_vel_sp (sps (update dt s).2)) = twice.
Proof.
  intros ff twice Hv Hx Hy Hn. rewrite update_valid by done. cbn [snd].
  destruct (rest_velocity Ax s Hx) as [X1 X2], (rest_velocity Ay s Hy) as [Y1 Y2]. cbn [get] in *.
  destruct (observer_step_frame dt s) as [E1 E2].
  assert (E3 : gains (observer_step dt s) = gains s) by done.
  assert (E4 : meas (observer_step dt s) = meas s) by done.
  assert (E5 : _pos_int (obs (observer_step dt s)) = _pos_int (obs s)) by done.
  change (xy (_vel_sp (sps (_positionControl dt (observer_step dt s)))) = twice).
  generalize dependent (observer_step dt s). intros s1 E1 E2 E3 E4 E5.
  unfold _positionControl. cbn [on_sps on_obs sps _vel_sp]. rewrite E1, E2, E3, E4, E5.
  rewrite xy_set. apply constrain_twice; [| |done]; unfold xy; by rewrite ?X1, ?X2, ?Y1, ?Y2.
Qed.

(** * Starting the observer *)

(** The observer starts at the measurement, unless the first cycle is
    invalid.  In the first valid update after it is switched on the observer is
    initialised with the measured position and velocity, so that the disturbance
    it reports on an axis with a finite position is zero; but if the first update
    after switching it on has an invalid input, the observer is not initialised,
    the edge is forgotten and the following updates go on from the old estimate. *)
Theorem observer_start (a : axis) (dt : float) (s : pos_control) :
  _eso_update_enabled (obs s) = true -> _eso_update_enabled_prev (obs s) = false ->
  (_inputValid s = true -> isfinite (get a (_pos (meas s))) = true ->
   isfinite (get a (_beta3 (_eso (obs s)))) = true -> isfinite dt = true ->
   is_zero (get a (_eso_disturbance (obs (update dt s).2))))
  /\ (_inputValid s = false ->
      _eso (obs (update dt s).2) = _eso (obs s) /\ _eso_update_enabled_prev (obs (update dt s).2) = true).
Proof.
  intros He Hp. split; intros Hv.
  - intros Hx Hb Hd. rewrite update_valid by done. cbn [snd].
    change (is_zero (get a (_eso_disturbance (obs (observer_step dt s))))).
    unfold observer_step. rewrite He, Hp. cbn [on_obs obs _eso_disturbance andb negb].
    unfold eso_update, eso_reset_at. cbn [_z1 _z3 _beta3]. autorewrite with vec.
    apply zero_add; [destruct a; by eexists|]. apply zero_mul; [|done]. apply mul_zero; [done|]. by apply fsub_self.
  - by rewrite update_invalid.
Qed.

(** * Limits *)

(** The integral of every axis is inside the configured limit. *)
Definition int_ok (s : pos_control) : Prop :=
  forall a, within (fneg (_lim_pos_int (lims s))) (_lim_pos_int (lims s)) (get a (_pos_int (obs s))).

Definition keeps_limit (c : pc_call) : bool := match c with PositionIntegralLimit _ => false | _ => true end.

Lemma zero_within lim : fleb fzero lim = true -> within (fneg lim) lim fzero /\ fltb lim (fneg lim) = false.
Proof. by destruct lim as [[]|[]| |[] m e]. Qed.

Lemma int_ok_position_control dt s :
  fleb fzero (_lim_pos_int (lims s)) = true -> int_ok s -> int_ok (_positionControl dt s).
Proof.
  intros Hl Hs a. unfold _positionControl. cbn [on_sps on_obs obs lims _pos_int]. case_match; [|apply Hs].
  autorewrite with vec. apply constrain_within, zero_within, Hl.
Qed.

Lemma controlled_frame dt s :
  _pos_int (obs (controlled dt (observer_step dt s))) = _pos_int (obs (_positionControl dt (observer_step dt s)))
  /\ _vel_sp (sps (controlled dt (observer_step dt s))) = _vel_sp (sps (_positionControl dt (observer_step dt s)))
  /\ lims (controlled dt (observer_step dt s)) = lims s.
Proof. done. Qed.

Lemma note_enabled_vel s : _vel_sp (sps (note_enabled (default_yaw s))) = _vel_sp (sps s).
Proof. done. Qed.

Lemma int_ok_update dt s : fleb fzero (_lim_pos_int (lims s)) = true -> int_ok s -> int_ok (update dt s).2.
Proof.
  intros Hl Hs. destruct (_inputValid s) eqn:Hv; [|by rewrite update_invalid].
  rewrite update_valid by done. cbn [snd].
  assert (int_ok (_positionControl dt (observer_step dt s))) as H by by apply int_ok_position_control.
  assert (lims (_positionControl dt (observer_step dt s)) = lims s) as E3 by done.
  destruct (controlled_frame dt s) as (E1 & _ & E2). generalize dependent (controlled dt (observer_step dt s)).
  intros c E1 E2 a. specialize (H a). by rewrite E3, <- E1, <- E2 in H.
Qed.

Lemma int_ok_call c s :
  keeps_limit c = true -> fleb fzero (_lim_pos_int (lims s)) = true -> int_ok s ->
  int_ok (call c s).2 /\ _lim_pos_int (lims (call c s).2) = _lim_pos_int (lims s).
Proof.
  intros Hk Hl Hs. destruct c; cbn [call snd]; try done.
  - unfold updateHoverThrust. by case_match.
  - split; [|done]. intros a. destruct (zero_within _ Hl) as [H _]. by destruct a.
  - pose proof (int_ok_update dt s Hl Hs) as H.
    assert (lims (update dt s).2 = lims s) as E.
    { destruct (_inputValid s) eqn:Hv; [by rewrite update_valid | by rewrite update_invalid]. }
    destruct (update dt s). cbn in *. by rewrite E.
Qed.

Lemma int_ok_calls l : forall s,
  Forall (fun c => keeps_limit c = true) l -> fleb fzero (_lim_pos_int (lims s)) = true -> int_ok s ->
  int_ok (calls l s) /\ _lim_pos_int (lims (calls l s)) = _lim_pos_int (lims s).
Proof.
  induction l as [|c l IH]; intros s Hl Hf Hs; [done|]. inversion Hl; subst.
  destruct (int_ok_call c s) as [Hs' E]; [done..|]. destruct (IH (call c s).2) as [G1 G2]; [done|by rewrite E|done|].
  unfold calls in *. cbn [fold_left]. split; [done|]. by rewrite G2, E.
Qed.

(** The limits hold.  Over every history of calls that starts with a limit
    for the integral, the integral of the position error stays inside it on every
    axis, and the vertical velocity setpoint of every valid update is inside the
    limits for climbing and sinking, whatever the setpoints and measurements (a NaN
    counts as inside). *)
Theorem position_limits (limit : float) (s : pos_control) (l : list pc_call) (dt : float) :
  let s' := calls l (resetIntegral (setPositionIntegralLimit limit s)) in
  fleb fzero limit = true -> Forall (fun c => keeps_limit c = true) l ->
  (forall a, within (fneg limit) limit (get a (_pos_int (obs s'))))
  /\ (_inputValid s' = true -> fltb (_lim_vel_down (lims s')) (fneg (_lim_vel_up (lims s'))) = false ->
      within (fneg (_lim_vel_up (lims s'))) (_lim_vel_down (lims s')) (vz (_vel_sp (sps (update dt s').2)))).
Proof.
  intros s' Hl Hk.
  destruct (int_ok_calls l (resetIntegral (setPositionIntegralLimit limit s)) Hk Hl) as [H E].
  { intros a. destruct (zero_within _ Hl) as [H _]. by destruct a. }
  fold s' in H, E. change (_lim_pos_int (lims s') = limit) in E. split.
  - intros a. specialize (H a). by rewrite E in H.
  - clearbody s'. intros Hv Hd. rewrite update_valid by done. cbn [snd].
    destruct (controlled_frame dt s') as (_ & E' & _). rewrite note_enabled_vel, E'.
    destruct (observer_step_frame dt s') as [_ E2].
    unfold _positionControl. cbn [on_sps on_obs sps _vel_sp set_z vz]. rewrite E2. by apply constrain_within.
Qed.
End Calls.

(** * Concrete runs *)

Definition bench_setpoint (pos vel : vec3) : position_setpoint :=
  Position_setpoint pos fzero fzero vel zero3 zero3.
Definition meas_at (pos : vec3) : control_states := Control_states pos zero3 zero3 fzero.

(** A configured controller. *)
Definition ready : pos_control :=
  calls [PositionGains (V3 fone fone fone) zero3; VelocityGains (V3 fone fone fone) zero3 zero3; PositionIntegralLimit fone;
         VelocityLimits (f_of_Z 12) (f_of_Z 3) fone; ThrustLimits (f_dec 12 100) fone; HorizontalThrustMargin (f_dec 3 10);
         TiltLimit (f_dec 8 10); HoverThrust (f_dec 5 10)] pos_control_new.

Definition tick : float := f_dec 1 100.
Definition sp0 : position_setpoint := bench_setpoint zero3 zero3.
Definition nan3 : vec3 := V3 NAN NAN NAN.

(** One cycle of a velocity setpoint without a position, then a vehicle at its
    setpoint with everything valid. *)
Lemma nan_position_never_recovers_witness :
  let s := calls [State (meas_at nan3); InputSetpoint (bench_setpoint nan3 zero3)] ready in
  let l := [State (meas_at zero3); InputSetpoint sp0; Update tick; Update tick] in
  (update tick (calls [State (meas_at zero3); InputSetpoint sp0] ready)).1 = true
  /\ results (Update tick :: l) s = [false; false; false]
  /\ Forall (eq false) (results (Update tick :: l) s).
Proof.
  intros s l. split; [vm_compute; reflexivity|]. split; [vm_compute; reflexivity|].
  apply (nan_position_never_recovers Ax); [vm_compute; reflexivity..|].
  subst l. repeat constructor.
Defined.

(** One metre per second of feed-forward becomes two. *)
Lemma feedforward_counted_twice_witness :
  let s := calls [State (meas_at zero3); InputSetpoint (bench_setpoint zero3 (V3 fone fone fzero))] ready in
  xy (_vel_sp (sps (update tick s).2)) = V2 (f_of_Z 2) (f_of_Z 2).
Proof.
  intros s. refine (eq_trans (feedforward_counted_twice tick s _ _ _ _) _); try (vm_compute; reflexivity).
  - split; try (vm_compute; reflexivity); repeat eexists.
  - split; try (vm_compute; reflexivity); repeat eexists.
Defined.

(** Switched on in an invalid cycle, the observer starts from zero: 10 m away it
    reports a disturbance of 51 m/s^2. *)
Lemma observer_start_witness :
  let on := calls [State (meas_at (V3 (f_of_Z 10) fzero fzero)); ESOUpdateEnabled false; Update tick; ESOUpdateEnabled true] ready in
  let good := calls [InputSetpoint sp0] on in
  let bad := calls [InputSetpoint (bench_setpoint (V3 fzero NAN fzero) zero3)] on in
  is_zero (get Ax (_eso_disturbance (obs (update tick good).2)))
  /\ _eso (obs (update tick bad).2) = _eso (obs bad)
  /\ fltb (f_of_Z 51) (get Ax (_eso_disturbance (obs (calls [Update tick; InputSetpoint sp0; Update tick] bad)))) = true.
Proof.
  intros on good bad. split; [|split].
  - apply (proj1 (observer_start Ax tick good ltac:(vm_compute; reflexivity) ltac:(vm_compute; reflexivity)));
      vm_compute; reflexivity.
  - apply (proj2 (observer_start Ax tick bad ltac:(vm_compute; reflexivity) ltac:(vm_compute; reflexivity))).
    vm_compute; reflexivity.
  - vm_compute; reflexivity.
Defined.

Lemma position_limits_witness :
  let s' := calls [State (meas_at (V3 (f_of_Z 100) fzero fzero)); InputSetpoint sp0; Update fone] (resetIntegral (setPositionIntegralLimit fone ready)) in
  get Ax (_pos_int (obs s')) = fone /\ within (fneg fone) fone (get Ax (_pos_int (obs s'))).
Proof.
  intros s'. split; [vm_compute; reflexivity|].
  apply (proj1 (position_limits fone ready [State (meas_at (V3 (f_of_Z 100) fzero fzero)); InputSetpoint sp0; Update fone] tick
    ltac:(vm_compute; reflexivity) ltac:(repeat constructor)) Ax).
Defined.
