(* ===== verification/EsoPosModule.v ===== *)
(** The module of the position controller (src/modules/eso_pos_control,
    ESOMulticopterPositionControl.cpp): one cycle of [Run] on a new local position,
    from the messages to the published attitude setpoint, with the failsafe.  A
    topic is an argument of the cycle: [None] when it has no update. *)

From Stdlib Require Import ZArith Lia SpecFloat.
From stdpp Require Import base list numbers option.
From S2P Require Import Prelude Float32 EsoVector Hysteresis EsoTakeoff EsoPosition.

Local Open Scope Z_scope.

(** * Blocks *)

(** control::BlockDerivative with its low pass (src/lib/controllib); [fcut] is the
    cut-off parameter of the low pass. *)
Record derivative := Derivative { _u : float; _initialized : bool; _lowPass : float }.

Definition derivative_new : derivative := Derivative fzero false NAN.
Definition derivative_reset (b : derivative) : derivative := Derivative (_u b) false (_lowPass b).

(** [float(M_PI)] *)
Definition M_PI : float := S754_finite false 13176795 (-22).

Definition low_pass_update (fcut dt input state : float) : float :=
  let state := if isfinite state then state else input in
  let b := fmul (fmul (fmul (f_of_Z 2) M_PI) fcut) dt in
  let a := fdiv b (fadd fone b) in
  fadd (fmul a input) (fmul (fsub fone a) state).

Definition derivative_update (fcut dt input : float) (b : derivative) : float * derivative :=
  if _initialized b then
    let y := low_pass_update fcut dt (fdiv (fsub input (_u b)) dt) (_lowPass b) in
    (y, Derivative input true y)
  else (fzero, Derivative input true (low_pass_update fcut dt fzero (_lowPass b))).

(** SlewRate (src/lib/slew_rate). *)
Definition slew_update (slew_rate new_value deltatime value : float) : float :=
  let dvalue_max := fmul slew_rate deltatime in
  fadd value (fconstrain (fsub new_value value) (fneg dvalue_max) dvalue_max).

(** * Messages *)

(** vehicle_local_position *)
Record local_position := Local_position {
  lp_timestamp : Z; lp_timestamp_sample : Z;
  xy_valid : bool; z_valid : bool; v_xy_valid : bool; v_z_valid : bool;
  lp_pos : vec3; lp_vel : vec3; z_deriv : float; heading : float;
  delta_xy : vec2; delta_z : float; delta_vxy : vec2; delta_vz : float; delta_heading : float;
  xy_reset_counter : Z; z_reset_counter : Z; vxy_reset_counter : Z; vz_reset_counter : Z; heading_reset_counter : Z
}.

(** vehicle_control_mode, vehicle_land_detected and vehicle_constraints: what the
    module reads. *)
Record control_mode := Control_mode {
  flag_armed : bool; flag_multicopter_position_control_enabled : bool; flag_control_offboard_enabled : bool
}.
Record land_detected := Land_detected { landed : bool; ground_contact : bool }.
Record constraints := Constraints { speed_up : float; speed_down : float; want_takeoff : bool }.

(** The parameters that [Run] reads, as they are after [parameters_update]. *)
Record pos_params := Pos_params {
  ESO_Z_VEL_MAX_UP : float; ESO_Z_VEL_MAX_DN : float; ESO_XY_VEL_MAX : float; ESO_THR_HOVER : float;
  ESO_TILTMAX_LND : float; ESO_TILTMAX_AIR : float; ESO_THR_MIN : float; ESO_THR_MAX : float;
  ESO_LAND_SPEED : float; ESO_USE_HTE : bool; ESO_POS_ESOGATE : bool; VELD_LP : float;
  use_dynamic_arm_model : bool; fallback_com : vec3
}.

(** The topics at a cycle; [elapsed_since] tells the time since a time stamp. *)
Record cycle_input := Cycle_input {
  in_local_pos : local_position;
  in_joints : option (bool * vec3);     (* arm_joint_states: valid, and the centre of mass ArmKinematics computes of it *)
  in_mode : option control_mode; in_land : option land_detected;
  in_attitude : option quat; in_rate : option vec3;
  in_hover_thrust : option (bool * float);  (* valid, estimate *)
  in_setpoint : option (Z * position_setpoint); in_constraints : option constraints;
  in_absolute_time : Z
}.

Record pos_module := Pos_module {
  m_takeoff : takeoff; m_last_loop : Z;
  m_setpoint : Z * position_setpoint;   (* with its time stamp *)
  m_mode : control_mode; m_constraints : constraints; m_land : land_detected;
  m_deriv : derivative * derivative * derivative;
  m_control : pos_control;
  m_failsafe : hysteresis; m_in_failsafe : bool; m_tilt : float;
  m_resets : Z * Z * Z * Z * Z;         (* vxy, vz, xy, z, heading *)
  m_com : Z * bool                      (* time and validity of the dynamic centre of mass *)
}.

Section Module.
Context `{M : Matrix} (par : pos_params).

Definition nan_setpoint : position_setpoint :=
  let n := V3 NAN NAN NAN in Position_setpoint n NAN NAN n n n.

(** * set_vehicle_states *)

Definition set_vehicle_states (dt : float) (p : local_position) (d : derivative * derivative * derivative) :
    control_states * (derivative * derivative * derivative) :=
  let '(dx, dy, dz) := d in
  let pos_xy := if isfinite (vx (lp_pos p)) && isfinite (vy (lp_pos p)) && xy_valid p then xy (lp_pos p) else V2 NAN NAN in
  let pos_z := if isfinite (vz (lp_pos p)) && z_valid p then vz (lp_pos p) else NAN in
  let '(vel_xy, acc_xy, dx, dy) :=
    if isfinite (vx (lp_vel p)) && isfinite (vy (lp_vel p)) && v_xy_valid p then
      let '(ax, dx) := derivative_update (VELD_LP par) dt (vx (lp_vel p)) dx in
      let '(ay, dy) := derivative_update (VELD_LP par) dt (vy (lp_vel p)) dy in
      (xy (lp_vel p), V2 ax ay, dx, dy)
    else (V2 NAN NAN, V2 NAN NAN, derivative_reset dx, derivative_reset dy) in
  let '(vel_z, acc_z, dz) :=
    if isfinite (vz (lp_vel p)) && v_z_valid p then
      let '(az, dz) := derivative_update (VELD_LP par) dt (vz (lp_vel p)) dz in (vz (lp_vel p), az, dz)
    else (NAN, NAN, derivative_reset dz) in
  (Control_states (V3 (v0 pos_xy) (v1 pos_xy) pos_z) (V3 (v0 vel_xy) (v1 vel_xy) vel_z)
     (V3 (v0 acc_xy) (v1 acc_xy) acc_z) (heading p), (dx, dy, dz)).

(** * The setpoint *)

(** The estimator was reset: the setpoint moves along. *)
Definition adapt_resets (p : local_position) (resets : Z * Z * Z * Z * Z) (sp : Z * position_setpoint) :
    Z * position_setpoint :=
  let '(c_vxy, c_vz, c_xy, c_z, c_heading) := resets in
  let '(t, sp) := sp in
  if t <? lp_timestamp p then
    let vel := sp_vel sp in
    let vel := if vxy_reset_counter p =? c_vxy then vel
               else V3 (fadd (vx vel) (v0 (delta_vxy p))) (fadd (vy vel) (v1 (delta_vxy p))) (vz vel) in
    let vel := if vz_reset_counter p =? c_vz then vel else set_z (fadd (vz vel) (delta_vz p)) vel in
    let pos := sp_pos sp in
    let pos := if xy_reset_counter p =? c_xy then pos
               else V3 (fadd (vx pos) (v0 (delta_xy p))) (fadd (vy pos) (v1 (delta_xy p))) (vz pos) in
    let pos := if z_reset_counter p =? c_z then pos else set_z (fadd (vz pos) (delta_z p)) pos in
    let y := if heading_reset_counter p =? c_heading then sp_yaw sp else fadd (sp_yaw sp) (delta_heading p) in
    (t, Position_setpoint pos y (sp_yawspeed sp) vel (sp_acc sp) (sp_thrust sp))
  else (t, sp).

(** The constraints of the cycle: the climb limit, and the wish to take off in
    offboard mode. *)
Definition asks_takeoff (sp : position_setpoint) (states : control_states) : bool :=
  isfinite (vz (sp_pos sp)) && fltb (vz (sp_pos sp)) (vz (position states))
  || isfinite (vz (sp_vel sp)) && fltb (vz (sp_vel sp)) fzero
  || isfinite (vz (sp_acc sp)) && fltb (vz (sp_acc sp)) fzero.

Definition update_constraints (now : Z) (mode : control_mode) (land : land_detected) (sp : Z * position_setpoint)
    (states : control_states) (c : constraints) : constraints :=
  let up := if negb (isfinite (speed_up c)) || fltb (ESO_Z_VEL_MAX_UP par) (speed_up c)
            then ESO_Z_VEL_MAX_UP par else speed_up c in
  if flag_control_offboard_enabled mode then
    let want := flag_armed mode && landed land && (u64 (now - sp.1) <? 1000000) in
    Constraints (ESO_Z_VEL_MAX_UP par) (ESO_Z_VEL_MAX_DN par) (want && asks_takeoff sp.2 states)
  else Constraints up (speed_down c) (want_takeoff c).

(** Before take-off and in ground contact the setpoint is replaced by one without
    thrust and the integrals are cleared. *)
Definition press_down : position_setpoint :=
  Position_setpoint (sp_pos nan_setpoint) NAN NAN (sp_vel nan_setpoint) (V3 fzero fzero (f_of_Z 100)) (sp_thrust nan_setpoint).

Definition gate_setpoint (updated flying ground_contact : bool) (ts : ESOTakeoffState)
    (sp : position_setpoint) (ctl : pos_control) : position_setpoint * pos_control :=
  if updated then
    let '(sp, ctl) :=
      if flying then (sp, ctl)
      else (Position_setpoint (sp_pos sp) (sp_yaw sp) (sp_yawspeed sp) (sp_vel sp) (set_z NAN (sp_acc sp)) (sp_thrust sp),
            setHoverThrust (ESO_THR_HOVER par) ctl) in
    let not_taken_off := state_value ts <? state_value rampup in
    if not_taken_off || flying && ground_contact then (press_down, resetIntegral ctl) else (sp, ctl)
  else (sp, ctl).

(** Step 21: what is missing is replaced. *)
Definition or_else (x d : float) : float := if isfinite x then x else d.

Definition sanitize (states : control_states) (sp : position_setpoint) : position_setpoint :=
  Position_setpoint (map3_2 or_else (sp_pos sp) (position states)) (or_else (sp_yaw sp) (yaw states))
    (or_else (sp_yawspeed sp) fzero) (map3_2 or_else (sp_vel sp) zero3) (map3_2 or_else (sp_acc sp) zero3) (sp_thrust sp).

(** [fminf] *)
Definition fminf (x y : float) : float :=
  match x, y with S754_nan, _ => y | _, S754_nan => x | _, _ => if fltb y x then y else x end.

(** The blend of the vertical velocity. *)
Definition blend_velocity (sp : position_setpoint) (p : local_position) (states : control_states) : control_states :=
  if negb (isfinite (vz (sp_pos sp))) && isfinite (vz (sp_vel sp)) && fltb FLT_EPSILON (fabs (vz (sp_vel sp)))
     && isfinite (z_deriv p) && z_valid p && v_z_valid p then
    let weighting := fminf (fdiv (fabs (vz (sp_vel sp))) (ESO_LAND_SPEED par)) fone in
    let v := fadd (fmul (z_deriv p) weighting) (fmul (vz (lp_vel p)) (fsub fone weighting)) in
    Control_states (position states) (set_z v (velocity states)) (acceleration states) (yaw states)
  else states.

(** * failsafe *)

(** A message of zeros. *)
Definition zero_setpoint : position_setpoint := Position_setpoint zero3 fzero fzero zero3 zero3 zero3.

(** The setpoint once the hysteresis has fired. *)
Definition failsafe_setpoint (states : control_states) : position_setpoint :=
  let stop := isfinite (vx (velocity states)) && isfinite (vy (velocity states)) in
  let v_xy := if stop then fzero else NAN in
  let a_xy := if stop then NAN else fzero in
  let v_z := if stop then NAN else ESO_LAND_SPEED par in
  let '(v_z, a_z) := if isfinite (vz (velocity states)) then (if isfinite v_z then v_z else fzero, NAN)
                     else (NAN, f_dec 3 10) in
  Position_setpoint (sp_pos nan_setpoint) NAN NAN (V3 v_xy v_xy v_z) (V3 a_xy a_xy a_z) (sp_thrust nan_setpoint).

Definition failsafe (now : Z) (states : control_states) (h : hysteresis) : position_setpoint * bool * hysteresis :=
  let h := set_state_and_update true now h in
  (if Hysteresis._state h then failsafe_setpoint states else zero_setpoint, Hysteresis._state h, h).

(** The second attempt after a failed update. *)
Definition run_failsafe (now : Z) (dt : float) (states : control_states) (m : pos_module) : pos_module :=
  let '(sp, in_failsafe, h) := failsafe now states (m_failsafe m) in
  let ctl := setVelocityLimits (ESO_XY_VEL_MAX par) (ESO_Z_VEL_MAX_UP par) (ESO_Z_VEL_MAX_DN par)
               (setInputSetpoint sp (m_control m)) in
  Pos_module (m_takeoff m) (m_last_loop m) (m_setpoint m) (m_mode m) (Constraints NAN NAN false) (m_land m)
    (m_deriv m) (update dt ctl).2 h (in_failsafe || m_in_failsafe m) (m_tilt m) (m_resets m) (m_com m).

(** * Run *)

Definition zero_attitude_setpoint : attitude_setpoint := Attitude_setpoint (Q fzero fzero fzero fzero) zero3 fzero fzero.

(** The controller with its setpoint, limits and state, ready for the update. *)
Definition prepare (dt : float) (inp : cycle_input) (now : Z) (states : control_states) (m : pos_module) :
    pos_module :=
  let p := in_local_pos inp in
  let setpoint := default (m_setpoint m) (in_setpoint inp) in
  let setpoint := adapt_resets p (m_resets m) setpoint in
  let cons := default (m_constraints m) (in_constraints inp) in
  let cons := update_constraints (in_absolute_time inp) (m_mode m) (m_land m) setpoint states cons in
  let tk := updateTakeoffState (flag_armed (m_mode m)) (landed (m_land m)) (want_takeoff cons) (speed_up cons) false now
              (m_takeoff m) in
  let flying := state_value flight <=? state_value (_takeoff_state tk) in
  let ctl := setESOUpdateEnabled (negb (ESO_POS_ESOGATE par) || flying) (m_control m) in
  let '(sp, ctl) := gate_setpoint (bool_decide (is_Some (in_setpoint inp))) flying (ground_contact (m_land m))
                      (_takeoff_state tk) setpoint.2 ctl in
  let tilt_deg := if state_value (_takeoff_state tk) <? state_value flight then ESO_TILTMAX_LND par else ESO_TILTMAX_AIR par in
  let tilt := slew_update (f_dec 2 10) (fmul tilt_deg (fdiv M_PI (f_of_Z 180))) dt (m_tilt m) in
  let ctl := setTiltLimit tilt ctl in
  let '(up, tk) := updateRamp dt (or_else (speed_up cons) (ESO_Z_VEL_MAX_UP par)) tk in
  let down := or_else (speed_down cons) (ESO_Z_VEL_MAX_DN par) in
  let ctl := setThrustLimits (if flying then ESO_THR_MIN par else fzero) (ESO_THR_MAX par) ctl in
  let ctl := setVelocityLimits (ESO_XY_VEL_MAX par) (fmin up (ESO_Z_VEL_MAX_UP par)) (fmax down fzero) ctl in
  let ctl := setInputSetpoint (sanitize states sp) ctl in
  let ctl := setState (blend_velocity sp p states) ctl in
  Pos_module tk (m_last_loop m) (setpoint.1, sp) (m_mode m) cons (m_land m) (m_deriv m) ctl (m_failsafe m)
    (m_in_failsafe m) tilt (m_resets m) (m_com m).

(** The control part: the update, or the failsafe after a failed one. *)
Definition control_step (dt : float) (now : Z) (states : control_states) (m : pos_module) : pos_module :=
  let '(ok, ctl) := update dt (m_control m) in
  let m := Pos_module (m_takeoff m) (m_last_loop m) (m_setpoint m) (m_mode m) (m_constraints m) (m_land m)
             (m_deriv m) ctl (m_failsafe m) (m_in_failsafe m) (m_tilt m) (m_resets m) (m_com m) in
  if ok then
    Pos_module (m_takeoff m) (m_last_loop m) (m_setpoint m) (m_mode m) (m_constraints m) (m_land m)
      (m_deriv m) (m_control m) (set_state_and_update false now (m_failsafe m)) (m_in_failsafe m) (m_tilt m) (m_resets m) (m_com m)
  else run_failsafe now dt states m.

(** The messages that a cycle publishes on the setpoint topics. *)
Definition outputs : Type := option (position_setpoint * attitude_setpoint).

(** * update_dynamic_parameters *)

Definition DYNAMIC_COM_TIMEOUT : Z := 500000.

(** The centre of mass of the arm: of a valid message, else the last one for a
    time, else the fixed one. *)
Definition update_dynamic_parameters (now : Z) (joints : option (bool * vec3)) (ctl : pos_control) (com : Z * bool) :
    pos_control * (Z * bool) :=
  if negb (use_dynamic_arm_model par) then (setSystemCoM (fallback_com par) ctl, com)
  else
    match joints with
    | Some (false, _) => (setSystemCoM (fallback_com par) ctl, (com.1, false))
    | _ =>
        let '(ctl, com, use_dynamic_com) :=
          match joints with
          | Some (true, c) => if all3 isfinite c then (setSystemCoM c ctl, (now, true), true) else (ctl, com, false)
          | _ => (ctl, com, false)
          end in
        let fresh := com.2 && (u64 (now - com.1) <=? DYNAMIC_COM_TIMEOUT) in
        (if negb use_dynamic_com && negb fresh then setSystemCoM (fallback_com par) ctl else ctl, com)
    end.

(** The topics that only need to be taken over. *)
Definition take_topics (inp : cycle_input) (m : pos_module) : pos_module :=
  let opt {A} (f : A -> pos_control -> pos_control) (x : option A) c := match x with Some a => f a c | None => c end in
  let '(ctl, com) := update_dynamic_parameters (in_absolute_time inp) (in_joints inp) (m_control m) (m_com m) in
  let ctl := opt setAttitude (in_attitude inp) ctl in
  let ctl := opt setBodyRate (in_rate inp) ctl in
  let ctl := match in_hover_thrust inp with
             | Some (true, thrust) => if ESO_USE_HTE par then updateHoverThrust thrust ctl else ctl
             | _ => ctl
             end in
  Pos_module (m_takeoff m) (lp_timestamp_sample (in_local_pos inp)) (m_setpoint m) (default (m_mode m) (in_mode inp))
    (m_constraints m) (default (m_land m) (in_land inp)) (m_deriv m) ctl (m_failsafe m) false (m_tilt m) (m_resets m) com.

Definition cycle_dt (inp : cycle_input) (m : pos_module) : float :=
  fconstrain (fmul (f_of_Z (u64 (lp_timestamp_sample (in_local_pos inp) - m_last_loop m))) (f_dec 1 1000000))
    (f_dec 2 1000) (f_dec 4 100).

Definition with_deriv d (m : pos_module) : pos_module :=
  Pos_module (m_takeoff m) (m_last_loop m) (m_setpoint m) (m_mode m) (m_constraints m) (m_land m) d (m_control m)
    (m_failsafe m) (m_in_failsafe m) (m_tilt m) (m_resets m) (m_com m).
Definition with_takeoff t (m : pos_module) : pos_module :=
  Pos_module t (m_last_loop m) (m_setpoint m) (m_mode m) (m_constraints m) (m_land m) (m_deriv m) (m_control m)
    (m_failsafe m) (m_in_failsafe m) (m_tilt m) (m_resets m) (m_com m).
Definition save_resets (p : local_position) (m : pos_module) : pos_module :=
  Pos_module (m_takeoff m) (m_last_loop m) (m_setpoint m) (m_mode m) (m_constraints m) (m_land m) (m_deriv m)
    (m_control m) (m_failsafe m) (m_in_failsafe m) (m_tilt m)
    (vxy_reset_counter p, vz_reset_counter p, xy_reset_counter p, z_reset_counter p, heading_reset_counter p) (m_com m).

(** The start of a cycle: the topics and the vehicle's state. *)
Definition cycle_start (inp : cycle_input) (m : pos_module) : control_states * pos_module :=
  let dt := cycle_dt inp m in
  let m := take_topics inp m in
  let '(states, d) := set_vehicle_states dt (in_local_pos inp) (m_deriv m) in
  (states, with_deriv d m).

(** A wake-up with a new local position.  Without one (the backup schedule) only
    the parameters and the centre of mass are updated, which is the event PosCycle
    of [ArmDynamics]. *)
Definition Run (inp : cycle_input) (m : pos_module) : outputs * pos_module :=
  let p := in_local_pos inp in
  let now := lp_timestamp_sample p in
  let dt := cycle_dt inp m in
  let '(states, m) := cycle_start inp m in
  if flag_multicopter_position_control_enabled (m_mode m) then
    let m := prepare dt inp now states m in
    let m := control_step dt now (blend_velocity (m_setpoint m).2 p states) m in
    (Some (getLocalPositionSetpoint (m_control m), getAttitudeSetpoint (m_control m) zero_attitude_setpoint),
     save_resets p m)
  else
    (None, save_resets p (with_takeoff (updateTakeoffState (flag_armed (m_mode m)) (landed (m_land m)) false (f_of_Z 10) true now
                                          (m_takeoff m)) m)).

End Module.
