(* ===== verification/EsoAttitude.v ===== *)
(** The attitude controller (src/modules/eso_att_control): the control law of
    ESOAttitudeControl/AttitudeControl.cpp and the part of [Run]
    (eso_att_control_main.cpp) that passes setpoints on to the rate controller. *)

From Stdlib Require Import ZArith Lia.
From stdpp Require Import base list numbers option.
From S2P Require Import Prelude Float32 EsoVector EsoPosition.

Local Open Scope Z_scope.

Record att_control := Att_control {
  _proportional_gain : vec3; _rate_limit : vec3; _yaw_w : float;
  _attitude_setpoint_q : quat; _yawspeed_setpoint : float;
  _omega_r_prev : vec3; _omega_r_dot : vec3; _omega_r_prev_valid : bool;
  _beta_v : vec3;
  _mass_total : float; _com_offset : vec3; _arm_inertia : mat3; _tau_s : vec3
}.

Section Attitude.
Context `{M : Matrix}.
Local Open Scope vec_scope.

(** [Quatf()], the identity. *)
Definition quat_identity : quat := Q fone fzero fzero fzero.

Definition att_control_new : att_control :=
  Att_control zero3 zero3 fzero quat_identity fzero zero3 zero3 false zero3 fzero zero3 zero_mat zero3.

Definition setProportionalGain (gain : vec3) (yaw_weight : float) (c : att_control) : att_control :=
  let w := fconstrain yaw_weight fzero fone in
  let gain := if fltb (f_dec 1 10000) w then set_z (fdiv (vz gain) w) gain else gain in
  Att_control gain (_rate_limit c) w (_attitude_setpoint_q c) (_yawspeed_setpoint c) (_omega_r_prev c) (_omega_r_dot c)
    (_omega_r_prev_valid c) (_beta_v c) (_mass_total c) (_com_offset c) (_arm_inertia c) (_tau_s c).

Definition setRateLimit (rate_limit : vec3) (c : att_control) : att_control :=
  Att_control (_proportional_gain c) rate_limit (_yaw_w c) (_attitude_setpoint_q c) (_yawspeed_setpoint c) (_omega_r_prev c)
    (_omega_r_dot c) (_omega_r_prev_valid c) (_beta_v c) (_mass_total c) (_com_offset c) (_arm_inertia c) (_tau_s c).

Definition set_attitude_q (q : quat) (yawspeed : float) (c : att_control) : att_control :=
  Att_control (_proportional_gain c) (_rate_limit c) (_yaw_w c) q yawspeed (_omega_r_prev c)
    (_omega_r_dot c) (_omega_r_prev_valid c) (_beta_v c) (_mass_total c) (_com_offset c) (_arm_inertia c) (_tau_s c).

Definition setAttitudeSetpoint (qd : quat) (yawspeed_setpoint : float) : att_control -> att_control :=
  set_attitude_q (quat_normalized qd) yawspeed_setpoint.

Definition adaptAttitudeSetpoint (q_delta : quat) (c : att_control) : att_control :=
  set_attitude_q (quat_normalized (quat_mul q_delta (_attitude_setpoint_q c))) (_yawspeed_setpoint c) c.

Definition with_derivative (prev dot : vec3) (valid : bool) (c : att_control) : att_control :=
  Att_control (_proportional_gain c) (_rate_limit c) (_yaw_w c) (_attitude_setpoint_q c) (_yawspeed_setpoint c) prev
    dot valid (_beta_v c) (_mass_total c) (_com_offset c) (_arm_inertia c) (_tau_s c).

Definition resetOmegaRDerivative : att_control -> att_control := with_derivative zero3 zero3 false.

Definition setTauSParameters (mass_total : float) (com_offset : vec3) (arm_inertia : mat3) (c : att_control) : att_control :=
  Att_control (_proportional_gain c) (_rate_limit c) (_yaw_w c) (_attitude_setpoint_q c) (_yawspeed_setpoint c) (_omega_r_prev c)
    (_omega_r_dot c) (_omega_r_prev_valid c) (_beta_v c) mass_total com_offset arm_inertia (_tau_s c).

(** * update *)

Definition finite_or_zero (x : float) : float := if isfinite x then x else fzero.

(** The attitude error of the quaternion, on the short way. *)
Definition attitude_error (q_curr q_target : quat) : vec3 :=
  let q_tilde := quat_of_Dcm (mat_mul (transpose (Dcm q_target)) (Dcm q_curr)) in
  let q_tilde := if fltb (q0 q_tilde) fzero then quat_scale q_tilde (f_of_Z (-1)) else q_tilde in
  V3 (q1 q_tilde) (q2 q_tilde) (q3 q_tilde).

(** The limit of a rate setpoint. *)
Definition limit_rate (limit omega_r : float) : float :=
  if isfinite omega_r then fconstrain omega_r (fneg limit) limit else fzero.

(** One axis of the filtered derivative. *)
Definition derivative_axis (dt limit raw dot : float) : float :=
  let alpha := fconstrain (fdiv dt (fadd (f_dec 2 100) dt)) fzero fone in
  let max_omega_r_dot := fmax (fdiv limit (f_dec 1 10)) fone in
  let limited := if isfinite raw then fconstrain raw (fneg max_omega_r_dot) max_omega_r_dot else fzero in
  fadd dot (fmul alpha (fsub limited dot)).

(** The reference rates: feed-forward of the yaw speed and attitude error. *)
Definition reference_rates (q_curr q_target : quat) (c : att_control) : vec3 * vec3 :=
  let R := Dcm q_curr in
  let target_omega_world :=
    V3 fzero fzero (if isfinite (_yawspeed_setpoint c) then _yawspeed_setpoint c else fzero) in
  let beta_v := attitude_error q_curr q_target in
  let beta_v := if fltb (f_dec 1 10000) (_yaw_w c) then set_z (fmul (vz beta_v) (_yaw_w c)) beta_v else beta_v in
  let omega_r := mat_vec (transpose R) target_omega_world - _proportional_gain c ** beta_v * f_of_Z 2 in
  (map3_2 limit_rate (_rate_limit c) omega_r, beta_v).

Definition gravity_torque (q_curr : quat) (c : att_control) : vec3 :=
  let g_body := mat_vec (transpose (Dcm q_curr)) (V3 fzero fzero (f_dec 981 100)) in
  map3 finite_or_zero (v3_cross (_com_offset c) g_body * _mass_total c).

(** The measured rates enter only a term that the fork has removed. *)
Definition att_update (q : quat) (omega : vec3) (dt : float) (c : att_control) : vec3 * att_control :=
  let q_curr := if fltb fzero (quat_norm_squared q) then quat_normalized q else quat_identity in
  let q_sp := _attitude_setpoint_q c in
  let q_target := if fltb fzero (quat_norm_squared q_sp) then quat_normalized q_sp else q_sp in
  let '(omega_r, beta_v) := reference_rates q_curr q_target c in
  let tau_s := gravity_torque q_curr c in
  let '(prev, dot) :=
    if negb (_omega_r_prev_valid c) then (omega_r, zero3)
    else if isfinite dt && fltb (f_dec 1 10000) dt then
      let raw := v3_div (omega_r - _omega_r_prev c) dt in
      (omega_r, map3_3 (derivative_axis dt) (_rate_limit c) raw (_omega_r_dot c))
    else (omega_r, zero3) in
  (omega_r, Att_control (_proportional_gain c) (_rate_limit c) (_yaw_w c) (_attitude_setpoint_q c) (_yawspeed_setpoint c)
              prev dot true beta_v (_mass_total c) (_com_offset c) (_arm_inertia c) tau_s).

(** * Run *)

(** vehicle_rates_setpoint and eso_rate_aux. *)
Record rates_setpoint := Rates_setpoint { rs_rates : vec3; rs_thrust_body : vec3 }.
Record rate_aux := Rate_aux { aux_timestamp : Z; aux_omega_r_dot : vec3; aux_beta_v : vec3; aux_tau_s : vec3 }.

(** The flags of vehicle_control_mode that the module reads. *)
Record att_mode := Att_mode {
  am_armed : bool; am_manual : bool; am_attitude : bool; am_altitude : bool; am_velocity : bool; am_position : bool
}.

Record att_module := Att_module {
  a_control : att_control; a_thrust : vec3; a_last_run : Z; a_last_setpoint : Z; a_quat_reset : Z;
  a_mode : att_mode; a_rotary : bool; a_transition : bool; a_tailsitter : bool;
  a_was_armed : bool; a_was_run : bool
}.

(** A new attitude and the topics with it; a manual setpoint, which
    generate_attitude_setpoint makes from the sticks, is an input. *)
Record att_input := Att_input {
  ai_timestamp : Z; ai_timestamp_sample : Z; ai_q : quat; ai_quat_reset : Z; ai_delta_q : quat;
  ai_omega : vec3;
  ai_setpoint : option (Z * attitude_setpoint);
  ai_mode : option att_mode; ai_status : option (bool * bool);  (* rotary wing, in transition *)
  ai_manual : Z * attitude_setpoint;
  ai_now : Z
}.

(** A setpoint is taken over with its thrust. *)
Definition take_setpoint (t : Z) (sp : attitude_setpoint) (m : att_module) : att_module :=
  Att_module (setAttitudeSetpoint (q_d sp) (yaw_sp_move_rate sp) (a_control m)) (V3 fzero fzero (thrust_body_z sp))
    (a_last_run m) t (a_quat_reset m) (a_mode m) (a_rotary m) (a_transition m) (a_tailsitter m) (a_was_armed m) (a_was_run m).

Definition with_control (c : att_control) (m : att_module) : att_module :=
  Att_module c (a_thrust m) (a_last_run m) (a_last_setpoint m) (a_quat_reset m) (a_mode m) (a_rotary m) (a_transition m)
    (a_tailsitter m) (a_was_armed m) (a_was_run m).

(** New setpoint, heading reset and the other topics. *)
Definition att_topics (inp : att_input) (m : att_module) : att_module :=
  let m := match ai_setpoint inp with
           | Some (t, sp) => if a_last_setpoint m <? t then take_setpoint t sp m else m
           | None => m
           end in
  let c := if negb (ai_quat_reset inp =? a_quat_reset m) && (a_last_setpoint m <? ai_timestamp inp)
           then adaptAttitudeSetpoint (ai_delta_q inp) (a_control m) else a_control m in
  let '(rotary, transition) := default (a_rotary m, a_transition m) (ai_status inp) in
  Att_module c (a_thrust m) (ai_timestamp_sample inp) (a_last_setpoint m) (ai_quat_reset inp)
    (default (a_mode m) (ai_mode inp)) rotary transition (a_tailsitter m) (a_was_armed m) (a_was_run m).

(** The derivative is reset while disarmed and at the changes of the mode. *)
Definition att_derivative (run : bool) (m : att_module) : att_module :=
  let armed := am_armed (a_mode m) in
  let c := if negb armed || (negb (a_was_armed m) && armed) || (negb (a_was_run m) && run) || (a_was_run m && negb run)
           then resetOmegaRDerivative (a_control m) else a_control m in
  Att_module c (a_thrust m) (a_last_run m) (a_last_setpoint m) (a_quat_reset m) (a_mode m) (a_rotary m) (a_transition m)
    (a_tailsitter m) armed run.

Definition att_run (inp : att_input) (m : att_module) : option (rates_setpoint * rate_aux) * att_module :=
  let dt := fconstrain (fmul (f_of_Z (u64 (ai_timestamp_sample inp - a_last_run m))) (f_dec 1 1000000))
              (f_dec 2 10000) (f_dec 2 100) in
  let m := att_topics inp m in
  let hovering := a_rotary m && negb (a_transition m) in
  let run := am_attitude (a_mode m) && (hovering || (a_tailsitter m && a_transition m)) in
  let m := att_derivative run m in
  if run then
    let mode := a_mode m in
    let m := if am_manual mode && negb (am_altitude mode) && negb (am_velocity mode) && negb (am_position mode)
             then take_setpoint (ai_manual inp).1 (ai_manual inp).2 m else m in
    let '(rates, c) := att_update (ai_q inp) (ai_omega inp) dt (a_control m) in
    (Some (Rates_setpoint rates (a_thrust m), Rate_aux (ai_now inp) (_omega_r_dot c) (_beta_v c) (_tau_s c)),
     with_control c m)
  else (None, m).

End Attitude.
