(* ===== verification/EsoRate.v ===== *)
(** The rate controller (src/modules/eso_rate_control): the observer
    (AttitudeESO.cpp), the control law (RateControl.cpp) and the cycle of [Run]
    (ESOMulticopterRateControl.cpp), from the gyro sample to the published torque
    and throttle. *)

From Stdlib Require Import ZArith Lia SpecFloat.
From stdpp Require Import base list numbers option.
From S2P Require Import Prelude Float32 EsoVector EsoAttitude.

Local Open Scope Z_scope.

(** * AttitudeESO *)

Record attitude_eso := Attitude_eso {
  bandwidth_ : vec3; beta1_ : vec3; beta2_ : vec3; z1_est_omega_ : vec3; z2_est_dist_ : vec3
}.

(** The saturation flags of an axis. *)
Definition flags := axis -> bool.
Definition no_flags : flags := fun _ => false.

(** * ESORateControl *)

(** What the parameters set. *)
Record rate_config := Rate_config {
  _gain_p : vec3; _gain_i : vec3; _gain_d : vec3; _gain_ff : vec3; _lim_int : vec3;
  _inertia : mat3; _inertia_inv : mat3;
  _k_beta : float; _max_torque : float; _integral_scale : float;
  _tau_s_scale : float; _tau_s_axis_scale : vec3; _tau_s_obs_axis_scale : vec3; _tau_s_ctrl_axis_scale : vec3;
  _tau_s_limit_nm : float; _tau_s_filter_tau : float
}.

(** The state: observer, integral, filter, last torque, and the inputs of the
    attitude controller and of the allocator.  The copies kept for debug prints
    are left out. *)
Record rate_state := Rate_state {
  _rate_eso : attitude_eso; _rate_int : vec3; _last_torque : vec3;
  _tau_s_filtered : vec3; _tau_s_filter_valid : bool;
  _aux_omega_r_dot : vec3; _aux_beta_v : vec3; _aux_tau_s : vec3;
  _saturation_positive : flags; _saturation_negative : flags
}.

Record rate_control := Rate_control { rc_cfg : rate_config; rc_st : rate_state }.

Section Rate.
Context `{M : Matrix}.
Local Open Scope vec_scope.

Definition attitude_eso_new (wp_x wp_y wp_z : float) : attitude_eso :=
  let bandwidth := V3 wp_x wp_y wp_z in
  Attitude_eso bandwidth (bandwidth * f_of_Z 2) (bandwidth ** bandwidth) zero3 zero3.

Definition attitude_eso_reset (e : attitude_eso) : attitude_eso :=
  Attitude_eso (bandwidth_ e) (beta1_ e) (beta2_ e) zero3 zero3.

(** The new state; its [z2_est_dist_] is the returned disturbance. *)
Definition attitude_eso_update (omega_meas u_input : vec3) (dt : float) (e : attitude_eso) : attitude_eso :=
  let err := omega_meas - z1_est_omega_ e in
  let z1_dot := u_input + z2_est_dist_ e + beta1_ e ** err in
  let z2_dot := beta2_ e ** err in
  Attitude_eso (bandwidth_ e) (beta1_ e) (beta2_ e) (z1_est_omega_ e + z1_dot * dt) (z2_est_dist_ e + z2_dot * dt).

(** ** Setters *)

Definition on_cfg f (c : rate_control) : rate_control := Rate_control (f (rc_cfg c)) (rc_st c).
Definition on_st f (c : rate_control) : rate_control := Rate_control (rc_cfg c) (f (rc_st c)).

Definition setGains (P I D : vec3) : rate_control -> rate_control :=
  on_cfg (fun g => Rate_config P I D (_gain_ff g) (_lim_int g) (_inertia g) (_inertia_inv g) (_k_beta g) (_max_torque g)
    (_integral_scale g) (_tau_s_scale g) (_tau_s_axis_scale g) (_tau_s_obs_axis_scale g) (_tau_s_ctrl_axis_scale g)
    (_tau_s_limit_nm g) (_tau_s_filter_tau g)).
Definition setIntegratorLimit (limit : vec3) : rate_control -> rate_control :=
  on_cfg (fun g => Rate_config (_gain_p g) (_gain_i g) (_gain_d g) (_gain_ff g) limit (_inertia g) (_inertia_inv g) (_k_beta g)
    (_max_torque g) (_integral_scale g) (_tau_s_scale g) (_tau_s_axis_scale g) (_tau_s_obs_axis_scale g)
    (_tau_s_ctrl_axis_scale g) (_tau_s_limit_nm g) (_tau_s_filter_tau g)).
Definition setFeedForwardGain (FF : vec3) : rate_control -> rate_control :=
  on_cfg (fun g => Rate_config (_gain_p g) (_gain_i g) (_gain_d g) FF (_lim_int g) (_inertia g) (_inertia_inv g) (_k_beta g)
    (_max_torque g) (_integral_scale g) (_tau_s_scale g) (_tau_s_axis_scale g) (_tau_s_obs_axis_scale g)
    (_tau_s_ctrl_axis_scale g) (_tau_s_limit_nm g) (_tau_s_filter_tau g)).
Definition set_inertia (m inv : mat3) : rate_control -> rate_control :=
  on_cfg (fun g => Rate_config (_gain_p g) (_gain_i g) (_gain_d g) (_gain_ff g) (_lim_int g) m inv (_k_beta g) (_max_torque g)
    (_integral_scale g) (_tau_s_scale g) (_tau_s_axis_scale g) (_tau_s_obs_axis_scale g) (_tau_s_ctrl_axis_scale g)
    (_tau_s_limit_nm g) (_tau_s_filter_tau g)).
Definition set_scalars (k_beta max_torque integral_scale tau_s_scale limit filter : float) : rate_control -> rate_control :=
  on_cfg (fun g => Rate_config (_gain_p g) (_gain_i g) (_gain_d g) (_gain_ff g) (_lim_int g) (_inertia g) (_inertia_inv g)
    k_beta max_torque integral_scale tau_s_scale (_tau_s_axis_scale g) (_tau_s_obs_axis_scale g) (_tau_s_ctrl_axis_scale g)
    limit filter).
Definition set_scales (s obs ctrl : vec3) : rate_control -> rate_control :=
  on_cfg (fun g => Rate_config (_gain_p g) (_gain_i g) (_gain_d g) (_gain_ff g) (_lim_int g) (_inertia g) (_inertia_inv g) (_k_beta g)
    (_max_torque g) (_integral_scale g) (_tau_s_scale g) s obs ctrl (_tau_s_limit_nm g) (_tau_s_filter_tau g)).

Definition diag (x y z : float) : mat3 := M3 (V3 x fzero fzero) (V3 fzero y fzero) (V3 fzero fzero z).
Definition not_tiny (x : float) : bool := fltb (f_dec 1 1000000) (fabs x).
Definition inverse_diag (x y z : float) : mat3 := diag (fdiv fone x) (fdiv fone y) (fdiv fone z).

Definition setInertiaDiagonal (d : vec3) (c : rate_control) : rate_control :=
  let ok := not_tiny (vx d) && not_tiny (vy d) && not_tiny (vz d) in
  set_inertia (diag (vx d) (vy d) (vz d)) (if ok then inverse_diag (vx d) (vy d) (vz d) else zero_mat) c.

(** A singular matrix falls back to its diagonal, or keeps the old inverse. *)
Definition setInertiaMatrix (inertia : mat3) (c : rate_control) : rate_control :=
  let x := vx (row0 inertia) in let y := vy (row1 inertia) in let z := vz (row2 inertia) in
  let inv := match mat_inverse inertia with
             | Some inv => inv
             | None => if not_tiny x && not_tiny y && not_tiny z then inverse_diag x y z else _inertia_inv (rc_cfg c)
             end in
  set_inertia inertia inv c.

(** [PX4_ISFINITE(val) && val >= 0.f] *)
Definition nonneg (x : float) : bool := isfinite x && fleb fzero x.
Definition guarded (ok : bool) (new old : float) : float := if ok then new else old.

Definition with_eso (e : attitude_eso) : rate_control -> rate_control :=
  on_st (fun s => Rate_state e (_rate_int s) (_last_torque s) (_tau_s_filtered s) (_tau_s_filter_valid s)
    (_aux_omega_r_dot s) (_aux_beta_v s) (_aux_tau_s s) (_saturation_positive s) (_saturation_negative s)).

Definition setESOBandwidth (bandwidth : vec3) : rate_control -> rate_control :=
  let safe x := guarded (nonneg x) x fzero in
  with_eso (attitude_eso_new (safe (vx bandwidth)) (safe (vy bandwidth)) (safe (vz bandwidth))).

Definition setKBeta (x : float) (c : rate_control) : rate_control :=
  let g := rc_cfg c in
  set_scalars (guarded (nonneg x) x (_k_beta g)) (_max_torque g) (_integral_scale g) (_tau_s_scale g) (_tau_s_limit_nm g)
    (_tau_s_filter_tau g) c.
Definition setMaxTorque (x : float) (c : rate_control) : rate_control :=
  let g := rc_cfg c in
  set_scalars (_k_beta g) (guarded (isfinite x && fltb (f_dec 1 1000) x) x (_max_torque g)) (_integral_scale g) (_tau_s_scale g)
    (_tau_s_limit_nm g) (_tau_s_filter_tau g) c.
Definition setIntegralScale (x : float) (c : rate_control) : rate_control :=
  let g := rc_cfg c in
  set_scalars (_k_beta g) (_max_torque g) (guarded (nonneg x) x (_integral_scale g)) (_tau_s_scale g) (_tau_s_limit_nm g)
    (_tau_s_filter_tau g) c.
Definition setTauSScale (x : float) (c : rate_control) : rate_control :=
  let g := rc_cfg c in
  set_scalars (_k_beta g) (_max_torque g) (_integral_scale g) (guarded (nonneg x) x (_tau_s_scale g)) (_tau_s_limit_nm g)
    (_tau_s_filter_tau g) c.
Definition setTauSLimitNm (x : float) (c : rate_control) : rate_control :=
  let g := rc_cfg c in
  set_scalars (_k_beta g) (_max_torque g) (_integral_scale g) (_tau_s_scale g) (guarded (nonneg x) x (_tau_s_limit_nm g))
    (_tau_s_filter_tau g) c.
Definition setTauSFilterTimeConstant (x : float) (c : rate_control) : rate_control :=
  let g := rc_cfg c in
  set_scalars (_k_beta g) (_max_torque g) (_integral_scale g) (_tau_s_scale g) (_tau_s_limit_nm g)
    (guarded (nonneg x) x (_tau_s_filter_tau g)) c.

Definition finite_or (new old : float) : float := if isfinite new then new else old.
Definition setTauSAxisScale (v : vec3) (c : rate_control) : rate_control :=
  let g := rc_cfg c in
  set_scales (map3_2 finite_or v (_tau_s_axis_scale g)) (_tau_s_obs_axis_scale g) (_tau_s_ctrl_axis_scale g) c.
Definition setTauSObserverAxisScale (v : vec3) (c : rate_control) : rate_control :=
  let g := rc_cfg c in
  set_scales (_tau_s_axis_scale g) (map3_2 finite_or v (_tau_s_obs_axis_scale g)) (_tau_s_ctrl_axis_scale g) c.
Definition setTauSControlAxisScale (v : vec3) (c : rate_control) : rate_control :=
  let g := rc_cfg c in
  set_scales (_tau_s_axis_scale g) (_tau_s_obs_axis_scale g) (map3_2 finite_or v (_tau_s_ctrl_axis_scale g)) c.

Definition setSaturationStatus (positive negative : flags) : rate_control -> rate_control :=
  on_st (fun s => Rate_state (_rate_eso s) (_rate_int s) (_last_torque s) (_tau_s_filtered s) (_tau_s_filter_valid s)
    (_aux_omega_r_dot s) (_aux_beta_v s) (_aux_tau_s s) positive negative).
Definition setAttitudeAux (omega_r_dot beta_v tau_s : vec3) : rate_control -> rate_control :=
  on_st (fun s => Rate_state (_rate_eso s) (_rate_int s) (_last_torque s) (_tau_s_filtered s) (_tau_s_filter_valid s)
    omega_r_dot beta_v tau_s (_saturation_positive s) (_saturation_negative s)).
Definition rate_resetIntegral : rate_control -> rate_control :=
  on_st (fun s => Rate_state (_rate_eso s) zero3 (_last_torque s) (_tau_s_filtered s) (_tau_s_filter_valid s)
    (_aux_omega_r_dot s) (_aux_beta_v s) (_aux_tau_s s) (_saturation_positive s) (_saturation_negative s)).
Definition resetESO : rate_control -> rate_control :=
  on_st (fun s => Rate_state (attitude_eso_reset (_rate_eso s)) (_rate_int s) zero3 (_tau_s_filtered s) (_tau_s_filter_valid s)
    zero3 zero3 zero3 (_saturation_positive s) (_saturation_negative s)).

(** The members as the class initialises them. *)
Definition rate_control_new : rate_control :=
  let m := diag (f_dec 45 1000) (f_dec 45 1000) (f_dec 8 100) in
  let ones := V3 fone fone fone in
  Rate_control
    (Rate_config zero3 zero3 zero3 zero3 zero3 m (default zero_mat (mat_inverse m)) (f_dec 1 2) (f_dec 3 2) (f_dec 1 5) fzero ones ones ones
       (f_dec 3 10) (f_dec 1 10))
    (Rate_state (attitude_eso_new (f_of_Z 30) (f_of_Z 30) (f_of_Z 30)) zero3 zero3 zero3 false zero3 zero3 zero3 no_flags no_flags).

(** ** The integral *)

(** [math::radians(400.f)] *)
Definition RADIANS_400 : float := fmul (f_of_Z 400) (fdiv (S754_finite false 13176795 (-22)) (f_of_Z 180)).

Definition integral_axis (sat_pos sat_neg : bool) (gain_i lim dt rate_error rate_int : float) : float :=
  let e := if sat_pos then fmin rate_error fzero else rate_error in
  let e := if sat_neg then fmax e fzero else e in
  let i_factor := fdiv e RADIANS_400 in
  let i_factor := fmax fzero (fsub fone (fmul i_factor i_factor)) in
  let rate_i := fadd rate_int (fmul (fmul (fmul i_factor gain_i) e) dt) in
  if isfinite rate_i then fconstrain rate_i (fneg lim) lim else rate_int.

Definition updateIntegral (rate_error : vec3) (dt : float) (g : rate_config) (s : rate_state) : vec3 :=
  vec_of (fun a => integral_axis (_saturation_positive s a) (_saturation_negative s a) (get a (_gain_i g)) (get a (_lim_int g)) dt
                     (get a rate_error) (get a (_rate_int s))).

(** ** The compensation torque *)

(** The limited and filtered torque of the attitude controller, the state of the
    filter and whether it is valid. *)
Definition filter_tau_s (g : rate_config) (tau_s : vec3) (dt : float) (landed : bool) (filtered : vec3) (valid : bool) :
    vec3 * vec3 * bool :=
  let scale := fconstrain (_tau_s_scale g) fzero fone in
  let limit := fmax (_tau_s_limit_nm g) fzero in
  let base := map3 (fun x => fconstrain x (fneg limit) limit) tau_s * scale ** _tau_s_axis_scale g in
  if landed || fleb scale FLT_EPSILON || fleb limit FLT_EPSILON then (zero3, zero3, false)
  else if negb valid || negb (isfinite dt) || fleb dt (f_dec 1 1000000) || fleb (_tau_s_filter_tau g) FLT_EPSILON
  then (base, base, true)
  else
    let alpha := fconstrain (fdiv dt (fadd (_tau_s_filter_tau g) dt)) fzero fone in
    let filtered := filtered + (base - filtered) * alpha in
    (filtered, filtered, valid).

(** ** update *)

(** The torque law, of the rates, the error and the terms computed before. *)
Definition torque_law (g : rate_config) (omega e_omega omega_r_dot beta_v disturbance_hat tau_s_ctrl rate_int : vec3) : vec3 :=
  let coriolis_term := v3_cross omega (mat_vec (_inertia g) omega) in
  let inertia_term := mat_vec (_inertia g) (omega_r_dot - disturbance_hat) in
  let feedback_term := _gain_p g ** e_omega in
  let integral_term := rate_int * _integral_scale g in
  let beta_term := v3_neg beta_v * _k_beta g in
  inertia_term + coriolis_term + feedback_term + beta_term + integral_term - tau_s_ctrl.

Definition normalize_torque (max_torque : float) (torque : vec3) : vec3 :=
  map3 (fun x => fconstrain (fdiv x max_torque) (f_of_Z (-1)) fone) torque.

(** [angular_accel] is not used by the fork. *)
Definition rate_update (rate rate_sp : vec3) (dt : float) (landed : bool) (c : rate_control) : vec3 * rate_control :=
  let g := rc_cfg c in let s := rc_st c in
  let max_torque := fmax (_max_torque g) (f_dec 1 1000) in
  let omega_r_dot := map3 finite_or_zero (_aux_omega_r_dot s) in
  let beta_v := map3 finite_or_zero (_aux_beta_v s) in
  let tau_s := map3 finite_or_zero (_aux_tau_s s) in
  let '(tau_s_base, filtered, valid) := filter_tau_s g tau_s dt landed (_tau_s_filtered s) (_tau_s_filter_valid s) in
  let tau_s_obs := tau_s_base ** _tau_s_obs_axis_scale g in
  let tau_s_ctrl := tau_s_base ** _tau_s_ctrl_axis_scale g in
  let e_omega := rate_sp - rate in
  let coriolis_term := v3_cross rate (mat_vec (_inertia g) rate) in
  let eso := if landed then attitude_eso_reset (_rate_eso s)
             else attitude_eso_update rate (mat_vec (_inertia_inv g) (_last_torque s - coriolis_term + tau_s_obs)) dt (_rate_eso s) in
  let disturbance_hat := if landed then zero3 else z2_est_dist_ eso in
  let rate_int := if landed then zero3
                  else if isfinite dt && fltb (f_dec 1 1000000) dt then updateIntegral e_omega dt g s else _rate_int s in
  let torque := torque_law g rate e_omega omega_r_dot beta_v disturbance_hat tau_s_ctrl rate_int in
  let torque_norm := normalize_torque max_torque torque in
  let last_torque := if landed then zero3 else torque_norm * max_torque in
  (torque_norm, Rate_control g (Rate_state eso rate_int last_torque (if landed then zero3 else filtered) (negb landed && valid)
                  (_aux_omega_r_dot s) (_aux_beta_v s) (_aux_tau_s s) (_saturation_positive s) (_saturation_negative s))).

(** * Run *)

Definition expo (value e : float) : float :=
  let x := fconstrain value (f_of_Z (-1)) fone in
  let ec := fconstrain e fzero fone in
  fadd (fmul (fsub fone ec) x) (fmul (fmul (fmul ec x) x) x).
Definition superexpo (value e g : float) : float :=
  let x := fconstrain value (f_of_Z (-1)) fone in
  let gc := fconstrain g fzero (f_dec 99 100) in
  fdiv (fmul (expo x e) (fsub fone gc)) (fsub fone (fmul (fabs x) gc)).

Record rate_params := Rate_params {
  ACRO_EXPO : float; ACRO_SUPEXPO : float; ACRO_EXPO_Y : float; ACRO_SUPEX_Y : float; acro_rate_max : vec3;
  BAT_SCALE_EN : bool; circuit_breaker : bool
}.

Record rate_mode := Rate_mode {
  rm_armed : bool; rm_manual : bool; rm_attitude : bool; rm_rates : bool; rm_termination : bool
}.
Record rate_land := Rate_land { rl_landed : bool; rl_maybe_landed : bool; rl_ground_contact : bool; rl_has_low_throttle : bool }.
Record sticks := Sticks { stick_x : float; stick_y : float; stick_z : float; stick_r : float }.

Record rate_module := Rate_module {
  r_control : rate_control; r_rates_sp : vec3; r_thrust_sp : float; r_last_run : Z; r_last_aux : Z;
  r_mode : rate_mode; r_land : rate_land; r_rotary : bool; r_is_vtol : bool; r_battery_scale : float
}.

Record rate_input := Rate_input {
  ri_now : Z; ri_rates : vec3; ri_inertia : option mat3; (* set by update_dynamic_parameters *)
  ri_mode : option rate_mode; ri_land : option rate_land; ri_status : option (bool * bool);  (* rotary wing, VTOL *)
  ri_sticks : option sticks; ri_setpoint : option rates_setpoint; ri_aux : option rate_aux;
  ri_allocator : option (bool * vec3);  (* torque achieved, unallocated torque *)
  ri_battery : option (bool * float)    (* connected, scale *)
}.

Definition ESO_AUX_TIMEOUT : Z := 100000.

(** The outputs: the actuator controls roll, pitch, yaw and throttle (the landing
    gear is left out), and the torque and thrust setpoints where they are sent. *)
Record rate_output := Rate_output { controls : vec3; throttle : float; torque_thrust : option (vec3 * float) }.

(** The rate and thrust setpoint of the cycle. *)
Definition rates_setpoints (par : rate_params) (inp : rate_input) (m : rate_module) : vec3 * float :=
  if rm_manual (r_mode m) && negb (rm_attitude (r_mode m)) then
    match ri_sticks inp with
    | Some k =>
        (v3_emult (V3 (superexpo (stick_y k) (ACRO_EXPO par) (ACRO_SUPEXPO par))
                      (superexpo (fneg (stick_x k)) (ACRO_EXPO par) (ACRO_SUPEXPO par))
                      (superexpo (stick_r k) (ACRO_EXPO_Y par) (ACRO_SUPEX_Y par))) (acro_rate_max par),
         fconstrain (stick_z k) fzero fone)
    | None => (r_rates_sp m, r_thrust_sp m)
    end
  else
    match ri_setpoint inp with
    | Some sp => (map3_2 finite_or (rs_rates sp) (ri_rates inp), fneg (vz (rs_thrust_body sp)))
    | None => (r_rates_sp m, r_thrust_sp m)
    end.

(** The additional inputs of the attitude controller, if they are fresh: the age
    is the difference of two unsigned time stamps. *)
Definition attitude_aux (inp : rate_input) (m : rate_module) : rate_control * Z :=
  let '(c, last) :=
    match ri_aux inp with
    | Some aux =>
        (if u64 (ri_now inp - aux_timestamp aux) <=? ESO_AUX_TIMEOUT
         then setAttitudeAux (aux_omega_r_dot aux) (aux_beta_v aux) (aux_tau_s aux) (r_control m) else r_control m,
         aux_timestamp aux)
    | None => (r_control m, r_last_aux m)
    end in
  (if (last =? 0) || (ESO_AUX_TIMEOUT <? u64 (ri_now inp - last)) then setAttitudeAux zero3 zero3 zero3 c else c, last).

(** The feedback of the control allocator. *)
Definition allocator_flags (achieved : bool) (unallocated : vec3) : flags * flags :=
  if achieved then (no_flags, no_flags)
  else (fun a => fltb FLT_EPSILON (get a unallocated),
        fun a => negb (fltb FLT_EPSILON (get a unallocated)) && fltb (get a unallocated) (fneg FLT_EPSILON)).

Definition eso_ground_guard (m : rate_module) : bool :=
  negb (rm_armed (r_mode m)) || negb (r_rotary m) || rl_landed (r_land m) || rl_maybe_landed (r_land m)
  || rl_ground_contact (r_land m) || rl_has_low_throttle (r_land m).

(** What is published: no NaN, and scaled by the battery. *)
Definition rate_outputs (par : rate_params) (att_control : vec3) (thrust_sp scale : float) (is_vtol : bool) : rate_output :=
  let safe := map3 finite_or_zero att_control in
  let thr := finite_or_zero thrust_sp in
  let scaled x := if BAT_SCALE_EN par && fltb fzero scale then fmul x scale else x in
  Rate_output (map3 scaled safe) (scaled thr)
    (if is_vtol then None else Some (safe, if isfinite thrust_sp then fneg thrust_sp else fzero)).

Definition battery_scale (par : rate_params) (inp : rate_input) (m : rate_module) : float :=
  match ri_battery inp with
  | Some (true, scale) => if BAT_SCALE_EN par && fltb fzero scale then scale else r_battery_scale m
  | _ => r_battery_scale m
  end.

Definition rate_topics (inp : rate_input) (m : rate_module) : rate_module :=
  let c := match ri_inertia inp with Some i => setInertiaMatrix i (r_control m) | None => r_control m end in
  let '(rotary, vtol) := default (r_rotary m, r_is_vtol m) (ri_status inp) in
  Rate_module c (r_rates_sp m) (r_thrust_sp m) (ri_now inp) (r_last_aux m) (default (r_mode m) (ri_mode inp))
    (default (r_land m) (ri_land inp)) rotary vtol (r_battery_scale m).

Definition with_inputs (sp : vec3) (thr : float) (c : rate_control) (last_aux : Z) (m : rate_module) : rate_module :=
  Rate_module c sp thr (r_last_run m) last_aux (r_mode m) (r_land m) (r_rotary m) (r_is_vtol m) (r_battery_scale m).

(** The controller with the allocator's feedback, reset on the ground. *)
Definition guarded_control (inp : rate_input) (m : rate_module) : rate_control :=
  let c := if eso_ground_guard m then resetESO (rate_resetIntegral (r_control m)) else r_control m in
  match ri_allocator inp with
  | Some (achieved, unallocated) => let '(pos, neg) := allocator_flags achieved unallocated in setSaturationStatus pos neg c
  | None => c
  end.

Definition cycle_rate_dt (inp : rate_input) (m : rate_module) : float :=
  fconstrain (fmul (f_of_Z (u64 (ri_now inp - r_last_run m))) (f_dec 1 1000000)) (f_dec 125 1000000) (f_dec 2 100).

Definition rate_run (par : rate_params) (inp : rate_input) (m : rate_module) : option rate_output * rate_module :=
  let dt := cycle_rate_dt inp m in
  let m := rate_topics inp m in
  let '(sp, thr) := rates_setpoints par inp m in
  let '(c, last_aux) := attitude_aux inp m in
  let m := with_inputs sp thr c last_aux m in
  if rm_rates (r_mode m) && negb (circuit_breaker par) then
    let '(att, c) := rate_update (ri_rates inp) sp dt (eso_ground_guard m) (guarded_control inp m) in
    let scale := battery_scale par inp m in
    (Some (rate_outputs par att thr scale (r_is_vtol m)),
     Rate_module c sp thr (r_last_run m) last_aux (r_mode m) (r_land m) (r_rotary m) (r_is_vtol m) scale)
  else
    (if rm_termination (r_mode m) && negb (r_is_vtol m) then Some (Rate_output zero3 fzero None) else None, m).

End Rate.
