(* ===== verification/EsoSafety.v ===== *)
(** Theorems about the attitude and rate controllers ([EsoAttitude], [EsoRate])
    and about the three controllers together: what is published is a number inside
    the limits, whatever comes in; and what happens when the position controller
    has nothing to give. *)

From Stdlib Require Import ZArith Lia SpecFloat.
From stdpp Require Import base list numbers option.
From S2P Require Import Prelude Float32 EsoVector Hysteresis EsoTakeoff EsoPosition EsoPositionSafety EsoPosModule EsoAttitude EsoRate.

Local Open Scope Z_scope.

(** A number inside the interval. *)
Definition bounded (lo hi x : float) : Prop := isfinite x = true /\ within lo hi x.

Lemma constrain_bounded x lo hi :
  isfinite x = true -> isfinite lo = true -> isfinite hi = true -> fltb hi lo = false -> bounded lo hi (fconstrain x lo hi).
Proof.
  intros Hx Hlo Hhi H. split; [|by apply constrain_within]. unfold fconstrain. by repeat case_match.
Qed.

Lemma zero_bounded lim : isfinite lim = true -> fleb fzero lim = true -> bounded (fneg lim) lim fzero.
Proof. intros Hf Hl. split; [done|]. by apply zero_within. Qed.

Lemma neg_finite x : isfinite x = true -> isfinite (fneg x) = true.
Proof. by destruct x. Qed.

(** * The attitude controller *)

Section Attitude.
Context `{M : Matrix}.

Lemma limit_rate_bounded lim x : isfinite lim = true -> fleb fzero lim = true -> bounded (fneg lim) lim (limit_rate lim x).
Proof.
  intros Hf Hl. unfold limit_rate. destruct (isfinite x) eqn:E; [|by apply zero_bounded].
  apply constrain_bounded; [done|by apply neg_finite|done|]. by apply zero_within.
Qed.

(** C26: the attitude controller always asks for rates that are numbers inside the
    rate limits, whatever the attitude, its setpoint, the gains and the feed-forward
    are (NaN among them), and the compensation torque it passes on is a number. *)
Theorem rates_in_limits (q : quat) (omega : vec3) (dt : float) (c : att_control) (a : axis) :
  isfinite (get a (_rate_limit c)) = true -> fleb fzero (get a (_rate_limit c)) = true ->
  bounded (fneg (get a (_rate_limit c))) (get a (_rate_limit c)) (get a (att_update q omega dt c).1)
  /\ isfinite (get a (_tau_s (att_update q omega dt c).2)) = true.
Proof.
  intros Hf Hl. unfold att_update. cbv zeta.
  match goal with |- context [reference_rates ?x ?y c] =>
    assert (bounded (fneg (get a (_rate_limit c))) (get a (_rate_limit c)) (get a (reference_rates x y c).1)) as H end.
  { unfold reference_rates. cbn [fst]. rewrite get_map3_2. by apply limit_rate_bounded. }
  destruct (reference_rates _ _ c) as [omega_r beta]. cbn [fst] in H.
  match goal with |- context [let '(_, _) := ?x in _] => destruct x as [prev dot] end. cbn [fst snd _tau_s]. split; [done|].
  unfold gravity_torque. rewrite get_map3. unfold finite_or_zero. by case_match.
Qed.
End Attitude.

(** * The rate controller *)

Section Rate.
Context `{M : Matrix}.

Lemma normalized_within max_torque t a : within (f_of_Z (-1)) fone (get a (normalize_torque max_torque t)).
Proof. unfold normalize_torque. rewrite get_map3. by apply constrain_within. Qed.

Lemma rate_update_within rate rate_sp dt landed c a :
  within (f_of_Z (-1)) fone (get a (rate_update rate rate_sp dt landed c).1).
Proof.
  unfold rate_update. destruct (filter_tau_s _ _ _ _ _ _) as [[base filtered] valid]. apply normalized_within.
Qed.

Lemma finite_or_zero_bounded x : within (f_of_Z (-1)) fone x -> bounded (f_of_Z (-1)) fone (finite_or_zero x).
Proof. intros H. unfold finite_or_zero. destruct (isfinite x) eqn:E; by split. Qed.
End Rate.

(** ** What a history of cycles publishes *)

Section Histories.
Context `{M : Matrix} (par : rate_params).

Fixpoint rate_runs (l : list rate_input) (m : rate_module) : list rate_output * rate_module :=
  match l with
  | [] => ([], m)
  | inp :: l => let '(out, m) := rate_run par inp m in let '(outs, m) := rate_runs l m in (option_list out ++ outs, m)
  end.

(** What the battery makes of a value: nothing, or its product with a positive
    scale. *)
Definition battery_scaled (scale : option float) (x : float) : float :=
  match scale with Some k => fmul x k | None => x end.

Definition legal_scale (scale : option float) : Prop :=
  match scale with Some k => BAT_SCALE_EN par = true /\ fltb fzero k = true | None => True end.

(** A message is made of a torque that is a number in [-1, 1] on every axis and a
    thrust that is a number: the actuator controls are these, scaled by the battery
    if that is enabled; the torque and thrust setpoints, which a VTOL does not
    publish, are these unscaled, the thrust pointing up. *)
Definition legal_output (out : rate_output) : Prop :=
  exists (torque : vec3) (thrust : float) (scale : option float),
    (forall a, bounded (f_of_Z (-1)) fone (get a torque)) /\ isfinite thrust = true /\ legal_scale scale
    /\ controls out = map3 (battery_scaled scale) torque /\ throttle out = battery_scaled scale thrust
    /\ match torque_thrust out with
       | Some (t, z) => t = torque /\ isfinite z = true /\ (z = fneg thrust \/ thrust = fzero /\ z = fzero)
       | None => True
       end.

Definition limits_ok (c : rate_control) : Prop :=
  forall a, isfinite (get a (_lim_int (rc_cfg c))) = true /\ fleb fzero (get a (_lim_int (rc_cfg c))) = true.

Definition integral_ok (c : rate_control) : Prop :=
  limits_ok c
  /\ forall a, bounded (fneg (get a (_lim_int (rc_cfg c)))) (get a (_lim_int (rc_cfg c))) (get a (_rate_int (rc_st c))).

Lemma legal_zero : legal_output (Rate_output zero3 fzero None).
Proof. exists zero3, fzero, None. split_and!; try done. intros []; by split. Qed.

Lemma legal_rate_outputs att thr scale vtol :
  (forall a, within (f_of_Z (-1)) fone (get a att)) -> legal_output (rate_outputs par att thr scale vtol).
Proof.
  intros H. unfold rate_outputs, legal_output. cbn [controls throttle torque_thrust].
  exists (map3 finite_or_zero att), (finite_or_zero thr), (if BAT_SCALE_EN par && fltb fzero scale then Some scale else None).
  split; [intros a; rewrite get_map3; by apply finite_or_zero_bounded|].
  split; [unfold finite_or_zero; by case_match|].
  destruct (BAT_SCALE_EN par && fltb fzero scale) eqn:E; cbn [legal_scale battery_scaled].
  1: apply andb_true_iff in E.
  all: split; [done|]; split; [done|]; split; [done|]; destruct vtol; [done|]; split; [done|].
  all: unfold finite_or_zero; destruct (isfinite thr) eqn:F; split; auto using neg_finite.
Qed.

Lemma integral_axis_bounded sp sn gain lim dt e i :
  isfinite lim = true -> fleb fzero lim = true -> bounded (fneg lim) lim i ->
  bounded (fneg lim) lim (integral_axis sp sn gain lim dt e i).
Proof.
  intros Hf Hl Hi. unfold integral_axis. match goal with |- context [isfinite ?x] => destruct (isfinite x) eqn:E end; [|done].
  apply constrain_bounded; [done|by apply neg_finite|done|]. by apply zero_within.
Qed.

(** Steps that leave limits and integral alone. *)
Definition same_integral (c c' : rate_control) : Prop :=
  _lim_int (rc_cfg c') = _lim_int (rc_cfg c) /\ (_rate_int (rc_st c') = _rate_int (rc_st c) \/ _rate_int (rc_st c') = zero3).

Lemma zero_integral a lim : isfinite lim = true -> fleb fzero lim = true -> bounded (fneg lim) lim (get a zero3).
Proof. intros. destruct a; by apply zero_bounded. Qed.

Lemma integral_same c c' : same_integral c c' -> integral_ok c -> integral_ok c'.
Proof.
  intros [El Ei] [Hl Hi]. unfold integral_ok, limits_ok. rewrite El. split; [done|]. intros a. destruct (Hl a).
  destruct Ei as [-> | ->]; [apply Hi | by apply zero_integral].
Qed.

Lemma attitude_aux_same inp m : same_integral (r_control m) (attitude_aux inp m).1.
Proof.
  unfold attitude_aux. destruct (ri_aux inp); cbn [fst]; repeat case_match; (split; [done | by left]).
Qed.

Lemma guarded_same inp m : same_integral (r_control m) (guarded_control inp m).
Proof.
  unfold guarded_control. repeat case_match; (split; [done | first [by left | by right]]).
Qed.

Lemma topics_same inp m : same_integral (r_control m) (r_control (rate_topics inp m)).
Proof.
  unfold rate_topics. destruct (default _ (ri_status inp)). cbn [r_control].
  destruct (ri_inertia inp); split; try done; by left.
Qed.

Lemma rate_update_integral rate sp dt landed c : integral_ok c -> integral_ok (rate_update rate sp dt landed c).2.
Proof.
  intros [Hl Hi]. unfold rate_update. destruct (filter_tau_s _ _ _ _ _ _) as [[base filtered] valid]. split; [done|].
  intros a. cbn [snd rc_cfg rc_st _rate_int]. destruct (Hl a). destruct landed; [by apply zero_integral|].
  case_match; [|apply Hi]. unfold updateIntegral. rewrite get_vec_of. by apply integral_axis_bounded.
Qed.

Lemma rate_run_ok inp m :
  integral_ok (r_control m) ->
  Forall legal_output (option_list (rate_run par inp m).1) /\ integral_ok (r_control (rate_run par inp m).2).
Proof.
  intros H. unfold rate_run. cbv zeta.
  pose proof (integral_same _ _ (topics_same inp m) H) as Hm. generalize dependent (rate_topics inp m).
  intros m1 H1. destruct (rates_setpoints par inp m1) as [sp thr].
  pose proof (integral_same _ _ (attitude_aux_same inp m1) H1) as H2.
  destruct (attitude_aux inp m1) as [c last]. cbn [fst] in H2.
  set (m2 := with_inputs sp thr c last m1). assert (integral_ok (r_control m2)) as Hm2 by done. clearbody m2.
  case_match; [|split; [case_match; [apply Forall_singleton, legal_zero | constructor] | done]].
  pose proof (rate_update_integral (ri_rates inp) sp (cycle_rate_dt inp m) (eso_ground_guard m2) _
    (integral_same _ _ (guarded_same inp m2) Hm2)) as H3.
  pose proof (rate_update_within (ri_rates inp) sp (cycle_rate_dt inp m) (eso_ground_guard m2) (guarded_control inp m2)) as H4.
  destruct (rate_update _ _ _ _ _) as [att c']. cbn [fst snd] in *. split; [|done].
  apply Forall_singleton. by apply legal_rate_outputs.
Qed.

(** C23: the rate loop publishes legal values in every history of cycles, whatever
    the gyro, the setpoints, the attitude controller and the allocator send: its
    torque is a number in [-1, 1] on every axis and its thrust is a number, and
    the actuator controls are exactly these, or, with the battery scaling enabled,
    their products with the battery's positive scale (which bounds nothing: a scale
    above one takes them out of [-1, 1]); the integral stays a number inside its
    limits. *)
Theorem rate_loop_legal (l : list rate_input) (m : rate_module) :
  limits_ok (r_control m) -> _rate_int (rc_st (r_control m)) = zero3 ->
  Forall legal_output (rate_runs l m).1 /\ integral_ok (r_control (rate_runs l m).2).
Proof.
  intros Hl Hz. assert (integral_ok (r_control m)) as H.
  { split; [done|]. intros a. rewrite Hz. destruct (Hl a). by apply zero_integral. }
  clear Hl Hz. revert m H. induction l as [|inp l IH]; intros m H; [by split|]. cbn [rate_runs].
  destruct (rate_run_ok inp m H) as [H1 H2]. destruct (rate_run par inp m) as [out m']. cbn [fst snd] in *.
  destruct (IH m' H2) as [H3 H4]. destruct (rate_runs l m') as [outs m'']. cbn [fst snd] in *.
  split; [by apply Forall_app | done].
Qed.

(** The attitude controller's additional terms are used only if their time
    stamp lies in the last 100 ms before the gyro sample; terms stamped after the
    sample (the attitude controller ran while the sample waited) look as old as the
    unsigned difference is large, and are replaced by zero. *)
Theorem aux_freshness (inp : rate_input) (aux : rate_aux) (m : rate_module) :
  ri_aux inp = Some aux -> 0 < aux_timestamp aux < 2 ^ 63 -> 0 <= ri_now inp < 2 ^ 63 ->
  (aux_timestamp aux <= ri_now inp <= aux_timestamp aux + ESO_AUX_TIMEOUT ->
   (attitude_aux inp m).1 = setAttitudeAux (aux_omega_r_dot aux) (aux_beta_v aux) (aux_tau_s aux) (r_control m))
  /\ (ri_now inp < aux_timestamp aux -> (attitude_aux inp m).1 = setAttitudeAux zero3 zero3 zero3 (r_control m)).
Proof.
  intros Ha Ht Hn. unfold attitude_aux. rewrite Ha. cbn [fst].
  assert ((aux_timestamp aux =? 0) = false) as -> by lia. cbn [orb]. split; intros H.
  - unfold u64. rewrite Z.mod_small by (unfold ESO_AUX_TIMEOUT in *; lia).
    assert ((ri_now inp - aux_timestamp aux <=? ESO_AUX_TIMEOUT) = true) as -> by lia.
    assert ((ESO_AUX_TIMEOUT <? ri_now inp - aux_timestamp aux) = false) as -> by lia. done.
  - assert (u64 (ri_now inp - aux_timestamp aux) = ri_now inp - aux_timestamp aux + 2 ^ 64) as ->.
    { unfold u64. symmetry. apply (Z.mod_unique_pos _ _ (-1)); lia. }
    unfold ESO_AUX_TIMEOUT.
    assert ((100000 <? ri_now inp - aux_timestamp aux + 2 ^ 64) = true) as -> by lia.
    by destruct (_ <=? _).
Qed.
End Histories.

(** * The failsafe of the position controller *)

Section Failsafe.
Context `{M : Matrix} {L : MatrixLaws} (par : pos_params).

(** A NaN in the acceleration setpoint makes the whole thrust a NaN. *)
Lemma limitTilt_nan body up angle : all_nan body -> all_nan (limitTilt body up angle).
Proof.
  intros (Hx & Hy & Hz). unfold limitTilt.
  set (r := v3_sub body _). assert (vy r = NAN) as Hr by (subst r; autorewrite with vec; cbn [map3_2 vy]; by rewrite Hy).
  clearbody r. set (r' := if _ : bool then _ else r).
  assert (has_nan r') as Hn by (subst r'; case_match; right; by left). clearbody r'.
  destruct (v3_normalized_nan r' Hn) as (H1 & H2 & H3).
  unfold all_nan. autorewrite with vec. unfold map3_2, map3. cbn [vx vy vz]. rewrite H1, H2, H3. by autorewrite with nan.
Qed.

Lemma limit_thrust_nan l thr : vx thr = NAN -> vx (limit_thrust l thr) = NAN.
Proof.
  intros H. unfold limit_thrust. rewrite (v2_norm_nan (xy thr)) by (by left). rewrite fltb_nan_r. done.
Qed.

Lemma nan_thrust s : vx (_acc_sp (sps s)) = NAN -> vx (_thr_sp (sps (_accelerationControl s))) = NAN.
Proof.
  intros H. unfold _accelerationControl. cbn [set_thr_sp on_sps sps _thr_sp]. rewrite H.
  set (b := v3_normalized _). assert (all_nan b) as Hb by (apply v3_normalized_nan; by left). clearbody b.
  destruct (limitTilt_nan b (V3 fzero fzero fone) (_lim_tilt (lims s)) Hb) as (Hx & _ & _).
  autorewrite with vec. cbn [map3 vx]. rewrite Hx. by autorewrite with nan.
Qed.

Lemma velocity_control_thrust dt s :
  exists s1, _acc_sp (sps s1) = _acc_sp (sps (_velocityControl dt s))
  /\ _thr_sp (sps (_velocityControl dt s)) = limit_thrust (lims s) (_thr_sp (sps (_accelerationControl s1))).
Proof. unfold _velocityControl. cbv zeta. eexists (set_acc_sp _ s). split; reflexivity. Qed.

Lemma note_thrust s : _thr_sp (sps (note_enabled (default_yaw s))) = _thr_sp (sps s).
Proof. done. Qed.

(** A valid update without a horizontal position setpoint and a velocity below the
    limit. *)
Lemma velocity_only_thrust dt s :
  _inputValid s = true -> get Ax (_pos_sp (sps s)) = NAN -> get Ay (_pos_sp (sps s)) = NAN ->
  fleb (_lim_vel_horizontal (lims s)) (v2_norm (xy (setZeroIfNanVector3f (_vel_sp (sps s))))) = false ->
  thrust_body_z (getAttitudeSetpoint (update dt s).2 zero_attitude_setpoint) = NAN.
Proof.
  intros Hv Hx Hy Hm. unfold getAttitudeSetpoint, thrustToAttitude.
  destruct (bodyzToAttitude _ _) as [q e]. cbn [thrust_body_z].
  rewrite v3_norm_nan; [done|]. left. rewrite update_valid by done. cbn [snd]. rewrite note_thrust. unfold controlled.
  assert (vx (_vel_sp (sps (_positionControl dt (observer_step dt s)))) = NAN) as Hn.
  { apply position_control_nan; try done. }
  generalize dependent (_positionControl dt (observer_step dt s)). intros s1 Hn.
  destruct (velocity_control_thrust dt s1) as (s2 & Ea & ->). apply limit_thrust_nan, nan_thrust. rewrite Ea.
  by apply (nan_velocity Ax).
Qed.

(** ** From a failed update to the motors *)

(** The horizontal velocity can be stopped: it is measured, and so is its
    derivative; and the same for the vertical one if it is measured at all. *)
Definition can_stop (states : control_states) : Prop :=
  isfinite (vx (velocity states)) = true /\ isfinite (vy (velocity states)) = true
  /\ isfinite (vx (acceleration states)) = true /\ isfinite (vy (acceleration states)) = true
  /\ (isfinite (vz (velocity states)) = true -> isfinite (vz (acceleration states)) = true).

Lemma failsafe_input_valid states s :
  can_stop states -> _vel (meas s) = velocity states -> _vel_dot (meas s) = acceleration states ->
  _inputValid (setInputSetpoint (failsafe_setpoint par states) s) = true.
Proof.
  intros (H1 & H2 & H3 & H4 & H5) Hv Hd. unfold _inputValid, setInputSetpoint, failsafe_setpoint.
  rewrite H1, H2. cbn [andb on_sps sps meas]. rewrite Hv, Hd.
  destruct (isfinite (vz (velocity states))) eqn:Ez; cbn -[isfinite fzero f_dec has_setpoint state_valid];
    unfold has_setpoint, state_valid;
    change (isfinite NAN) with false; change (isfinite fzero) with true; change (isfinite (f_dec 3 10)) with true;
    cbn [orb andb negb eqb]; by rewrite ?Ez, ?H1, ?H2, ?H3, ?H4, ?H5.
Qed.

Lemma positive_not_le lim : fltb fzero lim = true -> fleb lim fzero = false.
Proof. by destruct lim as [[]|[]| |[] m e]. Qed.

Lemma run_failsafe_thrust now dt states m :
  can_stop states -> _vel (meas (m_control m)) = velocity states -> _vel_dot (meas (m_control m)) = acceleration states ->
  Hysteresis._state (set_state_and_update true now (m_failsafe m)) = true -> fltb fzero (ESO_XY_VEL_MAX par) = true ->
  thrust_body_z (getAttitudeSetpoint (m_control (run_failsafe par now dt states m)) zero_attitude_setpoint) = NAN.
Proof.
  intros Hs Hv Hd Hh Hl. unfold run_failsafe, failsafe. rewrite Hh. cbn [m_control].
  pose proof (failsafe_input_valid states (m_control m) Hs Hv Hd) as Hi.
  apply velocity_only_thrust.
  - exact Hi.
  - cbn. unfold failsafe_setpoint. by destruct (if isfinite (vz (velocity states)) then _ else _).
  - cbn. unfold failsafe_setpoint. by destruct (if isfinite (vz (velocity states)) then _ else _).
  - destruct Hs as (H1 & H2 & _).
    assert (forall z, xy (setZeroIfNanVector3f (V3 fzero fzero z)) = V2 fzero fzero) as E by done.
    unfold failsafe_setpoint. rewrite H1, H2. cbn [andb].
    destruct (isfinite (vz (velocity states))); cbn [setVelocityLimits setInputSetpoint on_lims on_sps lims sps sp_vel _vel_sp
      _lim_vel_horizontal]; rewrite E, v2_norm_zero; by apply positive_not_le.
Qed.

Lemma update_meas dt s : meas (update dt s).2 = meas s.
Proof. destruct (_inputValid s) eqn:Hv; [by rewrite update_valid | by rewrite update_invalid]. Qed.

Lemma control_step_thrust now dt states m :
  (update dt (m_control m)).1 = false ->
  can_stop states -> _vel (meas (m_control m)) = velocity states -> _vel_dot (meas (m_control m)) = acceleration states ->
  Hysteresis._state (set_state_and_update true now (m_failsafe m)) = true -> fltb fzero (ESO_XY_VEL_MAX par) = true ->
  thrust_body_z (getAttitudeSetpoint (m_control (control_step par dt now states m)) zero_attitude_setpoint) = NAN.
Proof.
  intros Hu Hs Hv Hd Hh Hl. unfold control_step. pose proof (update_meas dt (m_control m)) as Hm.
  destruct (update dt (m_control m)) as [ok ctl]. cbn [fst snd] in *. subst ok.
  apply run_failsafe_thrust; cbn [m_control m_failsafe]; by rewrite ?Hm.
Qed.

(** What [prepare] hands to the controller. *)
Lemma prepare_meas dt inp now states m :
  let m' := prepare par dt inp now states m in
  let states' := blend_velocity par (m_setpoint m').2 (in_local_pos inp) states in
  _vel (meas (m_control m')) = velocity states' /\ _vel_dot (meas (m_control m')) = acceleration states'
  /\ m_failsafe m' = m_failsafe m.
Proof.
  unfold prepare. cbv zeta. destruct (gate_setpoint _ _ _ _ _ _ _) as [sp ctl].
  destruct (updateRamp _ _ _) as [up tk]. done.
Qed.

Lemma cycle_start_failsafe inp m : m_failsafe (cycle_start par inp m).2 = m_failsafe m.
Proof.
  unfold cycle_start, take_topics. destruct (update_dynamic_parameters _ _ _ _ _) as [ctl com].
  by destruct (set_vehicle_states _ _ _ _).
Qed.

(** The position controller's update fails in a cycle, for longer than the
    hysteresis of the failsafe, while the vehicle can be stopped. *)
Record stopping (inp : cycle_input) (m : pos_module) : Prop := {
  st_mode : flag_multicopter_position_control_enabled (m_mode (cycle_start par inp m).2) = true;
  st_fails :
    let now := lp_timestamp_sample (in_local_pos inp) in
    let m' := prepare par (cycle_dt inp m) inp now (cycle_start par inp m).1 (cycle_start par inp m).2 in
    (update (cycle_dt inp m) (m_control m')).1 = false
    /\ can_stop (blend_velocity par (m_setpoint m').2 (in_local_pos inp) (cycle_start par inp m).1);
  st_late : Hysteresis._state (set_state_and_update true (lp_timestamp_sample (in_local_pos inp)) (m_failsafe m)) = true;
  st_limit : fltb fzero (ESO_XY_VEL_MAX par) = true
}.

Lemma stopping_thrust inp m :
  stopping inp m -> exists sp att m', Run par inp m = (Some (sp, att), m') /\ thrust_body_z att = NAN.
Proof.
  intros [H1 [H2 H3] H4 H5]. unfold Run. pose proof (cycle_start_failsafe inp m) as Ef.
  destruct (cycle_start par inp m) as [states m1]. cbn [fst snd] in *. rewrite H1.
  eexists _, _, _. split; [reflexivity|].
  destruct (prepare_meas (cycle_dt inp m) inp (lp_timestamp_sample (in_local_pos inp)) states m1) as (G1 & G2 & G3).
  apply control_step_thrust; try done. by rewrite G3, Ef.
Qed.

(** The attitude controller passes the thrust on. *)
Lemma attitude_passes_thrust inp m t att rs aux :
  ai_setpoint inp = Some (t, att) -> a_last_setpoint m < t -> am_manual (default (a_mode m) (ai_mode inp)) = false ->
  (att_run inp m).1 = Some (rs, aux) -> vz (rs_thrust_body rs) = thrust_body_z att.
Proof.
  intros Hs Ht Hm. unfold att_run, att_topics. rewrite Hs. rewrite (proj2 (Z.ltb_lt _ _) Ht).
  destruct (default (_, _) (ai_status inp)) as [rotary transition]. cbv zeta. cbn [att_derivative a_mode a_rotary a_transition a_tailsitter].
  cbn [a_mode take_setpoint]. rewrite Hm. cbn [andb].
  case_match; [|done]. destruct (att_update _ _ _ _) as [rates c]. cbn [fst]. intros [= <- <-]. done.
Qed.

(** The rate controller replaces a thrust that is not a number by zero. *)
Lemma nan_thrust_stops rpar inp m rs out :
  ri_setpoint inp = Some rs -> vz (rs_thrust_body rs) = NAN -> rm_manual (default (r_mode m) (ri_mode inp)) = false ->
  BAT_SCALE_EN rpar = false -> (rate_run rpar inp m).1 = Some out -> throttle out = fzero.
Proof.
  intros Hs Hn Hm Hb. unfold rate_run. cbv zeta.
  assert (r_mode (rate_topics inp m) = default (r_mode m) (ri_mode inp)) as Em.
  { unfold rate_topics. by destruct (default (_, _) (ri_status inp)). }
  generalize dependent (rate_topics inp m). intros m1 Em.
  unfold rates_setpoints. rewrite Em, Hm, Hs, Hn. cbn [andb]. destruct (attitude_aux inp m1) as [c last].
  case_match.
  - destruct (rate_update _ _ _ _ _) as [att c']. cbn [fst]. intros [= <-]. unfold rate_outputs. rewrite Hb. done.
  - cbn [fst]. case_match; [|done]. by intros [= <-].
Qed.

(** C15: the failsafe of the position controller cuts the motors.  When the
    controller's update has failed for longer than the hysteresis and the vehicle
    could be stopped (its velocity is measured), the failsafe's "stop and wait"
    setpoint, a zero horizontal velocity without a position, makes the controller
    publish a thrust that is not a number; the attitude controller passes it on and
    the rate controller publishes the throttle zero for it. *)
Theorem failsafe_cuts_throttle (pinp : cycle_input) (pm : pos_module) :
  stopping pinp pm ->
  exists sp att pm', Run par pinp pm = (Some (sp, att), pm')
  /\ forall t ainp am rs aux, ai_setpoint ainp = Some (t, att) -> a_last_setpoint am < t ->
     am_manual (default (a_mode am) (ai_mode ainp)) = false -> (att_run ainp am).1 = Some (rs, aux) ->
     forall rpar rinp rm out, ri_setpoint rinp = Some rs -> rm_manual (default (r_mode rm) (ri_mode rinp)) = false ->
     BAT_SCALE_EN rpar = false -> (rate_run rpar rinp rm).1 = Some out -> throttle out = fzero.
Proof.
  intros H. destruct (stopping_thrust pinp pm H) as (sp & att & pm' & Hr & Hn). exists sp, att, pm'. split; [done|].
  intros t ainp am rs aux H1 H2 H3 H4 rpar rinp rm out H5 H6 H7 H8.
  eapply nan_thrust_stops; [done| |done|done|done]. rewrite <- Hn. by eapply attitude_passes_thrust.
Qed.
End Failsafe.

(** * Concrete runs *)

Definition bench_params : pos_params :=
  Pos_params (f_of_Z 3) fone (f_of_Z 12) (f_dec 1 2) (f_of_Z 12) (f_of_Z 45) (f_dec 12 100) fone (f_dec 7 10) false true (f_of_Z 5) false zero3.
Definition bench_position (now : Z) (valid : bool) : local_position :=
  Local_position now now valid true true true zero3 zero3 fzero fzero (V2 fzero fzero) fzero (V2 fzero fzero) fzero fzero 0 0 0 0 0.
Definition bench_cycle (now : Z) (valid : bool) : cycle_input :=
  Cycle_input (bench_position now valid) None None None None None None None None now.

(** Hovering at the origin, in flight. *)
Definition bench_module : pos_module :=
  Pos_module (Takeoff flight (hysteresis_new true) fone fone fone) 0 (0, sp0) (Control_mode true true false)
    (Constraints NAN NAN false) (Land_detected false false) (derivative_new, derivative_new, derivative_new) ready
    (set_hysteresis_time_from false 200000 (hysteresis_new false)) false (f_dec 8 10) (0, 0, 0, 0, 0) (0, false).

(** Two good cycles, then the position is lost while the velocity stays valid. *)
Definition losing : pos_module :=
  (Run bench_params (bench_cycle 30000 false) (Run bench_params (bench_cycle 20000 true) (Run bench_params (bench_cycle 10000 true) bench_module).2).2).2.

Definition bench_att : att_module :=
  Att_module (setRateLimit (V3 fone fone fone) att_control_new) zero3 0 0 0 (Att_mode true false true true true true) true false false true true.
Definition bench_att_input (att : attitude_setpoint) : att_input :=
  Att_input 5 5 (Q fone fzero fzero fzero) 0 (Q fone fzero fzero fzero) zero3 (Some (1, att)) None None (0, att) 5.
Definition bench_rate_params : rate_params := Rate_params fzero fzero fzero fzero zero3 false false.
Definition bench_rate : rate_module :=
  Rate_module (setIntegratorLimit (V3 fone fone fone) rate_control_new) zero3 fzero 0 0
    (Rate_mode true false true true false) (Rate_land false false false false) true false fzero.
Definition bench_rate_input (rs : rates_setpoint) (aux : option rate_aux) : rate_input :=
  Rate_input 10 zero3 None None None None None (Some rs) aux None None.

(** The throttle that the three controllers make of a cycle. *)
Definition chain (inp : cycle_input) (m : pos_module) : option float :=
  match (Run bench_params inp m).1 with
  | Some (_, att) =>
      match (att_run (bench_att_input att) bench_att).1 with
      | Some (rs, aux) =>
          match (rate_run bench_rate_params (bench_rate_input rs (Some aux)) bench_rate).1 with
          | Some out => Some (throttle out)
          | None => None
          end
      | None => None
      end
  | None => None
  end.

Lemma rates_in_limits_witness :
  let c := setAttitudeSetpoint (Q NAN NAN NAN NAN) NAN (setRateLimit (V3 fone fone fone) att_control_new) in
  bounded (fneg fone) fone (get Ax (att_update (Q fone fzero fzero fzero) nan3 tick c).1).
Proof.
  intros c. apply (proj1 (rates_in_limits (Q fone fzero fzero fzero) nan3 tick c Ax ltac:(vm_compute; reflexivity) ltac:(vm_compute; reflexivity))).
Defined.

(** A NaN of the gyro is published as zero torque. *)
Lemma rate_loop_legal_witness :
  let inp := Rate_input 10 nan3 None None None None None None None None None in
  torque_thrust <$> (rate_run bench_rate_params inp bench_rate).1 = Some (Some (zero3, fneg fzero))
  /\ Forall (legal_output bench_rate_params) (rate_runs bench_rate_params [inp; inp] bench_rate).1.
Proof.
  intros inp. split; [vm_compute; reflexivity|].
  apply (proj1 (rate_loop_legal bench_rate_params [inp; inp] bench_rate
    ltac:(intros []; split; vm_compute; reflexivity) ltac:(vm_compute; reflexivity))).
Defined.

Lemma aux_freshness_witness :
  let aux t := Rate_aux t (V3 fone fone fone) zero3 zero3 in
  let inp t := bench_rate_input (Rates_setpoint zero3 zero3) (Some (aux t)) in
  _aux_omega_r_dot (rc_st (attitude_aux (inp 9) bench_rate).1) = V3 fone fone fone
  /\ _aux_omega_r_dot (rc_st (attitude_aux (inp 11) bench_rate).1) = zero3.
Proof.
  intros aux inp. split.
  - rewrite (proj1 (aux_freshness (inp 9) (aux 9) bench_rate eq_refl ltac:(cbn; lia) ltac:(cbn; lia))); [reflexivity|].
    unfold ESO_AUX_TIMEOUT. cbn. lia.
  - rewrite (proj2 (aux_freshness (inp 11) (aux 11) bench_rate eq_refl ltac:(cbn; lia) ltac:(cbn; lia))); [reflexivity|].
    cbn. lia.
Defined.

(** Hovering gives half throttle; 250 ms after the loss of the position the
    throttle is zero. *)
Lemma failsafe_cuts_throttle_witness :
  chain (bench_cycle 20000 true) (Run bench_params (bench_cycle 10000 true) bench_module).2 = Some (f_dec 1 2)
  /\ chain (bench_cycle 280000 false) losing = Some fzero
  /\ forall thr, chain (bench_cycle 280000 false) losing = Some thr -> thr = fzero.
Proof.
  split; [vm_compute; reflexivity|]. split; [vm_compute; reflexivity|]. intros thr.
  destruct (failsafe_cuts_throttle bench_params (bench_cycle 280000 false) losing) as (sp & att & pm' & Hr & Hall).
  - split; [vm_compute; reflexivity| |vm_compute; reflexivity|vm_compute; reflexivity].
    split; [vm_compute; reflexivity|]. unfold can_stop. split_and!; vm_compute; reflexivity.
  - unfold chain. rewrite Hr. cbn [fst].
    destruct (att_run (bench_att_input att) bench_att).1 as [[rs aux]|] eqn:Ea; [|discriminate].
    destruct (rate_run bench_rate_params (bench_rate_input rs (Some aux)) bench_rate).1 as [out|] eqn:Er; [|discriminate].
    intros Ht. injection Ht as <-.
    apply (Hall 1 (bench_att_input att) bench_att rs aux eq_refl ltac:(cbn; lia) eq_refl Ea bench_rate_params
             (bench_rate_input rs (Some aux)) bench_rate out eq_refl eq_refl eq_refl Er).
Defined.
