(* ===== verification/ArmJointBridge.v ===== *)
(** The bridge that makes the topic arm_joint_states of the arm's angles, rates and
    validity flag that arrive one by one as named values
    (src/modules/arm_joint_bridge), with its specification: what is known of each
    of the nine values is the last message of its name. *)

From Stdlib Require Import ZArith Lia SpecFloat.
From stdpp Require Import base list numbers.
From S2P Require Import Prelude Float32 EsoVector.

Local Open Scope Z_scope.

Definition PUBLISH_INTERVAL : Z := 20000.
Definition FIELD_TIMEOUT : Z := 200000.

(** debug_key_value.msg: ten characters, ended by a zero if there are fewer. *)
Record debug_key_value_s := Debug_key_value { dkv_timestamp : Z; key : list Z; dkv_value : float }.

(** arm_joint_states.msg *)
Record arm_joint_states_s := Arm_joint_states { ajs_timestamp : Z; ajs_q : list float; ajs_dq : list float; ajs_valid : bool }.

Record bridge := Bridge {
  _q : list float;
  _dq : list float;
  _q_timestamp : list Z;
  _dq_timestamp : list Z;
  _valid_value : float;
  _valid_timestamp : Z;
  _last_publish : Z
}.

Definition bridge_new : bridge :=
  Bridge (replicate 4 fzero) (replicate 4 fzero) (replicate 4 0) (replicate 4 0) fzero 0 0.

Definition fieldFresh (timestamp now : Z) : bool := negb (timestamp =? 0) && (u64 (now - timestamp) <=? FIELD_TIMEOUT).

(** ** C strings *)

(** [strncmp(s, t, n) == 0], where the first [n] characters of [t] are not zero. *)
Definition strncmp_eq (s t : list Z) (n : nat) : bool := bool_decide (take n s = take n t).

(** [strcmp(s, t) == 0], where [t] is given without its zero. *)
Definition strcmp_eq (s t : list Z) : bool :=
  bool_decide (take (length t) s = t) && (aget s (Z.of_nat (length t)) =? 0).

Definition AJQ : list Z := [65; 74; 81].
Definition AJD : list Z := [65; 74; 68].
Definition AJVAL : list Z := [65; 74; 86; 65; 76].

(** A name of three letters and a joint. *)
Definition names_joint (prefix k : list Z) : bool :=
  strncmp_eq k prefix 3 && (48 <=? aget k 3) && (aget k 3 <=? 51) && (aget k 4 =? 0).

Definition processDebugMessage (msg : debug_key_value_s) (b : bridge) : bridge :=
  let index := Z.to_nat (aget (key msg) 3 - 48) in
  if names_joint AJQ (key msg) then
    Bridge (<[index := dkv_value msg]> (_q b)) (_dq b) (<[index := dkv_timestamp msg]> (_q_timestamp b)) (_dq_timestamp b)
      (_valid_value b) (_valid_timestamp b) (_last_publish b)
  else if names_joint AJD (key msg) then
    Bridge (_q b) (<[index := dkv_value msg]> (_dq b)) (_q_timestamp b) (<[index := dkv_timestamp msg]> (_dq_timestamp b))
      (_valid_value b) (_valid_timestamp b) (_last_publish b)
  else if strcmp_eq (key msg) AJVAL then
    Bridge (_q b) (_dq b) (_q_timestamp b) (_dq_timestamp b) (dkv_value msg) (dkv_timestamp msg) (_last_publish b)
  else b.

(** [fresh &= fieldFresh(_q_timestamp[i], now); fresh &= fieldFresh(_dq_timestamp[i], now);] for each joint. *)
Definition joints_fresh (now : Z) (b : bridge) (fresh : bool) : bool :=
  fold_left (fun fresh i => fresh && fieldFresh (aget (_q_timestamp b) i) now && fieldFresh (aget (_dq_timestamp b) i) now)
    [0; 1; 2; 3] fresh.

Definition publishJointStates (now : Z) (b : bridge) : arm_joint_states_s * bridge :=
  let fresh := fieldFresh (_valid_timestamp b) now && fltb (f_dec 1 2) (_valid_value b) in
  let fresh := joints_fresh now b fresh in
  (Arm_joint_states now (_q b) (_dq b) fresh,
   Bridge (_q b) (_dq b) (_q_timestamp b) (_dq_timestamp b) (_valid_value b) (_valid_timestamp b) now).

(** What a cycle finds: a new message, if any, and the clock as it reads it, once
    for the interval and once in the publication. *)
Record cycle := Cycle { debug_msg : option debug_key_value_s; now_run : Z; now_publish : Z }.

Definition Run (c : cycle) (b : bridge) : option arm_joint_states_s * bridge :=
  let b := match debug_msg c with Some m => processDebugMessage m b | None => b end in
  if (_last_publish b =? 0) || (PUBLISH_INTERVAL <=? u64 (now_run c - _last_publish b))
  then let '(m, b) := publishJointStates (now_publish c) b in (Some m, b)
  else (None, b).

Definition run (cs : list cycle) (b : bridge) : bridge := fold_left (fun b c => (Run c b).2) cs b.

(** * The specification: the last message of each name *)

(** The nine values; a joint is below four. *)
Inductive field := Angle (i : nat) | Rate (i : nat) | Validity.
Definition fields : list field := map Angle (seq 0 4) ++ map Rate (seq 0 4) ++ [Validity].

(** The name of a value. *)
Definition name_of (f : field) : list Z :=
  match f with
  | Angle i => AJQ ++ [48 + Z.of_nat i]
  | Rate i => AJD ++ [48 + Z.of_nat i]
  | Validity => AJVAL
  end.

(** The characters up to the zero. *)
Fixpoint c_string (s : list Z) : list Z :=
  match s with
  | [] => []
  | c :: s => if c =? 0 then [] else c :: c_string s
  end.

Definition carries (f : field) (m : debug_key_value_s) : bool := bool_decide (c_string (key m) = name_of f).

(** What a history of messages says of a value: when and what, nothing at first. *)
Definition last_of (f : field) (ms : list debug_key_value_s) : Z * float :=
  fold_left (fun known m => if carries f m then (dkv_timestamp m, dkv_value m) else known) ms (0, fzero).

Definition messages (cs : list cycle) : list debug_key_value_s := omap debug_msg cs.

(** Fresh at a time. *)
Definition recent (now : Z) (f : field) (ms : list debug_key_value_s) : Prop :=
  (last_of f ms).1 <> 0 /\ u64 (now - (last_of f ms).1) <= FIELD_TIMEOUT.

(** * Lemmas *)

(** Ten characters, not all of which are a name. *)
Definition key_ok (m : debug_key_value_s) : Prop := length (key m) = 10%nat.

Ltac ten_chars H :=
  match type of H with length ?k = _ =>
    destruct k as [|?c0 [|?c1 [|?c2 [|?c3 [|?c4 [|?c5 [|?c6 [|?c7 [|?c8 [|?c9 [|? ?]]]]]]]]]]]; try discriminate H
  end.

(** A name of five characters at most is compared with no more than six. *)
Lemma name_letters prefix :
  prefix = AJQ \/ prefix = AJD -> exists a b d, prefix = [a; b; d] /\ a <> 0 /\ b <> 0 /\ d <> 0.
Proof. by intros [-> | ->]; eexists _, _, _. Qed.

Lemma names_joint_index prefix k :
  length k = 10%nat -> prefix = AJQ \/ prefix = AJD -> names_joint prefix k = true ->
  exists i, (i < 4)%nat /\ c_string k = prefix ++ [48 + Z.of_nat i] /\ Z.to_nat (aget k 3 - 48) = i.
Proof.
  intros Hk Hp. unfold names_joint, strncmp_eq. rewrite !andb_true_iff, !Z.leb_le, Z.eqb_eq, bool_decide_eq_true.
  ten_chars Hk. change (aget _ 3) with c3. change (aget _ 4) with c4.
  destruct (name_letters prefix Hp) as (a & b & d & -> & Ha & Hb & Hd). cbn [take firstn app].
  intros [[[E H1] H2] ->]. injection E as -> -> ->. exists (Z.to_nat (c3 - 48)). split_and!; [lia | | done].
  cbn [c_string]. repeat (match goal with |- context [?x =? 0] => destruct (Z.eqb_spec x 0); try lia end).
  rewrite Z2Nat.id by lia. do 4 f_equal. lia.
Qed.

Lemma names_joint_named prefix k i :
  length k = 10%nat -> prefix = AJQ \/ prefix = AJD -> (i < 4)%nat -> c_string k = prefix ++ [48 + Z.of_nat i] ->
  names_joint prefix k = true.
Proof.
  intros Hk Hp Hi. unfold names_joint, strncmp_eq. rewrite !andb_true_iff, !Z.leb_le, Z.eqb_eq, bool_decide_eq_true.
  ten_chars Hk. change (aget _ 3) with c3. change (aget _ 4) with c4.
  destruct (name_letters prefix Hp) as (a & b & d & -> & Ha & Hb & Hd). cbn [take firstn app c_string]. intros E.
  repeat (match type of E with context [?x =? 0] => destruct (Z.eqb_spec x 0); try discriminate E end);
    injection E; intros; subst; split_and!; try done; lia.
Qed.

Lemma strcmp_iff k : length k = 10%nat -> strcmp_eq k AJVAL = true <-> c_string k = AJVAL.
Proof.
  intros Hk. unfold strcmp_eq. rewrite andb_true_iff, Z.eqb_eq, bool_decide_eq_true.
  ten_chars Hk. change (aget _ _) with c5. cbn [AJVAL length take firstn]. split.
  - intros [E ->]. injection E as -> -> -> -> ->. done.
  - intros E. cbn [c_string] in E.
    repeat (match type of E with context [?x =? 0] => destruct (Z.eqb_spec x 0); try discriminate E end);
      injection E; intros; subst; by split.
Qed.

Lemma last_of_snoc f ms m :
  last_of f (ms ++ [m]) = if carries f m then (dkv_timestamp m, dkv_value m) else last_of f ms.
Proof. unfold last_of. by rewrite fold_left_app. Qed.

(** The state is what the history says. *)
Record knows (ms : list debug_key_value_s) (b : bridge) : Prop := {
  kn_q : _q b = map (fun i => (last_of (Angle i) ms).2) (seq 0 4);
  kn_q_timestamp : _q_timestamp b = map (fun i => (last_of (Angle i) ms).1) (seq 0 4);
  kn_dq : _dq b = map (fun i => (last_of (Rate i) ms).2) (seq 0 4);
  kn_dq_timestamp : _dq_timestamp b = map (fun i => (last_of (Rate i) ms).1) (seq 0 4);
  kn_valid : (_valid_timestamp b, _valid_value b) = last_of Validity ms
}.

#[export] Instance field_eq_dec : EqDecision field.
Proof. solve_decision. Defined.

(** The names differ. *)
Lemma name_inj f g : In f fields -> In g fields -> name_of f = name_of g -> f = g.
Proof. cbn. intros Hf Hg. intuition subst; done. Qed.

Lemma carries_one f g m : In f fields -> In g fields -> c_string (key m) = name_of f -> carries g m = bool_decide (g = f).
Proof.
  intros Hf Hg E. unfold carries. rewrite E. apply bool_decide_ext. split; [|by intros ->]. intros H. symmetry. by apply name_inj.
Qed.

Lemma joint_fields i : (i < 4)%nat -> In (Angle i) fields /\ In (Rate i) fields.
Proof. intros Hi. destruct i as [|[|[|[|i]]]]; [..|lia]; cbn; tauto. Qed.

(** What a history says after one more message of a name. *)
Lemma last_of_named f g ms m :
  In f fields -> In g fields -> c_string (key m) = name_of f ->
  last_of g (ms ++ [m]) = if bool_decide (g = f) then (dkv_timestamp m, dkv_value m) else last_of g ms.
Proof. intros Hf Hg E. by rewrite last_of_snoc, (carries_one f). Qed.

Lemma last_of_other g ms m : carries g m = false -> last_of g (ms ++ [m]) = last_of g ms.
Proof. intros E. by rewrite last_of_snoc, E. Qed.

(** One kind of values: the angles or the rates. *)
Record kind (C : nat -> field) : Prop := {
  kind_fields : forall i, (i < 4)%nat -> In (C i) fields;
  kind_inj : forall i j, C i = C j -> i = j
}.
Lemma angles : kind Angle.
Proof. split; [apply joint_fields | by intros i j [=]]. Qed.
Lemma rates : kind Rate.
Proof. split; [apply joint_fields | by intros i j [=]]. Qed.

(** The array of a kind after a message of that kind, and after another one. *)
Lemma array_written {A} C i ms m (h : Z * float -> A) :
  kind C -> (i < 4)%nat -> c_string (key m) = name_of (C i) ->
  <[i := h (dkv_timestamp m, dkv_value m)]> (map (fun j => h (last_of (C j) ms)) (seq 0 4))
  = map (fun j => h (last_of (C j) (ms ++ [m]))) (seq 0 4).
Proof.
  intros [HF Hinj] Hi E. 
  assert (Hj : forall j, (j < 4)%nat -> last_of (C j) (ms ++ [m])
                         = if bool_decide (j = i) then (dkv_timestamp m, dkv_value m) else last_of (C j) ms).
  { intros j Hj. rewrite (last_of_named (C i)) by auto. by rewrite (bool_decide_ext (C j = C i) (j = i)) by (split; [auto | congruence]). }
  cbn [seq map]. rewrite !Hj by lia. destruct i as [|[|[|[|i]]]]; [..|lia]; reflexivity.
Qed.

Lemma array_kept {A} C f ms m (h : Z * float -> A) :
  kind C -> (forall j, C j <> f) -> In f fields -> c_string (key m) = name_of f ->
  map (fun j => h (last_of (C j) ms)) (seq 0 4) = map (fun j => h (last_of (C j) (ms ++ [m]))) (seq 0 4).
Proof.
  intros [HF _] Hne Hf E. cbn [seq map].
  rewrite !(last_of_named f) by (done || apply HF; lia). by rewrite !bool_decide_eq_false_2 by apply Hne.
Qed.

Lemma array_same {A} C ms m (h : Z * float -> A) :
  (forall j, (j < 4)%nat -> carries (C j) m = false) ->
  map (fun j => h (last_of (C j) ms)) (seq 0 4) = map (fun j => h (last_of (C j) (ms ++ [m]))) (seq 0 4).
Proof. intros H. cbn [seq map]. by rewrite !last_of_other by (apply H; lia). Qed.

Lemma processDebugMessage_knows ms b m :
  knows ms b -> key_ok m -> knows (ms ++ [m]) (processDebugMessage m b).
Proof.
  intros [K1 K2 K3 K4 K5] Hk. unfold processDebugMessage. cbv zeta.
  destruct (names_joint AJQ (key m)) eqn:EQ; [|destruct (names_joint AJD (key m)) eqn:ED;
    [|destruct (strcmp_eq (key m) AJVAL) eqn:EV]].
  - apply (names_joint_index AJQ _ Hk (or_introl eq_refl)) in EQ as (i & Hi & E & ->).
    change (c_string (key m) = name_of (Angle i)) in E. pose proof (proj1 (joint_fields i Hi)) as HF.
    split; cbn [_q _dq _q_timestamp _dq_timestamp _valid_value _valid_timestamp]; rewrite ?K1, ?K2, ?K3, ?K4, ?K5.
    + by apply (array_written Angle i ms m snd angles).
    + by apply (array_written Angle i ms m fst angles).
    + by apply (array_kept Rate (Angle i) ms m snd rates).
    + by apply (array_kept Rate (Angle i) ms m fst rates).
    + by rewrite (last_of_named (Angle i)) by (cbn; tauto || done).
  - apply (names_joint_index AJD _ Hk (or_intror eq_refl)) in ED as (i & Hi & E & ->).
    change (c_string (key m) = name_of (Rate i)) in E. pose proof (proj2 (joint_fields i Hi)) as HF.
    split; cbn [_q _dq _q_timestamp _dq_timestamp _valid_value _valid_timestamp]; rewrite ?K1, ?K2, ?K3, ?K4, ?K5.
    + by apply (array_kept Angle (Rate i) ms m snd angles).
    + by apply (array_kept Angle (Rate i) ms m fst angles).
    + by apply (array_written Rate i ms m snd rates).
    + by apply (array_written Rate i ms m fst rates).
    + by rewrite (last_of_named (Rate i)) by (cbn; tauto || done).
  - apply strcmp_iff in EV; [|done]. change (c_string (key m) = name_of Validity) in EV. assert (In Validity fields) by (cbn; tauto).
    split; cbn [_q _dq _q_timestamp _dq_timestamp _valid_value _valid_timestamp]; rewrite ?K1, ?K2, ?K3, ?K4, ?K5.
    + by apply (array_kept Angle Validity ms m snd angles).
    + by apply (array_kept Angle Validity ms m fst angles).
    + by apply (array_kept Rate Validity ms m snd rates).
    + by apply (array_kept Rate Validity ms m fst rates).
    + by rewrite (last_of_named Validity).
  - assert (HA : forall j, (j < 4)%nat -> carries (Angle j) m = false).
    { intros j Hj. apply bool_decide_eq_false. intros E. apply not_true_iff_false in EQ. apply EQ.
      exact (names_joint_named AJQ _ j Hk (or_introl eq_refl) Hj E). }
    assert (HR : forall j, (j < 4)%nat -> carries (Rate j) m = false).
    { intros j Hj. apply bool_decide_eq_false. intros E. apply not_true_iff_false in ED. apply ED.
      exact (names_joint_named AJD _ j Hk (or_intror eq_refl) Hj E). }
    assert (HV : carries Validity m = false).
    { apply bool_decide_eq_false. intros E. apply not_true_iff_false in EV. by apply EV, strcmp_iff. }
    split; rewrite ?K1, ?K2, ?K3, ?K4, ?K5.
    + by apply (array_same Angle ms m snd).
    + by apply (array_same Angle ms m fst).
    + by apply (array_same Rate ms m snd).
    + by apply (array_same Rate ms m fst).
    + by rewrite last_of_other.
Qed.

Lemma knows_new : knows [] bridge_new.
Proof. done. Qed.

Lemma knows_published ms now b : knows ms b -> knows ms (publishJointStates now b).2.
Proof. by intros []. Qed.

Lemma Run_knows ms c b :
  knows ms b -> Forall key_ok (option_list (debug_msg c)) -> knows (ms ++ option_list (debug_msg c)) (Run c b).2.
Proof.
  intros K Hk. unfold Run.
  assert (K' : knows (ms ++ option_list (debug_msg c)) match debug_msg c with Some m => processDebugMessage m b | None => b end).
  { destruct (debug_msg c) as [m|]; cbn in *; [|by rewrite app_nil_r]. apply processDebugMessage_knows; [done|]. by inversion Hk. }
  destruct (_ || _); [by apply (knows_published _ (now_publish c)) in K' | done].
Qed.

Lemma messages_cons c cs : messages (c :: cs) = option_list (debug_msg c) ++ messages cs.
Proof. unfold messages. cbn. by destruct (debug_msg c). Qed.

Lemma messages_app cs cs' : messages (cs ++ cs') = messages cs ++ messages cs'.
Proof. induction cs as [|c cs IH]; [done|]. rewrite <- app_comm_cons, !messages_cons, IH. apply app_assoc. Qed.

Lemma run_knows cs : forall ms b, knows ms b -> Forall key_ok (messages cs) -> knows (ms ++ messages cs) (run cs b).
Proof.
  induction cs as [|c cs IH]; intros ms b K Hk; [by rewrite app_nil_r|].
  rewrite messages_cons in Hk |- *. apply Forall_app in Hk as [H1 H2]. rewrite app_assoc. apply IH; [by apply Run_knows | done].
Qed.

Lemma fieldFresh_iff ts now : fieldFresh ts now = true <-> ts <> 0 /\ u64 (now - ts) <= FIELD_TIMEOUT.
Proof. unfold fieldFresh. by rewrite andb_true_iff, negb_true_iff, Z.eqb_neq, Z.leb_le. Qed.

(** Valid means that all nine values are fresh and the flag is up. *)
Lemma valid_iff ms b now :
  knows ms b ->
  joints_fresh now b (fieldFresh (_valid_timestamp b) now && fltb (f_dec 1 2) (_valid_value b)) = true
  <-> (forall f, In f fields -> recent now f ms) /\ fltb (f_dec 1 2) (last_of Validity ms).2 = true.
Proof.
  intros [_ K2 _ K4 K5]. unfold joints_fresh. cbn [fold_left]. rewrite K2, K4.
  replace (_valid_timestamp b) with (last_of Validity ms).1 by (by rewrite <- K5).
  replace (_valid_value b) with (last_of Validity ms).2 by (by rewrite <- K5).
  unfold aget. cbn [seq map]. cbn -[last_of fieldFresh f_dec fltb].
  rewrite !andb_true_iff, !fieldFresh_iff. unfold recent. cbn [fields seq map app In]. split.
  - intros H. split; [|tauto]. intros f Hf.
    destruct Hf as [<-|[<-|[<-|[<-|[<-|[<-|[<-|[<-|[<-|[]]]]]]]]]]; tauto.
  - intros [H Hv]. pose proof (H (Angle 0)). pose proof (H (Angle 1)). pose proof (H (Angle 2)). pose proof (H (Angle 3)).
    pose proof (H (Rate 0)). pose proof (H (Rate 1)). pose proof (H (Rate 2)). pose proof (H (Rate 3)). pose proof (H Validity). tauto.
Qed.

(** A message that is published is made of a state that knows all messages. *)
Lemma bridge_published cs c m b :
  Forall key_ok (messages (cs ++ [c])) -> Run c (run cs bridge_new) = (Some m, b) ->
  exists b0, knows (messages (cs ++ [c])) b0 /\ m = (publishJointStates (now_publish c) b0).1.
Proof.
  intros Hk H. rewrite messages_app, messages_cons in Hk |- *. change (messages []) with (@nil debug_key_value_s) in *.
  rewrite app_nil_r in Hk |- *. apply Forall_app in Hk as [H1 H2].
  pose proof (run_knows cs [] bridge_new knows_new H1) as K. cbn [app] in K. unfold Run in H.
  set (b0 := match debug_msg c with Some m => processDebugMessage m (run cs bridge_new) | None => run cs bridge_new end) in H.
  exists b0. destruct (_ || _); [|done]. injection H as <- _. split; [|done].
  unfold b0. destruct (debug_msg c) as [x|]; cbn in *; [|by rewrite app_nil_r]. apply processDebugMessage_knows; [done|]. by inversion H2.
Qed.

(** * The published state of the arm *)

(** C17: the bridge publishes what it was told.  In every history of cycles, with
    messages of any names, a message it publishes carries for each joint the angle
    and the rate of the last message of that name, and is valid if and only if each
    of the nine values has been received and none is older than 200 ms, and the
    validity flag last received is above one half. *)
Theorem joint_states_exact (cs : list cycle) (c : cycle) (m : arm_joint_states_s) (b : bridge) :
  Forall key_ok (messages (cs ++ [c])) -> Run c (run cs bridge_new) = (Some m, b) ->
  let ms := messages (cs ++ [c]) in
  ajs_q m = map (fun i => (last_of (Angle i) ms).2) (seq 0 4)
  /\ ajs_dq m = map (fun i => (last_of (Rate i) ms).2) (seq 0 4)
  /\ ajs_timestamp m = now_publish c
  /\ (ajs_valid m = true
      <-> (forall f, In f fields -> recent (now_publish c) f ms) /\ fltb (f_dec 1 2) (last_of Validity ms).2 = true).
Proof.
  intros Hk H. destruct (bridge_published cs c m b Hk H) as (b0 & K & ->). pose proof K as [K1 _ K3 _ _].
  split_and!; [exact K1 | exact K3 | done | by apply valid_iff].
Qed.

(** It publishes in the first cycle, and then in each one that comes 20 ms or more
    after the last publication. *)
Theorem publishes_on_time (cs : list cycle) (c : cycle) :
  is_Some (Run c (run cs bridge_new)).1
  <-> _last_publish (run cs bridge_new) = 0
      \/ PUBLISH_INTERVAL <= u64 (now_run c - _last_publish (run cs bridge_new)).
Proof.
  unfold Run. set (b := run cs bridge_new). clearbody b.
  assert (Hl : _last_publish match debug_msg c with Some m => processDebugMessage m b | None => b end = _last_publish b).
  { destruct (debug_msg c) as [m|]; [|done]. unfold processDebugMessage. by repeat case_match. }
  rewrite Hl. destruct (_ || _) eqn:E; cbn; rewrite orb_true_iff, Z.eqb_eq, Z.leb_le in E || rewrite orb_false_iff, Z.eqb_neq, Z.leb_gt in E.
  - split; [by intros _ | by eexists].
  - split; [by intros [? ?] | lia].
Qed.

(** * Examples *)

(** A message of a name, filled up with zeros to ten characters. *)
Definition named (f : field) (t : Z) (v : float) : debug_key_value_s :=
  Debug_key_value t (take 10 (name_of f ++ replicate 10 0)) v.

(** The arm sends its nine values, one each millisecond from [t] on; the cycles
    follow the messages. *)
Definition sends (t : Z) (v : nat -> float) : list cycle :=
  imap (fun k f => let now := t + 1000 * Z.of_nat k in Cycle (Some (named f now (v k))) now now) fields.
Definition one_each : nat -> float := fun _ => f_of_Z 1.

Lemma joint_states_exact_witness :
  let c := Cycle None 40000 40000 in
  let ms := messages (sends 1000 one_each ++ [c]) in
  match (Run c (run (sends 1000 one_each) bridge_new)).1 with
  | Some m => ajs_valid m = true -> forall f, In f fields -> recent 40000 f ms
  | None => False
  end.
Proof.
  cbv zeta. destruct (Run (Cycle None 40000 40000) (run (sends 1000 one_each) bridge_new)) as [[m|] b] eqn:E; cbn [fst].
  - intros Hv. refine (proj1 (proj1 (proj2 (proj2 (proj2 (joint_states_exact _ _ m b _ E)))) Hv)). by repeat constructor.
  - vm_compute in E. discriminate E.
Defined.

(** The state of the arm is valid while it is sent, and 200 ms later no more. *)
Lemma arm_lost :
  let b := run (sends 1000 one_each) bridge_new in
  option_map ajs_valid (Run (Cycle None 40000 40000) b).1 = Some true
  /\ option_map ajs_valid (Run (Cycle None 201001 201001) b).1 = Some false.
Proof. by vm_compute. Qed.

(** An angle that is not a number is published as valid. *)
Lemma nan_angle_valid :
  let b := run (sends 1000 (fun k => if Nat.eqb k 0 then NAN else f_of_Z 1)) bridge_new in
  option_map ajs_valid (Run (Cycle None 40000 40000) b).1 = Some true
  /\ option_map (fun m => ajs_q m !! 0%nat) (Run (Cycle None 40000 40000) b).1 = Some (Some NAN).
Proof. by vm_compute. Qed.
