(* ===== verification/ArmKinematics.v ===== *)
(** The kinematics and dynamics of the manipulator
    (src/modules/eso_att_control/ArmKinematics.hpp) with the two model profiles of
    src/modules/eso_common: the centre of mass and the inertia of the vehicle for
    the angles of the arm's joints, and the cache between the two.  The operations
    on matrices are those of the library, as in [EsoVector]. *)

From Stdlib Require Import ZArith Lia SpecFloat.
From stdpp Require Import base list numbers sets.
From S2P Require Import Prelude Float32 EsoVector EsoRate.

Local Open Scope Z_scope.

(** Two more operations of the matrix library. *)
Class MatrixSums := { mat_add : mat3 -> mat3 -> mat3; mat_scale : mat3 -> float -> mat3 }.

(** [n / 10^k]: the constants of the models, in binary32. *)
Definition c6 (n : Z) : float := f_dec n 1000000.
Definition c8 (n : Z) : float := f_dec n 100000000.
Definition M_PI_F : float := S754_finite false 13176795 (-22).
Definition M_PI_2_F : float := S754_finite false 13176795 (-23).

(** * Model profiles *)

Inductive ModelProfile := UavArmV4 | UamV5.
#[export] Instance ModelProfile_eq_dec : EqDecision ModelProfile.
Proof. solve_decision. Defined.

Record DynamicsProfile := Dynamics_profile {
  mass_total : float; profile_com : vec3; arm_inertia_diag : vec3; body_inertia_diag : vec3; profile_use_dynamic_arm_model : bool
}.

Definition kUavArmV4Profile : DynamicsProfile :=
  Dynamics_profile (c6 1289000) (V3 (fneg (c6 10000)) fzero (c6 161000)) (V3 (c6 16000) (c6 16000) (c6 16000))
    (V3 (c6 45000) (c6 45000) (c6 80000)) true.

Definition kUamV5Profile : DynamicsProfile :=
  Dynamics_profile (c6 4854800) (V3 (c8 405203) fzero (c8 6556744)) (V3 (c8 842308) (c8 4709706) (c8 4006098))
    (V3 (c6 49436) (c6 52665) (c6 86619)) true.

Definition getDynamicsProfile (p : ModelProfile) : DynamicsProfile :=
  match p with UamV5 => kUamV5Profile | UavArmV4 => kUavArmV4Profile end.

Definition resolveModelProfile (raw_value : Z) : ModelProfile := if raw_value =? 1 then UamV5 else UavArmV4.

Definition diag3 (v : vec3) : mat3 := diag (vx v) (vy v) (vz v).
Definition armInertiaMatrix (p : DynamicsProfile) : mat3 := diag3 (arm_inertia_diag p).
Definition bodyInertiaMatrix (p : DynamicsProfile) : mat3 := diag3 (body_inertia_diag p).

(** [const float q[4]] *)
Record angles := Q4 { a0 : float; a1 : float; a2 : float; a3 : float }.
Definition zero_angles : angles := Q4 fzero fzero fzero fzero.

(** What [computeSystemCoM] keeps for the inertia: the centres of mass of the
    links and of the system. *)
Record positions := Positions { p1 : vec3; p2 : vec3; p3 : vec3; p4 : vec3; com : vec3 }.
Definition zero_positions : positions := Positions zero3 zero3 zero3 zero3 zero3.

Section Kinematics.
Context `{M : Matrix} `{A : MatrixSums}.
Local Open Scope vec_scope.

Definition staticSystemInertiaMatrix (p : DynamicsProfile) : mat3 := mat_add (armInertiaMatrix p) (bodyInertiaMatrix p).

(** * Geometry *)

Definition skew (v : vec3) : mat3 :=
  M3 (V3 fzero (fneg (vz v)) (vy v)) (V3 (vz v) fzero (fneg (vx v))) (V3 (fneg (vy v)) (vx v) fzero).
Definition rotZ (angle : float) : mat3 :=
  let c := cosf angle in let s := sinf angle in
  M3 (V3 c (fneg s) fzero) (V3 s c fzero) (V3 fzero fzero fone).
Definition rotX (angle : float) : mat3 :=
  let c := cosf angle in let s := sinf angle in
  M3 (V3 fone fzero fzero) (V3 fzero c (fneg s)) (V3 fzero s c).
Definition rotY (angle : float) : mat3 :=
  let c := cosf angle in let s := sinf angle in
  M3 (V3 c fzero s) (V3 fzero fone fzero) (V3 (fneg s) fzero c).

Record Pose3f := makePose { pose_R : mat3; pose_t : vec3 }.
Definition composePose (parent child : Pose3f) : Pose3f :=
  makePose (mat_mul (pose_R parent) (pose_R child)) (pose_t parent + mat_vec (pose_R parent) (pose_t child)).
Definition transformPoint (pose : Pose3f) (local_point : vec3) : vec3 := pose_t pose + mat_vec (pose_R pose) local_point.
Definition fluToFrdVector (v : vec3) : vec3 := V3 (vx v) (fneg (vy v)) (fneg (vz v)).
Definition fluToFrdMatrix (m : mat3) : mat3 :=
  let C := diag fone (fneg fone) (fneg fone) in mat_mul (mat_mul C m) (transpose C).
Definition makeMdhPose (alpha_prev a_prev theta_i d_i : float) : Pose3f :=
  makePose (mat_mul (rotX alpha_prev) (rotZ theta_i)) (mat_vec (rotX alpha_prev) (V3 a_prev fzero d_i)).

(** A link's inertia about the system's centre of mass: its own, turned, and that
    of its mass ([R * I * R^T + S^T * S * m]). *)
Definition moved_inertia (r : vec3) (m : float) : mat3 :=
  let S := skew r in mat_scale (mat_mul (transpose S) S) m.
Definition link_inertia (R I : mat3) (r : vec3) (m : float) : mat3 :=
  mat_add (mat_mul (mat_mul R I) (transpose R)) (moved_inertia r m).

(** * The model of uav_arm_v4 *)

Definition v4_m_base : float := fadd (c6 844401) (c6 15000).
Definition v4_m1 : float := c6 250494.
Definition v4_m2 : float := c6 20149.
Definition v4_m3 : float := c8 3971050.
Definition v4_m4 : float := c8 6316240.
Definition v4_m_grip : float := c6 16000.
Definition v4_m_total : float := fadd (fadd (fadd (fadd (fadd v4_m_base v4_m1) v4_m2) v4_m3) v4_m4) v4_m_grip.

(** A point at a distance along a link or across it, in the plane of the arm. *)
Definition v4_along (c0 s0 L c s : float) : vec3 := V3 (fmul (fmul c0 L) s) (fmul (fmul s0 L) s) (fmul L c).
Definition v4_across (c0 s0 d c s : float) : vec3 := V3 (fmul (fmul c0 d) c) (fmul (fmul s0 d) c) (fmul (fneg d) s).

Definition v4_positions (q : angles) : positions :=
  let c0 := cosf (a0 q) in let s0 := sinf (a0 q) in
  let c1 := cosf (a1 q) in let s1 := sinf (a1 q) in
  let c12 := cosf (fadd (a1 q) (a2 q)) in let s12 := sinf (fadd (a1 q) (a2 q)) in
  let c123 := cosf (fadd (fadd (a1 q) (a2 q)) (a3 q)) in let s123 := sinf (fadd (fadd (a1 q) (a2 q)) (a3 q)) in
  let p_base_com := V3 (c6 642) fzero (fneg (c6 193246)) in
  let p_j1 := V3 fzero fzero (c6 174500) in
  let p1_com := p_j1 + V3 fzero fzero (c6 43715) in
  let p_j2 := p_j1 + v4_along c0 s0 (c6 132000) c1 s1 in
  let p2_com := p_j2 + v4_across c0 s0 (c6 40630) c1 s1 in
  let p_j3 := p_j2 + v4_along c0 s0 (c6 88500) c12 s12 in
  let p3_com := p_j3 + v4_across c0 s0 (c6 25422) c12 s12 in
  let p_j4 := p_j3 + v4_along c0 s0 (c6 88500) c123 s123 in
  let p4_com := p_j4 + v4_across c0 s0 (c6 30336) c123 s123 in
  let p_sys_com := v3_div (p_base_com * v4_m_base + p1_com * v4_m1 + p2_com * v4_m2 + p3_com * v4_m3
                           + p4_com * fadd v4_m4 v4_m_grip) v4_m_total in
  Positions p1_com p2_com p3_com p4_com p_sys_com.

(** The inertia, of the positions that are cached and the angles. *)
Definition v4_inertia (base : mat3) (p : positions) (q : angles) : mat3 :=
  let five := diag (c6 5000) (c6 5000) (c6 5000) in
  let three := diag (c6 3000) (c6 3000) (c6 3000) in
  let R1 := rotZ (a0 q) in
  let R2 := mat_mul R1 (rotY (a1 q)) in
  let R3 := mat_mul R2 (rotY (a2 q)) in
  let R4 := mat_mul R3 (rotY (a3 q)) in
  let I_total := mat_add base (link_inertia R1 five (p1 p - com p) v4_m1) in
  let I_total := mat_add I_total (link_inertia R2 five (p2 p - com p) v4_m2) in
  let I_total := mat_add I_total (link_inertia R3 three (p3 p - com p) v4_m3) in
  mat_add I_total (link_inertia R4 three (p4 p - com p) (fadd v4_m4 v4_m_grip)).

(** * The model of uam_v5 *)

Definition v5_m_base : float := c6 3667800.
Definition v5_m1 : float := c6 593000.
Definition v5_m2g : float := c6 594000.
Definition v5_m_total : float := fadd (fadd v5_m_base v5_m1) v5_m2g.
Definition v5_base_com : vec3 := V3 (fneg (c6 44000)) fzero (fneg (c6 46000)).

(** The angle of a joint with its sign and offset, 1 and 0. *)
Definition v5_theta (angle : float) : float := fmul fone (fadd angle fzero).

(** The poses of the two links. *)
Definition v5_T_B_1 (q : angles) : Pose3f :=
  composePose (makePose (rotX (fneg M_PI_F)) (V3 (c6 115000) fzero (fneg (c6 90000))))
    (makeMdhPose fzero fzero (v5_theta (a0 q)) fzero).
Definition v5_T_B_2 (q : angles) : Pose3f :=
  composePose (composePose (v5_T_B_1 q) (makePose (rotX (fneg M_PI_2_F)) (V3 fzero fzero (c6 72000))))
    (makeMdhPose fzero fzero (v5_theta (a1 q)) fzero).

(** In the frame of the model, z up. *)
Definition v5_positions (q : angles) : positions :=
  let p1_com := transformPoint (v5_T_B_1 q) zero3 in
  let p2g_com := transformPoint (v5_T_B_2 q) (V3 (c6 75000) fzero fzero) in
  Positions p1_com p2g_com zero3 zero3
    (v3_div (v5_base_com * v5_m_base + p1_com * v5_m1 + p2g_com * v5_m2g) v5_m_total).

Definition v5_inertia (p : positions) (q : angles) : mat3 :=
  let I_base_local := diag (c6 49436) (c6 52665) (c6 86619) in
  let I1_local := diag (c6 839) (c6 791) (c6 943) in
  let I2g_local := diag (c6 302) (c6 2811) (c6 2717) in
  let I_total := mat_add I_base_local (moved_inertia (v5_base_com - com p) v5_m_base) in
  let I_total := mat_add I_total (link_inertia (pose_R (v5_T_B_1 q)) I1_local (p1 p - com p) v5_m1) in
  let I_total := mat_add I_total (link_inertia (pose_R (v5_T_B_2 q)) I2g_local (p2 p - com p) v5_m2g) in
  fluToFrdMatrix I_total.

(** * The object *)

Record ArmKinematics := Arm_kinematics {
  _model_profile : ModelProfile;
  _mass_total_system : float; _base_com_offset : vec3; _base_inertia_val : mat3;
  _cached : positions; _cached_q : angles; _uam_v5_cache_valid : bool
}.

Definition arm_new : ArmKinematics := Arm_kinematics UavArmV4 (f_dec 3 2) zero3 zero_mat zero_positions zero_angles false.

Definition setModelProfile (profile : ModelProfile) (k : ArmKinematics) : ArmKinematics :=
  Arm_kinematics profile (_mass_total_system k) (_base_com_offset k) (_base_inertia_val k) (_cached k) (_cached_q k) false.

Definition setParameters (mass : float) (base_com_offset : vec3) (base_inertia : mat3) (k : ArmKinematics) : ArmKinematics :=
  Arm_kinematics (_model_profile k) mass base_com_offset base_inertia (_cached k) (_cached_q k) false.

Definition with_cache (p : positions) (q : angles) (valid : bool) (k : ArmKinematics) : ArmKinematics :=
  Arm_kinematics (_model_profile k) (_mass_total_system k) (_base_com_offset k) (_base_inertia_val k) p q valid.

Definition computeSystemCoM_UavArmV4 (q : angles) (k : ArmKinematics) : vec3 * ArmKinematics :=
  let p := v4_positions q in (com p, with_cache p q (_uam_v5_cache_valid k) k).

Definition computeSystemCoM_UamV5 (q : angles) (k : ArmKinematics) : vec3 * ArmKinematics :=
  let p := v5_positions q in (fluToFrdVector (com p), with_cache p q true k).

Definition computeSystemCoM (q : angles) (k : ArmKinematics) : vec3 * ArmKinematics :=
  match _model_profile k with
  | UamV5 => computeSystemCoM_UamV5 q k
  | UavArmV4 => computeSystemCoM_UavArmV4 q k
  end.

(** [fabsf(a - b) > q_eps] *)
Definition moved (a b : float) : bool := fltb (f_dec 1 1000000) (fabs (fsub a b)).

Definition computeSystemInertia_UavArmV4 (q : angles) (k : ArmKinematics) : mat3 * ArmKinematics :=
  let c := _cached_q k in
  let k := if moved (a0 q) (a0 c) || moved (a1 q) (a1 c) || moved (a2 q) (a2 c) || moved (a3 q) (a3 c)
           then (computeSystemCoM q k).2 else k in
  (v4_inertia (_base_inertia_val k) (_cached k) q, k).

Definition computeSystemInertia_UamV5 (q : angles) (k : ArmKinematics) : mat3 * ArmKinematics :=
  let c := _cached_q k in
  let k := if moved (a0 q) (a0 c) || moved (a1 q) (a1 c) || negb (_uam_v5_cache_valid k)
           then (computeSystemCoM_UamV5 q k).2 else k in
  (v5_inertia (_cached k) q, k).

Definition computeSystemInertia (q : angles) (k : ArmKinematics) : mat3 * ArmKinematics :=
  match _model_profile k with
  | UamV5 => computeSystemInertia_UamV5 q k
  | UavArmV4 => computeSystemInertia_UavArmV4 q k
  end.

(** * The specification: without a cache *)

Definition positions_of (p : ModelProfile) (q : angles) : positions :=
  match p with UamV5 => v5_positions q | UavArmV4 => v4_positions q end.

Definition system_com (p : ModelProfile) (q : angles) : vec3 :=
  match p with UamV5 => fluToFrdVector (com (v5_positions q)) | UavArmV4 => com (v4_positions q) end.

(** The inertia with the links where they are for the angles [at], turned as for [q]. *)
Definition inertia_at (p : ModelProfile) (base : mat3) (at_ : positions) (q : angles) : mat3 :=
  match p with UamV5 => v5_inertia at_ q | UavArmV4 => v4_inertia base at_ q end.

Definition system_inertia (p : ModelProfile) (base : mat3) (q : angles) : mat3 := inertia_at p base (positions_of p q) q.

(** Angles the code takes for the same. *)
Definition same_angles (p : ModelProfile) (q q' : angles) : Prop :=
  moved (a0 q) (a0 q') = false /\ moved (a1 q) (a1 q') = false
  /\ (p = UavArmV4 -> moved (a2 q) (a2 q') = false /\ moved (a3 q) (a3 q') = false).

(** Where the cache is from: a computation of a profile at some angles, or still
    the construction of the object. *)
Definition source : Type := option (ModelProfile * angles).
Definition source_positions (s : source) : positions :=
  match s with Some (p, q) => positions_of p q | None => zero_positions end.
Definition source_angles (s : source) : angles := match s with Some (_, q) => q | None => zero_angles end.

(** ** Histories *)

Inductive arm_op :=
  | SetModelProfile (p : ModelProfile)
  | SetParameters (mass : float) (offset : vec3) (inertia : mat3)
  | CoM (q : angles)
  | Inertia (q : angles).

Definition arm_step (k : ArmKinematics) (o : arm_op) : ArmKinematics :=
  match o with
  | SetModelProfile p => setModelProfile p k
  | SetParameters m c i => setParameters m c i k
  | CoM q => (computeSystemCoM q k).2
  | Inertia q => (computeSystemInertia q k).2
  end.
Definition arm_run (os : list arm_op) (k : ArmKinematics) : ArmKinematics := fold_left arm_step os k.

Definition op_angles (o : arm_op) : option angles := match o with CoM q | Inertia q => Some q | _ => None end.

End Kinematics.

(** * Lemmas *)

Section Laws.
Context `{M : Matrix} `{A : MatrixSums}.

(** The cache is what its source says; the flag vouches for uam_v5. *)
Record cached_from (s : source) (k : ArmKinematics) : Prop := {
  cf_positions : _cached k = source_positions s;
  cf_angles : _cached_q k = source_angles s;
  cf_valid : _uam_v5_cache_valid k = true -> exists q, s = Some (UamV5, q)
}.

Lemma cached_new : cached_from None arm_new.
Proof. by split. Qed.

Lemma cached_setModelProfile s p k : cached_from s k -> cached_from s (setModelProfile p k).
Proof. by intros []. Qed.
Lemma cached_setParameters s m c i k : cached_from s k -> cached_from s (setParameters m c i k).
Proof. by intros []. Qed.

(** Computing the centre of mass refills the cache, whatever it was; of uam_v4
    the flag stays. *)
Lemma computeSystemCoM_result q k : (computeSystemCoM q k).1 = system_com (_model_profile k) q.
Proof. unfold computeSystemCoM. by destruct (_model_profile k). Qed.

Lemma computeSystemCoM_cached q k : _model_profile k = UamV5 \/ _uam_v5_cache_valid k = false ->
  cached_from (Some (_model_profile k, q)) (computeSystemCoM q k).2.
Proof.
  unfold computeSystemCoM. intros [E | E].
  - rewrite E. split; [done | done | by exists q].
  - destruct (_model_profile k); (split; [done | done | cbn; try congruence]). by exists q.
Qed.

(** The flag is only ever set under uam_v5. *)
Definition flag_ok (k : ArmKinematics) : Prop := _uam_v5_cache_valid k = true -> _model_profile k = UamV5.

Lemma flag_step o k : flag_ok k -> flag_ok (arm_step k o).
Proof.
  unfold flag_ok. intros H.
  destruct o as [p | m c i | q | q]; cbn [arm_step];
    unfold computeSystemCoM, computeSystemInertia, computeSystemInertia_UavArmV4, computeSystemInertia_UamV5;
    try done; destruct (_model_profile k) eqn:E; cbn [snd];
    try (match goal with |- context [if ?b then _ else _] => destruct b end);
    unfold computeSystemCoM; rewrite ?E; cbn; intros Hv; try (specialize (H Hv)); congruence.
Qed.

Lemma flag_CoM k : flag_ok k -> _model_profile k = UamV5 \/ _uam_v5_cache_valid k = false.
Proof. intros H. destruct (_uam_v5_cache_valid k) eqn:E; [left; auto | by right]. Qed.

Lemma profile_step o k : _model_profile (arm_step k o) = match o with SetModelProfile p => p | _ => _model_profile k end.
Proof.
  destruct o as [p | m c i | q | q]; cbn [arm_step]; try done;
    unfold computeSystemCoM, computeSystemInertia, computeSystemInertia_UavArmV4, computeSystemInertia_UamV5;
    destruct (_model_profile k) eqn:E; try done; cbn [snd];
    (match goal with |- context [if ?b then _ else _] => destruct b end);
    unfold computeSystemCoM; rewrite ?E; done.
Qed.

Lemma base_step o k :
  _base_inertia_val (arm_step k o) = match o with SetParameters _ _ i => i | _ => _base_inertia_val k end.
Proof.
  destruct o as [p | m c i | q | q]; cbn [arm_step]; try done;
    unfold computeSystemCoM, computeSystemInertia, computeSystemInertia_UavArmV4, computeSystemInertia_UamV5;
    destruct (_model_profile k) eqn:E; try done; cbn [snd];
    (match goal with |- context [if ?b then _ else _] => destruct b end);
    unfold computeSystemCoM; rewrite ?E; done.
Qed.

Lemma moved_true_or a b : moved a b = true \/ moved a b = false.
Proof. destruct (moved a b); auto. Qed.

(** The inertia: of the cache where the angles are the same, of a refilled one
    else.  [fresh] says which. *)
Lemma computeSystemInertia_cases q k s :
  flag_ok k -> cached_from s k ->
  exists s', (s' = s \/ s' = Some (_model_profile k, q))
    /\ cached_from s' (computeSystemInertia q k).2
    /\ (computeSystemInertia q k).1 = inertia_at (_model_profile k) (_base_inertia_val k) (source_positions s') q
    /\ (s' = s -> same_angles (_model_profile k) q (source_angles s) \/ s' = Some (_model_profile k, q))
    /\ (_model_profile k = UamV5 -> exists q', s' = Some (UamV5, q')).
Proof.
  intros HF C. pose proof (flag_CoM k HF) as HC. unfold computeSystemInertia.
  destruct (_model_profile k) eqn:E.
  - unfold computeSystemInertia_UavArmV4. destruct (_ || _) eqn:EM.
    + exists (Some (UavArmV4, q)).
      pose proof (computeSystemCoM_cached q k) as HN. rewrite E in HN. specialize (HN HC).
      pose proof (base_step (CoM q) k) as HB. cbn [arm_step] in HB. cbn [fst snd].
      split_and!; [by right | done | | by right | done]. by rewrite (cf_positions _ _ HN), HB.
    + exists s. rewrite !orb_false_iff, <- !(cf_angles _ _ C) in *. cbn [fst snd]. rewrite (cf_positions _ _ C).
      split_and!; [by left | done | done | | done]. left. rewrite (cf_angles _ _ C) in *. unfold same_angles. tauto.
  - unfold computeSystemInertia_UamV5. destruct (_ || _) eqn:EM.
    + exists (Some (UamV5, q)). cbn [fst snd].
      split_and!; [by right | | done | by right | by exists q]. split; [done | done | by exists q].
    + rewrite !orb_false_iff, negb_false_iff in EM. destruct EM as [[E0 E1] EV].
      exists s. cbn [fst snd]. rewrite (cf_positions _ _ C), (cf_angles _ _ C) in *.
      split_and!; [by left | done | done | | intros _; by apply (cf_valid _ _ C)]. left. by split_and!.
Qed.
End Laws.

(** * Histories *)

Section Histories.
Context `{M : Matrix} `{A : MatrixSums}.

(** A source that the history explains. *)
Definition explained (os : list arm_op) (s : source) : Prop :=
  match s with Some (_, q) => q ∈ omap op_angles os | None => True end.

Record good (os : list arm_op) (s : source) (k : ArmKinematics) : Prop := {
  good_flag : flag_ok k;
  good_cached : cached_from s k;
  good_explained : explained os s
}.

Lemma explained_snoc os o s : explained os s -> explained (os ++ [o]) s.
Proof. destruct s as [[p q]|]; [|done]. unfold explained. rewrite omap_app. set_solver. Qed.

Lemma explained_new os o p q : op_angles o = Some q -> explained (os ++ [o]) (Some (p, q)).
Proof. intros E. unfold explained. rewrite omap_app. cbn. rewrite E. set_solver. Qed.

Lemma good_step os s k o : good os s k -> exists s', good (os ++ [o]) s' (arm_step k o).
Proof.
  intros [HF HC HE]. pose proof (flag_step o k HF) as HF'.
  destruct o as [p | m c i | q | q]; cbn [arm_step] in *.
  - exists s. split; [done | by apply cached_setModelProfile | by apply explained_snoc].
  - exists s. split; [done | by apply cached_setParameters | by apply explained_snoc].
  - exists (Some (_model_profile k, q)). split; [done | by apply computeSystemCoM_cached, flag_CoM | by apply explained_new].
  - destruct (computeSystemInertia_cases q k s HF HC) as (s' & Hs & HC' & _). exists s'. split; [done | done|].
    destruct Hs as [-> | ->]; [by apply explained_snoc | by apply explained_new].
Qed.

Lemma good_run os : exists s, good os s (arm_run os arm_new).
Proof.
  induction os as [|o os [s IH]] using rev_ind.
  - exists None. split; [done | apply cached_new | done].
  - unfold arm_run in *. rewrite fold_left_app. by apply (good_step os s).
Qed.

(** The inertia of any history: the links are where they are for these angles, or
    for earlier ones that the code takes for the same. *)
Lemma inertia_history os q :
  let k := arm_run os arm_new in
  exists s, (s = Some (_model_profile k, q) \/ (explained os s /\ same_angles (_model_profile k) q (source_angles s)))
    /\ (computeSystemInertia q k).1 = inertia_at (_model_profile k) (_base_inertia_val k) (source_positions s) q
    /\ (_model_profile k = UamV5 -> exists q', s = Some (UamV5, q')).
Proof.
  intros k. destruct (good_run os) as [s [HF HC HE]]. fold k in HF, HC.
  destruct (computeSystemInertia_cases q k s HF HC) as (s' & Hs & _ & HI & Hsame & H5). exists s'.
  split_and!; [|done|done]. destruct Hs as [Hs | Hs]; [|by left].
  destruct (Hsame Hs) as [H | H]; [right; by rewrite Hs | by left].
Qed.

(** Straight after the centre of mass the inertia is that of the same angles. *)
Lemma inertia_after_com q k : flag_ok k ->
  (computeSystemInertia q (computeSystemCoM q k).2).1 = system_inertia (_model_profile k) (_base_inertia_val k) q.
Proof.
  intros HF. pose proof (computeSystemCoM_cached q k (flag_CoM k HF)) as HC.
  pose proof (flag_step (CoM q) k HF) as HF'. pose proof (profile_step (CoM q) k) as HP. pose proof (base_step (CoM q) k) as HB.
  cbn [arm_step] in *.
  destruct (computeSystemInertia_cases q _ _ HF' HC) as (s' & Hs & _ & -> & _). rewrite HP, HB in *.
  unfold system_inertia. by destruct Hs as [-> | ->].
Qed.

(** ** What goes wrong *)

(** An angle is the same as itself, whatever it is. *)
Lemma moved_self a : moved a a = false.
Proof.
  unfold moved, fsub, fadd, fneg. destruct a as [[]|[]| |sg m e]; try done.
  cbn [SFopp]. unfold SFadd. rewrite Z.min_id.
  destruct (shl_align m e e) as [m' e'] eqn:E. cbn [fst].
  replace (cond_Zopp sg (Z.pos m') + cond_Zopp (negb sg) (Z.pos m')) with 0 by (destruct sg; cbn; lia). done.
Qed.

Lemma moved_nan a : moved a NAN = false.
Proof. unfold moved. autorewrite with nan. done. Qed.

(** Once the positions of angles that are not numbers are cached, the inertia
    keeps them whatever the angles become. *)
Lemma nan_angles_stick k bad qs q :
  _model_profile k = UamV5 -> _uam_v5_cache_valid k = false -> a0 bad = NAN -> a1 bad = NAN ->
  (computeSystemInertia q (arm_run (map Inertia (bad :: qs)) k)).1 = v5_inertia (v5_positions bad) q.
Proof.
  intros HP HV H0 H1.
  set (stuck k := _model_profile k = UamV5 /\ _uam_v5_cache_valid k = true /\ _cached_q k = bad /\ _cached k = v5_positions bad).
  assert (Hstep : forall k q, stuck k -> computeSystemInertia q k = (v5_inertia (v5_positions bad) q, k)).
  { intros k' q' (E1 & E2 & E3 & E4). unfold computeSystemInertia, computeSystemInertia_UamV5.
    rewrite E1, E2, E3, H0, H1, !moved_nan. cbn. by rewrite E4. }
  assert (Hrun : forall qs k, stuck k -> stuck (arm_run (map Inertia qs) k)).
  { clear qs. intros qs. induction qs as [|q' qs IH]; intros k' Hk; [done|]. apply IH. cbn [arm_step]. by rewrite Hstep. }
  rewrite Hstep; [done|]. cbn [map]. change (arm_run _ k) with (arm_run (map Inertia qs) (arm_step k (Inertia bad))).
  apply Hrun. cbn [arm_step]. unfold computeSystemInertia, computeSystemInertia_UamV5. rewrite HP, HV, orb_true_r. by cbn.
Qed.

(** The arm of uav_v4 that has not moved yet does not count: all links are taken
    to be at the origin. *)
Lemma v4_first_inertia m c base :
  (computeSystemInertia zero_angles (arm_run [SetModelProfile UavArmV4; SetParameters m c base] arm_new)).1
  = v4_inertia base zero_positions zero_angles.
Proof. done. Qed.

(** After a change of the profile uav_arm_v4 uses the positions of uam_v5, until
    a joint moves. *)
Lemma v4_uses_v5_positions m c base q :
  (computeSystemInertia q (arm_run [SetModelProfile UamV5; CoM q; SetModelProfile UavArmV4; SetParameters m c base] arm_new)).1
  = v4_inertia base (v5_positions q) q.
Proof. cbn. unfold computeSystemInertia, computeSystemInertia_UavArmV4. cbn. by rewrite !moved_self. Qed.
End Histories.

(** * Concrete values *)

(** The matrix operations of [bench] with given trigonometric functions. *)
Definition with_trig (c s : float -> float) : Matrix := {|
  v2_add := v2_add; v2_sub := v2_sub; v2_scale := v2_scale; v2_div := v2_div; v2_dot := v2_dot; v2_norm := v2_norm;
  v2_normalized := v2_normalized; v2_longerThan := v2_longerThan;
  v3_add := v3_add; v3_sub := v3_sub; v3_neg := v3_neg; v3_emult := v3_emult; v3_scale := v3_scale; v3_div := v3_div;
  v3_dot := v3_dot; v3_cross := v3_cross; v3_norm := v3_norm; v3_norm_squared := v3_norm_squared; v3_normalized := v3_normalized;
  mat_vec := mat_vec; mat_mul := mat_mul; transpose := transpose; mat_inverse := mat_inverse;
  Dcm := Dcm; quat_of_Dcm := quat_of_Dcm; euler_of_Dcm := euler_of_Dcm; euler_of_quat := euler_of_quat;
  quat_norm_squared := quat_norm_squared; quat_normalized := quat_normalized; quat_scale := quat_scale; quat_mul := quat_mul;
  acosf := acosf; cosf := c; sinf := s; CONSTANTS_ONE_G := CONSTANTS_ONE_G
|}.

(** The correctly rounded values at 0, the multiples of a right angle, and NaN. *)
Definition tiny (e : Z) : float := S754_finite false 12303662 e.
Definition is_float (x y : float) : bool := match SFcompare x y with Some Eq => true | _ => false end.
Definition home_cosf (x : float) : float :=
  if is_float x fzero then fone
  else if is_float (fabs x) M_PI_F then fneg fone
  else if is_float (fabs x) M_PI_2_F then fneg (tiny (-48)) else NAN.
Definition home_sinf (x : float) : float :=
  if is_float x fzero then fzero
  else if is_float x (fneg M_PI_F) then tiny (-47)
  else if is_float x (fneg M_PI_2_F) then fneg fone else NAN.
Definition home : Matrix := with_trig home_cosf home_sinf.
#[export] Instance bench_sums : MatrixSums := {|
  mat_add m n := M3 (map3_2 fadd (row0 m) (row0 n)) (map3_2 fadd (row1 m) (row1 n)) (map3_2 fadd (row2 m) (row2 n));
  mat_scale m k := M3 (map3 (fun x => fmul x k) (row0 m)) (map3 (fun x => fmul x k) (row1 m)) (map3 (fun x => fmul x k) (row2 m))
|}.

(** Equal up to a tolerance. *)
Definition near (tolerance : float) (v w : vec3) : bool := all3 (fun d => fltb (fabs d) tolerance) (map3_2 fsub v w).

(** The profile of uam_v5 is the arm at home: its centre of mass to a micrometre
    and its inertia to a millionth of a kg m^2, without the products. *)
Lemma v5_profile_is_home :
  near (c6 1) (system_com (M := home) UamV5 zero_angles) (profile_com kUamV5Profile) = true
  /\ (let I := system_inertia (M := home) UamV5 zero_mat zero_angles in
      near (c6 1) (V3 (vx (row0 I)) (vy (row1 I)) (vz (row2 I)))
        (V3 (vx (row0 (staticSystemInertiaMatrix kUamV5Profile))) (vy (row1 (staticSystemInertiaMatrix kUamV5Profile)))
           (vz (row2 (staticSystemInertiaMatrix kUamV5Profile)))) = true
      /\ near (c6 1) (row0 I) (V3 (c6 57859) fzero (fneg (c6 15707))) = true).
Proof. by vm_compute. Qed.

(** The centre of mass of uav_arm_v4 at home, and its profile's. *)
Lemma v4_home_com :
  near (c6 1) (system_com (M := home) UavArmV4 zero_angles) (V3 (c6 3828) fzero (fneg (c6 41058))) = true
  /\ near (c6 1) (profile_com kUavArmV4Profile) (V3 (fneg (c6 10000)) fzero (c6 161000)) = true.
Proof. by vm_compute. Qed.

(** What the arm that has not moved contributes, and what is taken for it. *)
Lemma v4_rest_inertia :
  let roll I := vx (row0 I) in
  fltb (c6 64000) (roll (system_inertia (M := home) UavArmV4 zero_mat zero_angles)) = true
  /\ fltb (roll (v4_inertia (M := home) zero_mat zero_positions zero_angles)) (c6 16001) = true.
Proof. by vm_compute. Qed.

(** Angles that are not numbers, once: the inertia is not one for the arm at home later. *)
Lemma nan_inertia :
  let k := arm_run (M := home) [SetModelProfile UamV5; Inertia (Q4 NAN NAN fzero fzero)] arm_new in
  let I := (computeSystemInertia (M := home) zero_angles k).1 in
  all3 isfinite (row0 I) = false /\ all3 isfinite (row1 I) = false /\ all3 isfinite (row2 I) = false.
Proof. by vm_compute. Qed.
