(* ===== verification/ArmDynamics.v ===== *)
(** How the three controllers follow the arm: the parts of parameters_updated and
    update_dynamic_parameters of eso_rate_control, eso_att_control and
    eso_pos_control that use [ArmKinematics], on the messages of
    [ArmJointBridge]. *)

From Stdlib Require Import ZArith Lia SpecFloat.
From stdpp Require Import base list numbers sets.
From S2P Require Import Prelude Float32 EsoVector EsoPosition EsoPosModule EsoAttitude EsoRate ArmJointBridge ArmKinematics.

Local Open Scope Z_scope.

(** [joints.q] *)
Definition angles_of (m : arm_joint_states_s) : angles :=
  let q i := nth i (ajs_q m) fzero in Q4 (q 0%nat) (q 1%nat) (q 2%nat) (q 3%nat).

Section Dynamics.
Context `{M : Matrix} `{A : MatrixSums}.

(** * The rate controller *)

Record rate_arm := Rate_arm { ra_static_inertia : mat3; ra_kinematics : ArmKinematics; ra_control : rate_control }.

(** ESO_ARM_MODEL and ESO_INERTIA_XX, YY, ZZ. *)
Definition rate_parameters_updated (model : Z) (inertia : vec3) (r : rate_arm) : rate_arm :=
  let active := resolveModelProfile model in
  let k := setModelProfile active (ra_kinematics r) in
  let '(static, k) :=
    match active with
    | UamV5 =>
        let profile := getDynamicsProfile active in
        (staticSystemInertiaMatrix profile, setParameters (mass_total profile) (profile_com profile) (bodyInertiaMatrix profile) k)
    | UavArmV4 =>
        let static := diag3 inertia in
        (static, setParameters (mass_total kUavArmV4Profile) (profile_com kUavArmV4Profile) static k)
    end in
  Rate_arm static k (setInertiaDiagonal (V3 (vx (row0 static)) (vy (row1 static)) (vz (row2 static))) (ra_control r)).

Definition rate_update_dynamic_parameters (joints : option arm_joint_states_s) (r : rate_arm) : rate_arm :=
  match joints with
  | Some m =>
      if negb (ajs_valid m) then Rate_arm (ra_static_inertia r) (ra_kinematics r) (setInertiaMatrix (ra_static_inertia r) (ra_control r))
      else
        let '(inertia, k) := computeSystemInertia (angles_of m) (ra_kinematics r) in
        Rate_arm (ra_static_inertia r) k (setInertiaMatrix inertia (ra_control r))
  | None => r
  end.

(** The matrix that an update hands to [rate_run], its field [ri_inertia]. *)
Definition new_inertia (joints : option arm_joint_states_s) (r : rate_arm) : option mat3 :=
  match joints with
  | Some m => Some (if negb (ajs_valid m) then ra_static_inertia r else (computeSystemInertia (angles_of m) (ra_kinematics r)).1)
  | None => None
  end.

(** * The attitude controller *)

Record att_arm := Att_arm {
  aa_mass_total : float; aa_com_offset : vec3; aa_arm_inertia : mat3; aa_kinematics : ArmKinematics; aa_control : att_control
}.

(** ESO_ARM_MODEL, ESO_MASS_TOTAL, ESO_COM_X, Y, Z and ESO_ARM_IXX, IYY, IZZ. *)
Definition att_parameters_updated (model : Z) (mass : float) (offset inertia : vec3) (a : att_arm) : att_arm :=
  let active := resolveModelProfile model in
  let k := setModelProfile active (aa_kinematics a) in
  let '(mass, offset, inertia) :=
    match active with
    | UamV5 =>
        let profile := getDynamicsProfile active in
        (mass_total profile, profile_com profile, staticSystemInertiaMatrix profile)
    | UavArmV4 => (mass, offset, diag3 inertia)
    end in
  Att_arm mass offset inertia (setParameters mass offset inertia k) (setTauSParameters mass offset inertia (aa_control a)).

Definition att_update_dynamic_parameters (joints : option arm_joint_states_s) (a : att_arm) : att_arm :=
  match joints with
  | Some m =>
      if negb (ajs_valid m)
      then Att_arm (aa_mass_total a) (aa_com_offset a) (aa_arm_inertia a) (aa_kinematics a)
             (setTauSParameters (aa_mass_total a) (aa_com_offset a) (aa_arm_inertia a) (aa_control a))
      else
        let '(dynamic_com, k) := computeSystemCoM (angles_of m) (aa_kinematics a) in
        let '(dynamic_inertia, k) := computeSystemInertia (angles_of m) k in
        Att_arm (aa_mass_total a) (aa_com_offset a) (aa_arm_inertia a) k
          (setTauSParameters (aa_mass_total a) dynamic_com dynamic_inertia (aa_control a))
  | None => a
  end.

(** * The position controller *)

(** What its parameters set for the arm: the fields [fallback_com] and
    [use_dynamic_arm_model] of its parameters, and the centre of mass. *)
Definition pos_parameters_update (model : Z) (k : ArmKinematics) (ctl : pos_control) : vec3 * bool * ArmKinematics * pos_control :=
  let active := resolveModelProfile model in
  let k := setModelProfile active k in
  let '(fallback, use_dynamic, k) :=
    match active with
    | UamV5 =>
        let profile := getDynamicsProfile active in
        (profile_com profile, profile_use_dynamic_arm_model profile,
         setParameters (mass_total profile) (profile_com profile) (bodyInertiaMatrix profile) k)
    | UavArmV4 =>
        (V3 (fneg (c6 15000)) fzero (fneg (c6 164000)), true,
         setParameters (mass_total kUavArmV4Profile) (profile_com kUavArmV4Profile) (bodyInertiaMatrix kUavArmV4Profile) k)
    end in
  (fallback, use_dynamic, k, setSystemCoM fallback ctl).

(** The input [in_joints] of [EsoPosModule.update_dynamic_parameters]: the centre
    of mass is computed of a valid message, where the arm's model is used. *)
Definition pos_joints (use_dynamic : bool) (joints : option arm_joint_states_s) (k : ArmKinematics) :
    option (bool * vec3) * ArmKinematics :=
  match joints with
  | Some m =>
      if use_dynamic && ajs_valid m
      then let '(c, k) := computeSystemCoM (angles_of m) k in (Some (true, c), k)
      else (Some (ajs_valid m, zero3), k)
  | None => (None, k)
  end.

(** * Histories of the rate controller *)

Inductive rate_event :=
  | Params (model : Z) (inertia : vec3)
  | Joints (m : arm_joint_states_s).

Definition rate_event_step (r : rate_arm) (e : rate_event) : rate_arm :=
  match e with
  | Params model inertia => rate_parameters_updated model inertia r
  | Joints m => rate_update_dynamic_parameters (Some m) r
  end.
Definition rate_events (es : list rate_event) (r : rate_arm) : rate_arm := fold_left rate_event_step es r.

(** The module as it is made. *)
Definition rate_arm_new (c : rate_control) : rate_arm := Rate_arm zero_mat arm_new c.

(** The fixed inertia of the parameters. *)
Definition static_of (model : Z) (inertia : vec3) : mat3 :=
  match resolveModelProfile model with UamV5 => staticSystemInertiaMatrix kUamV5Profile | UavArmV4 => diag3 inertia end.
(** The base of the arm's model. *)
Definition base_of (model : Z) (inertia : vec3) : mat3 :=
  match resolveModelProfile model with UamV5 => bodyInertiaMatrix kUamV5Profile | UavArmV4 => diag3 inertia end.

Definition valid_angles (es : list rate_event) : list angles :=
  omap (fun e => match e with Joints m => if ajs_valid m then Some (angles_of m) else None | Params _ _ => None end) es.

(** The parameters that are in force. *)
Definition last_params (es : list rate_event) : option (Z * vec3) :=
  fold_left (fun known e => match e with Params model inertia => Some (model, inertia) | Joints _ => known end) es None.

(** ** The attitude and the position controller *)

Inductive att_event :=
  | AttParams (model : Z) (mass : float) (offset inertia : vec3)
  | AttJoints (m : arm_joint_states_s).
Definition att_event_step (a : att_arm) (e : att_event) : att_arm :=
  match e with
  | AttParams model mass offset inertia => att_parameters_updated model mass offset inertia a
  | AttJoints m => att_update_dynamic_parameters (Some m) a
  end.
Definition att_events (es : list att_event) (a : att_arm) : att_arm := fold_left att_event_step es a.
Definition att_arm_new (c : att_control) : att_arm := Att_arm fzero zero3 zero_mat arm_new c.

(** What the controller is to use: the arm's, or the fixed values. *)
Definition att_uses (mass : float) (offset : vec3) (inertia : mat3) (c : att_control) : Prop :=
  _mass_total c = mass /\ _com_offset c = offset /\ _arm_inertia c = inertia.

(** The position controller: its parameters, its cycles with a message or none. *)
Record pos_arm := Pos_arm { pa_params : pos_params; pa_kinematics : ArmKinematics; pa_control : pos_control; pa_com : Z * bool }.
Inductive pos_event :=
  | PosParams (model : Z)
  | PosCycle (now : Z) (joints : option arm_joint_states_s).
Definition with_arm_params (fallback : vec3) (use_dynamic : bool) (par : pos_params) : pos_params :=
  Pos_params (ESO_Z_VEL_MAX_UP par) (ESO_Z_VEL_MAX_DN par) (ESO_XY_VEL_MAX par) (ESO_THR_HOVER par)
    (ESO_TILTMAX_LND par) (ESO_TILTMAX_AIR par) (ESO_THR_MIN par) (ESO_THR_MAX par)
    (ESO_LAND_SPEED par) (ESO_USE_HTE par) (ESO_POS_ESOGATE par) (VELD_LP par) use_dynamic fallback.
Definition pos_event_step (a : pos_arm) (e : pos_event) : pos_arm :=
  match e with
  | PosParams model =>
      let '(fallback, use_dynamic, k, ctl) := pos_parameters_update model (pa_kinematics a) (pa_control a) in
      Pos_arm (with_arm_params fallback use_dynamic (pa_params a)) k ctl (pa_com a)
  | PosCycle now joints =>
      let '(j, k) := pos_joints (use_dynamic_arm_model (pa_params a)) joints (pa_kinematics a) in
      let '(ctl, com) := update_dynamic_parameters (pa_params a) now j (pa_control a) (pa_com a) in
      Pos_arm (pa_params a) k ctl com
  end.
Definition pos_events (es : list pos_event) (a : pos_arm) : pos_arm := fold_left pos_event_step es a.

(** * Lemmas *)

(** The module's step is that of [EsoRate], with the matrix as its input. *)
Lemma update_is_input joints r :
  ra_control (rate_update_dynamic_parameters joints r)
  = match new_inertia joints r with Some i => setInertiaMatrix i (ra_control r) | None => ra_control r end.
Proof.
  destruct joints as [m|]; [|done]. unfold rate_update_dynamic_parameters, new_inertia.
  destruct (ajs_valid m); [|done]. cbn [negb]. by destruct (computeSystemInertia _ _).
Qed.

Lemma rate_topics_inertia inp m joints r :
  r_control m = ra_control r -> ri_inertia inp = new_inertia joints r ->
  r_control (rate_topics inp m) = ra_control (rate_update_dynamic_parameters joints r).
Proof.
  intros HC HI. rewrite update_is_input. unfold rate_topics. rewrite HI, HC.
  by destruct (default (r_rotary m, r_is_vtol m) (ri_status inp)).
Qed.

(** The operations on the arm's model that an event makes. *)
Definition ops_of (e : rate_event) : list arm_op :=
  match e with
  | Params model inertia =>
      [SetModelProfile (resolveModelProfile model);
       match resolveModelProfile model with
       | UamV5 => SetParameters (mass_total kUamV5Profile) (profile_com kUamV5Profile) (bodyInertiaMatrix kUamV5Profile)
       | UavArmV4 => SetParameters (mass_total kUavArmV4Profile) (profile_com kUavArmV4Profile) (diag3 inertia)
       end]
  | Joints m => if ajs_valid m then [Inertia (angles_of m)] else []
  end.

Lemma event_ops r e : ra_kinematics (rate_event_step r e) = arm_run (ops_of e) (ra_kinematics r).
Proof.
  destruct e as [model inertia | m]; cbn [rate_event_step ops_of].
  - unfold rate_parameters_updated. by destruct (resolveModelProfile model).
  - unfold rate_update_dynamic_parameters. destruct (ajs_valid m); [|done]. cbn [negb].
    destruct (computeSystemInertia _ _) eqn:E. cbn. by rewrite E.
Qed.

Lemma arm_run_app os os' k : arm_run (os ++ os') k = arm_run os' (arm_run os k).
Proof. apply fold_left_app. Qed.

Lemma events_ops es r : ra_kinematics (rate_events es r) = arm_run (es ≫= ops_of) (ra_kinematics r).
Proof.
  revert r. induction es as [|e es IH]; intros r; [done|].
  change (rate_events (e :: es) r) with (rate_events es (rate_event_step r e)).
  rewrite IH, event_ops. change ((e :: es) ≫= ops_of) with (ops_of e ++ (es ≫= ops_of)). by rewrite arm_run_app.
Qed.

Lemma ops_angles es : omap op_angles (es ≫= ops_of) = valid_angles es.
Proof.
  induction es as [|[model inertia | m] es IH]; [done | |];
    rewrite bind_cons, omap_app, IH; cbn.
  - by destruct (resolveModelProfile model).
  - by destruct (ajs_valid m).
Qed.

Lemma last_params_snoc es e :
  last_params (es ++ [e]) = match e with Params model inertia => Some (model, inertia) | Joints _ => last_params es end.
Proof. unfold last_params. rewrite fold_left_app. by destruct e. Qed.

(** What the parameters in force have set. *)
Lemma events_params es c model inertia :
  last_params es = Some (model, inertia) ->
  let r := rate_events es (rate_arm_new c) in
  ra_static_inertia r = static_of model inertia
  /\ _model_profile (ra_kinematics r) = resolveModelProfile model
  /\ _base_inertia_val (ra_kinematics r) = base_of model inertia.
Proof.
  induction es as [|e es IH] using rev_ind; [done|]. rewrite last_params_snoc. unfold rate_events in *. rewrite fold_left_app.
  set (r := fold_left rate_event_step es (rate_arm_new c)) in *. cbv zeta. cbn [fold_left].
  destruct e as [model' inertia' | m]; cbn [rate_event_step].
  - intros [= -> ->]. unfold rate_parameters_updated, static_of, base_of. by destruct (resolveModelProfile model).
  - intros E. destruct (IH E) as (H1 & H2 & H3). unfold rate_update_dynamic_parameters. destruct (ajs_valid m); [|done]. cbn [negb].
    pose proof (profile_step (Inertia (angles_of m)) (ra_kinematics r)) as HP.
    pose proof (base_step (Inertia (angles_of m)) (ra_kinematics r)) as HB. cbn [arm_step] in HP, HB.
    destruct (computeSystemInertia _ _) as [i k]. cbn [snd] in *. cbn. by rewrite HP, HB.
Qed.

(** The inertia of the rate controller after a message. *)
Lemma inertia_after es c m :
  let r := rate_events es (rate_arm_new c) in
  _inertia (rc_cfg (ra_control (rate_events (es ++ [Joints m]) (rate_arm_new c))))
  = if ajs_valid m then (computeSystemInertia (angles_of m) (ra_kinematics r)).1 else ra_static_inertia r.
Proof.
  cbv zeta. unfold rate_events. rewrite fold_left_app. cbn [fold_left rate_event_step].
  rewrite update_is_input. unfold new_inertia. by destruct (ajs_valid m).
Qed.

(** The angles of the joints the cache is compared by are numbers. *)
Definition numbers (p : ModelProfile) (q : angles) : bool :=
  isfinite (a0 q) && isfinite (a1 q)
  && match p with UamV5 => true | UavArmV4 => isfinite (a2 q) && isfinite (a3 q) end.

(** Numbers that differ by at most a millionth. *)
Definition close_angles (p : ModelProfile) (q q' : angles) : Prop :=
  numbers p q = true /\ numbers p q' = true /\ same_angles p q q'.

(** Where the model takes the links to be for the angles [q], after valid messages
    with the angles [seen]: where they are, or where they are for close angles.
    The rest are the flaws of the cache: a comparison with an angle that is not a
    number finds it unchanged; and uav_arm_v4, which has no flag for its cache,
    finds the positions of uam_v5 in it after a change of the model, or the zeros
    of the construction before it first computed any. *)
Inductive links_at (p : ModelProfile) (seen : list angles) (q : angles) : positions -> Prop :=
| links_now : links_at p seen q (positions_of p q)
| links_close q' : q' ∈ seen -> close_angles p q q' -> links_at p seen q (positions_of p q')
| links_not_numbers q' :
    q' ∈ seen -> numbers p q && numbers p q' = false -> same_angles p q q' -> links_at p seen q (positions_of p q')
| links_other_model q' :
    p = UavArmV4 -> q' ∈ seen -> same_angles p q q' -> links_at p seen q (positions_of UamV5 q')
| links_start : p = UavArmV4 -> same_angles p q zero_angles -> links_at p seen q zero_positions.

Lemma links_same p seen q q' : q' ∈ seen -> same_angles p q q' -> links_at p seen q (positions_of p q').
Proof.
  intros H1 H2. destruct (numbers p q && numbers p q') eqn:E; [|by apply links_not_numbers].
  apply andb_true_iff in E as [E1 E2]. by apply links_close.
Qed.

(** With numbers for angles the model of uam_v5 has none of the flaws. *)
Lemma links_v5 seen q at_ :
  links_at UamV5 seen q at_ -> numbers UamV5 q = true -> Forall (fun q' => numbers UamV5 q' = true) seen ->
  exists q', at_ = positions_of UamV5 q' /\ (q' = q \/ close_angles UamV5 q q').
Proof.
  intros [|q' _ Hc|q' Hs Hn _|q' HP _ _|HP _] Hq Hl; [by exists q; auto | by exists q'; auto | | done | done].
  rewrite Forall_forall in Hl. rewrite Hq, (Hl q' Hs) in Hn. done.
Qed.

Lemma inertia_links es c q model inertia :
  last_params es = Some (model, inertia) ->
  let p := resolveModelProfile model in
  exists at_, links_at p (valid_angles es) q at_
    /\ (computeSystemInertia q (ra_kinematics (rate_events es (rate_arm_new c)))).1 = inertia_at p (base_of model inertia) at_ q.
Proof.
  intros HP. destruct (events_params es c model inertia HP) as (_ & Hp & Hb). cbv zeta.
  rewrite events_ops in *. cbn [ra_kinematics rate_arm_new] in *.
  destruct (inertia_history (es ≫= ops_of) q) as (s & HS & HI & H5). rewrite Hp, Hb in *.
  exists (source_positions s). split; [|done]. clear HI.
  destruct HS as [-> | [HE HS]]; [apply links_now|]. destruct s as [[p' q']|].
  - unfold explained in HE. rewrite ops_angles in HE. cbn [source_positions source_angles] in *.
    destruct (resolveModelProfile model) eqn:E.
    + destruct p'; [by apply links_same | by apply links_other_model].
    + destruct (H5 eq_refl) as [? [= -> ->]]. by apply links_same.
  - cbn [source_positions source_angles] in *.
    destruct (resolveModelProfile model); [by apply links_start | by destruct (H5 eq_refl)].
Qed.

(** * The inertia of the rate controller *)

(** C16: the inertia follows the arm.  In every history of the bridge and of the rate
    controller, after a message of the bridge the inertia of the rate controller is
    the fixed one of the parameters if one of the nine values of the arm is missing
    or older than 200 ms or the arm's flag is down; else it is that of the model in
    force for the angles last received, with the links where they are for these
    angles or for earlier ones within a millionth, or where one of the three flaws
    of the cache leaves them ([links_at]: angles that are not numbers, and for
    uav_arm_v4 the positions of uam_v5 or those of the construction); for uam_v5
    none of these happens while the angles received are numbers. *)
Theorem inertia_follows_arm (c0 : rate_control) (es : list rate_event) (cs : list cycle) (cy : cycle) m b model inertia :
  Forall key_ok (messages (cs ++ [cy])) -> Run cy (run cs bridge_new) = (Some m, b) -> last_params es = Some (model, inertia) ->
  let ms := messages (cs ++ [cy]) in
  let angle i := (last_of (Angle i) ms).2 in
  let q := Q4 (angle 0%nat) (angle 1%nat) (angle 2%nat) (angle 3%nat) in
  let p := resolveModelProfile model in
  let known := (forall f, In f fields -> recent (now_publish cy) f ms) /\ fltb (f_dec 1 2) (last_of Validity ms).2 = true in
  let I := _inertia (rc_cfg (ra_control (rate_events (es ++ [Joints m]) (rate_arm_new c0)))) in
  (known -> exists at_, links_at p (valid_angles es) q at_ /\ I = inertia_at p (base_of model inertia) at_ q)
  /\ (known -> p = UamV5 -> numbers p q = true -> Forall (fun q' => numbers p q' = true) (valid_angles es) ->
      exists q', (q' = q \/ close_angles p q q') /\ I = inertia_at p (base_of model inertia) (positions_of p q') q)
  /\ (~ known -> I = static_of model inertia).
Proof.
  intros Hk HR HP. cbv zeta. rewrite inertia_after. cbv zeta.
  destruct (bridge_published cs cy m b Hk HR) as (b0 & K & ->).
  pose proof (valid_iff _ _ (now_publish cy) K) as HV. unfold angles_of, publishJointStates. cbn [fst ajs_valid ajs_q].
  rewrite (kn_q _ _ K). cbn [seq map nth]. destruct (joints_fresh _ _ _).
  - split_and!; [intros _; by apply inertia_links | | intros H; by destruct H; apply HV].
    intros _ HP5 Hq Hs. set (q := Q4 _ _ _ _) in *. clearbody q.
    destruct (inertia_links es c0 q model inertia HP) as (at_ & HL & ->). rewrite HP5 in *.
    destruct (links_v5 _ _ _ HL Hq Hs) as (q' & -> & Hc). by exists q'.
  - split_and!; [intros H; by apply HV in H | intros H; by apply HV in H | intros _; by apply (events_params es c0)].
Qed.

(** ** The attitude controller *)

Lemma att_flag es c : flag_ok (aa_kinematics (att_events es (att_arm_new c))).
Proof.
  induction es as [|e es IH] using rev_ind; [done|]. unfold att_events in *. rewrite fold_left_app. cbn [fold_left].
  set (a := fold_left att_event_step es (att_arm_new c)) in *. clearbody a.
  destruct e as [model mass offset inertia | m]; cbn [att_event_step].
  - unfold att_parameters_updated. by destruct (resolveModelProfile model).
  - unfold att_update_dynamic_parameters. destruct (ajs_valid m); [|done]. cbn [negb].
    pose proof (flag_step (Inertia (angles_of m)) _ (flag_step (CoM (angles_of m)) _ IH)) as H. cbn [arm_step] in H.
    destruct (computeSystemCoM _ _) as [dynamic_com k] eqn:E. cbn [snd] in H. by destruct (computeSystemInertia _ _).
Qed.

(** After a valid message the attitude controller uses the centre of mass and the
    inertia for exactly its angles, after an invalid one the fixed ones. *)
Theorem attitude_follows_arm (c : att_control) (es : list att_event) (m : arm_joint_states_s) :
  let a := att_events es (att_arm_new c) in
  let k := aa_kinematics a in
  att_uses (aa_mass_total a)
    (if ajs_valid m then system_com (_model_profile k) (angles_of m) else aa_com_offset a)
    (if ajs_valid m then system_inertia (_model_profile k) (_base_inertia_val k) (angles_of m) else aa_arm_inertia a)
    (aa_control (att_events (es ++ [AttJoints m]) (att_arm_new c))).
Proof.
  cbv zeta. pose proof (att_flag es c) as HF. unfold att_events in *. rewrite fold_left_app. cbn [fold_left att_event_step].
  set (a := fold_left att_event_step es (att_arm_new c)) in *. clearbody a.
  unfold att_update_dynamic_parameters. destruct (ajs_valid m); [|done]. cbn [negb].
  pose proof (inertia_after_com (angles_of m) _ HF) as HI. pose proof (computeSystemCoM_result (angles_of m) (aa_kinematics a)) as HC.
  destruct (computeSystemCoM _ _) as [dynamic_com k]. cbn [fst snd] in *.
  destruct (computeSystemInertia _ _) as [dynamic_inertia k']. cbn [fst] in *. by subst.
Qed.

(** ** The position controller *)

(** It only ever uses a centre of mass of numbers, whatever the angles are. *)
Definition com_ok (a : pos_arm) : Prop :=
  all3 isfinite (_sys_com_pos (EsoPosition.model (pa_control a))) = true /\ all3 isfinite (fallback_com (pa_params a)) = true.

Lemma update_com par now j ctl com :
  all3 isfinite (_sys_com_pos (EsoPosition.model ctl)) = true -> all3 isfinite (fallback_com par) = true ->
  all3 isfinite (_sys_com_pos (EsoPosition.model (update_dynamic_parameters par now j ctl com).1)) = true.
Proof.
  intros H1 H2. unfold update_dynamic_parameters. destruct (negb _); [done|].
  destruct j as [[[] v]|]; [| done |].
  - destruct (all3 isfinite v) eqn:E; cbn; [done|]. by destruct (negb _).
  - cbn. by destruct (negb _).
Qed.

Theorem position_com_numbers (es : list pos_event) (a : pos_arm) : com_ok a -> com_ok (pos_events es a).
Proof.
  revert a. induction es as [|e es IH]; intros a [H1 H2]; [done|]. apply IH. destruct e as [model | now joints]; cbn [pos_event_step].
  - unfold pos_parameters_update. by destruct (resolveModelProfile model).
  - destruct (pos_joints _ _ _) as [j k]. pose proof (update_com (pa_params a) now j (pa_control a) (pa_com a) H1 H2) as H.
    destruct (update_dynamic_parameters _ _ _ _ _) as [ctl com']. by split.
Qed.

End Dynamics.

(** * Examples *)

(** uam_v5 with all angles at one; the bridge publishes at 40 ms. *)
Definition sent_arm : list cycle := sends 1000 one_each.
Definition at_40ms : cycle := Cycle None 40000 40000.

Lemma inertia_follows_arm_witness :
  let I (m : arm_joint_states_s) :=
    _inertia (rc_cfg (ra_control (rate_events ([Params 1 zero3] ++ [Joints m]) (rate_arm_new rate_control_new)))) in
  match (Run at_40ms (run sent_arm bridge_new)).1 with
  | Some m =>
      (forall f, In f fields -> recent 40000 f (messages (sent_arm ++ [at_40ms])))
      /\ exists q', (q' = Q4 fone fone fone fone \/ close_angles UamV5 (Q4 fone fone fone fone) q')
         /\ I m = inertia_at UamV5 (bodyInertiaMatrix kUamV5Profile) (positions_of UamV5 q') (Q4 fone fone fone fone)
  | None => False
  end.
Proof.
  cbv zeta. destruct (Run at_40ms (run sent_arm bridge_new)) as [[m|] b] eqn:E; cbn [fst].
  - assert (HF : forall f, In f fields -> recent 40000 f (messages (sent_arm ++ [at_40ms]))).
    { intros f Hf. cbn in Hf. destruct Hf as [<-|[<-|[<-|[<-|[<-|[<-|[<-|[<-|[<-|[]]]]]]]]]]; (split; vm_compute; discriminate). }
    split; [done|].
    refine (proj1 (proj2 (inertia_follows_arm rate_control_new [Params 1 zero3] sent_arm at_40ms m b 1 zero3 _ E eq_refl)) _ eq_refl _ _).
    + by repeat constructor.
    + split; [exact HF | by vm_compute].
    + by vm_compute.
    + constructor.
  - vm_compute in E. discriminate E.
Defined.
