(* ===== verification/ArmAuth.v ===== *)
(** Arming authorization (Arming/ArmAuthorization/ArmAuthorization.cpp): before
    arming, an external authorizer may have to approve the flight.

    The module keeps a state, the time of the last request and a deadline.
    Messages on vehicle_command_ack and the clock are inputs: an update gets the
    message [orb_check] reports, if any.  [requests] counts the published
    requests. *)

From Stdlib Require Import ZArith Lia.
From stdpp Require Import base list numbers.
From S2P Require Import Prelude.

Local Open Scope Z_scope.

(** vehicle_command_ack.msg, vehicle_command.msg *)
Definition VEHICLE_RESULT_ACCEPTED : Z := 0.
Definition VEHICLE_RESULT_TEMPORARILY_REJECTED : Z := 1.
Definition VEHICLE_RESULT_DENIED : Z := 2.
Definition VEHICLE_RESULT_IN_PROGRESS : Z := 5.
Definition VEHICLE_CMD_ARM_AUTHORIZATION_REQUEST : Z := 3001.

Inductive auth_state :=
| ARM_AUTH_IDLE
| ARM_AUTH_WAITING_AUTH
| ARM_AUTH_WAITING_AUTH_WITH_ACK
| ARM_AUTH_MISSION_APPROVED.
#[export] Instance auth_state_eq_dec : EqDecision auth_state.
Proof. solve_decision. Defined.

Inductive arm_auth_method := ARM_AUTH_METHOD_ARM_REQ | ARM_AUTH_METHOD_TWO_ARM_REQ.

Record vehicle_command_ack_s := Ack {
  ack_timestamp : Z;
  ack_command : Z;
  ack_target_system : Z;
  ack_result : Z;
  ack_result_param2 : Z        (* int32_t *)
}.

Record arm_auth := Arm_auth {
  state : auth_state;
  auth_timeout : Z;
  auth_req_time : Z;
  com_arm_auth_timout : Z;     (* _param_com_arm_auth_timout, microseconds *)
  com_arm_auth_method : arm_auth_method;
  system_id : Z;
  requests : nat
}.

Definition set_auth (st : auth_state) (timeout : Z) (a : arm_auth) : arm_auth :=
  Arm_auth st timeout (auth_req_time a) (com_arm_auth_timout a) (com_arm_auth_method a)
           (system_id a) (requests a).

(** [int32_t] multiplication, wrapping. *)
Definition s32 (z : Z) : Z := (z + 2147483648) `mod` 4294967296 - 2147483648.

Definition for_us (ack : vehicle_command_ack_s) (a : arm_auth) : bool :=
  (ack_command ack =? VEHICLE_CMD_ARM_AUTHORIZATION_REQUEST)
  && (ack_target_system ack =? system_id a)
  && (auth_req_time a <? ack_timestamp ack).

(** The parameters as read at an update: the timeout in microseconds and the
    raw method. *)
Definition auth_params : Type := Z * Z.

Definition arm_auth_param_update (p : auth_params) (a : arm_auth) : arm_auth :=
  Arm_auth (state a) (auth_timeout a) (auth_req_time a) p.1
    (if p.2 =? 1 then ARM_AUTH_METHOD_TWO_ARM_REQ else ARM_AUTH_METHOD_ARM_REQ)
    (system_id a) (requests a).

(** No answer of interest: the deadline. *)
Definition check_deadline (now : Z) (a : arm_auth) : arm_auth :=
  if auth_timeout a <? now then set_auth ARM_AUTH_IDLE (auth_timeout a) a else a.

(** [param_update] is [Some p] when the parameters are read first. *)
Definition arm_auth_update (now : Z) (param_update : option auth_params)
    (command_ack : option vehicle_command_ack_s) (a : arm_auth) : arm_auth :=
  let a := match param_update with Some p => arm_auth_param_update p a | None => a end in
  match state a with
  | ARM_AUTH_MISSION_APPROVED => check_deadline now a
  | ARM_AUTH_IDLE => a
  | ARM_AUTH_WAITING_AUTH | ARM_AUTH_WAITING_AUTH_WITH_ACK =>
      match command_ack with
      | Some ack =>
          if for_us ack a then
            if ack_result ack =? VEHICLE_RESULT_IN_PROGRESS then
              check_deadline now (set_auth ARM_AUTH_WAITING_AUTH_WITH_ACK (auth_timeout a) a)
            else if ack_result ack =? VEHICLE_RESULT_ACCEPTED then
              set_auth ARM_AUTH_MISSION_APPROVED
                (u64 (ack_timestamp ack + s32 (ack_result_param2 ack * 1000000))) a
            else set_auth ARM_AUTH_IDLE (auth_timeout a) a
          else check_deadline now a
      | None => check_deadline now a
      end
  end.

(** A request is published and the deadline starts. *)
Definition arm_auth_request (now : Z) (a : arm_auth) : arm_auth :=
  Arm_auth ARM_AUTH_WAITING_AUTH (u64 (now + com_arm_auth_timout a)) now (com_arm_auth_timout a)
           (com_arm_auth_method a) (system_id a) (S (requests a)).

Definition waiting (a : arm_auth) : bool :=
  match state a with
  | ARM_AUTH_WAITING_AUTH | ARM_AUTH_WAITING_AUTH_WITH_ACK => true
  | _ => false
  end.

(** [while (now < auth_timeout)]: each poll is the parameters and the message
    found by the update, and the clock after the sleep; [None] while the loop
    still runs. *)
Definition poll : Type := auth_params * option vehicle_command_ack_s * Z.

Fixpoint wait_auth (polls : list poll) (now : Z) (a : arm_auth) : option arm_auth :=
  if now <? auth_timeout a then
    match polls with
    | [] => None
    | (params, msg, now') :: polls =>
        let a := arm_auth_update now (Some params) msg a in
        if negb (waiting a) then Some a else wait_auth polls now' a
    end
  else Some a.

Definition auth_result (a : arm_auth) : Z :=
  if decide (state a = ARM_AUTH_MISSION_APPROVED)
  then VEHICLE_RESULT_ACCEPTED else VEHICLE_RESULT_DENIED.

Definition auth_method_arm_req_check (now : Z) (polls : list poll) (a : arm_auth)
  : option (Z * arm_auth) :=
  match state a with
  | ARM_AUTH_IDLE =>
      match wait_auth polls now (arm_auth_request now a) with
      | None => None
      | Some a =>
          let a := if waiting a then set_auth ARM_AUTH_IDLE (auth_timeout a) a else a in
          Some (auth_result a, a)
      end
  | ARM_AUTH_MISSION_APPROVED => Some (VEHICLE_RESULT_ACCEPTED, a)
  | _ => Some (VEHICLE_RESULT_DENIED, a)
  end.

Definition auth_method_two_arm_check (now : Z) (a : arm_auth) : Z * arm_auth :=
  match state a with
  | ARM_AUTH_IDLE => (VEHICLE_RESULT_TEMPORARILY_REJECTED, arm_auth_request now a)
  | ARM_AUTH_MISSION_APPROVED => (VEHICLE_RESULT_ACCEPTED, a)
  | _ => (VEHICLE_RESULT_TEMPORARILY_REJECTED, a)
  end.

Definition arm_auth_check (now : Z) (polls : list poll) (a : arm_auth) : option (Z * arm_auth) :=
  match com_arm_auth_method a with
  | ARM_AUTH_METHOD_ARM_REQ => auth_method_arm_req_check now polls a
  | ARM_AUTH_METHOD_TWO_ARM_REQ => Some (auth_method_two_arm_check now a)
  end.

(** * Lemmas *)

Lemma update_deadline now p msg a :
  waiting (arm_auth_update now p msg a) = true ->
  auth_timeout (arm_auth_update now p msg a) = auth_timeout a.
Proof.
  unfold arm_auth_update, check_deadline, waiting. intros H.
  destruct p; repeat case_match; simpl in *; try done; congruence.
Qed.

(** The loop ends as soon as the clock reaches the deadline. *)
Lemma wait_auth_ends polls : forall now a,
  Exists (fun p => auth_timeout a <= p.2) polls -> exists a', wait_auth polls now a = Some a'.
Proof.
  induction polls as [|[[p msg] now'] polls IH]; intros now a H; [by apply Exists_nil in H|].
  simpl. destruct (now <? auth_timeout a); [|by eexists].
  destruct (waiting (arm_auth_update now (Some p) msg a)) eqn:W; simpl; [|by eexists].
  rewrite <- (update_deadline now (Some p) msg a W) in H. apply Exists_cons in H as [H|H]; [|by apply IH].
  simpl in H. destruct polls as [|[[p' m] n] polls]; simpl;
    (destruct (Z.ltb_spec now' (auth_timeout (arm_auth_update now (Some p) msg a))); [lia | by eexists]).
Qed.

(** * Authorization is never made up *)

(** What happens to the module over time. *)
Inductive auth_event :=
| EvUpdate (now : Z) (params : option auth_params) (msg : option vehicle_command_ack_s)
| EvRequest (now : Z).           (* a check that finds the module idle *)

Definition auth_step (a : arm_auth) (e : auth_event) : arm_auth :=
  match e with
  | EvUpdate now p msg => arm_auth_update now p msg a
  | EvRequest now => if decide (state a = ARM_AUTH_IDLE) then arm_auth_request now a else a
  end.

(** An acceptance of our request. *)
Definition approves (a : arm_auth) (ack : vehicle_command_ack_s) : Prop :=
  for_us ack a = true /\ ack_result ack = VEHICLE_RESULT_ACCEPTED.

(** The run contains an acceptance that answers the last request and whose
    deadline is the module's. *)
Definition approved_by (a : arm_auth) (es : list auth_event) : Prop :=
  exists now p ack, EvUpdate now p (Some ack) ∈ es /\ approves a ack
    /\ auth_timeout a = u64 (ack_timestamp ack + s32 (ack_result_param2 ack * 1000000)).

Lemma approved_step a es e :
  (state a = ARM_AUTH_MISSION_APPROVED -> approved_by a es) ->
  state (auth_step a e) = ARM_AUTH_MISSION_APPROVED -> approved_by (auth_step a e) (es ++ [e]).
Proof.
  intros IH. assert (Hmono : approved_by a es -> approved_by a (es ++ [e])).
  { intros (now & p & ack & Hin & H). exists now, p, ack. split; [|done]. apply elem_of_app. by left. }
  destruct e as [now p msg|now]; cbn [auth_step].
  - unfold arm_auth_update. set (b := match p with Some _ => _ | None => _ end).
    assert (Hb : state b = state a /\ auth_timeout b = auth_timeout a /\ auth_req_time b = auth_req_time a
                 /\ system_id b = system_id a) by (subst b; by destruct p).
    destruct Hb as (Hs & Ht & Hr & Hi).
    assert (Hf : forall ack, for_us ack b = for_us ack a) by (intros; unfold for_us; by rewrite Hi, Hr).
    unfold check_deadline. destruct (state b) eqn:E; [congruence| | |].
    3: { destruct (_ <? _); [done|]. intros _.
         destruct Hmono as (n & q & ack & Hin & [Hu Hres] & Hto); [by apply IH; rewrite <- Hs|].
         exists n, q, ack. split; [done|]. split; [split; [by rewrite Hf|done]|]. by rewrite Ht. }
    all: destruct msg as [ack|]; [|destruct (_ <? _); simpl; congruence].
    all: destruct (for_us ack b) eqn:F; [|destruct (_ <? _); simpl; congruence].
    all: destruct (_ =? _); [simpl; destruct (_ <? _); simpl; congruence|].
    all: destruct (Z.eqb_spec (ack_result ack) VEHICLE_RESULT_ACCEPTED) as [R|]; [|done].
    all: intros _; exists now, p, ack; split; [|split; [by split|done]].
    all: apply elem_of_app; right; by apply list_elem_of_singleton.
  - destruct (decide (state a = ARM_AUTH_IDLE)) as [Hi|]; [done|]. intros H. by apply Hmono, IH.
Qed.

Lemma approved_run es : forall a,
  state a <> ARM_AUTH_MISSION_APPROVED ->
  let a' := fold_left auth_step es a in
  state a' = ARM_AUTH_MISSION_APPROVED -> approved_by a' es.
Proof.
  induction es as [|e es IH] using rev_ind; intros a Ha; [done|].
  cbn zeta in *. rewrite fold_left_app. cbn [fold_left]. apply approved_step, IH, Ha.
Qed.

(** The events of the polls of a blocking check; each update happens at the
    clock of the poll before. *)
Fixpoint poll_events (now : Z) (polls : list poll) : list auth_event :=
  match polls with
  | [] => []
  | (params, msg, now') :: polls => EvUpdate now (Some params) msg :: poll_events now' polls
  end.

Lemma wait_auth_run polls : forall now a a',
  wait_auth polls now a = Some a' ->
  exists n, a' = fold_left auth_step (take n (poll_events now polls)) a.
Proof.
  induction polls as [|[[p msg] now'] polls IH]; intros now a a' H; simpl in H.
  - destruct (_ <? _); [done|]. simplify_eq. by exists 0%nat.
  - destruct (_ <? _); [|simplify_eq; by exists 0%nat].
    destruct (waiting _); simpl in H; [|simplify_eq; by exists 1%nat].
    destruct (IH _ _ _ H) as [n ->]. by exists (S n).
Qed.

(** A check leaves the module approved exactly when it answers ACCEPTED, and
    only by the request and the messages it polled. *)
Lemma check_accepted now polls a r a' :
  arm_auth_check now polls a = Some (r, a') -> r = VEHICLE_RESULT_ACCEPTED ->
  state a' = ARM_AUTH_MISSION_APPROVED
  /\ exists n, a' = fold_left auth_step (take n (EvRequest now :: poll_events now polls)) a.
Proof.
  intros H Hr. unfold arm_auth_check in H. destruct (com_arm_auth_method a).
  - unfold auth_method_arm_req_check in H.
    destruct (state a) eqn:E; simplify_eq; try done.
    2: { split; [done|]. by exists 0%nat. }
    destruct (wait_auth polls now (arm_auth_request now a)) as [a1|] eqn:W; [|done].
    injection H as Hr <-. revert Hr. unfold auth_result.
    destruct (waiting a1) eqn:Wa; [done|].
    destruct (decide (state a1 = ARM_AUTH_MISSION_APPROVED)); [|done]. intros _. split; [done|].
    destruct (wait_auth_run _ _ _ _ W) as [n ->]. exists (S n). cbn [take fold_left auth_step].
    by rewrite decide_True by done.
  - unfold auth_method_two_arm_check in H. destruct (state a) eqn:E; simplify_eq; try done.
    split; [done|]. by exists 0%nat.
Qed.

(** * Properties *)

(** C38: arming authorization is never made up: whatever happened since the
    module was not approved, a check answers ACCEPTED only if an ACCEPTED
    message to this vehicle, newer than the last request, arrived, and the
    authorization's deadline is the one of that message; and a blocking check
    ends when the clock reaches the deadline of its request. *)
Theorem authorization_sound (es : list auth_event) (now : Z) (polls : list poll) (a : arm_auth) :
  state a <> ARM_AUTH_MISSION_APPROVED ->
  let a1 := fold_left auth_step es a in
  (forall r a2, arm_auth_check now polls a1 = Some (r, a2) -> r = VEHICLE_RESULT_ACCEPTED ->
     exists n, let run := es ++ take n (EvRequest now :: poll_events now polls) in
       a2 = fold_left auth_step run a /\ approved_by a2 run)
  /\ (Exists (fun p => u64 (now + com_arm_auth_timout a1) <= p.2) polls ->
      exists ra, arm_auth_check now polls a1 = Some ra).
Proof.
  intros Ha. cbn zeta. split.
  - intros r a2 H Hr. destruct (check_accepted _ _ _ _ _ H Hr) as [Hs [n ->]].
    exists n. rewrite <- fold_left_app in *. split; [done|]. by apply approved_run.
  - intros Hp. unfold arm_auth_check, auth_method_arm_req_check.
    destruct (com_arm_auth_method _); [|by eexists].
    destruct (state (fold_left auth_step es a)); try by eexists.
    destruct (wait_auth_ends polls now (arm_auth_request now (fold_left auth_step es a)) Hp)
      as [a' ->]. eexists. reflexivity.
Qed.

(** An authorization of more than 2147 seconds overflows the [int32_t]
    product that converts it: granted for 2148 seconds in the first half hour
    after boot, it is not withdrawn at any clock value below 2^63. *)
Theorem long_authorization_never_ends (ack : vehicle_command_ack_s) (a : arm_auth) (now : Z)
    (p : option auth_params) (later : list (Z * option auth_params * option vehicle_command_ack_s)) :
  state a = ARM_AUTH_WAITING_AUTH -> for_us ack a = true ->
  ack_result ack = VEHICLE_RESULT_ACCEPTED -> ack_result_param2 ack = 2148 ->
  0 <= ack_timestamp ack < 1800000000 ->
  Forall (fun e => e.1.1 < 2 ^ 63) later ->
  state (fold_left auth_step ((fun e => EvUpdate e.1.1 e.1.2 e.2) <$> later)
          (arm_auth_update now p (Some ack) a)) = ARM_AUTH_MISSION_APPROVED.
Proof.
  intros Hw Hf Hr Hp Ht Hl. set (a1 := arm_auth_update now p (Some ack) a).
  assert (H1 : state a1 = ARM_AUTH_MISSION_APPROVED /\ 2 ^ 63 <= auth_timeout a1).
  { unfold a1, arm_auth_update. set (b := match p with Some _ => _ | None => _ end).
    assert (Hs : state b = ARM_AUTH_WAITING_AUTH) by (subst b; by destruct p).
    assert (Hfb : for_us ack b = true) by (subst b; by destruct p).
    rewrite Hs, Hfb, Hr, Hp.
    change (VEHICLE_RESULT_ACCEPTED =? VEHICLE_RESULT_IN_PROGRESS) with false.
    change (VEHICLE_RESULT_ACCEPTED =? VEHICLE_RESULT_ACCEPTED) with true.
    split; [done|]. cbn [auth_timeout set_auth].
    change (s32 (2148 * 1000000)) with (-2146967296). unfold u64.
    assert (Hbt : ack_timestamp ack + -2146967296
                  = ack_timestamp ack + 18446744071562584320 + -1 * 18446744073709551616) by lia.
    rewrite Hbt, Z_mod_plus_full, Z.mod_small by lia.
    change (2 ^ 63) with 9223372036854775808. lia. }
  clearbody a1. revert a1 H1. induction later as [|[[t q] m] later IH]; intros a1 [H1 H2]; [done|].
  apply Forall_cons_1 in Hl as [Ht1 Hl]. cbn [fmap list_fmap fold_left auth_step fst snd] in *.
  apply IH; [done|]. unfold arm_auth_update, check_deadline.
  set (b := match q with Some _ => _ | None => _ end).
  assert (Hb : state b = state a1 /\ auth_timeout b = auth_timeout a1) by (subst b; by destruct q).
  destruct Hb as [-> ->]. rewrite H1. destruct (Z.ltb_spec (auth_timeout a1) t); [lia|].
  subst b. destruct q; by split.
Qed.

(** * Witnesses *)

Definition wit_auth : arm_auth := Arm_auth ARM_AUTH_IDLE 0 0 1000000 ARM_AUTH_METHOD_ARM_REQ 1 0.
Definition wit_ack (param2 : Z) : vehicle_command_ack_s :=
  Ack 5000500 VEHICLE_CMD_ARM_AUTHORIZATION_REQUEST 1 VEHICLE_RESULT_ACCEPTED param2.
Definition wit_polls : list poll :=
  [((1000000, 0), None, 5000500); ((1000000, 0), Some (wit_ack 60), 5001000)].

Lemma authorization_sound_witness :
  (exists a2, arm_auth_check 5000000 wit_polls wit_auth = Some (VEHICLE_RESULT_ACCEPTED, a2))
  /\ forall a2, arm_auth_check 5000000 wit_polls wit_auth = Some (VEHICLE_RESULT_ACCEPTED, a2) ->
     exists n, let run := [] ++ take n (EvRequest 5000000 :: poll_events 5000000 wit_polls) in
       a2 = fold_left auth_step run wit_auth /\ approved_by a2 run.
Proof.
  split; [eexists; vm_compute; reflexivity|].
  intros a2 H. destruct (authorization_sound [] 5000000 wit_polls wit_auth) as [Hs _]; [done|].
  exact (Hs VEHICLE_RESULT_ACCEPTED a2 H eq_refl).
Defined.

Lemma long_authorization_never_ends_witness :
  state (fold_left auth_step
    ((fun e => EvUpdate e.1.1 e.1.2 e.2) <$> [(9000000000000, None, None)])
    (arm_auth_update 5000600 None (Some (wit_ack 2148)) (arm_auth_request 5000000 wit_auth)))
  = ARM_AUTH_MISSION_APPROVED.
Proof.
  apply (long_authorization_never_ends (wit_ack 2148) (arm_auth_request 5000000 wit_auth) 5000600 None
           [(9000000000000, None, None)]).
  - reflexivity.
  - reflexivity.
  - reflexivity.
  - reflexivity.
  - split; [discriminate | reflexivity].
  - apply Forall_cons_2; [reflexivity | apply Forall_nil_2].
Defined.
