(* ===== verification/Commander.v ===== *)
(** The arming state machine of the commander: the vehicle's state (the uORB
    messages vehicle_status, vehicle_status_flags, actuator_armed and
    commander_state), the pre-arm and preflight checks, and the transitions of
    the arming and main states (state_machine_helper.cpp).

    The individual sensor checks (Arming/PreFlightCheck/checks) read sensors and
    parameters: they are the record [checks], each with its answer and what it
    makes of the status; [PreflightChecks] gives them as the code has them.  Log messages are not modelled. *)

From Stdlib Require Import ZArith Lia.
From stdpp Require Import base list numbers.
From S2P Require Import Prelude ArmAuth.

Local Open Scope Z_scope.

(** * Data *)

Inductive arming_state_t :=
| ARMING_STATE_INIT | ARMING_STATE_STANDBY | ARMING_STATE_ARMED
| ARMING_STATE_STANDBY_ERROR | ARMING_STATE_SHUTDOWN | ARMING_STATE_IN_AIR_RESTORE.
#[export] Instance arming_state_eq_dec : EqDecision arming_state_t.
Proof. solve_decision. Defined.

Inductive navigation_state_t :=
| NAVIGATION_STATE_MANUAL | NAVIGATION_STATE_ALTCTL | NAVIGATION_STATE_POSCTL
| NAVIGATION_STATE_AUTO_MISSION | NAVIGATION_STATE_AUTO_LOITER | NAVIGATION_STATE_AUTO_RTL
| NAVIGATION_STATE_AUTO_LANDENGFAIL | NAVIGATION_STATE_AUTO_LANDGPSFAIL
| NAVIGATION_STATE_ACRO | NAVIGATION_STATE_DESCEND | NAVIGATION_STATE_TERMINATION
| NAVIGATION_STATE_OFFBOARD | NAVIGATION_STATE_STAB | NAVIGATION_STATE_AUTO_TAKEOFF
| NAVIGATION_STATE_AUTO_LAND | NAVIGATION_STATE_AUTO_FOLLOW_TARGET
| NAVIGATION_STATE_AUTO_PRECLAND | NAVIGATION_STATE_ORBIT.
#[export] Instance navigation_state_eq_dec : EqDecision navigation_state_t.
Proof. solve_decision. Defined.

Inductive vehicle_type_t :=
| VEHICLE_TYPE_UNKNOWN | VEHICLE_TYPE_ROTARY_WING | VEHICLE_TYPE_FIXED_WING
| VEHICLE_TYPE_ROVER | VEHICLE_TYPE_AIRSHIP.
#[export] Instance vehicle_type_eq_dec : EqDecision vehicle_type_t.
Proof. solve_decision. Defined.

(** [MAIN_STATE_MAX] stands for every value that is not a mode. *)
Inductive main_state_t :=
| MAIN_STATE_MANUAL | MAIN_STATE_ALTCTL | MAIN_STATE_POSCTL | MAIN_STATE_AUTO_MISSION
| MAIN_STATE_AUTO_LOITER | MAIN_STATE_AUTO_RTL | MAIN_STATE_ACRO | MAIN_STATE_OFFBOARD
| MAIN_STATE_STAB | MAIN_STATE_AUTO_TAKEOFF | MAIN_STATE_AUTO_LAND
| MAIN_STATE_AUTO_FOLLOW_TARGET | MAIN_STATE_AUTO_PRECLAND | MAIN_STATE_ORBIT | MAIN_STATE_MAX.
#[export] Instance main_state_eq_dec : EqDecision main_state_t.
Proof. solve_decision. Defined.

Inductive transition_result_t := TRANSITION_DENIED | TRANSITION_NOT_CHANGED | TRANSITION_CHANGED.
#[export] Instance transition_result_eq_dec : EqDecision transition_result_t.
Proof. solve_decision. Defined.

(** vehicle_status.msg *)
Record vehicle_status_s := Vehicle_status {
  arming_state : arming_state_t;
  nav_state : navigation_state_t;
  hil_on : bool;
  failsafe : bool;
  failsafe_timestamp : Z;
  vehicle_type : vehicle_type_t;
  is_vtol : bool;
  in_transition_mode : bool;
  rc_signal_lost : bool;
  rc_input_default : bool;
  data_link_lost : bool;
  engine_failure : bool;
  mission_failure : bool;
  geofence_violated : bool;
  sensors_present : Z;
  sensors_enabled : Z;
  sensors_health : Z;
  latest_arming_reason : Z;
  latest_disarming_reason : Z;
  armed_time : Z
}.

Definition set_arming_state (v : arming_state_t) (s : vehicle_status_s) : vehicle_status_s :=
  Vehicle_status v (nav_state s) (hil_on s) (failsafe s) (failsafe_timestamp s)
    (vehicle_type s) (is_vtol s) (in_transition_mode s) (rc_signal_lost s)
    (rc_input_default s) (data_link_lost s) (engine_failure s) (mission_failure s)
    (geofence_violated s) (sensors_present s) (sensors_enabled s) (sensors_health s)
    (latest_arming_reason s) (latest_disarming_reason s) (armed_time s).
Definition with_nav_state (v : navigation_state_t) (s : vehicle_status_s) : vehicle_status_s :=
  Vehicle_status (arming_state s) v (hil_on s) (failsafe s) (failsafe_timestamp s)
    (vehicle_type s) (is_vtol s) (in_transition_mode s) (rc_signal_lost s)
    (rc_input_default s) (data_link_lost s) (engine_failure s) (mission_failure s)
    (geofence_violated s) (sensors_present s) (sensors_enabled s) (sensors_health s)
    (latest_arming_reason s) (latest_disarming_reason s) (armed_time s).
Definition set_failsafe (v : bool) (s : vehicle_status_s) : vehicle_status_s :=
  Vehicle_status (arming_state s) (nav_state s) (hil_on s) v (failsafe_timestamp s)
    (vehicle_type s) (is_vtol s) (in_transition_mode s) (rc_signal_lost s)
    (rc_input_default s) (data_link_lost s) (engine_failure s) (mission_failure s)
    (geofence_violated s) (sensors_present s) (sensors_enabled s) (sensors_health s)
    (latest_arming_reason s) (latest_disarming_reason s) (armed_time s).
Definition set_failsafe_timestamp (v : Z) (s : vehicle_status_s) : vehicle_status_s :=
  Vehicle_status (arming_state s) (nav_state s) (hil_on s) (failsafe s) v (vehicle_type s)
    (is_vtol s) (in_transition_mode s) (rc_signal_lost s) (rc_input_default s)
    (data_link_lost s) (engine_failure s) (mission_failure s) (geofence_violated s)
    (sensors_present s) (sensors_enabled s) (sensors_health s) (latest_arming_reason s)
    (latest_disarming_reason s) (armed_time s).
Definition set_sensors_present (v : Z) (s : vehicle_status_s) : vehicle_status_s :=
  Vehicle_status (arming_state s) (nav_state s) (hil_on s) (failsafe s) (failsafe_timestamp s)
    (vehicle_type s) (is_vtol s) (in_transition_mode s) (rc_signal_lost s)
    (rc_input_default s) (data_link_lost s) (engine_failure s) (mission_failure s)
    (geofence_violated s) v (sensors_enabled s) (sensors_health s) (latest_arming_reason s)
    (latest_disarming_reason s) (armed_time s).
Definition set_sensors_enabled (v : Z) (s : vehicle_status_s) : vehicle_status_s :=
  Vehicle_status (arming_state s) (nav_state s) (hil_on s) (failsafe s) (failsafe_timestamp s)
    (vehicle_type s) (is_vtol s) (in_transition_mode s) (rc_signal_lost s)
    (rc_input_default s) (data_link_lost s) (engine_failure s) (mission_failure s)
    (geofence_violated s) (sensors_present s) v (sensors_health s) (latest_arming_reason s)
    (latest_disarming_reason s) (armed_time s).
Definition set_sensors_health (v : Z) (s : vehicle_status_s) : vehicle_status_s :=
  Vehicle_status (arming_state s) (nav_state s) (hil_on s) (failsafe s) (failsafe_timestamp s)
    (vehicle_type s) (is_vtol s) (in_transition_mode s) (rc_signal_lost s)
    (rc_input_default s) (data_link_lost s) (engine_failure s) (mission_failure s)
    (geofence_violated s) (sensors_present s) (sensors_enabled s) v (latest_arming_reason s)
    (latest_disarming_reason s) (armed_time s).
Definition set_latest_arming_reason (v : Z) (s : vehicle_status_s) : vehicle_status_s :=
  Vehicle_status (arming_state s) (nav_state s) (hil_on s) (failsafe s) (failsafe_timestamp s)
    (vehicle_type s) (is_vtol s) (in_transition_mode s) (rc_signal_lost s)
    (rc_input_default s) (data_link_lost s) (engine_failure s) (mission_failure s)
    (geofence_violated s) (sensors_present s) (sensors_enabled s) (sensors_health s) v
    (latest_disarming_reason s) (armed_time s).
Definition set_latest_disarming_reason (v : Z) (s : vehicle_status_s) : vehicle_status_s :=
  Vehicle_status (arming_state s) (nav_state s) (hil_on s) (failsafe s) (failsafe_timestamp s)
    (vehicle_type s) (is_vtol s) (in_transition_mode s) (rc_signal_lost s)
    (rc_input_default s) (data_link_lost s) (engine_failure s) (mission_failure s)
    (geofence_violated s) (sensors_present s) (sensors_enabled s) (sensors_health s)
    (latest_arming_reason s) v (armed_time s).
Definition set_armed_time (v : Z) (s : vehicle_status_s) : vehicle_status_s :=
  Vehicle_status (arming_state s) (nav_state s) (hil_on s) (failsafe s) (failsafe_timestamp s)
    (vehicle_type s) (is_vtol s) (in_transition_mode s) (rc_signal_lost s)
    (rc_input_default s) (data_link_lost s) (engine_failure s) (mission_failure s)
    (geofence_violated s) (sensors_present s) (sensors_enabled s) (sensors_health s)
    (latest_arming_reason s) (latest_disarming_reason s) v.

(** vehicle_status_flags.msg: the flags the state machine reads or writes. *)
Record vehicle_status_flags_s := Vehicle_status_flags {
  condition_system_sensors_initialized : bool;
  condition_system_hotplug_timeout : bool;
  condition_calibration_enabled : bool;
  condition_auto_mission_available : bool;
  condition_local_altitude_valid : bool;
  condition_local_position_valid : bool;
  condition_local_velocity_valid : bool;
  condition_global_position_valid : bool;
  condition_home_position_valid : bool;
  condition_power_input_valid : bool;
  condition_battery_healthy : bool;
  condition_escs_error : bool;
  condition_escs_failure : bool;
  condition_mode_map_rc_channel : bool;
  circuit_breaker_engaged_power_check : bool;
  circuit_breaker_engaged_airspd_check : bool;
  circuit_breaker_engaged_usb_check : bool;
  circuit_breaker_engaged_posfailure_check : bool;
  circuit_breaker_vtol_fw_arming_check : bool;
  offboard_control_signal_lost : bool;
  rc_signal_found_once : bool;
  rc_calibration_valid : bool;
  vtol_transition_failure : bool;
  usb_connected : bool;
  sd_card_detected_once : bool;
  avoidance_system_required : bool;
  avoidance_system_valid : bool
}.

Definition set_condition_system_sensors_initialized (v : bool) (s : vehicle_status_flags_s) : vehicle_status_flags_s :=
  Vehicle_status_flags v (condition_system_hotplug_timeout s)
    (condition_calibration_enabled s) (condition_auto_mission_available s)
    (condition_local_altitude_valid s) (condition_local_position_valid s)
    (condition_local_velocity_valid s) (condition_global_position_valid s)
    (condition_home_position_valid s) (condition_power_input_valid s)
    (condition_battery_healthy s) (condition_escs_error s) (condition_escs_failure s)
    (condition_mode_map_rc_channel s) (circuit_breaker_engaged_power_check s)
    (circuit_breaker_engaged_airspd_check s) (circuit_breaker_engaged_usb_check s)
    (circuit_breaker_engaged_posfailure_check s) (circuit_breaker_vtol_fw_arming_check s)
    (offboard_control_signal_lost s) (rc_signal_found_once s) (rc_calibration_valid s)
    (vtol_transition_failure s) (usb_connected s) (sd_card_detected_once s)
    (avoidance_system_required s) (avoidance_system_valid s).
Definition set_rc_calibration_valid (v : bool) (s : vehicle_status_flags_s) : vehicle_status_flags_s :=
  Vehicle_status_flags (condition_system_sensors_initialized s)
    (condition_system_hotplug_timeout s) (condition_calibration_enabled s)
    (condition_auto_mission_available s) (condition_local_altitude_valid s)
    (condition_local_position_valid s) (condition_local_velocity_valid s)
    (condition_global_position_valid s) (condition_home_position_valid s)
    (condition_power_input_valid s) (condition_battery_healthy s) (condition_escs_error s)
    (condition_escs_failure s) (condition_mode_map_rc_channel s)
    (circuit_breaker_engaged_power_check s) (circuit_breaker_engaged_airspd_check s)
    (circuit_breaker_engaged_usb_check s) (circuit_breaker_engaged_posfailure_check s)
    (circuit_breaker_vtol_fw_arming_check s) (offboard_control_signal_lost s)
    (rc_signal_found_once s) v (vtol_transition_failure s) (usb_connected s)
    (sd_card_detected_once s) (avoidance_system_required s) (avoidance_system_valid s).
Definition set_sd_card_detected_once (v : bool) (s : vehicle_status_flags_s) : vehicle_status_flags_s :=
  Vehicle_status_flags (condition_system_sensors_initialized s)
    (condition_system_hotplug_timeout s) (condition_calibration_enabled s)
    (condition_auto_mission_available s) (condition_local_altitude_valid s)
    (condition_local_position_valid s) (condition_local_velocity_valid s)
    (condition_global_position_valid s) (condition_home_position_valid s)
    (condition_power_input_valid s) (condition_battery_healthy s) (condition_escs_error s)
    (condition_escs_failure s) (condition_mode_map_rc_channel s)
    (circuit_breaker_engaged_power_check s) (circuit_breaker_engaged_airspd_check s)
    (circuit_breaker_engaged_usb_check s) (circuit_breaker_engaged_posfailure_check s)
    (circuit_breaker_vtol_fw_arming_check s) (offboard_control_signal_lost s)
    (rc_signal_found_once s) (rc_calibration_valid s) (vtol_transition_failure s)
    (usb_connected s) v (avoidance_system_required s) (avoidance_system_valid s).

(** actuator_armed.msg *)
Record actuator_armed_s := Actuator_armed {
  armed : bool;
  ready_to_arm : bool;
  lockdown : bool;
  force_failsafe : bool
}.

Definition set_armed (v : bool) (s : actuator_armed_s) : actuator_armed_s :=
  Actuator_armed v (ready_to_arm s) (lockdown s) (force_failsafe s).
Definition set_ready_to_arm (v : bool) (s : actuator_armed_s) : actuator_armed_s :=
  Actuator_armed (armed s) v (lockdown s) (force_failsafe s).
Definition set_lockdown (v : bool) (s : actuator_armed_s) : actuator_armed_s :=
  Actuator_armed (armed s) (ready_to_arm s) v (force_failsafe s).
Definition set_force_failsafe (v : bool) (s : actuator_armed_s) : actuator_armed_s :=
  Actuator_armed (armed s) (ready_to_arm s) (lockdown s) v.

(** commander_state.msg *)
Record commander_state_s := Commander_state {
  main_state : main_state_t;
  main_state_changes : Z;
  internal_timestamp : Z
}.

Definition set_main_state (v : main_state_t) (s : commander_state_s) : commander_state_s :=
  Commander_state v (main_state_changes s) (internal_timestamp s).
Definition set_main_state_changes (v : Z) (s : commander_state_s) : commander_state_s :=
  Commander_state (main_state s) v (internal_timestamp s).
Definition set_internal_timestamp (v : Z) (s : commander_state_s) : commander_state_s :=
  Commander_state (main_state s) (main_state_changes s) v.

(** safety.msg *)
Record safety_s := Safety { safety_switch_available : bool; safety_off : bool }.

(** PreFlightCheck::arm_requirements_t *)
Record arm_requirements_t := Arm_requirements {
  req_arm_authorization : bool;
  req_esc_check : bool;
  req_global_position : bool;
  req_mission : bool;
  req_geofence : bool;
  req_mode_slots_map_channel : bool
}.

Definition is_rotary (s : vehicle_status_s) : bool :=
  bool_decide (vehicle_type s = VEHICLE_TYPE_ROTARY_WING).

(** * Health flags (HealthFlags.cpp) *)

Definition SUBSYSTEM_TYPE_RCRECEIVER : Z := Z.shiftl 1 16.
Definition SUBSYSTEM_TYPE_AHRS : Z := Z.shiftl 1 21.
Definition SUBSYSTEM_TYPE_SENSORBATTERY : Z := Z.shiftl 1 25.

Definition set_health_flags (subsystem_type : Z) (present enabled ok : bool) (s : vehicle_status_s)
  : vehicle_status_s :=
  let upd := fun (b : bool) f => if b then fset f subsystem_type else fclr f subsystem_type in
  set_sensors_present (upd present (sensors_present s))
    (set_sensors_enabled (upd enabled (sensors_enabled s))
      (set_sensors_health (upd ok (sensors_health s)) s)).

Definition set_health_flags_present_healthy (subsystem_type : Z) (present healthy : bool)
    (s : vehicle_status_s) : vehicle_status_s :=
  set_health_flags subsystem_type present (ftst (sensors_enabled s) subsystem_type) healthy s.

Definition set_health_flags_healthy (subsystem_type : Z) (healthy : bool) (s : vehicle_status_s)
  : vehicle_status_s :=
  set_health_flags subsystem_type (ftst (sensors_present s) subsystem_type)
    (ftst (sensors_enabled s) subsystem_type) healthy s.

(** * The pre-arm check (checks/preArmCheck.cpp) *)

(** The tests before the authorization, as a list: arming needs them all.
    [prearm_ok] is their conjunction. *)
Definition preArm_tests (flags : vehicle_status_flags_s) (safety : safety_s)
    (req : arm_requirements_t) (s : vehicle_status_s) : list bool :=
  [ (* USB not connected *)
    negb (negb (circuit_breaker_engaged_usb_check flags) && usb_connected flags);
    (* battery and system power status *)
    circuit_breaker_engaged_power_check flags || condition_power_input_valid flags;
    circuit_breaker_engaged_power_check flags || condition_battery_healthy flags;
    (* mission *)
    negb (req_mission req) || condition_auto_mission_available flags;
    negb (req_mission req) || condition_global_position_valid flags;
    (* global position *)
    negb (req_global_position req && negb (circuit_breaker_engaged_posfailure_check flags))
      || condition_global_position_valid flags;
    negb (req_global_position req && negb (circuit_breaker_engaged_posfailure_check flags))
      || condition_home_position_valid flags;
    (* safety button *)
    negb (safety_switch_available safety && negb (safety_off safety));
    negb (avoidance_system_required flags && negb (avoidance_system_valid flags));
    negb (req_esc_check req && condition_escs_error flags);
    negb (req_esc_check req && condition_escs_failure flags);
    (* VTOL *)
    negb (is_vtol s && in_transition_mode s);
    negb (is_vtol s && negb (circuit_breaker_vtol_fw_arming_check flags) && negb (is_rotary s));
    negb (req_geofence req && geofence_violated s);
    negb (negb (req_mode_slots_map_channel req) && condition_mode_map_rc_channel flags) ].

(** [now] and [polls] are those of a blocking authorization; [None]: it still
    blocks. *)
Definition preArmCheck (flags : vehicle_status_flags_s) (safety : safety_s)
    (req : arm_requirements_t) (now : Z) (polls : list poll) (s : vehicle_status_s) (a : arm_auth)
  : option (bool * vehicle_status_s * arm_auth) :=
  let prearm_ok := forallb id (preArm_tests flags safety req s) in
  let s := if circuit_breaker_engaged_power_check flags then s
           else set_health_flags SUBSYSTEM_TYPE_SENSORBATTERY true true
                  (condition_battery_healthy flags) s in
  if req_arm_authorization req && prearm_ok then
    match arm_auth_check now polls a with
    | Some (r, a) => Some (r =? VEHICLE_RESULT_ACCEPTED, s, a)
    | None => None
    end
  else Some (prearm_ok, s, a).

(** * The preflight check (PreFlightCheck.cpp) *)

(** A check's answer and the status it leaves. *)
Definition check : Type := vehicle_status_s -> bool * vehicle_status_s.

Record checks := Checks {
  airframeCheck : vehicle_status_s -> bool;
  sdcardCheck : bool -> bool * bool;               (* sd_card_detected_once, updated *)
  magnetometerCheck : Z -> bool -> check;          (* instance, optional *)
  magConsistencyCheck : bool -> check;             (* report_status *)
  accelerometerCheck : Z -> bool -> check;
  gyroCheck : Z -> bool -> check;
  baroCheck : Z -> bool -> check;
  imuConsistencyCheck : bool -> check;             (* report_status *)
  airspeedCheck : bool -> bool -> check;           (* optional, prearm *)
  rcCalibrationCheck : bool -> bool;               (* isVTOL; whether OK *)
  powerCheck : bool -> vehicle_status_s -> bool;
  ekf2Check : bool -> check;                       (* report_fail *)
  ekf2CheckSensorBias : bool;
  failureDetectorCheck : bool -> vehicle_status_s -> bool;
  manualControlCheck : bool;
  cpuResourceCheck : bool
}.

(** The parameters the check reads. *)
Record preflight_params := Preflight_params {
  sys_has_mag : Z;
  sys_has_baro : Z;
  fw_arsp_mode : Z;
  sys_mc_est_group : Z
}.

Section Preflight.
Context (ck : checks) (pr : preflight_params).

(** A loop over the instances of a sensor, the first one mandatory when
    [mandatory]: the failure it adds. *)
Fixpoint sensor_loop (f : Z -> bool -> check) (mandatory : bool) (n : nat) (i : Z)
    (failed : bool) (s : vehicle_status_s) : bool * vehicle_status_s :=
  match n with
  | O => (failed, s)
  | S n =>
      let required := (i <? 1) && mandatory in
      let '(ok, s) := f i (negb required) s in
      sensor_loop f mandatory n (i + 1) (failed || (required && negb ok)) s
  end.

Definition preflight_mag (report_failures failed : bool) (s : vehicle_status_s) : bool * vehicle_status_s :=
  if sys_has_mag pr =? 1 then
    let '(failed, s) := sensor_loop (magnetometerCheck ck) true 4 0 failed s in
    let '(ok, s) := magConsistencyCheck ck report_failures s in
    (failed || negb ok, s)
  else (failed, s).

(** The barometer loop records a failure only for its reports. *)
Fixpoint baro_loop (n : nat) (i : Z) (s : vehicle_status_s) : vehicle_status_s :=
  match n with
  | O => s
  | S n =>
      let required := (i <? 1) && (sys_has_baro pr =? 1) in
      baro_loop n (i + 1) (baroCheck ck i (negb required) s).2
  end.

Definition preflight_airspeed (flags : vehicle_status_flags_s) (prearm failed : bool)
    (s : vehicle_status_s) : bool * vehicle_status_s :=
  if negb (circuit_breaker_engaged_airspd_check flags)
     && (bool_decide (vehicle_type s = VEHICLE_TYPE_FIXED_WING) || is_vtol s) then
    let optional := fw_arsp_mode pr =? 1 in
    let '(ok, s) := airspeedCheck ck optional prearm s in
    (failed || (negb ok && negb optional), s)
  else (failed, s).

Definition preflight_rc (failed : bool) (s : vehicle_status_s) (flags : vehicle_status_flags_s)
  : bool * vehicle_status_s * vehicle_status_flags_s :=
  if rc_input_default s then
    if negb (rcCalibrationCheck ck (is_vtol s)) then
      (true, set_health_flags SUBSYSTEM_TYPE_RCRECEIVER (rc_signal_found_once flags) true false s,
       set_rc_calibration_valid false flags)
    else
      (failed, set_health_flags SUBSYSTEM_TYPE_RCRECEIVER (rc_signal_found_once flags) true
                 (negb (rc_signal_lost s)) s,
       set_rc_calibration_valid true flags)
  else (failed, s, flags).

Definition preflight_ekf (report_failures : bool) (time_since_boot : Z) (failed : bool)
    (s : vehicle_status_s) : bool * vehicle_status_s :=
  let estimator_type := if is_rotary s && negb (is_vtol s) then sys_mc_est_group pr else 2 in
  if estimator_type =? 2 then
    let '(ok, s) := ekf2Check ck report_failures s in
    let ekf_healthy := ok && ekf2CheckSensorBias ck in
    let s := if negb ekf_healthy && (time_since_boot <? 10000000) && negb report_failures
             then set_health_flags SUBSYSTEM_TYPE_AHRS true false false s
             else set_health_flags SUBSYSTEM_TYPE_AHRS true true ekf_healthy s in
    (failed || negb ekf_healthy, s)
  else (failed, s).

Definition preflightCheck (report_failures prearm : bool) (time_since_boot : Z)
    (s : vehicle_status_s) (flags : vehicle_status_flags_s)
  : bool * vehicle_status_s * vehicle_status_flags_s :=
  let report_failures := report_failures && condition_system_hotplug_timeout flags
                         && negb (condition_calibration_enabled flags) in
  let failed := negb (airframeCheck ck s) in
  let '(failed, flags) :=
    if failed then (failed, flags)
    else let '(ok, once) := sdcardCheck ck (sd_card_detected_once flags) in
         (negb ok, set_sd_card_detected_once once flags) in
  let '(failed, s) := preflight_mag report_failures failed s in
  let '(failed, s) := sensor_loop (accelerometerCheck ck) true 4 0 failed s in
  let '(failed, s) := sensor_loop (gyroCheck ck) true 4 0 failed s in
  let s := baro_loop 4 0 s in
  let '(ok, s) := imuConsistencyCheck ck report_failures s in
  let failed := failed || negb ok in
  let '(failed, s) := preflight_airspeed flags prearm failed s in
  let '(failed, s, flags) := preflight_rc failed s flags in
  let failed :=
    if condition_power_input_valid flags && negb (circuit_breaker_engaged_power_check flags)
    then failed || negb (powerCheck ck prearm s) else failed in
  let '(failed, s) := preflight_ekf report_failures time_since_boot failed s in
  let failed := failed || negb (failureDetectorCheck ck prearm s) in
  let failed := failed || negb (manualControlCheck ck) in
  let failed := failed || negb (cpuResourceCheck ck) in
  (negb failed, s, flags).

(** * The arming state machine (state_machine_helper.cpp) *)

(** [arming_transitions[new][current]] *)
Definition arming_transitions (new current : arming_state_t) : bool :=
  let row := fun i st ar er sh re : bool =>
    match current with
    | ARMING_STATE_INIT => i | ARMING_STATE_STANDBY => st | ARMING_STATE_ARMED => ar
    | ARMING_STATE_STANDBY_ERROR => er | ARMING_STATE_SHUTDOWN => sh
    | ARMING_STATE_IN_AIR_RESTORE => re
    end in
  match new with
  (*                                  INIT  STANDBY ARMED STANDBY_ERROR SHUTDOWN IN_AIR_RESTORE *)
  | ARMING_STATE_INIT           => row true  true   false true          false    false
  | ARMING_STATE_STANDBY        => row true  true   true  false         false    false
  | ARMING_STATE_ARMED          => row false true   true  false         false    true
  | ARMING_STATE_STANDBY_ERROR  => row true  true   true  true          false    false
  | ARMING_STATE_SHUTDOWN       => row true  true   false true          true     true
  | ARMING_STATE_IN_AIR_RESTORE => row false false  false false         false    false
  end.

(** What the transition reads and writes. *)
Record arming_ctx := Arming_ctx {
  vs : vehicle_status_s;
  vf : vehicle_status_flags_s;
  aa : actuator_armed_s;
  auth : arm_auth;
  last_preflight_check : Z
}.

Definition to_armed (new : arming_state_t) : bool := bool_decide (new = ARMING_STATE_ARMED).
Definition to_standby (new : arming_state_t) : bool := bool_decide (new = ARMING_STATE_STANDBY).

(** The preflight checks of a transition: the answer of the full check, if it is
    made, and the context after both. *)
Definition arming_preflight (now time_since_boot : Z) (fRunPreArmChecks : bool)
    (new : arming_state_t) (c : arming_ctx) : bool * arming_ctx :=
  let hil := hil_on (vs c) in
  let '(preflight_check_ret, c) :=
    if fRunPreArmChecks && to_armed new && negb hil then
      let '(ok, s, f) := preflightCheck true true time_since_boot (vs c) (vf c) in
      (ok, Arming_ctx s (if ok then set_condition_system_sensors_initialized true f else f)
             (aa c) (auth c) (last_preflight_check c))
    else (true, c) in
  if negb (condition_system_sensors_initialized (vf c)) && fRunPreArmChecks
     && (to_armed new || to_standby new) && negb hil
     && ((last_preflight_check c =? 0) || (1000000 <? u64 (now - last_preflight_check c)))
  then
    let '(ok, s, f) := preflightCheck false
                         (negb (to_armed (arming_state (vs c)))) time_since_boot (vs c) (vf c) in
    (preflight_check_ret,
     Arming_ctx s (set_condition_system_sensors_initialized ok f) (aa c) (auth c) now)
  else (preflight_check_ret, c).

(** The table and the pre-arm check. *)
Definition arming_valid (now : Z) (polls : list poll) (fRunPreArmChecks : bool) (safety : safety_s)
    (req : arm_requirements_t) (new : arming_state_t) (preflight_check_ret : bool) (c : arming_ctx)
  : option (bool * arming_ctx) :=
  let valid_transition := arming_transitions new (arming_state (vs c)) in
  if valid_transition && to_armed new
     && negb (bool_decide (arming_state (vs c) = ARMING_STATE_IN_AIR_RESTORE)) then
    if fRunPreArmChecks && preflight_check_ret then
      match preArmCheck (vf c) safety req now polls (vs c) (auth c) with
      | None => None
      | Some (ok, s, a) => Some (ok, Arming_ctx s (vf c) (aa c) a (last_preflight_check c))
      end
    else Some (preflight_check_ret, c)
  else Some (valid_transition, c).

(** HIL and the sensor condition of STANDBY. *)
Definition arming_hil (new : arming_state_t) (valid_transition : bool) (c : arming_ctx)
  : bool * arming_ctx :=
  let hil := hil_on (vs c) in
  let '(valid_transition, c) :=
    if hil then
      (valid_transition || to_standby new,
       Arming_ctx (if decide (arming_state (vs c) = ARMING_STATE_STANDBY_ERROR)
                   then set_arming_state ARMING_STATE_STANDBY (vs c) else vs c)
         (set_condition_system_sensors_initialized true (vf c)) (set_lockdown true (aa c))
         (auth c) (last_preflight_check c))
    else (valid_transition, c) in
  if negb hil && to_standby new
     && negb (bool_decide (arming_state (vs c) = ARMING_STATE_STANDBY_ERROR))
     && negb (condition_system_sensors_initialized (vf c))
  then (false, c) else (valid_transition, c).

Definition arming_finish (now : Z) (new : arming_state_t) (calling_reason : Z) (c : arming_ctx)
  : arming_ctx :=
  let was_armed := armed (aa c) in
  let a := set_ready_to_arm (to_armed new || to_standby new) (set_armed (to_armed new) (aa c)) in
  let s := set_arming_state new (vs c) in
  let s := if was_armed && negb (armed a) then set_latest_disarming_reason calling_reason s
           else if negb was_armed && armed a then set_latest_arming_reason calling_reason s
           else s in
  let s := set_armed_time (if to_armed new then now else 0) s in
  Arming_ctx s (vf c) a (auth c) (last_preflight_check c).

(** [now] is the clock at the call, [done_at] at its end (a blocking
    authorization takes time). *)
Definition arming_state_transition (now done_at time_since_boot : Z) (polls : list poll)
    (safety : safety_s) (new_arming_state : arming_state_t) (fRunPreArmChecks : bool)
    (req : arm_requirements_t) (calling_reason : Z) (c : arming_ctx) : option (transition_result_t * arming_ctx) :=
  if decide (new_arming_state = arming_state (vs c)) then Some (TRANSITION_NOT_CHANGED, c)
  else
    let '(preflight_check_ret, c) :=
      arming_preflight now time_since_boot fRunPreArmChecks new_arming_state c in
    match arming_valid now polls fRunPreArmChecks safety req new_arming_state preflight_check_ret c with
    | None => None
    | Some (valid_transition, c) =>
        let '(valid_transition, c) := arming_hil new_arming_state valid_transition c in
        Some (if (valid_transition : bool)
              then (TRANSITION_CHANGED, arming_finish done_at new_arming_state calling_reason c)
              else (TRANSITION_DENIED, c))
    end.
End Preflight.

(** * The main state *)

(** What each mode needs. *)
Definition main_state_allowed (s : vehicle_status_s) (f : vehicle_status_flags_s)
    (new_main_state : main_state_t) : bool :=
  match new_main_state with
  | MAIN_STATE_MANUAL | MAIN_STATE_STAB | MAIN_STATE_ACRO => true
  | MAIN_STATE_ALTCTL => condition_local_altitude_valid f || condition_global_position_valid f
  | MAIN_STATE_POSCTL => condition_local_position_valid f || condition_global_position_valid f
  | MAIN_STATE_AUTO_LOITER => condition_global_position_valid f
  | MAIN_STATE_AUTO_FOLLOW_TARGET | MAIN_STATE_ORBIT => is_rotary s
  | MAIN_STATE_AUTO_MISSION =>
      condition_global_position_valid f && condition_auto_mission_available f
  | MAIN_STATE_AUTO_RTL => condition_global_position_valid f && condition_home_position_valid f
  | MAIN_STATE_AUTO_TAKEOFF | MAIN_STATE_AUTO_LAND => condition_local_position_valid f
  | MAIN_STATE_AUTO_PRECLAND =>
      condition_local_position_valid f && condition_global_position_valid f && is_rotary s
  | MAIN_STATE_OFFBOARD => negb (offboard_control_signal_lost f)
  | MAIN_STATE_MAX => false
  end.

Definition main_state_transition (now : Z) (s : vehicle_status_s) (new_main_state : main_state_t)
    (f : vehicle_status_flags_s) (internal : commander_state_s)
  : transition_result_t * commander_state_s :=
  if main_state_allowed s f new_main_state then
    if decide (main_state internal = new_main_state) then (TRANSITION_NOT_CHANGED, internal)
    else (TRANSITION_CHANGED,
          Commander_state new_main_state (u16 (main_state_changes internal + 1)) now)
  else (TRANSITION_DENIED, internal).

(** * Lemmas *)

(** The status up to the sensor health words. *)
Definition same_core (s s' : vehicle_status_s) : Prop :=
  exists p e h, s' = set_sensors_present p (set_sensors_enabled e (set_sensors_health h s)).

#[export] Instance same_core_preorder : PreOrder same_core.
Proof.
  split.
  - intros s. exists (sensors_present s), (sensors_enabled s), (sensors_health s). by destruct s.
  - intros s1 s2 s3 (p & e & h & ->) (p' & e' & h' & ->). by exists p', e', h'.
Qed.

Lemma same_core_health t p e o s : same_core s (set_health_flags t p e o s).
Proof. by eexists _, _, _. Qed.

Lemma same_core_fields s s' :
  same_core s s' ->
  arming_state s' = arming_state s /\ hil_on s' = hil_on s /\ armed_time s' = armed_time s
  /\ vehicle_type s' = vehicle_type s /\ is_vtol s' = is_vtol s
  /\ in_transition_mode s' = in_transition_mode s /\ geofence_violated s' = geofence_violated s.
Proof. by intros (p & e & h & ->). Qed.

(** The pre-arm tests do not read what the preflight check writes. *)
Lemma same_core_tests f safety req s s' :
  same_core s s' -> preArm_tests f safety req s' = preArm_tests f safety req s.
Proof. by intros (p & e & h & ->). Qed.

(** The interface of the sensor checks: they only touch the health words. *)
Class HealthOnly (ck : checks) : Prop := {
  ho_mag i o s : same_core s (magnetometerCheck ck i o s).2;
  ho_magc r s : same_core s (magConsistencyCheck ck r s).2;
  ho_accel i o s : same_core s (accelerometerCheck ck i o s).2;
  ho_gyro i o s : same_core s (gyroCheck ck i o s).2;
  ho_baro i o s : same_core s (baroCheck ck i o s).2;
  ho_imu r s : same_core s (imuConsistencyCheck ck r s).2;
  ho_airspeed o p s : same_core s (airspeedCheck ck o p s).2;
  ho_ekf r s : same_core s (ekf2Check ck r s).2
}.

(** The flags up to the three the preflight check and the transition write. *)
Definition same_flags (f f' : vehicle_status_flags_s) : Prop :=
  exists i r o, f' = set_condition_system_sensors_initialized i
                       (set_rc_calibration_valid r (set_sd_card_detected_once o f)).

#[export] Instance same_flags_preorder : PreOrder same_flags.
Proof.
  split.
  - intros f. exists (condition_system_sensors_initialized f), (rc_calibration_valid f),
      (sd_card_detected_once f). by destruct f.
  - intros f1 f2 f3 (i & r & o & ->) (i' & r' & o' & ->). by exists i', r', o'.
Qed.

Lemma same_flags_init b f : same_flags f (set_condition_system_sensors_initialized b f).
Proof. exists b, (rc_calibration_valid f), (sd_card_detected_once f). by destruct f. Qed.
Lemma same_flags_rc b f : same_flags f (set_rc_calibration_valid b f).
Proof.
  exists (condition_system_sensors_initialized f), b, (sd_card_detected_once f). by destruct f.
Qed.
Lemma same_flags_sd b f : same_flags f (set_sd_card_detected_once b f).
Proof.
  exists (condition_system_sensors_initialized f), (rc_calibration_valid f), b. by destruct f.
Qed.

Lemma same_flags_tests f f' safety req s :
  same_flags f f' -> preArm_tests f' safety req s = preArm_tests f safety req s.
Proof. by intros (i & r & o & ->). Qed.

Create HintDb core_db.
#[export] Hint Resolve same_core_health ho_mag ho_magc ho_accel ho_gyro ho_baro ho_imu ho_airspeed
  ho_ekf same_flags_init same_flags_rc same_flags_sd : core_db.

Section PreflightLemmas.
Context (ck : checks) (pr : preflight_params) `{!HealthOnly ck}.

Lemma sensor_loop_core g m n : forall i fd s,
  (forall i o s, same_core s (g i o s).2) -> same_core s (sensor_loop g m n i fd s).2.
Proof.
  induction n as [|n IH]; intros i fd s Hg; simpl; [reflexivity|].
  pose proof (Hg i (negb ((i <? 1) && m)) s) as H. destruct (g _ _ s) as [ok s1].
  etransitivity; [exact H | by apply IH].
Qed.

Lemma baro_loop_core n : forall i s, same_core s (baro_loop ck pr n i s).
Proof.
  induction n as [|n IH]; intros i s; simpl; [reflexivity|].
  etransitivity; [|apply IH]. auto with core_db.
Qed.

Lemma preflightCheck_core r p t s f :
  same_core s (preflightCheck ck pr r p t s f).1.2 /\ same_flags f (preflightCheck ck pr r p t s f).2.
Proof.
  unfold preflightCheck.
  set (rp := r && _ && _). clearbody rp.
  set (x := if negb (airframeCheck ck s) then _ else _).
  assert (Hx : same_flags f x.2).
  { subst x. destruct (negb (airframeCheck ck s)); [reflexivity|].
    destruct (sdcardCheck ck _); simpl; auto with core_db. }
  destruct x as [fd f1]. simpl in Hx.
  assert (Hm : same_core s (preflight_mag ck pr rp fd s).2).
  { unfold preflight_mag. destruct (_ =? _); [|reflexivity].
    pose proof (sensor_loop_core (magnetometerCheck ck) true 4 0 fd s ltac:(auto with core_db)) as H.
    destruct (sensor_loop _ _ _ _ _ _) as [fd1 s1]. simpl in H.
    pose proof (ho_magc rp s1) as H1. destruct (magConsistencyCheck ck rp s1). by etransitivity. }
  destruct (preflight_mag ck pr rp fd s) as [fd1 s1]. simpl in Hm.
  pose proof (sensor_loop_core (accelerometerCheck ck) true 4 0 fd1 s1 ltac:(auto with core_db)) as Ha.
  destruct (sensor_loop _ _ _ _ _ _) as [fd2 s2]. simpl in Ha.
  pose proof (sensor_loop_core (gyroCheck ck) true 4 0 fd2 s2 ltac:(auto with core_db)) as Hg.
  destruct (sensor_loop _ _ _ _ _ _) as [fd3 s3]. simpl in Hg.
  pose proof (baro_loop_core 4 0 s3) as Hb. set (s4 := baro_loop _ _ _ _ _) in *. clearbody s4.
  pose proof (ho_imu rp s4) as Hi. destruct (imuConsistencyCheck ck rp s4) as [ok s5]. simpl in Hi.
  assert (Has : same_core s5 (preflight_airspeed ck pr f1 p (fd3 || negb ok) s5).2).
  { unfold preflight_airspeed. destruct (_ && _); [|reflexivity].
    pose proof (ho_airspeed (fw_arsp_mode pr =? 1) p s5) as H. by destruct (airspeedCheck _ _ _ _). }
  destruct (preflight_airspeed _ _ _ _ _ _) as [fd6 s6]. simpl in Has.
  assert (Hr : same_core s6 (preflight_rc ck fd6 s6 f1).1.2 /\ same_flags f1 (preflight_rc ck fd6 s6 f1).2).
  { unfold preflight_rc. destruct (rc_input_default s6); [|split; reflexivity].
    destruct (negb _); simpl; auto with core_db. }
  destruct (preflight_rc ck fd6 s6 f1) as [[fd7 s7] f2]. simpl in Hr. destruct Hr as [Hr Hf].
  set (fd8 := if _ && _ then _ else fd7). clearbody fd8.
  assert (He : same_core s7 (preflight_ekf ck pr rp t fd8 s7).2).
  { unfold preflight_ekf. destruct (_ =? 2); [|reflexivity].
    pose proof (ho_ekf rp s7) as H. destruct (ekf2Check ck rp s7) as [ok1 s8]. simpl in *.
    etransitivity; [exact H|]. case_match; auto with core_db. }
  destruct (preflight_ekf _ _ _ _ _ _) as [fd9 s9]. simpl in *.
  split; [|by etransitivity].
  by repeat (etransitivity; [eassumption|]).
Qed.

(** The preflight part of a transition. *)
Lemma arming_preflight_core now t b new c :
  let c1 := (arming_preflight ck pr now t b new c).2 in
  same_core (vs c) (vs c1) /\ same_flags (vf c) (vf c1) /\ aa c1 = aa c /\ auth c1 = auth c.
Proof.
  cbn zeta. unfold arming_preflight.
  set (x := if b && to_armed new && negb (hil_on (vs c)) then _ else _).
  assert (Hx : same_core (vs c) (vs x.2) /\ same_flags (vf c) (vf x.2) /\ aa x.2 = aa c
               /\ auth x.2 = auth c).
  { subst x. destruct (_ && _); [|done].
    destruct (preflightCheck_core true true t (vs c) (vf c)) as [H1 H2].
    destruct (preflightCheck _ _ _ _ _ _ _) as [[ok s] f]. simpl in *. split; [done|]. split; [|done].
    etransitivity; [exact H2|]. destruct ok; [auto with core_db | reflexivity]. }
  destruct x as [r c1]. simpl in Hx. destruct Hx as (H1 & H2 & H3 & H4).
  destruct (_ && (_ || _)); [|done].
  destruct (preflightCheck_core false (negb (to_armed (arming_state (vs c1)))) t (vs c1) (vf c1)) as [G1 G2].
  destruct (preflightCheck _ _ _ _ _ _ _) as [[ok s] f]. simpl in *.
  split; [by etransitivity|]. split; [|done]. etransitivity; [exact H2|].
  etransitivity; [exact G2 | auto with core_db].
Qed.

Lemma preArmCheck_core f safety req now polls s a ok s' a' :
  preArmCheck f safety req now polls s a = Some (ok, s', a') -> same_core s s'.
Proof.
  unfold preArmCheck. set (s1 := if circuit_breaker_engaged_power_check f then s else _).
  assert (H1 : same_core s s1) by (subst s1; case_match; [reflexivity | auto with core_db]).
  intros H. repeat case_match; by simplify_eq.
Qed.

Lemma arming_valid_core now polls b safety req new p c v c1 :
  arming_valid now polls b safety req new p c = Some (v, c1) ->
  same_core (vs c) (vs c1) /\ vf c1 = vf c /\ aa c1 = aa c.
Proof.
  unfold arming_valid. intros H.
  destruct (_ && _); [|by simplify_eq]. destruct (b && p); [|by simplify_eq].
  destruct (preArmCheck _ _ _ _ _ _ _) as [[[ok s] a]|] eqn:E; [|done]. simplify_eq.
  split; [by eapply preArmCheck_core | done].
Qed.
End PreflightLemmas.
