(* ===== verification/ManualControl.v ===== *)
(** The pilot's gestures (src/modules/commander/ManualControl.cpp): arming,
    disarming and taking over by sticks, by a button and by a switch, and the
    commander's use of them. *)

From Stdlib Require Import ZArith Lia SpecFloat.
From stdpp Require Import base list numbers option.
From S2P Require Import Prelude Float32 EsoVector Hysteresis Commander.

Local Open Scope Z_scope.

(** * Topics *)

Record manual_control_setpoint_s := Manual_control_setpoint {
  mcs_timestamp : Z;
  mcs_x : float;
  mcs_y : float;
  mcs_z : float;
  mcs_r : float;
  data_source : Z
}.
Definition no_setpoint : manual_control_setpoint_s := Manual_control_setpoint 0 fzero fzero fzero fzero 0.

Definition SOURCE_RC : Z := 1.

Inductive switch_pos := SWITCH_POS_NONE | SWITCH_POS_ON | SWITCH_POS_MIDDLE | SWITCH_POS_OFF.
#[export] Instance switch_pos_eq_dec : EqDecision switch_pos.
Proof. solve_decision. Defined.

(** The flags of vehicle_control_mode.msg the gestures depend on. *)
Record control_mode := Control_mode {
  flag_control_manual_enabled : bool;
  flag_control_auto_enabled : bool;
  flag_control_offboard_enabled : bool;
  flag_control_climb_rate_enabled : bool
}.

Record manual_params := Manual_params {
  COM_RC_LOSS_T : float;
  COM_RC_ARM_HYST : Z;
  COM_ARM_SWISBTN : bool;
  COM_RC_OVERRIDE : Z;
  COM_RC_STICK_OV : float
}.

(** * The class *)

Record manual_control := Manual_control {
  _manual_control_setpoint : manual_control_setpoint_s;
  _last_manual_control_setpoint : manual_control_setpoint_s;
  _rc_allowed : bool;
  _rc_available : bool;
  _stick_disarm_hysteresis : hysteresis;
  _stick_arm_hysteresis : hysteresis;
  _last_manual_control_switches_arm_switch : switch_pos
}.

Definition manual_control_new : manual_control :=
  Manual_control no_setpoint no_setpoint false false (hysteresis_new false) (hysteresis_new false) SWITCH_POS_NONE.

Definition setRCAllowed (rc_allowed : bool) (m : manual_control) : manual_control :=
  Manual_control (_manual_control_setpoint m) (_last_manual_control_setpoint m) rc_allowed (_rc_available m)
    (_stick_disarm_hysteresis m) (_stick_arm_hysteresis m) (_last_manual_control_switches_arm_switch m).

Definition isMavlink (m : manual_control) : bool := SOURCE_RC <? data_source (_manual_control_setpoint m).
Definition isThrottleLow (m : manual_control) : bool := fltb (mcs_z (_last_manual_control_setpoint m)) (f_dec 1 10).
Definition isThrottleAboveCenter (m : manual_control) : bool :=
  fltb (f_dec 6 10) (mcs_z (_last_manual_control_setpoint m)).
Definition getLastRcTimestamp (m : manual_control) : Z := mcs_timestamp (_last_manual_control_setpoint m).

Definition OVERRIDE_AUTO_MODE_BIT : Z := 1.
Definition OVERRIDE_OFFBOARD_MODE_BIT : Z := 2.
Definition OVERRIDE_IGNORE_THROTTLE_BIT : Z := 4.

Section Params.
Context (p : manual_params).

Definition updateParams (m : manual_control) : manual_control :=
  let time := u64 (u64 (COM_RC_ARM_HYST p) * 1000) in
  Manual_control (_manual_control_setpoint m) (_last_manual_control_setpoint m) (_rc_allowed m) (_rc_available m)
    (set_hysteresis_time_from false time (_stick_disarm_hysteresis m))
    (set_hysteresis_time_from false time (_stick_arm_hysteresis m)) (_last_manual_control_switches_arm_switch m).

(** [now] is read only when a setpoint has been received and is allowed. *)
Definition update (news : option manual_control_setpoint_s) (now : Z) (m : manual_control) : bool * manual_control :=
  let '(updated, sp, last) :=
    match news with
    | Some sp => (true, sp, _manual_control_setpoint m)
    | None => (false, _manual_control_setpoint m, _last_manual_control_setpoint m)
    end in
  let available := _rc_allowed m && negb (mcs_timestamp sp =? 0)
                   && fltb (f_of_Z (u64 (now - mcs_timestamp sp))) (fmul (COM_RC_LOSS_T p) (f_of_Z 1000000)) in
  (updated && available,
   Manual_control sp last (_rc_allowed m) available (_stick_disarm_hysteresis m) (_stick_arm_hysteresis m)
     (_last_manual_control_switches_arm_switch m)).

Definition override_bit (bit : Z) : bool := negb (Z.land (COM_RC_OVERRIDE p) bit =? 0).

Definition wantsOverride (mode : control_mode) (status : vehicle_status_s) (m : manual_control) : bool :=
  let override_auto_mode := override_bit OVERRIDE_AUTO_MODE_BIT && flag_control_auto_enabled mode in
  let override_offboard_mode := override_bit OVERRIDE_OFFBOARD_MODE_BIT && flag_control_offboard_enabled mode in
  let override_landing := bool_decide (nav_state status = NAVIGATION_STATE_AUTO_LANDGPSFAIL)
                          || bool_decide (nav_state status = NAVIGATION_STATE_DESCEND) in
  if _rc_available m && (override_auto_mode || override_offboard_mode || override_landing) then
    let minimum_stick_change := fmul (f_dec 1 100) (COM_RC_STICK_OV p) in
    let sp := _manual_control_setpoint m in
    let last := _last_manual_control_setpoint m in
    let moved f := fabs (fsub (f sp) (f last)) in
    let rpy_moved := fltb minimum_stick_change (moved mcs_x) || fltb minimum_stick_change (moved mcs_y)
                     || fltb minimum_stick_change (moved mcs_r) in
    let throttle_moved := fltb minimum_stick_change (fmul (moved mcs_z) (f_of_Z 2)) in
    let use_throttle := negb (override_bit OVERRIDE_IGNORE_THROTTLE_BIT) in
    rpy_moved || (use_throttle && throttle_moved)
  else false.

(** How the arm switch is used. *)
Definition use_stick (arm_switch : switch_pos) : bool := bool_decide (arm_switch = SWITCH_POS_NONE).
Definition use_button (arm_switch : switch_pos) : bool := negb (use_stick arm_switch) && COM_ARM_SWISBTN p.
Definition use_switch (arm_switch : switch_pos) : bool := negb (use_stick arm_switch) && negb (use_button arm_switch).
Definition arm_button_pressed (arm_switch : switch_pos) : bool :=
  use_button arm_switch && bool_decide (arm_switch = SWITCH_POS_ON).

Definition is_armed (status : vehicle_status_s) : bool := bool_decide (arming_state status = ARMING_STATE_ARMED).

Definition stick_in_lower_left (arm_switch : switch_pos) (m : manual_control) : bool :=
  use_stick arm_switch && isThrottleLow m && fltb (mcs_r (_manual_control_setpoint m)) (fneg (f_dec 9 10)).
Definition stick_in_lower_right (arm_switch : switch_pos) (m : manual_control) : bool :=
  use_stick arm_switch && isThrottleLow m && fltb (f_dec 9 10) (mcs_r (_manual_control_setpoint m)).

Definition arm_switch_to_disarm_transition (arm_switch : switch_pos) (m : manual_control) : bool :=
  use_switch arm_switch && bool_decide (_last_manual_control_switches_arm_switch m = SWITCH_POS_ON)
  && bool_decide (arm_switch = SWITCH_POS_OFF).
Definition arm_switch_to_arm_transition (arm_switch : switch_pos) (m : manual_control) : bool :=
  use_switch arm_switch && bool_decide (_last_manual_control_switches_arm_switch m = SWITCH_POS_OFF)
  && bool_decide (arm_switch = SWITCH_POS_ON).

Definition mc_manual_thrust_mode (mode : control_mode) (status : vehicle_status_s) : bool :=
  bool_decide (vehicle_type status = VEHICLE_TYPE_ROTARY_WING) && flag_control_manual_enabled mode
  && negb (flag_control_climb_rate_enabled mode).

(** A disarming gesture is made, in a state in which it counts. *)
Definition disarm_gesture (mode : control_mode) (status : vehicle_status_s) (arm_switch : switch_pos) (landed : bool)
    (m : manual_control) : bool :=
  is_armed status && (landed || mc_manual_thrust_mode mode status)
  && (stick_in_lower_left arm_switch m || arm_button_pressed arm_switch || arm_switch_to_disarm_transition arm_switch m).

Definition arm_gesture (status : vehicle_status_s) (arm_switch : switch_pos) (m : manual_control) : bool :=
  negb (is_armed status)
  && (stick_in_lower_right arm_switch m || arm_button_pressed arm_switch || arm_switch_to_arm_transition arm_switch m).

(** The hysteresis of a gesture: it is left alone while the button is held. *)
Definition gesture_step (gesture pressed : bool) (now : Z) (h : hysteresis) : hysteresis :=
  if gesture then set_state_and_update true now h
  else if negb pressed then set_state_and_update false now h else h.

Definition wantsDisarm (mode : control_mode) (status : vehicle_status_s) (arm_switch : switch_pos) (landed : bool)
    (now : Z) (m : manual_control) : bool * manual_control :=
  let gesture := disarm_gesture mode status arm_switch landed m in
  let h := _stick_disarm_hysteresis m in
  let h' := gesture_step gesture (arm_button_pressed arm_switch) now h in
  let disarm_trigger := negb (_state h) && _state h' && negb (_state (_stick_arm_hysteresis m)) in
  (gesture && (disarm_trigger || arm_switch_to_disarm_transition arm_switch m),
   Manual_control (_manual_control_setpoint m) (_last_manual_control_setpoint m) (_rc_allowed m) (_rc_available m)
     h' (_stick_arm_hysteresis m) (_last_manual_control_switches_arm_switch m)).

Definition wantsArm (status : vehicle_status_s) (arm_switch : switch_pos) (now : Z) (m : manual_control)
    : bool * manual_control :=
  let gesture := arm_gesture status arm_switch m in
  let h := _stick_arm_hysteresis m in
  let h' := gesture_step gesture (arm_button_pressed arm_switch) now h in
  let arm_trigger := negb (_state h) && _state h' && negb (_state (_stick_disarm_hysteresis m)) in
  (gesture && (arm_trigger || arm_switch_to_arm_transition arm_switch m),
   Manual_control (_manual_control_setpoint m) (_last_manual_control_setpoint m) (_rc_allowed m) (_rc_available m)
     (_stick_disarm_hysteresis m) h' arm_switch).
End Params.

(** * The commander's use *)

(** One pass of the commander's block for manual input: the setpoint if there is
    news, the state of the vehicle before it and after a disarming, and the clock
    at its three readings. *)
Record pass := Pass {
  news : option manual_control_setpoint_s;
  rc_input_blocked : bool;
  rc_arming_enabled : bool;
  mode : control_mode;
  status : vehicle_status_s;
  disarmed_status : vehicle_status_s;
  arm_switch : switch_pos;
  landed : bool;
  update_time : Z;
  disarm_time : Z;
  arm_time : Z
}.

Inductive request := RequestDisarm | RequestArm | NotInManualMode.

Section Pass.
Context (p : manual_params).

(** The state after the setpoint has been taken. *)
Definition taken (x : pass) (m : manual_control) : bool * manual_control :=
  update p (news x) (update_time x) (setRCAllowed (negb (rc_input_blocked x)) m).

Definition wants_disarm (x : pass) (m : manual_control) : bool * manual_control :=
  wantsDisarm p (mode x) (status x) (arm_switch x) (landed x) (disarm_time x) m.
Definition status_after (x : pass) (disarming : bool) : vehicle_status_s :=
  if disarming then disarmed_status x else status x.

Definition manual_arming (x : pass) (m : manual_control) : list request * manual_control :=
  let '(fresh, m) := taken x m in
  if fresh && rc_arming_enabled x then
    let '(d, m) := wants_disarm x m in
    let '(a, m) := wantsArm p (status_after x d) (arm_switch x) (arm_time x) m in
    ((if d then [RequestDisarm] else [])
     ++ (if a then [if flag_control_manual_enabled (mode x) then RequestArm else NotInManualMode] else []), m)
  else ([], m).

(** * Gestures take their time *)

(** What an observer of the sticks knows: since when each gesture has been made;
    a held button keeps it. *)
Record gestures := Gestures { disarm_since : option Z; arm_since : option Z; last_seen : Z }.
Definition no_gestures : gestures := Gestures None None 0.

Definition gesture_since (o : option Z) (gesture pressed : bool) (now : Z) : option Z :=
  if gesture then raised o true now else if pressed then o else None.

Definition observe (x : pass) (m : manual_control) (o : gestures) : gestures :=
  let '(fresh, m) := taken x m in
  if fresh && rc_arming_enabled x then
    let d := wants_disarm x m in
    Gestures
      (gesture_since (disarm_since o) (disarm_gesture p (mode x) (status x) (arm_switch x) (landed x) m)
         (arm_button_pressed p (arm_switch x)) (disarm_time x))
      (gesture_since (arm_since o) (arm_gesture p (status_after x d.1) (arm_switch x) d.2)
         (arm_button_pressed p (arm_switch x)) (arm_time x))
      (arm_time x)
  else o.

Definition in_time (x : pass) (o : gestures) : Prop :=
  last_seen o <= disarm_time x /\ disarm_time x <= arm_time x < 2 ^ 64.

Definition step (x : pass) (mo : manual_control * gestures) : manual_control * gestures :=
  ((manual_arming x mo.1).2, observe x mo.1 mo.2).

Fixpoint run (xs : list pass) (mo : manual_control * gestures) : manual_control * gestures :=
  match xs with [] => mo | x :: xs => run xs (step x mo) end.
Fixpoint ordered (xs : list pass) (mo : manual_control * gestures) : Prop :=
  match xs with [] => True | x :: xs => in_time x mo.2 /\ ordered xs (step x mo) end.

Definition ARM_TIME : Z := u64 (u64 (COM_RC_ARM_HYST p) * 1000).

Definition gestures_ok (m : manual_control) (o : gestures) : Prop :=
  0 <= last_seen o
  /\ holds ARM_TIME (last_seen o) (disarm_since o) (_stick_disarm_hysteresis m)
  /\ _time_from_false_us (_stick_disarm_hysteresis m) = ARM_TIME
  /\ holds ARM_TIME (last_seen o) (arm_since o) (_stick_arm_hysteresis m)
  /\ _time_from_false_us (_stick_arm_hysteresis m) = ARM_TIME.

(** A gesture's hysteresis over one sample; it rises only when the gesture has
    been made for the time. *)
Lemma gesture_holds last now g pressed since h :
  holds ARM_TIME last since h -> _time_from_false_us h = ARM_TIME -> 0 <= last -> last <= now < 2 ^ 64 ->
  let h' := gesture_step g pressed now h in
  let since' := gesture_since since g pressed now in
  holds ARM_TIME now since' h' /\ _time_from_false_us h' = ARM_TIME
  /\ (g = true -> _state h' = lasted ARM_TIME now since').
Proof.
  intros Hh HT H0 Hn. unfold gesture_step, gesture_since. destruct g, pressed; cbn [negb].
  1-2: destruct (holds_sample _ _ now true _ _ Hh HT ltac:(lia)) as [H1 H2];
    split_and!; [done | by destruct (hysteresis_times true now h) as [_ ->] | done].
  - split_and!; [eapply holds_later; [done | lia] | done | done].
  - destruct (holds_sample _ _ now false _ _ Hh HT ltac:(lia)) as [H1 H2].
    split_and!; [done | by destruct (hysteresis_times false now h) as [_ ->] | done].
Qed.

Lemma taken_hystereses x m :
  _stick_disarm_hysteresis (taken x m).2 = _stick_disarm_hysteresis m
  /\ _stick_arm_hysteresis (taken x m).2 = _stick_arm_hysteresis m.
Proof. unfold taken, update. by destruct (news x). Qed.

Lemma gestures_step x m o :
  gestures_ok m o -> in_time x o -> gestures_ok (step x (m, o)).1 (step x (m, o)).2.
Proof.
  intros (H0 & Hd & Td & Ha & Ta) [H1 H2]. unfold step, manual_arming, observe. cbn [fst snd].
  destruct (taken_hystereses x m) as [E1 E2]. destruct (taken x m) as [fresh m1]. cbn [fst snd] in *.
  destruct (fresh && rc_arming_enabled x); [|unfold gestures_ok; cbn [fst snd]; by rewrite E1, E2].
  unfold wants_disarm, wantsDisarm, wantsArm. cbn [fst snd].
  rewrite <- E1 in Hd, Td. rewrite <- E2 in Ha, Ta.
  edestruct (gesture_holds (last_seen o) (disarm_time x)
    (disarm_gesture p (mode x) (status x) (arm_switch x) (landed x) m1)
    (arm_button_pressed p (arm_switch x)) _ _ Hd Td H0 ltac:(lia)) as (D1 & D2 & _).
  match goal with |- context [gesture_since (arm_since o) ?g ?b ?t] =>
    edestruct (gesture_holds (last_seen o) t g b _ _ Ha Ta H0 ltac:(lia)) as (A1 & A2 & _) end.
  unfold gestures_ok. cbn [fst snd last_seen disarm_since arm_since _stick_disarm_hysteresis _stick_arm_hysteresis].
  split_and!; try done; [lia|]. eapply holds_later; [done | lia].
Qed.

Lemma gestures_run xs : forall mo,
  gestures_ok mo.1 mo.2 -> ordered xs mo -> gestures_ok (run xs mo).1 (run xs mo).2.
Proof.
  induction xs as [|x xs IH]; intros [m o] H Ho; [done|]. destruct Ho as [Hx Ho].
  apply IH; [by apply gestures_step | done].
Qed.

Lemma gestures_start : gestures_ok (updateParams p manual_control_new) no_gestures.
Proof. split_and!; try done; exists 0; split; try lia; by split. Qed.
End Pass.

Section Theorems.
Context (p : manual_params).

Lemma taken_last x m :
  _last_manual_control_switches_arm_switch (taken p x m).2 = _last_manual_control_switches_arm_switch m.
Proof. unfold taken, update. by destruct (news x). Qed.

Lemma taken_fresh x m : (taken p x m).1 = true -> _rc_available (taken p x m).2 = true.
Proof. unfold taken, update. destruct (news x); cbn [fst snd _rc_available]; [done | by rewrite andb_false_l]. Qed.

Lemma lasted_since T now since : lasted T now since = true -> exists t, since = Some t /\ T <= now - t.
Proof. destruct since as [t|]; cbn; [|done]. intros H. exists t. split; [done | lia]. Qed.

(** What a disarming and an arming request come from, in a state that holds the
    gestures seen so far. *)
Lemma disarm_request x m o :
  gestures_ok p m o -> in_time x o -> In RequestDisarm (manual_arming p x m).1 ->
  is_armed (status x) = true /\ landed x || mc_manual_thrust_mode (mode x) (status x) = true
  /\ ((_last_manual_control_switches_arm_switch m = SWITCH_POS_ON /\ arm_switch x = SWITCH_POS_OFF)
      \/ exists t, disarm_since (observe p x m o) = Some t /\ ARM_TIME p <= disarm_time x - t).
Proof.
  intros (H0 & Hd & Td & _) [H1 H2]. unfold manual_arming, observe. pose proof (taken_last x m) as El.
  destruct (taken_hystereses p x m) as [E1 _]. destruct (taken p x m) as [fresh m1]. cbn [fst snd] in *.
  destruct (fresh && rc_arming_enabled x); [|done]. unfold wants_disarm, wantsDisarm. cbn [fst snd].
  rewrite <- E1 in Hd, Td. set (g := disarm_gesture _ _ _ _ _ _).
  edestruct (gesture_holds p (last_seen o) (disarm_time x) g
    (arm_button_pressed p (arm_switch x)) _ _ Hd Td H0 ltac:(lia)) as (_ & _ & D3).
  destruct (wantsArm _ _ _ _ _) as [a m2]. cbn [fst]. rewrite in_app_iff.
  intros [Hin|Hin]; [|by destruct a, (flag_control_manual_enabled (mode x)); destruct Hin].
  destruct g eqn:Eg; [|done]. cbn [andb] in Hin. specialize (D3 eq_refl). unfold g, disarm_gesture in Eg.
  apply andb_true_iff in Eg as [Eg Eg']. apply andb_true_iff in Eg as [Ea El']. split_and!; [done | done |].
  cbn [disarm_since]. destruct (arm_switch_to_disarm_transition p (arm_switch x) m1) eqn:Et.
  - left. unfold arm_switch_to_disarm_transition in Et. rewrite !andb_true_iff, !bool_decide_eq_true, El in Et. tauto.
  - right. apply lasted_since. rewrite <- D3. rewrite orb_false_r in Hin.
    by destruct (_state (gesture_step _ _ _ _)) in Hin |- *; [|rewrite andb_false_r in Hin].
Qed.

Lemma arm_request x m o :
  gestures_ok p m o -> in_time x o -> In RequestArm (manual_arming p x m).1 ->
  _rc_available (manual_arming p x m).2 = true /\ flag_control_manual_enabled (mode x) = true
  /\ (is_armed (status x) = false
      \/ In RequestDisarm (manual_arming p x m).1 /\ is_armed (disarmed_status x) = false)
  /\ ((_last_manual_control_switches_arm_switch m = SWITCH_POS_OFF /\ arm_switch x = SWITCH_POS_ON)
      \/ exists t, arm_since (observe p x m o) = Some t /\ ARM_TIME p <= arm_time x - t).
Proof.
  intros (H0 & _ & _ & Ha & Ta) [H1 H2]. unfold manual_arming, observe. pose proof (taken_last x m) as El.
  pose proof (taken_fresh x m) as Hf. destruct (taken_hystereses p x m) as [_ E2].
  destruct (taken p x m) as [fresh m1]. cbn [fst snd] in *.
  destruct fresh; [|done]. destruct (rc_arming_enabled x); [|done]. specialize (Hf eq_refl). cbn [andb].
  assert (Ew : _stick_arm_hysteresis (wants_disarm p x m1).2 = _stick_arm_hysteresis m
               /\ _last_manual_control_switches_arm_switch (wants_disarm p x m1).2 = _last_manual_control_switches_arm_switch m
               /\ _rc_available (wants_disarm p x m1).2 = _rc_available m1) by (split_and!; cbn; congruence).
  destruct (wants_disarm p x m1) as [d m2]. cbn [fst snd] in *. destruct Ew as (Ew1 & Ew2 & Ew3).
  rewrite <- Ew1 in Ha, Ta. unfold wantsArm. set (g := arm_gesture _ _ _ _).
  edestruct (gesture_holds p (last_seen o) (arm_time x) g
    (arm_button_pressed p (arm_switch x)) _ _ Ha Ta H0 ltac:(lia)) as (_ & _ & D3).
  cbn [fst snd _rc_available]. rewrite in_app_iff. intros [Hin|Hin]; [by destruct d; destruct Hin|].
  destruct g eqn:Eg; [|done]. cbn [andb] in Hin. specialize (D3 eq_refl). unfold g, arm_gesture in Eg.
  apply andb_true_iff in Eg as [Ea _]. apply negb_true_iff in Ea.
  destruct (flag_control_manual_enabled (mode x)); [|destruct (_ || _) in Hin; by destruct Hin].
  split_and!; [congruence | done | destruct d; [right; split; [by left | done] | by left] |]. cbn [arm_since].
  destruct (arm_switch_to_arm_transition p (arm_switch x) m2) eqn:Et.
  - left. unfold arm_switch_to_arm_transition in Et. rewrite !andb_true_iff, !bool_decide_eq_true, Ew2 in Et. tauto.
  - right. apply lasted_since. rewrite <- D3. rewrite orb_false_r in Hin.
    by destruct (_state (gesture_step _ _ _ _)) in Hin |- *; [|rewrite andb_false_r in Hin].
Qed.

(** C14: arming and disarming by hand need a gesture that is meant.  In every
    history of passes in the order of time, the commander asks for arming only
    when the remote control is available, a manual mode is set and the vehicle is
    not armed (or is being disarmed in the same pass), and for disarming only when it is armed and either landed or a
    rotary wing under manual thrust; and in both cases the arm switch has just
    been moved, or the gesture has been made in every pass for at least the time
    of COM_RC_ARM_HYST. *)
Theorem gestures_are_meant (xs : list pass) (x : pass) :
  let start := (updateParams p manual_control_new, no_gestures) in
  let '(m, o) := run p xs start in
  let '(out, m') := manual_arming p x m in
  ordered p xs start -> in_time x o ->
  (In RequestArm out ->
     _rc_available m' = true /\ flag_control_manual_enabled (mode x) = true
     /\ (is_armed (status x) = false
      \/ In RequestDisarm (manual_arming p x m).1 /\ is_armed (disarmed_status x) = false)
     /\ ((_last_manual_control_switches_arm_switch m = SWITCH_POS_OFF /\ arm_switch x = SWITCH_POS_ON)
         \/ exists t, arm_since (observe p x m o) = Some t /\ ARM_TIME p <= arm_time x - t))
  /\ (In RequestDisarm out ->
     is_armed (status x) = true /\ landed x || mc_manual_thrust_mode (mode x) (status x) = true
     /\ ((_last_manual_control_switches_arm_switch m = SWITCH_POS_ON /\ arm_switch x = SWITCH_POS_OFF)
         \/ exists t, disarm_since (observe p x m o) = Some t /\ ARM_TIME p <= disarm_time x - t)).
Proof.
  intros start. subst start. pose proof (gestures_run p xs (updateParams p manual_control_new, no_gestures) (gestures_start p)) as Hok.
  destruct (run p xs _) as [m o]. cbn [fst snd] in *.
  pose proof (arm_request x m o) as Ha. pose proof (disarm_request x m o) as Hd.
  destruct (manual_arming p x m) as [out m']. cbn [fst snd] in *. intros Hxs Hx. auto.
Qed.
End Theorems.

(** * Examples *)

Definition example_params : manual_params := Manual_params (f_dec 1 2) 1000 false 3 (f_of_Z 30).

Definition example_status (armed : bool) : vehicle_status_s :=
  Vehicle_status (if armed then ARMING_STATE_ARMED else ARMING_STATE_STANDBY) NAVIGATION_STATE_MANUAL false false 0
    VEHICLE_TYPE_ROTARY_WING false false false false false false false false 0 0 0 0 0 0.

(** A pass at [t] of a disarmed vehicle, with throttle and yaw. *)
Definition stick_pass (z r : float) (t : Z) : pass :=
  Pass (Some (Manual_control_setpoint t fzero fzero z r 1)) false true (Control_mode true false false false)
    (example_status false) (example_status false) SWITCH_POS_NONE true t t t.

Definition hold_right : list pass := map (stick_pass fzero fone) [1000000; 1400000; 1800000].

Lemma gestures_are_meant_witness :
  exists t, arm_since (observe example_params (stick_pass fzero fone 2200000)
                         (run example_params hold_right (updateParams example_params manual_control_new, no_gestures)).1
                         (run example_params hold_right (updateParams example_params manual_control_new, no_gestures)).2)
            = Some t /\ ARM_TIME example_params <= 2200000 - t.
Proof.
  pose proof (gestures_are_meant example_params hold_right (stick_pass fzero fone 2200000)) as H. cbn zeta in H.
  destruct (run example_params hold_right _) as [m o] eqn:E. cbn [fst snd].
  assert (Em : m = (run example_params hold_right (updateParams example_params manual_control_new, no_gestures)).1)
    by by rewrite E.
  assert (Eo : o = (run example_params hold_right (updateParams example_params manual_control_new, no_gestures)).2)
    by by rewrite E.
  clear E. subst m o. destruct (manual_arming _ _ _) as [out m'] eqn:E.
  destruct H as [H _]; [vm_compute; intuition congruence | vm_compute; intuition congruence |].
  destruct H as (_ & _ & _ & [[_ H]|H]); [|done | exact H].
  apply (f_equal fst) in E. cbn [fst] in E. rewrite <- E. vm_compute. auto.
Defined.

(** The throttle of a gesture is that of the setpoint before: a full throttle in
    the very setpoint that completes the gesture does not stop it. *)
Lemma throttle_one_late :
  In RequestArm (manual_arming example_params (stick_pass fone fone 2200000)
    (run example_params hold_right (updateParams example_params manual_control_new, no_gestures)).1).1.
Proof. vm_compute. auto. Qed.
