(* ===== verification/ArmCommand.v ===== *)
(** The commander's own requests to arm and disarm (Commander.cpp): arm, disarm,
    the shutdown and the command VEHICLE_CMD_COMPONENT_ARM_DISARM, which is the
    one place outside arming_state_transition that writes the arming state.  Log
    messages, tunes and the update of the home position are left out. *)

From Stdlib Require Import ZArith Lia SpecFloat.
From stdpp Require Import base list numbers.
From S2P Require Import Prelude Float32 ArmAuth Commander ManualControl.

Local Open Scope Z_scope.

(** arm_disarm_reason_t *)
Definition REASON_COMMAND_INTERNAL : Z := 3.
Definition REASON_COMMAND_EXTERNAL : Z := 4.
Definition REASON_SHUTDOWN : Z := 12.

Definition VEHICLE_CMD_RESULT_UNSUPPORTED : Z := 3.
Definition GF_ACTION_RTL : Z := 3.

(** vehicle_command.msg *)
Record vehicle_command_s := Vehicle_command {
  param1 : float;
  param2 : float;
  param3 : float;
  source_system : Z;
  source_component : Z;
  from_external : bool
}.

(** What a request reads besides the status: the clock at its start and at its
    end, the acknowledgements of a blocking authorization, parameters and
    topics, and the vehicle's identity. *)
Record arm_inputs := Arm_inputs {
  ar_now : Z;
  ar_done_at : Z;
  ar_polls : list poll;
  _boot_timestamp : Z;
  _last_disarmed_timestamp : Z;
  _safety : safety_s;
  _arm_requirements : arm_requirements_t;
  com_rearm_grace : bool;
  geofence_action : Z;
  _vehicle_control_mode : control_mode;
  _manual_control : manual_control;
  ld_landed : bool;
  ld_maybe_landed : bool;
  ground_rover : bool;
  status_system_id : Z;
  status_component_id : Z
}.

Section Requests.
Context (ck : checks) (pr : preflight_params).

Definition since_boot (e : arm_inputs) : Z := u64 (ar_now e - _boot_timestamp e).

(** The sticks and the geofence's return do not allow to arm. *)
Definition arm_refused (e : arm_inputs) (c : arming_ctx) : bool :=
  let m := _vehicle_control_mode e in
  let mc := _manual_control e in
  (flag_control_manual_enabled m
   && ((flag_control_climb_rate_enabled m && isThrottleAboveCenter mc)
       || (negb (flag_control_climb_rate_enabled m) && negb (isThrottleLow mc))))
  || ((geofence_action e =? GF_ACTION_RTL) && negb (condition_home_position_valid (vf c))).

Definition arm (e : arm_inputs) (calling_reason : Z) (run_preflight_checks : bool) (c : arming_ctx)
  : option (transition_result_t * arming_ctx) :=
  let run_preflight_checks :=
    if com_rearm_grace e && (u64 (ar_now e - _last_disarmed_timestamp e) <? 5000000)
    then false else run_preflight_checks in
  if run_preflight_checks && arm_refused e c then Some (TRANSITION_DENIED, c)
  else arming_state_transition ck pr (ar_now e) (ar_done_at e) (since_boot e) (ar_polls e) (_safety e)
         ARMING_STATE_ARMED run_preflight_checks (_arm_requirements e) calling_reason c.

Definition disarm (e : arm_inputs) (calling_reason : Z) (c : arming_ctx)
  : option (transition_result_t * arming_ctx) :=
  arming_state_transition ck pr (ar_now e) (ar_done_at e) (since_boot e) (ar_polls e) (_safety e)
    ARMING_STATE_STANDBY false (_arm_requirements e) calling_reason c.

Definition shutdown_if_allowed (e : arm_inputs) (c : arming_ctx) : option (bool * arming_ctx) :=
  match arming_state_transition ck pr (ar_now e) (ar_done_at e) (since_boot e) (ar_polls e) (_safety e)
          ARMING_STATE_SHUTDOWN false (_arm_requirements e) REASON_SHUTDOWN c with
  | None => None
  | Some (r, c) => Some (negb (bool_decide (r = TRANSITION_DENIED)), c)
  end.

(** The arming is forced: the checks are skipped. *)
Definition cmd_forced (cmd : vehicle_command_s) : bool := f_round (param2 cmd) =? 21196.

Definition cmd_arms (cmd : vehicle_command_s) : bool := f_round (param1 cmd) =? 1.

(** The command comes from PX4IO, through the driver on this system. *)
Definition cmd_restores (e : arm_inputs) (cmd : vehicle_command_s) : bool :=
  (source_system cmd =? status_system_id e) && (source_component cmd =? status_component_id e)
  && (f_round (param3 cmd) =? 1234) && cmd_arms cmd.

(** The case VEHICLE_CMD_COMPONENT_ARM_DISARM of handle_command, with its
    result. *)
Definition command_arm_disarm (e : arm_inputs) (cmd : vehicle_command_s) (c : arming_ctx)
  : option (Z * arming_ctx) :=
  let p := f_round (param1 cmd) in
  if negb (p =? 0) && negb (p =? 1) then Some (VEHICLE_CMD_RESULT_UNSUPPORTED, c)
  else if negb (cmd_forced cmd) && negb (ld_landed e || ld_maybe_landed e) && negb (ground_rover e)
  then Some (VEHICLE_RESULT_DENIED, c)
  else
    let c :=
      if negb (cmd_forced cmd) && cmd_restores e cmd then
        Arming_ctx (set_arming_state ARMING_STATE_IN_AIR_RESTORE (vs c)) (vf c) (aa c) (auth c) (last_preflight_check c)
      else c in
    let res :=
      if cmd_arms cmd then
        if from_external cmd then arm e REASON_COMMAND_EXTERNAL true c
        else arm e REASON_COMMAND_INTERNAL (negb (cmd_forced cmd)) c
      else disarm e (if from_external cmd then REASON_COMMAND_EXTERNAL else REASON_COMMAND_INTERNAL) c in
    match res with
    | None => None
    | Some (r, c) =>
        Some (if decide (r = TRANSITION_DENIED) then VEHICLE_RESULT_TEMPORARILY_REJECTED
              else VEHICLE_RESULT_ACCEPTED, c)
    end.

(** The command writes the arming state itself. *)
Definition io_restore (e : arm_inputs) (cmd : vehicle_command_s) : bool :=
  negb (cmd_forced cmd) && cmd_restores e cmd
  && (ld_landed e || ld_maybe_landed e || ground_rover e).
End Requests.
