(* ===== verification/CommanderArming.v ===== *)
(** Properties of the arming state machine: what arming requires, which
    transitions exist, and what holds over every history of transitions. *)

From Stdlib Require Import ZArith Lia.
From stdpp Require Import base list numbers.
From S2P Require Import Prelude Float32 EsoVector Hysteresis ArmAuth Commander ManualControl ArmCommand.

Local Open Scope Z_scope.

Section Arming.
Context (ck : checks) (pr : preflight_params) `{!HealthOnly ck}.

Abbreviation transition := (arming_state_transition ck pr).

(** ** One transition *)

(** The edges of the state machine. *)
Definition edge (hil : bool) (new old : arming_state_t) : Prop :=
  arming_transitions new old = true \/ (hil = true /\ new = ARMING_STATE_STANDBY).

(** What a transition leaves alone when it is denied; HIL recovers from
    STANDBY_ERROR even then. *)
Definition recovered (hil : bool) (s : arming_state_t) : arming_state_t :=
  if hil && bool_decide (s = ARMING_STATE_STANDBY_ERROR) then ARMING_STATE_STANDBY else s.

Lemma arming_hil_spec new v c v' c' :
  arming_hil new v c = (v', c') ->
  (v' = true -> v = true \/ (hil_on (vs c) = true /\ new = ARMING_STATE_STANDBY))
  /\ arming_state (vs c') = recovered (hil_on (vs c)) (arming_state (vs c))
  /\ hil_on (vs c') = hil_on (vs c) /\ armed_time (vs c') = armed_time (vs c)
  /\ armed (aa c') = armed (aa c) /\ ready_to_arm (aa c') = ready_to_arm (aa c)
  /\ auth c' = auth c.
Proof.
  unfold arming_hil, recovered. destruct (hil_on (vs c)) eqn:Eh; simpl.
  - intros [= <- <-]. unfold to_standby. split; [|].
    + intros [->|H%bool_decide_eq_true]%orb_true_iff; auto.
    + simpl. by destruct (decide (arming_state (vs c) = ARMING_STATE_STANDBY_ERROR)) as [E|E];
        rewrite ?E, ?bool_decide_true, ?bool_decide_false by done.
  - intros H. assert (Hc : c' = c /\ (v' = true -> v = true)) by (repeat case_match; by simplify_eq).
    destruct Hc as [-> Hv]. split; [auto | done].
Qed.

Lemma valid_transition now polls b safety req new p c v c1 :
  arming_valid now polls b safety req new p c = Some (v, c1) -> v = true ->
  arming_transitions new (arming_state (vs c)) = true.
Proof.
  unfold arming_valid. intros H Hv. subst v.
  destruct (arming_transitions new (arming_state (vs c))); [done|]. simpl in H. by simplify_eq.
Qed.

(** The cases of a transition. *)
Lemma transition_cases now done_at t polls safety new b req reason c r c' :
  transition now done_at t polls safety new b req reason c = Some (r, c') ->
  (r = TRANSITION_NOT_CHANGED /\ c' = c /\ new = arming_state (vs c))
  \/ (new <> arming_state (vs c)
      /\ exists c2 v,
        arming_state (vs c2) = recovered (hil_on (vs c)) (arming_state (vs c))
        /\ hil_on (vs c2) = hil_on (vs c) /\ armed_time (vs c2) = armed_time (vs c)
        /\ armed (aa c2) = armed (aa c) /\ ready_to_arm (aa c2) = ready_to_arm (aa c)
        /\ (v = true -> edge (hil_on (vs c)) new (arming_state (vs c)))
        /\ ((v = true /\ r = TRANSITION_CHANGED /\ c' = arming_finish done_at new reason c2)
            \/ (v = false /\ r = TRANSITION_DENIED /\ c' = c2))).
Proof.
  unfold arming_state_transition. destruct (decide _) as [E|E]; [intros; simplify_eq; by left|].
  intros H. right. split; [done|].
  destruct (arming_preflight_core ck pr now t b new c) as (P1 & P2 & P3 & P4).
  destruct (arming_preflight ck pr now t b new c) as [p c0]. simpl in *.
  destruct (arming_valid _ _ _ _ _ _ _ _) as [[v c1]|] eqn:V; [|done].
  destruct (arming_valid_core now polls b safety req new p c0 v c1 V) as (V1 & V2 & V3).
  destruct (arming_hil new v c1) as [v' c2] eqn:Hh.
  destruct (arming_hil_spec _ _ _ _ _ Hh) as (H1 & H2 & H3 & H4 & H5 & H6 & _).
  destruct (same_core_fields _ _ P1) as (F1 & F2 & F3 & _).
  destruct (same_core_fields _ _ V1) as (G1 & G2 & G3 & _).
  exists c2, v'. rewrite H2, H3, H4, H5, H6, V3, P3, G1, G2, G3, F1, F2, F3. split_and!; try done.
  - intros Hv. destruct (H1 Hv) as [->|[Hh1 Hn]].
    + left. rewrite <- F1. by eapply valid_transition.
    + right. by rewrite <- F2, <- G2.
  - destruct v'; simplify_eq; auto.
Qed.

(** ** Histories *)

(** A transition with any request; a command to arm or disarm; or anything else
    in the system, which leaves the arming fields alone (sensors, estimators,
    links, authorization).  Without [io] no command is PX4IO's request to arm
    again in the air: the one that writes the arming state itself. *)
Inductive arming_step (io : bool) (c c' : arming_ctx) : Prop :=
| step_transition now done_at t polls safety new b req reason r :
    0 < done_at ->
    transition now done_at t polls safety new b req reason c = Some (r, c') -> arming_step io c c'
| step_command e cmd result :
    0 < ar_done_at e -> (io_restore e cmd = true -> io = true) ->
    command_arm_disarm ck pr e cmd c = Some (result, c') -> arming_step io c c'
| step_env :
    arming_state (vs c') = arming_state (vs c) -> hil_on (vs c') = hil_on (vs c) ->
    armed_time (vs c') = armed_time (vs c) -> armed (aa c') = armed (aa c) ->
    ready_to_arm (aa c') = ready_to_arm (aa c) -> arming_step io c c'.

(** The state PX4IO's request leaves behind when it is denied. *)
Definition restoring (io : bool) (s : arming_state_t) : Prop :=
  io = true /\ s = ARMING_STATE_IN_AIR_RESTORE.

Definition arming_inv (io : bool) (c : arming_ctx) : Prop :=
  (armed (aa c) = to_armed (arming_state (vs c)) \/ restoring io (arming_state (vs c)))
  /\ (ready_to_arm (aa c) = true ->
      arming_state (vs c) = ARMING_STATE_STANDBY \/ arming_state (vs c) = ARMING_STATE_ARMED
      \/ restoring io (arming_state (vs c)))
  /\ (armed_time (vs c) <> 0 -> armed (aa c) = true).

Lemma recovered_armed hil s : to_armed (recovered hil s) = to_armed s.
Proof.
  unfold recovered. destruct hil; [|done]. simpl.
  destruct (bool_decide_reflect (s = ARMING_STATE_STANDBY_ERROR)) as [->|]; done.
Qed.

Lemma recovered_other hil s : s <> ARMING_STATE_STANDBY_ERROR -> recovered hil s = s.
Proof. intros H. unfold recovered. by rewrite bool_decide_false, andb_false_r by done. Qed.

Lemma transition_inv io now done_at t polls safety new b req reason c r c' :
  0 < done_at -> transition now done_at t polls safety new b req reason c = Some (r, c') ->
  arming_inv io c -> arming_inv io c'.
Proof.
  intros Hd H (I1 & I2 & I3).
  destruct (transition_cases _ _ _ _ _ _ _ _ _ _ _ _ H) as
    [(_ & -> & _)|(Hn & c2 & v & H1 & H2 & H3 & H4 & H5 & _ & [(_ & _ & ->)|(_ & _ & ->)])];
    [done| |].
  - unfold arming_inv, arming_finish. simpl. split; [|split].
    + left. by repeat case_match.
    + intros [H6|H6]%orb_true_iff; [right; left|left]; repeat case_match; simpl;
        by apply bool_decide_eq_true in H6.
    + repeat case_match; simpl; congruence.
  - unfold arming_inv. rewrite H1, H3, H4, H5, recovered_armed. split_and!; [| |done].
    + destruct I1 as [I1|[-> I1]]; [by left|]. right. rewrite I1. by rewrite recovered_other.
    + intros Hr. destruct (I2 Hr) as [E|[E|[-> E]]]; rewrite E, recovered_other by done; auto.
      by right; right.
Qed.

(** What a command does: at most PX4IO's write and one transition. *)
Lemma command_cases e cmd c result c' :
  command_arm_disarm ck pr e cmd c = Some (result, c') ->
  exists c1,
    (c1 = c \/ (io_restore e cmd = true /\ armed (aa c1) = armed (aa c) /\ ready_to_arm (aa c1) = ready_to_arm (aa c)
                /\ armed_time (vs c1) = armed_time (vs c) /\ hil_on (vs c1) = hil_on (vs c)
                /\ arming_state (vs c1) = ARMING_STATE_IN_AIR_RESTORE))
    /\ (c' = c1 \/ exists t new b req reason r,
          transition (ar_now e) (ar_done_at e) t (ar_polls e) (_safety e) new b req reason c1 = Some (r, c')).
Proof.
  unfold command_arm_disarm. destruct (negb _ && negb _) eqn:E0; [intros; simplify_eq; exists c'; auto|].
  destruct (negb (cmd_forced cmd) && _ && _) eqn:E1; [intros; simplify_eq; exists c'; auto|].
  set (c1 := if negb (cmd_forced cmd) && cmd_restores e cmd then _ else c). intros H. exists c1. split.
  - subst c1. destruct (negb (cmd_forced cmd) && cmd_restores e cmd) eqn:E2; [|by left].
    right. split_and!; try done. unfold io_restore.
    apply andb_true_iff in E2 as [E2 E3]. rewrite E2, E3 in *. simpl in *.
    by destruct (ld_landed e), (ld_maybe_landed e), (ground_rover e).
  - clearbody c1. unfold arm, disarm in H. cbv zeta in H.
    destruct (if cmd_arms cmd then _ else _) as [[r c2]|] eqn:E; [|done]. injection H as _ <-.
    repeat match type of E with context [if ?b then _ else _] => destruct b end; simplify_eq;
      first [by left | right; eauto 8].
Qed.

Lemma arming_step_inv io c c' : arming_inv io c -> arming_step io c c' -> arming_inv io c'.
Proof.
  intros Hi [now done_at t polls safety new b req reason r Hd H|e cmd result Hd Hio H|E1 E2 E3 E4 E5].
  - by eapply transition_inv.
  - destruct (command_cases _ _ _ _ _ H) as (c1 & H1 & H2).
    assert (Hi1 : arming_inv io c1).
    { destruct H1 as [->|(Hr & A & B & C & _ & D)]; [done|]. destruct Hi as (_ & _ & I3).
      unfold arming_inv, restoring. rewrite A, C, D, (Hio Hr). split; [by right|]. split; [by right; right|exact I3]. }
    destruct H2 as [->|(t & new & b & req & reason & r & H2)]; [done|]. by eapply transition_inv.
  - unfold arming_inv. by rewrite E1, E3, E4, E5.
Qed.

(** Without HIL no edge leaves SHUTDOWN. *)
Definition shut_down (c : arming_ctx) : Prop :=
  hil_on (vs c) = false /\ arming_state (vs c) = ARMING_STATE_SHUTDOWN.

Lemma transition_shut_down now done_at t polls safety new b req reason c r c' :
  transition now done_at t polls safety new b req reason c = Some (r, c') -> shut_down c -> shut_down c'.
Proof.
  intros H [Hh Hs]. destruct (transition_cases _ _ _ _ _ _ _ _ _ _ _ _ H) as
    [(_ & -> & _)|(Hn & c2 & v & H1 & H2 & H3 & H4 & H5 & He & Hr)]; [done|].
  rewrite Hh in *. destruct Hr as [(Hv & _ & ->)|(_ & _ & ->)].
  - specialize (He Hv). rewrite Hs in He. destruct He as [He|[? _]]; [|done].
    destruct new; simpl in He; try done.
  - unfold shut_down. by rewrite H1, H2, Hs.
Qed.

Lemma shut_down_step c c' : shut_down c -> arming_step false c c' -> shut_down c'.
Proof.
  intros Hs [now done_at t polls safety new b req reason r Hd H|e cmd result Hd Hio H|E1 E2 _ _ _];
    [by eapply transition_shut_down| |by unfold shut_down; rewrite E1, E2].
  destruct (command_cases _ _ _ _ _ H) as (c1 & [->|[Hr _]] & H2); [|by specialize (Hio Hr)].
  destruct H2 as [->|(t & new & b & req & reason & r & H2)]; [done|]. by eapply transition_shut_down.
Qed.

(** C35: in every history of transitions, commands and other activity the
    outputs are armed exactly in the ARMED state, the vehicle is ready to arm
    only in STANDBY or ARMED, and an arming time is recorded only while armed;
    and without HIL a system that was shut down stays shut down.  PX4IO's
    request to arm again in the air writes the state itself: with such commands
    in the history ([io]) the state IN_AIR_RESTORE is an exception to the first
    two, and the last does not hold. *)
Theorem arming_invariant (io : bool) (c c' : arming_ctx) :
  arming_inv io c -> star (arming_step io) c c' ->
  arming_inv io c'
  /\ (io = false -> hil_on (vs c) = false -> arming_state (vs c) = ARMING_STATE_SHUTDOWN ->
      arming_state (vs c') = ARMING_STATE_SHUTDOWN).
Proof.
  intros Hi Hs. split.
  - by eapply (star_invariant (arming_step io) (arming_inv io)); eauto using arming_step_inv.
  - intros -> Hh Hd. by destruct (star_invariant (arming_step false) shut_down shut_down_step c c' Hs (conj Hh Hd)).
Qed.

(** In IN_AIR_RESTORE, without HIL, every request to disarm is denied. *)
Lemma restoring_not_disarmed (e : arm_inputs) (reason : Z) (c : arming_ctx) :
  hil_on (vs c) = false -> arming_state (vs c) = ARMING_STATE_IN_AIR_RESTORE ->
  disarm ck pr e reason c = Some (TRANSITION_DENIED, c).
Proof.
  intros Hh Hs. unfold disarm, arming_state_transition. rewrite Hs. simpl.
  unfold arming_preflight. rewrite Hh. simpl. rewrite !andb_false_r. simpl.
  unfold arming_valid. rewrite Hs. simpl. unfold arming_hil. rewrite Hh, Hs. simpl.
  by destruct (negb _).
Qed.

(** The way of a successful request to arm through the transition: the state
    machine's rules are met, and what it is left with. *)
Lemma armed_through (now done_at t : Z) (polls : list poll) (safety : safety_s)
    (req : arm_requirements_t) (reason : Z) (c c' : arming_ctx) :
  transition now done_at t polls safety ARMING_STATE_ARMED true req reason c = Some (TRANSITION_CHANGED, c') ->
  hil_on (vs c) = false -> arming_state (vs c) <> ARMING_STATE_IN_AIR_RESTORE ->
  arming_state (vs c) = ARMING_STATE_STANDBY
  /\ exists c0 c1 c2, same_core (vs c) (vs c0) /\ same_flags (vf c) (vf c0)
     /\ arming_valid now polls true safety req ARMING_STATE_ARMED
          (preflightCheck ck pr true true t (vs c) (vf c)).1.1 c0 = Some (true, c1)
     /\ auth c2 = auth c1 /\ c' = arming_finish done_at ARMING_STATE_ARMED reason c2.
Proof.
  intros H Hh Hr. unfold arming_state_transition in H.
  destruct (decide _) as [|Hne]; [done|].
  destruct (arming_preflight_core ck pr now t true ARMING_STATE_ARMED c) as (P1 & P2 & P3 & P4).
  assert (Hp : (arming_preflight ck pr now t true ARMING_STATE_ARMED c).1
               = (preflightCheck ck pr true true t (vs c) (vf c)).1.1).
  { unfold arming_preflight. rewrite Hh. simpl.
    destruct (preflightCheck ck pr true true t (vs c) (vf c)) as [[ok s] f]. simpl.
    match goal with |- context [if ?b then _ else _] => destruct b eqn:?E end; [|done].
    by destruct (preflightCheck ck pr false _ _ _ _) as [[??]?]. }
  destruct (arming_preflight ck pr now t true ARMING_STATE_ARMED c) as [p c0]. simpl in *. subst p.
  destruct (same_core_fields _ _ P1) as (F1 & F2 & _).
  destruct (arming_valid _ _ _ _ _ _ _ _) as [[v c1]|] eqn:V; [|done].
  destruct (arming_hil ARMING_STATE_ARMED v c1) as [v' c2] eqn:Hhil.
  destruct (arming_hil_spec _ _ _ _ _ Hhil) as (H1 & H2 & _ & _ & _ & _ & Hauth).
  destruct (arming_valid_core _ _ _ _ _ _ _ _ _ _ V) as (V1 & _ & _).
  destruct (same_core_fields _ _ V1) as (_ & G2 & _).
  destruct v'; simplify_eq. destruct (H1 eq_refl) as [->|[? ?]]; [|done].
  pose proof (valid_transition _ _ _ _ _ _ _ _ _ _ V eq_refl) as Ht. rewrite F1 in Ht.
  split; [by destruct (arming_state (vs c))|]. by exists c0, c1, c2.
Qed.

(** The preflight check has passed. *)
Lemma armed_preflight (now done_at t : Z) (polls : list poll) (safety : safety_s)
    (req : arm_requirements_t) (reason : Z) (c c' : arming_ctx) :
  transition now done_at t polls safety ARMING_STATE_ARMED true req reason c = Some (TRANSITION_CHANGED, c') ->
  hil_on (vs c) = false -> arming_state (vs c) <> ARMING_STATE_IN_AIR_RESTORE ->
  (preflightCheck ck pr true true t (vs c) (vf c)).1.1 = true.
Proof.
  intros H Hh Hr. destruct (armed_through _ _ _ _ _ _ _ _ _ H Hh Hr) as (Hst & c0 & c1 & c2 & P1 & _ & V & _).
  destruct (same_core_fields _ _ P1) as (F1 & _). unfold arming_valid in V. rewrite F1, Hst in V. simpl in V.
  by destruct (preflightCheck ck pr true true t (vs c) (vf c)).1.1; [|simplify_eq].
Qed.

(** C11: arming needs every check.  A request to arm with the checks on, outside
    HIL and not restoring in the air, succeeds only from STANDBY, with a
    successful preflight check, with every pre-arm test passed (power, battery,
    safety switch, estimates the requirements ask for, geofence, ESCs, ...) and,
    when authorization is required, with the flight authorized. *)
Theorem arming_needs_checks (now done_at t : Z) (polls : list poll) (safety : safety_s)
    (req : arm_requirements_t) (reason : Z) (c c' : arming_ctx) :
  transition now done_at t polls safety ARMING_STATE_ARMED true req reason c
    = Some (TRANSITION_CHANGED, c') ->
  hil_on (vs c) = false -> arming_state (vs c) <> ARMING_STATE_IN_AIR_RESTORE ->
  arming_state (vs c) = ARMING_STATE_STANDBY
  /\ (preflightCheck ck pr true true t (vs c) (vf c)).1.1 = true
  /\ Forall (fun ok => ok = true) (preArm_tests (vf c) safety req (vs c))
  /\ (safety_switch_available safety = true -> safety_off safety = true)
  /\ (req_arm_authorization req = true -> state (auth c') = ARM_AUTH_MISSION_APPROVED)
  /\ armed (aa c') = true /\ arming_state (vs c') = ARMING_STATE_ARMED.
Proof.
  intros H Hh Hr. destruct (armed_through _ _ _ _ _ _ _ _ _ H Hh Hr) as (Hst & c0 & c1 & c2 & P1 & P2 & V & Hauth & ->).
  destruct (same_core_fields _ _ P1) as (F1 & _).
  unfold arming_valid in V. rewrite F1, Hst in V. simpl in V.
  destruct (preflightCheck ck pr true true t (vs c) (vf c)).1.1; [|by simplify_eq].
  unfold preArmCheck in V. rewrite (same_flags_tests _ _ _ _ _ P2), (same_core_tests _ _ _ _ _ P1) in V.
  destruct (forallb id (preArm_tests (vf c) safety req (vs c))) eqn:Hall; cycle 1.
  { rewrite andb_false_r in V. by simplify_eq. }
  rewrite andb_true_r in V. rewrite forallb_forall in Hall.
  assert (Htests : Forall (fun ok => ok = true) (preArm_tests (vf c) safety req (vs c))).
  { apply Forall_forall. intros x Hx. exact (Hall x Hx). }
  split; [done|]. split; [done|]. split; [done|]. split.
  { assert (Hsw : negb (safety_switch_available safety && negb (safety_off safety)) = true).
    { apply (Hall (negb _)). unfold preArm_tests. simpl. tauto. }
    by destruct (safety_switch_available safety), (safety_off safety). }
  split.
  { intros Hauthr. rewrite Hauthr in V.
    destruct (arm_auth_check now polls (auth c0)) as [[r a]|] eqn:A; [|done].
    injection V as Hv <-. apply Z.eqb_eq in Hv. simpl in Hauth.
    destruct (check_accepted _ _ _ _ _ A Hv) as [Hst' _]. unfold arming_finish. simpl. by rewrite Hauth. }
  split; [done|]. unfold arming_finish. by repeat case_match.
Qed.
End Arming.

(** The checks with another barometer check. *)
Definition with_baro (ck : checks) (b : Z -> bool -> check) : checks :=
  Checks (airframeCheck ck) (sdcardCheck ck) (magnetometerCheck ck) (magConsistencyCheck ck)
    (accelerometerCheck ck) (gyroCheck ck) b (imuConsistencyCheck ck) (airspeedCheck ck)
    (rcCalibrationCheck ck) (powerCheck ck) (ekf2Check ck) (ekf2CheckSensorBias ck)
    (failureDetectorCheck ck) (manualControlCheck ck) (cpuResourceCheck ck).

Lemma baro_loop_with ck pr b n : forall i s,
  (forall i o s, (b i o s).2 = (baroCheck ck i o s).2) ->
  baro_loop (with_baro ck b) pr n i s = baro_loop ck pr n i s.
Proof. induction n as [|n IH]; intros i s Hb; simpl; [done|]. by rewrite IH, Hb by done. Qed.

(** The barometer cannot fail the preflight check: whatever the barometer
    checks answer, mandatory instance included, the check's result is the same. *)
Theorem preflight_ignores_baro (ck : checks) (pr : preflight_params) (b : Z -> bool -> check)
    (r p : bool) (t : Z) (s : vehicle_status_s) (f : vehicle_status_flags_s) :
  (forall i o s, (b i o s).2 = (baroCheck ck i o s).2) ->
  preflightCheck (with_baro ck b) pr r p t s f = preflightCheck ck pr r p t s f.
Proof.
  intros Hb. unfold preflightCheck. cbn [with_baro airframeCheck sdcardCheck accelerometerCheck gyroCheck
    imuConsistencyCheck failureDetectorCheck manualControlCheck cpuResourceCheck powerCheck].
  set (rp := r && _ && _). clearbody rp.
  set (x := if negb (airframeCheck ck s) then _ else _). destruct x as [fd f1].
  change (preflight_mag (with_baro ck b) pr rp fd s) with (preflight_mag ck pr rp fd s).
  destruct (preflight_mag ck pr rp fd s) as [fd1 s1].
  destruct (sensor_loop (accelerometerCheck ck) true 4 0 fd1 s1) as [fd2 s2].
  destruct (sensor_loop (gyroCheck ck) true 4 0 fd2 s2) as [fd3 s3].
  by rewrite baro_loop_with by done.
Qed.

(** * Concrete runs *)

Definition all_pass : checks :=
  Checks (fun _ => true) (fun once => (true, true)) (fun _ _ s => (true, s)) (fun _ s => (true, s))
    (fun _ _ s => (true, s)) (fun _ _ s => (true, s)) (fun _ _ s => (true, s)) (fun _ s => (true, s))
    (fun _ _ s => (true, s)) (fun _ => true) (fun _ _ => true) (fun _ s => (true, s)) true
    (fun _ _ => true) true true.

#[export] Instance all_pass_health : HealthOnly all_pass.
Proof. by split. Qed.

Definition some_params : preflight_params := Preflight_params 1 1 0 2.

Definition some_status (st : arming_state_t) : vehicle_status_s :=
  Vehicle_status st NAVIGATION_STATE_MANUAL false false 0 VEHICLE_TYPE_ROTARY_WING false false
    false true false false false false 0 0 0 0 0 0.

(** A multicopter with every estimate and a healthy battery. *)
Definition some_flags : vehicle_status_flags_s :=
  Vehicle_status_flags true true false false true true true true true true true false false false
    false false false false false false true true false false true false false.

Definition some_arming (st : arming_state_t) : arming_ctx :=
  Arming_ctx (some_status st) some_flags (Actuator_armed (to_armed st) true false false)
    (Arm_auth ARM_AUTH_IDLE 0 0 1000000 ARM_AUTH_METHOD_ARM_REQ 1 0) 0.

(** The authorizer accepts 0.2 s after the request. *)
Definition approval : list poll :=
  [((1000000, 0), Some (Ack 5200000 VEHICLE_CMD_ARM_AUTHORIZATION_REQUEST 1 VEHICLE_RESULT_ACCEPTED 10),
    5200000)].

Abbreviation arm_request c :=
  (arming_state_transition all_pass some_params 5000000 5200000 20000000 approval (Safety true true)
     ARMING_STATE_ARMED true (Arm_requirements true true true false true false) 3 c).

Definition armed_after : arming_ctx :=
  match arm_request (some_arming ARMING_STATE_STANDBY) with
  | Some (_, c) => c | None => some_arming ARMING_STATE_STANDBY
  end.

Lemma arm_request_ok :
  arm_request (some_arming ARMING_STATE_STANDBY) = Some (TRANSITION_CHANGED, armed_after).
Proof. vm_compute. reflexivity. Qed.

Lemma arming_needs_checks_witness :
  arming_state (vs armed_after) = ARMING_STATE_ARMED /\ state (auth armed_after) = ARM_AUTH_MISSION_APPROVED.
Proof.
  destruct (arming_needs_checks all_pass some_params 5000000 5200000 20000000 approval
    (Safety true true) (Arm_requirements true true true false true false) 3
    (some_arming ARMING_STATE_STANDBY) armed_after arm_request_ok eq_refl ltac:(discriminate))
    as (_ & _ & _ & _ & Ha & _ & Hs).
  split; [exact Hs | exact (Ha eq_refl)].
Defined.

(** Sticks with the throttle at [z]. *)
Definition ground_sticks (z : float) : manual_control :=
  Manual_control no_setpoint (Manual_control_setpoint 1 fzero fzero z fzero 1) true true
    (hysteresis_new false) (hysteresis_new false) SWITCH_POS_NONE.

(** On the ground in manual flight, the throttle at [z]. *)
Definition on_ground (z : float) : arm_inputs :=
  Arm_inputs 5000000 5200000 approval 1000000 0 (Safety true true) (Arm_requirements true true true false true false)
    false 0 (Control_mode true false false false) (ground_sticks z) true true false 1 1.

(** PX4IO's request to arm, and a ground station's. *)
Definition io_arm : vehicle_command_s := Vehicle_command fone fzero (f_of_Z 1234) 1 1 false.
Definition gcs_arm : vehicle_command_s := Vehicle_command fone fzero fzero 255 190 true.

Abbreviation by_command c cmd z :=
  (command_arm_disarm all_pass some_params (on_ground z) cmd c).

Definition armed_by_command : arming_ctx :=
  match by_command (some_arming ARMING_STATE_STANDBY) gcs_arm fzero with
  | Some (_, c) => c | None => some_arming ARMING_STATE_STANDBY
  end.

Lemma armed_by_command_ok :
  by_command (some_arming ARMING_STATE_STANDBY) gcs_arm fzero = Some (VEHICLE_RESULT_ACCEPTED, armed_by_command).
Proof. vm_compute. reflexivity. Qed.

Lemma arming_invariant_witness :
  arming_inv false armed_by_command /\ armed (aa armed_by_command) = true
  /\ armed_time (vs armed_by_command) = 5200000.
Proof.
  split; [|split; vm_compute; reflexivity].
  apply (arming_invariant all_pass some_params false (some_arming ARMING_STATE_STANDBY) armed_by_command).
  - split; [left; reflexivity|]. split; [intros _; left; reflexivity | intros H; destruct H; reflexivity].
  - eapply star_step; [|apply star_refl].
    apply (step_command all_pass some_params false _ _ (on_ground fzero) gcs_arm VEHICLE_RESULT_ACCEPTED);
      [vm_compute; reflexivity | vm_compute; discriminate | exact armed_by_command_ok].
Defined.

(** PX4IO asks to arm again while the vehicle stands armed on the ground and the
    throttle is not low: the request is denied, but leaves the state
    IN_AIR_RESTORE behind with the outputs armed, and from there no request
    disarms the vehicle. *)
Lemma io_request_strands_armed :
  exists c, by_command armed_by_command io_arm (f_dec 1 2) = Some (VEHICLE_RESULT_TEMPORARILY_REJECTED, c)
    /\ arming_state (vs c) = ARMING_STATE_IN_AIR_RESTORE /\ armed (aa c) = true
    /\ forall e reason, disarm all_pass some_params e reason c = Some (TRANSITION_DENIED, c).
Proof.
  set (b := by_command armed_by_command io_arm (f_dec 1 2)).
  exists (match b with Some (_, c) => c | None => armed_by_command end).
  split; [vm_compute; reflexivity|]. split; [vm_compute; reflexivity|]. split; [vm_compute; reflexivity|].
  intros e reason. apply restoring_not_disarmed; vm_compute; reflexivity.
Qed.

(** It arms a system that was shut down, and asks for no check. *)
Lemma io_request_arms_shut_down :
  exists c, by_command (some_arming ARMING_STATE_SHUTDOWN) io_arm fzero = Some (VEHICLE_RESULT_ACCEPTED, c)
    /\ arming_state (vs c) = ARMING_STATE_ARMED /\ armed (aa c) = true.
Proof. eexists. vm_compute. split_and!; reflexivity. Qed.

(** The mandatory barometer fails its check; the preflight check passes. *)
Lemma preflight_ignores_baro_witness :
  (preflightCheck (with_baro all_pass (fun _ _ s => (false, s))) some_params true true 20000000
     (some_status ARMING_STATE_STANDBY) some_flags).1.1 = true.
Proof.
  rewrite (preflight_ignores_baro all_pass some_params (fun _ _ s => (false, s))).
  - reflexivity.
  - intros i o s. reflexivity.
Defined.
