(* ===== verification/CommanderNav.v ===== *)
(** The navigation state of the commander (state_machine_helper.cpp): which
    mode the vehicle really flies, from the mode the user asked for (the main
    state), the links, the estimates and the configured failsafe reactions; and
    the reaction to a low battery.

    An action is one of its enumeration's values, as the parameters'
    documentation lists them.  [now] is the clock during one call. *)

From Stdlib Require Import ZArith Lia.
From stdpp Require Import base list numbers.
From S2P Require Import Prelude ArmAuth Commander.

Local Open Scope Z_scope.

(** * Data *)

Module LinkLoss.
Inductive link_loss_actions_t := DISABLED | AUTO_LOITER | AUTO_RTL | AUTO_LAND | TERMINATE | LOCKDOWN.
End LinkLoss.
#[export] Instance link_loss_eq_dec : EqDecision LinkLoss.link_loss_actions_t.
Proof. solve_decision. Defined.

Module OffbLoss.
Inductive offboard_loss_actions_t :=
  DISABLED | AUTO_LAND | AUTO_LOITER | AUTO_RTL | TERMINATE | LOCKDOWN.
End OffbLoss.
#[export] Instance offboard_loss_eq_dec : EqDecision OffbLoss.offboard_loss_actions_t.
Proof. solve_decision. Defined.

Module OffbRcLoss.
Inductive offboard_loss_rc_actions_t :=
  DISABLED | MANUAL_POSITION | MANUAL_ALTITUDE | MANUAL_ATTITUDE | AUTO_RTL | AUTO_LAND
| AUTO_LOITER | TERMINATE | LOCKDOWN.
End OffbRcLoss.
#[export] Instance offboard_loss_rc_eq_dec : EqDecision OffbRcLoss.offboard_loss_rc_actions_t.
Proof. solve_decision. Defined.

Inductive position_nav_loss_actions_t := ALTITUDE_MANUAL | LAND_TERMINATE.
#[export] Instance position_nav_loss_eq_dec : EqDecision position_nav_loss_actions_t.
Proof. solve_decision. Defined.

Inductive low_battery_action_t := WARNING | RETURN | LAND | RETURN_OR_LAND.

(** battery_status.msg *)
Definition BATTERY_WARNING_CRITICAL : Z := 2.
Definition BATTERY_WARNING_EMERGENCY : Z := 3.

Definition RCL_EXCEPT_MISSION : Z := 1.
Definition RCL_EXCEPT_HOLD : Z := 2.
Definition RCL_EXCEPT_OFFBOARD : Z := 4.

(** The configured reactions.  [com_rcl_act_t] is the delay of the reaction to
    a lost RC, a float parameter in seconds: whether an elapsed time is below
    it. *)
Record nav_config := Nav_config {
  data_link_loss_act : LinkLoss.link_loss_actions_t;
  rc_loss_act : LinkLoss.link_loss_actions_t;
  offb_loss_act : OffbLoss.offboard_loss_actions_t;
  offb_loss_rc_act : OffbRcLoss.offboard_loss_rc_actions_t;
  posctl_nav_loss_act : position_nav_loss_actions_t;
  com_rcl_act_t : Z -> bool;
  com_rcl_except : Z
}.

(** A zero delay: no elapsed time is below it. *)
Definition no_delay : Z -> bool := fun _ => false.

(** What a call reads besides the state. *)
Record nav_inputs := Nav_inputs {
  fl : vehicle_status_flags_s;
  mission_finished : bool;
  stay_in_failsafe : bool;
  landed : bool
}.

(** What it changes. *)
Record nav_ctx := Nav_ctx {
  ns : vehicle_status_s;
  na : actuator_armed_s;
  ni : commander_state_s
}.

Definition on_status (g : vehicle_status_s -> vehicle_status_s) (c : nav_ctx) : nav_ctx :=
  Nav_ctx (g (ns c)) (na c) (ni c).
Definition on_armed (g : actuator_armed_s -> actuator_armed_s) (c : nav_ctx) : nav_ctx :=
  Nav_ctx (ns c) (g (na c)) (ni c).
Definition on_internal (g : commander_state_s -> commander_state_s) (c : nav_ctx) : nav_ctx :=
  Nav_ctx (ns c) (na c) (g (ni c)).

(** [status.nav_state = n] *)
Definition goto (n : navigation_state_t) : nav_ctx -> nav_ctx := on_status (with_nav_state n).

Definition is_armed (s : vehicle_status_s) : bool :=
  bool_decide (arming_state s = ARMING_STATE_ARMED).

(** * Reactions *)

Definition enable_failsafe (now : Z) (old_failsafe : bool) (s : vehicle_status_s)
  : vehicle_status_s :=
  let s :=
    if negb old_failsafe && is_armed s
       && ((failsafe_timestamp s =? 0) || (1000000 <? u64 (now - failsafe_timestamp s)))
    then set_failsafe_timestamp now s else s in
  set_failsafe true s.

Definition reset_link_loss_globals (old_failsafe : bool) (act : LinkLoss.link_loss_actions_t)
    (a : actuator_armed_s) : actuator_armed_s :=
  if old_failsafe then
    if decide (act = LinkLoss.TERMINATE) then set_force_failsafe false a
    else if decide (act = LinkLoss.LOCKDOWN) then set_lockdown false a else a
  else a.

Definition reset_offboard_loss_globals (old_failsafe : bool) (act : OffbLoss.offboard_loss_actions_t)
    (rc_act : OffbRcLoss.offboard_loss_rc_actions_t) (a : actuator_armed_s) : actuator_armed_s :=
  if old_failsafe then
    let a := if bool_decide (act = OffbLoss.TERMINATE) || bool_decide (rc_act = OffbRcLoss.TERMINATE)
             then set_force_failsafe false a else a in
    if bool_decide (act = OffbLoss.LOCKDOWN) || bool_decide (rc_act = OffbRcLoss.LOCKDOWN)
    then set_lockdown false a else a
  else a.

Definition invalid_pos (f : vehicle_status_flags_s) (using_global_pos : bool) : bool :=
  if using_global_pos then negb (condition_global_position_valid f)
  else negb (condition_local_position_valid f) || negb (condition_local_velocity_valid f).

(** The fallback of [check_invalid_pos_nav_state]. *)
Definition pos_fallback (f : vehicle_status_flags_s) (use_rc : bool) (s : vehicle_status_s)
  : navigation_state_t :=
  if use_rc then
    if is_rotary s && condition_local_position_valid f then NAVIGATION_STATE_POSCTL
    else if condition_local_altitude_valid f then NAVIGATION_STATE_ALTCTL
    else NAVIGATION_STATE_STAB
  else
    if condition_local_position_valid f then NAVIGATION_STATE_AUTO_LAND
    else if condition_local_altitude_valid f then
      if is_rotary s then NAVIGATION_STATE_DESCEND else NAVIGATION_STATE_AUTO_LANDGPSFAIL
    else NAVIGATION_STATE_TERMINATION.

Definition check_invalid_pos_nav_state (now : Z) (old_failsafe : bool) (f : vehicle_status_flags_s)
    (use_rc using_global_pos : bool) (c : nav_ctx) : bool * nav_ctx :=
  if invalid_pos f using_global_pos then
    (true, on_status (enable_failsafe now old_failsafe) (goto (pos_fallback f use_rc (ns c)) c))
  else (false, c).

(** The cases of [set_link_loss_nav_state], each falling through to the next. *)
Definition link_loss_terminate (c : nav_ctx) : nav_ctx :=
  on_armed (set_force_failsafe true) (goto NAVIGATION_STATE_TERMINATION c).

Definition link_loss_land (f : vehicle_status_flags_s) (c : nav_ctx) : nav_ctx :=
  if condition_global_position_valid f then goto NAVIGATION_STATE_AUTO_LAND c
  else if is_rotary (ns c) then
    if condition_local_position_valid f then goto NAVIGATION_STATE_AUTO_LAND c
    else if condition_local_altitude_valid f then goto NAVIGATION_STATE_DESCEND c
    else link_loss_terminate c
  else goto NAVIGATION_STATE_AUTO_LANDGPSFAIL c.

Definition link_loss_loiter (f : vehicle_status_flags_s) (c : nav_ctx) : nav_ctx :=
  if condition_global_position_valid f then goto NAVIGATION_STATE_AUTO_LOITER c
  else link_loss_land f c.

Definition link_loss_rtl (now : Z) (f : vehicle_status_flags_s) (c : nav_ctx) : nav_ctx :=
  if condition_global_position_valid f && condition_home_position_valid f then
    goto NAVIGATION_STATE_AUTO_RTL
      (on_internal (fun i => (main_state_transition now (ns c) MAIN_STATE_AUTO_RTL f i).2) c)
  else link_loss_loiter f c.

Definition set_link_loss_nav_state (now : Z) (f : vehicle_status_flags_s)
    (link_loss_act : LinkLoss.link_loss_actions_t) (ll_delay : Z -> bool) (c : nav_ctx) : nav_ctx :=
  let link_loss_act :=
    if ll_delay (u64 (now - failsafe_timestamp (ns c)))
       && negb (bool_decide (link_loss_act = LinkLoss.DISABLED))
    then LinkLoss.AUTO_LOITER else link_loss_act in
  match link_loss_act with
  | LinkLoss.DISABLED => c
  | LinkLoss.AUTO_RTL => link_loss_rtl now f c
  | LinkLoss.AUTO_LOITER => link_loss_loiter f c
  | LinkLoss.AUTO_LAND => link_loss_land f c
  | LinkLoss.TERMINATE => link_loss_terminate c
  | LinkLoss.LOCKDOWN => on_armed (set_lockdown true) c
  end.

(** If none of the offboard reactions worked. *)
Definition offboard_mitigate (f : vehicle_status_flags_s) (c : nav_ctx) : nav_ctx :=
  if condition_local_altitude_valid f then
    goto (if is_rotary (ns c) then NAVIGATION_STATE_DESCEND else NAVIGATION_STATE_AUTO_LANDGPSFAIL) c
  else goto NAVIGATION_STATE_TERMINATION c.

Definition offboard_land (f : vehicle_status_flags_s) (c : nav_ctx) : nav_ctx :=
  if condition_global_position_valid f then goto NAVIGATION_STATE_AUTO_LAND c
  else offboard_mitigate f c.

Definition offboard_loiter (f : vehicle_status_flags_s) (c : nav_ctx) : nav_ctx :=
  if condition_global_position_valid f then goto NAVIGATION_STATE_AUTO_LOITER c
  else offboard_land f c.

Definition offboard_rtl (f : vehicle_status_flags_s) (c : nav_ctx) : nav_ctx :=
  if condition_global_position_valid f && condition_home_position_valid f
  then goto NAVIGATION_STATE_AUTO_RTL c else offboard_loiter f c.

Definition set_offboard_loss_nav_state (f : vehicle_status_flags_s)
    (act : OffbLoss.offboard_loss_actions_t) (c : nav_ctx) : nav_ctx :=
  match act with
  | OffbLoss.DISABLED => c
  | OffbLoss.TERMINATE => on_armed (set_force_failsafe true) (goto NAVIGATION_STATE_TERMINATION c)
  | OffbLoss.LOCKDOWN => on_armed (set_lockdown true) c
  | OffbLoss.AUTO_RTL => offboard_rtl f c
  | OffbLoss.AUTO_LOITER => offboard_loiter f c
  | OffbLoss.AUTO_LAND => offboard_land f c
  end.

Definition offboard_altitude (f : vehicle_status_flags_s) (c : nav_ctx) : nav_ctx :=
  if condition_local_altitude_valid f then goto NAVIGATION_STATE_ALTCTL c
  else goto NAVIGATION_STATE_MANUAL c.

Definition set_offboard_loss_rc_nav_state (f : vehicle_status_flags_s)
    (act : OffbRcLoss.offboard_loss_rc_actions_t) (c : nav_ctx) : nav_ctx :=
  match act with
  | OffbRcLoss.DISABLED => c
  | OffbRcLoss.TERMINATE => on_armed (set_force_failsafe true) (goto NAVIGATION_STATE_TERMINATION c)
  | OffbRcLoss.LOCKDOWN => on_armed (set_lockdown true) c
  | OffbRcLoss.MANUAL_POSITION =>
      if is_rotary (ns c) && condition_local_position_valid f then goto NAVIGATION_STATE_POSCTL c
      else if condition_global_position_valid f then goto NAVIGATION_STATE_POSCTL c
      else offboard_altitude f c
  | OffbRcLoss.MANUAL_ALTITUDE => offboard_altitude f c
  | OffbRcLoss.MANUAL_ATTITUDE => goto NAVIGATION_STATE_MANUAL c
  | OffbRcLoss.AUTO_RTL => offboard_rtl f c
  | OffbRcLoss.AUTO_LOITER => offboard_loiter f c
  | OffbRcLoss.AUTO_LAND => offboard_land f c
  end.

(** * The decision ([set_nav_state]), one definition per case of its switch *)

Section Decision.
Context (now : Z) (cf : nav_config) (inp : nav_inputs).
(** [const bool is_armed] and [old_failsafe], computed at the top. *)
Context (armed_now old_failsafe : bool).

Abbreviation f := (fl inp).
Abbreviation in_air := (negb (landed inp)).

Definition data_link_loss_act_configured : bool :=
  negb (bool_decide (data_link_loss_act cf = LinkLoss.DISABLED)).

(** [!(param_com_rcl_except & bit)] *)
Definition rcl_acts (bit : Z) : bool := Z.land (com_rcl_except cf) bit =? 0.

Definition failsafe_on (c : nav_ctx) : nav_ctx := on_status (enable_failsafe now old_failsafe) c.

(** The link loss reactions the modes share. *)
Definition rc_reaction (delay : Z -> bool) (c : nav_ctx) : nav_ctx :=
  set_link_loss_nav_state now f (rc_loss_act cf) delay (failsafe_on c).
Definition data_link_reaction (c : nav_ctx) : nav_ctx :=
  set_link_loss_nav_state now f (data_link_loss_act cf) no_delay (failsafe_on c).

(** [is_armed && check_invalid_pos_nav_state(...)], without RC fallback. *)
Definition armed_invalid_pos (using_global_pos : bool) (c : nav_ctx) : bool * nav_ctx :=
  if armed_now then check_invalid_pos_nav_state now old_failsafe f false using_global_pos c
  else (false, c).

(** ACRO, MANUAL, STAB and ALTCTL require RC. *)
Definition nav_manual (mode : navigation_state_t) (c : nav_ctx) : nav_ctx :=
  if rc_signal_lost (ns c) && armed_now then rc_reaction (com_rcl_act_t cf) c else goto mode c.

Definition nav_posctl (c : nav_ctx) : nav_ctx :=
  let rc_fallback_allowed :=
    negb (bool_decide (posctl_nav_loss_act cf = LAND_TERMINATE)) || negb armed_now in
  if rc_signal_lost (ns c) && armed_now then rc_reaction (com_rcl_act_t cf) c
  else
    let '(fallback, c) :=
      check_invalid_pos_nav_state now old_failsafe f rc_fallback_allowed
        (bool_decide (vehicle_type (ns c) = VEHICLE_TYPE_FIXED_WING)) c in
    if fallback : bool then c else goto NAVIGATION_STATE_POSCTL c.

Definition nav_mission (c : nav_ctx) : nav_ctx :=
  let '(fallback, c) := armed_invalid_pos true c in
  let s := ns c in
  if fallback : bool then c
  else if engine_failure s then goto NAVIGATION_STATE_AUTO_LANDENGFAIL c
  else if vtol_transition_failure f then goto NAVIGATION_STATE_AUTO_RTL c
  else if mission_failure s then goto NAVIGATION_STATE_AUTO_RTL c
  else if data_link_lost s && data_link_loss_act_configured && armed_now && in_air then
    data_link_reaction c
  else if rc_signal_lost s && rcl_acts RCL_EXCEPT_MISSION && rc_signal_found_once f
          && armed_now && in_air then rc_reaction (com_rcl_act_t cf) c
  else if rc_signal_lost s && rcl_acts RCL_EXCEPT_MISSION && data_link_lost s
          && negb data_link_loss_act_configured && armed_now && in_air then rc_reaction no_delay c
  else if rc_signal_lost s && negb (rcl_acts RCL_EXCEPT_MISSION) && data_link_lost s
          && negb data_link_loss_act_configured && armed_now && in_air && mission_finished inp then
    set_link_loss_nav_state now f LinkLoss.AUTO_RTL no_delay (failsafe_on c)
  else if negb (stay_in_failsafe inp) then goto NAVIGATION_STATE_AUTO_MISSION c else c.

(** AUTO_LOITER and AUTO_TAKEOFF, which need the global or the local position. *)
Definition nav_hold (using_global_pos : bool) (mode : navigation_state_t) (c : nav_ctx) : nav_ctx :=
  if engine_failure (ns c) then goto NAVIGATION_STATE_AUTO_LANDENGFAIL c
  else
    let '(fallback, c) := armed_invalid_pos using_global_pos c in
    let s := ns c in
    if fallback : bool then c
    else if data_link_lost s && data_link_loss_act_configured && in_air && armed_now then
      data_link_reaction c
    else if rc_signal_lost s && rcl_acts RCL_EXCEPT_HOLD && rc_signal_found_once f
            && armed_now && in_air then rc_reaction (com_rcl_act_t cf) c
    else if rc_signal_lost s && rcl_acts RCL_EXCEPT_HOLD && data_link_lost s
            && negb data_link_loss_act_configured && armed_now && in_air then rc_reaction no_delay c
    else goto mode c.
Definition nav_loiter : nav_ctx -> nav_ctx := nav_hold true NAVIGATION_STATE_AUTO_LOITER.
Definition nav_takeoff : nav_ctx -> nav_ctx := nav_hold false NAVIGATION_STATE_AUTO_TAKEOFF.

(** The modes that only need a position: AUTO_RTL, AUTO_FOLLOW_TARGET (global),
    AUTO_LAND, AUTO_PRECLAND (local). *)
Definition nav_plain (using_global_pos : bool) (mode : navigation_state_t) (c : nav_ctx) : nav_ctx :=
  if engine_failure (ns c) then goto NAVIGATION_STATE_AUTO_LANDENGFAIL c
  else
    let '(fallback, c) := armed_invalid_pos using_global_pos c in
    if fallback : bool then c else goto mode c.
Definition nav_rtl : nav_ctx -> nav_ctx := nav_plain true NAVIGATION_STATE_AUTO_RTL.
Definition nav_follow_target : nav_ctx -> nav_ctx := nav_plain true NAVIGATION_STATE_AUTO_FOLLOW_TARGET.
Definition nav_land : nav_ctx -> nav_ctx := nav_plain false NAVIGATION_STATE_AUTO_LAND.
Definition nav_precland : nav_ctx -> nav_ctx := nav_plain false NAVIGATION_STATE_AUTO_PRECLAND.

(** A failsafe ends ORBIT: the main state becomes POSCTL. *)
Definition leave_orbit (c : nav_ctx) : nav_ctx := on_internal (set_main_state MAIN_STATE_POSCTL) c.

Definition nav_orbit (c : nav_ctx) : nav_ctx :=
  if engine_failure (ns c) then leave_orbit (goto NAVIGATION_STATE_AUTO_LANDENGFAIL c)
  else
    let '(fallback, c) := armed_invalid_pos true c in
    let s := ns c in
    if fallback : bool then leave_orbit c
    else if data_link_lost s && data_link_loss_act_configured && in_air && armed_now then
      leave_orbit (failsafe_on (set_link_loss_nav_state now f (data_link_loss_act cf) no_delay c))
    else if rc_signal_lost s && data_link_lost s && negb data_link_loss_act_configured && armed_now then
      leave_orbit (rc_reaction no_delay c)
    else goto NAVIGATION_STATE_ORBIT c.

Definition nav_offboard (c : nav_ctx) : nav_ctx :=
  if offboard_control_signal_lost f then
    if rc_signal_lost (ns c) && rcl_acts RCL_EXCEPT_OFFBOARD then
      set_offboard_loss_nav_state f (offb_loss_act cf) (failsafe_on c)
    else set_offboard_loss_rc_nav_state f (offb_loss_rc_act cf) (failsafe_on c)
  else goto NAVIGATION_STATE_OFFBOARD c.

Definition nav_switch (c : nav_ctx) : nav_ctx :=
  match main_state (ni c) with
  | MAIN_STATE_ACRO => nav_manual NAVIGATION_STATE_ACRO c
  | MAIN_STATE_MANUAL => nav_manual NAVIGATION_STATE_MANUAL c
  | MAIN_STATE_STAB => nav_manual NAVIGATION_STATE_STAB c
  | MAIN_STATE_ALTCTL => nav_manual NAVIGATION_STATE_ALTCTL c
  | MAIN_STATE_POSCTL => nav_posctl c
  | MAIN_STATE_AUTO_MISSION => nav_mission c
  | MAIN_STATE_AUTO_LOITER => nav_loiter c
  | MAIN_STATE_AUTO_RTL => nav_rtl c
  | MAIN_STATE_AUTO_FOLLOW_TARGET => nav_follow_target c
  | MAIN_STATE_ORBIT => nav_orbit c
  | MAIN_STATE_AUTO_TAKEOFF => nav_takeoff c
  | MAIN_STATE_AUTO_LAND => nav_land c
  | MAIN_STATE_AUTO_PRECLAND => nav_precland c
  | MAIN_STATE_OFFBOARD => nav_offboard c
  | MAIN_STATE_MAX => c
  end.
End Decision.

(** The flag: whether the navigation state changed. *)
Definition set_nav_state (now : Z) (cf : nav_config) (inp : nav_inputs) (c : nav_ctx)
  : bool * nav_ctx :=
  let nav_state_old := nav_state (ns c) in
  let armed_now := is_armed (ns c) in
  let old_failsafe := failsafe (ns c) in
  let c := on_status (set_failsafe false) c in
  let c := on_armed (reset_link_loss_globals old_failsafe (rc_loss_act cf)) c in
  let c := on_armed (reset_link_loss_globals old_failsafe (data_link_loss_act cf)) c in
  let c := on_armed (reset_offboard_loss_globals old_failsafe (offb_loss_act cf) (offb_loss_rc_act cf)) c in
  let c := nav_switch now cf inp armed_now old_failsafe c in
  (negb (bool_decide (nav_state (ns c) = nav_state_old)), c).

(** * Low battery *)

Definition force_main_state (now : Z) (st : main_state_t) (i : commander_state_s) : commander_state_s :=
  set_internal_timestamp now (set_main_state st i).

Definition landing (i : commander_state_s) : bool :=
  bool_decide (main_state i = MAIN_STATE_AUTO_LAND)
  || bool_decide (main_state i = MAIN_STATE_AUTO_PRECLAND).

Definition battery_land (now : Z) (i : commander_state_s) : commander_state_s :=
  if negb (landing i) then force_main_state now MAIN_STATE_AUTO_LAND i else i.

Definition battery_return (now : Z) (f : vehicle_status_flags_s) (i : commander_state_s)
  : commander_state_s :=
  if condition_global_position_valid f && condition_home_position_valid f then
    if negb (bool_decide (main_state i = MAIN_STATE_AUTO_RTL) || landing i)
    then force_main_state now MAIN_STATE_AUTO_RTL i else i
  else battery_land now i.

Definition battery_failsafe (now : Z) (f : vehicle_status_flags_s) (battery_warning : Z)
    (action : low_battery_action_t) (i : commander_state_s) : commander_state_s :=
  if battery_warning =? BATTERY_WARNING_CRITICAL then
    match action with
    | WARNING => i
    | RETURN | RETURN_OR_LAND => battery_return now f i
    | LAND => battery_land now i
    end
  else if battery_warning =? BATTERY_WARNING_EMERGENCY then
    match action with
    | WARNING => i
    | RETURN => battery_return now f i
    | RETURN_OR_LAND | LAND => battery_land now i
    end
  else i.
