(* ===== verification/CommanderFailsafe.v ===== *)
(** Properties of the navigation state: what a link loss reaction chooses, that
    an armed vehicle is not sent into a mode its estimates cannot support, that
    without a failure the vehicle flies the mode asked for, and how long a
    termination lasts. *)

From Stdlib Require Import ZArith Lia.
From stdpp Require Import base list numbers.
From S2P Require Import Prelude ArmAuth Commander CommanderNav.

Local Open Scope Z_scope.

#[local] Arguments enable_failsafe : simpl never.

(** * The link loss reaction against a preference list *)

(** What a reaction needs of the estimates. *)
Definition supported (f : vehicle_status_flags_s) (rotary : bool) (n : navigation_state_t) : bool :=
  match n with
  | NAVIGATION_STATE_AUTO_RTL => condition_global_position_valid f && condition_home_position_valid f
  | NAVIGATION_STATE_AUTO_LOITER => condition_global_position_valid f
  | NAVIGATION_STATE_AUTO_LAND =>
      condition_global_position_valid f || (rotary && condition_local_position_valid f)
  | NAVIGATION_STATE_DESCEND => rotary && condition_local_altitude_valid f
  | NAVIGATION_STATE_AUTO_LANDGPSFAIL => negb rotary
  | NAVIGATION_STATE_TERMINATION => true
  | _ => false
  end.

Definition reactions : list navigation_state_t :=
  [NAVIGATION_STATE_AUTO_RTL; NAVIGATION_STATE_AUTO_LOITER; NAVIGATION_STATE_AUTO_LAND;
   NAVIGATION_STATE_DESCEND; NAVIGATION_STATE_AUTO_LANDGPSFAIL; NAVIGATION_STATE_TERMINATION].

(** The reactions to try, best first: an action starts somewhere in the list. *)
Definition plan (act : LinkLoss.link_loss_actions_t) : list navigation_state_t :=
  match act with
  | LinkLoss.AUTO_RTL => reactions
  | LinkLoss.AUTO_LOITER => drop 1 reactions
  | LinkLoss.AUTO_LAND => drop 2 reactions
  | LinkLoss.TERMINATE => drop 5 reactions
  | LinkLoss.DISABLED | LinkLoss.LOCKDOWN => []
  end.

(** The action in force while the delay runs. *)
Definition delayed (act : LinkLoss.link_loss_actions_t) (waits : bool)
  : LinkLoss.link_loss_actions_t :=
  match act with LinkLoss.DISABLED => act | _ => if waits then LinkLoss.AUTO_LOITER else act end.

(** The reference: take the first supported reaction of the plan; RTL becomes
    the main state, termination sets the force-failsafe output, LOCKDOWN the
    lockdown output. *)
Definition react (now : Z) (f : vehicle_status_flags_s) (act : LinkLoss.link_loss_actions_t)
    (c : nav_ctx) : nav_ctx :=
  match List.find (supported f (is_rotary (ns c))) (plan act) with
  | None => if decide (act = LinkLoss.LOCKDOWN) then on_armed (set_lockdown true) c else c
  | Some n =>
      Nav_ctx (with_nav_state n (ns c))
        (if decide (n = NAVIGATION_STATE_TERMINATION) then set_force_failsafe true (na c) else na c)
        (if decide (n = NAVIGATION_STATE_AUTO_RTL) then
           if decide (main_state (ni c) = MAIN_STATE_AUTO_RTL) then ni c
           else Commander_state MAIN_STATE_AUTO_RTL (u16 (main_state_changes (ni c) + 1)) now
         else ni c)
  end.

(** C34: the fall-through switch of the link loss reaction is the reference: it
    takes the first reaction, from the configured one on (hold while the delay
    runs), that the estimates support, and terminates the flight when none is. *)
Theorem link_loss_reacts (now : Z) (f : vehicle_status_flags_s) (act : LinkLoss.link_loss_actions_t)
    (ll_delay : Z -> bool) (c : nav_ctx) :
  set_link_loss_nav_state now f act ll_delay c
  = react now f (delayed act (ll_delay (u64 (now - failsafe_timestamp (ns c))))) c.
Proof.
  unfold set_link_loss_nav_state, react, link_loss_rtl, link_loss_loiter, link_loss_land,
    link_loss_terminate.
  destruct c as [s a i]. simpl.
  set (w := ll_delay _). clearbody w.
  destruct act, w; simpl; try reflexivity; unfold main_state_transition; simpl;
    destruct (condition_global_position_valid f), (condition_home_position_valid f), (is_rotary s),
      (condition_local_position_valid f), (condition_local_altitude_valid f); simpl; try reflexivity.
  all: unfold goto, on_internal, on_status; simpl; by destruct (decide (main_state i = MAIN_STATE_AUTO_RTL)).
Qed.

(** * What the chosen mode needs *)

Definition fixed_wing (s : vehicle_status_s) : bool := bool_decide (vehicle_type s = VEHICLE_TYPE_FIXED_WING).

(** What a mode needs of the estimates, the links and the airframe, as the comments of set_nav_state and
    main_state_transition state them: "require global position and home",
    "require local position", "must be rotary wing plus same requirements as
    normal landing", "Require RC for all manual modes", "A local position
    estimate is enough for POSCTL for multirotors [...] For fixedwing, a global
    position is needed". *)
Definition supports (f : vehicle_status_flags_s) (s : vehicle_status_s) (n : navigation_state_t) : bool :=
  match n with
  | NAVIGATION_STATE_AUTO_RTL => condition_global_position_valid f && condition_home_position_valid f
  | NAVIGATION_STATE_AUTO_LOITER | NAVIGATION_STATE_AUTO_MISSION => condition_global_position_valid f
  | NAVIGATION_STATE_AUTO_FOLLOW_TARGET =>
      condition_global_position_valid f && condition_home_position_valid f && is_rotary s
  | NAVIGATION_STATE_ORBIT => condition_global_position_valid f && is_rotary s
  | NAVIGATION_STATE_AUTO_TAKEOFF => condition_local_position_valid f && condition_local_velocity_valid f
  | NAVIGATION_STATE_AUTO_PRECLAND =>
      condition_local_position_valid f && condition_local_velocity_valid f && is_rotary s
  | NAVIGATION_STATE_AUTO_LAND => condition_global_position_valid f || condition_local_position_valid f
  | NAVIGATION_STATE_POSCTL =>
      condition_global_position_valid f || (negb (fixed_wing s) && condition_local_position_valid f)
  | NAVIGATION_STATE_ALTCTL => condition_local_altitude_valid f || condition_global_position_valid f
  | NAVIGATION_STATE_DESCEND => is_rotary s && condition_local_altitude_valid f
  | NAVIGATION_STATE_AUTO_LANDGPSFAIL => negb (is_rotary s)
  | NAVIGATION_STATE_OFFBOARD => negb (offboard_control_signal_lost f)
  | NAVIGATION_STATE_AUTO_LANDENGFAIL => engine_failure s
  | NAVIGATION_STATE_MANUAL | NAVIGATION_STATE_ACRO | NAVIGATION_STATE_STAB
  | NAVIGATION_STATE_TERMINATION => true
  end.

Definition needs_rc (n : navigation_state_t) : bool :=
  match n with
  | NAVIGATION_STATE_MANUAL | NAVIGATION_STATE_ACRO | NAVIGATION_STATE_STAB
  | NAVIGATION_STATE_ALTCTL | NAVIGATION_STATE_POSCTL => true
  | _ => false
  end.

Definition required (f : vehicle_status_flags_s) (s : vehicle_status_s) (n : navigation_state_t) : bool :=
  supports f s n && negb (needs_rc n && rc_signal_lost s).

(** The cases in which set_nav_state does not look at a requirement: in the main
    state [m] the vehicle goes to the mode without it. *)
Inductive unchecked (cf : nav_config) (f : vehicle_status_flags_s) (s : vehicle_status_s)
  : main_state_t -> navigation_state_t -> Prop :=
| return_without_home :
    condition_global_position_valid f = true -> condition_home_position_valid f = false ->
    unchecked cf f s MAIN_STATE_AUTO_RTL NAVIGATION_STATE_AUTO_RTL
| mission_return_without_home :
    vtol_transition_failure f = true \/ mission_failure s = true ->
    condition_global_position_valid f = true -> condition_home_position_valid f = false ->
    unchecked cf f s MAIN_STATE_AUTO_MISSION NAVIGATION_STATE_AUTO_RTL
| follow_unchecked :
    condition_global_position_valid f = true ->
    condition_home_position_valid f = false \/ is_rotary s = false ->
    unchecked cf f s MAIN_STATE_AUTO_FOLLOW_TARGET NAVIGATION_STATE_AUTO_FOLLOW_TARGET
| orbit_not_rotary :
    condition_global_position_valid f = true -> is_rotary s = false ->
    unchecked cf f s MAIN_STATE_ORBIT NAVIGATION_STATE_ORBIT
| precland_not_rotary :
    condition_local_position_valid f = true -> condition_local_velocity_valid f = true -> is_rotary s = false ->
    unchecked cf f s MAIN_STATE_AUTO_PRECLAND NAVIGATION_STATE_AUTO_PRECLAND
| altitude_lost :
    rc_signal_lost s = false ->
    condition_local_altitude_valid f = false -> condition_global_position_valid f = false ->
    unchecked cf f s MAIN_STATE_ALTCTL NAVIGATION_STATE_ALTCTL
| manual_without_rc n :
    rc_signal_lost s = true -> Z.land (com_rcl_except cf) RCL_EXCEPT_OFFBOARD <> 0 ->
    offboard_control_signal_lost f = true ->
    supports f s n = true -> needs_rc n = true ->
    unchecked cf f s MAIN_STATE_OFFBOARD n.

(** Up to the failsafe fields and the outputs. *)
Definition frame (c0 c : nav_ctx) : Prop :=
  vehicle_type (ns c) = vehicle_type (ns c0) /\ engine_failure (ns c) = engine_failure (ns c0)
  /\ nav_state (ns c) = nav_state (ns c0) /\ rc_signal_lost (ns c) = rc_signal_lost (ns c0)
  /\ mission_failure (ns c) = mission_failure (ns c0) /\ main_state (ni c) = main_state (ni c0).

Definition nav_kept_or_ok (cf : nav_config) (f : vehicle_status_flags_s) (c0 c : nav_ctx) : Prop :=
  let n := nav_state (ns c) in
  n = nav_state (ns c0) \/ required f (ns c0) n = true \/ unchecked cf f (ns c0) (main_state (ni c0)) n.

Lemma frame_rotary c0 c : frame c0 c -> is_rotary (ns c) = is_rotary (ns c0).
Proof. unfold is_rotary. by intros (-> & _). Qed.

Lemma frame_rc c0 c : frame c0 c -> rc_signal_lost (ns c) = rc_signal_lost (ns c0).
Proof. by intros (_ & _ & _ & -> & _). Qed.

Lemma frame_engine c0 c : frame c0 c -> engine_failure (ns c) = engine_failure (ns c0).
Proof. by intros (_ & -> & _). Qed.

Lemma enable_failsafe_nav now old s : nav_state (enable_failsafe now old s) = nav_state s.
Proof. unfold enable_failsafe. by case_match. Qed.

Lemma frame_failsafe now old c0 c : frame c0 c -> frame c0 (failsafe_on now old c).
Proof. unfold frame, failsafe_on. simpl. unfold enable_failsafe. by case_match. Qed.

Lemma kept_ok cf f c0 c : frame c0 c -> nav_kept_or_ok cf f c0 c.
Proof. intros (_ & _ & E & _). by left. Qed.

Lemma goto_ok cf f c0 n c : required f (ns c0) n = true -> nav_kept_or_ok cf f c0 (goto n c).
Proof. by right; left. Qed.

Lemma required_supports f s n : required f s n = true <-> supports f s n = true /\ (needs_rc n = true -> rc_signal_lost s = false).
Proof. unfold required. destruct (supports f s n), (needs_rc n), (rc_signal_lost s); simpl; intuition congruence. Qed.

(** A mode that needs no RC. *)
Lemma goto_auto cf f c0 n c :
  needs_rc n = false -> supports f (ns c0) n = true -> nav_kept_or_ok cf f c0 (goto n c).
Proof. intros Hn Hs. apply goto_ok, required_supports. by rewrite Hn. Qed.

(** The reactions never ask for a mode that needs RC. *)
Lemma link_loss_ok cf now f act d c0 c :
  frame c0 c -> nav_kept_or_ok cf f c0 (set_link_loss_nav_state now f act d c).
Proof.
  intros F. unfold set_link_loss_nav_state, link_loss_rtl, link_loss_loiter, link_loss_land,
    link_loss_terminate. simpl. rewrite (frame_rotary _ _ F).
  destruct (_ && _); [|destruct act]; try (by apply kept_ok);
    destruct (condition_global_position_valid f) eqn:G, (condition_home_position_valid f) eqn:K,
      (condition_local_position_valid f) eqn:L,
      (condition_local_altitude_valid f) eqn:A, (is_rotary (ns c0)) eqn:R; simpl;
    apply goto_auto; simpl; by rewrite ?G, ?K, ?L, ?A, ?R.
Qed.

(** What an offboard reaction ends in. *)
Definition reacted (f : vehicle_status_flags_s) (c0 c : nav_ctx) : Prop :=
  nav_state (ns c) = nav_state (ns c0) \/ supports f (ns c0) (nav_state (ns c)) = true.

Lemma reacted_auto cf f c0 c :
  reacted f c0 c -> needs_rc (nav_state (ns c)) = false -> nav_kept_or_ok cf f c0 c.
Proof. intros [?|H] Hn; [by left|]. right; left. apply required_supports. by rewrite Hn. Qed.

(** The offboard reactions share their tail. *)
Lemma offboard_rtl_ok f c0 c :
  frame c0 c ->
  (reacted f c0 (offboard_rtl f c) /\ needs_rc (nav_state (ns (offboard_rtl f c))) = false)
  /\ (reacted f c0 (offboard_loiter f c) /\ needs_rc (nav_state (ns (offboard_loiter f c))) = false)
  /\ (reacted f c0 (offboard_land f c) /\ needs_rc (nav_state (ns (offboard_land f c))) = false).
Proof.
  intros F. unfold offboard_rtl, offboard_loiter, offboard_land, offboard_mitigate, reacted.
  rewrite (frame_rotary _ _ F).
  destruct (condition_global_position_valid f) eqn:G, (condition_home_position_valid f) eqn:K,
    (condition_local_altitude_valid f) eqn:A, (is_rotary (ns c0)) eqn:R; simpl;
    split_and!; try done; right; simpl; by rewrite ?G, ?K, ?A, ?R.
Qed.

Lemma offboard_loss_ok cf f act c0 c :
  frame c0 c -> nav_kept_or_ok cf f c0 (set_offboard_loss_nav_state f act c).
Proof.
  intros F. destruct (offboard_rtl_ok f c0 c F) as ([H1 N1] & [H2 N2] & [H3 N3]).
  destruct act; simpl;
    first [by apply reacted_auto | by apply kept_ok | by apply goto_auto].
Qed.

Lemma offboard_loss_rc_reacted f act c0 c :
  frame c0 c -> reacted f c0 (set_offboard_loss_rc_nav_state f act c).
Proof.
  intros F. destruct (offboard_rtl_ok f c0 c F) as ([H1 N1] & [H2 N2] & [H3 N3]).
  destruct F as (F1 & _ & F3 & _). unfold reacted.
  destruct act; simpl; first [assumption | by left | by right | unfold offboard_altitude];
    unfold is_rotary, fixed_wing; rewrite ?F1;
    destruct (condition_local_position_valid f) eqn:L, (condition_global_position_valid f) eqn:G,
      (condition_local_altitude_valid f) eqn:A, (vehicle_type (ns c0)) eqn:R;
    simpl; right; simpl; unfold fixed_wing; rewrite ?L, ?G, ?A, ?R; reflexivity.
Qed.

(** The position check; it only falls back to the pilot while there is RC. *)
Lemma check_pos_ok cf now old f rc global c0 c :
  frame c0 c -> (rc = true -> rc_signal_lost (ns c0) = false) ->
  let r := check_invalid_pos_nav_state now old f rc global c in
  (r.1 = true /\ nav_kept_or_ok cf f c0 r.2)
  \/ (r.1 = false /\ r.2 = c /\ invalid_pos f global = false).
Proof.
  intros F Hrc. unfold check_invalid_pos_nav_state. destruct (invalid_pos f global); [left|by right].
  split; [done|]. right; left. cbn [snd on_status ns]. rewrite enable_failsafe_nav.
  cbn [goto on_status ns with_nav_state nav_state]. apply required_supports.
  unfold pos_fallback, is_rotary. destruct F as (-> & _).
  destruct rc; (destruct (vehicle_type (ns c0)) eqn:R, (condition_local_position_valid f) eqn:L,
    (condition_local_altitude_valid f) eqn:A; simpl;
    (split; [unfold is_rotary, fixed_wing; by rewrite ?R, ?L, ?A, ?orb_true_r | auto; done])).
Qed.

(** ** The modes *)

Section Modes.
Context (now : Z) (cf : nav_config) (inp : nav_inputs) (old : bool) (c0 : nav_ctx).

Abbreviation f := (fl inp).
Abbreviation ok := (nav_kept_or_ok cf f c0).

Lemma rc_reaction_ok d c : frame c0 c -> ok (rc_reaction now cf inp old d c).
Proof. intros F. apply link_loss_ok. by apply frame_failsafe. Qed.

Lemma data_link_reaction_ok c : frame c0 c -> ok (data_link_reaction now cf inp old c).
Proof. intros F. apply link_loss_ok. by apply frame_failsafe. Qed.

Lemma failsafe_kept c : ok c -> ok (failsafe_on now old c).
Proof. unfold nav_kept_or_ok, failsafe_on. cbn [on_status ns]. by rewrite enable_failsafe_nav. Qed.

(** The position check of an armed vehicle: it decides, or the position is
    valid and nothing has happened. *)
Lemma armed_pos_ok global c :
  frame c0 c ->
  exists b c', armed_invalid_pos now inp true old global c = (b, c')
    /\ (b = true -> ok c') /\ (b = false -> c' = c /\ invalid_pos f global = false).
Proof.
  intros F. unfold armed_invalid_pos.
  assert (Hn : false = true -> rc_signal_lost (ns c0) = false) by done.
  pose proof (check_pos_ok cf now old f false global c0 c F Hn) as H.
  destruct (check_invalid_pos_nav_state _ _ _ _ _ _) as [b c']. simpl in H. exists b, c'.
  split; [done|]. destruct H as [[-> H]|(-> & -> & H)]; done.
Qed.

Lemma engine_ok c : frame c0 c -> engine_failure (ns c) = true -> ok (goto NAVIGATION_STATE_AUTO_LANDENGFAIL c).
Proof. intros F E. apply goto_auto; [done|]. simpl. by rewrite <- (frame_engine _ _ F). Qed.

Lemma plain_ok global mode c :
  frame c0 c -> (invalid_pos f global = false -> ok (goto mode c)) ->
  ok (nav_plain now inp true old global mode c).
Proof.
  intros F Hm. unfold nav_plain. destruct (engine_failure (ns c)) eqn:E; [by apply engine_ok|].
  destruct (armed_pos_ok global c F) as (b & c' & -> & Ht & Hf).
  destruct b; [by apply Ht|]. destruct (Hf eq_refl) as [-> Hv]. by apply Hm.
Qed.

Lemma hold_ok global mode c :
  frame c0 c -> (invalid_pos f global = false -> ok (goto mode c)) ->
  ok (nav_hold now cf inp true old global mode c).
Proof.
  intros F Hm. unfold nav_hold. destruct (engine_failure (ns c)) eqn:E; [by apply engine_ok|].
  destruct (armed_pos_ok global c F) as (b & c' & -> & Ht & Hf).
  destruct b; [by apply Ht|]. destruct (Hf eq_refl) as [-> Hv].
  case_match; [by apply data_link_reaction_ok|].
  do 2 (case_match; [by apply rc_reaction_ok|]). by apply Hm.
Qed.

(** The return of a failed mission, with or without a home position. *)
Lemma mission_return_ok c :
  main_state (ni c0) = MAIN_STATE_AUTO_MISSION ->
  vtol_transition_failure f = true \/ mission_failure (ns c0) = true ->
  condition_global_position_valid f = true -> ok (goto NAVIGATION_STATE_AUTO_RTL c).
Proof.
  intros Hs Hf G. right. simpl. destruct (condition_home_position_valid f) eqn:K.
  - left. apply required_supports. split; [|done]. simpl. by rewrite G, K.
  - right. rewrite Hs. by apply mission_return_without_home.
Qed.

Lemma mission_ok c :
  frame c0 c -> main_state (ni c) = MAIN_STATE_AUTO_MISSION -> ok (nav_mission now cf inp true old c).
Proof.
  intros F Hs. unfold nav_mission.
  destruct (armed_pos_ok true c F) as (b & c' & -> & Ht & Hf).
  destruct b; [by apply Ht|]. destruct (Hf eq_refl) as [-> Hv%negb_false_iff].
  pose proof F as (_ & _ & _ & _ & Hmf & Hms). rewrite Hms in Hs.
  destruct (engine_failure (ns c)) eqn:E; [by apply engine_ok|].
  case_match; [apply mission_return_ok; auto|].
  case_match; [apply mission_return_ok; auto; right; congruence|].
  case_match; [by apply data_link_reaction_ok|].
  do 2 (case_match; [by apply rc_reaction_ok|]).
  case_match; [apply link_loss_ok; by apply frame_failsafe|].
  case_match; [by apply goto_auto | by apply kept_ok].
Qed.

Lemma orbit_ok c : frame c0 c -> main_state (ni c) = MAIN_STATE_ORBIT -> ok (nav_orbit now cf inp true old c).
Proof.
  intros F Hs. unfold nav_orbit. destruct (engine_failure (ns c)) eqn:E; [by apply engine_ok|].
  destruct (armed_pos_ok true c F) as (b & c' & -> & Ht & Hf).
  destruct b; [by apply Ht|]. destruct (Hf eq_refl) as [-> Hv%negb_false_iff].
  case_match; [apply failsafe_kept; by apply link_loss_ok|].
  case_match; [by apply (rc_reaction_ok no_delay)|].
  right. simpl. destruct (is_rotary (ns c0)) eqn:R.
  - left. apply required_supports. split; [|done]. simpl. by rewrite Hv, R.
  - right. pose proof F as (_ & _ & _ & _ & _ & <-). rewrite Hs. by apply orbit_not_rotary.
Qed.

Lemma offboard_ok c :
  frame c0 c -> main_state (ni c) = MAIN_STATE_OFFBOARD -> ok (nav_offboard now cf inp old c).
Proof.
  intros F Hs. unfold nav_offboard. pose proof F as (_ & _ & _ & Hr & _ & Hm).
  destruct (offboard_control_signal_lost f) eqn:L.
  - pose proof (frame_failsafe now old _ _ F) as F'.
    destruct (rc_signal_lost (ns c) && _) eqn:E; [by apply offboard_loss_ok|].
    pose proof (offboard_loss_rc_reacted f (offb_loss_rc_act cf) c0 _ F') as R.
    set (c' := set_offboard_loss_rc_nav_state _ _ _) in *. clearbody c'.
    destruct (needs_rc (nav_state (ns c'))) eqn:N; [|by apply reacted_auto].
    destruct R as [R|R]; [by left|]. right.
    destruct (rc_signal_lost (ns c0)) eqn:Q; [right | left; by apply required_supports].
    rewrite Hm in Hs. rewrite Hs. apply manual_without_rc; try done.
    rewrite Hr in E. simpl in E. by apply Z.eqb_neq in E.
  - apply goto_auto; [done|]. simpl. by rewrite L.
Qed.

Lemma posctl_ok c : frame c0 c -> ok (nav_posctl now cf inp true old c).
Proof.
  intros F. unfold nav_posctl. destruct (rc_signal_lost (ns c)) eqn:Q; [by apply rc_reaction_ok|].
  assert (Hr : rc_signal_lost (ns c0) = false) by (by rewrite <- (frame_rc _ _ F)).
  simpl. rewrite orb_false_r.
  set (rc := negb (bool_decide (posctl_nav_loss_act cf = LAND_TERMINATE))).
  set (g := bool_decide (vehicle_type (ns c) = VEHICLE_TYPE_FIXED_WING)).
  pose proof (check_pos_ok cf now old f rc g c0 c F (fun _ => Hr)) as Hc.
  destruct (check_invalid_pos_nav_state now old f rc g c) as [b c'].
  simpl in Hc. destruct Hc as [[-> Hc]|(-> & -> & Hc)]; [done|].
  apply goto_ok, required_supports. split; [|done]. simpl. unfold fixed_wing.
  pose proof F as (<- & _). fold g. clearbody g. unfold invalid_pos in Hc.
  destruct g, (condition_global_position_valid f), (condition_local_position_valid f); done.
Qed.

Lemma manual_ok m c :
  frame c0 c -> (rc_signal_lost (ns c0) = false -> ok (goto m c)) -> ok (nav_manual now cf inp true old m c).
Proof.
  intros F Hm. unfold nav_manual. destruct (rc_signal_lost (ns c)) eqn:Q; [by apply rc_reaction_ok|].
  apply Hm. by rewrite <- (frame_rc _ _ F).
Qed.

Lemma switch_ok c : frame c0 c -> ok (nav_switch now cf inp true old c).
Proof.
  assert (Hl : invalid_pos f false = false ->
    condition_local_position_valid f = true /\ condition_local_velocity_valid f = true).
  { unfold invalid_pos. by intros [?%negb_false_iff ?%negb_false_iff]%orb_false_iff. }
  assert (Hg : invalid_pos f true = false -> condition_global_position_valid f = true)
    by (intros H%negb_false_iff; done).
  assert (Hrc : forall m, supports f (ns c0) m = true -> rc_signal_lost (ns c0) = false -> ok (goto m c))
    by (intros; by apply goto_ok, required_supports).
  intros F. pose proof F as (_ & _ & _ & _ & _ & Hs). unfold nav_switch.
  destruct (main_state (ni c)) eqn:E.
  1,7,9: apply manual_ok; [done|]; by apply Hrc.
  - apply manual_ok; [done|]. intros Q. destruct (condition_local_altitude_valid f) eqn:A; cycle 1.
    + destruct (condition_global_position_valid f) eqn:G; [|right; right; rewrite <- Hs; by apply altitude_lost].
      apply Hrc; [|done]. simpl. by rewrite G, orb_true_r.
    + apply Hrc; [|done]. simpl. by rewrite A.
  - by apply posctl_ok.
  - by apply mission_ok.
  - apply hold_ok; [done|]. intros ?%Hg. by apply goto_auto.
  - apply plain_ok; [done|]. intros G%Hg. destruct (condition_home_position_valid f) eqn:K.
    + apply goto_auto; [done|]. simpl. by rewrite G, K.
    + right; right. rewrite <- Hs. by apply return_without_home.
  - by apply offboard_ok.
  - apply hold_ok; [done|]. intros [H1 H2]%Hl. apply goto_auto; [done|]. simpl. by rewrite H1, H2.
  - apply plain_ok; [done|]. intros [H1 H2]%Hl. apply goto_auto; [done|]. simpl. by rewrite H1, orb_true_r.
  - apply plain_ok; [done|]. intros G%Hg.
    destruct (condition_home_position_valid f) eqn:K, (is_rotary (ns c0)) eqn:R;
      try (right; right; rewrite <- Hs; apply follow_unchecked; [done|]; by auto).
    apply goto_auto; [done|]. simpl. by rewrite G, K, R.
  - apply plain_ok; [done|]. intros [H1 H2]%Hl. destruct (is_rotary (ns c0)) eqn:R.
    + apply goto_auto; [done|]. simpl. by rewrite H1, H2, R.
    + right; right. rewrite <- Hs. by apply precland_not_rotary.
  - by apply orbit_ok.
  - by apply kept_ok.
Qed.
End Modes.


(** When the main state is one that a change to it would be allowed, and the
    offboard exception of the RC loss is off, only two cases are left: the return
    of a failed mission and following a target, both without home. *)
Lemma allowed_unchecked cf f s m n :
  main_state_allowed s f m = true -> Z.land (com_rcl_except cf) RCL_EXCEPT_OFFBOARD = 0 ->
  unchecked cf f s m n ->
  condition_home_position_valid f = false
  /\ ((m = MAIN_STATE_AUTO_MISSION /\ n = NAVIGATION_STATE_AUTO_RTL)
      \/ (m = MAIN_STATE_AUTO_FOLLOW_TARGET /\ n = NAVIGATION_STATE_AUTO_FOLLOW_TARGET)).
Proof.
  intros Ha He Hu. revert Ha. destruct Hu as [G K|Hf G K|G [K|R]|G R|L V R|Q A G|n' Q X _ _ _]; simpl; intros Ha;
    try done; auto.
  all: rewrite ?G, ?K, ?L, ?V, ?R, ?A, ?andb_false_r in Ha; done.
Qed.

(** ** Without a failure *)

(** The mode a main state asks for. *)
Definition mode_of (m : main_state_t) : option navigation_state_t :=
  match m with
  | MAIN_STATE_MANUAL => Some NAVIGATION_STATE_MANUAL
  | MAIN_STATE_ALTCTL => Some NAVIGATION_STATE_ALTCTL
  | MAIN_STATE_POSCTL => Some NAVIGATION_STATE_POSCTL
  | MAIN_STATE_AUTO_MISSION => Some NAVIGATION_STATE_AUTO_MISSION
  | MAIN_STATE_AUTO_LOITER => Some NAVIGATION_STATE_AUTO_LOITER
  | MAIN_STATE_AUTO_RTL => Some NAVIGATION_STATE_AUTO_RTL
  | MAIN_STATE_ACRO => Some NAVIGATION_STATE_ACRO
  | MAIN_STATE_OFFBOARD => Some NAVIGATION_STATE_OFFBOARD
  | MAIN_STATE_STAB => Some NAVIGATION_STATE_STAB
  | MAIN_STATE_AUTO_TAKEOFF => Some NAVIGATION_STATE_AUTO_TAKEOFF
  | MAIN_STATE_AUTO_LAND => Some NAVIGATION_STATE_AUTO_LAND
  | MAIN_STATE_AUTO_FOLLOW_TARGET => Some NAVIGATION_STATE_AUTO_FOLLOW_TARGET
  | MAIN_STATE_AUTO_PRECLAND => Some NAVIGATION_STATE_AUTO_PRECLAND
  | MAIN_STATE_ORBIT => Some NAVIGATION_STATE_ORBIT
  | MAIN_STATE_MAX => None
  end.

(** No link lost, no failure reported, every position estimate valid. *)
Definition nominal (inp : nav_inputs) (s : vehicle_status_s) : bool :=
  negb (rc_signal_lost s) && negb (data_link_lost s) && negb (engine_failure s)
  && negb (mission_failure s) && negb (vtol_transition_failure (fl inp))
  && negb (offboard_control_signal_lost (fl inp)) && negb (stay_in_failsafe inp)
  && condition_global_position_valid (fl inp) && condition_local_position_valid (fl inp)
  && condition_local_velocity_valid (fl inp).

Definition some_terminate (cf : nav_config) : bool :=
  bool_decide (rc_loss_act cf = LinkLoss.TERMINATE)
  || bool_decide (data_link_loss_act cf = LinkLoss.TERMINATE)
  || bool_decide (offb_loss_act cf = OffbLoss.TERMINATE)
  || bool_decide (offb_loss_rc_act cf = OffbRcLoss.TERMINATE).

Lemma reset_globals_force cf old a :
  force_failsafe (reset_offboard_loss_globals old (offb_loss_act cf) (offb_loss_rc_act cf)
    (reset_link_loss_globals old (data_link_loss_act cf)
      (reset_link_loss_globals old (rc_loss_act cf) a)))
  = force_failsafe a && negb (old && some_terminate cf).
Proof.
  unfold reset_link_loss_globals, reset_offboard_loss_globals, some_terminate.
  destruct old; simpl; [|by rewrite andb_true_r].
  destruct a, (rc_loss_act cf), (data_link_loss_act cf), (offb_loss_act cf), (offb_loss_rc_act cf);
    simpl; by rewrite ?andb_true_r, ?andb_false_r.
Qed.

Lemma valid_check now inp armed old rc global c :
  condition_global_position_valid (fl inp) = true -> condition_local_position_valid (fl inp) = true ->
  condition_local_velocity_valid (fl inp) = true ->
  check_invalid_pos_nav_state now old (fl inp) rc global c = (false, c)
  /\ armed_invalid_pos now inp armed old global c = (false, c).
Proof.
  unfold armed_invalid_pos, check_invalid_pos_nav_state, invalid_pos. intros -> -> ->.
  by destruct global, armed.
Qed.

(** The switch when nothing is wrong. *)
Lemma switch_nominal now cf inp armed old c n :
  nominal inp (ns c) = true -> mode_of (main_state (ni c)) = Some n ->
  nav_switch now cf inp armed old c = goto n c.
Proof.
  unfold nominal. rewrite !andb_true_iff, !negb_true_iff.
  intros [[[[[[[[[H1 H2] H3] H4] H5] H6] H7] H8] H9] H10] Hm.
  pose proof (fun rc g => proj1 (valid_check now inp armed old rc g c H8 H9 H10)) as Hc.
  pose proof (fun g => proj2 (valid_check now inp armed old true g c H8 H9 H10)) as Ha.
  unfold nav_switch, nav_manual, nav_posctl, nav_loiter, nav_takeoff, nav_rtl, nav_follow_target, nav_land,
    nav_precland, nav_mission, nav_hold, nav_plain, nav_orbit, nav_offboard.
  destruct (main_state (ni c)); simpl in Hm; simplify_eq;
    rewrite ?Hc, ?Ha, ?H1, ?H2, ?H3, ?H4, ?H5, ?H6, ?H7; done.
Qed.

(** Without a lost link, a failure or an invalid position, whatever the
    configured reactions, a decision flies exactly the mode asked for: it clears
    the failsafe, keeps the main state and the time of the last failsafe, and
    takes back a forced termination exactly when the vehicle was in failsafe and
    one of the four reactions is TERMINATE. *)
Theorem nominal_flies_mode (now : Z) (cf : nav_config) (inp : nav_inputs) (c : nav_ctx)
    (n : navigation_state_t) :
  nominal inp (ns c) = true -> mode_of (main_state (ni c)) = Some n ->
  let c' := (set_nav_state now cf inp c).2 in
  ns c' = with_nav_state n (set_failsafe false (ns c)) /\ ni c' = ni c
  /\ force_failsafe (na c') = force_failsafe (na c) && negb (failsafe (ns c) && some_terminate cf).
Proof.
  intros Hn Hm. rewrite <- reset_globals_force. unfold set_nav_state. cbn zeta.
  set (c1 := on_armed (reset_offboard_loss_globals _ _ _) _).
  assert (H1 : ns c1 = set_failsafe false (ns c) /\ ni c1 = ni c) by done.
  change (reset_offboard_loss_globals (failsafe (ns c)) (offb_loss_act cf) (offb_loss_rc_act cf) _)
    with (na c1).
  clearbody c1. destruct c1 as [s1 a1 i1]. simpl in H1. destruct H1 as [-> ->].
  by rewrite (switch_nominal now cf inp _ _ _ n) by done.
Qed.

(** ** How long a termination lasts *)

Definition forced (c : nav_ctx) : bool := force_failsafe (na c).

Lemma link_loss_forced now f act d c :
  forced c = true -> forced (set_link_loss_nav_state now f act d c) = true.
Proof.
  intros H. unfold set_link_loss_nav_state, link_loss_rtl, link_loss_loiter, link_loss_land.
  destruct (_ && _); [|destruct act]; repeat case_match; done.
Qed.

Lemma offboard_forced f act rc_act c :
  forced c = true ->
  forced (set_offboard_loss_nav_state f act c) = true
  /\ forced (set_offboard_loss_rc_nav_state f rc_act c) = true.
Proof.
  intros H. unfold set_offboard_loss_nav_state, set_offboard_loss_rc_nav_state, offboard_rtl, offboard_loiter,
    offboard_land, offboard_mitigate, offboard_altitude.
  split; [destruct act | destruct rc_act]; repeat case_match; done.
Qed.

Lemma check_pos_forced now old f rc global c :
  forced (check_invalid_pos_nav_state now old f rc global c).2 = forced c.
Proof. unfold check_invalid_pos_nav_state. by case_match. Qed.

Lemma armed_pos_forced now inp armed old global c :
  forced (armed_invalid_pos now inp armed old global c).2 = forced c.
Proof. unfold armed_invalid_pos. destruct armed; [apply check_pos_forced | done]. Qed.

Lemma switch_forced now cf inp armed old c :
  forced c = true -> forced (nav_switch now cf inp armed old c) = true.
Proof.
  intros H. pose proof (fun g => armed_pos_forced now inp armed old g c) as Ha.
  assert (Hl : forall act d c1, forced c1 = true ->
    forced (set_link_loss_nav_state now (fl inp) act d (failsafe_on now old c1)) = true)
    by (intros; by apply link_loss_forced).
  unfold nav_switch, nav_manual, nav_posctl, nav_loiter, nav_takeoff, nav_rtl, nav_follow_target, nav_land,
    nav_precland, nav_mission, nav_hold, nav_plain, nav_orbit, nav_offboard, rc_reaction, data_link_reaction.
  destruct (main_state (ni c)); try done;
    try (pose proof (Ha true) as Hp; pose proof (Ha false) as Hq;
         destruct (armed_invalid_pos now inp armed old true c) as [b1 c1],
           (armed_invalid_pos now inp armed old false c) as [b2 c2]; simpl in Hp, Hq;
         rewrite H in Hp, Hq);
    try (repeat case_match; by auto using link_loss_forced).
  - case_match; [by apply Hl|]. rewrite <- H.
    rewrite <- (check_pos_forced now old (fl inp)
      (negb (bool_decide (posctl_nav_loss_act cf = LAND_TERMINATE)) || negb armed)
      (bool_decide (vehicle_type (ns c) = VEHICLE_TYPE_FIXED_WING)) c).
    by destruct (check_invalid_pos_nav_state _ _ _ _ _ _) as [[] c3].
  - destruct (offboard_forced (fl inp) (offb_loss_act cf) (offb_loss_rc_act cf) (failsafe_on now old c) H).
    by repeat case_match.
  - destruct (engine_failure (ns c)), b1; try done.
    repeat match goal with |- context [if ?b then _ else _] => destruct b end; try done;
      match goal with |- context [leave_orbit ?x] =>
        change (forced (leave_orbit x)) with (forced x) end; [|by apply Hl].
    match goal with |- context [failsafe_on now old ?x] =>
        change (forced (failsafe_on now old x)) with (forced x) end.
    by apply link_loss_forced.
Qed.

(** A decision under any configuration without a TERMINATE action, or anything
    else that does not take the termination back. *)
Inductive nav_step (c c' : nav_ctx) : Prop :=
| nav_decide now cf inp :
    some_terminate cf = false -> c' = (set_nav_state now cf inp c).2 -> nav_step c c'
| nav_env : (forced c = true -> forced c' = true) -> nav_step c c'.

(** A termination entered because no reaction was supported lasts: under
    configurations without a TERMINATE action no sequence of decisions ends it,
    although the links and the position come back and the vehicle's mode is the
    one asked for again. *)
Theorem termination_latched (c c' : nav_ctx) :
  star nav_step c c' -> forced c = true -> forced c' = true.
Proof.
  intros Hs. apply (star_invariant nav_step (fun c => forced c = true)); [|exact Hs].
  clear. intros c c' H [now cf inp Ht ->|He]; [|by apply He].
  apply switch_forced. unfold forced in *. simpl. by rewrite reset_globals_force, Ht, H, andb_false_r.
Qed.

(** ** Low battery *)

(** The modes from most to least demanding of the reaction to a battery: once
    landing, the vehicle keeps landing; once returning it only changes to
    landing. *)
Lemma battery_keeps_landing now f w act i :
  landing i = true -> battery_failsafe now f w act i = i.
Proof.
  intros H. unfold battery_failsafe, battery_return, battery_land. rewrite H, orb_true_r. simpl.
  by repeat case_match.
Qed.

Lemma battery_reacts now f w act i :
  act <> WARNING -> w = BATTERY_WARNING_CRITICAL \/ w = BATTERY_WARNING_EMERGENCY ->
  main_state (battery_failsafe now f w act i) = MAIN_STATE_AUTO_RTL
  \/ landing (battery_failsafe now f w act i) = true.
Proof.
  intros Ha [-> | ->]; unfold battery_failsafe; simpl; destruct act; try done;
    unfold battery_return, battery_land;
    destruct (landing i) eqn:L; rewrite ?orb_true_r, ?orb_false_r; simpl;
    repeat case_match; simpl; auto;
    left; match goal with H : negb (bool_decide _) = false |- _ =>
      apply negb_false_iff, bool_decide_eq_true in H; exact H end.
Qed.

(** * Concrete runs *)

(** An armed multicopter in MANUAL, with or without RC; the estimates are all
    valid or all invalid. *)
Definition flying (rc_lost old_failsafe force : bool) (n : navigation_state_t) : nav_ctx :=
  Nav_ctx
    (Vehicle_status ARMING_STATE_ARMED n false old_failsafe 0 VEHICLE_TYPE_ROTARY_WING false false
       rc_lost true false false false false 0 0 0 0 0 1000000)
    (Actuator_armed true true false force) (Commander_state MAIN_STATE_MANUAL 1 0).

Definition estimates (valid : bool) : nav_inputs :=
  Nav_inputs
    (Vehicle_status_flags true true false false valid valid valid valid valid true true false false
       false false false false false false false true true false false true false false)
    false false false.

(** RC loss: return; data link loss: nothing; offboard loss: land. *)
Definition return_config : nav_config :=
  Nav_config LinkLoss.DISABLED LinkLoss.AUTO_RTL OffbLoss.AUTO_LAND OffbRcLoss.MANUAL_POSITION
    ALTITUDE_MANUAL (fun e => e <? 500000) 0.


Lemma nominal_flies_mode_witness :
  let c' := (set_nav_state 8000000 return_config (estimates true)
               (flying false true false NAVIGATION_STATE_AUTO_RTL)).2 in
  nav_state (ns c') = NAVIGATION_STATE_MANUAL /\ failsafe (ns c') = false.
Proof.
  destruct (nominal_flies_mode 8000000 return_config (estimates true)
    (flying false true false NAVIGATION_STATE_AUTO_RTL) NAVIGATION_STATE_MANUAL eq_refl eq_refl)
    as [E _].
  split; [exact (f_equal nav_state E) | exact (f_equal failsafe E)].
Defined.

(** RC and the estimates are lost, the flight is terminated; both come back and
    the vehicle is in MANUAL again, with the outputs still forced. *)
Lemma termination_latched_witness :
  let c1 := (set_nav_state 8000000 return_config (estimates false)
               (on_status (set_failsafe_timestamp 6000000)
                  (flying true true false NAVIGATION_STATE_AUTO_LOITER))).2 in
  let c2 := on_status (fun _ => ns (flying false true true NAVIGATION_STATE_TERMINATION)) c1 in
  let c3 := (set_nav_state 9000000 return_config (estimates true) c2).2 in
  nav_state (ns c1) = NAVIGATION_STATE_TERMINATION /\ nav_state (ns c3) = NAVIGATION_STATE_MANUAL
  /\ forced c3 = true.
Proof.
  intros c1 c2 c3. split; [vm_compute; reflexivity|]. split; [vm_compute; reflexivity|].
  apply (termination_latched c1 c3).
  - apply (star_step _ c1 c2 c3); [by apply nav_env|].
    apply (star_step _ c2 c3 c3); [|apply star_refl].
    by apply (nav_decide c2 c3 9000000 return_config (estimates true)).
  - vm_compute. reflexivity.
Defined.
