(* ===== verification/LandDetector.v ===== *)
(** The land detector (src/modules/land_detector): the cycle of the base class
    LandDetector over the methods its vehicles override, and the five vehicles.
    A cycle reads the topics that have news and the clock where the code reads
    it; its effects are the publication and the parameters it stores. *)

From Stdlib Require Import ZArith Lia SpecFloat.
From stdpp Require Import base list numbers option.
From S2P Require Import Prelude Float32 EsoVector Hysteresis EsoTakeoff Commander.

Local Open Scope Z_scope.

(** * Topics *)

Record vehicle_local_position_s := Local_position {
  lpos_timestamp : Z;
  v_xy_valid : bool;
  v_z_valid : bool;
  lpos_vx : float;
  lpos_vy : float;
  lpos_vz : float;
  dist_bottom_valid : bool;
  dist_bottom : float;
  dist_bottom_sensor_bitfield : Z
}.

Definition no_position : vehicle_local_position_s :=
  Local_position 0 false false fzero fzero fzero false fzero 0.

Definition DIST_BOTTOM_SENSOR_RANGE : Z := 1.

Record hover_thrust_estimate_s := Hover_thrust_estimate { hte_timestamp : Z; hte_valid : bool; hover_thrust : float }.
Record airspeed_validated_s := Airspeed_validated { airspeed_timestamp : Z; true_airspeed_m_s : float }.

Record vehicle_land_detected_s := Vehicle_land_detected {
  land_timestamp : Z;
  land_alt_max : float;
  freefall : bool;
  ground_contact : bool;
  maybe_landed : bool;
  landed : bool;
  in_ground_effect : bool;
  in_descend : bool;
  has_low_throttle : bool;
  vertical_movement : bool;
  horizontal_movement : bool;
  close_to_ground_or_skipped_check : bool
}.

(** The parameters the detectors read. *)
Record land_params := Land_params {
  MPC_LAND_SPEED : float;
  MPC_MANTHR_MIN : float;
  MPC_THR_MIN : float;
  MPC_USE_HTE : Z;
  MPC_THR_HOVER : float;
  LNDMC_TRIG_TIME : float;
  LNDMC_ALT_MAX : float;
  LNDMC_ROT_MAX : float;
  LNDMC_XY_VEL_MAX : float;
  LNDMC_Z_VEL_MAX : float;
  LNDMC_ALT_GND : float;
  LNDFW_XYACC_MAX : float;
  LNDFW_AIRSPD_MAX : float;
  LNDFW_VEL_XY_MAX : float;
  LNDFW_VEL_Z_MAX : float;
  LND_FLIGHT_T_HI : Z;
  LND_FLIGHT_T_LO : Z
}.

(** What a cycle finds: the stored parameters and whether they changed, the topics that were
    published since the last cycle, and the time at each reading of the clock. *)
Record cycle := Cycle {
  parameters : land_params;
  parameter_update : bool;
  actuator_armed : option bool;
  vehicle_acceleration : option vec3;
  vehicle_local_position : option vehicle_local_position_s;
  vehicle_status : option vehicle_status_s;
  throttle_control : option float;
  flag_control_climb_rate_enabled : option bool;
  hover_thrust_estimate : option hover_thrust_estimate_s;
  takeoff_status : option Z;
  trajectory_vz : option float;
  vehicle_angular_velocity : vec2;
  airspeed_validated : airspeed_validated_s;
  now_us : Z;
  contact_time : Z;
  maybe_time : Z;
  landed_time : Z;
  airspeed_time : Z;
  elapsed_time : Z;
  published_time : Z
}.

(** * The state of the base class *)

Record hystereses := Hystereses {
  _freefall_hysteresis : hysteresis;
  _landed_hysteresis : hysteresis;
  _maybe_landed_hysteresis : hysteresis;
  _ground_contact_hysteresis : hysteresis;
  _ground_effect_hysteresis : hysteresis
}.

Definition initial_hystereses : hystereses :=
  Hystereses (hysteresis_new false) (hysteresis_new true) (hysteresis_new true) (hysteresis_new true)
    (hysteresis_new false).

Record sensors := Sensors {
  _vehicle_local_position : vehicle_local_position_s;
  _vehicle_status : vehicle_status_s;
  _acceleration : vec3;
  _armed : bool;
  _dist_bottom_is_observable : bool
}.

(** The cycle's updates of the base class's topics, with the flag that a range
    sensor has been seen. *)
Definition update_sensors (c : cycle) (s : sensors) : sensors :=
  let lpos := default (_vehicle_local_position s) (vehicle_local_position c) in
  Sensors lpos (default (_vehicle_status s) (vehicle_status c))
    (default (_acceleration s) (vehicle_acceleration c))
    (default (_armed s) (actuator_armed c))
    (_dist_bottom_is_observable s
     || negb (Z.land (dist_bottom_sensor_bitfield lpos) DIST_BOTTOM_SENSOR_RANGE =? 0)).

Definition _1_s : Z := 1000000.

(** [now - then], on 64-bit time stamps. *)
Definition elapsed (now before : Z) : Z := u64 (now - before).

(** * The methods of a vehicle *)

Inductive effect :=
| Publish (l : vehicle_land_detected_s)
| StoreZVelMax (v : float)
| StoreFlightTime (hi lo : Z).

(** A state of the vehicle's class and the virtual methods. *)
Class Vehicle (V : Type) := {
  constructed : hystereses -> hystereses;
  _update_params : land_params -> V -> V * list effect;
  _update_topics : cycle -> V -> V;
  _set_hysteresis_factor : Z -> V -> hystereses -> hystereses;
  _get_freefall_state : sensors -> V -> bool;
  _get_ground_contact_state : cycle -> sensors -> hystereses -> V -> bool * V;
  _get_maybe_landed_state : cycle -> sensors -> hystereses -> V -> bool * V;
  _get_landed_state : cycle -> sensors -> hystereses -> V -> bool * V;
  _get_ground_effect_state : V -> bool;
  _get_max_altitude : V -> float;
  _get_in_descend : V -> bool;
  _get_has_low_throttle : V -> bool;
  _get_horizontal_movement : V -> bool;
  _get_vertical_movement : V -> bool;
  _get_close_to_ground_or_skipped_check : V -> bool
}.

(** * The cycle *)

Record land_detector (V : Type) := Land_detector {
  hyst : hystereses;
  sens : sensors;
  vehicle : V;
  _previous_armed_state : bool;
  _land_detected : vehicle_land_detected_s;
  _takeoff_time : Z;
  _total_flight_time : Z
}.
Arguments Land_detector {V}. Arguments hyst {V}. Arguments sens {V}. Arguments vehicle {V}.
Arguments _previous_armed_state {V}. Arguments _land_detected {V}. Arguments _takeoff_time {V}.
Arguments _total_flight_time {V}.

Definition s32 (z : Z) : Z := u32 (z + 2147483648) - 2147483648.

(** The flight time in its two parameters of type int32. *)
Definition flight_time_of (hi lo : Z) : Z := Z.lor (u64 (Z.shiftl (u64 hi) 32)) (u32 lo).
Definition flight_time_hi (t : Z) : Z := s32 (Z.land (Z.shiftr t 32) 0xffffffff).
Definition flight_time_lo (t : Z) : Z := s32 (Z.land t 0xffffffff).

Definition initial_land_detected : vehicle_land_detected_s :=
  Vehicle_land_detected 0 (fneg fone) false true true true false false false false false false.

Section Cycle.
Context {V : Type} `{Vehicle V}.

Definition land_detector_new (status : vehicle_status_s) (v : V) : land_detector V :=
  Land_detector (constructed initial_hystereses) (Sensors no_position status zero3 false false) v false
    initial_land_detected 0 0.

(** The parameters are read when they changed, and in every cycle until the
    first publication. *)
Definition read_params (c : cycle) (d : land_detector V) : land_detector V * list effect :=
  if parameter_update c || (land_timestamp (_land_detected d) =? 0) then
    let p := parameters c in
    let '(v, out) := _update_params p (vehicle d) in
    (Land_detector (hyst d) (sens d) v (_previous_armed_state d) (_land_detected d) (_takeoff_time d)
       (flight_time_of (LND_FLIGHT_T_HI p) (LND_FLIGHT_T_LO p)), out)
  else (d, []).

(** The five state changes, in the order of the code: each method sees what the
    ones before it left. *)
Definition update_states (c : cycle) (s : sensors) (h : hystereses) (v : V) : hystereses * V :=
  let factor := if _dist_bottom_is_observable s && negb (dist_bottom_valid (_vehicle_local_position s)) then 3 else 1 in
  let 'Hystereses ff ld ml gc ge := _set_hysteresis_factor factor v h in
  let ff := set_state_and_update (_get_freefall_state s v) (now_us c) ff in
  let '(contact, v) := _get_ground_contact_state c s (Hystereses ff ld ml gc ge) v in
  let gc := set_state_and_update contact (now_us c) gc in
  let '(maybe, v) := _get_maybe_landed_state c s (Hystereses ff ld ml gc ge) v in
  let ml := set_state_and_update maybe (now_us c) ml in
  let '(landed, v) := _get_landed_state c s (Hystereses ff ld ml gc ge) v in
  let ld := set_state_and_update landed (now_us c) ld in
  let ge := set_state_and_update (_get_ground_effect_state v) (now_us c) ge in
  (Hystereses ff ld ml gc ge, v).

Definition published_alt_max (v : V) : float :=
  if fltb fzero (_get_max_altitude v) then _get_max_altitude v else INFINITY.

Definition worth_publishing (c : cycle) (h : hystereses) (alt_max : float) (l : vehicle_land_detected_s) : bool :=
  (_1_s <=? elapsed (elapsed_time c) (land_timestamp l))
  || negb (eqb (landed l) (_state (_landed_hysteresis h)))
  || negb (eqb (freefall l) (_state (_freefall_hysteresis h)))
  || negb (eqb (maybe_landed l) (_state (_maybe_landed_hysteresis h)))
  || negb (eqb (ground_contact l) (_state (_ground_contact_hysteresis h)))
  || negb (eqb (in_ground_effect l) (_state (_ground_effect_hysteresis h)))
  || fltb FLT_EPSILON (fabs (fsub (land_alt_max l) alt_max)).

Definition land_message (c : cycle) (h : hystereses) (v : V) : vehicle_land_detected_s :=
  Vehicle_land_detected (published_time c) (published_alt_max v)
    (_state (_freefall_hysteresis h)) (_state (_ground_contact_hysteresis h))
    (_state (_maybe_landed_hysteresis h)) (_state (_landed_hysteresis h))
    (_state (_ground_effect_hysteresis h)) (_get_in_descend v) (_get_has_low_throttle v)
    (_get_vertical_movement v) (_get_horizontal_movement v) (_get_close_to_ground_or_skipped_check v).

(** Publishes, and notes the time of the take-off. *)
Definition publish_land (c : cycle) (d : land_detector V) : land_detector V * list effect :=
  let 'Land_detector h s v prev l takeoff total := d in
  if worth_publishing c h (published_alt_max v) l then
    let takeoff := if negb (_state (_landed_hysteresis h)) && landed l && (takeoff =? 0) then now_us c else takeoff in
    let l := land_message c h v in
    (Land_detector h s v prev l takeoff total, [Publish l])
  else (d, []).

(** Adds the flight time when the vehicle is disarmed. *)
Definition count_flight_time (c : cycle) (d : land_detector V) : land_detector V * list effect :=
  let 'Land_detector h s v prev l takeoff total := d in
  if negb (takeoff =? 0) && negb (_armed s) && prev then
    let total := u64 (total + elapsed (now_us c) takeoff) in
    (Land_detector h s v (_armed s) l 0 total, [StoreFlightTime (flight_time_hi total) (flight_time_lo total)])
  else (Land_detector h s v (_armed s) l takeoff total, []).

Definition Run (c : cycle) (d : land_detector V) : land_detector V * list effect :=
  let '(d, out1) := read_params c d in
  let s := update_sensors c (sens d) in
  let v := _update_topics c (vehicle d) in
  let '(h, v) := update_states c s (hyst d) v in
  let d := Land_detector h s v (_previous_armed_state d) (_land_detected d) (_takeoff_time d) (_total_flight_time d) in
  let '(d, out2) := publish_land c d in
  let '(d, out3) := count_flight_time c d in
  (d, out1 ++ out2 ++ out3).
End Cycle.

(** * MulticopterLandDetector *)

(** The copies of the parameters of other modules, and the detector's own. *)
Record mc_params := Mc_params {
  minThrottle : float;
  hoverThrottle : float;
  minManThrottle : float;
  landSpeed : float;
  useHoverThrustEstimate : bool;
  trig_time : float;
  alt_max : float;
  rot_max : float;
  xy_vel_max : float;
  z_vel_max : float;
  alt_gnd_effect : float;
  _hover_thrust_initialized : bool
}.

Record mc_inputs := Mc_inputs {
  _hover_thrust_estimate_last_valid : Z;
  _flag_control_climb_rate_enabled : bool;
  _actuator_controls_throttle : float;
  _takeoff_status : Z
}.

Record mc_flags := Mc_flags {
  _hover_thrust_estimate_valid : bool;
  _in_descend : bool;
  _horizontal_movement : bool;
  _vertical_movement : bool;
  _has_low_throttle : bool;
  _close_to_ground_or_skipped_check : bool;
  _below_gnd_effect_hgt : bool
}.

Record multicopter := Multicopter {
  par : mc_params;
  inp : mc_inputs;
  flg : mc_flags;
  _min_thrust_start : Z;
  _landed_time : Z
}.

Definition multicopter_new : multicopter :=
  Multicopter (Mc_params fzero fzero fzero fzero false fzero fzero fzero fzero fzero fzero false)
    (Mc_inputs 0 false fzero (state_value disarmed)) (Mc_flags false false false false false false false) 0 0.

Definition FREEFALL_TRIGGER_TIME_US : Z := 300000.
Definition LAND_DETECTOR_LAND_PHASE_TIME_US : Z := 2000000.
Definition DIST_FROM_GROUND_THRESHOLD : float := fone.

Definition mc_update_params (p : land_params) (m : multicopter) : multicopter * list effect :=
  let lower := fltb (MPC_LAND_SPEED p) (LNDMC_Z_VEL_MAX p) in
  let use_hte := MPC_USE_HTE p =? 1 in
  let from_param := negb use_hte || negb (_hover_thrust_initialized (par m)) in
  let hover := if from_param then MPC_THR_HOVER p else hoverThrottle (par m) in
  (Multicopter
     (Mc_params (MPC_THR_MIN p) hover (MPC_MANTHR_MIN p) (MPC_LAND_SPEED p) use_hte (LNDMC_TRIG_TIME p)
        (LNDMC_ALT_MAX p) (LNDMC_ROT_MAX p) (LNDMC_XY_VEL_MAX p)
        (if lower then MPC_LAND_SPEED p else LNDMC_Z_VEL_MAX p) (LNDMC_ALT_GND p)
        (if from_param then true else _hover_thrust_initialized (par m)))
     (inp m) (flg m) (_min_thrust_start m) (_landed_time m),
   if lower then [StoreZVelMax (MPC_LAND_SPEED p)] else []).

Definition set_hover (t : float) (p : mc_params) : mc_params :=
  Mc_params (minThrottle p) t (minManThrottle p) (landSpeed p) (useHoverThrustEstimate p) (trig_time p) (alt_max p)
    (rot_max p) (xy_vel_max p) (z_vel_max p) (alt_gnd_effect p) (_hover_thrust_initialized p).

Definition mc_update_topics (c : cycle) (m : multicopter) : multicopter :=
  let estimate := if useHoverThrustEstimate (par m)
                  then match hover_thrust_estimate c with
                       | Some hte => if hte_valid hte then Some hte else None
                       | None => None
                       end
                  else None in
  Multicopter
    (match estimate with Some hte => set_hover (hover_thrust hte) (par m) | None => par m end)
    (Mc_inputs
       (match estimate with Some hte => hte_timestamp hte | None => _hover_thrust_estimate_last_valid (inp m) end)
       (default (_flag_control_climb_rate_enabled (inp m)) (flag_control_climb_rate_enabled c))
       (default (_actuator_controls_throttle (inp m)) (throttle_control c))
       (default (_takeoff_status (inp m)) (takeoff_status c)))
    (flg m) (_min_thrust_start m) (_landed_time m).

(** The time towards a landing state: a third of the trigger time. *)
Definition third_of_trigger (trig_time : float) (factor : Z) : Z :=
  u64 (f_trunc (fmul (fdiv (fmul trig_time (f_of_Z _1_s)) (f_of_Z 3)) (f_of_Z factor))).

Definition mc_set_hysteresis_factor (factor : Z) (m : multicopter) (h : hystereses) : hystereses :=
  let time := third_of_trigger (trig_time (par m)) factor in
  Hystereses (set_hysteresis_time_from false FREEFALL_TRIGGER_TIME_US (_freefall_hysteresis h))
    (set_hysteresis_time_from false time (_landed_hysteresis h))
    (set_hysteresis_time_from false time (_maybe_landed_hysteresis h))
    (set_hysteresis_time_from false time (_ground_contact_hysteresis h))
    (_ground_effect_hysteresis h).

(** A parameter below zero stands for no limit. *)
Definition or_infinite (x : float) : float := if fltb x fzero then INFINITY else x.
Definition mc_get_max_altitude (m : multicopter) : float := or_infinite (alt_max (par m)).
Definition _get_gnd_effect_altitude (m : multicopter) : float := or_infinite (alt_gnd_effect (par m)).

Definition _is_close_to_ground (l : vehicle_local_position_s) : bool :=
  dist_bottom_valid l && fltb (dist_bottom l) DIST_FROM_GROUND_THRESHOLD.

Definition mc_get_ground_effect_state (m : multicopter) : bool :=
  (_in_descend (flg m) && negb (_horizontal_movement (flg m)))
  || (_below_gnd_effect_hgt (flg m) && (_takeoff_status (inp m) =? state_value flight))
  || (_takeoff_status (inp m) =? state_value rampup).

Section Multicopter.
Context `{Matrix}.

Definition mc_get_freefall_state (s : sensors) (m : multicopter) : bool :=
  fltb (v3_norm (_acceleration s)) (f_of_Z 2).

(** 90% of MPC_LAND_SPEED *)
Definition land_speed_threshold (m : multicopter) : float :=
  fmul (f_dec 9 10) (fmax (landSpeed (par m)) (f_dec 1 10)).

Definition lpos_available (time_now_us : Z) (s : sensors) : bool :=
  elapsed time_now_us (lpos_timestamp (_vehicle_local_position s)) <? _1_s.

(** The climb rate above which there is vertical movement. *)
Definition max_climb_rate (time_now_us : Z) (m : multicopter) : float :=
  let threshold := land_speed_threshold m in
  if fltb (_actuator_controls_throttle (inp m)) (minThrottle (par m)) then threshold
  else if elapsed time_now_us (_landed_time m) <? LAND_DETECTOR_LAND_PHASE_TIME_US
       then fmul (z_vel_max (par m)) (f_dec 5 2)
       else fmin (fmul threshold (f_dec 1 2)) (z_vel_max (par m)).

(** The throttle at or below which it is low: 30% of the range between minimum
    and hover, or 60% with a hover thrust estimate. *)
Definition sys_low_throttle (hte_valid : bool) (m : multicopter) : float :=
  fadd (minThrottle (par m))
    (fmul (fsub (hoverThrottle (par m)) (minThrottle (par m))) (if hte_valid then f_dec 6 10 else f_dec 3 10)).

Definition mc_get_ground_contact_state (c : cycle) (s : sensors) (h : hystereses) (m : multicopter)
    : bool * multicopter :=
  let time_now_us := contact_time c in
  let lpos := _vehicle_local_position s in
  let available := lpos_available time_now_us s in
  let vertical := if available && v_z_valid lpos
                  then fltb (max_climb_rate time_now_us m) (fabs (lpos_vz lpos)) else true in
  let horizontal := if available && v_xy_valid lpos
                    then v2_longerThan (V2 (lpos_vx lpos) (lpos_vy lpos)) (xy_vel_max (par m)) else false in
  let below := if available && dist_bottom_valid lpos
               then fltb (dist_bottom lpos) (_get_gnd_effect_altitude m) else false in
  let hover_valid := elapsed time_now_us (_hover_thrust_estimate_last_valid (inp m)) <? _1_s in
  let hte := if negb (_in_descend (flg m)) || hover_valid then hover_valid
             else _hover_thrust_estimate_valid (flg m) in
  let low := fleb (_actuator_controls_throttle (inp m)) (sys_low_throttle hte m) in
  let climb := _flag_control_climb_rate_enabled (inp m) in
  let descend := if climb
                 then match trajectory_vz c with
                      | Some vz => isfinite vz && fleb (land_speed_threshold m) vz
                      | None => _in_descend (flg m)
                      end
                 else false in
  let contact := if climb && negb (_state (_maybe_landed_hysteresis h)) && negb (_state (_landed_hysteresis h))
                 then low && descend else low in
  let close := _is_close_to_ground lpos || (negb (_dist_bottom_is_observable s) || negb (dist_bottom_valid lpos)) in
  let m := Multicopter (par m) (inp m) (Mc_flags hte descend horizontal vertical low close below)
             (_min_thrust_start m) (_landed_time m) in
  (if negb (_armed s) then true else close && contact && negb horizontal && negb vertical, m).

(** The throttle at or below which it is minimal: 10% of the range between
    minimum and hover, or just above the manual minimum. *)
Definition sys_min_throttle (m : multicopter) : float :=
  if _flag_control_climb_rate_enabled (inp m)
  then fadd (minThrottle (par m)) (fmul (fsub (hoverThrottle (par m)) (minThrottle (par m))) (f_dec 1 10))
  else fadd (minManThrottle (par m)) (f_dec 1 100).

(** The factor on the rotation that still counts as standing. *)
Definition land_threshold_factor (time_now_us : Z) (m : multicopter) : float :=
  if fltb (_actuator_controls_throttle (inp m)) (sys_min_throttle m) then f_of_Z 5
  else if elapsed time_now_us (_landed_time m) <? LAND_DETECTOR_LAND_PHASE_TIME_US then f_dec 5 2
       else fone.

Definition mc_get_maybe_landed_state (c : cycle) (s : sensors) (h : hystereses) (m : multicopter) : bool * multicopter :=
  if negb (_armed s) then (true, m)
  else
    let time_now_us := maybe_time c in
    let with_start t := Multicopter (par m) (inp m) (flg m) t (_landed_time m) in
    if fleb (_actuator_controls_throttle (inp m)) (sys_min_throttle m) then
      let m := with_start (if _min_thrust_start m =? 0 then time_now_us else _min_thrust_start m) in
      if _state (_freefall_hysteresis h) then (false, m)
      else
        let max_rotation_scaled := fmul (radians (rot_max (par m))) (land_threshold_factor time_now_us m) in
        if fltb max_rotation_scaled (v2_norm (vehicle_angular_velocity c)) then (false, m)
        else if lpos_available time_now_us s && v_z_valid (_vehicle_local_position s)
             then (_state (_ground_contact_hysteresis h), m)
             else ((0 <? _min_thrust_start m) && (8 * _1_s <? elapsed time_now_us (_min_thrust_start m)), m)
    else (false, with_start 0).

Definition mc_get_landed_state (c : cycle) (s : sensors) (h : hystereses) (m : multicopter) : bool * multicopter :=
  let maybe := _state (_maybe_landed_hysteresis h) in
  let time := if negb maybe then 0 else if _landed_time m =? 0 then landed_time c else _landed_time m in
  let m := Multicopter (par m) (inp m) (flg m) (_min_thrust_start m) time in
  (if negb (_armed s) then true else maybe, m).

#[export] Instance multicopter_vehicle : Vehicle multicopter := {
  constructed h := h;
  _update_params := mc_update_params;
  _update_topics := mc_update_topics;
  _set_hysteresis_factor := mc_set_hysteresis_factor;
  _get_freefall_state := mc_get_freefall_state;
  _get_ground_contact_state := mc_get_ground_contact_state;
  _get_maybe_landed_state := mc_get_maybe_landed_state;
  _get_landed_state := mc_get_landed_state;
  _get_ground_effect_state := mc_get_ground_effect_state;
  _get_max_altitude := mc_get_max_altitude;
  _get_in_descend m := _in_descend (flg m);
  _get_has_low_throttle m := _has_low_throttle (flg m);
  _get_horizontal_movement m := _horizontal_movement (flg m);
  _get_vertical_movement m := _vertical_movement (flg m);
  _get_close_to_ground_or_skipped_check m := _close_to_ground_or_skipped_check (flg m)
}.
End Multicopter.

(** * VtolLandDetector *)

Record vtol := Vtol {
  vtol_mc : multicopter;
  _was_in_air : bool;
  vtol_airspeed_filtered : float;
  _param_lndfw_airspd_max : float
}.

Definition vtol_new : vtol := Vtol multicopter_new false fzero fzero.

Definition is_fixed_wing (s : sensors) : bool :=
  bool_decide (vehicle_type (_vehicle_status s) = VEHICLE_TYPE_FIXED_WING).

Section Vtol.
Context `{Matrix}.

(** A method of the multicopter part. *)
Definition lift_mc (f : multicopter -> bool * multicopter) (w : vtol) : bool * vtol :=
  let '(b, m) := f (vtol_mc w) in (b, Vtol m (_was_in_air w) (vtol_airspeed_filtered w) (_param_lndfw_airspd_max w)).

Definition vtol_update_params (p : land_params) (w : vtol) : vtol * list effect :=
  let '(m, out) := mc_update_params p (vtol_mc w) in
  (Vtol m (_was_in_air w) (vtol_airspeed_filtered w) (LNDFW_AIRSPD_MAX p), out).

Definition vtol_update_topics (c : cycle) (w : vtol) : vtol :=
  Vtol (mc_update_topics c (vtol_mc w)) (_was_in_air w) (vtol_airspeed_filtered w) (_param_lndfw_airspd_max w).

Definition vtol_get_maybe_landed_state (c : cycle) (s : sensors) (h : hystereses) (w : vtol) : bool * vtol :=
  if is_fixed_wing s then (negb (_armed s), w) else lift_mc (mc_get_maybe_landed_state c s h) w.

Definition vtol_get_landed_state (c : cycle) (s : sensors) (h : hystereses) (w : vtol) : bool * vtol :=
  if is_fixed_wing s then (negb (_armed s), w)
  else
    let '(landed, m) := mc_get_landed_state c s h (vtol_mc w) in
    let a := airspeed_validated c in
    let speed := if (elapsed (airspeed_time c) (airspeed_timestamp a) <? _1_s) && isfinite (true_airspeed_m_s a)
                 then fadd (fmul (f_dec 95 100) (vtol_airspeed_filtered w)) (fmul (f_dec 5 100) (true_airspeed_m_s a))
                 else fzero in
    let landed := if _was_in_air w && fltb (_param_lndfw_airspd_max w) speed then false else landed in
    (landed, Vtol m (negb landed) speed (_param_lndfw_airspd_max w)).

Definition vtol_get_freefall_state (s : sensors) (w : vtol) : bool :=
  negb (is_fixed_wing s) && mc_get_freefall_state s (vtol_mc w).

#[export] Instance vtol_vehicle : Vehicle vtol := {
  constructed h := h;
  _update_params := vtol_update_params;
  _update_topics := vtol_update_topics;
  _set_hysteresis_factor factor w := mc_set_hysteresis_factor factor (vtol_mc w);
  _get_freefall_state := vtol_get_freefall_state;
  _get_ground_contact_state c s h := lift_mc (mc_get_ground_contact_state c s h);
  _get_maybe_landed_state := vtol_get_maybe_landed_state;
  _get_landed_state := vtol_get_landed_state;
  _get_ground_effect_state w := mc_get_ground_effect_state (vtol_mc w);
  _get_max_altitude w := mc_get_max_altitude (vtol_mc w);
  _get_in_descend w := _in_descend (flg (vtol_mc w));
  _get_has_low_throttle w := _has_low_throttle (flg (vtol_mc w));
  _get_horizontal_movement w := _horizontal_movement (flg (vtol_mc w));
  _get_vertical_movement w := _vertical_movement (flg (vtol_mc w));
  _get_close_to_ground_or_skipped_check w := _close_to_ground_or_skipped_check (flg (vtol_mc w))
}.
End Vtol.

(** * FixedwingLandDetector *)

Record fixedwing := Fixedwing {
  _airspeed_filtered : float;
  _velocity_xy_filtered : float;
  _velocity_z_filtered : float;
  _xy_accel_filtered : float;
  _param_lndfw_xyaccel_max : float;
  _param_lndfw_airspd : float;
  _param_lndfw_vel_xy_max : float;
  _param_lndfw_vel_z_max : float
}.

Definition fixedwing_new : fixedwing := Fixedwing fzero fzero fzero fzero fzero fzero fzero fzero.

Definition LANDED_TRIGGER_TIME_US : Z := 2000000.
Definition FLYING_TRIGGER_TIME_US : Z := 0.

Definition fw_constructed (h : hystereses) : hystereses :=
  Hystereses (_freefall_hysteresis h)
    (set_hysteresis_time_from true FLYING_TRIGGER_TIME_US
       (set_hysteresis_time_from false LANDED_TRIGGER_TIME_US (_landed_hysteresis h)))
    (_maybe_landed_hysteresis h) (_ground_contact_hysteresis h) (_ground_effect_hysteresis h).

(** A filter keeps its value when the new one is not a number. *)
Definition if_finite (val old : float) : float := if isfinite val then val else old.

Section Fixedwing.
Context `{Matrix}.

Definition fw_get_landed_state (c : cycle) (s : sensors) (h : hystereses) (w : fixedwing) : bool * fixedwing :=
  let lpos := _vehicle_local_position s in
  if negb (_armed s) then (true, w)
  else if elapsed (landed_time c) (lpos_timestamp lpos) <? _1_s then
    let speed := fsqrt (fadd (fmul (lpos_vx lpos) (lpos_vx lpos)) (fmul (lpos_vy lpos) (lpos_vy lpos))) in
    let xy_filtered := if_finite (fadd (fmul (f_dec 97 100) (_velocity_xy_filtered w)) (fmul (f_dec 3 100) speed))
                         (_velocity_xy_filtered w) in
    let z_filtered := if_finite (fadd (fmul (f_dec 99 100) (_velocity_z_filtered w))
                                   (fmul (f_dec 1 100) (fabs (lpos_vz lpos))))
                        (_velocity_z_filtered w) in
    let a := airspeed_validated c in
    let airspeed := if negb (isfinite (true_airspeed_m_s a))
                       || (_1_s <? elapsed (airspeed_time c) (airspeed_timestamp a))
                    then fzero
                    else fadd (fmul (f_dec 95 100) (_airspeed_filtered w)) (fmul (f_dec 5 100) (true_airspeed_m_s a)) in
    let acc_hor := v2_norm (xy (_acceleration s)) in
    let accel := fadd (fmul (_xy_accel_filtered w) (f_dec 8 10)) (fmul acc_hor (f_dec 18 100)) in
    (fltb airspeed (_param_lndfw_airspd w) && fltb xy_filtered (_param_lndfw_vel_xy_max w)
     && fltb z_filtered (_param_lndfw_vel_z_max w) && fltb accel (_param_lndfw_xyaccel_max w),
     Fixedwing airspeed xy_filtered z_filtered accel (_param_lndfw_xyaccel_max w) (_param_lndfw_airspd w)
       (_param_lndfw_vel_xy_max w) (_param_lndfw_vel_z_max w))
  else (true, w).

Definition fw_update_params (p : land_params) (w : fixedwing) : fixedwing * list effect :=
  (Fixedwing (_airspeed_filtered w) (_velocity_xy_filtered w) (_velocity_z_filtered w) (_xy_accel_filtered w)
     (LNDFW_XYACC_MAX p) (LNDFW_AIRSPD_MAX p) (LNDFW_VEL_XY_MAX p) (LNDFW_VEL_Z_MAX p), []).

(** The methods it does not override are those of the base class. *)
#[export] Instance fixedwing_vehicle : Vehicle fixedwing := {
  constructed := fw_constructed;
  _update_params := fw_update_params;
  _update_topics c w := w;
  _set_hysteresis_factor factor w h := h;
  _get_freefall_state s w := false;
  _get_ground_contact_state c s h w := (false, w);
  _get_maybe_landed_state c s h w := (false, w);
  _get_landed_state := fw_get_landed_state;
  _get_ground_effect_state w := false;
  _get_max_altitude w := INFINITY;
  _get_in_descend w := false;
  _get_has_low_throttle w := false;
  _get_horizontal_movement w := false;
  _get_vertical_movement w := false;
  _get_close_to_ground_or_skipped_check w := false
}.
End Fixedwing.

(** * RoverLandDetector and AirshipLandDetector *)

(** Both are without a state of their own. *)
Inductive rover := Rover.
Inductive airship := Airship.

Definition simple_landed_state (s : sensors) : bool :=
  if decide (nav_state (_vehicle_status s) = NAVIGATION_STATE_AUTO_LAND) then true else negb (_armed s).

#[export] Instance rover_vehicle : Vehicle rover := {
  constructed h := h;
  _update_params p w := (w, []);
  _update_topics c w := w;
  _set_hysteresis_factor factor w h := h;
  _get_freefall_state s w := false;
  _get_ground_contact_state c s h w := (true, w);
  _get_maybe_landed_state c s h w := (false, w);
  _get_landed_state c s h w := (simple_landed_state s, w);
  _get_ground_effect_state w := false;
  _get_max_altitude w := INFINITY;
  _get_in_descend w := false;
  _get_has_low_throttle w := false;
  _get_horizontal_movement w := false;
  _get_vertical_movement w := false;
  _get_close_to_ground_or_skipped_check w := false
}.

#[export] Instance airship_vehicle : Vehicle airship := {
  constructed h := h;
  _update_params p w := (w, []);
  _update_topics c w := w;
  _set_hysteresis_factor factor w h := h;
  _get_freefall_state s w := false;
  _get_ground_contact_state c s h w := (false, w);
  _get_maybe_landed_state c s h w := (false, w);
  _get_landed_state c s h w := (simple_landed_state s, w);
  _get_ground_effect_state w := false;
  _get_max_altitude w := INFINITY;
  _get_in_descend w := false;
  _get_has_low_throttle w := false;
  _get_horizontal_movement w := false;
  _get_vertical_movement w := false;
  _get_close_to_ground_or_skipped_check w := false
}.
