(* ===== verification/LandSafety.v ===== *)
(** What the land detector guarantees: a landing takes its time and a take-off
    does not, the flight time survives in its parameters, and a filter of the
    fixed-wing detector that one bad sample stops. *)

From Stdlib Require Import ZArith Lia SpecFloat.
From stdpp Require Import base list numbers option.
From S2P Require Import Prelude Float32 EsoVector Hysteresis EsoTakeoff Commander LandDetector.

Local Open Scope Z_scope.

Section Histories.
Context `{Matrix} {V : Type} `{!Vehicle V}.

(** The state after a list of cycles. *)
Definition run (cs : list cycle) (d : land_detector V) : land_detector V := fold_left (fun d c => (Run c d).1) cs d.

(** Publishing and counting the flight time leave the rest of the state. *)
Lemma publish_rest c (d : land_detector V) :
  hyst (publish_land c d).1 = hyst d /\ sens (publish_land c d).1 = sens d /\ vehicle (publish_land c d).1 = vehicle d.
Proof. destruct d. cbn. by destruct (worth_publishing _ _ _ _). Qed.
Lemma count_rest c (d : land_detector V) :
  hyst (count_flight_time c d).1 = hyst d /\ sens (count_flight_time c d).1 = sens d
  /\ vehicle (count_flight_time c d).1 = vehicle d /\ _land_detected (count_flight_time c d).1 = _land_detected d.
Proof. destruct d. cbn. by destruct (_ && _ && _). Qed.

(** The states a cycle leaves. *)
Lemma Run_states c (d : land_detector V) :
  let v := _update_topics c (vehicle (read_params c d).1) in
  let hv := update_states c (update_sensors c (sens d)) (hyst d) v in
  hyst (Run c d).1 = hv.1 /\ sens (Run c d).1 = update_sensors c (sens d) /\ vehicle (Run c d).1 = hv.2.
Proof.
  assert (Hr : hyst (read_params c d).1 = hyst d /\ sens (read_params c d).1 = sens d).
  { unfold read_params. case_match; [|done]. by destruct (_update_params _ _). }
  unfold Run. destruct (read_params c d) as [d' out]. cbn [fst] in *. destruct Hr as [-> ->]. cbn zeta.
  destruct (update_states _ _ _ _) as [h v]. cbn [fst snd].
  match goal with |- context [publish_land c ?x] => pose proof (publish_rest c x); destruct (publish_land c x) as [d1 out1] end.
  pose proof (count_rest c d1). destruct (count_flight_time c d1) as [d2 out2]. cbn in *. intuition congruence.
Qed.

(** What a cycle publishes is the state of the hystereses, unless nothing has
    changed. *)
Lemma Run_published c (d : land_detector V) :
  landed (_land_detected (Run c d).1) = _state (_landed_hysteresis (hyst (Run c d).1))
  /\ maybe_landed (_land_detected (Run c d).1) = _state (_maybe_landed_hysteresis (hyst (Run c d).1))
  /\ ground_contact (_land_detected (Run c d).1) = _state (_ground_contact_hysteresis (hyst (Run c d).1)).
Proof.
  unfold Run. destruct (read_params c d) as [d' out]. destruct (update_states _ _ _ _) as [h v].
  match goal with |- context [publish_land c ?x] => set (d1 := x) end.
  assert (Hp : let l := _land_detected (publish_land c d1).1 in
               landed l = _state (_landed_hysteresis h) /\ maybe_landed l = _state (_maybe_landed_hysteresis h)
               /\ ground_contact l = _state (_ground_contact_hysteresis h)).
  { subst d1. cbn. destruct (worth_publishing _ _ _ _) eqn:E; [done|]. cbn. unfold worth_publishing in E.
    repeat (apply orb_false_iff in E as [E ?]). rewrite !negb_false_iff, !eqb_true_iff in *. done. }
  pose proof (publish_rest c d1) as (Hh & _). destruct (publish_land c d1) as [d2 out2]. cbn [fst] in *.
  pose proof (count_rest c d2) as (Hh2 & _ & _ & Hl). destruct (count_flight_time c d2) as [d3 out3]. cbn [fst] in *.
  rewrite Hh2, Hl, Hh. exact Hp.
Qed.

Lemma run_published cs : forall c (d : land_detector V),
  landed (_land_detected (run cs (Run c d).1)) = _state (_landed_hysteresis (hyst (run cs (Run c d).1))).
Proof. induction cs as [|c' cs IH]; intros c d; [apply Run_published | apply (IH c' (Run c d).1)]. Qed.
End Histories.

(** * The flight time *)

Lemma s32_cong x : 0 <= x < 2 ^ 32 -> exists k, s32 x = x - k * 2 ^ 32.
Proof.
  intros Hx. exists ((x + 2147483648) / 2 ^ 32). unfold s32, u32.
  change 4294967296 with (2 ^ 32). rewrite Z.mod_eq by lia. lia.
Qed.

Lemma flight_time_split t : 0 <= t < 2 ^ 64 -> flight_time_of (flight_time_hi t) (flight_time_lo t) = t.
Proof.
  intros Ht. unfold flight_time_of, flight_time_hi, flight_time_lo.
  change 0xffffffff with (Z.ones 32). rewrite !Z.land_ones, Z.shiftr_div_pow2, Z.shiftl_mul_pow2 by lia.
  assert (Hhi : 0 <= t / 2 ^ 32 < 2 ^ 32)
    by (split; [apply Z.div_pos; lia | apply Z.div_lt_upper_bound; lia]).
  pose proof (Z.mod_pos_bound t (2 ^ 32) ltac:(lia)) as Hlo.
  rewrite (Z.mod_small (t / 2 ^ 32)) by lia.
  destruct (s32_cong _ Hhi) as [k ->]. destruct (s32_cong _ Hlo) as [j ->].
  unfold u64, u32. change 18446744073709551616 with (2 ^ 32 * 2 ^ 32). change 4294967296 with (2 ^ 32).
  rewrite Zmult_mod_distr_r. rewrite Z.mod_mod_divide by by exists (2 ^ 32).
  replace (t / 2 ^ 32 - k * 2 ^ 32) with (t / 2 ^ 32 + (- k) * 2 ^ 32) by lia.
  replace (t `mod` 2 ^ 32 - j * 2 ^ 32) with (t `mod` 2 ^ 32 + (- j) * 2 ^ 32) by lia.
  rewrite !Z_mod_plus_full, Z.mod_mod, (Z.mod_small (t / 2 ^ 32)) by lia.
  rewrite <- Z.shiftl_mul_pow2, <- Z.shiftr_div_pow2, <- Z.land_ones by lia.
  apply Z.bits_inj'. intros n Hn. rewrite Z.lor_spec, Z.land_spec, Z.shiftl_spec, Z.testbit_ones_nonneg by lia.
  destruct (Z.ltb_spec n 32).
  - rewrite Z.testbit_neg_r by lia. by rewrite andb_true_r.
  - rewrite Z.shiftr_spec, andb_false_r, orb_false_r by lia. f_equal. lia.
Qed.

(** Everything a cycle stores. *)
Definition stores (out : list effect) (hi lo : Z) : Prop := In (StoreFlightTime hi lo) out.

Section FlightTime.
Context {V : Type} `{!Vehicle V}.

(** What the flight time becomes at the end of a cycle. *)
Lemma count_flight_time_stores c (d : land_detector V) hi lo :
  stores (count_flight_time c d).2 hi lo ->
  let total := u64 (_total_flight_time d + elapsed (now_us c) (_takeoff_time d)) in
  hi = flight_time_hi total /\ lo = flight_time_lo total
  /\ _total_flight_time (count_flight_time c d).1 = total /\ _takeoff_time (count_flight_time c d).1 = 0.
Proof.
  unfold stores. destruct d as [h s v prev l takeoff total]. cbn.
  destruct (negb (takeoff =? 0) && negb (_armed s) && prev); cbn; [|done]. by intros [[= <- <-]|].
Qed.

Lemma publish_log c (d : land_detector V) :
  _total_flight_time (publish_land c d).1 = _total_flight_time d
  /\ (_takeoff_time d <> 0 -> _takeoff_time (publish_land c d).1 = _takeoff_time d)
  /\ forall hi lo, ~ stores (publish_land c d).2 hi lo.
Proof.
  destruct d as [h s v prev l takeoff total]. unfold stores. cbn. destruct (worth_publishing _ _ _ _); cbn; [|intuition].
  split_and!; [done | | by intros ? ? [|]]. intros Hn. apply Z.eqb_neq in Hn. by rewrite Hn, andb_false_r.
Qed.

(** The methods of a vehicle do not touch the stored flight time. *)
Class StoresNothing : Prop :=
  update_params_stores p (v : V) hi lo : ~ stores (_update_params p v).2 hi lo.

Lemma Run_stores `{!StoresNothing} c (d : land_detector V) hi lo :
  stores (Run c d).2 hi lo -> _takeoff_time d <> 0 ->
  let total := u64 (_total_flight_time (read_params c d).1 + elapsed (now_us c) (_takeoff_time d)) in
  hi = flight_time_hi total /\ lo = flight_time_lo total /\ _total_flight_time (Run c d).1 = total
  /\ _takeoff_time (Run c d).1 = 0.
Proof.
  intros Hs Ht. assert (Hr : ~ stores (read_params c d).2 hi lo /\ _takeoff_time (read_params c d).1 = _takeoff_time d).
  { unfold read_params. case_match; [|by split; [intros []|]].
    pose proof (update_params_stores (parameters c) (vehicle d) hi lo). by destruct (_update_params _ _). }
  unfold Run in *. destruct (read_params c d) as [d' out1]. destruct Hr as [Hr Ht']. cbn [fst snd] in *.
  destruct (update_states _ _ _ _) as [h v].
  match type of Hs with context [publish_land c ?x] => pose proof (publish_log c x) as (Hp1 & Hp2 & Hp3);
    destruct (publish_land c x) as [d1 out2] end. cbn [fst snd _total_flight_time _takeoff_time] in *.
  pose proof (count_flight_time_stores c d1 hi lo) as Hc. destruct (count_flight_time c d1) as [d2 out3].
  cbn [fst snd] in *. unfold stores in *. rewrite !in_app_iff in Hs. destruct Hs as [Hs|[Hs|Hs]]; [done | by destruct (Hp3 hi lo) |].
  destruct (Hc Hs) as (-> & -> & -> & ->). rewrite Hp1, Hp2, Ht' by congruence. done.
Qed.
End FlightTime.

#[export] Instance multicopter_stores `{Matrix} : StoresNothing (V := multicopter).
Proof. intros p v hi lo. unfold stores. cbn. unfold mc_update_params. cbn. destruct (fltb _ _); cbn; [by intros [|] | tauto]. Qed.
#[export] Instance vtol_stores `{Matrix} : StoresNothing (V := vtol).
Proof.
  intros p v hi lo. unfold stores. cbn. unfold vtol_update_params, mc_update_params. cbn.
  destruct (fltb _ _); cbn; [by intros [|] | tauto].
Qed.
#[export] Instance fixedwing_stores `{Matrix} : StoresNothing (V := fixedwing).
Proof. intros p v hi lo []. Qed.
#[export] Instance rover_stores : StoresNothing (V := rover).
Proof. intros p v hi lo []. Qed.
#[export] Instance airship_stores : StoresNothing (V := airship).
Proof. intros p v hi lo []. Qed.

(** The flight time is kept.  When a cycle ends a flight, for any of the five
    vehicles, the time since the take-off is added to the total, and the two
    32-bit parameters it stores give exactly this total, with all its 64 bits,
    to the next cycle that reads them. *)
Theorem flight_time_kept `{Matrix} {V : Type} `{!Vehicle V} `{!StoresNothing (V := V)}
    (c c' : cycle) (d : land_detector V) (hi lo : Z) :
  stores (Run c d).2 hi lo -> _takeoff_time d <> 0 ->
  parameter_update c' = true -> LND_FLIGHT_T_HI (parameters c') = hi -> LND_FLIGHT_T_LO (parameters c') = lo ->
  _total_flight_time (read_params c' (Run c d).1).1
  = u64 (_total_flight_time (read_params c d).1 + elapsed (now_us c) (_takeoff_time d)).
Proof.
  intros Hs Ht Hu Hhi Hlo. destruct (Run_stores c d hi lo Hs Ht) as (E1 & E2 & _).
  unfold read_params at 1. rewrite Hu. cbn [orb]. destruct (_update_params _ _) as [v out]. cbn [fst _total_flight_time].
  rewrite Hhi, Hlo, E1, E2. apply flight_time_split. apply Z.mod_pos_bound. lia.
Qed.

(** * The multicopter *)

Section Multicopter.
Context `{Matrix}.

(** Towards false there is no delay. *)
Definition falls_at_once (h : hystereses) : Prop :=
  _time_from_true_us (_landed_hysteresis h) = 0 /\ _time_from_true_us (_maybe_landed_hysteresis h) = 0
  /\ _time_from_true_us (_ground_contact_hysteresis h) = 0.

(** The throttle is at its minimum. *)
Definition idle (m : multicopter) : bool := fleb (_actuator_controls_throttle (inp m)) (sys_min_throttle m).

(** What ground contact needs of an armed vehicle. *)
Definition touching (m : multicopter) : bool :=
  _close_to_ground_or_skipped_check (flg m) && _has_low_throttle (flg m)
  && negb (_horizontal_movement (flg m)) && negb (_vertical_movement (flg m)).

(** The vertical velocity was measured in this cycle. *)
Definition measured (c : cycle) (s : sensors) : bool :=
  lpos_available (maybe_time c) s && v_z_valid (_vehicle_local_position s).

(** The methods change only the flags and the two time stamps. *)
Lemma contact_rest c s h m :
  par (mc_get_ground_contact_state c s h m).2 = par m /\ inp (mc_get_ground_contact_state c s h m).2 = inp m.
Proof. done. Qed.
Lemma maybe_rest c s h m :
  let m' := (mc_get_maybe_landed_state c s h m).2 in par m' = par m /\ inp m' = inp m /\ flg m' = flg m.
Proof. unfold mc_get_maybe_landed_state. by repeat case_match. Qed.

Lemma contact_touching c s h m :
  _armed s = true -> (mc_get_ground_contact_state c s h m).1 = true ->
  touching (mc_get_ground_contact_state c s h m).2 = true.
Proof.
  intros Ha. unfold mc_get_ground_contact_state, touching. rewrite Ha. cbn [negb fst snd flg _close_to_ground_or_skipped_check
    _has_low_throttle _horizontal_movement _vertical_movement].
  rewrite !andb_true_iff. intros (((H1 & H2) & H3) & H4). split_and!; try done.
  by destruct (_ && _ && _) in H2; [apply andb_true_iff in H2 as [? _]|].
Qed.

Lemma maybe_idle c s h m : _armed s = true -> (mc_get_maybe_landed_state c s h m).1 = true -> idle m = true.
Proof. intros Ha. unfold mc_get_maybe_landed_state, idle. rewrite Ha. by destruct (fleb _ _). Qed.

(** A descent is commanded, where the climb rate is controlled. *)
Definition descending (m : multicopter) : bool :=
  negb (_flag_control_climb_rate_enabled (inp m)) || _in_descend (flg m).

(** The rotation is below the limit, whatever the factor on it. *)
Definition still (c : cycle) (m : multicopter) : bool :=
  forallb (fun f => negb (fltb (fmul (radians (rot_max (par m))) f) (v2_norm (vehicle_angular_velocity c))))
    [f_of_Z 5; f_dec 5 2; fone].

Lemma touching_contact c s h m :
  let r := mc_get_ground_contact_state c s h m in touching r.2 = true -> descending r.2 = true -> r.1 = true.
Proof.
  cbv zeta. unfold mc_get_ground_contact_state, touching, descending.
  cbn [fst snd inp flg _close_to_ground_or_skipped_check
    _has_low_throttle _horizontal_movement _vertical_movement _in_descend]. destruct (negb (_armed s)); [done|].
  rewrite !andb_true_iff. intros (((-> & H2) & ->) & ->) Hd. split_and!; try done.
  destruct (_flag_control_climb_rate_enabled (inp m)); cbn [negb orb andb] in *; [|done].
  rewrite Hd. by destruct (negb _ && negb _); rewrite ?andb_true_r.
Qed.

Lemma still_maybe c s h m :
  _armed s = true -> measured c s = true -> idle m = true -> _state (_freefall_hysteresis h) = false -> still c m = true ->
  (mc_get_maybe_landed_state c s h m).1 = _state (_ground_contact_hysteresis h).
Proof.
  intros Ha Hm Hi Hf Hs. unfold mc_get_maybe_landed_state, measured, idle, still in *. rewrite Ha, Hi, Hf, Hm.
  cbn [forallb] in Hs. rewrite !andb_true_iff, !negb_true_iff in Hs. destruct Hs as (H1 & H2 & H3 & _).
  cbn [negb par]. set (w := land_threshold_factor _ _).
  assert (Hw : fltb (fmul (radians (rot_max (par m))) w) (v2_norm (vehicle_angular_velocity c)) = false)
    by (subst w; unfold land_threshold_factor; repeat case_match; done).
  by rewrite Hw.
Qed.

Lemma maybe_contact c s h m :
  _armed s = true -> measured c s = true -> (mc_get_maybe_landed_state c s h m).1 = true ->
  _state (_ground_contact_hysteresis h) = true.
Proof. intros Ha Hm. unfold mc_get_maybe_landed_state. rewrite Ha. unfold measured in Hm. rewrite Hm. by repeat case_match. Qed.

(** The hystereses after the factor has been set. *)
Lemma factor_times factor (m : multicopter) h :
  falls_at_once h -> falls_at_once (mc_set_hysteresis_factor factor m h).
Proof. by intros (? & ? & ?). Qed.

(** One cycle in terms of the three inputs: each hysteresis takes its input, and
    what the inputs imply. *)
Lemma update_states_inputs c s h (m : multicopter) :
  _armed s = true ->
  let T := third_of_trigger (trig_time (par m))
             (if _dist_bottom_is_observable s && negb (dist_bottom_valid (_vehicle_local_position s)) then 3 else 1) in
  let '(h', m') := update_states c s h m in
  exists contact maybe,
    _ground_contact_hysteresis h'
    = set_state_and_update contact (now_us c) (set_hysteresis_time_from false T (_ground_contact_hysteresis h))
    /\ _maybe_landed_hysteresis h'
       = set_state_and_update maybe (now_us c) (set_hysteresis_time_from false T (_maybe_landed_hysteresis h))
    /\ _landed_hysteresis h'
       = set_state_and_update (_state (_maybe_landed_hysteresis h')) (now_us c)
           (set_hysteresis_time_from false T (_landed_hysteresis h))
    /\ par m' = par m /\ inp m' = inp m
    /\ (contact = true -> touching m' = true) /\ (maybe = true -> idle m' = true)
    /\ (measured c s = true -> maybe = true -> _state (_ground_contact_hysteresis h') = true)
    /\ (touching m' = true -> descending m' = true -> contact = true)
    /\ (measured c s = true -> idle m' = true -> _state (_freefall_hysteresis h') = false -> still c m' = true ->
        maybe = _state (_ground_contact_hysteresis h')).
Proof.
  intros Ha T. unfold update_states. cbn [_set_hysteresis_factor multicopter_vehicle mc_set_hysteresis_factor].
  destruct h as [ff ld ml gc ge]. cbn [_freefall_hysteresis _landed_hysteresis _maybe_landed_hysteresis
    _ground_contact_hysteresis _ground_effect_hysteresis _get_freefall_state _get_ground_contact_state
    _get_maybe_landed_state _get_landed_state multicopter_vehicle].
  fold T. set (ff' := set_state_and_update _ _ (set_hysteresis_time_from false FREEFALL_TRIGGER_TIME_US ff)).
  set (h1 := Hystereses ff' _ _ _ _).
  pose proof (contact_touching c s h1 m Ha) as H1. pose proof (touching_contact c s h1 m) as T1. cbv zeta in T1. pose proof (contact_rest c s h1 m) as [H2 H3].
  destruct (mc_get_ground_contact_state c s h1 m) as [contact m1]. cbn [fst snd] in *.
  set (h2 := Hystereses ff' (set_hysteresis_time_from false T ld) (set_hysteresis_time_from false T ml)
               (set_state_and_update contact (now_us c) (set_hysteresis_time_from false T gc)) ge).
  pose proof (maybe_idle c s h2 m1 Ha) as H4. pose proof (maybe_rest c s h2 m1) as (H5 & H6 & H7).
  pose proof (maybe_contact c s h2 m1 Ha) as H8. pose proof (still_maybe c s h2 m1 Ha) as S1.
  destruct (mc_get_maybe_landed_state c s h2 m1) as [maybe m2]. cbn [fst snd] in *.
  unfold mc_get_landed_state. rewrite Ha. cbn [negb _landed_hysteresis _maybe_landed_hysteresis _ground_contact_hysteresis].
  exists contact, maybe. split_and!; try done; cbn [par inp flg].
  - congruence.
  - congruence.
  - unfold touching in *. cbn [flg]. by rewrite H7.
  - intros Hm. specialize (H4 Hm). unfold idle, sys_min_throttle in *. cbn [par inp] in *. by rewrite H5, H6.
  - unfold touching, descending in *. cbn [flg inp]. by rewrite H6, H7.
  - unfold idle, sys_min_throttle, still in *. cbn [par inp _freefall_hysteresis]. rewrite H5, H6. intros. by apply S1.
Qed.

Lemma falls_set T now v h :
  _time_from_true_us h = 0 ->
  _time_from_true_us (set_state_and_update v now (set_hysteresis_time_from false T h)) = 0.
Proof. intros Hh. by destruct (hysteresis_times v now (set_hysteresis_time_from false T h)) as [-> _]. Qed.

Lemma falls_step c s h (m : multicopter) : falls_at_once h -> falls_at_once (update_states c s h m).1.
Proof.
  intros (H1 & H2 & H3). unfold update_states. cbn [_set_hysteresis_factor multicopter_vehicle mc_set_hysteresis_factor].
  destruct h as [ff ld ml gc ge]. cbn [_freefall_hysteresis _landed_hysteresis _maybe_landed_hysteresis
    _ground_contact_hysteresis _ground_effect_hysteresis _get_freefall_state _get_ground_contact_state
    _get_maybe_landed_state _get_landed_state multicopter_vehicle] in *.
  do 3 match goal with |- context [let (_, _) := ?x in _] => destruct x as [? ?] end.
  unfold falls_at_once. cbn [fst _landed_hysteresis _maybe_landed_hysteresis _ground_contact_hysteresis].
  split_and!; by apply falls_set.
Qed.

Lemma falls_run st cs : falls_at_once (hyst (run cs (land_detector_new st multicopter_new))).
Proof.
  unfold run. rewrite <- fold_left_rev_right. induction (rev cs) as [|c l IH]; [done|]. cbn [foldr].
  destruct (Run_states c (foldr (fun c d => (Run c d).1) (land_detector_new st multicopter_new) l)) as (-> & _).
  by apply falls_step.
Qed.

(** What an observer of the cycles knows of a flight: since when the throttle has
    been at its minimum, since when the vehicle has been touching the ground, and
    whether its vertical velocity was measured throughout. *)
Record flight_log := Flight_log {
  idle_since : option Z;
  touching_since : option Z;
  always_measured : bool;
  last_time : Z
}.

Definition observe_cycle (o : flight_log) (c : cycle) (d : land_detector multicopter) : flight_log :=
  Flight_log (raised (idle_since o) (idle (vehicle d)) (now_us c))
    (raised (touching_since o) (touching (vehicle d)) (now_us c))
    (always_measured o && measured c (sens d)) (now_us c).

Fixpoint observed (cs : list cycle) (d : land_detector multicopter) (o : flight_log) : flight_log :=
  match cs with
  | [] => o
  | c :: cs => let d := (Run c d).1 in observed cs d (observe_cycle o c d)
  end.

(** The factor of the hysteresis times in a cycle: three while the distance to the
    ground should be measured but is not valid. *)
Definition factor_in_force (s : sensors) : Z :=
  if _dist_bottom_is_observable s && negb (dist_bottom_valid (_vehicle_local_position s)) then 3 else 1.

(** The cycles of a flight: armed, in the order of their time, the time of a stage
    (a third of the trigger time, times the factor in force) between [T] and
    [U]. *)
Fixpoint flight_of (T U : Z) (cs : list cycle) (d : land_detector multicopter) (last : Z) : Prop :=
  match cs with
  | [] => True
  | c :: cs =>
      let d := (Run c d).1 in
      _armed (sens d) = true /\ last <= now_us c < 2 ^ 64
      /\ T <= third_of_trigger (trig_time (par (vehicle d))) (factor_in_force (sens d)) <= U
      /\ flight_of T U cs d (now_us c)
  end.

(** The hystereses of a flight, each behind the one before it. *)
Definition landing_chain (T U : Z) (o : flight_log) (d : land_detector multicopter) : Prop :=
  let now := last_time o in
  let h := hyst d in
  exists rc rm rl,
    tracks T U now rc (_ground_contact_hysteresis h) /\ tracks T U now rm (_maybe_landed_hysteresis h)
    /\ tracks T U now rl (_landed_hysteresis h)
    /\ chain 0 (touching_since o) rc /\ chain 0 (idle_since o) rm /\ chain T rm rl
    /\ (always_measured o = true -> chain T rc rm)
    /\ (forall t, idle_since o = Some t -> t <= now) /\ (forall t, touching_since o = Some t -> t <= now).

(** One cycle of a flight: what the inputs of the three hystereses are, and that
    they keep track of them. *)
Lemma cycle_tracks T U c d last rc rm rl :
  tracks T U last rc (_ground_contact_hysteresis (hyst d)) -> tracks T U last rm (_maybe_landed_hysteresis (hyst d)) ->
  tracks T U last rl (_landed_hysteresis (hyst d)) -> 0 <= last -> flight_of T U [c] d last ->
  let d' := (Run c d).1 in
  let h := hyst d' in
  exists contact maybe,
    tracks T U (now_us c) (raised rc contact (now_us c)) (_ground_contact_hysteresis h)
    /\ tracks T U (now_us c) (raised rm maybe (now_us c)) (_maybe_landed_hysteresis h)
    /\ tracks T U (now_us c) (raised rl (_state (_maybe_landed_hysteresis h)) (now_us c)) (_landed_hysteresis h)
    /\ (contact = true -> touching (vehicle d') = true) /\ (maybe = true -> idle (vehicle d') = true)
    /\ (measured c (sens d') = true -> maybe = true -> _state (_ground_contact_hysteresis h) = true)
    /\ (touching (vehicle d') = true -> descending (vehicle d') = true -> contact = true)
    /\ (measured c (sens d') = true -> idle (vehicle d') = true -> _state (_freefall_hysteresis h) = false ->
        still c (vehicle d') = true -> maybe = _state (_ground_contact_hysteresis h)).
Proof.
  intros Hc Hm Hl H0 (Ha & Hn & HT & _). cbv zeta. destruct (Run_states c d) as (Eh & Es & Ev). rewrite Es in Ha.
  pose proof (update_states_inputs c _ (hyst d) (_update_topics c (vehicle (read_params c d).1)) Ha) as Hu.
  cbn zeta in Hu. set (T' := third_of_trigger _ _) in Hu.
  rewrite Es, Ev, Eh. destruct (update_states _ _ _ _) as [h v]. cbn [fst snd] in *.
  destruct Hu as (contact & maybe & Ec & Em & El & Ep & _ & Hin).
  assert (HT' : T <= T' <= U) by (rewrite Es, Ev, Ep in HT; exact HT).
  exists contact, maybe. split; [|split; [|split; [|exact Hin]]].
  - rewrite Ec. apply (tracks_step _ _ last); [by apply tracks_set_time | lia | lia | exact HT'].
  - rewrite Em. apply (tracks_step _ _ last); [by apply tracks_set_time | lia | lia | exact HT'].
  - rewrite El. apply (tracks_step _ _ last); [by apply tracks_set_time | lia | lia | exact HT'].
Qed.

Lemma chain_cycle T U o c d :
  landing_chain T U o d -> 0 <= last_time o -> flight_of T U [c] d (last_time o) ->
  landing_chain T U (observe_cycle o c (Run c d).1) (Run c d).1.
Proof.
  intros (rc & rm & rl & Hc & Hm & Hl & C1 & C2 & C3 & C4 & L1 & L2) H0 Hf.
  destruct (cycle_tracks T U c d _ rc rm rl Hc Hm Hl H0 Hf) as (contact & maybe & Hc' & Hm' & Hl' & Ht & Hi & Hq & _).
  destruct Hf as (_ & Hn & _). exists (raised rc contact (now_us c)), (raised rm maybe (now_us c)),
    (raised rl (_state (_maybe_landed_hysteresis (hyst (Run c d).1))) (now_us c)).
  unfold observe_cycle. cbn [last_time idle_since touching_since always_measured]. split_and!; try done.
  - apply chain_input; [done | intros t Ht'; specialize (L2 t Ht'); lia | done].
  - apply chain_input; [done | intros t Ht'; specialize (L1 t Ht'); lia | done].
  - by eapply chain_hysteresis.
  - intros [Hal Hms]%andb_true_iff. eapply chain_hysteresis; [by apply C4 | exact Hc' | by apply Hq].
  - apply (raised_le _ _ (last_time o)); [done | lia].
  - apply (raised_le _ _ (last_time o)); [done | lia].
Qed.

Lemma chain_flight T U cs : forall d o,
  landing_chain T U o d -> 0 <= last_time o -> flight_of T U cs d (last_time o) ->
  landing_chain T U (observed cs d o) (run cs d).
Proof.
  induction cs as [|c cs IH]; intros d o HC H0 Hf; [done|]. destruct Hf as (Ha & Hn & HT & Hf).
  apply (IH (Run c d).1 (observe_cycle o c (Run c d).1)); [by apply chain_cycle | cbn; lia | done].
Qed.

(** A cycle in the air starts the chain. *)
Lemma chain_start T U c d :
  falls_at_once (hyst d) -> _armed (sens (Run c d).1) = true ->
  idle (vehicle (Run c d).1) = false -> touching (vehicle (Run c d).1) = false ->
  landing_chain T U (Flight_log None None true (now_us c)) (Run c d).1.
Proof.
  intros (F1 & F2 & F3) Ha Hi Ht. destruct (Run_states c d) as (Eh & Es & Ev). rewrite Es in Ha. rewrite Ev in Hi, Ht.
  pose proof (update_states_inputs c _ (hyst d) (_update_topics c (vehicle (read_params c d).1)) Ha) as Hu.
  cbn zeta in Hu. set (T' := third_of_trigger _ _) in Hu. unfold landing_chain. rewrite Eh.
  destruct (update_states _ _ _ _) as [h v]. cbn [fst snd] in *.
  destruct Hu as (contact & maybe & Ec & Em & El & _ & _ & Htc & Him & _).
  destruct contact; [by rewrite Htc in Ht|]. destruct maybe; [by rewrite Him in Hi|].
  assert (Hm : _state (_maybe_landed_hysteresis h) = false) by (rewrite Em; by apply hysteresis_falls).
  rewrite Hm in El. rewrite Ec, Em, El. exists None, None, None. cbn [last_time idle_since touching_since always_measured].
  split_and!; try (by apply hysteresis_down); try done.
Qed.

(** C12: a landing takes its time.  After any history, let an armed vehicle be
    in the air in a cycle: throttle above its minimum and no ground contact.  If
    later in the flight the detector publishes landed, then the throttle has been
    at its minimum in every cycle for at least two thirds of the trigger time; and
    where the vertical velocity was measured throughout, the vehicle has been
    touching the ground (throttle low, close to the ground if that is known, no
    movement) in every cycle for at least the whole of it. *)
Theorem landing_takes_time (T U : Z) (st : vehicle_status_s) (before cs : list cycle) (c : cycle) :
  let d := (Run c (run before (land_detector_new st multicopter_new))).1 in
  let o := observed cs d (Flight_log None None true (now_us c)) in
  _armed (sens d) = true -> idle (vehicle d) = false -> touching (vehicle d) = false -> 0 <= now_us c ->
  flight_of T U cs d (now_us c) ->
  landed (_land_detected (run cs d)) = true ->
  (exists t, idle_since o = Some t /\ 2 * T <= last_time o - t)
  /\ (always_measured o = true -> exists t, touching_since o = Some t /\ 3 * T <= last_time o - t).
Proof.
  intros d o Ha Hi Ht H0 Hf Hland.
  assert (HC : landing_chain T U o (run cs d)).
  { apply chain_flight; [|done | done]. apply chain_start; try done. apply falls_run. }
  assert (Hs : _state (_landed_hysteresis (hyst (run cs d))) = true).
  { rewrite <- Hland. symmetry. apply run_published. }
  destruct HC as (rc & rm & rl & _ & _ & Hl & C1 & C2 & C3 & C4 & _ & _).
  destruct rl as [t|]; [|by rewrite (tracks_low _ _ _ _ _ Hl eq_refl) in Hs].
  pose proof (tracks_high _ _ _ _ _ Hl t eq_refl Hs). destruct (C3 t eq_refl) as (tm & -> & ?). split.
  - destruct (C2 tm eq_refl) as (t0 & -> & ?). exists t0. split; [done | lia].
  - intros Hm. destruct (C4 Hm tm eq_refl) as (tc & -> & ?). destruct (C1 tc eq_refl) as (t0 & -> & ?).
    exists t0. split; [done | lia].
Qed.

(** A take-off takes no time.  After any history, a cycle that finds the
    vehicle armed and the throttle above its minimum (or not a number) publishes
    that the vehicle has not landed. *)
Theorem takeoff_at_once (st : vehicle_status_s) (before : list cycle) (c : cycle) :
  let d := (Run c (run before (land_detector_new st multicopter_new))).1 in
  _armed (sens d) = true -> idle (vehicle d) = false ->
  landed (_land_detected d) = false /\ maybe_landed (_land_detected d) = false.
Proof.
  intros d Ha Hi. destruct (Run_published c (run before (land_detector_new st multicopter_new))) as (E1 & E2 & _).
  fold d in E1, E2. rewrite E1, E2. clear E1 E2. pose proof (falls_run st before) as (F1 & F2 & _). subst d.
  set (d0 := run before _) in *. destruct (Run_states c d0) as (Eh & Es & Ev). rewrite Es in Ha. rewrite Ev in Hi. rewrite Eh.
  pose proof (update_states_inputs c _ (hyst d0) (_update_topics c (vehicle (read_params c d0).1)) Ha) as Hu.
  cbn zeta in Hu. set (T' := third_of_trigger _ _) in Hu.
  destruct (update_states _ _ _ _) as [h v]. cbn [fst snd] in *. destruct Hu as (contact & maybe & _ & Em & El & _ & _ & _ & Him & _).
  destruct maybe; [by rewrite Him in Hi|].
  assert (Hm : _state (_maybe_landed_hysteresis h) = false) by (rewrite Em; by apply hysteresis_falls).
  rewrite El, Hm. split; [by apply hysteresis_falls | done].
Qed.

(** ** A landing is detected *)

(** A cycle that finds the vehicle at rest on the ground. *)
Definition at_rest (c : cycle) (d : land_detector multicopter) : bool :=
  measured c (sens d) && touching (vehicle d) && descending (vehicle d) && idle (vehicle d) && still c (vehicle d)
  && negb (_state (_freefall_hysteresis (hyst d))).

(** Cycles at rest, each at most [delta] after the one before. *)
Fixpoint resting (delta : Z) (cs : list cycle) (d : land_detector multicopter) (last : Z) : Prop :=
  match cs with
  | [] => True
  | c :: cs => let d := (Run c d).1 in now_us c <= last + delta /\ at_rest c d = true /\ resting delta cs d (now_us c)
  end.

Definition last_now (cs : list cycle) (now : Z) : Z := fold_left (fun _ c => now_us c) cs now.

(** The second input follows the hysteresis of the first: it is up soon after the
    first has been up for [U]. *)
Lemma raised_after T U delta A now now' ra rb h :
  tracks T U now' ra h -> (exists t, ra = Some t /\ t <= A) -> (forall t, rb = Some t -> t <= now) ->
  now <= now' <= now + delta ->
  (A + U <= now -> exists t, rb = Some t /\ t <= A + U + delta) ->
  A + U <= now' -> exists t, raised rb (_state h) now' = Some t /\ t <= A + U + delta.
Proof.
  intros Ht (ta & -> & Hta) Hle Hn Hb HA.
  assert (Hs : _state h = true).
  { destruct (_state h) eqn:E; [done|]. destruct (tracks_wait _ _ _ _ _ Ht ta eq_refl E). lia. }
  rewrite Hs. cbn. eexists. split; [done|]. destruct rb as [t|]; cbn; [|destruct (Z.le_gt_cases (A + U) now) as [HB|]].
  - specialize (Hle t eq_refl). destruct (Z.le_gt_cases (A + U) now) as [HB|]; [|lia].
    destruct (Hb HB) as (t' & [= <-] & ?). lia.
  - by destruct (Hb HB) as (t' & ? & _).
  - lia.
Qed.

(** How far the three states have come, [w] being the time of the first cycle at
    rest. *)
Definition settling (U delta w now : Z) (d : land_detector multicopter) : Prop :=
  exists rc rm rl,
    tracks 0 U now rc (_ground_contact_hysteresis (hyst d)) /\ tracks 0 U now rm (_maybe_landed_hysteresis (hyst d))
    /\ tracks 0 U now rl (_landed_hysteresis (hyst d))
    /\ (exists t, rc = Some t /\ t <= w)
    /\ (w + U <= now -> exists t, rm = Some t /\ t <= w + U + delta)
    /\ (w + U + delta + U <= now -> exists t, rl = Some t /\ t <= w + U + delta + U + delta).

Lemma settling_step U delta w now c d :
  settling U delta w now d -> 0 <= now -> 0 <= delta -> 0 <= U -> flight_of 0 U [c] d now -> now_us c <= now + delta ->
  at_rest c (Run c d).1 = true -> settling U delta w (now_us c) (Run c d).1.
Proof.
  intros (rc & rm & rl & Hc & Hm & Hl & H1 & H2 & H3) H0 Hdl HU Hf Hd Hr.
  destruct (cycle_tracks 0 U c d now rc rm rl Hc Hm Hl H0 Hf) as (contact & maybe & Hc' & Hm' & Hl' & _ & _ & _ & Qc & Qm).
  destruct Hf as (_ & Hn & _). unfold at_rest in Hr. rewrite !andb_true_iff, negb_true_iff in Hr.
  destruct Hr as (((((R1 & R2) & R3) & R4) & R5) & R6).
  rewrite (Qc R2 R3) in Hc'. rewrite (Qm R1 R4 R6 R5) in Hm'.
  eexists _, _, _. split_and!; [exact Hc' | exact Hm' | exact Hl' | | |].
  - destruct H1 as (t & -> & ?). by exists t.
  - apply (raised_after 0 U delta w now _ (raised rc true (now_us c))); [done | | | lia | done].
    + destruct H1 as (t & -> & ?). by exists t.
    + intros t Ht. destruct (tracks_range _ _ _ _ _ Hm t Ht). lia.
  - intros HA. assert (HM : exists t, raised rm (_state (_ground_contact_hysteresis (hyst (Run c d).1))) (now_us c) = Some t
                       /\ t <= w + U + delta).
    { apply (raised_after 0 U delta w now _ (raised rc true (now_us c))); [done | | | lia | done | lia].
      - destruct H1 as (t & -> & ?). by exists t.
      - intros t Ht. destruct (tracks_range _ _ _ _ _ Hm t Ht). lia. }
    apply (raised_after 0 U delta (w + U + delta) now _ _ _ _ Hm' HM); [| lia | done | lia].
    intros t Ht. destruct (tracks_range _ _ _ _ _ Hl t Ht). lia.
Qed.

Lemma settling_run U delta w ws : forall d now,
  settling U delta w now d -> 0 <= now -> 0 <= delta -> 0 <= U -> flight_of 0 U ws d now -> resting delta ws d now ->
  settling U delta w (last_now ws now) (run ws d).
Proof.
  induction ws as [|c ws IH]; intros d now Hs H0 Hd HU Hf Hr; [done|].
  destruct Hf as (F1 & F2 & F3 & F4), Hr as (R1 & R2 & R3).
  apply (IH (Run c d).1 (now_us c)); try done; [|lia]. by apply (settling_step U delta w now).
Qed.

Lemma flight_split T U cs : forall w ws d now,
  flight_of T U (cs ++ w :: ws) d now ->
  flight_of T U cs d now /\ flight_of T U [w] (run cs d) (last_now cs now)
  /\ flight_of T U ws (Run w (run cs d)).1 (now_us w).
Proof.
  induction cs as [|c cs IH]; intros w ws d now Hf; [destruct Hf as (? & ? & ? & ?); done|].
  destruct Hf as (F1 & F2 & F3 & F4). destruct (IH _ _ _ _ F4) as (G1 & G2 & G3). done.
Qed.

Lemma observed_last cs : forall d o, last_time (observed cs d o) = last_now cs (last_time o).
Proof. induction cs as [|c cs IH]; intros d o; [done|]. cbn. by rewrite IH. Qed.

Lemma last_now_ge T U cs : forall d now, flight_of T U cs d now -> now <= last_now cs now.
Proof.
  induction cs as [|c cs IH]; intros d now Hf; [cbn; lia|]. destruct Hf as (_ & F2 & _ & F4).
  specialize (IH _ _ F4). change (last_now (c :: cs) now) with (last_now cs (now_us c)). lia.
Qed.

(** C13: a landing is detected.  Let a flight come from a cycle in the air, and let
    the vehicle be at rest from some cycle on: throttle minimal, ground contact
    with the descent commanded where it must be, no rotation, no free fall, the
    vertical velocity measured.  The three stages (ground contact, maybe landed,
    landed) take a third of the trigger time each, or the whole of it while the
    distance to the ground should be measured but is not valid; let [U] be a bound
    for the time of a stage in the cycles of the flight.  If the cycles come at
    most [delta] apart, the detector publishes landed once three [U] and two
    [delta] have passed, and stays with it. *)
Theorem landing_is_detected (U delta : Z) (st : vehicle_status_s) (before cs ws : list cycle) (c w : cycle) :
  let d := (Run c (run before (land_detector_new st multicopter_new))).1 in
  let dw := (Run w (run cs d)).1 in
  _armed (sens d) = true -> idle (vehicle d) = false -> touching (vehicle d) = false ->
  0 <= now_us c -> 0 < U -> 0 <= delta ->
  flight_of 0 U (cs ++ w :: ws) d (now_us c) ->
  at_rest w dw = true -> resting delta ws dw (now_us w) ->
  now_us w + 3 * U + 2 * delta <= last_now ws (now_us w) ->
  landed (_land_detected (run ws dw)) = true.
Proof.
  intros d dw Ha Hi Ht H0 HU Hdl Hf Hw Hr Hend. destruct (flight_split _ _ _ _ _ _ _ Hf) as (Fc & Fw & Fs). fold dw in Fs.
  pose proof (chain_flight 0 U cs d (Flight_log None None true (now_us c))
    (chain_start 0 U c _ (falls_run st before) Ha Hi Ht) H0 Fc) as (rc & rm & rl & Hc & Hm & Hl & _).
  rewrite observed_last in Hc, Hm, Hl. cbn [last_time] in *. set (n := last_now cs (now_us c)) in *.
  pose proof (last_now_ge _ _ _ _ _ Fc) as Hge. fold n in Hge.
  destruct (cycle_tracks 0 U w (run cs d) n rc rm rl Hc Hm Hl ltac:(lia) Fw) as (contact & maybe & Hc' & Hm' & Hl' & _ & _ & _ & Qc & _).
  destruct Fw as (_ & Hn & _). unfold at_rest in Hw. rewrite !andb_true_iff in Hw. destruct Hw as (((((R1 & R2) & R3) & R4) & R5) & R6).
  fold dw in Hc', Hm', Hl', Qc. rewrite (Qc R2 R3) in Hc'.
  assert (Hs : settling U delta (now_us w) (now_us w) dw).
  { eexists _, _, _. split_and!; [exact Hc' | exact Hm' | exact Hl' | | lia | lia].
    destruct rc as [t|]; cbn; eexists; (split; [done|]); [|lia]. destruct (tracks_range _ _ _ _ _ Hc t eq_refl). lia. }
  destruct (settling_run U delta (now_us w) ws dw (now_us w) Hs ltac:(lia) Hdl ltac:(lia) Fs Hr)
    as (rc' & rm' & rl' & _ & _ & Hl3 & _ & _ & HL). destruct (HL ltac:(lia)) as (t & -> & Htl).
  subst dw. rewrite run_published. destruct (_state (_landed_hysteresis _)) eqn:Es; [done|]. destruct (tracks_wait _ _ _ _ _ Hl3 t eq_refl Es). lia.
Qed.
End Multicopter.

(** * The fixed-wing filter *)

Section Fixedwing.
Context `{Matrix}.

(** The low-pass filter of the acceleration is the one filter that takes a value
    that is not a number, and it keeps it. *)
Lemma fw_accel_step c s h (w : fixedwing) :
  _xy_accel_filtered w = NAN ->
  _xy_accel_filtered (fw_get_landed_state c s h w).2 = NAN
  /\ (_armed s = true -> elapsed (landed_time c) (lpos_timestamp (_vehicle_local_position s)) < _1_s ->
      (fw_get_landed_state c s h w).1 = false).
Proof.
  intros E. unfold fw_get_landed_state. destruct (_armed s); cbn [negb]; [|done]. rewrite E.
  destruct (Z.ltb_spec (elapsed (landed_time c) (lpos_timestamp (_vehicle_local_position s))) _1_s); [|split; [done | lia]].
  cbn [fst snd _xy_accel_filtered]. autorewrite with nan. split; [done|]. intros _ _. apply andb_false_r.
Qed.

(** The states of the wing after the topics of a cycle. *)
Lemma fw_cycle c (d : land_detector fixedwing) :
  _xy_accel_filtered (vehicle d) = NAN ->
  _xy_accel_filtered (vehicle (Run c d).1) = NAN.
Proof.
  intros E. destruct (Run_states c d) as (_ & _ & ->). unfold update_states. cbn [_set_hysteresis_factor
    _get_ground_contact_state _get_maybe_landed_state _get_landed_state fixedwing_vehicle].
  destruct (hyst d) as [ff ld ml gc ge].
  match goal with |- context [fw_get_landed_state c ?s ?h ?w] => pose proof (fw_accel_step c s h w) as Hw end.
  destruct (fw_get_landed_state _ _ _ _) as [b w]. cbn [fst snd] in *. apply Hw.
  cbn. unfold read_params. by case_match.
Qed.

Lemma fw_falls_run st cs : _time_from_true_us (_landed_hysteresis (hyst (run cs (land_detector_new st fixedwing_new)))) = 0.
Proof.
  unfold run. rewrite <- fold_left_rev_right. induction (rev cs) as [|c l IH]; [done|]. cbn [foldr].
  destruct (Run_states c (foldr (fun c d => (Run c d).1) (land_detector_new st fixedwing_new) l)) as (-> & _).
  unfold update_states. cbn [_set_hysteresis_factor _get_ground_contact_state _get_maybe_landed_state
    _get_landed_state fixedwing_vehicle]. destruct (hyst _) as [ff ld ml gc ge].
  destruct (fw_get_landed_state _ _ _ _). cbn [fst _landed_hysteresis] in *.
  by destruct (hysteresis_times b (now_us c) ld) as [-> _].
Qed.

(** The local position is recent enough to be used. *)
Definition fresh (c : cycle) (s : sensors) : Prop :=
  elapsed (landed_time c) (lpos_timestamp (_vehicle_local_position s)) < _1_s.

(** What the detector decides in a cycle, and the wing it leaves. *)
Lemma fw_landed_cycle c (d : land_detector fixedwing) :
  exists h w, vehicle (Run c d).1 = (fw_get_landed_state c (sens (Run c d).1) h w).2
    /\ _xy_accel_filtered w = _xy_accel_filtered (vehicle d)
    /\ _landed_hysteresis (hyst (Run c d).1)
       = set_state_and_update (fw_get_landed_state c (sens (Run c d).1) h w).1 (now_us c) (_landed_hysteresis (hyst d)).
Proof.
  destruct (Run_states c d) as (-> & -> & ->). unfold update_states. cbn [_set_hysteresis_factor
    _get_ground_contact_state _get_maybe_landed_state _get_landed_state fixedwing_vehicle].
  destruct (hyst d) as [ff ld ml gc ge].
  match goal with |- context [fw_get_landed_state c ?s ?h ?w] => exists h, w; destruct (fw_get_landed_state c s h w) end.
  split_and!; [done | | done]. cbn. unfold read_params. by case_match.
Qed.

(** A single acceleration that is not a number stops the fixed-wing
    detector.  The filter takes it (the others test for it), and from then on, as
    long as the detector runs, it never publishes landed for an armed vehicle
    with a recent position, however long it stands. *)
Theorem nan_acceleration_never_lands `{!MatrixLaws} (st : vehicle_status_s) (before cs : list cycle) (c0 c : cycle) :
  let d0 := (Run c0 (run before (land_detector_new st fixedwing_new))).1 in
  let d := (Run c (run cs d0)).1 in
  _armed (sens d0) = true -> fresh c0 (sens d0) -> has_nan2 (xy (_acceleration (sens d0))) ->
  _armed (sens d) = true -> fresh c (sens d) ->
  landed (_land_detected d) = false.
Proof.
  intros d0 d Ha0 Hf0 Hn Ha Hf.
  assert (Hnan : _xy_accel_filtered (vehicle (run cs d0)) = NAN).
  { unfold run. rewrite <- fold_left_rev_right. induction (rev cs) as [|x l IH]; cbn [foldr]; [|by apply fw_cycle].
    destruct (fw_landed_cycle c0 (run before (land_detector_new st fixedwing_new))) as (h & w & E & _). fold d0 in E.
    rewrite E. unfold fw_get_landed_state. rewrite Ha0. cbn [negb].
    rewrite (proj2 (Z.ltb_lt _ _) Hf0). cbn [snd _xy_accel_filtered]. rewrite v2_norm_nan by done. by autorewrite with nan. }
  pose proof (fw_falls_run st (before ++ c0 :: cs)) as Ht. unfold run in Ht. rewrite fold_left_app in Ht. cbn [fold_left] in Ht.
  fold (run before (land_detector_new st fixedwing_new)) in Ht. fold d0 in Ht. fold (run cs d0) in Ht.
  destruct (Run_published c (run cs d0)) as (El & _). fold d in El. rewrite El.
  destruct (fw_landed_cycle c (run cs d0)) as (h & w & _ & E2 & E3). fold d in E3. rewrite E3.
  destruct (fw_accel_step c (sens d) h w ltac:(congruence)) as [_ H2]. rewrite (H2 Ha Hf). by apply hysteresis_falls.
Qed.
End Fixedwing.

(** * Example flights *)

Section Examples.

Definition example_params : land_params :=
  Land_params (f_dec 7 10) (f_dec 8 100) (f_dec 12 100) 0 (f_dec 1 2) fone (fneg fone) (f_of_Z 20) (f_dec 3 2)
    (f_dec 1 2) (f_of_Z 2) (f_of_Z 8) (f_of_Z 8) (f_of_Z 5) fone 0 0.

Definition example_status : vehicle_status_s :=
  Vehicle_status ARMING_STATE_ARMED NAVIGATION_STATE_MANUAL false false 0 VEHICLE_TYPE_ROTARY_WING false false
    false false false false false false 0 0 0 0 0 0.

(** A cycle at [now] of an armed vehicle, with its throttle, climb rate and
    acceleration. *)
Definition example_cycle (armed : bool) (throttle vz : float) (acceleration : vec3) (now : Z) : cycle :=
  Cycle example_params false (Some armed) (Some acceleration)
    (Some (Local_position now true true fzero fzero vz false fzero 0)) None (Some throttle) (Some true) None None
    (Some (f_dec 7 10)) (V2 fzero fzero) (Airspeed_validated 0 fzero) now now now now now now now.

Definition gravity : vec3 := V3 fzero fzero (fneg (f_dec 981 100)).
Definition in_the_air : cycle := example_cycle true (f_dec 1 2) fone gravity 9000000.
Definition on_the_ground : list cycle :=
  map (example_cycle true (f_dec 1 10) fzero gravity) [10000000; 10400000; 10800000; 11200000].

Lemma example_flight :
  flight_of 333333 1000000 on_the_ground (Run in_the_air (land_detector_new example_status multicopter_new)).1 9000000.
Proof.
  repeat (split; [by vm_compute|]; split; [vm_compute; split; congruence|];
          split; [vm_compute; split; congruence|]).
  exact I.
Qed.

Lemma landing_takes_time_witness :
  let d := (Run in_the_air (run [] (land_detector_new example_status multicopter_new))).1 in
  let o := observed on_the_ground d (Flight_log None None true 9000000) in
  always_measured o = true /\ exists t, touching_since o = Some t /\ 3 * 333333 <= last_time o - t.
Proof.
  split; [by vm_compute|].
  refine (proj2 (landing_takes_time 333333 1000000 example_status [] on_the_ground in_the_air _ _ _ _ example_flight _) _);
    by vm_compute.
Defined.

(** At rest from 10 s to 14 s, in cycles of 0.4 s. *)
Definition first_at_rest : cycle := example_cycle true (f_dec 1 10) fzero gravity 10000000.
Definition staying : list cycle :=
  map (fun k => example_cycle true (f_dec 1 10) fzero gravity (10000000 + 400000 * Z.of_nat k)) (seq 1 10).

Lemma staying_flight :
  flight_of 0 333333 (first_at_rest :: staying) (Run in_the_air (land_detector_new example_status multicopter_new)).1 9000000.
Proof.
  repeat (split; [by vm_compute|]; split; [vm_compute; split; congruence|];
          split; [vm_compute; split; congruence|]).
  exact I.
Qed.

Lemma staying_resting :
  resting 400000 staying (Run first_at_rest (Run in_the_air (land_detector_new example_status multicopter_new)).1).1 10000000.
Proof. repeat (split; [vm_compute; congruence|]; split; [by vm_compute|]). exact I. Qed.

Lemma landing_is_detected_witness :
  landed (_land_detected (run staying (Run first_at_rest (run []
    (Run in_the_air (run [] (land_detector_new example_status multicopter_new))).1)).1)) = true.
Proof.
  refine (landing_is_detected 333333 400000 example_status [] [] staying in_the_air first_at_rest _ _ _ _ _ _ staying_flight _
    staying_resting _); try (by vm_compute); vm_compute; congruence.
Defined.

Lemma takeoff_at_once_witness :
  landed (_land_detected (Run in_the_air (run on_the_ground (land_detector_new example_status multicopter_new))).1) = false.
Proof. refine (proj1 (takeoff_at_once example_status on_the_ground in_the_air _ _)); by vm_compute. Defined.

(** Landed at 11.2 s after a take-off at 9 s, disarmed at 12 s: three seconds of
    flight, stored and read again. *)
Definition disarming : cycle := example_cycle false fzero fzero gravity 12000000.
Definition landed_vehicle : land_detector multicopter :=
  run (in_the_air :: on_the_ground) (land_detector_new example_status multicopter_new).
Definition reading : cycle :=
  Cycle (Land_params fzero fzero fzero 0 fzero fzero fzero fzero fzero fzero fzero fzero fzero fzero fzero 0 3000000)
    true None None None None None None None None None (V2 fzero fzero) (Airspeed_validated 0 fzero) 0 0 0 0 0 0 0.

Lemma flight_time_kept_witness :
  _takeoff_time landed_vehicle = 9000000
  /\ _total_flight_time (read_params reading (Run disarming landed_vehicle).1).1
     = u64 (_total_flight_time (read_params disarming landed_vehicle).1 + elapsed 12000000 9000000).
Proof.
  split; [by vm_compute|].
  refine (flight_time_kept disarming reading landed_vehicle 0 3000000 _ _ _ _ _); [vm_compute; auto | by vm_compute..].
Defined.

(** A wing with one bad sample at 1 s, that then stands still. *)
Definition bad_sample : cycle := example_cycle true fzero fzero (V3 NAN fzero fzero) 1000000.
Definition standing : list cycle :=
  map (fun k => example_cycle true fzero fzero gravity (1000000 * Z.of_nat k)) (seq 2 20).

Lemma nan_acceleration_never_lands_witness :
  landed (_land_detected (Run (example_cycle true fzero fzero gravity 60000000)
    (run standing (Run bad_sample (run [] (land_detector_new example_status fixedwing_new))).1)).1) = false.
Proof.
  refine (nan_acceleration_never_lands example_status [] standing bad_sample _ _ _ _ _ _); vm_compute; auto.
Defined.

(** Without the bad sample it lands. *)
Lemma standing_lands :
  landed (_land_detected (run standing (land_detector_new example_status fixedwing_new))) = true.
Proof. by vm_compute. Qed.
End Examples.
