(* ===== verification/FailureDetector.v ===== *)
(** The failure detector of the commander
    (src/modules/commander/failure_detector/FailureDetector.cpp) and what the
    commander makes of its report (Commander.cpp).  The abstract specification
    says since when each failure has been seen, without a hysteresis; the
    detector implements it. *)

From Stdlib Require Import ZArith Lia SpecFloat.
From stdpp Require Import base list numbers option.
From S2P Require Import Prelude Float32 EsoVector Hysteresis.

Local Open Scope Z_scope.

(** * The detector *)

(** vehicle_status.msg *)
Definition FAILURE_NONE : Z := 0.
Definition FAILURE_ROLL : Z := 1.
Definition FAILURE_PITCH : Z := 2.
Definition FAILURE_ALT : Z := 4.
Definition FAILURE_EXT : Z := 8.
Definition FAILURE_ARM_ESCS : Z := 16.

Record failure_params := Failure_params {
  FD_FAIL_P : Z;
  FD_FAIL_R : Z;
  FD_FAIL_R_TTRI : float;
  FD_FAIL_P_TTRI : float;
  FD_EXT_ATS_EN : bool;
  FD_EXT_ATS_TRIG : Z;
  FD_ESCS_EN : Z
}.

Record esc_status_s := Esc_status { esc_count : Z; esc_armed_flags : Z }.

(** One call of [update]: the topics with news, the two flags it is passed and
    the clock at its three readings. *)
Record failure_input := Failure_input {
  flag_control_attitude_enabled : bool;
  vehicle_armed : bool;
  attitude : option quat;
  pulse_width : option Z;
  esc_status : option esc_status_s;
  attitude_time : Z;
  ats_time : Z;
  esc_time : Z
}.

Record failure_detector := Failure_detector {
  _status : Z;
  _roll_failure_hysteresis : hysteresis;
  _pitch_failure_hysteresis : hysteresis;
  _ext_ats_failure_hysteresis : hysteresis;
  _esc_failure_hysteresis : hysteresis
}.

Definition failure_detector_new : failure_detector :=
  Failure_detector FAILURE_NONE (hysteresis_new false) (hysteresis_new false) (hysteresis_new false) (hysteresis_new false).

(** [_status |= bit] and [_status &= ~bits]. *)
Definition raise (bit : Z) (b : bool) (status : Z) : Z := if b then Z.lor status bit else status.
Definition clear (bits status : Z) : Z := Z.ldiff status bits.

(** [(hrt_abstime)(1_s * seconds)] *)
Definition trigger_time (seconds : float) : Z := u64 (f_trunc (fmul (f_of_Z 1000000) seconds)).

Section Detector.
Context `{Matrix} (p : failure_params).

(** An angle beyond its limit in degrees; a limit of zero is none. *)
Definition exceeds (limit_deg : Z) (angle : float) : bool :=
  let limit := fabs (radians (f_of_Z limit_deg)) in
  fltb fzero limit && fltb limit (fabs angle).

Definition roll_status (q : quat) : bool := exceeds (FD_FAIL_R p) (vx (euler_of_quat q)).
Definition pitch_status (q : quat) : bool := exceeds (FD_FAIL_P p) (vy (euler_of_quat q)).

Definition updateAttitudeStatus (u : failure_input) (d : failure_detector) : failure_detector :=
  match attitude u with
  | None => d
  | Some q =>
      let step T v h := set_state_and_update v (attitude_time u) (set_hysteresis_time_from false T h) in
      let roll := step (trigger_time (FD_FAIL_R_TTRI p)) (roll_status q) (_roll_failure_hysteresis d) in
      let pitch := step (trigger_time (FD_FAIL_P_TTRI p)) (pitch_status q) (_pitch_failure_hysteresis d) in
      let status := clear (Z.lor FAILURE_ROLL FAILURE_PITCH) (_status d) in
      let status := raise FAILURE_ROLL (_state roll) status in
      let status := raise FAILURE_PITCH (_state pitch) status in
      Failure_detector status roll pitch (_ext_ats_failure_hysteresis d) (_esc_failure_hysteresis d)
  end.

Definition ATS_TIME : Z := 100000.
Definition ESC_TIME : Z := 300000.

Definition ats_trigger_status (pulse_width : Z) : bool :=
  (u32 (FD_EXT_ATS_TRIG p) <=? pulse_width) && (pulse_width <? 3000).

Definition updateExternalAtsStatus (u : failure_input) (d : failure_detector) : failure_detector :=
  match pulse_width u with
  | None => d
  | Some w =>
      let ext := set_state_and_update (ats_trigger_status w) (ats_time u)
                   (set_hysteresis_time_from false ATS_TIME (_ext_ats_failure_hysteresis d)) in
      let status := raise FAILURE_EXT (_state ext) (clear FAILURE_EXT (_status d)) in
      Failure_detector status (_roll_failure_hysteresis d) (_pitch_failure_hysteresis d) ext (_esc_failure_hysteresis d)
  end.

Definition escs_missing (e : esc_status_s) : bool := negb (Z.shiftl 1 (esc_count e) - 1 =? esc_armed_flags e).

Definition updateEscsStatus (u : failure_input) (d : failure_detector) : failure_detector :=
  if vehicle_armed u then
    match esc_status u with
    | None => d
    | Some e =>
        let esc := set_state_and_update (escs_missing e) (esc_time u)
                     (set_hysteresis_time_from false ESC_TIME (_esc_failure_hysteresis d)) in
        Failure_detector (raise FAILURE_ARM_ESCS (_state esc) (_status d)) (_roll_failure_hysteresis d)
          (_pitch_failure_hysteresis d) (_ext_ats_failure_hysteresis d) esc
    end
  else
    Failure_detector (clear FAILURE_ARM_ESCS (_status d)) (_roll_failure_hysteresis d) (_pitch_failure_hysteresis d)
      (_ext_ats_failure_hysteresis d) (set_state_and_update false (esc_time u) (_esc_failure_hysteresis d)).

Definition update_tilt_and_ats (u : failure_input) (d : failure_detector) : failure_detector :=
  if flag_control_attitude_enabled u then
    let d := updateAttitudeStatus u d in
    if FD_EXT_ATS_EN p then updateExternalAtsStatus u d else d
  else
    Failure_detector
      (clear (Z.lor (Z.lor (Z.lor FAILURE_ROLL FAILURE_PITCH) FAILURE_ALT) FAILURE_EXT) (_status d))
      (_roll_failure_hysteresis d) (_pitch_failure_hysteresis d) (_ext_ats_failure_hysteresis d) (_esc_failure_hysteresis d).

Definition update (u : failure_input) (d : failure_detector) : bool * failure_detector :=
  let d' := update_tilt_and_ats u d in
  let d' := if negb (FD_ESCS_EN p =? 0) then updateEscsStatus u d' else d' in
  (negb (_status d' =? _status d), d').

(** * The specification *)

(** Since when a failure has been seen, and whether it is reported. *)
Record failure := Failure { seen_since : option Z; reported : bool }.
Definition no_failure : failure := Failure None false.

(** A sample at [now]: reported once it has been seen for [T]. *)
Definition sample (T now : Z) (v : bool) (f : failure) : failure :=
  let since := raised (seen_since f) v now in Failure since (lasted T now since).

Record failures := Failures { roll : failure; pitch : failure; ats : failure; escs : failure }.
Definition no_failures : failures := Failures no_failure no_failure no_failure no_failure.

(** No sample: the report stays; without attitude control it is withdrawn. *)
Definition withdraw (f : failure) : failure := Failure (seen_since f) false.

Definition spec_tilt_and_ats (u : failure_input) (s : failures) : failures :=
  if flag_control_attitude_enabled u then
    let '(r, i) := match attitude u with
                   | Some q => (sample (trigger_time (FD_FAIL_R_TTRI p)) (attitude_time u) (roll_status q) (roll s),
                                sample (trigger_time (FD_FAIL_P_TTRI p)) (attitude_time u) (pitch_status q) (pitch s))
                   | None => (roll s, pitch s)
                   end in
    let a := match pulse_width u with
             | Some w => if FD_EXT_ATS_EN p then sample ATS_TIME (ats_time u) (ats_trigger_status w) (ats s) else ats s
             | None => ats s
             end in
    Failures r i a (escs s)
  else Failures (withdraw (roll s)) (withdraw (pitch s)) (withdraw (ats s)) (escs s).

(** The failure of the speed controllers is remembered until the vehicle is
    disarmed. *)
Definition spec_escs (u : failure_input) (s : failures) : failures :=
  let e :=
    if vehicle_armed u then
      match esc_status u with
      | Some e => let f := sample ESC_TIME (esc_time u) (escs_missing e) (escs s) in
                  Failure (seen_since f) (reported (escs s) || reported f)
      | None => escs s
      end
    else no_failure in
  Failures (roll s) (pitch s) (ats s) e.

Definition spec_update (u : failure_input) (s : failures) : failures :=
  let s := spec_tilt_and_ats u s in if negb (FD_ESCS_EN p =? 0) then spec_escs u s else s.

Definition status_of (s : failures) : Z :=
  raise FAILURE_ARM_ESCS (reported (escs s))
    (raise FAILURE_EXT (reported (ats s)) (raise FAILURE_PITCH (reported (pitch s)) (raise FAILURE_ROLL (reported (roll s)) 0))).
End Detector.

(** * The detector implements the specification *)

Lemma holds_failure T last now v h f :
  holds T last (seen_since f) h -> last <= now < 2 ^ 64 ->
  let h' := set_state_and_update v now (set_hysteresis_time_from false T h) in
  holds T now (seen_since (sample T now v f)) h' /\ _state h' = reported (sample T now v f).
Proof. intros Hh Hb. by apply (holds_sample _ last); [apply holds_set_time | |]. Qed.

Section Refinement.
Context `{Matrix} (p : failure_params).

Definition bits (r i a e : bool) : Z :=
  raise FAILURE_ARM_ESCS e (raise FAILURE_EXT a (raise FAILURE_PITCH i (raise FAILURE_ROLL r 0))).

Record refines (last : Z) (d : failure_detector) (s : failures) : Prop := {
  refines_status : _status d = bits (reported (roll s)) (reported (pitch s)) (reported (ats s)) (reported (escs s));
  refines_roll : holds (trigger_time (FD_FAIL_R_TTRI p)) last (seen_since (roll s)) (_roll_failure_hysteresis d);
  refines_pitch : holds (trigger_time (FD_FAIL_P_TTRI p)) last (seen_since (pitch s)) (_pitch_failure_hysteresis d);
  refines_ats : holds ATS_TIME last (seen_since (ats s)) (_ext_ats_failure_hysteresis d);
  refines_escs : holds ESC_TIME last (seen_since (escs s)) (_esc_failure_hysteresis d)
}.

Ltac fields := cbn [_status _roll_failure_hysteresis _pitch_failure_hysteresis _ext_ats_failure_hysteresis
                    _esc_failure_hysteresis roll pitch ats escs].

Lemma bits_attitude r i a e r' i' :
  raise FAILURE_PITCH i' (raise FAILURE_ROLL r' (clear (Z.lor FAILURE_ROLL FAILURE_PITCH) (bits r i a e))) = bits r' i' a e.
Proof. by destruct r, i, a, e, r', i'. Qed.
Lemma bits_ats r i a e a' : raise FAILURE_EXT a' (clear FAILURE_EXT (bits r i a e)) = bits r i a' e.
Proof. by destruct r, i, a, e, a'. Qed.
Lemma bits_escs r i a e e' : raise FAILURE_ARM_ESCS e' (bits r i a e) = bits r i a (e || e').
Proof. by destruct r, i, a, e, e'. Qed.
Lemma bits_disarm r i a e : clear FAILURE_ARM_ESCS (bits r i a e) = bits r i a false.
Proof. by destruct r, i, a, e. Qed.
Lemma bits_no_attitude r i a e :
  clear (Z.lor (Z.lor (Z.lor FAILURE_ROLL FAILURE_PITCH) FAILURE_ALT) FAILURE_EXT) (bits r i a e) = bits false false false e.
Proof. by destruct r, i, a, e. Qed.

Lemma refines_later last last' d s : refines last d s -> last <= last' -> refines last' d s.
Proof. intros [] Hl. split; [done | by eapply holds_later..]. Qed.

Lemma refines_tilt_and_ats last u d s :
  refines last d s -> last <= attitude_time u -> attitude_time u <= ats_time u < 2 ^ 64 ->
  refines (ats_time u) (update_tilt_and_ats p u d) (spec_tilt_and_ats p u s).
Proof.
  intros Hr H1 H2. unfold update_tilt_and_ats, spec_tilt_and_ats. destruct (flag_control_attitude_enabled u).
  - assert (Ha : refines (attitude_time u) (updateAttitudeStatus p u d)
               (Failures (match attitude u with Some q => sample (trigger_time (FD_FAIL_R_TTRI p)) (attitude_time u) (roll_status p q) (roll s) | None => roll s end)
                  (match attitude u with Some q => sample (trigger_time (FD_FAIL_P_TTRI p)) (attitude_time u) (pitch_status p q) (pitch s) | None => pitch s end)
                  (ats s) (escs s))).
    { unfold updateAttitudeStatus. destruct (attitude u) as [q|]; [|apply refines_later with last; [by destruct s | done]].
      destruct Hr as [Hs Hro Hpi Hat Hes].
      destruct (holds_failure _ _ (attitude_time u) (roll_status p q) _ _ Hro ltac:(lia)) as [R1 R2].
      destruct (holds_failure _ _ (attitude_time u) (pitch_status p q) _ _ Hpi ltac:(lia)) as [P1 P2].
      split; fields;
        [rewrite Hs, R2, P2; apply bits_attitude | done | done | by eapply holds_later..]. }
    destruct (attitude u) as [q|]; revert Ha; generalize (updateAttitudeStatus p u d) as d1; intros d1 Ha;
      (destruct (FD_EXT_ATS_EN p); [|apply (refines_later (attitude_time u)); [by destruct (pulse_width u) | lia]]);
      unfold updateExternalAtsStatus; (destruct (pulse_width u) as [w|]; [|apply (refines_later (attitude_time u)); [done | lia]]);
      destruct Ha as [Hs Hro Hpi Hat Hes]; cbn [roll pitch ats escs] in *;
      destruct (holds_failure _ _ (ats_time u) (ats_trigger_status p w) _ _ Hat ltac:(lia)) as [A1 A2];
      split; fields;
      try (rewrite Hs, A2; apply bits_ats); try done; (eapply holds_later; [done | lia]).
  - destruct (refines_later _ (ats_time u) _ _ Hr ltac:(lia)) as [Hs ? ? ? ?].
    split; cbn; try done. rewrite Hs. apply bits_no_attitude.
Qed.

Lemma refines_updateEscs last u d s :
  refines last d s -> 0 <= last -> last <= esc_time u < 2 ^ 64 ->
  refines (esc_time u) (updateEscsStatus u d) (spec_escs u s).
Proof.
  intros Hr H0 Hl. destruct (refines_later _ (esc_time u) _ _ Hr ltac:(lia)) as [Hs Hro Hpi Hat _].
  destruct Hr as [_ _ _ _ Hes]. unfold updateEscsStatus, spec_escs. destruct (vehicle_armed u).
  - destruct (esc_status u) as [e|]; [|split; fields; try done; eapply holds_later; [done | lia]].
    destruct (holds_failure _ _ (esc_time u) (escs_missing e) _ _ Hes ltac:(lia)) as [E1 E2].
    split; fields; [rewrite Hs, E2; apply bits_escs | done | done | done |]. destruct E1 as (n & Hn & Ht). by exists n.
  - split; fields; try done; [rewrite Hs; apply bits_disarm|]. exists (esc_time u). split; [lia|]. cbn.
    destruct Hes as (n & _ & []). by apply hysteresis_down.
Qed.

Lemma refines_update last u d s :
  refines last d s -> 0 <= last -> last <= attitude_time u -> attitude_time u <= ats_time u ->
  ats_time u <= esc_time u < 2 ^ 64 ->
  refines (esc_time u) (update p u d).2 (spec_update p u s).
Proof.
  intros Hr H0 H1 H2 H3. pose proof (refines_tilt_and_ats last u d s Hr ltac:(lia) ltac:(lia)) as Ht.
  unfold update, spec_update. cbn [snd]. destruct (negb (FD_ESCS_EN p =? 0)).
  - by apply refines_updateEscs with (ats_time u); try lia.
  - eapply refines_later; [exact Ht | lia].
Qed.

(** The clock only goes forward. *)
Fixpoint in_time (last : Z) (us : list failure_input) : Prop :=
  match us with
  | [] => True
  | u :: us => last <= attitude_time u /\ attitude_time u <= ats_time u /\ ats_time u <= esc_time u < 2 ^ 64
              /\ in_time (esc_time u) us
  end.

Definition run (us : list failure_input) (d : failure_detector) : failure_detector :=
  fold_left (fun d u => (update p u d).2) us d.
Definition spec (us : list failure_input) : failures := fold_left (fun s u => spec_update p u s) us no_failures.

Lemma refines_run us : forall last d s,
  refines last d s -> 0 <= last -> in_time last us ->
  exists last', refines last' (run us d) (fold_left (fun s u => spec_update p u s) us s).
Proof.
  induction us as [|u us IH]; intros last d s Hr H0 Hu; [by exists last|]. destruct Hu as (H1 & H2 & H3 & Hu).
  apply (IH (esc_time u)); [by apply refines_update with last | lia | done].
Qed.

(** C20: the failure detector implements its specification.  After every history
    of samples in the order of time, the bits it reports are exactly those of the
    abstract reading of the same samples: roll and pitch when the last attitude
    sample ended an uninterrupted row of tilted samples of at least the trigger
    time, the trigger signal after 100 ms, none of these without attitude
    control, and the speed controllers when their failure has lasted 300 ms at
    some moment since arming. *)
Theorem failure_bits_exact (us : list failure_input) :
  in_time 0 us -> _status (run us failure_detector_new) = status_of (spec us).
Proof.
  intros Hu. destruct (refines_run us 0 failure_detector_new no_failures) as (last & [Hs _ _ _ _]); [|done | done | exact Hs].
  split; [done | exists 0; split; [lia|]; by split..].
Qed.
End Refinement.

(** * The commander's reaction *)

Record reaction := Reaction {
  lockdown : bool;
  force_failsafe : bool;
  _lockdown_triggered : bool;
  _flight_termination_triggered : bool
}.

Inductive reaction_output := DisarmFailure | SendParachuteCommand.

(** The block of the commander's loop that follows [update]: [armed_elapsed] and
    [takeoff_elapsed] are the times since arming and take-off, [lkdown_tko] the
    parameter COM_LKDOWN_TKO. *)
Definition failure_reaction (armed breaker : bool) (armed_elapsed takeoff_elapsed : Z) (lkdown_tko : float)
    (changed : bool) (status : Z) (r : reaction) : reaction * list reaction_output :=
  if changed && armed then
    let out1 := if negb (Z.land status FAILURE_ARM_ESCS =? 0) && (armed_elapsed <? 500000)
                then [DisarmFailure] else [] in
    let critical := Z.lor (Z.lor (Z.lor FAILURE_ROLL FAILURE_PITCH) FAILURE_ALT) FAILURE_EXT in
    if negb (Z.land status critical =? 0) then
      let right_after_takeoff := fltb (f_of_Z takeoff_elapsed) (fmul (f_of_Z 1000000) lkdown_tko) in
      if right_after_takeoff && negb (_lockdown_triggered r) then
        (Reaction true (force_failsafe r) true (_flight_termination_triggered r), out1)
      else if negb breaker && negb (_flight_termination_triggered r) && negb (_lockdown_triggered r) then
        (Reaction (lockdown r) true (_lockdown_triggered r) true, out1 ++ [SendParachuteCommand])
      else (r, out1)
    else (r, out1)
  else (r, []).

(** A failure that is reported in flight is acted upon: the vehicle ends in
    lockdown or in flight termination, unless termination is disabled by the
    circuit breaker; and a lockdown is never followed by a termination. *)
Lemma failure_reaction_acts breaker ae te tko status r :
  Z.land status (Z.lor (Z.lor (Z.lor FAILURE_ROLL FAILURE_PITCH) FAILURE_ALT) FAILURE_EXT) <> 0 ->
  let r' := (failure_reaction true breaker ae te tko true status r).1 in
  (_lockdown_triggered r' = true \/ _flight_termination_triggered r' = true \/ breaker = true)
  /\ (_lockdown_triggered r = true -> _flight_termination_triggered r' = _flight_termination_triggered r).
Proof.
  intros Hs. apply Z.eqb_neq in Hs. unfold failure_reaction. cbn [andb]. rewrite Hs. cbn [negb].
  destruct r as [l f [] []], breaker; cbn; destruct (fltb _ _); cbn; auto.
Qed.

(** * Examples *)

Definition example_params : failure_params := Failure_params 60 60 (f_dec 3 10) (f_dec 3 10) false 1900 1.

(** A sample at [t] with the roll of the quaternion. *)
Definition tilted (attitude_control : bool) (q : quat) (t : Z) : failure_input :=
  Failure_input attitude_control true (Some q) None None t t t.
Definition upright : quat := Q fone fzero fzero fzero.
Definition rolled : quat := Q fone (f_dec 6 10) fzero fzero.

Definition roll_over : list failure_input :=
  [tilted true upright 1000000; tilted true rolled 1200000; tilted true rolled 1400000; tilted true rolled 1600000].

Lemma failure_bits_exact_witness : _status (run example_params roll_over failure_detector_new) = FAILURE_ROLL.
Proof.
  rewrite (failure_bits_exact example_params roll_over); [by vm_compute|].
  vm_compute; intuition congruence.
Defined.

(** The time without attitude control counts: after one tilted sample and nine
    seconds without samples, the first tilted sample is reported at once. *)
Lemma gap_counts :
  _status (run example_params [tilted true rolled 1000000; tilted false rolled 5000000; tilted true rolled 10000000]
             failure_detector_new) = FAILURE_ROLL.
Proof. by vm_compute. Qed.
