(* ===== verification/PreflightChecks.v ===== *)
(** The checks of single sensors and systems before flight
    (src/modules/commander/Arming/PreFlightCheck/checks): a concrete instance of
    the record [checks] the preflight check of [Commander] is built from, over the
    topics and parameters they read. *)

From Stdlib Require Import ZArith Lia SpecFloat.
From stdpp Require Import base list numbers option.
From S2P Require Import Prelude Float32 EsoVector ArmAuth Commander CommanderArming FailureDetector ManualControl.

Local Open Scope Z_scope.

(** * Topics and parameters *)

Record sensor_report := Sensor_report {
  sr_timestamp : Z;
  sr_device_id : Z;
  sr_value : vec3
}.

Record estimator_status_s := Estimator_status {
  es_timestamp : Z;
  es_mag_device_id : Z;
  control_mode_flags : Z;
  gps_check_fail_flags : Z;
  pre_flt_fail_innov_heading : bool;
  pre_flt_fail_innov_vel_horiz : bool;
  pre_flt_fail_innov_vel_vert : bool;
  pre_flt_fail_innov_height : bool;
  pre_flt_fail_mag_field_disturbed : bool;
  hgt_test_ratio : float;
  vel_test_ratio : float;
  pos_test_ratio : float;
  mag_test_ratio : float
}.

Definition CS_GPS : Z := 2.
Definition CS_MAG_FAULT : Z := 18.

(** A bias estimate with its limit. *)
Record bias_s := Bias { bias_valid : bool; bias_limit : float; bias_value : vec3; bias_variance : vec3 }.

(** One IMU instance of sensors_status_imu.msg. *)
Record imu_s := Imu { imu_device_id : Z; imu_inconsistency : float; imu_healthy : bool }.

Record system_power_s := System_power {
  sp_timestamp : Z;
  usb_connected : bool;
  voltage5v_v : float;
  brick_valid : Z
}.

(** The topics as the checks find them; of the sensors and the estimators one per
    instance, [None] where nothing is advertised. *)
Record topics := Topics {
  sensor_accel : Z -> option sensor_report;
  sensor_gyro : Z -> option sensor_report;
  sensor_mag : Z -> option sensor_report;
  sensor_baro : Z -> option sensor_report;
  estimator_instances : list estimator_status_s;
  primary_estimator : estimator_status_s;
  bias_timestamp : Z;
  accel_bias : bias_s;
  gyro_bias : bias_s;
  accel_device_id_primary : Z;
  gyro_device_id_primary : Z;
  accel_imus : list imu_s;
  gyro_imus : list imu_s;
  preflight_mag_timestamp : Z;
  mag_inconsistency_angle : float;
  airspeed_timestamp : Z;
  calibrated_airspeed_m_s : float;
  system_power : system_power_s;
  switches_timestamp : Z;
  return_switch : switch_pos;
  kill_switch : switch_pos;
  gear_switch : switch_pos;
  cpuload_timestamp : Z;
  cpuload_load : float;
  failure_detector_status : Z;
  storage : option (Z * Z);                        (* statfs: f_blocks, f_bsize *)
  check_time : Z
}.

(** The parameters of an RC channel, [None] where there is none. *)
Record rc_channel := Rc_channel {
  rc_min : option float;
  rc_trim : option float;
  rc_max : option float;
  rc_dz : option float
}.

Record check_params := Check_params {
  CAL_ACC_ID : list (option Z);
  CAL_GYRO_ID : list (option Z);
  CAL_MAG_ID : list (option Z);
  COM_ARM_IMU_ACC : float;
  COM_ARM_IMU_GYR : float;
  COM_ARM_MAG_ANG : Z;
  COM_ARM_MAG_STR : Z;
  COM_ARM_EKF_HGT : float;
  COM_ARM_EKF_VEL : float;
  COM_ARM_EKF_POS : float;
  COM_ARM_EKF_YAW : float;
  COM_ARM_WO_GPS : Z;
  COM_ARM_ARSP_EN : Z;
  FW_AIRSPD_TRIM : float;
  COM_POWER_COUNT : Z;
  COM_CPU_MAX : float;
  COM_ARM_SDCARD : Z;
  RC_MAP_TRANS_SW : option Z;
  RC_CHANNELS : list rc_channel
}.

(** HealthFlags.h *)
Definition SUBSYSTEM_TYPE_GYRO : Z := Z.shiftl 1 0.
Definition SUBSYSTEM_TYPE_ACC : Z := Z.shiftl 1 1.
Definition SUBSYSTEM_TYPE_MAG : Z := Z.shiftl 1 2.
Definition SUBSYSTEM_TYPE_ABSPRESSURE : Z := Z.shiftl 1 3.
Definition SUBSYSTEM_TYPE_DIFFPRESSURE : Z := Z.shiftl 1 4.
Definition SUBSYSTEM_TYPE_GPS : Z := Z.shiftl 1 5.
Definition SUBSYSTEM_TYPE_GYRO2 : Z := Z.shiftl 1 17.
Definition SUBSYSTEM_TYPE_ACC2 : Z := Z.shiftl 1 18.
Definition SUBSYSTEM_TYPE_MAG2 : Z := Z.shiftl 1 19.

(** * The checks *)

(** calibration::FindCalibrationIndex over the parameters CAL_<type><i>_ID. *)
Fixpoint find_calibration (ids : list (option Z)) (device_id i : Z) : Z :=
  match ids with
  | [] => -1
  | Some id :: ids => if u32 id =? device_id then i else find_calibration ids device_id (i + 1)
  | None :: ids => find_calibration ids device_id (i + 1)
  end.
Definition FindCalibrationIndex (ids : list (option Z)) (device_id : Z) : Z :=
  if device_id =? 0 then -1 else find_calibration (take 4 ids) device_id 0.

(** Set bits, by shifting: the loop ends when no bit is left. *)
Fixpoint count_bits (fuel : nat) (n count : Z) : option Z :=
  match fuel with
  | O => None
  | S fuel => if n =? 0 then Some count else count_bits fuel (Z.shiftr n 1) (count + Z.land n 1)
  end.
Definition countSetBits (n : Z) : Z := default 0 (count_bits 33 n 0).

Section Checks.
Context (t : topics) (p : check_params).

Definition has_data (r : sensor_report) : bool := negb (sr_device_id r =? 0) && negb (sr_timestamp r =? 0).

Definition calibrated (ids : list (option Z)) (s : vehicle_status_s) (r : sensor_report) : bool :=
  if hil_on s then true else 0 <=? FindCalibrationIndex ids (sr_device_id r).

Definition accel_magnitude (v : vec3) : float :=
  fsqrt (fadd (fadd (fmul (vx v) (vx v)) (fmul (vy v) (vy v))) (fmul (vz v) (vz v))).

Definition accel_in_range (v : vec3) : bool :=
  negb (fltb (accel_magnitude v) (f_of_Z 4) || fltb (f_of_Z 15) (accel_magnitude v)).

Definition accelerometer_check (instance : Z) (optional : bool) : check := fun s =>
  match sensor_accel t instance with
  | Some r =>
      let calibration_valid := calibrated (CAL_ACC_ID p) s r in
      let valid := if calibration_valid then if accel_in_range (sr_value r) then has_data r else false
                   else has_data r in
      (calibration_valid && valid, s)
  | None => (false, s)
  end.

Definition gyro_check (instance : Z) (optional : bool) : check := fun s =>
  match sensor_gyro t instance with
  | Some r => (calibrated (CAL_GYRO_ID p) s r && has_data r, s)
  | None => (false, s)
  end.

Definition baro_check (instance : Z) (optional : bool) : check := fun s =>
  let r := sensor_baro t instance in
  let valid := match r with Some r => has_data r | None => false end in
  (valid, if instance =? 0 then set_health_flags SUBSYSTEM_TYPE_ABSPRESSURE (bool_decide (is_Some r)) (negb optional) valid s
          else s).

(** Some estimator has declared the magnetometer faulty. *)
Definition is_mag_fault (device_id : Z) : bool :=
  existsb (fun e => (es_mag_device_id e =? device_id) && ftst (control_mode_flags e) (Z.shiftl 1 CS_MAG_FAULT))
    (take 10 (estimator_instances t)).

Definition magnetometer_check (instance : Z) (optional : bool) : check := fun s =>
  let r := sensor_mag t instance in
  let success := match r with
                 | Some r => calibrated (CAL_MAG_ID p) s r && has_data r && negb (is_mag_fault (sr_device_id r))
                 | None => false
                 end in
  let exists_ := bool_decide (is_Some r) in
  (success,
   if instance =? 0 then set_health_flags SUBSYSTEM_TYPE_MAG exists_ (negb optional) success s
   else if instance =? 1 then set_health_flags SUBSYSTEM_TYPE_MAG2 exists_ (negb optional) success s
   else s).

Definition mag_consistent : bool :=
  (preflight_mag_timestamp t =? 0) || (COM_ARM_MAG_ANG p <? 0)
  || fltb (mag_inconsistency_angle t) (radians (f_of_Z (COM_ARM_MAG_ANG p))).

Definition mag_consistency_check (report_status : bool) : check := fun s =>
  (mag_consistent,
   if negb mag_consistent && report_status
   then set_health_flags_healthy SUBSYSTEM_TYPE_MAG2 false (set_health_flags_healthy SUBSYSTEM_TYPE_MAG false s)
   else s).

(** The loop over the instances of one kind of sensor: it ends at the first
    inconsistent one. *)
Fixpoint imu_loop (report_status : bool) (type1 type2 primary : Z) (limit : float) (l : list imu_s)
    (s : vehicle_status_s) : bool * vehicle_status_s :=
  match l with
  | [] => (true, s)
  | m :: l =>
      if imu_device_id m =? 0 then imu_loop report_status type1 type2 primary limit l s
      else
        let type := if imu_device_id m =? primary then type1 else type2 in
        let s := set_health_flags_healthy type (imu_healthy m) s in
        if fltb limit (imu_inconsistency m)
        then (false, if report_status then set_health_flags_healthy type false s else s)
        else imu_loop report_status type1 type2 primary limit l s
  end.

(** The health of the gyros is read from the flags of the accelerometers. *)
Fixpoint gyros_with_accel_health (gyros accels : list imu_s) : list imu_s :=
  match gyros, accels with
  | g :: gyros, a :: accels => Imu (imu_device_id g) (imu_inconsistency g) (imu_healthy a) :: gyros_with_accel_health gyros accels
  | _, _ => []
  end.

Definition imu_consistency_check (report_status : bool) : check := fun s =>
  let '(ok, s) := imu_loop report_status SUBSYSTEM_TYPE_ACC SUBSYSTEM_TYPE_ACC2 (accel_device_id_primary t)
                    (COM_ARM_IMU_ACC p) (accel_imus t) s in
  if ok then imu_loop report_status SUBSYSTEM_TYPE_GYRO SUBSYSTEM_TYPE_GYRO2 (gyro_device_id_primary t)
               (COM_ARM_IMU_GYR p) (gyros_with_accel_health (gyro_imus t) (accel_imus t)) s
  else (false, s).

Definition airspeed_check (optional prearm : bool) : check := fun s =>
  let arming_max_airspeed_allowed := fdiv (FW_AIRSPD_TRIM p) (f_of_Z 2) in
  let present := negb (1000000 <? u64 (check_time t - airspeed_timestamp t)) in
  let success :=
    present && isfinite (calibrated_airspeed_m_s t)
    && negb (negb (COM_ARM_ARSP_EN p =? 0)
             && fltb arming_max_airspeed_allowed (fabs (calibrated_airspeed_m_s t)) && prearm) in
  (success, set_health_flags SUBSYSTEM_TYPE_DIFFPRESSURE present (negb optional) success s).

(** The errors of one channel. *)
Definition rc_channel_errors (c : rc_channel) : Z :=
  let min := default fzero (rc_min c) in
  let trim := default fzero (rc_trim c) in
  let max := default fzero (rc_max c) in
  let dz := default (fmul (f_of_Z 500) (f_of_Z 2)) (rc_dz c) in
  Z.b2z (fltb min (f_of_Z 500)) + Z.b2z (fltb (f_of_Z 2500) max) + Z.b2z (fltb trim min) + Z.b2z (fltb max trim)
  + Z.b2z (fltb (f_of_Z 500) dz).

Definition rc_errors (isVTOL : bool) : Z :=
  let map_fail_count :=
    if isVTOL then match RC_MAP_TRANS_SW p with None => 1 | Some sw => Z.b2z (sw <? 1) end else 0 in
  foldr (fun c n => rc_channel_errors c + n) 0 (take 18 (RC_CHANNELS p)) + map_fail_count.

Definition power_check (prearm : bool) (s : vehicle_status_s) : bool :=
  let w := system_power t in
  if negb prearm then true
  else if hil_on s then true
  else if negb (sp_timestamp w =? 0) then
    if negb (usb_connected w)
    then negb (fltb (voltage5v_v w) (f_dec 45 10)) && negb (countSetBits (brick_valid w) <? COM_POWER_COUNT p)
    else true
  else false.

Definition ftst_bit (flags bit : Z) : bool := ftst flags (Z.shiftl 1 bit).

(** The outcome of ekf2Check: success, and the GPS as present and healthy. *)
Definition ekf2_outcome (report_fail : bool) : bool * bool * bool :=
  let e := primary_estimator t in
  if es_timestamp e =? 0 then (false, true, true)
  else if pre_flt_fail_innov_heading e || pre_flt_fail_innov_vel_horiz e || pre_flt_fail_innov_vel_vert e
          || pre_flt_fail_innov_height e then (false, true, true)
  else if (COM_ARM_MAG_STR p =? 1) && pre_flt_fail_mag_field_disturbed e then (false, true, true)
  else if fltb (COM_ARM_EKF_HGT p) (hgt_test_ratio e) then (false, true, true)
  else if fltb (COM_ARM_EKF_VEL p) (vel_test_ratio e) then (false, true, true)
  else if fltb (COM_ARM_EKF_POS p) (pos_test_ratio e) then (false, true, true)
  else if fltb (COM_ARM_EKF_YAW p) (mag_test_ratio e) then (false, true, true)
  else
    let ekf_gps_fusion := ftst_bit (control_mode_flags e) CS_GPS in
    if 0 <? gps_check_fail_flags e then
      let known := existsb (ftst_bit (gps_check_fail_flags e)) (seqZ 0 10) in
      let gps_present := negb (report_fail && negb known && negb ekf_gps_fusion) in
      (negb (COM_ARM_WO_GPS p =? 0), gps_present, false)
    else (true, true, ekf_gps_fusion).

Definition ekf2_check (report_fail : bool) : check := fun s =>
  let '(success, gps_present, gps_success) := ekf2_outcome report_fail in
  (success, set_health_flags SUBSYSTEM_TYPE_GPS gps_present (COM_ARM_WO_GPS p =? 0) gps_success s).

(** [fmaxf]: a NaN is ignored. *)
Definition fmaxf (x y : float) : float :=
  match x, y with S754_nan, _ => y | _, S754_nan => x | _, _ => if fltb x y then y else x end.

Definition bias_axis_ok (limit bias variance : float) : bool :=
  let test_uncertainty := fmul (f_of_Z 3) (fsqrt (fmaxf variance fzero)) in
  negb (fltb (fadd (fmul (f_dec 75 100) limit) test_uncertainty) (fabs bias)).

Definition bias_ok (b : bias_s) : bool :=
  negb (bias_valid b)
  || (bias_axis_ok (bias_limit b) (vx (bias_value b)) (vx (bias_variance b))
      && bias_axis_ok (bias_limit b) (vy (bias_value b)) (vy (bias_variance b))
      && bias_axis_ok (bias_limit b) (vz (bias_value b)) (vz (bias_variance b))).

Definition sensor_bias_check : bool :=
  if u64 (check_time t - bias_timestamp t) <? 30000000 then bias_ok (accel_bias t) && bias_ok (gyro_bias t) else true.

Definition failure_detector_check (prearm : bool) (s : vehicle_status_s) : bool :=
  if negb prearm then true else failure_detector_status t =? FAILURE_NONE.

Definition manual_control_check : bool :=
  let on w := bool_decide (w = SWITCH_POS_ON) in
  if negb (switches_timestamp t =? 0)
  then negb (on (return_switch t)) && negb (on (kill_switch t)) && negb (on (gear_switch t)) else true.

Definition cpu_resource_check : bool :=
  if fltb fzero (COM_CPU_MAX p)
  then negb (2000000 <? u64 (check_time t - cpuload_timestamp t))
       && negb (fltb (COM_CPU_MAX p) (fmul (cpuload_load t) (f_of_Z 100)))
  else true.

Definition sdcard_check (sd_card_detected_once : bool) : bool * bool :=
  if 0 <? COM_ARM_SDCARD p then
    let once := match storage t with
                | Some (blocks, bsize) =>
                    if negb sd_card_detected_once then (0 <? blocks) && (0 <? bsize) else sd_card_detected_once
                | None => sd_card_detected_once
                end in
    (negb (negb once && (COM_ARM_SDCARD p =? 2)), once)
  else (true, sd_card_detected_once).

(** The test of the airframe concerns a board this firmware is not built for. *)
Definition airframe_check (s : vehicle_status_s) : bool := true.

Definition sensor_checks : checks := {|
  airframeCheck := airframe_check;
  sdcardCheck := sdcard_check;
  magnetometerCheck := magnetometer_check;
  magConsistencyCheck := mag_consistency_check;
  accelerometerCheck := accelerometer_check;
  gyroCheck := gyro_check;
  baroCheck := baro_check;
  imuConsistencyCheck := imu_consistency_check;
  airspeedCheck := airspeed_check;
  rcCalibrationCheck := fun isVTOL => rc_errors isVTOL =? 0;
  powerCheck := power_check;
  ekf2Check := ekf2_check;
  ekf2CheckSensorBias := sensor_bias_check;
  failureDetectorCheck := failure_detector_check;
  manualControlCheck := manual_control_check;
  cpuResourceCheck := cpu_resource_check
|}.
End Checks.

(** * What the checks decide *)

(** The bits set among the lowest [k]. *)
Definition bits_set (k : nat) (n : Z) : Z := foldr (fun i c => Z.b2z (Z.testbit n (Z.of_nat i)) + c) 0 (seq 0 k).

Lemma bits_set_shift k n : bits_set (S k) n = Z.land n 1 + bits_set k (Z.shiftr n 1).
Proof.
  unfold bits_set. cbn [seq foldr]. change (Z.of_nat 0) with 0. f_equal.
  - change 1 with (Z.ones 1). rewrite Z.land_ones by lia. rewrite Z.bit0_mod. done.
  - rewrite <- seq_shift. induction (seq 0 k) as [|i l IH]; cbn [map foldr]; [done|]. rewrite IH.
    rewrite Z.shiftr_spec by lia. by replace (Z.of_nat i + 1) with (Z.of_nat (S i)) by lia.
Qed.

Lemma count_bits_ok k : forall n c, 0 <= n < 2 ^ Z.of_nat k -> count_bits (S k) n c = Some (c + bits_set k n).
Proof.
  induction k as [|k IH]; intros n c Hn.
  - assert (n = 0) as -> by (cbn in Hn; lia). cbn. f_equal. lia.
  - change (count_bits (S (S k)) n c) with (if n =? 0 then Some c else count_bits (S k) (Z.shiftr n 1) (c + Z.land n 1)).
    rewrite bits_set_shift. destruct (Z.eqb_spec n 0) as [->|Hne].
    + f_equal. rewrite Z.shiftr_0_l. assert (bits_set k 0 = 0) as ->; [|change (Z.land 0 1) with 0; lia].
      unfold bits_set. induction (seq 0 k) as [|i l IHl]; cbn [foldr]; [done|]. by rewrite IHl, Z.bits_0.
    + rewrite IH; [f_equal; lia|]. rewrite Z.shiftr_div_pow2 by lia. change (2 ^ 1) with 2.
      rewrite Nat2Z.inj_succ, Z.pow_succ_r in Hn by lia. split; [apply Z.div_pos; lia | apply Z.div_lt_upper_bound; lia].
Qed.

(** The loop of countSetBits ends, and counts. *)
Lemma countSetBits_ok n : 0 <= n < 2 ^ 32 -> countSetBits n = bits_set 32 n.
Proof. intros Hn. unfold countSetBits. rewrite (count_bits_ok 32) by done. cbn [default]. apply Z.add_0_l. Qed.

Section Decision.
Context (t : topics) (p : check_params).

Definition imu_consistent (limit : float) (l : list imu_s) : bool :=
  forallb (fun m => (imu_device_id m =? 0) || negb (fltb limit (imu_inconsistency m))) l.

Lemma imu_loop_answer r t1 t2 prim limit l : forall s, (imu_loop r t1 t2 prim limit l s).1 = imu_consistent limit l.
Proof.
  induction l as [|m l IH]; intros s; cbn; [done|]. destruct (imu_device_id m =? 0); [apply IH|].
  by destruct (fltb limit _); cbn; [|rewrite IH].
Qed.

Lemma same_core_healthy type b s : same_core s (set_health_flags_healthy type b s).
Proof. apply same_core_health. Qed.

Lemma imu_loop_core r t1 t2 prim limit l : forall s, same_core s (imu_loop r t1 t2 prim limit l s).2.
Proof.
  induction l as [|m l IH]; intros s; cbn; [reflexivity|]. destruct (imu_device_id m =? 0); [apply IH|].
  destruct (fltb limit _); cbn.
  - destruct r; [|apply same_core_healthy]. etransitivity; apply same_core_healthy.
  - etransitivity; [apply same_core_healthy | apply IH].
Qed.

(** The inconsistencies of the gyros are their own. *)
Lemma gyros_consistent limit gs : forall accels, length accels = length gs ->
  imu_consistent limit (gyros_with_accel_health gs accels) = imu_consistent limit gs.
Proof.
  induction gs as [|g gs IH]; intros [|a accels] Hl; try done. cbn in *. f_equal. apply IH. lia.
Qed.

(** The record of checks keeps the promise the arming theorems rely on. *)
#[export] Instance sensor_checks_health : HealthOnly (sensor_checks t p).
Proof.
  split; cbn; intros.
  - unfold magnetometer_check. repeat case_match; cbn; apply same_core_health || reflexivity.
  - unfold mag_consistency_check. case_match; cbn; [|reflexivity]. etransitivity; apply same_core_healthy.
  - unfold accelerometer_check. case_match; reflexivity.
  - unfold gyro_check. case_match; reflexivity.
  - unfold baro_check. case_match; cbn; [apply same_core_health | reflexivity].
  - unfold imu_consistency_check. pose proof (imu_loop_core r SUBSYSTEM_TYPE_ACC SUBSYSTEM_TYPE_ACC2
      (accel_device_id_primary t) (COM_ARM_IMU_ACC p) (accel_imus t) s) as H.
    destruct (imu_loop _ _ _ _ _ _ _) as [[] s1]; [|done]. etransitivity; [exact H | apply imu_loop_core].
  - apply same_core_health.
  - unfold ekf2_check. destruct (ekf2_outcome t p r) as [[? ?] ?]. apply same_core_health.
Qed.

(** The one decision of the whole preflight check, without the health words: what
    must hold of the topics and the parameters. *)
Definition preflight_conditions (pr : preflight_params) (prearm : bool) (s : vehicle_status_s)
    (flags : vehicle_status_flags_s) : bool :=
  (sdcard_check t p (sd_card_detected_once flags)).1
  && (if sys_has_mag pr =? 1 then (magnetometer_check t p 0 false s).1 && mag_consistent t p else true)
  && (accelerometer_check t p 0 false s).1 && (gyro_check t p 0 false s).1
  && imu_consistent (COM_ARM_IMU_ACC p) (accel_imus t) && imu_consistent (COM_ARM_IMU_GYR p) (gyro_imus t)
  && (if negb (circuit_breaker_engaged_airspd_check flags)
         && (bool_decide (vehicle_type s = VEHICLE_TYPE_FIXED_WING) || is_vtol s) && negb (fw_arsp_mode pr =? 1)
      then (airspeed_check t p false prearm s).1 else true)
  && (if rc_input_default s then rc_errors p (is_vtol s) =? 0 else true)
  && (if condition_power_input_valid flags && negb (circuit_breaker_engaged_power_check flags)
      then power_check t p prearm s else true)
  && (if (if is_rotary s && negb (is_vtol s) then sys_mc_est_group pr else 2) =? 2
      then (ekf2_outcome t p false).1.1 && sensor_bias_check t else true)
  && failure_detector_check t prearm s && manual_control_check t && cpu_resource_check t p.

(** Only the first instance of a sensor is mandatory. *)
Lemma sensor_loop_optional f m n : forall i fd s, 1 <= i -> (sensor_loop f m n i fd s).1 = fd.
Proof.
  induction n as [|n IH]; intros i fd s Hi; cbn; [done|]. destruct (f _ _ s) as [ok s1].
  rewrite IH by lia. by destruct (Z.ltb_spec i 1); [lia|]; rewrite orb_false_r.
Qed.

Lemma sensor_loop_first f n fd s : (sensor_loop f true (S n) 0 fd s).1 = fd || negb (f 0 false s).1.
Proof. cbn. destruct (f 0 false s) as [ok s1]. by rewrite sensor_loop_optional. Qed.

Lemma ekf2_answer r : (ekf2_outcome t p r).1.1 = (ekf2_outcome t p false).1.1.
Proof. unfold ekf2_outcome. by repeat case_match. Qed.

(** The answers do not read what the checks write. *)
Lemma answers_core s s' prearm :
  same_core s s' ->
  (magnetometer_check t p 0 false s').1 = (magnetometer_check t p 0 false s).1
  /\ (accelerometer_check t p 0 false s').1 = (accelerometer_check t p 0 false s).1
  /\ (gyro_check t p 0 false s').1 = (gyro_check t p 0 false s).1
  /\ (airspeed_check t p false prearm s').1 = (airspeed_check t p false prearm s).1
  /\ power_check t p prearm s' = power_check t p prearm s /\ rc_input_default s' = rc_input_default s
  /\ is_rotary s' = is_rotary s /\ is_vtol s' = is_vtol s /\ vehicle_type s' = vehicle_type s.
Proof.
  intros (e1 & e2 & e3 & ->). unfold accelerometer_check, gyro_check.
  split_and!; try reflexivity; destruct (_ t 0); reflexivity.
Qed.

(** The stages of the preflight check: the failure each adds, and that the status
    keeps its core. *)
Lemma loop_stage f n fd s s' b :
  same_core s s' -> (f 0 false s').1 = b -> (forall i o x, same_core x (f i o x).2) ->
  (sensor_loop f true (S n) 0 fd s').1 = fd || negb b /\ same_core s (sensor_loop f true (S n) 0 fd s').2.
Proof.
  intros Hs Hb Hf. split; [by rewrite sensor_loop_first, Hb|].
  etransitivity; [exact Hs | by apply sensor_loop_core].
Qed.

Lemma mag_stage pr r fd s s' :
  same_core s s' ->
  (preflight_mag (sensor_checks t p) pr r fd s').1
  = fd || negb (if sys_has_mag pr =? 1 then (magnetometer_check t p 0 false s).1 && mag_consistent t p else true)
  /\ same_core s (preflight_mag (sensor_checks t p) pr r fd s').2.
Proof.
  intros Hs. unfold preflight_mag. destruct (sys_has_mag pr =? 1); [|by rewrite orb_false_r].
  destruct (loop_stage (magnetometer_check t p) 3 fd s s' _ Hs eq_refl (ho_mag (ck := sensor_checks t p))) as [H1 H2].
  cbn [magnetometerCheck magConsistencyCheck sensor_checks].
  destruct (sensor_loop _ _ _ _ _ _) as [fd1 s1]. cbn [fst snd] in *.
  pose proof (ho_magc (ck := sensor_checks t p) r s1) as H3. cbn [magConsistencyCheck sensor_checks] in H3.
  destruct (mag_consistency_check t p r s1) as [ok s2] eqn:E. cbn [fst snd] in *.
  assert (ok = mag_consistent t p) as -> by (apply (f_equal fst) in E; done).
  split; [|by etransitivity]. rewrite H1. destruct (answers_core s s' false Hs) as (-> & _).
  by rewrite negb_andb, orb_assoc.
Qed.

Lemma airspeed_stage pr flags prearm fd s s' :
  same_core s s' ->
  (preflight_airspeed (sensor_checks t p) pr flags prearm fd s').1
  = fd || negb (if negb (circuit_breaker_engaged_airspd_check flags)
                  && (bool_decide (vehicle_type s = VEHICLE_TYPE_FIXED_WING) || is_vtol s) && negb (fw_arsp_mode pr =? 1)
                then (airspeed_check t p false prearm s).1 else true)
  /\ same_core s (preflight_airspeed (sensor_checks t p) pr flags prearm fd s').2.
Proof.
  intros Hs. unfold preflight_airspeed.
  destruct (answers_core s s' prearm Hs) as (_ & _ & _ & _ & _ & _ & _ & -> & ->).
  destruct (negb _ && _); cbn [andb]; [|by rewrite orb_false_r].
  pose proof (ho_airspeed (ck := sensor_checks t p) (fw_arsp_mode pr =? 1) prearm s') as H. cbn [airspeedCheck sensor_checks] in *.
  destruct (airspeed_check t p (fw_arsp_mode pr =? 1) prearm s') as [ok s1] eqn:E. cbn [fst snd] in *.
  assert (ok = (airspeed_check t p false prearm s).1) as -> by (apply (f_equal fst) in E; done).
  split; [|by etransitivity]. by destruct (fw_arsp_mode pr =? 1); cbn; rewrite ?andb_false_r, ?andb_true_r.
Qed.

Lemma rc_stage fd flags s s' :
  same_core s s' ->
  (preflight_rc (sensor_checks t p) fd s' flags).1.1 = fd || negb (if rc_input_default s then rc_errors p (is_vtol s) =? 0 else true)
  /\ same_core s (preflight_rc (sensor_checks t p) fd s' flags).1.2 /\ same_flags flags (preflight_rc (sensor_checks t p) fd s' flags).2.
Proof.
  intros Hs. unfold preflight_rc.
  destruct (answers_core s s' false Hs) as (_ & _ & _ & _ & _ & -> & _ & -> & _).
  cbn [rcCalibrationCheck sensor_checks]. destruct (rc_input_default s); [|by rewrite orb_false_r].
  assert (Hh : forall a b c, same_core s (set_health_flags SUBSYSTEM_TYPE_RCRECEIVER a b c s'))
    by (intros; etransitivity; [exact Hs | apply same_core_health]).
  destruct (rc_errors p (is_vtol s) =? 0); cbn; rewrite ?orb_false_r, ?orb_true_r; auto with core_db.
Qed.

Lemma ekf_stage pr r time fd s s' :
  same_core s s' ->
  (preflight_ekf (sensor_checks t p) pr r time fd s').1
  = fd || negb (if (if is_rotary s && negb (is_vtol s) then sys_mc_est_group pr else 2) =? 2
                then (ekf2_outcome t p false).1.1 && sensor_bias_check t else true)
  /\ same_core s (preflight_ekf (sensor_checks t p) pr r time fd s').2.
Proof.
  intros Hs. unfold preflight_ekf.
  destruct (answers_core s s' false Hs) as (_ & _ & _ & _ & _ & _ & -> & -> & _).
  destruct (_ =? 2); [|by rewrite orb_false_r].
  pose proof (ho_ekf (ck := sensor_checks t p) r s') as H. cbn [ekf2Check ekf2CheckSensorBias sensor_checks] in *.
  destruct (ekf2_check t p r s') as [ok s1] eqn:E. cbn [fst snd] in *.
  assert (ok = (ekf2_outcome t p false).1.1) as ->.
  { rewrite <- (ekf2_answer r). apply (f_equal fst) in E. unfold ekf2_check in E. destruct (ekf2_outcome t p r) as [[? ?] ?]. done. }
  split; [done|]. etransitivity; [exact Hs|]. etransitivity; [exact H|]. case_match; apply same_core_health.
Qed.

(** The flags the conditions read are not written before they are read. *)
Lemma same_flags_read f f' :
  same_flags f f' ->
  circuit_breaker_engaged_airspd_check f' = circuit_breaker_engaged_airspd_check f
  /\ condition_power_input_valid f' = condition_power_input_valid f
  /\ circuit_breaker_engaged_power_check f' = circuit_breaker_engaged_power_check f.
Proof. by intros (i & r & o & ->). Qed.

Lemma imu_answer r s :
  length (accel_imus t) = length (gyro_imus t) ->
  (imu_consistency_check t p r s).1
  = imu_consistent (COM_ARM_IMU_ACC p) (accel_imus t) && imu_consistent (COM_ARM_IMU_GYR p) (gyro_imus t).
Proof.
  intros Hl. unfold imu_consistency_check.
  pose proof (imu_loop_answer r SUBSYSTEM_TYPE_ACC SUBSYSTEM_TYPE_ACC2 (accel_device_id_primary t) (COM_ARM_IMU_ACC p)
    (accel_imus t) s) as H.
  destruct (imu_loop _ _ _ _ _ _ _) as [ok s1]. cbn [fst] in H. rewrite <- H.
  destruct ok; [|done]. cbn [andb]. by rewrite imu_loop_answer, gyros_consistent.
Qed.

End Decision.

(** The whole check in one decision. *)
Lemma preflight_decides (t : topics) (p : check_params) (pr : preflight_params) (report prearm : bool) (time : Z)
    (s : vehicle_status_s) (flags : vehicle_status_flags_s) :
  length (accel_imus t) = length (gyro_imus t) ->
  (preflightCheck (sensor_checks t p) pr report prearm time s flags).1.1 = preflight_conditions t p pr prearm s flags.
Proof.
  intros Hl. unfold preflightCheck. set (rp := report && _ && _). clearbody rp.
  cbn [airframeCheck sdcardCheck sensor_checks airframe_check negb].
  destruct (sdcard_check t p (sd_card_detected_once flags)) as [sd once] eqn:Esd.
  pose proof (same_flags_sd once flags) as Hf. set (f1 := set_sd_card_detected_once once flags) in *. clearbody f1.
  destruct (mag_stage t p pr rp (negb sd) s s ltac:(reflexivity)) as [M1 M2].
  destruct (preflight_mag _ _ _ _ _) as [fd1 s1]. cbn [fst snd] in *.
  destruct (answers_core t p s s1 prearm M2) as (_ & Ac & _).
  destruct (loop_stage (accelerometer_check t p) 3 fd1 s s1 _ M2 Ac (ho_accel (ck := sensor_checks t p))) as [A1 A2].
  cbn [accelerometerCheck sensor_checks]. destruct (sensor_loop _ _ _ _ _ _) as [fd2 s2]. cbn [fst snd] in *.
  destruct (answers_core t p s s2 prearm A2) as (_ & _ & Gy & _).
  destruct (loop_stage (gyro_check t p) 3 fd2 s s2 _ A2 Gy (ho_gyro (ck := sensor_checks t p))) as [G1 G2].
  cbn [gyroCheck sensor_checks]. destruct (sensor_loop _ _ _ _ _ _) as [fd3 s3]. cbn [fst snd] in *.
  pose proof (baro_loop_core (sensor_checks t p) pr 4 0 s3) as Hb. set (s4 := baro_loop _ _ _ _ _) in *. clearbody s4.
  pose proof (ho_imu (ck := sensor_checks t p) rp s4) as I2. pose proof (imu_answer t p rp s4 Hl) as I1.
  cbn [imuConsistencyCheck sensor_checks] in *.
  destruct (imu_consistency_check t p rp s4) as [ok s5]. cbn [fst snd] in *.
  assert (C5 : same_core s s5) by (etransitivity; [exact G2 | by etransitivity]).
  destruct (airspeed_stage t p pr f1 prearm (fd3 || negb ok) s s5 C5) as [P1 P2].
  destruct (preflight_airspeed _ _ _ _ _ _) as [fd6 s6]. cbn [fst snd] in *.
  destruct (rc_stage t p fd6 f1 s s6 P2) as (R1 & R2 & R3).
  destruct (preflight_rc _ _ _ _) as [[fd7 s7] f2]. cbn [fst snd] in *.
  destruct (same_flags_read flags f1 Hf) as (F1 & _). rewrite F1 in P1.
  destruct (same_flags_read flags f2 ltac:(by etransitivity)) as (_ & -> & ->).
  destruct (answers_core t p s s7 prearm R2) as (_ & _ & _ & _ & Pw & _).
  cbn [powerCheck sensor_checks]. rewrite Pw.
  set (fd8 := if condition_power_input_valid flags && _ then _ else fd7).
  destruct (ekf_stage t p pr rp time fd8 s s7 R2) as [E1 _].
  destruct (preflight_ekf _ _ _ _ _ _) as [fd9 s9]. cbn [fst snd failureDetectorCheck manualControlCheck cpuResourceCheck sensor_checks] in *.
  unfold preflight_conditions. rewrite Esd. cbn [fst]. rewrite E1. subst fd8. rewrite R1, P1, I1, G1, A1, M1.
  change (failure_detector_check t prearm s9) with (failure_detector_check t prearm s).
  destruct (condition_power_input_valid flags && negb (circuit_breaker_engaged_power_check flags));
    by rewrite ?negb_orb, ?negb_involutive, ?andb_assoc, ?andb_true_r.
Qed.

(** * What a vehicle needs to pass *)

Section Ready.
Context (t : topics) (p : check_params) (pr : preflight_params) (prearm : bool) (s : vehicle_status_s)
  (flags : vehicle_status_flags_s).

(** An instance that is there, delivers data and is calibrated (in
    hardware-in-the-loop no calibration is asked for). *)
Definition sensor_ready (ids : list (option Z)) (o : option sensor_report) (extra : sensor_report -> Prop) : Prop :=
  exists r, o = Some r /\ sr_device_id r <> 0 /\ sr_timestamp r <> 0
    /\ (hil_on s = true \/ 0 <= FindCalibrationIndex ids (sr_device_id r)) /\ extra r.

(** Every populated instance agrees with the others within the limit. *)
Definition instances_agree (limit : float) (l : list imu_s) : Prop :=
  Forall (fun m => imu_device_id m = 0 \/ fltb limit (imu_inconsistency m) = false) l.

(** The estimator is asked unless the vehicle is a plain multicopter with another
    one selected. *)
Definition ekf2_used : Prop := is_rotary s = true -> is_vtol s = false -> sys_mc_est_group pr = 2.

(** What is tested.  The clauses of the power supply, the estimator, the airspeed and
    the processor load are the answers of their checks. *)
Record tested_ready : Prop := {
  ready_card : COM_ARM_SDCARD p = 2 ->
    sd_card_detected_once flags = true \/ exists blocks bsize, storage t = Some (blocks, bsize) /\ 0 < blocks /\ 0 < bsize;
  ready_mag : sys_has_mag pr = 1 ->
    sensor_ready (CAL_MAG_ID p) (sensor_mag t 0) (fun r => negb (is_mag_fault t (sr_device_id r)) = true)
    /\ mag_consistent t p = true;
  ready_accel : sensor_ready (CAL_ACC_ID p) (sensor_accel t 0) (fun r => accel_in_range (sr_value r) = true);
  ready_gyro : sensor_ready (CAL_GYRO_ID p) (sensor_gyro t 0) (fun _ => true = true);
  ready_accels_agree : instances_agree (COM_ARM_IMU_ACC p) (accel_imus t);
  ready_gyros_agree : instances_agree (COM_ARM_IMU_GYR p) (gyro_imus t);
  ready_airspeed : circuit_breaker_engaged_airspd_check flags = false ->
    vehicle_type s = VEHICLE_TYPE_FIXED_WING \/ is_vtol s = true -> fw_arsp_mode pr <> 1 ->
    (airspeed_check t p false prearm s).1 = true;
  ready_rc : rc_input_default s = true -> rc_errors p (is_vtol s) = 0;
  ready_power : condition_power_input_valid flags = true -> circuit_breaker_engaged_power_check flags = false ->
    power_check t p prearm s = true;
  ready_estimator : ekf2_used -> (ekf2_outcome t p false).1.1 = true /\ sensor_bias_check t = true;
  ready_failures : prearm = true -> failure_detector_status t = FAILURE_NONE;
  ready_switches : switches_timestamp t <> 0 ->
    return_switch t <> SWITCH_POS_ON /\ kill_switch t <> SWITCH_POS_ON /\ gear_switch t <> SWITCH_POS_ON;
  ready_cpu : cpu_resource_check t p = true
}.

Lemma sensor_ready_iff ids o (extra : sensor_report -> bool) :
  match o with Some r => calibrated ids s r && has_data r && extra r | None => false end = true
  <-> sensor_ready ids o (fun r => extra r = true).
Proof.
  unfold sensor_ready, calibrated, has_data. destruct o as [r|]; [|by split; [|intros (r & ? & _)]].
  rewrite !andb_true_iff, !negb_true_iff, !Z.eqb_neq. split.
  - intros [[H1 [H2 H3]] H4]. exists r. split_and!; try done. destruct (hil_on s); [by left | right; lia].
  - intros (r' & [= <-] & H2 & H3 & H1 & H4). split_and!; try done. destruct H1 as [-> | H1]; [done|].
    destruct (hil_on s); [done | lia].
Qed.

Lemma agree_iff limit l : imu_consistent limit l = true <-> instances_agree limit l.
Proof.
  unfold imu_consistent, instances_agree. rewrite forallb_forall, Forall_forall.
  split; intros H m Hm; specialize (H m Hm); rewrite orb_true_iff, negb_true_iff, Z.eqb_eq in *; done.
Qed.

Lemma implb_iff (b c : bool) : (if b then c else true) = true <-> (b = true -> c = true).
Proof. destruct b, c; intuition congruence. Qed.

Lemma card_iff :
  (sdcard_check t p (sd_card_detected_once flags)).1 = true
  <-> (COM_ARM_SDCARD p = 2 -> sd_card_detected_once flags = true
       \/ exists blocks bsize, storage t = Some (blocks, bsize) /\ 0 < blocks /\ 0 < bsize).
Proof.
  unfold sdcard_check. destruct (Z.ltb_spec 0 (COM_ARM_SDCARD p)); [|by split; [lia|]].
  cbn [fst]. rewrite negb_true_iff, andb_false_iff, negb_false_iff, Z.eqb_neq. split.
  - intros H2 E. destruct H2 as [H2|]; [|done]. destruct (storage t) as [[b z]|]; [|by left].
    destruct (sd_card_detected_once flags); [by left | right]. cbn in H2. exists b, z. split; [done | lia].
  - intros Hc. destruct (decide (COM_ARM_SDCARD p = 2)) as [E|E]; [left | by right].
    destruct (Hc E) as [-> | (b & z & -> & H1 & H2)]; [by destruct (storage t) as [[]|]|].
    destruct (sd_card_detected_once flags); cbn; [done | lia].
Qed.

Lemma accel_iff :
  (accelerometer_check t p 0 false s).1 = true
  <-> sensor_ready (CAL_ACC_ID p) (sensor_accel t 0) (fun r => accel_in_range (sr_value r) = true).
Proof.
  rewrite <- sensor_ready_iff. unfold accelerometer_check. destruct (sensor_accel t 0) as [r|]; [|done]. cbn [fst].
  destruct (calibrated _ s r), (accel_in_range (sr_value r)), (has_data r); done.
Qed.

Lemma gyro_iff :
  (gyro_check t p 0 false s).1 = true <-> sensor_ready (CAL_GYRO_ID p) (sensor_gyro t 0) (fun _ => true = true).
Proof.
  rewrite <- (sensor_ready_iff (CAL_GYRO_ID p) (sensor_gyro t 0) (fun _ => true)). unfold gyro_check.
  destruct (sensor_gyro t 0) as [r|]; [|done]. cbn [fst]. by rewrite andb_true_r.
Qed.

Lemma mag_iff :
  (magnetometer_check t p 0 false s).1 = true
  <-> sensor_ready (CAL_MAG_ID p) (sensor_mag t 0) (fun r => negb (is_mag_fault t (sr_device_id r)) = true).
Proof. by rewrite <- sensor_ready_iff. Qed.

Lemma switches_iff :
  manual_control_check t = true
  <-> (switches_timestamp t <> 0 ->
       return_switch t <> SWITCH_POS_ON /\ kill_switch t <> SWITCH_POS_ON /\ gear_switch t <> SWITCH_POS_ON).
Proof.
  unfold manual_control_check. destruct (Z.eqb_spec (switches_timestamp t) 0); cbn [negb]; [by split|].
  rewrite !andb_true_iff, !negb_true_iff, !bool_decide_eq_false. tauto.
Qed.

Lemma estimator_iff :
  (if (if is_rotary s && negb (is_vtol s) then sys_mc_est_group pr else 2) =? 2
   then (ekf2_outcome t p false).1.1 && sensor_bias_check t else true) = true
  <-> (ekf2_used -> (ekf2_outcome t p false).1.1 = true /\ sensor_bias_check t = true).
Proof.
  rewrite implb_iff, andb_true_iff, Z.eqb_eq. unfold ekf2_used.
  destruct (is_rotary s), (is_vtol s); cbn; intuition congruence.
Qed.

Lemma conditions_ready : preflight_conditions t p pr prearm s flags = true <-> tested_ready.
Proof.
  unfold preflight_conditions. rewrite !andb_true_iff, card_iff, estimator_iff. unfold failure_detector_check.
  rewrite !implb_iff, accel_iff, gyro_iff, !agree_iff, switches_iff, !andb_true_iff, orb_true_iff, !negb_true_iff, mag_iff, bool_decide_eq_true, !Z.eqb_eq, Z.eqb_neq.
  assert (Hf : (if negb prearm then true else failure_detector_status t =? FAILURE_NONE) = true
               <-> (prearm = true -> failure_detector_status t = FAILURE_NONE))
    by (destruct prearm; cbn; rewrite ?Z.eqb_eq; intuition congruence).
  rewrite Hf. split; [intros H; split; tauto | intros []; tauto].
Qed.

(** What the comments and the parameters' documentation ask for: besides, the first
    barometer unless SYS_HAS_BARO is 0, IMU data to compare, a recent bias
    message of an estimator that is used, and an acceleration that is a number. *)
Definition first_baro_delivers : Prop :=
  exists r, sensor_baro t 0 = Some r /\ sr_device_id r <> 0 /\ sr_timestamp r <> 0.
Definition imu_data_available : Prop := Exists (fun m => imu_device_id m <> 0) (accel_imus t ++ gyro_imus t).
Definition bias_message_recent : Prop := u64 (check_time t - bias_timestamp t) < 30000000.
Definition gravity (v : vec3) : Prop := fleb (f_of_Z 4) (accel_magnitude v) = true /\ fleb (accel_magnitude v) (f_of_Z 15) = true.

Record ready_to_fly : Prop := {
  documented_tests : tested_ready;
  documented_baro : sys_has_baro pr = 1 -> first_baro_delivers;
  documented_imu : imu_data_available;
  documented_bias : ekf2_used -> bias_message_recent;
  documented_accel : forall r, sensor_accel t 0 = Some r -> gravity (sr_value r)
}.

(** The four ways to pass without being ready. *)
Inductive overlooked : Prop :=
| no_barometer : sys_has_baro pr = 1 -> ~ first_baro_delivers -> overlooked
| no_imu_data : ~ imu_data_available -> overlooked
| no_bias_message : ekf2_used -> ~ bias_message_recent -> overlooked
| acceleration_nan r : sensor_accel t 0 = Some r -> accel_magnitude (sr_value r) = NAN -> overlooked.

(** In range by the code's comparisons is in range, but for NaN. *)
Lemma range_or_nan x a b : fltb x a = false -> fltb b x = false -> a <> NAN -> b <> NAN ->
  x = NAN \/ fleb a x = true /\ fleb x b = true.
Proof.
  unfold fltb, fleb, SFltb, SFleb. intros H1 H2 Ha Hb.
  assert (Hc : forall y z, y <> NAN -> z <> NAN -> exists c, SFcompare y z = Some c /\ SFcompare z y = Some (CompOpp c)).
  { intros y z Hy Hz. destruct y as [sy|sy| |sy my ey], z as [sz|sz| |sz mz ez]; try done;
      try (eexists; split; [reflexivity|]; by destruct sy, sz || by destruct sy || by destruct sz).
    destruct sy, sz; cbn; (eexists; split; [reflexivity|]); try done; rewrite (Z.compare_antisym ey ez);
      destruct (ey ?= ez); cbn; try done; change (Pos.compare_cont Eq) with Pos.compare; rewrite (Pos.compare_antisym mz my); by destruct (mz ?= my)%positive. }
  assert (x = NAN \/ x <> NAN) as [->|Hx] by (destruct x; auto); [by left | right].
  destruct (Hc x a Hx Ha) as (c1 & E1 & E1'), (Hc b x Hb Hx) as (c2 & E2 & E2'). rewrite E1 in H1. rewrite E2 in H2.
  rewrite E1', E2'. by destruct c1, c2.
Qed.

Lemma gravity_or_nan v : accel_in_range v = true -> accel_magnitude v = NAN \/ gravity v.
Proof.
  unfold accel_in_range. rewrite negb_true_iff, orb_false_iff. intros [H1 H2]. by apply range_or_nan.
Qed.

Lemma first_baro_dec : first_baro_delivers \/ ~ first_baro_delivers.
Proof.
  unfold first_baro_delivers. destruct (sensor_baro t 0) as [r|]; [|right; by intros (? & ? & _)].
  destruct (Z.eq_dec (sr_device_id r) 0) as [E|H1]; [right; intros (? & [= <-] & ? & _); done|].
  destruct (Z.eq_dec (sr_timestamp r) 0) as [E|H2]; [right; intros (? & [= <-] & _ & ?); done|]. left. by exists r.
Qed.

Lemma ekf2_used_dec : ekf2_used \/ ~ ekf2_used.
Proof.
  unfold ekf2_used. destruct (is_rotary s), (is_vtol s); try (left; congruence).
  destruct (Z.eq_dec (sys_mc_est_group pr) 2); [by left | right; auto].
Qed.

Lemma tested_documented : tested_ready -> ready_to_fly \/ overlooked.
Proof.
  intros H. destruct (ready_accel H) as (r & Er & _ & _ & _ & Hr).
  destruct (gravity_or_nan _ Hr) as [Hn|Hg]; [by right; eapply acceleration_nan|].
  assert (Hb : (sys_has_baro pr = 1 -> first_baro_delivers) \/ overlooked).
  { destruct first_baro_dec as [?|Hb]; [by left|]. destruct (Z.eq_dec (sys_has_baro pr) 1); [right; by apply no_barometer | by left]. }
  assert (Hi : imu_data_available \/ overlooked).
  { unfold imu_data_available. destruct (decide (Exists (fun m => imu_device_id m <> 0) (accel_imus t ++ gyro_imus t)));
      [by left | right; by apply no_imu_data]. }
  assert (He : (ekf2_used -> bias_message_recent) \/ overlooked).
  { destruct ekf2_used_dec as [Hu|Hu]; [|by left]. unfold bias_message_recent.
    destruct (Z.lt_ge_cases (u64 (check_time t - bias_timestamp t)) 30000000); [by left | right; apply no_bias_message; [done|]].
    unfold bias_message_recent. lia. }
  destruct Hb as [Hb|?], Hi as [Hi|?], He as [He|?]; try by right. left. split; try done.
  intros r' Er'. rewrite Er in Er'. by injection Er' as <-.
Qed.
End Ready.


(** The arming state machine over these checks: a request to arm with the checks
    on, outside HIL and not restoring in the air, succeeds only for a vehicle that
    is ready to fly or one of the overlooked cases. *)
Theorem arming_needs_sensors (t : topics) (p : check_params) (pr : preflight_params) (now done_at time : Z)
    (polls : list ArmAuth.poll) (safety : safety_s) (req : arm_requirements_t) (reason : Z) (c c' : arming_ctx) :
  length (accel_imus t) = length (gyro_imus t) ->
  arming_state_transition (sensor_checks t p) pr now done_at time polls safety ARMING_STATE_ARMED true req reason c
    = Some (TRANSITION_CHANGED, c') ->
  hil_on (vs c) = false -> arming_state (vs c) <> ARMING_STATE_IN_AIR_RESTORE ->
  ready_to_fly t p pr true (vs c) (vf c) \/ overlooked t pr (vs c).
Proof.
  intros Hl H Hh Hr. apply tested_documented, conditions_ready. rewrite <- (preflight_decides t p pr true true time) by done.
  by eapply CommanderArming.armed_preflight; [apply sensor_checks_health | ..].
Qed.

(** * Examples *)

Definition steady : vec3 := V3 fzero fzero (fneg (f_dec 98 10)).
Definition good_sensor (v : vec3) : sensor_report := Sensor_report 1 77 v.
Definition first_only (r : sensor_report) (i : Z) : option sensor_report := if i =? 0 then Some r else None.
Definition good_estimator : estimator_status_s :=
  Estimator_status 1 0 4 0 false false false false false fzero fzero fzero fzero.
Definition no_bias : bias_s := Bias true fone zero3 zero3.

(** One of each sensor but no barometer; the accelerometer measures [v], and
    [gyro_healthy] is the voter's opinion of the gyro. *)
Definition example_topics (v : vec3) (gyro_healthy : bool) : topics :=
  Topics (first_only (good_sensor v)) (first_only (good_sensor zero3)) (first_only (good_sensor zero3)) (fun _ => None)
    [good_estimator] good_estimator 20000000 no_bias no_bias 77 77 [Imu 77 fzero true] [Imu 77 fzero gyro_healthy] 0 fzero
    0 NAN (System_power 1 false (f_of_Z 5) 1) 0 SWITCH_POS_NONE SWITCH_POS_NONE SWITCH_POS_NONE 20000000 (f_dec 1 2) 0
    None 20000000.

Definition good_channel : rc_channel :=
  Rc_channel (Some (f_of_Z 1000)) (Some (f_of_Z 1500)) (Some (f_of_Z 2000)) (Some (f_of_Z 10)).

Definition example_check_params : check_params :=
  Check_params [Some 77] [Some 77] [Some 77] fone fone 45 1 fone fone fone fone 0 0 (f_of_Z 15) 1 (f_of_Z 90) 0 None
    (repeat good_channel 18).


(** With a barometer it is ready to fly. *)
Definition with_baro (t : topics) : topics :=
  Topics (sensor_accel t) (sensor_gyro t) (sensor_mag t) (first_only (good_sensor zero3)) (estimator_instances t)
    (primary_estimator t) (bias_timestamp t) (accel_bias t) (gyro_bias t) (accel_device_id_primary t) (gyro_device_id_primary t)
    (accel_imus t) (gyro_imus t) (preflight_mag_timestamp t) (mag_inconsistency_angle t) (airspeed_timestamp t)
    (calibrated_airspeed_m_s t) (system_power t) (switches_timestamp t) (return_switch t) (kill_switch t) (gear_switch t)
    (cpuload_timestamp t) (cpuload_load t) (failure_detector_status t) (storage t) (check_time t).

Lemma example_ready :
  ready_to_fly (with_baro (example_topics steady true)) example_check_params some_params true (some_status ARMING_STATE_STANDBY) some_flags.
Proof.
  split.
  - apply conditions_ready. vm_compute. reflexivity.
  - intros _. by exists (good_sensor zero3).
  - constructor. vm_compute. congruence.
  - intros _. by vm_compute.
  - intros r [= <-]. by vm_compute.
Qed.

(** An accelerometer whose reading is not a number is in range: both comparisons
    are false. *)
Lemma nan_acceleration_passes :
  (preflightCheck (sensor_checks (example_topics (V3 NAN NAN NAN) true) example_check_params) some_params true true 20000000
     (some_status ARMING_STATE_STANDBY) some_flags).1.1 = true.
Proof. by vm_compute. Qed.

(** A gyro that the voter has declared unhealthy is reported healthy, because the
    flag is read from the accelerometer of the same index. *)
Lemma unhealthy_gyro_reported_healthy :
  ftst (sensors_health (imu_consistency_check (example_topics steady false) example_check_params true
                          (some_status ARMING_STATE_STANDBY)).2) SUBSYSTEM_TYPE_GYRO = true.
Proof. by vm_compute. Qed.
