(* ===== verification/Dataman.v ===== *)
(** The data manager (src/modules/dataman): the storage of missions, fences and
    rally points by item type and index, in a file or in memory.  The file is a
    POSIX file with a position, holes that read as zero, and calls that may fail
    or transfer less than asked; the specification is a map. *)

From Stdlib Require Import ZArith Lia.
From stdpp Require Import base list gmap numbers.
From S2P Require Import Prelude.

Local Open Scope Z_scope.

(** * Item types *)

Definition DM_KEY_SAFE_POINTS : nat := 0.
Definition DM_KEY_FENCE_POINTS : nat := 1.
Definition DM_KEY_WAYPOINTS_OFFBOARD_0 : nat := 2.
Definition DM_KEY_WAYPOINTS_OFFBOARD_1 : nat := 3.
Definition DM_KEY_WAYPOINTS_ONBOARD : nat := 4.
Definition DM_KEY_MISSION_STATE : nat := 5.
Definition DM_KEY_COMPAT : nat := 6.
Definition DM_KEY_NUM_KEYS : nat := 7.

Definition NUM_MISSIONS_SUPPORTED : Z := 2000.
Definition g_per_item_max_index (item : nat) : Z :=
  nth item [8; 64; NUM_MISSIONS_SUPPORTED; NUM_MISSIONS_SUPPORTED; NUM_MISSIONS_SUPPORTED; 1; 1] 0.

(** The sizes of the structures: navigation.h, mission.msg (padded to eight bytes)
    and dataman.h. *)
Definition sizeof_safe_point : Z := 24.
Definition sizeof_fence_point : Z := 32.
Definition sizeof_mission_item : Z := 56.
Definition sizeof_mission : Z := 16.
Definition sizeof_stats_entry : Z := 4.
Definition sizeof_compat : Z := 8.

Definition DM_SECTOR_HDR_SIZE : Z := 4.
Definition g_per_item_size (item : nat) : Z :=
  nth item [sizeof_safe_point + DM_SECTOR_HDR_SIZE; sizeof_fence_point + DM_SECTOR_HDR_SIZE;
            sizeof_mission_item + DM_SECTOR_HDR_SIZE; sizeof_mission_item + DM_SECTOR_HDR_SIZE;
            sizeof_mission_item + DM_SECTOR_HDR_SIZE; sizeof_mission + DM_SECTOR_HDR_SIZE;
            sizeof_compat + DM_SECTOR_HDR_SIZE] 0.

Inductive dm_persitence_t := DM_PERSIST_POWER_ON_RESET | DM_PERSIST_IN_FLIGHT_RESET | DM_PERSIST_VOLATILE.
Definition persistence_byte (p : dm_persitence_t) : Z :=
  match p with DM_PERSIST_POWER_ON_RESET => 0 | DM_PERSIST_IN_FLIGHT_RESET => 1 | DM_PERSIST_VOLATILE => 2 end.
Inductive dm_reset_reason := DM_INIT_REASON_POWER_ON | DM_INIT_REASON_IN_FLIGHT | DM_INIT_REASON_VOLATILE.

Definition DM_COMPAT_VERSION : Z := 2.
Definition DM_COMPAT_KEY : Z :=
  Z.shiftl DM_COMPAT_VERSION 32 + Z.shiftl sizeof_mission_item 24 + Z.shiftl sizeof_mission 16
  + Z.shiftl sizeof_stats_entry 12 + Z.shiftl sizeof_fence_point 8 + Z.shiftl sizeof_safe_point 4 + sizeof_compat.
(** The eight bytes of the key, little end first. *)
Definition compat_bytes : list Z := map (fun i => Z.shiftr DM_COMPAT_KEY (8 * Z.of_nat i) mod 256) (seq 0 8).

(** [g_key_offsets], filled in by [task_main], and the size of the whole. *)
Fixpoint g_key_offsets (item : nat) : Z :=
  match item with
  | O => 0
  | S i => g_key_offsets i + g_per_item_max_index i * g_per_item_size i
  end.
Definition max_offset : Z := g_key_offsets DM_KEY_NUM_KEYS.

Definition calculate_offset (item index : nat) : Z :=
  if (DM_KEY_NUM_KEYS <=? item)%nat then -1
  else if g_per_item_max_index item <=? Z.of_nat index then -1
  else g_key_offsets item + Z.of_nat index * g_per_item_size item.

Definition E2BIG : Z := 7.

(** Whether a segment's data is deleted by a restart, by its persistence byte. *)
Definition clear_entry (reason : dm_reset_reason) (persistence : Z) : bool :=
  match reason with
  | DM_INIT_REASON_POWER_ON => persistence_byte DM_PERSIST_POWER_ON_RESET <? persistence
  | _ => persistence_byte DM_PERSIST_IN_FLIGHT_RESET <? persistence
  end.

(** * Bytes at addresses *)

Definition get (m : gmap Z Z) (a : Z) : Z := default 0 (m !! a).
Fixpoint put (m : gmap Z Z) (a : Z) (bs : list Z) : gmap Z Z :=
  match bs with
  | [] => m
  | b :: bs => <[a := b]> (put m (a + 1) bs)
  end.
Definition range (m : gmap Z Z) (a : Z) (n : nat) : list Z := map (fun i => get m (a + Z.of_nat i)) (seq 0 n).

(** What the worker is asked. *)
Inductive request :=
  | Write (item index : nat) (persistence : dm_persitence_t) (buf : list Z)
  | Read (item index count : nat)
  | Clear (item : nat)
  | Restart (reason : dm_reset_reason).

(** The returned number, and what was copied to the caller's buffer. *)
Definition result : Type := Z * list Z.

(** The header and the data of a segment. *)
Definition segment (p : dm_persitence_t) (buf : list Z) : list Z :=
  [u8 (Z.of_nat (length buf)); persistence_byte p; 0; 0] ++ buf.

(** * Memory *)

Record ram := Ram { data : gmap Z Z; data_end : Z }.

Definition _ram_write (item index : nat) (p : dm_persitence_t) (buf : list Z) (r : ram) : result * ram :=
  let offset := calculate_offset item index in
  if offset <? 0 then ((-1, []), r)
  else if g_per_item_size item - DM_SECTOR_HDR_SIZE <? Z.of_nat (length buf) then ((- E2BIG, []), r)
  else if data_end r <? offset then ((-1, []), r)
  else ((Z.of_nat (length buf), []), Ram (put (data r) offset (segment p buf)) (data_end r)).

Definition _ram_read (item index : nat) (count : Z) (r : ram) : result :=
  let offset := calculate_offset item index in
  if offset <? 0 then (-1, [])
  else if g_per_item_size item - DM_SECTOR_HDR_SIZE <? count then (- E2BIG, [])
  else if data_end r <? offset then (-1, [])
  else
    let len := get (data r) offset in
    if 0 <? len then
      if count <? len then (-1, []) else (len, range (data r) (offset + DM_SECTOR_HDR_SIZE) (Z.to_nat len))
    else (len, []).

(** The loop of [_ram_clear] over [n] segments. *)
Fixpoint _ram_clear_loop (n : nat) (item : nat) (offset : Z) (r : ram) : Z * ram :=
  match n with
  | O => (0, r)
  | S n =>
      if data_end r <? offset then (-1, r)
      else _ram_clear_loop n item (offset + g_per_item_size item) (Ram (<[offset := 0]> (data r)) (data_end r))
  end.

Definition _ram_clear (item : nat) (r : ram) : result * ram :=
  let offset := calculate_offset item 0 in
  if offset <? 0 then ((-1, []), r)
  else let '(res, r) := _ram_clear_loop (Z.to_nat (g_per_item_max_index item)) item offset r in ((res, []), r).

(** One segment of a restart. *)
Definition ram_restart_segment (reason : dm_reset_reason) (buffer : Z) (m : gmap Z Z) : gmap Z Z :=
  if negb (get m buffer =? 0) && clear_entry reason (get m (buffer + 1)) then <[buffer := 0]> m else m.

(** The segments of an item type, and the types in order. *)
Fixpoint ram_restart_items (n : nat) (item : nat) (reason : dm_reset_reason) (buffer : Z) (m : gmap Z Z) : Z * gmap Z Z :=
  match n with
  | O => (buffer, m)
  | S n => ram_restart_items n item reason (buffer + g_per_item_size item) (ram_restart_segment reason buffer m)
  end.

Definition _ram_restart (reason : dm_reset_reason) (r : ram) : result * ram :=
  let '(_, m) := fold_left (fun '(buffer, m) item => ram_restart_items (Z.to_nat (g_per_item_max_index item)) item reason buffer m)
                   (seq 0 DM_KEY_NUM_KEYS) (0, data r) in
  ((0, []), Ram m (data_end r)).

(** The memory is allocated and zeroed. *)
Definition _ram_initialize : ram := Ram ∅ (max_offset - 1).

Definition ram_step (q : request) (r : ram) : result * ram :=
  match q with
  | Write item index p buf => _ram_write item index p buf r
  | Read item index count => (_ram_read item index (Z.of_nat count) r, r)
  | Clear item => _ram_clear item r
  | Restart reason => _ram_restart reason r
  end.

(** * The file *)

(** How a system call goes: as it should, not at all, or only for some bytes. *)
Inductive fault := Works | Fails (error : Z) | Short (n : nat).

(** The file and the descriptor of the task; [faults] says how the coming calls
    go, all of those after the list as they should. *)
Record file := File {
  exists_ : bool; contents : gmap Z Z; size : Z; fpos : Z; errno : Z; faults : list fault
}.

(** Nothing has been stored yet. *)
Definition no_file : file := File false ∅ 0 0 0 [].

Definition with_faults (fs : list fault) (f : file) : file := File (exists_ f) (contents f) (size f) (fpos f) (errno f) fs.
Definition with_pos (p : Z) (f : file) : file := File (exists_ f) (contents f) (size f) p (errno f) (faults f).
Definition with_errno (e : Z) (f : file) : file := File (exists_ f) (contents f) (size f) (fpos f) e (faults f).
Definition next_fault (f : file) : fault * file :=
  match faults f with [] => (Works, f) | x :: fs => (x, with_faults fs f) end.

Definition lseek (offset : Z) (f : file) : Z * file :=
  match next_fault f with
  | (Works, f) => (offset, with_pos offset f)
  | (Fails e, f) => (-1, with_errno e f)
  | (Short _, f) => (-1, f)
  end.

(** The bytes from the position on, up to the end of the file. *)
Definition read_bytes (n : nat) (f : file) : Z * list Z * file :=
  let n := Nat.min n (Z.to_nat (size f - fpos f)) in
  (Z.of_nat n, range (contents f) (fpos f) n, with_pos (fpos f + Z.of_nat n) f).
Definition read (n : nat) (f : file) : Z * list Z * file :=
  match next_fault f with
  | (Works, f) => read_bytes n f
  | (Short k, f) => read_bytes (Nat.min k n) f
  | (Fails e, f) => (-1, [], with_errno e f)
  end.

Definition write_bytes (bs : list Z) (f : file) : Z * file :=
  let n := Z.of_nat (length bs) in
  (n, File (exists_ f) (put (contents f) (fpos f) bs) (Z.max (size f) (fpos f + n)) (fpos f + n) (errno f) (faults f)).
Definition write (bs : list Z) (f : file) : Z * file :=
  match next_fault f with
  | (Works, f) => write_bytes bs f
  | (Short k, f) => write_bytes (take k bs) f
  | (Fails e, f) => (-1, with_errno e f)
  end.

Definition _file_write (item index : nat) (p : dm_persitence_t) (buf : list Z) (f : file) : result * file :=
  let offset := calculate_offset item index in
  if offset <? 0 then ((-1, []), f)
  else if g_per_item_size item - DM_SECTOR_HDR_SIZE <? Z.of_nat (length buf) then ((- E2BIG, []), f)
  else
    let '(o, f) := lseek offset f in
    if negb (o =? offset) then ((-1, []), f)
    else
      let '(n, f) := write (segment p buf) f in
      if negb (n =? Z.of_nat (length buf) + DM_SECTOR_HDR_SIZE) then ((-1, []), f)
      else ((Z.of_nat (length buf), []), f).

Section Stack.
(** What the buffer of [_file_read] holds before the read. *)
Variable stack : nat -> Z.

Definition _file_read (item index : nat) (count : Z) (f : file) : result * file :=
  if (DM_KEY_NUM_KEYS <=? item)%nat then ((-1, []), f)
  else
    let offset := calculate_offset item index in
    if offset <? 0 then ((-1, []), f)
    else if g_per_item_size item - DM_SECTOR_HDR_SIZE <? count then ((- E2BIG, []), f)
    else
      let '(o, f) := lseek offset f in
      let '(len, bs, f) := if o =? offset then read (Z.to_nat (count + DM_SECTOR_HDR_SIZE)) f else (-1, [], f) in
      if len <? 0 then ((- errno f, []), f)
      else
        let buffer i := if (i <? length bs)%nat then nth i bs 0 else stack i in
        let len0 := if len =? 0 then 0 else buffer 0%nat in
        if 0 <? len0 then
          if count <? len0 then ((-1, []), f) else ((len0, map (fun i => buffer (4 + i)%nat) (seq 0 (Z.to_nat len0))), f)
        else ((len0, []), f).

(** The loop of [_file_clear]: a segment is overwritten only where it is used. *)
Fixpoint _file_clear_loop (n : nat) (item : nat) (offset : Z) (f : file) : Z * file :=
  match n with
  | O => (0, f)
  | S n =>
      let '(o, f) := lseek offset f in
      if negb (o =? offset) then (-1, f)
      else
        let '(len, bs, f) := read 1 f in
        if len <? 1 then (0, f)
        else if nth 0 bs 0 =? 0 then _file_clear_loop n item (offset + g_per_item_size item) f
        else
          let '(o, f) := lseek offset f in
          if negb (o =? offset) then (-1, f)
          else
            let '(w, f) := write [0] f in
            if negb (w =? 1) then (-1, f) else _file_clear_loop n item (offset + g_per_item_size item) f
  end.

Definition _file_clear (item : nat) (f : file) : result * file :=
  let offset := calculate_offset item 0 in
  if offset <? 0 then ((-1, []), f)
  else let '(res, f) := _file_clear_loop (Z.to_nat (g_per_item_max_index item)) item offset f in ((res, []), f).

(** One segment of a restart; false where the loops are left with an error. *)
Definition file_restart_segment (reason : dm_reset_reason) (offset : Z) (f : file) : bool * file :=
  let '(o, f) := lseek offset f in
  if negb (o =? offset) then (false, f)
  else
    let '(len, buffer, f) := read 2 f in
    if negb (len =? 2) then (false, f)
    else if negb (nth 0 buffer 0 =? 0) && clear_entry reason (nth 1 buffer 0) then
      let '(o, f) := lseek offset f in
      if negb (o =? offset) then (false, f)
      else let '(w, f) := write [0] f in (w =? 1, f)
    else (true, f).

Fixpoint file_restart_items (n : nat) (item : nat) (reason : dm_reset_reason) (offset : Z) (f : file) : bool * Z * file :=
  match n with
  | O => (true, offset, f)
  | S n =>
      let '(ok, f) := file_restart_segment reason offset f in
      if ok then file_restart_items n item reason (offset + g_per_item_size item) f else (false, offset, f)
  end.

Definition _file_restart (reason : dm_reset_reason) (f : file) : result * file :=
  let '(ok, _, f) :=
    fold_left (fun '(ok, offset, f) item =>
                 if ok : bool then file_restart_items (Z.to_nat (g_per_item_max_index item)) item reason offset f else (ok, offset, f))
      (seq 0 DM_KEY_NUM_KEYS) (true, 0, f) in
  ((if ok then 0 else -1, []), f).

(** [open] without and with [O_CREAT], and [unlink]. *)
Definition open_existing (f : file) : bool * file :=
  match next_fault f with
  | (Works, f) => (exists_ f, with_pos 0 f)
  | (_, f) => (false, f)
  end.
Definition open_create (f : file) : bool * file :=
  match next_fault f with
  | (Works, f) =>
      (true, if exists_ f then with_pos 0 f else File true ∅ 0 0 (errno f) (faults f))
  | (_, f) => (false, f)
  end.
Definition unlink (f : file) : file :=
  match next_fault f with
  | (Works, f) => File false ∅ 0 0 (errno f) (faults f)
  | (_, f) => f
  end.

(** The old file is deleted unless its first compatibility item has the key. *)
Definition check_compat (f : file) : file :=
  let '(opened, f) := open_existing f in
  if opened then
    let '((ret, bytes), f) := _file_read DM_KEY_COMPAT 0 sizeof_compat f in
    if (ret =? sizeof_compat) && bool_decide (bytes = compat_bytes) then f else unlink f
  else f.

Definition _file_initialize (f : file) : Z * file :=
  let f := check_compat f in
  let '(opened, f) := open_create f in
  if negb opened then (-1, f)
  else
    let '(o, f) := lseek max_offset f in
    if negb (o =? max_offset) then (-1, f)
    else let '(_, f) := _file_write DM_KEY_COMPAT 0 DM_PERSIST_POWER_ON_RESET compat_bytes f in (0, f).

Definition file_step (q : request) (f : file) : result * file :=
  match q with
  | Write item index p buf => _file_write item index p buf f
  | Read item index count => _file_read item index (Z.of_nat count) f
  | Clear item => _file_clear item f
  | Restart reason => _file_restart reason f
  end.

(** The start of the task: the file, and the restart that SYS_RESTART_TYPE asks for. *)
Definition restart_of (sys_restart_type : option Z) : option dm_reset_reason :=
  match sys_restart_type with
  | Some 0 => Some DM_INIT_REASON_POWER_ON
  | Some 1 => Some DM_INIT_REASON_IN_FLIGHT
  | _ => None
  end.
Definition file_boot (sys_restart_type : option Z) (f : file) : Z * file :=
  let '(ret, f) := _file_initialize f in
  if negb (ret =? 0) then (ret, f)
  else (0, match restart_of sys_restart_type with Some reason => (_file_restart reason f).2 | None => f end).
End Stack.

(** * The specification: a map *)

(** The items that hold data, with their persistence. *)
Abbreviation store := (gmap (nat * nat) (Z * list Z)).

Definition valid (item index : nat) : bool := (item <? DM_KEY_NUM_KEYS)%nat && (Z.of_nat index <? g_per_item_max_index item).
Definition capacity (item : nat) : Z := g_per_item_size item - DM_SECTOR_HDR_SIZE.

(** What survives a restart. *)
Definition survives (reason : dm_reset_reason) (persistence : Z) : bool :=
  persistence <=? match reason with DM_INIT_REASON_POWER_ON => 0 | _ => 1 end.

Definition spec_step (q : request) (s : store) : result * store :=
  match q with
  | Write item index p buf =>
      if negb (valid item index) then ((-1, []), s)
      else if capacity item <? Z.of_nat (length buf) then ((- E2BIG, []), s)
      else ((Z.of_nat (length buf), []),
            match buf with [] => delete (item, index) s | _ => <[(item, index) := (persistence_byte p, buf)]> s end)
  | Read item index count =>
      if negb (valid item index) then ((-1, []), s)
      else if capacity item <? Z.of_nat count then ((- E2BIG, []), s)
      else match s !! (item, index) with
           | Some (_, bs) => if Z.of_nat count <? Z.of_nat (length bs) then ((-1, []), s) else ((Z.of_nat (length bs), bs), s)
           | None => ((0, []), s)
           end
  | Clear item =>
      if negb (valid item 0) then ((-1, []), s)
      else ((0, []), filter (fun kv => kv.1.1 <> item) s)
  | Restart reason => ((0, []), filter (fun kv => survives reason kv.2.1 = true) s)
  end.

(** The item that tells whether a store is of this version of the software. *)
Definition COMPAT : nat * nat := (DM_KEY_COMPAT, 0%nat).
Definition keeps (s : store) : bool :=
  match s !! COMPAT with Some (_, bs) => bool_decide (bs = compat_bytes) | None => false end.

(** A start keeps a store with the right key, and what its restart lets survive. *)
Definition spec_boot (sys_restart_type : option Z) (s : store) : store :=
  let s := <[COMPAT := (persistence_byte DM_PERSIST_POWER_ON_RESET, compat_bytes)]> (if keeps s then s else ∅) in
  match restart_of sys_restart_type with Some reason => (spec_step (Restart reason) s).2 | None => s end.

(** * Histories *)

(** Requests and starts of the task. *)
Inductive event := Request (q : request) | Boot (sys_restart_type : option Z).

Definition file_event (stack : nat -> Z) (e : event) (f : file) : result * file :=
  match e with
  | Request q => file_step stack q f
  | Boot t => let '(ret, f) := file_boot stack t f in ((ret, []), f)
  end.
Definition spec_event (e : event) (s : store) : result * store :=
  match e with
  | Request q => spec_step q s
  | Boot t => ((0, []), spec_boot t s)
  end.
(** The results, in order, and the state after them. *)
Fixpoint outcomes {E S} (step : E -> S -> result * S) (es : list E) (s : S) : list result * S :=
  match es with
  | [] => ([], s)
  | e :: es => let '(r, s) := step e s in let '(rs, s) := outcomes step es s in (r :: rs, s)
  end.

(** * Locks *)

(** The values of the semaphores of the item types that have one; [up] says whether
    the task runs and is not told to stop. *)
Abbreviation locks := (gmap nat Z).
Definition g_item_locks : locks := {[DM_KEY_MISSION_STATE := 1; DM_KEY_FENCE_POINTS := 1]}.

(** [None] where the caller blocks. *)
Definition dm_lock (up : bool) (item : nat) (l : locks) : option (Z * locks) :=
  if negb up then Some (-1, l)
  else if (DM_KEY_NUM_KEYS <=? item)%nat then Some (-1, l)
  else match l !! item with
       | Some n => if 0 <? n then Some (0, <[item := n - 1]> l) else None
       | None => Some (-1, l)
       end.
Definition dm_trylock (up : bool) (item : nat) (l : locks) : Z * locks :=
  if negb up then (-1, l)
  else if (DM_KEY_NUM_KEYS <=? item)%nat then (-1, l)
  else match l !! item with
       | Some n => if 0 <? n then (0, <[item := n - 1]> l) else (-1, l)
       | None => (-1, l)
       end.
Definition dm_unlock (up : bool) (item : nat) (l : locks) : locks :=
  if negb up then l
  else if (DM_KEY_NUM_KEYS <=? item)%nat then l
  else match l !! item with Some n => <[item := n + 1]> l | None => l end.
