(* ===== verification/DatamanStore.v ===== *)
(** The data manager's storage refines a map, in memory and in the file, through
    starts of the task; what system calls that fail can do to it. *)

From Stdlib Require Import ZArith Lia ZifyBool.
From stdpp Require Import base list gmap numbers.
From S2P Require Import Prelude Dataman.

Local Open Scope Z_scope.

(** * Bytes *)

Lemma get_put m a bs x :
  get (put m a bs) x = if (a <=? x) && (x <? a + Z.of_nat (length bs)) then nth (Z.to_nat (x - a)) bs 0 else get m x.
Proof.
  revert a. induction bs as [|b bs IH]; intros a; cbn [put length].
  - destruct (a <=? x) eqn:E1, (x <? a + Z.of_nat 0) eqn:E2; cbn; try done. lia.
  - unfold get in *. destruct (decide (x = a)) as [-> | Hne].
    + rewrite lookup_insert. cbn. rewrite decide_True by done.
      replace (a <=? a) with true by lia. replace (a <? a + Z.of_nat (S (length bs))) with true by lia. cbn. by rewrite Z.sub_diag.
    + rewrite lookup_insert_ne by done. rewrite IH.
      destruct (a <=? x) eqn:E1, (a + 1 <=? x) eqn:E2; try lia; cbn; [|done].
      replace (x <? a + 1 + Z.of_nat (length bs)) with (x <? a + Z.of_nat (S (length bs))) by (f_equal; lia).
      destruct (x <? _) eqn:E3; [|done]. replace (Z.to_nat (x - a)) with (S (Z.to_nat (x - (a + 1)))) by lia. done.
Qed.

Lemma get_insert m a b x : get (<[a := b]> m) x = if x =? a then b else get m x.
Proof.
  unfold get. destruct (Z.eqb_spec x a) as [-> | H]; [by rewrite lookup_insert_eq | by rewrite lookup_insert_ne].
Qed.

Lemma range_ext m m' a n : (forall x, a <= x < a + Z.of_nat n -> get m x = get m' x) -> range m a n = range m' a n.
Proof. intros H. unfold range. apply map_ext_in. intros i Hi. apply in_seq in Hi. apply H. lia. Qed.

Lemma length_range m a n : length (range m a n) = n.
Proof. unfold range. by rewrite length_map, length_seq. Qed.

Lemma nth_range m a n i : (i < n)%nat -> nth i (range m a n) 0 = get m (a + Z.of_nat i).
Proof.
  intros Hi. unfold range. rewrite (nth_indep _ 0 (get m (a + Z.of_nat 0))) by (by rewrite length_map, length_seq).
  rewrite (map_nth (fun i => get m (a + Z.of_nat i))). by rewrite seq_nth.
Qed.

Lemma range_list m a bs : (forall i, (i < length bs)%nat -> get m (a + Z.of_nat i) = nth i bs 0) -> range m a (length bs) = bs.
Proof.
  intros H. apply (nth_ext _ _ 0 0); rewrite length_range; [done|]. intros i Hi. by rewrite nth_range, H.
Qed.

(** * Segments *)

Lemma items_cases item : (item < DM_KEY_NUM_KEYS)%nat -> In item (seq 0 DM_KEY_NUM_KEYS).
Proof. intros H. apply in_seq. cbn in *. lia. Qed.

Ltac each_item H :=
  apply items_cases in H; cbn [seq DM_KEY_NUM_KEYS In] in H;
  repeat (destruct H as [<- | H]); [..|destruct H].

Lemma item_bounds item : (item < DM_KEY_NUM_KEYS)%nat ->
  0 < capacity item < 252 /\ g_per_item_size item = capacity item + DM_SECTOR_HDR_SIZE /\ 0 < g_per_item_max_index item.
Proof. intros H. each_item H; by cbv. Qed.

Lemma valid_indices item index :
  valid item index = true <-> (item < DM_KEY_NUM_KEYS)%nat /\ Z.of_nat index < g_per_item_max_index item.
Proof. unfold valid. by rewrite andb_true_iff, Nat.ltb_lt, Z.ltb_lt. Qed.

Lemma valid_first item : valid item 0 = (item <? DM_KEY_NUM_KEYS)%nat.
Proof.
  unfold valid. destruct (item <? _)%nat eqn:E; [|done]. apply Nat.ltb_lt, item_bounds in E as (_ & _ & E). by apply Z.ltb_lt.
Qed.

(** The place of a valid item. *)
Definition place (item index : nat) : Z := g_key_offsets item + Z.of_nat index * g_per_item_size item.

Lemma offset_valid item index : valid item index = true -> calculate_offset item index = place item index.
Proof.
  rewrite valid_indices. intros [H1 H2]. unfold calculate_offset.
  destruct (Nat.leb_spec DM_KEY_NUM_KEYS item); [lia|]. destruct (Z.leb_spec (g_per_item_max_index item) (Z.of_nat index)); [lia|]. done.
Qed.

Lemma offset_invalid item index : valid item index = false -> calculate_offset item index = -1.
Proof.
  unfold valid, calculate_offset. intros H. apply andb_false_iff in H. rewrite Nat.ltb_ge, Z.ltb_ge in H.
  destruct (Nat.leb_spec DM_KEY_NUM_KEYS item); [done|]. destruct (Z.leb_spec (g_per_item_max_index item) (Z.of_nat index)); [done | lia].
Qed.

(** A type's items are in its part of the storage, and the parts follow one another. *)
Lemma place_in_part item index : valid item index = true ->
  g_key_offsets item <= place item index /\ place item index + g_per_item_size item <= g_key_offsets (S item).
Proof.
  rewrite valid_indices. intros [H1 H2]. unfold place. pose proof (item_bounds item H1) as (? & -> & ?).
  cbn [g_key_offsets]. destruct (item_bounds item H1) as (_ & -> & _). unfold DM_SECTOR_HDR_SIZE in *. nia.
Qed.

Lemma parts_ordered item item' : (item <= item')%nat -> (item' <= DM_KEY_NUM_KEYS)%nat -> g_key_offsets item <= g_key_offsets item'.
Proof.
  intros H. induction H as [|item' H IH]; [lia|]. intros H'. cbn [g_key_offsets].
  destruct (item_bounds item' ltac:(lia)) as (? & -> & ?). unfold DM_SECTOR_HDR_SIZE. specialize (IH ltac:(lia)). nia.
Qed.

Lemma place_bounds item index : valid item index = true ->
  0 <= place item index /\ place item index + g_per_item_size item <= max_offset.
Proof.
  intros H. destruct (place_in_part item index H) as [H1 H2]. apply valid_indices in H as [H _].
  pose proof (parts_ordered 0 item ltac:(lia) ltac:(lia)) as H3. pose proof (parts_ordered (S item) DM_KEY_NUM_KEYS ltac:(lia) ltac:(lia)) as H4.
  change (g_key_offsets 0) with 0 in H3. unfold max_offset. lia.
Qed.

(** Two items have separate places. *)
Lemma places_separate item index item' index' :
  valid item index = true -> valid item' index' = true -> (item, index) <> (item', index') ->
  place item index + g_per_item_size item <= place item' index' \/ place item' index' + g_per_item_size item' <= place item index.
Proof.
  intros H H' Hne. destruct (place_in_part _ _ H) as [H1 H2]. destruct (place_in_part _ _ H') as [H1' H2'].
  apply valid_indices in H as [H _], H' as [H' _]. destruct (Nat.lt_trichotomy item item') as [Hlt | [-> | Hlt]].
  - left. pose proof (parts_ordered (S item) item' ltac:(lia) ltac:(lia)). lia.
  - assert (index <> index') by congruence. unfold place. destruct (item_bounds item' H) as (? & -> & _). unfold DM_SECTOR_HDR_SIZE. nia.
  - right. pose proof (parts_ordered (S item') item ltac:(lia) ltac:(lia)). lia.
Qed.

(** * The storage holds a store *)

Definition slot (m : gmap Z Z) (a : Z) (item : nat) (e : option (Z * list Z)) : Prop :=
  match e with
  | None => get m a = 0
  | Some (p, bs) =>
      get m a = Z.of_nat (length bs) /\ get m (a + 1) = p /\ range m (a + DM_SECTOR_HDR_SIZE) (length bs) = bs
      /\ 0 < Z.of_nat (length bs) <= capacity item
  end.

Record holds (m : gmap Z Z) (s : store) : Prop := {
  h_keys : forall item index, is_Some (s !! (item, index)) -> valid item index = true;
  h_slot : forall item index, valid item index = true -> slot m (place item index) item (s !! (item, index))
}.

(** The bytes of a place. *)
Definition inside (item index : nat) (x : Z) : Prop := place item index <= x < place item index + g_per_item_size item.

Lemma slot_ext m m' item index e :
  (item < DM_KEY_NUM_KEYS)%nat ->
  (forall x, inside item index x -> get m' x = get m x) -> slot m (place item index) item e -> slot m' (place item index) item e.
Proof.
  intros Hi H. pose proof (item_bounds item Hi) as (Hc & Hs & _). unfold inside in H. rewrite Hs in H. unfold DM_SECTOR_HDR_SIZE in *.
  destruct e as [[p bs]|]; cbn [slot]; [|by rewrite H by lia].
  intros (H1 & H2 & H3 & H4). split_and!; [by rewrite H by lia | by rewrite H by lia | | lia | lia].
  rewrite <- H3 at 2. apply range_ext. intros x Hx. unfold DM_SECTOR_HDR_SIZE in *. apply H. lia.
Qed.

Lemma not_inside item index item' index' x :
  valid item index = true -> valid item' index' = true -> (item, index) <> (item', index') -> inside item index x -> ~ inside item' index' x.
Proof. intros H H' Hne. unfold inside. destruct (places_separate _ _ _ _ H H' Hne); lia. Qed.

(** One item is replaced. *)
Lemma holds_update m m' s s' item index :
  holds m s -> valid item index = true ->
  (forall x, ~ inside item index x -> get m' x = get m x) ->
  slot m' (place item index) item (s' !! (item, index)) ->
  (forall k, k <> (item, index) -> s' !! k = s !! k) -> holds m' s'.
Proof.
  intros [K H] Hv Hm Hs Ho. split.
  - intros i j Hij. destruct (decide ((i, j) = (item, index))) as [[= -> ->] | Hne]; [done|]. apply K. by rewrite <- Ho.
  - intros i j Hij. destruct (decide ((i, j) = (item, index))) as [[= -> ->] | Hne]; [done|]. rewrite Ho by done.
    apply (slot_ext m); [by apply valid_indices in Hij as [? _] | | by apply H].
    intros x Hx. apply Hm. by apply (not_inside i j).
Qed.

(** Writing a segment. *)
Lemma segment_length p buf : Z.of_nat (length (segment p buf)) = Z.of_nat (length buf) + DM_SECTOR_HDR_SIZE.
Proof. unfold segment, DM_SECTOR_HDR_SIZE. rewrite length_app. cbn [length]. lia. Qed.

Lemma slot_written m item index p buf :
  (item < DM_KEY_NUM_KEYS)%nat -> Z.of_nat (length buf) <= capacity item ->
  slot (put m (place item index) (segment p buf)) (place item index) item
    (match buf with [] => None | _ => Some (persistence_byte p, buf) end).
Proof.
  intros Hi Hl. pose proof (item_bounds item Hi) as (Hc & _ & _). set (a := place item index).
  assert (HG : forall i, (i < length (segment p buf))%nat -> get (put m a (segment p buf)) (a + Z.of_nat i) = nth i (segment p buf) 0).
  { intros i Hlt. rewrite get_put. replace (_ && _) with true by lia. f_equal. lia. }
  pose proof (segment_length p buf) as HL. unfold DM_SECTOR_HDR_SIZE in *.
  assert (H0 : get (put m a (segment p buf)) a = u8 (Z.of_nat (length buf))).
  { rewrite <- (Z.add_0_r a) at 2. apply (HG 0%nat). lia. }
  unfold u8 in H0. rewrite Z.mod_small in H0 by lia. destruct buf as [|b buf]; [by apply H0|]. cbn [slot].
  split_and!; [done | apply (HG 1%nat); lia | | cbn; lia | lia].
  apply range_list. intros i Hlt. replace (a + DM_SECTOR_HDR_SIZE + Z.of_nat i) with (a + Z.of_nat (4 + i)) by (unfold DM_SECTOR_HDR_SIZE; lia).
  rewrite HG by lia. done.
Qed.

Lemma holds_write m s item index p buf :
  holds m s -> valid item index = true -> Z.of_nat (length buf) <= capacity item ->
  holds (put m (place item index) (segment p buf)) (spec_step (Write item index p buf) s).2.
Proof.
  intros H Hv Hl. pose proof (proj1 (valid_indices _ _) Hv) as [Hi _]. pose proof (item_bounds item Hi) as (_ & HS & _).
  cbn [spec_step]. rewrite Hv. cbn [negb]. destruct (Z.ltb_spec (capacity item) (Z.of_nat (length buf))); [lia|]. cbn [snd].
  apply (holds_update m _ s _ item index H Hv).
  - intros x Hx. rewrite get_put. unfold inside in Hx. rewrite segment_length, HS in *. unfold DM_SECTOR_HDR_SIZE in *.
    by replace (_ && _) with false by lia.
  - pose proof (slot_written m item index p buf Hi Hl) as Hw. by destruct buf; [rewrite lookup_delete_eq | rewrite lookup_insert_eq].
  - intros k Hk. destruct buf; [by rewrite lookup_delete_ne | by rewrite lookup_insert_ne].
Qed.

(** ** Erasing *)

(** Some of the items in [D] are erased, those that [c] tells, and nothing else
    has changed. *)
Record erased (D : nat -> nat -> Prop) (c : Z -> bool) (m m' : gmap Z Z) : Prop := {
  er_zero : forall item index, valid item index = true -> D item index -> c (place item index) = true -> get m' (place item index) = 0;
  er_same : forall x, (forall item index, valid item index = true -> D item index -> c x = true -> x <> place item index) -> get m' x = get m x
}.

Lemma place_inj item index item' index' :
  valid item index = true -> valid item' index' = true -> place item index = place item' index' -> (item, index) = (item', index').
Proof.
  intros H H' E. destruct (decide ((item, index) = (item', index'))) as [|Hne]; [done|].
  pose proof (proj1 (valid_indices _ _) H) as [Hi _]. pose proof (proj1 (valid_indices _ _) H') as [Hi' _].
  pose proof (item_bounds _ Hi) as (? & HS & _). pose proof (item_bounds _ Hi') as (? & HS' & _).
  destruct (places_separate _ _ _ _ H H' Hne); unfold DM_SECTOR_HDR_SIZE in *; lia.
Qed.

Lemma place_next item index item' index' :
  valid item index = true -> valid item' index' = true -> place item index + 1 <> place item' index'.
Proof.
  intros H H' E. pose proof (proj1 (valid_indices _ _) H) as [Hi _]. pose proof (proj1 (valid_indices _ _) H') as [Hi' _].
  pose proof (item_bounds _ Hi) as (? & HS & _). pose proof (item_bounds _ Hi') as (? & HS' & _). unfold DM_SECTOR_HDR_SIZE in *.
  destruct (decide ((item, index) = (item', index'))) as [[= -> ->]|Hne]; [lia|].
  destruct (places_separate _ _ _ _ H H' Hne); lia.
Qed.

Lemma erased_none D c m : (forall item index, ~ D item index) -> erased D c m m.
Proof. intros H. split; [by intros i j _ Hd; destruct (H i j) | done]. Qed.

(** One more item. *)
Lemma erased_one (D D' : nat -> nat -> Prop) c m m1 m2 item index :
  erased D c m m1 -> valid item index = true ->
  (forall i j, D' i j <-> D i j \/ (i, j) = (item, index)) ->
  (forall x, get m2 x = if (x =? place item index) && c (place item index) then 0 else get m1 x) ->
  erased D' c m m2.
Proof.
  intros [HZ HS] Hv HD H2. split.
  - intros i j Hij Hd Hc. rewrite H2. destruct (Z.eqb_spec (place i j) (place item index)) as [E | Hne].
    + rewrite <- E, Hc. done.
    + cbn [andb]. apply HZ; [done | | done]. apply HD in Hd as [Hd | [= -> ->]]; done.
  - intros x Hx. rewrite H2. destruct (Z.eqb_spec x (place item index)) as [-> | Hne].
    + cbn [andb]. destruct (c (place item index)) eqn:Hc.
      * destruct (Hx item index Hv (proj2 (HD _ _) (or_intror eq_refl)) eq_refl eq_refl).
      * apply HS. intros i j _ _ Hc'. congruence.
    + cbn [andb]. apply HS. intros i j Hij Hd Hc. apply Hx; [done | by apply HD; left | done].
Qed.

Lemma holds_erased D c m m' s s' :
  holds m s -> erased D c m m' ->
  (forall item index, valid item index = true ->
     (D item index /\ c (place item index) = true /\ s' !! (item, index) = None)
     \/ (~ (D item index /\ c (place item index) = true) /\ s' !! (item, index) = s !! (item, index))) ->
  (forall item index, is_Some (s' !! (item, index)) -> is_Some (s !! (item, index))) ->
  holds m' s'.
Proof.
  intros [K H] [HZ HS] HO HK. split; [intros i j Hij; by apply K, HK|]. intros i j Hij.
  destruct (HO i j Hij) as [(Hd & Hc & ->) | [Hno ->]]; [by apply HZ|].
  apply (slot_ext m); [by apply valid_indices in Hij as [? _] | | by apply H]. intros x Hx.
  apply HS. intros i' j' Hij' Hd Hc ->.
  destruct (decide ((i, j) = (i', j'))) as [[= -> ->] | Hne]; [by apply Hno|].
  apply (not_inside i j i' j' (place i' j')); [done | done | done | done|]. unfold inside.
  pose proof (proj1 (valid_indices _ _) Hij') as [Hi' _]. pose proof (item_bounds _ Hi') as (? & -> & _). unfold DM_SECTOR_HDR_SIZE. lia.
Qed.

(** Up to an index of an item type, and up to an item type: the order in which the
    loops go. *)
Definition upto_index (item k : nat) (i j : nat) : Prop := i = item /\ (j < k)%nat.
Definition upto (item k : nat) (i j : nat) : Prop := (i < item)%nat \/ (i = item /\ (j < k)%nat).

Lemma upto_index_S item k i j : upto_index item (S k) i j <-> upto_index item k i j \/ (i, j) = (item, k).
Proof. unfold upto_index. rewrite pair_equal_spec. lia. Qed.
Lemma upto_S item k i j : upto item (S k) i j <-> upto item k i j \/ (i, j) = (item, k).
Proof. unfold upto. rewrite pair_equal_spec. lia. Qed.

Lemma place_S item k : place item (S k) = place item k + g_per_item_size item.
Proof. unfold place. lia. Qed.
Lemma place_first item : place item 0 = g_key_offsets item.
Proof. unfold place. lia. Qed.
Lemma place_end item : (item < DM_KEY_NUM_KEYS)%nat ->
  place item (Z.to_nat (g_per_item_max_index item)) = place (S item) 0.
Proof. intros H. pose proof (item_bounds item H) as (_ & _ & ?). rewrite place_first. unfold place. cbn [g_key_offsets]. lia. Qed.

(** A segment of a restart is erased if it was to be. *)
Definition to_erase (reason : dm_reset_reason) (m : gmap Z Z) (a : Z) : bool :=
  negb (get m a =? 0) && clear_entry reason (get m (a + 1)).

(** The segments that are still to come have not changed. *)
Lemma to_erase_ahead reason m m' item k :
  erased (upto item k) (to_erase reason m) m m' -> valid item k = true ->
  to_erase reason m' (place item k) = to_erase reason m (place item k).
Proof.
  intros [_ HS] Hv. unfold to_erase. rewrite !HS; [done | |].
  - intros i j Hij Hu _ E. apply place_next in E; done.
  - intros i j Hij Hu _ E. apply place_inj in E as [= <- <-]; [|done|done]. unfold upto in Hu. lia.
Qed.

(** ** In memory *)

Definition ram_ok (r : ram) : Prop := data_end r = max_offset - 1.

Lemma ram_clear_loop_erases m item n : forall k r,
  ram_ok r -> (item < DM_KEY_NUM_KEYS)%nat -> Z.of_nat k + Z.of_nat n <= g_per_item_max_index item ->
  erased (upto_index item k) (fun _ => true) m (data r) ->
  exists m', _ram_clear_loop n item (place item k) r = (0, Ram m' (data_end r))
    /\ erased (upto_index item (k + n)) (fun _ => true) m m'.
Proof.
  induction n as [|n IH]; intros k r Hr Hi Hn HE; cbn [_ram_clear_loop].
  - exists (data r). rewrite Nat.add_0_r. by destruct r.
  - assert (Hv : valid item k = true) by (apply valid_indices; split; [done | lia]).
    pose proof (place_bounds item k Hv) as [_ Hb]. pose proof (item_bounds item Hi) as (? & HS & _). unfold DM_SECTOR_HDR_SIZE in *.
    destruct (Z.ltb_spec (data_end r) (place item k)) as [Hx | _]; [unfold ram_ok in Hr; lia|]. rewrite <- place_S.
    destruct (IH (S k) (Ram (<[place item k := 0]> (data r)) (data_end r))) as (m' & -> & HE'); [done | done | lia | |].
    + apply (erased_one _ _ _ _ _ _ item k HE Hv (upto_index_S item k)). intros x. cbn [data]. rewrite get_insert, andb_true_r. done.
    + exists m'. by replace (k + S n)%nat with (S k + n)%nat by lia.
Qed.

Lemma ram_restart_items_erases m item reason n : forall k m1,
  (item < DM_KEY_NUM_KEYS)%nat -> Z.of_nat k + Z.of_nat n <= g_per_item_max_index item ->
  erased (upto item k) (to_erase reason m) m m1 ->
  exists m', ram_restart_items n item reason (place item k) m1 = (place item (k + n), m')
    /\ erased (upto item (k + n)) (to_erase reason m) m m'.
Proof.
  induction n as [|n IH]; intros k m1 Hi Hn HE; cbn [ram_restart_items].
  - exists m1. by rewrite Nat.add_0_r.
  - assert (Hv : valid item k = true) by (apply valid_indices; split; [done | lia]). rewrite <- place_S.
    replace (k + S n)%nat with (S k + n)%nat by lia. apply IH; [done | lia|].
    apply (erased_one _ _ _ _ _ _ item k HE Hv (upto_S item k)). intros x. rewrite <- (to_erase_ahead _ _ _ _ _ HE Hv).
    unfold ram_restart_segment. fold (to_erase reason m1 (place item k)).
    destruct (to_erase reason m1 (place item k)); [by rewrite get_insert, andb_true_r | by rewrite andb_false_r].
Qed.

(** All items of a type, and then all types. *)
Lemma upto_next item c m m' : (item < DM_KEY_NUM_KEYS)%nat ->
  erased (upto item (Z.to_nat (g_per_item_max_index item))) c m m' -> erased (upto (S item) 0) c m m'.
Proof.
  intros Hi [HZ HS]. assert (HU : forall i j, valid i j = true -> (upto (S item) 0 i j <-> upto item (Z.to_nat (g_per_item_max_index item)) i j)).
  { intros i j Hv. apply valid_indices in Hv as [_ Hv]. unfold upto. split; [intros [?|[_ ?]]; [|lia] | lia].
    destruct (decide (i = item)) as [->|]; lia. }
  split; [intros i j Hv Hd; by apply HZ, HU | intros x Hx; apply HS; intros i j Hv Hd; by apply Hx, HU].
Qed.

Lemma ram_restart_erases reason r :
  exists m', _ram_restart reason r = ((0, []), Ram m' (data_end r)) /\ erased (upto DM_KEY_NUM_KEYS 0) (to_erase reason (data r)) (data r) m'.
Proof.
  unfold _ram_restart. set (step := fun '(buffer, m) item => ram_restart_items (Z.to_nat (g_per_item_max_index item)) item reason buffer m).
  assert (H : forall n item m1, (item + n <= DM_KEY_NUM_KEYS)%nat -> erased (upto item 0) (to_erase reason (data r)) (data r) m1 ->
    exists b m', fold_left step (seq item n) (place item 0, m1) = (b, m') /\ erased (upto (item + n) 0) (to_erase reason (data r)) (data r) m').
  { induction n as [|n IH]; intros item m1 Hn HE; cbn [seq fold_left]; [exists (place item 0), m1; by rewrite Nat.add_0_r|].
    pose proof (item_bounds item ltac:(lia)) as (_ & _ & ?).
    destruct (ram_restart_items_erases (data r) item reason (Z.to_nat (g_per_item_max_index item)) 0 m1) as (m2 & E & HE2); [lia | lia | done|].
    unfold step at 2. rewrite E, Nat.add_0_l, place_end by lia.
    replace (item + S n)%nat with (S item + n)%nat by lia. apply IH; [lia|]. apply upto_next; [lia | done]. }
  destruct (H DM_KEY_NUM_KEYS 0%nat (data r)) as (b & m' & E & HE); [done | apply erased_none; unfold upto; lia|].
  change (place 0 0) with 0 in E. rewrite E. exists m'. split; [reflexivity | exact HE].
Qed.

(** What reading a place gives, of the specification. *)
Lemma holds_len m s item index : holds m s -> valid item index = true ->
  get m (place item index) = match s !! (item, index) with Some (_, bs) => Z.of_nat (length bs) | None => 0 end.
Proof. intros [_ H] Hv. specialize (H item index Hv). destruct (s !! (item, index)) as [[p bs]|]; [by destruct H | done]. Qed.

Lemma holds_data m s item index p bs : holds m s -> s !! (item, index) = Some (p, bs) ->
  get m (place item index + 1) = p /\ range m (place item index + DM_SECTOR_HDR_SIZE) (length bs) = bs
  /\ 0 < Z.of_nat (length bs) <= capacity item.
Proof.
  intros [K H] E. specialize (H item index (K _ _ (ex_intro _ _ E))). rewrite E in H. by destruct H as (_ & ? & ? & ?).
Qed.

(** The two erasing requests, of the specification. *)
Lemma holds_clear m m' s item : holds m s ->
  erased (upto_index item (Z.to_nat (g_per_item_max_index item))) (fun _ => true) m m' ->
  holds m' (filter (fun kv => kv.1.1 <> item) s).
Proof.
  intros H HE. apply (holds_erased _ _ m m' s _ H HE).
  - intros i j Hv. apply valid_indices in Hv as [_ Hj]. destruct (decide (i = item)) as [-> | Hne].
    + left. split_and!; [split; [done | lia] | done|]. apply map_lookup_filter_None. right. intros x _ Hx. by apply Hx.
    + right. split; [by intros [[? _] _]|]. destruct (s !! (i, j)) as [e|] eqn:E.
      * apply map_lookup_filter_Some. by split.
      * apply map_lookup_filter_None. by left.
  - intros i j [e He]. apply map_lookup_filter_Some in He as [He _]. by exists e.
Qed.

Lemma clear_entry_spec reason p : clear_entry reason p = negb (survives reason p).
Proof. unfold clear_entry, survives. destruct reason; cbn [persistence_byte]; lia. Qed.

Lemma holds_restart m m' s reason : holds m s -> erased (upto DM_KEY_NUM_KEYS 0) (to_erase reason m) m m' ->
  holds m' (filter (fun kv => survives reason kv.2.1 = true) s).
Proof.
  intros H HE. apply (holds_erased _ _ m m' s _ H HE).
  - intros i j Hv. pose proof (proj1 (valid_indices _ _) Hv) as [Hi _]. unfold to_erase. rewrite (holds_len m s i j H Hv).
    destruct (s !! (i, j)) as [[p bs]|] eqn:E.
    + destruct (holds_data m s i j p bs H E) as (-> & _ & Hl). destruct (Z.eqb_spec (Z.of_nat (length bs)) 0); [lia|]. cbn [negb andb].
      rewrite clear_entry_spec. destruct (survives reason p) eqn:Hc; cbn [negb]; [right | left].
      * split; [by intros [_ ?]|]. by apply map_lookup_filter_Some.
      * split_and!; [left; done | done|]. apply map_lookup_filter_None. right. intros x Hx Hf. rewrite E in Hx.
        injection Hx as <-. cbn in Hf. congruence.
    + right. split; [by intros [_ ?]|]. apply map_lookup_filter_None. by left.
  - intros i j [e He]. apply map_lookup_filter_Some in He as [He _]. by exists e.
Qed.

Lemma max_index_valid item : valid item 0 = true -> Z.of_nat (Z.to_nat (g_per_item_max_index item)) <= g_per_item_max_index item.
Proof. rewrite valid_indices. lia. Qed.

(** In memory every request does what the map does. *)
Theorem ram_refines (q : request) (r : ram) (s : store) :
  ram_ok r -> holds (data r) s ->
  (ram_step q r).1 = (spec_step q s).1 /\ holds (data (ram_step q r).2) (spec_step q s).2 /\ ram_ok (ram_step q r).2.
Proof.
  intros Hr H. destruct q as [item index p buf | item index count | item | reason]; cbn [ram_step].
  - unfold _ram_write. destruct (valid item index) eqn:Hv; [|rewrite offset_invalid by done; cbn [spec_step]; by rewrite Hv].
    rewrite offset_valid by done. destruct (place_bounds item index Hv) as [Hb1 Hb2].
    pose proof (item_bounds item (proj1 (proj1 (valid_indices _ _) Hv))) as (? & HS & _). fold (capacity item). unfold DM_SECTOR_HDR_SIZE in *.
    destruct (Z.ltb_spec (place item index) 0); [lia|].
    destruct (Z.ltb_spec (capacity item) (Z.of_nat (length buf))) as [Hl | Hl];
      [cbn [spec_step]; rewrite Hv; cbn [negb]; by rewrite (proj2 (Z.ltb_lt _ _) Hl)|].
    destruct (Z.ltb_spec (data_end r) (place item index)); [unfold ram_ok in Hr; lia|].
    split_and!; [|by apply (holds_write (data r) s) | done].
    cbn [spec_step]. rewrite Hv. cbn [negb]. by rewrite (proj2 (Z.ltb_ge _ _) Hl).
  - cbn [snd]. split; [|by split; [cbn [spec_step]; repeat case_match | done]]. cbn [fst]. unfold _ram_read. cbn [spec_step].
    destruct (valid item index) eqn:Hv; [|by rewrite offset_invalid]. rewrite offset_valid by done. cbn [negb].
    destruct (place_bounds item index Hv) as [Hb1 Hb2].
    pose proof (item_bounds item (proj1 (proj1 (valid_indices _ _) Hv))) as (? & HS & _). fold (capacity item). unfold DM_SECTOR_HDR_SIZE in *.
    destruct (Z.ltb_spec (place item index) 0); [lia|]. destruct (_ <? Z.of_nat count); [done|].
    destruct (Z.ltb_spec (data_end r) (place item index)); [unfold ram_ok in Hr; lia|].
    rewrite (holds_len _ s item index H Hv). destruct (s !! (item, index)) as [[p bs]|] eqn:E; [|done].
    destruct (holds_data _ s item index p bs H E) as (_ & Hd & Hl). rewrite (proj2 (Z.ltb_lt 0 _)) by lia.
    rewrite Nat2Z.id. unfold DM_SECTOR_HDR_SIZE in Hd. rewrite Hd. by destruct (_ <? _).
  - unfold _ram_clear. cbn [spec_step]. destruct (valid item 0) eqn:Hv; [|by rewrite offset_invalid]. rewrite offset_valid by done. cbn [negb].
    destruct (place_bounds item 0 Hv) as [Hb1 _]. destruct (Z.ltb_spec (place item 0) 0); [lia|].
    destruct (ram_clear_loop_erases (data r) item (Z.to_nat (g_per_item_max_index item)) 0 r) as (m' & -> & HE); [done | | | |].
    + by apply valid_indices in Hv as [? _].
    + by apply max_index_valid in Hv.
    + apply erased_none. unfold upto_index. lia.
    + split_and!; [done | by apply (holds_clear (data r)) | done].
  - destruct (ram_restart_erases reason r) as (m' & -> & HE). cbn [spec_step fst snd data].
    split_and!; [done | by apply (holds_restart (data r)) | done].
Qed.

Lemma holds_empty : holds ∅ ∅.
Proof. split; [by intros ? ? [? ?] | intros i j _; done]. Qed.

(** ** In the file, where no call fails *)

Record ready (f : file) : Prop := {
  rd_exists : exists_ f = true;
  rd_faults : faults f = [];
  rd_size : max_offset <= size f
}.

Lemma lseek_works o f : faults f = [] -> lseek o f = (o, with_pos o f).
Proof. intros E. unfold lseek, next_fault. by rewrite E. Qed.

Lemma read_works n f : faults f = [] -> fpos f + Z.of_nat n <= size f ->
  read n f = (Z.of_nat n, range (contents f) (fpos f) n, with_pos (fpos f + Z.of_nat n) f).
Proof.
  intros E H. unfold read, next_fault, read_bytes. rewrite E. replace (Nat.min n (Z.to_nat (size f - fpos f))) with n by lia. done.
Qed.

Lemma unlink_works f : faults f = [] -> unlink f = File false ∅ 0 0 (errno f) [].
Proof. intros E. unfold unlink, next_fault. rewrite E. cbn. by rewrite E. Qed.

Lemma write_works bs f : faults f = [] ->
  exists f', write bs f = (Z.of_nat (length bs), f') /\ (ready f -> ready f') /\ contents f' = put (contents f) (fpos f) bs.
Proof.
  intros E. unfold write, next_fault, write_bytes. rewrite E. eexists. split_and!; [done | | done].
  intros [? ? ?]. split; cbn [exists_ faults size]; [done | done | lia].
Qed.

Lemma ready_pos p f : ready f -> ready (with_pos p f).
Proof. by intros []. Qed.

Lemma file_write_works item index p buf f :
  ready f -> valid item index = true -> Z.of_nat (length buf) <= capacity item ->
  exists f', _file_write item index p buf f = ((Z.of_nat (length buf), []), f')
    /\ ready f' /\ contents f' = put (contents f) (place item index) (segment p buf).
Proof.
  intros Hr Hv Hl. unfold _file_write. rewrite offset_valid by done. destruct (place_bounds item index Hv) as [Hb _].
  destruct (Z.ltb_spec (place item index) 0); [lia|]. fold (capacity item).
  destruct (Z.ltb_spec (capacity item) (Z.of_nat (length buf))); [lia|].
  rewrite lseek_works by apply Hr. rewrite Z.eqb_refl. cbn [negb].
  destruct (write_works (segment p buf) (with_pos (place item index) f) (rd_faults f Hr)) as (f' & -> & Hr' & HC).
  rewrite segment_length, Z.eqb_refl. cbn [negb]. exists f'. split_and!; [done | by apply Hr', ready_pos | done].
Qed.

Section File.
Variable stack : nat -> Z.

Lemma file_read_works item index count f s :
  ready f -> holds (contents f) s -> valid item index = true -> Z.of_nat count <= capacity item ->
  exists f', _file_read stack item index (Z.of_nat count) f = ((spec_step (Read item index count) s).1, f')
    /\ ready f' /\ contents f' = contents f.
Proof.
  intros Hr H Hv Hc. pose proof (proj1 (proj1 (valid_indices _ _) Hv)) as Hi. unfold _file_read. rewrite (proj2 (Nat.leb_gt _ _) Hi), offset_valid by done.
  destruct (place_bounds item index Hv) as [Hb Hb2]. pose proof (item_bounds item Hi) as (? & HS & _). fold (capacity item).
  unfold DM_SECTOR_HDR_SIZE in *. cbn [spec_step]. rewrite Hv. cbn [negb].
  destruct (Z.ltb_spec (place item index) 0); [lia|]. destruct (Z.ltb_spec (capacity item) (Z.of_nat count)); [lia|].
  rewrite lseek_works by apply Hr. rewrite Z.eqb_refl. pose proof (rd_size f Hr).
  rewrite read_works by (cbn [faults size fpos with_pos]; first [lia | apply Hr]). cbn [fpos with_pos contents].
  destruct (Z.ltb_spec (Z.of_nat (Z.to_nat (Z.of_nat count + 4))) 0); [lia|]. rewrite length_range.
  destruct (Z.eqb_spec (Z.of_nat (Z.to_nat (Z.of_nat count + 4))) 0); [lia|].
  set (g := with_pos _ (with_pos _ f)). assert (Hg : ready g /\ contents g = contents f) by (split; [by apply ready_pos, ready_pos | done]).
  assert (HB : forall i, Z.of_nat i < Z.of_nat count + 4 ->
    (if (i <? Z.to_nat (Z.of_nat count + 4))%nat then nth i (range (contents f) (place item index) (Z.to_nat (Z.of_nat count + 4))) 0 else stack i)
    = get (contents f) (place item index + Z.of_nat i)).
  { intros i Hlt. destruct (Nat.ltb_spec i (Z.to_nat (Z.of_nat count + 4))); [|lia]. by rewrite nth_range by lia. }
  rewrite HB by lia. cbn [Z.of_nat]. rewrite Z.add_0_r, (holds_len _ s item index H Hv).
  destruct (s !! (item, index)) as [[p bs]|] eqn:E; [|by exists g].
  destruct (holds_data _ s item index p bs H E) as (_ & Hd & Hl). rewrite (proj2 (Z.ltb_lt 0 _)) by lia.
  destruct (Z.ltb_spec (Z.of_nat count) (Z.of_nat (length bs))); [by exists g|]. exists g. split; [|done]. cbn [fst]. do 3 f_equal.
  rewrite Nat2Z.id. rewrite <- Hd at 2. unfold range. apply map_ext_in. intros i Hin. apply in_seq in Hin.
  rewrite HB by lia. f_equal. unfold DM_SECTOR_HDR_SIZE. lia.
Qed.

Lemma get_with_zero m a x : get (put m a [0]) x = if x =? a then 0 else get m x.
Proof. cbn [put]. apply get_insert. Qed.

Lemma file_clear_loop_erases m item n : forall k f,
  ready f -> (item < DM_KEY_NUM_KEYS)%nat -> Z.of_nat k + Z.of_nat n <= g_per_item_max_index item ->
  erased (upto_index item k) (fun _ => true) m (contents f) ->
  exists f', _file_clear_loop n item (place item k) f = (0, f') /\ ready f'
    /\ erased (upto_index item (k + n)) (fun _ => true) m (contents f').
Proof.
  induction n as [|n IH]; intros k f Hr Hi Hn HE; cbn [_file_clear_loop]; [exists f; by rewrite Nat.add_0_r|].
  assert (Hv : valid item k = true) by (apply valid_indices; split; [done | lia]).
  pose proof (place_bounds item k Hv) as [_ Hb]. pose proof (item_bounds item Hi) as (? & HS & _). pose proof (rd_size f Hr). unfold DM_SECTOR_HDR_SIZE in *.
  rewrite lseek_works, Z.eqb_refl by apply Hr. cbn [negb].
  rewrite read_works by (cbn [faults size fpos with_pos]; first [lia | apply Hr]). cbn [fpos with_pos contents].
  change (Z.of_nat 1 <? 1) with false. cbn [range seq map nth]. change (Z.of_nat 0) with 0. rewrite Z.add_0_r, <- place_S.
  replace (k + S n)%nat with (S k + n)%nat by lia. set (g := with_pos _ (with_pos _ f)).
  assert (Hg : ready g) by by apply ready_pos, ready_pos.
  destruct (Z.eqb_spec (get (contents f) (place item k)) 0) as [Hz | Hz].
  - apply (IH (S k) g); [done | done | lia|]. apply (erased_one _ _ _ _ _ _ item k HE Hv (upto_index_S item k)).
    intros x. rewrite andb_true_r. by destruct (Z.eqb_spec x (place item k)) as [-> | _].
  - rewrite lseek_works, Z.eqb_refl by apply Hg. cbn [negb].
    destruct (write_works [0] (with_pos (place item k) g) (rd_faults g Hg)) as (f' & -> & Hr' & HC).
    change (Z.of_nat (length [0]) =? 1) with true. cbn [negb]. apply (IH (S k) f'); [by apply Hr', ready_pos | done | lia|].
    apply (erased_one _ _ _ _ _ _ item k HE Hv (upto_index_S item k)). intros x. rewrite andb_true_r, HC. apply get_with_zero.
Qed.

Lemma file_restart_segment_works reason item k f :
  ready f -> valid item k = true ->
  exists f', file_restart_segment reason (place item k) f = (true, f') /\ ready f'
    /\ forall x, get (contents f') x = if (x =? place item k) && to_erase reason (contents f) (place item k) then 0 else get (contents f) x.
Proof.
  intros Hr Hv. pose proof (place_bounds item k Hv) as [_ Hb].
  pose proof (item_bounds item (proj1 (proj1 (valid_indices _ _) Hv))) as (? & HS & _). pose proof (rd_size f Hr). unfold DM_SECTOR_HDR_SIZE in *.
  unfold file_restart_segment. rewrite lseek_works, Z.eqb_refl by apply Hr. cbn [negb].
  rewrite read_works by (cbn [faults size fpos with_pos]; first [lia | apply Hr]). cbn [fpos with_pos contents].
  change (Z.of_nat 2 =? 2) with true. cbn [negb range seq map nth]. change (Z.of_nat 0) with 0. change (Z.of_nat 1) with 1. rewrite Z.add_0_r.
  fold (to_erase reason (contents f) (place item k)). set (g := with_pos _ (with_pos _ f)).
  assert (Hg : ready g) by by apply ready_pos, ready_pos.
  destruct (to_erase reason (contents f) (place item k)); [|exists g; split_and!; [done | done | intros x; by rewrite andb_false_r]].
  rewrite lseek_works, Z.eqb_refl by apply Hg. cbn [negb].
  destruct (write_works [0] (with_pos (place item k) g) (rd_faults g Hg)) as (f' & -> & Hr' & HC). exists f'.
  split_and!; [done | by apply Hr', ready_pos|]. intros x. rewrite andb_true_r, HC. apply get_with_zero.
Qed.

Lemma file_restart_items_erases m item reason n : forall k f,
  ready f -> (item < DM_KEY_NUM_KEYS)%nat -> Z.of_nat k + Z.of_nat n <= g_per_item_max_index item ->
  erased (upto item k) (to_erase reason m) m (contents f) ->
  exists f', file_restart_items n item reason (place item k) f = (true, place item (k + n), f') /\ ready f'
    /\ erased (upto item (k + n)) (to_erase reason m) m (contents f').
Proof.
  induction n as [|n IH]; intros k f Hr Hi Hn HE; cbn [file_restart_items]; [exists f; by rewrite Nat.add_0_r|].
  assert (Hv : valid item k = true) by (apply valid_indices; split; [done | lia]).
  destruct (file_restart_segment_works reason item k f Hr Hv) as (f1 & -> & Hr1 & HG). rewrite <- place_S.
  replace (k + S n)%nat with (S k + n)%nat by lia. apply IH; [done | done | lia|].
  apply (erased_one _ _ _ _ _ _ item k HE Hv (upto_S item k)). intros x. by rewrite <- (to_erase_ahead _ _ _ _ _ HE Hv).
Qed.

Lemma file_restart_erases reason f : ready f ->
  exists f', _file_restart reason f = ((0, []), f') /\ ready f'
    /\ erased (upto DM_KEY_NUM_KEYS 0) (to_erase reason (contents f)) (contents f) (contents f').
Proof.
  intros Hr. unfold _file_restart. set (step := fun '(ok, offset, f) item => _). set (m := contents f).
  assert (H : forall n item g, (item + n <= DM_KEY_NUM_KEYS)%nat -> ready g -> erased (upto item 0) (to_erase reason m) m (contents g) ->
    exists b f', fold_left step (seq item n) (true, place item 0, g) = (true, b, f') /\ ready f'
      /\ erased (upto (item + n) 0) (to_erase reason m) m (contents f')).
  { induction n as [|n IH]; intros item g Hn Hg HE; cbn [seq fold_left]; [exists (place item 0), g; by rewrite Nat.add_0_r|].
    pose proof (item_bounds item ltac:(lia)) as (_ & _ & ?).
    destruct (file_restart_items_erases m item reason (Z.to_nat (g_per_item_max_index item)) 0 g) as (f2 & E & Hr2 & HE2); [done | lia | lia | done|].
    unfold step at 2. rewrite E, Nat.add_0_l, place_end by lia.
    replace (item + S n)%nat with (S item + n)%nat by lia. apply IH; [lia | done|]. apply upto_next; [lia | done]. }
  destruct (H DM_KEY_NUM_KEYS 0%nat f) as (b & f' & E & Hr' & HE); [done | done | apply erased_none; unfold upto; lia|].
  change (place 0 0) with 0 in E. rewrite E. exists f'. split_and!; [reflexivity | exact Hr' | exact HE].
Qed.
End File.

(** In the file every request does what the map does. *)
Theorem file_refines (stack : nat -> Z) (q : request) (f : file) (s : store) :
  ready f -> holds (contents f) s ->
  (file_step stack q f).1 = (spec_step q s).1
  /\ holds (contents (file_step stack q f).2) (spec_step q s).2 /\ ready (file_step stack q f).2.
Proof.
  intros Hr H. destruct q as [item index p buf | item index count | item | reason]; cbn [file_step].
  - destruct (valid item index) eqn:Hv; [|unfold _file_write; rewrite offset_invalid by done; cbn [spec_step]; by rewrite Hv].
    destruct (Z.leb_spec (Z.of_nat (length buf)) (capacity item)) as [Hl | Hl].
    + destruct (file_write_works item index p buf f Hr Hv Hl) as (f' & -> & Hr' & HC). cbn [fst snd].
      split_and!; [|rewrite HC; by apply holds_write | done].
      cbn [spec_step]. rewrite Hv. cbn [negb]. by rewrite (proj2 (Z.ltb_ge _ _) Hl).
    + unfold _file_write. rewrite offset_valid by done. destruct (place_bounds item index Hv) as [Hb _].
      destruct (Z.ltb_spec (place item index) 0); [lia|]. fold (capacity item). cbn [spec_step]. rewrite Hv.
      by rewrite (proj2 (Z.ltb_lt _ _) Hl).
  - assert (HS : (spec_step (Read item index count) s).2 = s) by (cbn [spec_step]; repeat case_match; done). rewrite HS.
    destruct (valid item index) eqn:Hv; [destruct (Z.leb_spec (Z.of_nat count) (capacity item)) as [Hc | Hc]|].
    + destruct (file_read_works stack item index count f s Hr H Hv Hc) as (f' & -> & Hr' & HC). cbn [fst snd]. by rewrite HC.
    + unfold _file_read. destruct (_ <=? item)%nat eqn:Hi; [apply valid_indices in Hv as [? _]; apply Nat.leb_le in Hi; lia|].
      rewrite offset_valid by done. destruct (place_bounds item index Hv) as [Hb _].
      destruct (Z.ltb_spec (place item index) 0); [lia|]. fold (capacity item). cbn [spec_step]. rewrite Hv.
      by rewrite (proj2 (Z.ltb_lt _ _) Hc).
    + unfold _file_read. cbn [spec_step]. rewrite Hv. destruct (_ <=? item)%nat; [done|]. by rewrite offset_invalid.
  - unfold _file_clear. cbn [spec_step]. destruct (valid item 0) eqn:Hv; [|by rewrite offset_invalid]. rewrite offset_valid by done. cbn [negb].
    destruct (place_bounds item 0 Hv) as [Hb1 _]. destruct (Z.ltb_spec (place item 0) 0); [lia|].
    destruct (file_clear_loop_erases (contents f) item (Z.to_nat (g_per_item_max_index item)) 0 f) as (f' & -> & Hr' & HE); [done | | | |].
    + by apply valid_indices in Hv as [? _].
    + by apply max_index_valid in Hv.
    + apply erased_none. unfold upto_index. lia.
    + split_and!; [done | by apply (holds_clear (contents f)) | done].
  - destruct (file_restart_erases reason f Hr) as (f' & -> & Hr' & HE). cbn [spec_step fst snd].
    split_and!; [done | by apply (holds_restart (contents f)) | done].
Qed.

(** ** The start of the task *)

Lemma compat_valid : valid DM_KEY_COMPAT 0 = true.
Proof. done. Qed.

Lemma compat_length : Z.of_nat (length compat_bytes) = sizeof_compat.
Proof. done. Qed.

(** The compatibility item is the last of the file, so that writing it makes the
    file as long as it has to be. *)
Lemma write_compat f : exists_ f = true -> faults f = [] ->
  exists f', _file_write DM_KEY_COMPAT 0 DM_PERSIST_POWER_ON_RESET compat_bytes f = ((sizeof_compat, []), f')
    /\ ready f' /\ contents f' = put (contents f) (place DM_KEY_COMPAT 0) (segment DM_PERSIST_POWER_ON_RESET compat_bytes).
Proof.
  intros Hx Hf. unfold _file_write. rewrite offset_valid by apply compat_valid.
  destruct (place_bounds _ _ compat_valid) as [Hb _]. destruct (Z.ltb_spec (place DM_KEY_COMPAT 0) 0); [lia|].
  change (_ <? Z.of_nat (length compat_bytes)) with false. rewrite lseek_works, Z.eqb_refl by done. cbn [negb].
  unfold write, next_fault. cbn [faults with_pos]. rewrite Hf. unfold write_bytes. rewrite segment_length, Z.eqb_refl. cbn [negb].
  eexists. split_and!; [reflexivity | | done]. split; cbn [exists_ faults size fpos with_pos]; [done | done|].
  enough (max_offset = place DM_KEY_COMPAT 0 + (Z.of_nat (length compat_bytes) + DM_SECTOR_HDR_SIZE)) by lia. by vm_compute.
Qed.

(** What the task may find: no file, or a file with a store. *)
Definition found (f : file) (s : store) : Prop :=
  faults f = [] /\ if exists_ f then max_offset <= size f /\ holds (contents f) s else s = ∅ /\ contents f = ∅.

Definition kept (s : store) : store := if keeps s then s else ∅.

(** What the task makes of its reading of the item. *)
Lemma read_compat {A : Type} (s : store) (x y : A) :
  (let '(ret, bytes) := (spec_step (Read DM_KEY_COMPAT 0 (Z.to_nat sizeof_compat)) s).1 in
   if (ret =? sizeof_compat) && bool_decide (bytes = compat_bytes) then x else y)
  = if keeps s then x else y.
Proof.
  unfold keeps. cbn [spec_step]. rewrite compat_valid. cbn [negb]. change (capacity DM_KEY_COMPAT <? Z.of_nat (Z.to_nat sizeof_compat)) with false.
  unfold COMPAT. destruct (s !! (DM_KEY_COMPAT, 0%nat)) as [[p bs]|]; [|done].
  destruct (bool_decide (bs = compat_bytes)) eqn:Eb.
  - apply bool_decide_eq_true in Eb as ->. done.
  - by destruct (_ <? _); cbn [fst]; rewrite ?Eb, ?andb_false_r.
Qed.

Lemma check_compat_works (stack : nat -> Z) (f : file) (s : store) : found f s ->
  let f' := check_compat stack f in
  faults f' = [] /\ if exists_ f' then max_offset <= size f' /\ holds (contents f') (kept s) else kept s = ∅ /\ contents f' = ∅.
Proof.
  intros [Hf HX]. unfold check_compat, open_existing, next_fault. rewrite Hf. destruct (exists_ f) eqn:Hx; cbn [negb].
  - destruct HX as [HS H].
    assert (Hr : ready (with_pos 0 f)) by by split.
    destruct (file_read_works stack DM_KEY_COMPAT 0 (Z.to_nat sizeof_compat) (with_pos 0 f) s Hr H compat_valid ltac:(done)) as (f' & E & Hr' & HC).
    change (Z.of_nat (Z.to_nat sizeof_compat)) with sizeof_compat in E. rewrite E.
    rewrite read_compat. unfold kept. destruct (keeps s).
    + split; [apply Hr'|]. rewrite (rd_exists _ Hr'), HC. split; [apply Hr' | done].
    + by rewrite unlink_works by apply Hr'.
  - destruct HX as [-> HX]. cbn [faults exists_ contents with_pos]. rewrite Hx. done.
Qed.

(** The rest of the initialisation, after the check. *)
Lemma initialize_works (stack : nat -> Z) (f : file) (s : store) :
  let g := check_compat stack f in
  faults g = [] -> (if exists_ g then max_offset <= size g /\ holds (contents g) s else s = ∅ /\ contents g = ∅) ->
  exists f', _file_initialize stack f = (0, f') /\ ready f'
    /\ holds (contents f') (<[COMPAT := (persistence_byte DM_PERSIST_POWER_ON_RESET, compat_bytes)]> s).
Proof.
  intros g Hf HX. unfold _file_initialize. fold g. unfold open_create, next_fault. rewrite Hf. cbn [negb].
  set (g1 := if exists_ g then with_pos 0 g else File true ∅ 0 0 (errno g) (faults g)).
  assert (Hg1 : exists_ g1 = true /\ faults g1 = [] /\ holds (contents g1) s).
  { unfold g1. destruct (exists_ g) eqn:Hx; [by destruct HX | destruct HX as [-> _]; split_and!; [done | done | apply holds_empty]]. }
  destruct Hg1 as (Hx & Hf1 & H). rewrite lseek_works, Z.eqb_refl by done. cbn [negb].
  destruct (write_compat (with_pos max_offset g1)) as (f' & -> & Hr' & HC); [done | done|]. exists f'. split_and!; [done | done|].
  rewrite HC. apply (holds_write _ _ DM_KEY_COMPAT 0 DM_PERSIST_POWER_ON_RESET compat_bytes H compat_valid). done.
Qed.

Lemma boot_after (stack : nat -> Z) (t : option Z) (f f1 : file) (s : store) :
  _file_initialize stack f = (0, f1) -> ready f1 ->
  holds (contents f1) (<[COMPAT := (persistence_byte DM_PERSIST_POWER_ON_RESET, compat_bytes)]> (kept s)) ->
  exists f', file_boot stack t f = (0, f') /\ ready f' /\ holds (contents f') (spec_boot t s).
Proof.
  intros E Hr H. unfold file_boot, spec_boot. rewrite E. cbn [negb Z.eqb]. fold (kept s).
  destruct (restart_of t) as [reason|]; [|by exists f1].
  destruct (file_restart_erases reason f1 Hr) as (f2 & -> & Hr2 & HE). exists f2. split_and!; [done | done|].
  by apply (holds_restart (contents f1)).
Qed.

Lemma file_boot_works (stack : nat -> Z) (t : option Z) (f : file) (s : store) : found f s ->
  exists f', file_boot stack t f = (0, f') /\ ready f' /\ holds (contents f') (spec_boot t s).
Proof.
  intros HF. destruct (check_compat_works stack f s HF) as [Hf HX].
  destruct (initialize_works stack f (kept s) Hf HX) as (f1 & E & Hr & H). by apply (boot_after stack t f f1).
Qed.

(** * Histories *)

Lemma ready_found (f : file) (s : store) : ready f -> holds (contents f) s -> found f s.
Proof. intros [Hx Hf Hs] H. split; [done|]. by rewrite Hx. Qed.

Lemma event_refines (stack : nat -> Z) (e : event) (f : file) (s : store) :
  found f s -> (match e with Request _ => exists_ f = true | Boot _ => True end) ->
  (file_event stack e f).1 = (spec_event e s).1
  /\ ready (file_event stack e f).2 /\ holds (contents (file_event stack e f).2) (spec_event e s).2.
Proof.
  intros HF Hx. destruct e as [q | t]; cbn [file_event spec_event].
  - destruct HF as [Hf HX]. rewrite Hx in HX. destruct HX as [HS H]. destruct (file_refines stack q f s ltac:(by split) H) as (? & ? & ?). done.
  - destruct (file_boot_works stack t f s HF) as (f' & -> & Hr & H). done.
Qed.

Lemma outcomes_refine (stack : nat -> Z) (es : list event) : forall (f : file) (s : store),
  ready f -> holds (contents f) s ->
  (outcomes (file_event stack) es f).1 = (outcomes spec_event es s).1
  /\ ready (outcomes (file_event stack) es f).2 /\ holds (contents (outcomes (file_event stack) es f).2) (outcomes spec_event es s).2.
Proof.
  induction es as [|e es IH]; intros f s Hr H; [done|]. cbn [outcomes].
  destruct (event_refines stack e f s (ready_found f s Hr H) ltac:(destruct e; [apply Hr | done])) as (E1 & Hr1 & H1).
  destruct (file_event stack e f) as [r f1], (spec_event e s) as [r' s1]. cbn [fst snd] in *. subst r'.
  destruct (IH f1 s1 Hr1 H1) as (E2 & Hr2 & H2).
  destruct (outcomes (file_event stack) es f1), (outcomes spec_event es s1). cbn [fst snd] in *. by subst.
Qed.

(** C8: the data manager is a map.  From a file that holds a store, or none, through
    every sequence of starts of the task and of requests of any item types,
    indices, lengths and counts, in which no system call fails, the results are
    those of the map: what was written is read, unless it was cleared or
    overwritten or its persistence does not survive a restart, and the file holds
    the map in the end. *)
Theorem dataman_refines_map (stack : nat -> Z) (t : option Z) (es : list event) (f : file) (s : store) :
  found f s ->
  let file_history := outcomes (file_event stack) (Boot t :: es) f in
  let map_history := outcomes spec_event (Boot t :: es) s in
  file_history.1 = map_history.1 /\ holds (contents file_history.2) map_history.2.
Proof.
  intros HF. cbv zeta. cbn [outcomes].
  destruct (event_refines stack (Boot t) f s HF I) as (E1 & Hr1 & H1).
  destruct (file_event stack (Boot t) f) as [r f1], (spec_event (Boot t) s) as [r' s1]. cbn [fst snd] in *. subst r'.
  destruct (outcomes_refine stack es f1 s1 Hr1 H1) as (E2 & _ & H2).
  destruct (outcomes (file_event stack) es f1), (outcomes spec_event es s1). cbn [fst snd] in *. by subst.
Qed.

(** ** Calls that fail *)

Lemma lseek_contents o f : contents (lseek o f).2 = contents f.
Proof. unfold lseek, next_fault. by destruct (faults f) as [|[] ?]. Qed.

Lemma lseek_pos o f : 0 <= o -> (lseek o f).1 = o -> fpos (lseek o f).2 = o.
Proof. unfold lseek, next_fault. intros Ho. by destruct (faults f) as [|[] ?]; cbn; try lia. Qed.

Lemma read_contents n f : contents (read n f).2 = contents f.
Proof. unfold read, next_fault. by destruct (faults f) as [|[] ?]. Qed.

Lemma write_contents bs f x :
  ~ (fpos f <= x < fpos f + Z.of_nat (length bs)) -> get (contents (write bs f).2) x = get (contents f) x.
Proof.
  intros Hx. unfold write, next_fault, write_bytes.
  destruct (faults f) as [|[| e | k] fs]; cbn [snd contents with_faults with_errno fpos];
    try done; rewrite get_put; [| |rewrite length_take]; by replace (_ && _) with false by lia.
Qed.

(** Zeroing a byte, or not. *)
Lemma write_zero f x : get (contents (write [0] f).2) x = get (contents f) x \/ (x = fpos f /\ get (contents (write [0] f).2) x = 0).
Proof.
  destruct (decide (x = fpos f)) as [-> | Hne]; [|left; apply write_contents; cbn; lia].
  unfold write, next_fault, write_bytes. destruct (faults f) as [|[| e | [|k]] fs]; cbn [snd contents with_faults with_errno fpos]; try (by left);
    rewrite ?firstn_cons, ?firstn_nil; right; split; try done; cbn [put]; by rewrite get_insert, Z.eqb_refl.
Qed.

(** A segment may have been emptied, where it may be. *)
Definition emptied (may : Z -> Prop) (m m' : gmap Z Z) : Prop :=
  forall x, get m' x = get m x \/ (may x /\ get m' x = 0).

Lemma emptied_refl may m : emptied may m m.
Proof. intros x. by left. Qed.

Lemma emptied_trans may m m1 m2 : emptied may m m1 -> emptied may m1 m2 -> emptied may m m2.
Proof. intros H1 H2 x. destruct (H2 x) as [-> | ?]; [apply H1 | by right]. Qed.

Lemma emptied_write (may : Z -> Prop) m f : emptied may m (contents f) -> may (fpos f) -> emptied may m (contents (write [0] f).2).
Proof.
  intros H Hm. apply (emptied_trans _ _ _ _ H). intros x. destruct (write_zero f x) as [-> | [-> ->]]; [by left | by right].
Qed.

Lemma clear_loop_emptied item n : forall k f, (item < DM_KEY_NUM_KEYS)%nat -> Z.of_nat k + Z.of_nat n <= g_per_item_max_index item ->
  emptied (fun x => exists j, valid item j = true /\ x = place item j) (contents f) (contents (_file_clear_loop n item (place item k) f).2).
Proof.
  induction n as [|n IH]; intros k f Hi Hn; cbn [_file_clear_loop]; [apply emptied_refl|].
  assert (Hv : valid item k = true) by (apply valid_indices; split; [done | lia]). destruct (place_bounds item k Hv) as [Hb _].
  rewrite <- place_S. specialize (fun f => IH (S k) f Hi ltac:(lia)).
  pose proof (lseek_contents (place item k) f) as E1. destruct (lseek _ f) as [o f1]. cbn [snd] in E1. rewrite <- E1. clear f E1.
  destruct (negb (o =? place item k)); [apply emptied_refl|].
  pose proof (read_contents 1 f1) as E2. destruct (read 1 f1) as [[len bs] f2]. cbn [snd] in E2. rewrite <- E2. clear f1 E2.
  destruct (len <? 1); [apply emptied_refl|]. destruct (_ =? 0); [apply IH|].
  pose proof (lseek_contents (place item k) f2) as E3. pose proof (lseek_pos (place item k) f2 Hb) as P3.
  destruct (lseek _ f2) as [o' f3]. cbn [fst snd] in *. rewrite <- E3. destruct (Z.eqb_spec o' (place item k)) as [-> | _]; cbn [negb]; [|apply emptied_refl].
  pose proof (emptied_write (fun x => exists j, valid item j = true /\ x = place item j) _ f3 (emptied_refl _ _)) as E4.
  destruct (write [0] f3) as [w f4]. cbn [snd] in E4. rewrite P3 in E4 by done. specialize (E4 (ex_intro _ k (conj Hv eq_refl))).
  destruct (negb (w =? 1)); [done|]. by apply (emptied_trans _ _ _ _ E4).
Qed.

Lemma read_all n f : (read n f).1.1 = Z.of_nat n -> (read n f).1.2 = range (contents f) (fpos f) n.
Proof.
  unfold read, next_fault, read_bytes. destruct (faults f) as [|[| e | k] fs]; cbn [fst snd with_faults contents fpos size]; intros E; [| | lia |];
    f_equal; lia.
Qed.

(** Where a restart may empty a segment. *)
Definition restart_may (reason : dm_reset_reason) (m : gmap Z Z) (x : Z) : Prop :=
  exists i j, valid i j = true /\ x = place i j /\ clear_entry reason (get m (x + 1)) = true.

Lemma restart_segment_emptied reason m item k f : valid item k = true ->
  emptied (restart_may reason m) m (contents f) ->
  emptied (restart_may reason m) m (contents (file_restart_segment reason (place item k) f).2).
Proof.
  intros Hv HE. destruct (place_bounds item k Hv) as [Hb _]. unfold file_restart_segment.
  pose proof (lseek_contents (place item k) f) as E1. pose proof (lseek_pos (place item k) f Hb) as P1.
  destruct (lseek _ f) as [o f1]. cbn [fst snd] in *. rewrite <- E1 in HE. clear f E1.
  destruct (Z.eqb_spec o (place item k)) as [-> | _]; cbn [negb]; [|done]. specialize (P1 eq_refl).
  pose proof (read_contents 2 f1) as E2. pose proof (read_all 2 f1) as R2. destruct (read 2 f1) as [[len bs] f2]. cbn [fst snd] in *.
  rewrite <- E2 in HE. destruct (Z.eqb_spec len 2) as [-> | _]; cbn [negb]; [|done]. rewrite (R2 eq_refl), P1, <- E2. clear f1 P1 R2 E2 bs.
  cbn [range seq map nth]. change (Z.of_nat 1) with 1.
  destruct (negb _ && clear_entry reason _) eqn:EC; [|done]. apply andb_true_iff in EC as [_ EC].
  pose proof (lseek_contents (place item k) f2) as E3. pose proof (lseek_pos (place item k) f2 Hb) as P3.
  destruct (lseek _ f2) as [o' f3]. cbn [fst snd] in *. rewrite <- E3 in HE.
  destruct (Z.eqb_spec o' (place item k)) as [-> | _]; cbn [negb]; [|done]. specialize (P3 eq_refl).
  pose proof (emptied_write (restart_may reason m) m f3 HE) as E4. destruct (write [0] f3) as [w f4]. cbn [snd] in *. apply E4.
  exists item, k. split_and!; [done | done|]. rewrite P3. rewrite <- EC, <- E3. f_equal.
  destruct (HE (place item k + 1)) as [-> | [(i & j & Hij & E & _) _]]; [done|]. by apply place_next in E.
Qed.

Lemma restart_items_emptied reason m item n : forall k f, (item < DM_KEY_NUM_KEYS)%nat ->
  Z.of_nat k + Z.of_nat n <= g_per_item_max_index item ->
  emptied (restart_may reason m) m (contents f) ->
  let '(ok, o, f') := file_restart_items n item reason (place item k) f in
  (ok = true -> o = place item (k + n)) /\ emptied (restart_may reason m) m (contents f').
Proof.
  induction n as [|n IH]; intros k f Hi Hn HE; cbn [file_restart_items]; [by rewrite Nat.add_0_r|].
  assert (Hv : valid item k = true) by (apply valid_indices; split; [done | lia]).
  pose proof (restart_segment_emptied reason m item k f Hv HE) as H1. destruct (file_restart_segment _ _ f) as [[] f1]; cbn [snd] in *; [|done].
  rewrite <- place_S. replace (k + S n)%nat with (S k + n)%nat by lia. apply IH; [done | lia | done].
Qed.

Lemma restart_emptied reason f : emptied (restart_may reason (contents f)) (contents f) (contents (_file_restart reason f).2).
Proof.
  unfold _file_restart. set (step := fun '(ok, offset, f) item => _). set (m := contents f).
  assert (H : forall n item ok o g, (item + n <= DM_KEY_NUM_KEYS)%nat -> (ok = true -> o = place item 0) -> emptied (restart_may reason m) m (contents g) ->
    emptied (restart_may reason m) m (contents (fold_left step (seq item n) (ok, o, g)).2)).
  { induction n as [|n IH]; intros item ok o g Hn Ho HE; cbn [seq fold_left]; [done|]. unfold step at 2. destruct ok; [|by apply IH; [lia | |]].
    rewrite Ho by done. pose proof (item_bounds item ltac:(lia)) as (_ & _ & ?).
    pose proof (restart_items_emptied reason m item (Z.to_nat (g_per_item_max_index item)) 0 g ltac:(lia) ltac:(lia) HE) as H1.
    destruct (file_restart_items _ _ _ _ g) as [[ok' o'] g']. destruct H1 as [H1 H2]. apply IH; [lia | | done].
    intros E. rewrite (H1 E), Nat.add_0_l. apply place_end. lia. }
  specialize (H DM_KEY_NUM_KEYS 0%nat true 0 f ltac:(done) ltac:(done) ltac:(apply emptied_refl)).
  destruct (fold_left step _ _) as [[ok o] f']. exact H.
Qed.

(** What a request may do to the bytes of the file, whatever fails: a write changes
    its own place, clearing and restarting empty segments. *)
Definition may_change (q : request) (m : gmap Z Z) (x : Z) : Prop :=
  match q with
  | Write item index _ _ => valid item index = true /\ inside item index x
  | Read _ _ _ => False
  | Clear item => exists index, valid item index = true /\ x = place item index
  | Restart reason => restart_may reason m x
  end.
Definition only_empties (q : request) : bool := match q with Write _ _ _ _ => false | _ => true end.

(** C9: failures are contained.  Whatever system calls fail or transfer less than
    asked, in whatever state the file is, a request changes no byte outside its own
    part: a write changes at most the place of its item, a read nothing, and
    clearing or restarting at most sets to zero the lengths of items that they are
    to delete. *)
Theorem faults_contained (stack : nat -> Z) (q : request) (f : file) (x : Z) :
  let m := contents f in let m' := contents (file_step stack q f).2 in
  get m' x = get m x \/ (may_change q m x /\ (only_empties q = true -> get m' x = 0)).
Proof.
  cbv zeta. destruct q as [item index p buf | item index count | item | reason]; cbn [file_step may_change only_empties].
  - unfold _file_write. destruct (valid item index) eqn:Hv; [|left; by rewrite offset_invalid].
    rewrite offset_valid by done. destruct (place_bounds item index Hv) as [Hb _]. destruct (Z.ltb_spec (place item index) 0); [lia|].
    destruct (_ <? Z.of_nat (length buf)) eqn:EL; [by left|]. apply Z.ltb_ge in EL.
    pose proof (lseek_contents (place item index) f) as E1. pose proof (lseek_pos (place item index) f Hb) as P1.
    destruct (lseek _ f) as [o f1]. cbn [fst snd] in *. destruct (Z.eqb_spec o (place item index)) as [-> | _]; cbn [negb]; [|left; cbn; by rewrite E1].
    specialize (P1 eq_refl). pose proof (write_contents (segment p buf) f1 x) as W. destruct (write _ f1) as [w f2]. cbn [snd] in W.
    rewrite P1, segment_length in W. rewrite <- E1.
    destruct (decide (inside item index x)) as [Hx | Hx]; [by right|]. left. unfold inside in Hx.
    destruct (negb _); cbn [snd]; apply W; lia.
  - left. unfold _file_read. destruct (_ <=? item)%nat; [done|]. destruct (_ <? 0); [done|]. destruct (_ <? Z.of_nat count); [done|].
    pose proof (lseek_contents (calculate_offset item index) f) as E1. destruct (lseek _ f) as [o f1]. cbn [snd] in E1. rewrite <- E1.
    pose proof (read_contents (Z.to_nat (Z.of_nat count + DM_SECTOR_HDR_SIZE)) f1) as E2.
    destruct (o =? _); [destruct (read _ f1) as [[len bs] f2]; cbn [snd] in E2; rewrite <- E2 | ];
      repeat (match goal with |- context [if ?b then _ else _] => destruct b end); done.
  - unfold _file_clear. destruct (valid item 0) eqn:Hv; [|left; by rewrite offset_invalid]. rewrite offset_valid by done.
    destruct (place_bounds item 0 Hv) as [Hb _]. destruct (Z.ltb_spec (place item 0) 0); [lia|].
    pose proof (clear_loop_emptied item (Z.to_nat (g_per_item_max_index item)) 0 f (proj1 (proj1 (valid_indices _ _) Hv)) ltac:(by apply max_index_valid in Hv) x) as H1.
    destruct (_file_clear_loop _ _ _ f) as [res f']. cbn [snd] in *. destruct H1 as [-> | [? ?]]; [by left | by right].
  - destruct (restart_emptied reason f x) as [-> | [? ?]]; [by left | by right].
Qed.

(** * What a failing call can do *)

(** A read that fails once while the task starts deletes everything. *)
Theorem read_error_erases (stack : nat -> Z) (t : option Z) (error : Z) (f : file) (s : store) :
  ready f -> holds (contents f) s -> 0 < error ->
  exists f', file_boot stack t (with_faults [Works; Works; Fails error] f) = (0, f') /\ ready f' /\ holds (contents f') (spec_boot t ∅).
Proof.
  intros Hr H He.
  assert (E : exists e, check_compat stack (with_faults [Works; Works; Fails error] f) = File false ∅ 0 0 e []).
  { unfold check_compat, open_existing, next_fault. cbn [faults with_faults exists_]. rewrite (rd_exists _ Hr).
    unfold _file_read. change (DM_KEY_NUM_KEYS <=? DM_KEY_COMPAT)%nat with false. rewrite offset_valid by apply compat_valid.
    destruct (place_bounds _ _ compat_valid) as [Hb _]. destruct (Z.ltb_spec (place DM_KEY_COMPAT 0) 0); [lia|].
    change (_ <? sizeof_compat) with false. unfold lseek, next_fault. cbn [faults with_pos with_faults]. rewrite Z.eqb_refl.
    unfold read, next_fault. cbn [faults with_pos with_faults with_errno errno]. change (-1 <? 0) with true. cbn [fst].
    destruct (Z.eqb_spec (- error) sizeof_compat) as [Hc | _]; [unfold sizeof_compat in Hc; lia|]. cbn [andb]. eexists. by rewrite unlink_works. }
  destruct E as [e E]. destruct (initialize_works stack (with_faults [Works; Works; Fails error] f) ∅) as (f1 & E1 & Hr1 & H1);
    [by rewrite E | by rewrite E|]. by apply (boot_after stack t _ f1 ∅).
Qed.

(** A new file, with an item of four bytes. *)
Definition example_file : file :=
  (outcomes (file_event (fun _ => 0))
     [Boot None; Request (Write DM_KEY_SAFE_POINTS 0 DM_PERSIST_POWER_ON_RESET [1; 2; 3; 4])] no_file).2.

(** A write of which only the header gets through fails, and leaves an item that is
    neither the old nor the new one. *)
Lemma torn_write :
  let '(r, f) := _file_write DM_KEY_SAFE_POINTS 0 DM_PERSIST_POWER_ON_RESET [9; 9] (with_faults [Works; Short 4] example_file) in
  r = (-1, []) /\ (_file_read (fun _ => 0) DM_KEY_SAFE_POINTS 0 24 f).1 = (2, [1; 2]).
Proof. by vm_compute. Qed.

(** The size of the file. *)
Lemma max_offset_value : max_offset = 362560.
Proof. by vm_compute. Qed.

Lemma dataman_refines_map_witness :
  let es := [Request (Write DM_KEY_FENCE_POINTS 63 DM_PERSIST_POWER_ON_RESET [7; 8]); Request (Write DM_KEY_SAFE_POINTS 0 DM_PERSIST_VOLATILE [1]);
             Boot (Some 0); Request (Read DM_KEY_FENCE_POINTS 63 32); Request (Read DM_KEY_SAFE_POINTS 0 24)] in
  (outcomes (file_event (fun _ => 0)) (Boot None :: es) no_file).1 = [(0, []); (2, []); (1, []); (0, []); (2, [7; 8]); (0, [])].
Proof.
  cbv zeta.
  etransitivity; [exact (proj1 (dataman_refines_map (fun _ => 0) None _ no_file ∅ (conj eq_refl (conj eq_refl eq_refl))))|].
  by vm_compute.
Defined.
