(* ===== verification/DatamanTask.v ===== *)
(** The task of the data manager (src/modules/dataman/dataman.cpp): callers in
    several threads put work items into a queue and wait, one worker handles them.
    A step of a thread is what it does under one lock or on one semaphore; steps of
    all threads interleave in any order.  The operations of the storage are those
    of the record [dm_operations], whose two instances are in [Dataman]. *)

From Stdlib Require Import ZArith Lia.
From stdpp Require Import base list gmap functions numbers.
From S2P Require Import Prelude Dataman DatamanStore.

Local Open Scope Z_scope.

(** A work item: the block of eight that it was allocated in, and its place there.
    [first] marks the one whose address is the block's. *)
Definition work_item : Type := nat * nat.
Definition k_work_item_allocation_chunk_size : nat := 8.
Definition first (it : work_item) : bool := (it.2 =? 0)%nat.

(** [work_q_t]: the items, the size and the largest size. *)
Record work_q_t := Work_q { q : list work_item; q_size : Z; q_max_size : Z }.

Definition init_q : work_q_t := Work_q [] 0 0.
(** [sq_remfirst] with the new size. *)
Definition dequeue (w : work_q_t) : option (work_item * work_q_t) :=
  match q w with [] => None | it :: rest => Some (it, Work_q rest (q_size w - 1) (q_max_size w)) end.
Definition grown (items : list work_item) (n : Z) (w : work_q_t) : work_q_t :=
  Work_q items (q_size w + n) (Z.max (q_max_size w) (q_size w + n)).
(** [sq_addfirst] and [sq_addlast]. *)
Definition add_first (it : work_item) (w : work_q_t) : work_q_t := grown (it :: q w) 1 w.
Definition add_last (it : work_item) (w : work_q_t) : work_q_t := grown (q w ++ [it]) 1 w.
(** The rest of a new block: each item goes to the front. *)
Definition add_block (block : nat) (w : work_q_t) : work_q_t :=
  grown (fold_left (fun l i => (block, i) :: l) (seq 1 (k_work_item_allocation_chunk_size - 1)) (q w)) 7 w.

(** Where a caller is: in none of the calls; past the test that the task runs; with
    an empty free queue; with an item; having queued it; having told the worker; and
    with the result, the item still to be given back. *)
Inductive caller :=
  | Idle
  | Checked (r : request)
  | No_item (r : request)
  | Got (r : request) (it : work_item)
  | Queued (r : request) (it : work_item)
  | Waiting (r : request) (it : work_item)
  | Answered (r : request) (it : work_item) (res : result).

(** Where the worker is: at the top of its loop, waiting for work, emptying the
    queue, handling an item, about to wake its caller, testing whether to go on,
    freeing the blocks, gone. *)
Inductive worker := Top | Wait | Drain | Handle (it : work_item) | Wake_up (it : work_item) | Test_exit | Free_blocks | Gone.

Section Task.
(** [g_dm_ops]: the operations on the storage. *)
Context {S : Type} (dm_operations : request -> S -> result * S).

(** The shared state.  [params] and [results] are fields of the work items,
    [woken] the items whose semaphore has been posted; [freed] the blocks given
    back to the heap and [touched] whether one of them was used after that.
    [log] and [returned] are ghosts: the requests as they were handled, and what
    each caller was given. *)
Record task := Task {
  g_free_q : work_q_t; g_work_q : work_q_t;
  g_work_queued_sema : Z;
  running : bool; g_task_should_exit : bool;
  callers : nat -> caller; g_worker : worker;
  params : gmap work_item (nat * request); results : gmap work_item result; woken : gset work_item;
  blocks : nat; freed : gset nat; touched : bool;
  storage : S;
  log : list (nat * request * result); returned : nat -> list (request * result)
}.

Definition task_new (s : S) : task :=
  Task init_q init_q 0 true false (fun _ => Idle) Top ∅ ∅ ∅ 0 ∅ false s [] (fun _ => []).

Definition with_caller (c : nat) (p : caller) (t : task) : task :=
  Task (g_free_q t) (g_work_q t) (g_work_queued_sema t) (running t) (g_task_should_exit t) (<[c := p]> (callers t)) (g_worker t)
    (params t) (results t) (woken t) (blocks t) (freed t) (touched t) (storage t) (log t) (returned t).
Definition with_worker (w : worker) (t : task) : task :=
  Task (g_free_q t) (g_work_q t) (g_work_queued_sema t) (running t) (g_task_should_exit t) (callers t) w
    (params t) (results t) (woken t) (blocks t) (freed t) (touched t) (storage t) (log t) (returned t).
Definition with_free (f : work_q_t) (n : nat) (t : task) : task :=
  Task f (g_work_q t) (g_work_queued_sema t) (running t) (g_task_should_exit t) (callers t) (g_worker t)
    (params t) (results t) (woken t) n (freed t) (touched t) (storage t) (log t) (returned t).
Definition with_work (w : work_q_t) (t : task) : task :=
  Task (g_free_q t) w (g_work_queued_sema t) (running t) (g_task_should_exit t) (callers t) (g_worker t)
    (params t) (results t) (woken t) (blocks t) (freed t) (touched t) (storage t) (log t) (returned t).
Definition with_sema (n : Z) (t : task) : task :=
  Task (g_free_q t) (g_work_q t) n (running t) (g_task_should_exit t) (callers t) (g_worker t)
    (params t) (results t) (woken t) (blocks t) (freed t) (touched t) (storage t) (log t) (returned t).
Definition with_woken (w : gset work_item) (t : task) : task :=
  Task (g_free_q t) (g_work_q t) (g_work_queued_sema t) (running t) (g_task_should_exit t) (callers t) (g_worker t)
    (params t) (results t) w (blocks t) (freed t) (touched t) (storage t) (log t) (returned t).
Definition with_params (p : gmap work_item (nat * request)) (t : task) : task :=
  Task (g_free_q t) (g_work_q t) (g_work_queued_sema t) (running t) (g_task_should_exit t) (callers t) (g_worker t)
    p (results t) (woken t) (blocks t) (freed t) (touched t) (storage t) (log t) (returned t).
Definition with_exit (run exit : bool) (t : task) : task :=
  Task (g_free_q t) (g_work_q t) (g_work_queued_sema t) run exit (callers t) (g_worker t)
    (params t) (results t) (woken t) (blocks t) (freed t) (touched t) (storage t) (log t) (returned t).
Definition with_freed (b : gset nat) (u : bool) (t : task) : task :=
  Task (g_free_q t) (g_work_q t) (g_work_queued_sema t) (running t) (g_task_should_exit t) (callers t) (g_worker t)
    (params t) (results t) (woken t) (blocks t) b u (storage t) (log t) (returned t).
Definition with_result (c : nat) (r : request) (it : work_item) (res : result) (s : S) (t : task) : task :=
  Task (g_free_q t) (g_work_q t) (g_work_queued_sema t) (running t) (g_task_should_exit t) (callers t) (g_worker t)
    (params t) (<[it := res]> (results t)) (woken t) (blocks t) (freed t) (touched t) s (log t ++ [(c, r, res)]) (returned t).
Definition with_returned (c : nat) (r : request) (res : result) (t : task) : task :=
  Task (g_free_q t) (g_work_q t) (g_work_queued_sema t) (running t) (g_task_should_exit t) (callers t) (g_worker t)
    (params t) (results t) (woken t) (blocks t) (freed t) (touched t) (storage t) (log t)
    (<[c := returned t c ++ [(r, res)]]> (returned t)).

(** * The callers *)

(** dm_write, dm_read, dm_clear and dm_restart: refused unless the task runs. *)
Definition call (c : nat) (r : request) (t : task) : option task :=
  match callers t c with
  | Idle => Some (if negb (running t) || g_task_should_exit t then t else with_caller c (Checked r) t)
  | _ => None
  end.

(** [create_work_item]: an item of the free queue, *)
Definition take_free (c : nat) (t : task) : option task :=
  match callers t c with
  | Checked r =>
      match dequeue (g_free_q t) with
      | Some (it, f) => Some (with_caller c (Got r it) (with_free f (blocks t) t))
      | None => Some (with_caller c (No_item r) t)
      end
  | _ => None
  end.

(** or the first of a new block, where there is memory; else the call fails. *)
Definition allocate (c : nat) (memory : bool) (t : task) : option task :=
  match callers t c with
  | No_item r =>
      Some (if memory
            then with_caller c (Got r (blocks t, 0%nat)) (with_free (add_block (blocks t) (g_free_q t)) (blocks t + 1) t)
            else with_caller c Idle t)
  | _ => None
  end.

(** [enqueue_work_item_and_wait_for_result], with the semaphore and the parameters
    of the item, which nobody else sees before. *)
Definition enqueue (c : nat) (t : task) : option task :=
  match callers t c with
  | Got r it =>
      Some (with_caller c (Queued r it) (with_work (add_last it (g_work_q t))
              (with_params (<[it := (c, r)]> (params t)) (with_woken (woken t ∖ {[it]}) t))))
  | _ => None
  end.
Definition post_work (c : nat) (t : task) : option task :=
  match callers t c with
  | Queued r it => Some (with_caller c (Waiting r it) (with_sema (g_work_queued_sema t + 1) t))
  | _ => None
  end.
Definition take_result (c : nat) (t : task) : option task :=
  match callers t c with
  | Waiting r it =>
      if decide (it ∈ woken t)
      then match results t !! it with
           | Some res => Some (with_caller c (Answered r it res) (with_woken (woken t ∖ {[it]}) t))
           | None => None
           end
      else None
  | _ => None
  end.
(** [destroy_work_item], and the return. *)
Definition give_back (c : nat) (t : task) : option task :=
  match callers t c with
  | Answered r it res => Some (with_caller c Idle (with_returned c r res (with_free (add_first it (g_free_q t)) (blocks t) t)))
  | _ => None
  end.

(** * The worker *)

Definition work (t : task) : option task :=
  match g_worker t with
  | Top => Some (with_worker (if g_task_should_exit t then Drain else Wait) t)
  | Wait => if 0 <? g_work_queued_sema t then Some (with_worker Drain (with_sema (g_work_queued_sema t - 1) t)) else None
  | Drain =>
      match dequeue (g_work_q t) with
      | Some (it, w) => Some (with_worker (Handle it) (with_work w t))
      | None => Some (with_worker Test_exit t)
      end
  | Handle it =>
      match params t !! it with
      | Some (c, r) =>
          let '(res, s) := dm_operations r (storage t) in Some (with_worker (Wake_up it) (with_result c r it res s t))
      | None => None
      end
  | Wake_up it => Some (with_worker Drain (with_woken ({[it]} ∪ woken t) t))
  | Test_exit =>
      Some (if g_task_should_exit t then with_worker Free_blocks (with_exit false true t) else with_worker Top t)
  | Free_blocks =>
      match dequeue (g_free_q t) with
      | Some (it, f) =>
          Some (with_freed (if first it then {[it.1]} ∪ freed t else freed t) (touched t || bool_decide (it.1 ∈ freed t)) (with_free f (blocks t) t))
      | None => Some (with_worker Gone t)
      end
  | Gone => None
  end.

(** [stop] *)
Definition stop (t : task) : option task :=
  if running t then Some (with_sema (g_work_queued_sema t + 1) (with_exit true true t)) else None.

(** * Interleavings *)

Inductive action :=
  | Call (c : nat) (r : request) | Take_free (c : nat) | Allocate (c : nat) (memory : bool) | Enqueue (c : nat)
  | Post_work (c : nat) | Take_result (c : nat) | Give_back (c : nat) | Work | Stop.

Definition step (a : action) (t : task) : option task :=
  match a with
  | Call c r => call c r t
  | Take_free c => take_free c t
  | Allocate c memory => allocate c memory t
  | Enqueue c => enqueue c t
  | Post_work c => post_work c t
  | Take_result c => take_result c t
  | Give_back c => give_back c t
  | Work => work t
  | Stop => stop t
  end.

Definition run (acts : list action) (t : task) : option task :=
  fold_left (fun t a => match t with Some t => step a t | None => None end) acts (Some t).

(** A state that some interleaving leads to. *)
Definition reachable (s : S) (t : task) : Prop := exists acts, run acts (task_new s) = Some t.

(** * Invariant *)

Definition item_of (p : caller) : option work_item :=
  match p with Got _ it | Queued _ it | Waiting _ it | Answered _ it _ => Some it | _ => None end.
(** The request that a caller has queued and not yet been answered. *)
Definition asked (p : caller) : option (request * work_item) :=
  match p with Queued r it | Waiting r it => Some (r, it) | _ => None end.
Definition worker_item (w : worker) : option work_item :=
  match w with Handle it | Wake_up it => Some it | _ => None end.
(** The worker has handled an item whose caller has not fetched the result. *)
Definition handled (it : work_item) (t : task) : Prop := g_worker t = Wake_up it \/ it ∈ woken t.

(** Who has an item: one caller at most, and then it is not free; what is queued,
    handled or answered belongs to the caller that waits for it. *)
Record owned (t : task) : Prop := {
  o_caller : forall c it, item_of (callers t c) = Some it -> (it.1 < blocks t)%nat /\ it ∉ q (g_free_q t);
  o_one : forall c c' it, item_of (callers t c) = Some it -> item_of (callers t c') = Some it -> c = c';
  o_free : NoDup (q (g_free_q t)) /\ forall it, it ∈ q (g_free_q t) -> (it.1 < blocks t)%nat;
  o_work : NoDup (q (g_work_q t)) /\ forall it, it ∈ q (g_work_q t) ->
    (it ∉ woken t) /\ exists c r, asked (callers t c) = Some (r, it) /\ params t !! it = Some (c, r);
  o_worker : forall it, worker_item (g_worker t) = Some it ->
    (it ∉ q (g_work_q t)) /\ (it ∉ woken t) /\ exists c r, asked (callers t c) = Some (r, it) /\ params t !! it = Some (c, r);
  o_woken : forall it, it ∈ woken t -> exists c r, asked (callers t c) = Some (r, it);
  o_where : forall c r it, asked (callers t c) = Some (r, it) ->
    it ∈ q (g_work_q t) \/ worker_item (g_worker t) = Some it \/ it ∈ woken t
}.

(** What the log says of a caller. *)
Definition entries (c : nat) (l : list (nat * request * result)) : list (request * result) :=
  omap (fun e => if decide (e.1.1 = c) then Some (e.1.2, e.2) else None) l.

(** Each caller has been given the results of its requests, in order, but for the one
    that has been handled and not been returned. *)
Definition answers_of (c : nat) (t : task) : Prop :=
  match callers t c with
  | Queued r it | Waiting r it =>
      (handled it t /\ exists res, results t !! it = Some res /\ entries c (log t) = returned t c ++ [(r, res)])
      \/ (~ handled it t /\ entries c (log t) = returned t c)
  | Answered r it res => entries c (log t) = returned t c ++ [(r, res)]
  | _ => entries c (log t) = returned t c
  end.

Definition serial (s : S) (t : task) : Prop :=
  outcomes dm_operations (map (fun e => e.1.2) (log t)) s = (map snd (log t), storage t).

Lemma asked_item p r it : asked p = Some (r, it) -> item_of p = Some it.
Proof. by destruct p; intros [= <- <-]. Qed.

Lemma owned_new s : owned (task_new s).
Proof.
  split; cbn; try done; (split; [constructor | intros it H; by apply elem_of_nil in H]).
Qed.

(** A caller moves on and has the same item as before, or none and had none. *)
Lemma owned_move t c p :
  owned t -> item_of p = item_of (callers t c) -> asked p = asked (callers t c) -> owned (with_caller c p t).
Proof.
  intros [H1 H2 H3 H4 H5 H6 H7] Ei Ea.
  assert (EI : forall c', item_of (<[c := p]> (callers t) c') = item_of (callers t c')).
  { intros c'. destruct (decide (c' = c)) as [-> | ?]; [by rewrite fn_lookup_insert | by rewrite fn_lookup_insert_ne]. }
  assert (EA : forall c', asked (<[c := p]> (callers t) c') = asked (callers t c')).
  { intros c'. destruct (decide (c' = c)) as [-> | ?]; [by rewrite fn_lookup_insert | by rewrite fn_lookup_insert_ne]. }
  split; cbn [with_caller callers g_free_q g_work_q g_worker params woken blocks]; setoid_rewrite EI || idtac; setoid_rewrite EA || idtac; done.
Qed.

Ltac fields := cbn [with_caller with_worker with_free with_work with_sema with_woken with_params with_exit with_freed with_result with_returned
  callers g_free_q g_work_q g_worker params results woken blocks freed touched storage log returned g_work_queued_sema running g_task_should_exit] in *.

(** Reads a caller that may be the one that has moved. *)
Ltac at_caller c' c := destruct (decide (c' = c)) as [->|]; [rewrite ?fn_lookup_insert in * | rewrite ?fn_lookup_insert_ne in * by done].

(** What the other callers have is not what a caller newly gets. *)
Lemma owned_get t c r it f n :
  owned t -> item_of (callers t c) = None ->
  (forall c', item_of (callers t c') <> Some it) -> (it.1 < n)%nat -> (blocks t <= n)%nat ->
  it ∉ q f -> NoDup (q f) -> (forall it', it' ∈ q f -> (it'.1 < n)%nat /\ (it' ∈ q (g_free_q t) \/ it'.1 = blocks t)) ->
  owned (with_caller c (Got r it) (with_free f n t)).
Proof.
  intros [H1 H2 H3 H4 H5 H6 H7] Hc Hne Hn Hb Hf HN HI.
  assert (Ha : forall c', asked (<[c := Got r it]> (callers t) c') = asked (callers t c')).
  { intros c'. at_caller c' c; [|done]. symmetry. destruct (asked (callers t c)) as [[r' it']|] eqn:E; [|done]. apply asked_item in E. congruence. }
  split; fields; setoid_rewrite Ha || idtac; try done.
  - intros c' it' E. at_caller c' c.
    + injection E as <-. done.
    + destruct (H1 c' it' E) as [Hlt Hfr]. split; [lia|]. intros Hin. destruct (HI it' Hin) as [_ [? | ?]]; [done | lia].
  - intros c1 c2 it' E1 E2. at_caller c1 c; at_caller c2 c; try done.
    + injection E1 as <-. by destruct (Hne c2).
    + injection E2 as <-. by destruct (Hne c1).
    + by apply (H2 c1 c2 it').
  - split; [done|]. intros it' Hin. by apply HI.
Qed.

Lemma fresh_block (b : nat) (l : list work_item) : fold_left (fun l i => (b, i) :: l) (seq 1 (k_work_item_allocation_chunk_size - 1)) l
  = ((fun i => (b, i)) <$> rev (seq 1 7)) ++ l.
Proof. done. Qed.

Lemma fresh_items (b : nat) (it : work_item) : it ∈ (fun i => (b, i)) <$> rev (seq 1 7) -> it.1 = b /\ it.2 <> 0%nat.
Proof.
  intros Hin. apply list_elem_of_fmap in Hin as (i & -> & Hi). split; [done|]. apply list_elem_of_In, in_rev, in_seq in Hi. cbn. lia.
Qed.

Lemma fresh_nodup (b : nat) : NoDup ((fun i => (b, i)) <$> rev (seq 1 7)).
Proof. apply NoDup_fmap_2; [by intros i j [=] | by apply (bool_decide_unpack _)]. Qed.

Lemma owned_take_free t c t' : owned t -> take_free c t = Some t' -> owned t'.
Proof.
  intros HO. pose proof HO as [H1 H2 [H3 H3'] H4 H5 H6 H7]. unfold take_free, dequeue. destruct (callers t c) as [|r|r|r it|r it|r it|r it res] eqn:E; try done.
  destruct (q (g_free_q t)) as [|it rest] eqn:EF; intros [= <-].
  - apply owned_move; [done | by rewrite E | by rewrite E].
  - inversion_clear H3 as [|? ? Hn HN]. apply owned_get; cbn [q]; try done.
    + by rewrite E.
    + intros c' Hc'. destruct (H1 c' it Hc') as [_ Hx]. apply Hx. by left.
    + apply H3'. by left.
    + intros it' Hin. split; [apply H3'; by right|]. left. rewrite EF. by right.
Qed.

Lemma owned_allocate t c m t' : owned t -> allocate c m t = Some t' -> owned t'.
Proof.
  intros HO. pose proof HO as [H1 H2 [H3 H3'] H4 H5 H6 H7]. unfold allocate. destruct (callers t c) as [|r|r|r it|r it|r it|r it res] eqn:E; try done.
  intros [= <-]. destruct m; [|apply owned_move; [done | by rewrite E | by rewrite E]].
  assert (Hold : forall it, it ∈ q (g_free_q t) -> it.1 <> blocks t) by (intros it Hin; specialize (H3' it Hin); lia).
  apply owned_get; cbn [q add_block grown fst]; rewrite ?fresh_block; try done; [by rewrite E | | lia | lia | | |].
  - intros c' Hc'. destruct (H1 c' _ Hc') as [Hx _]. cbn in Hx. lia.
  - rewrite elem_of_app. intros [Hin | Hin]; [by apply fresh_items in Hin as [_ ?] | by apply Hold in Hin].
  - apply list.NoDup_app. split_and!; [apply fresh_nodup | | done]. intros it Hin Hq. apply Hold in Hq. by apply fresh_items in Hin as [? _].
  - intros it Hin. apply elem_of_app in Hin as [Hin | Hin].
    + apply fresh_items in Hin as [? _]. split; [lia | by right].
    + specialize (H3' it Hin). split; [lia | by left].
Qed.

Lemma minus_not (X : gset work_item) it x : x ∉ X -> x ∉ X ∖ {[it]}.
Proof. by intros H [? _]%elem_of_difference. Qed.
Lemma minus_self (X : gset work_item) it : it ∉ X ∖ {[it]}.
Proof. intros [_ H]%elem_of_difference. by apply H, elem_of_singleton. Qed.
Lemma minus_in (X : gset work_item) it x : x ∈ X ∖ {[it]} -> x ∈ X /\ x <> it.
Proof. intros [? H]%elem_of_difference. split; [done|]. intros ->. by apply H, elem_of_singleton. Qed.

Lemma asked_only t c c' r it : owned t -> item_of (callers t c) = Some it -> asked (callers t c') = Some (r, it) -> c' = c.
Proof. intros HO H E. apply (o_one t HO _ _ it); [by apply asked_item in E | done]. Qed.

Lemma owned_enqueue t c t' : owned t -> enqueue c t = Some t' -> owned t'.
Proof.
  intros HO. unfold enqueue. destruct (callers t c) as [|r|r|r it|r it|r it|r it res] eqn:E; try done. intros [= <-].
  assert (Hno : forall c' r', asked (callers t c') <> Some (r', it)).
  { intros c' r' Ha. pose proof (asked_only t c c' r' it HO ltac:(by rewrite E) Ha) as ->. by rewrite E in Ha. }
  pose proof HO as [H1 H2 H3 [H4 H4'] H5 H6 H7].
  assert (Hi : forall c', item_of (<[c := Queued r it]> (callers t) c') = item_of (callers t c')) by (intros c'; at_caller c' c; by rewrite ?E).
  assert (Hk : forall c' x, asked (callers t c') = Some x -> asked (<[c := Queued r it]> (callers t) c') = Some x) by (intros c' x Hx; at_caller c' c; [by rewrite E in Hx | done]).
  split; fields; setoid_rewrite Hi || idtac; try done; cbn [add_last grown q].
  - split.
    + apply list.NoDup_app. split_and!; [done | | by apply NoDup_singleton]. intros it' Hin Hs. apply list_elem_of_singleton in Hs as ->.
      destruct (H4' it Hin) as (_ & c' & r' & Ha & _). by apply Hno in Ha.
    + intros it' Hin. apply elem_of_app in Hin as [Hin | Hin].
      * destruct (H4' it' Hin) as (Hw & c' & r' & Ha & Hp). split; [by apply minus_not|]. exists c', r'. split; [by apply Hk|].
        rewrite lookup_insert_ne; [done|]. intros <-. by apply Hno in Ha.
      * apply list_elem_of_singleton in Hin as ->. split; [apply minus_self|]. exists c, r. by rewrite fn_lookup_insert, lookup_insert_eq.
  - intros it' Hw. destruct (H5 it' Hw) as (Hn & Hwk & c' & r' & Ha & Hp). assert (it' <> it) by (intros ->; by apply Hno in Ha).
    split; [rewrite elem_of_app, list_elem_of_singleton; tauto|]. split; [by apply minus_not|]. exists c', r'. split; [by apply Hk | by rewrite lookup_insert_ne].
  - intros it' Hin. apply minus_in in Hin as [Hin _]. destruct (H6 it' Hin) as (c' & r' & Ha). exists c', r'. by apply Hk.
  - intros c' r' it' Ha. at_caller c' c.
    + injection Ha as <- <-. left. apply elem_of_app. right. by apply list_elem_of_singleton.
    + destruct (H7 c' r' it' Ha) as [? | [? | ?]]; [left; apply elem_of_app; by left | right; by left|]. right. right.
      apply elem_of_difference. split; [done|]. intros Hs. apply elem_of_singleton in Hs as ->. by apply Hno in Ha.
Qed.

Lemma owned_take_result t c t' : owned t -> take_result c t = Some t' -> owned t'.
Proof.
  intros HO. unfold take_result. destruct (callers t c) as [|r|r|r it|r it|r it|r it res] eqn:E; try done.
  destruct (decide (it ∈ woken t)) as [Hw|]; [|done]. destruct (results t !! it) as [res|]; [|done]. intros [= <-].
  pose proof HO as [H1 H2 H3 [H4 H4'] H5 H6 H7].
  assert (Hi : forall c', item_of (<[c := Answered r it res]> (callers t) c') = item_of (callers t c')) by (intros c'; at_caller c' c; by rewrite ?E).
  assert (Hk : forall c' r' it', it' <> it -> asked (callers t c') = Some (r', it') -> asked (<[c := Answered r it res]> (callers t) c') = Some (r', it')).
  { intros c' r' it' Hne Hx. at_caller c' c; [|done]. rewrite E in Hx. cbn in Hx. congruence. }
  split; fields; setoid_rewrite Hi || idtac; try done.
  - split; [done|]. intros it' Hin. destruct (H4' it' Hin) as (Hn & c' & r' & Ha & Hp). split; [by apply minus_not|]. exists c', r'. split; [|done].
    apply Hk; [by intros -> | done].
  - intros it' Hit. destruct (H5 it' Hit) as (Hn & Hwk & c' & r' & Ha & Hp). split; [done|]. split; [by apply minus_not|]. exists c', r'. split; [|done].
    apply Hk; [by intros -> | done].
  - intros it' Hin. apply minus_in in Hin as [Hin Hne]. destruct (H6 it' Hin) as (c' & r' & Ha). exists c', r'. by apply Hk.
  - intros c' r' it' Ha. at_caller c' c; [done|]. destruct (H7 c' r' it' Ha) as [? | [? | ?]]; [by left | right; by left|]. right. right.
    apply elem_of_difference. split; [done|]. intros Hs. apply elem_of_singleton in Hs as ->.
    by pose proof (asked_only t c c' r' it HO ltac:(by rewrite E) Ha).
Qed.

Lemma owned_give_back t c t' : owned t -> give_back c t = Some t' -> owned t'.
Proof.
  intros HO. unfold give_back. destruct (callers t c) as [|r|r|r it|r it|r it|r it res] eqn:E; try done. intros [= <-].
  pose proof HO as [H1 H2 [H3 H3'] H4 H5 H6 H7]. destruct (H1 c it ltac:(by rewrite E)) as [Hb Hf].
  assert (Ha : forall c', asked (<[c := Idle]> (callers t) c') = asked (callers t c')) by (intros c'; at_caller c' c; by rewrite ?E).
  split; fields; setoid_rewrite Ha || idtac; try done; cbn [add_first grown q].
  - intros c' it' Hit. at_caller c' c; [done|]. destruct (H1 c' it' Hit) as [? ?]. split; [done|]. intros Hin.
    apply elem_of_cons in Hin as [-> | ?]; [|done]. by pose proof (H2 c' c it Hit ltac:(by rewrite E)).
  - intros c1 c2 it' E1 E2. at_caller c1 c; [done|]. at_caller c2 c; [done|]. by apply (H2 c1 c2 it').
  - split; [by constructor|]. intros it' Hin. apply elem_of_cons in Hin as [-> | ?]; [done | by apply H3'].
Qed.

Lemma owned_work t t' : owned t -> work t = Some t' -> owned t'.
Proof.
  intros HO. pose proof HO as [H1 H2 [H3 H3'] [H4 H4'] H5 H6 H7]. unfold work, dequeue. destruct (g_worker t) as [| | |it|it| | |] eqn:E; try done.
  - intros [= <-]. split; fields; try done; destruct (g_task_should_exit t); try done; intros c r it Ha; by apply H7 in Ha.
  - destruct (_ <? _); [|done]. intros [= <-]. split; fields; try done. 
  - destruct (q (g_work_q t)) as [|it rest] eqn:EQ; intros [= <-].
    + split; fields; rewrite ?EQ; try done.
    + inversion_clear H4 as [|? ? Hn HN]. split; fields; cbn [q]; try done.
      * split; [done|]. intros it' Hin. apply H4'. by right.
      * intros it' [= <-]. split; [done|]. apply H4'. by left.
      * intros c r it' Ha. destruct (H7 c r it' Ha) as [Hin | [? | ?]]; [|done | by right; right].
        apply elem_of_cons in Hin as [-> | ?]; [right; by left | by left].
  - destruct (params t !! it) as [[c r]|]; [|done]. destruct (dm_operations r (storage t)) as [res s']. intros [= <-]. split; fields; try done.
  - intros [= <-]. destruct (H5 it eq_refl) as (Hn & Hw & c & r & Ha & Hp). split; fields; try done.
    + split; [done|]. intros it' Hin. destruct (H4' it' Hin) as (? & ?). split; [|done]. intros Hx. apply elem_of_union in Hx as [Hx | ?]; [|done].
      apply elem_of_singleton in Hx as ->. done.
    + intros it' Hin. apply elem_of_union in Hin as [Hx | ?]; [|by apply H6]. apply elem_of_singleton in Hx as ->. by exists c, r.
    + intros c' r' it' Ha'. destruct (H7 c' r' it' Ha') as [? | [[= ->] | ?]]; [by left | |]; right; right; apply elem_of_union; [left; by apply elem_of_singleton | by right].
  - intros [= <-]. destruct (g_task_should_exit t); split; fields; done.
  - destruct (q (g_free_q t)) as [|it rest] eqn:EQ; intros [= <-].
    + split; fields; rewrite ?EQ; try done.
    + inversion_clear H3 as [|? ? Hn HN]. split; fields; rewrite ?E; cbn [q]; try done.
      * intros c it' Hit. destruct (H1 c it' Hit) as [? Hx]. split; [done|]. intros Hin. apply Hx. by right.
      * split; [done|]. intros it' Hin. apply H3'. by right.
Qed.

Lemma owned_stop t t' : owned t -> stop t = Some t' -> owned t'.
Proof. unfold stop. intros [] H. destruct (running t); [|done]. injection H as <-. by split. Qed.

Lemma owned_step a t t' : owned t -> step a t = Some t' -> owned t'.
Proof.
  intros HO. destruct a as [c r | c | c m | c | c | c | c | |]; cbn [step].
  - unfold call. destruct (callers t c) eqn:E; try done. destruct (_ || _); intros [= <-]; [done|]. apply owned_move; [done | by rewrite E | by rewrite E].
  - by apply owned_take_free.
  - by apply owned_allocate.
  - by apply owned_enqueue.
  - unfold post_work. destruct (callers t c) eqn:E; try done. intros [= <-].
    assert (HO' : owned (with_sema (g_work_queued_sema t + 1) t)) by (destruct HO; by split).
    apply owned_move; [done | fields; by rewrite E | fields; by rewrite E].
  - by apply owned_take_result.
  - by apply owned_give_back.
  - by apply owned_work.
  - by apply owned_stop.
Qed.

(** * The log *)

Lemma entries_snoc c l c' r res : entries c (l ++ [(c', r, res)]) = entries c l ++ (if decide (c' = c) then [(r, res)] else []).
Proof. unfold entries. rewrite omap_app. cbn. by destruct (decide (c' = c)). Qed.

(** What does not change the answers of a caller. *)
Lemma answers_same c t t' :
  callers t' c = callers t c -> entries c (log t') = entries c (log t) -> returned t' c = returned t c ->
  (forall r it, asked (callers t c) = Some (r, it) -> (handled it t' <-> handled it t) /\ results t' !! it = results t !! it) ->
  answers_of c t -> answers_of c t'.
Proof.
  intros Ec El Er H. unfold answers_of. rewrite Ec, El, Er. destruct (callers t c) as [|r|r|r it|r it|r it|r it res]; try done;
    destruct (H r it eq_refl) as [Hh ->]; intros [[? ?] | [? ?]]; [left; tauto | right; tauto | left; tauto | right; tauto].
Qed.

Lemma not_handled t it : owned t -> it ∈ q (g_work_q t) \/ g_worker t = Handle it -> ~ handled it t.
Proof.
  intros HO [Hin | E] [Hw | Hw].
  - destruct (o_worker t HO it) as (Hn & _); [by rewrite Hw | done].
  - by destruct (proj2 (o_work t HO) it Hin) as [Hn _].
  - congruence.
  - by destruct (o_worker t HO it) as (_ & Hn & _); [rewrite E |].
Qed.

(** A move of the worker that wakes nobody. *)
Ltac still_handled := split; [|done]; unfold handled; fields; split; (intros [? | ?]; [congruence | by right]).

Lemma answers_work t t' : owned t -> work t = Some t' -> (forall c, answers_of c t) -> forall c, answers_of c t'.
Proof.
  intros HO HW HA c. specialize (HA c). unfold work, dequeue in HW. destruct (g_worker t) as [| | |it|it| | |] eqn:E; try done.
  - injection HW as <-. revert HA. apply answers_same; try done. intros r it _. destruct (g_task_should_exit t); still_handled.
  - destruct (_ <? _); [|done]. injection HW as <-. revert HA. apply answers_same; try done. intros r it _. still_handled.
  - destruct (q (g_work_q t)) as [|it rest]; injection HW as <-; revert HA; apply answers_same; try done;
      intros r it' _; still_handled.
  - destruct (o_worker t HO it ltac:(by rewrite E)) as (Hq & Hw & c0 & r0 & Ha & Hp). rewrite Hp in HW.
    destruct (dm_operations r0 (storage t)) as [res s']. injection HW as <-. destruct (decide (c = c0)) as [-> | Hne].
    + unfold answers_of in *. fields. assert (Hnh : ~ handled it t) by (apply not_handled; [done | by right]).
      destruct (callers t c0) as [|r|r|r it'|r it'|r it'|r it' res']; try done; injection Ha as -> ->;
        (destruct HA as [[? _] | [_ HA]]; [done|]); left; rewrite entries_snoc, decide_True by done;
        (split; [by left|]); exists res; by rewrite lookup_insert_eq, HA.
    + revert HA. apply answers_same; try done.
      * fields. rewrite entries_snoc, decide_False by done. apply app_nil_r.
      * intros r it' Ha'. assert (it' <> it) by (intros ->; apply Hne; apply (asked_only t c0 c r it HO); [by apply asked_item in Ha | done]).
        fields. rewrite lookup_insert_ne by done. split; [|done]. unfold handled. fields. rewrite E.
        split; (intros [? | ?]; [congruence | by right]).
  - injection HW as <-. revert HA. apply answers_same; try done. intros r it' _. split; [|done]. unfold handled. fields. rewrite E, elem_of_union, elem_of_singleton.
    split; [intros [? | [-> | ?]]; [done | by left | by right] | intros [[= ->] | ?]; [right; by left | right; by right]].
  - injection HW as <-. revert HA. destruct (g_task_should_exit t); apply answers_same; try done; intros r it _; still_handled.
  - destruct (q (g_free_q t)) as [|it rest]; injection HW as <-; revert HA; apply answers_same; try done; intros r it' _; still_handled.
Qed.

(** A caller moves on: the others are not concerned. *)
Lemma answers_others c c' p t : c' <> c -> answers_of c' t -> answers_of c' (with_caller c p t).
Proof. intros Hne. apply answers_same; try done. fields. by rewrite fn_lookup_insert_ne. Qed.

Lemma answers_step a t t' : owned t -> step a t = Some t' -> (forall c, answers_of c t) -> forall c, answers_of c t'.
Proof.
  intros HO HS HA. destruct a as [c r | c | c m | c | c | c | c | |]; cbn [step] in HS.
  - unfold call in HS. destruct (callers t c) eqn:E; try done. destruct (_ || _); injection HS as <-; [done|]. intros c'. specialize (HA c').
    destruct (decide (c' = c)) as [-> | ?]; [|by apply answers_others]. unfold answers_of in *. fields. by rewrite fn_lookup_insert, E in *.
  - unfold take_free, dequeue in HS. destruct (callers t c) eqn:E; try done. intros c'. specialize (HA c').
    destruct (q (g_free_q t)); injection HS as <-; (destruct (decide (c' = c)) as [-> | ?]; [|by apply answers_others]);
      unfold answers_of in *; fields; by rewrite fn_lookup_insert, E in *.
  - unfold allocate in HS. destruct (callers t c) eqn:E; try done. intros c'. specialize (HA c').
    destruct m; injection HS as <-; (destruct (decide (c' = c)) as [-> | ?]; [|by apply answers_others]);
      unfold answers_of in *; fields; by rewrite fn_lookup_insert, E in *.
  - unfold enqueue in HS. destruct (callers t c) as [|r|r|r it|r it|r it|r it res] eqn:E; try done. injection HS as <-.
    assert (Hno : forall c' r', asked (callers t c') <> Some (r', it)).
    { intros c' r' Ha. pose proof (asked_only t c c' r' it HO ltac:(by rewrite E) Ha) as ->. by rewrite E in Ha. }
    intros c'. specialize (HA c'). destruct (decide (c' = c)) as [-> | Hne].
    + unfold answers_of in *. fields. rewrite fn_lookup_insert. rewrite E in HA. right. split; [|done]. unfold handled. fields.
      intros [Hw | Hw]; [|by apply minus_self in Hw]. destruct (o_worker t HO it ltac:(by rewrite Hw)) as (_ & _ & c1 & r1 & Ha & _). by apply Hno in Ha.
    + apply answers_others; [done|]. revert HA. apply answers_same; try done. intros r' it' Ha. fields. split; [|done]. unfold handled. fields.
      assert (it' <> it) by (intros ->; by apply Hno in Ha). split; (intros [? | Hx]; [by left|]; right); [by apply minus_in in Hx as [? _]|].
      apply elem_of_difference. split; [done|]. by intros ->%elem_of_singleton.
  - unfold post_work in HS. destruct (callers t c) as [|r|r|r it|r it|r it|r it res] eqn:E; try done. injection HS as <-.
    intros c'. specialize (HA c'). destruct (decide (c' = c)) as [-> | ?]; [|by apply answers_others].
    unfold answers_of in *. fields. by rewrite fn_lookup_insert, E in *.
  - unfold take_result in HS. destruct (callers t c) as [|r|r|r it|r it|r it|r it res] eqn:E; try done.
    destruct (decide (it ∈ woken t)) as [Hw|]; [|done]. destruct (results t !! it) as [res|] eqn:ER; [|done]. injection HS as <-.
    intros c'. specialize (HA c'). destruct (decide (c' = c)) as [-> | Hne].
    + unfold answers_of in *. fields. rewrite fn_lookup_insert. rewrite E, ER in HA.
      destruct HA as [[_ (res' & [= <-] & HA)] | [Hn _]]; [done|]. destruct Hn. by right.
    + apply answers_others; [done|]. revert HA. apply answers_same; try done. intros r' it' Ha. split; [|done]. unfold handled. fields.
      assert (it' <> it) by (intros ->; apply Hne; by apply (asked_only t c c' r' it HO ltac:(by rewrite E))).
      split; (intros [? | Hx]; [by left|]; right); [by apply minus_in in Hx as [? _]|]. apply elem_of_difference. split; [done|]. by intros ->%elem_of_singleton.
  - unfold give_back in HS. destruct (callers t c) as [|r|r|r it|r it|r it|r it res] eqn:E; try done. injection HS as <-.
    intros c'. specialize (HA c'). destruct (decide (c' = c)) as [-> | Hne].
    + unfold answers_of in *. fields. rewrite E in HA. by rewrite !fn_lookup_insert.
    + apply answers_others; [done|]. revert HA. apply answers_same; try done. fields. by rewrite fn_lookup_insert_ne.
  - by apply (answers_work t).
  - unfold stop in HS. destruct (running t); [|done]. by injection HS as <-.
Qed.

Lemma outcomes_snoc s rs r : outcomes dm_operations (rs ++ [r]) s
  = (let '(xs, s) := outcomes dm_operations rs s in let '(x, s) := dm_operations r s in (xs ++ [x], s)).
Proof.
  revert s. induction rs as [|r0 rs IH]; intros s; cbn [outcomes app]; [by destruct (dm_operations r s)|].
  destruct (dm_operations r0 s) as [x0 s0]. rewrite IH. destruct (outcomes dm_operations rs s0) as [xs s1]. by destruct (dm_operations r s1).
Qed.

Lemma serial_step s a t t' : step a t = Some t' -> serial s t -> serial s t'.
Proof.
  intros HS. unfold serial. destruct a as [c r | c | c m | c | c | c | c | |]; cbn [step] in HS;
    unfold call, take_free, allocate, enqueue, post_work, take_result, give_back, stop in HS;
    try (by repeat case_match; simplify_eq).
  unfold work in HS. destruct (g_worker t) as [| | |it|it| | |]; try (by repeat case_match; simplify_eq).
  destruct (params t !! it) as [[c r]|]; [|done]. destruct (dm_operations r (storage t)) as [res s'] eqn:E. injection HS as <-. fields.
  intros H. rewrite !map_app. cbn [map fst snd]. by rewrite outcomes_snoc, H, E.
Qed.

(** * Reachable states *)

Lemma run_app acts acts' t : run (acts ++ acts') t = match run acts t with Some t' => run acts' t' | None => None end.
Proof.
  unfold run. rewrite fold_left_app. destruct (fold_left _ acts _); [done|]. by induction acts' as [|a acts' IH].
Qed.

Lemma run_invariant (P : task -> Prop) :
  (forall a t t', P t -> step a t = Some t' -> P t') -> forall acts t t', P t -> run acts t = Some t' -> P t'.
Proof.
  intros HP acts. induction acts as [|a acts IH] using rev_ind; intros t t' Ht HR; [by injection HR as <-|].
  rewrite run_app in HR. destruct (run acts t) as [t1|] eqn:E; [|done]. by apply (HP a t1); [apply (IH t)|].
Qed.

(** The worker is told of what waits in the queue. *)
Definition awake (w : worker) : Prop := match w with Top | Wait | Test_exit => False | _ => True end.
Definition leaving (w : worker) : bool := match w with Free_blocks | Gone => true | _ => false end.
Record told (t : task) : Prop := {
  td_sema : 0 <= g_work_queued_sema t;
  td_told : forall c r it, callers t c = Waiting r it -> it ∈ q (g_work_q t) -> awake (g_worker t) \/ 0 < g_work_queued_sema t;
  td_exit : leaving (g_worker t) = true -> g_task_should_exit t = true
}.

(** Callers that do not come to wait change nothing. *)
Lemma told_caller t c p : told t -> (forall r it, p <> Waiting r it) -> told (with_caller c p t).
Proof. intros [H1 H2 H3] Hp. split; fields; try done. intros c' r it E. at_caller c' c; [by apply Hp in E | by apply (H2 c' r)]. Qed.

Lemma told_work t t' : told t -> work t = Some t' -> told t'.
Proof.
  intros [H1 H2 H3]. unfold work, dequeue. destruct (g_worker t) as [| | |it|it| | |] eqn:E; try done.
  - intros [= <-]. split; fields; try done; destruct (g_task_should_exit t); try done. intros; by left.
  - destruct (Z.ltb_spec 0 (g_work_queued_sema t)); [|done]. intros [= <-]. split; fields; [lia | intros; by left | done].
  - destruct (q (g_work_q t)) as [|it rest] eqn:EQ; intros [= <-]; split; fields; try done; [|intros; by left].
    intros c r it _ Hin. rewrite EQ in Hin. by apply elem_of_nil in Hin.
  - destruct (params t !! it) as [[c r]|]; [|done]. destruct (dm_operations r (storage t)). intros [= <-]. split; fields; try done; intros; by left.
  - intros [= <-]. split; fields; try done; intros; by left.
  - intros [= <-]. destruct (g_task_should_exit t) eqn:EE; split; fields; try done; intros; by left.
  - destruct (q (g_free_q t)) as [|it rest]; intros [= <-]; split; fields; rewrite ?E; try done; intros; by left.
Qed.

Lemma told_step a t t' : owned t /\ told t -> step a t = Some t' -> owned t' /\ told t'.
Proof.
  intros [HO HT] HS. split; [by apply (owned_step a t)|]. destruct a as [c r | c | c m | c | c | c | c | |]; cbn [step] in HS.
  - unfold call in HS. destruct (callers t c); try done. destruct (_ || _); injection HS as <-; [done | by apply told_caller].
  - unfold take_free in HS. destruct (callers t c); try done. destruct (dequeue _) as [[it f]|]; injection HS as <-; apply told_caller; try done. by destruct HT; split.
  - unfold allocate in HS. destruct (callers t c); try done. destruct m; injection HS as <-; apply told_caller; try done. by destruct HT; split.
  - unfold enqueue in HS. destruct (callers t c) as [|r|r|r it|r it|r it|r it res] eqn:E; try done. injection HS as <-. apply told_caller; [|done].
    destruct HT as [H1 H2 H3]. split; fields; try done. intros c' r' it' Ew Hin. cbn [add_last grown q] in Hin.
    apply elem_of_app in Hin as [Hin | Hin%list_elem_of_singleton]; [by apply (H2 c' r' it')|]. subst it'. exfalso.
    pose proof (o_one t HO c' c it ltac:(by rewrite Ew) ltac:(by rewrite E)) as ->. congruence.
  - unfold post_work in HS. destruct (callers t c); try done. injection HS as <-. destruct HT as [H1 H2 H3]. split; fields; [lia | | done].
    intros. right. lia.
  - unfold take_result in HS. destruct (callers t c); try done. destruct (decide _); [|done]. destruct (results t !! it); [|done]. injection HS as <-.
    apply told_caller; [by destruct HT; split | done].
  - unfold give_back in HS. destruct (callers t c); try done. injection HS as <-. apply told_caller; [by destruct HT; split | done].
  - by apply (told_work t).
  - unfold stop in HS. destruct (running t); [|done]. injection HS as <-. destruct HT as [H1 H2 H3]. split; fields; [lia | | done]. intros. right. lia.
Qed.

Lemma told_new s : told (task_new s).
Proof. by split. Qed.

Lemma reachable_invariant s t : reachable s t -> owned t /\ told t.
Proof. intros [acts HR]. apply (run_invariant (fun t => owned t /\ told t) told_step acts _ _ (conj (owned_new s) (told_new s)) HR). Qed.

Lemma reachable_log s t : reachable s t -> serial s t /\ forall c, answers_of c t.
Proof.
  intros [acts HR]. enough (H : owned t /\ serial s t /\ forall c, answers_of c t) by apply H.
  apply (run_invariant (fun t => owned t /\ serial s t /\ forall c, answers_of c t)) with (acts := acts) (t := task_new s); [| |done].
  - intros a t1 t2 (HO & HS & HA) E. split_and!; [by apply (owned_step a t1) | by apply (serial_step s a t1) | by apply (answers_step a t1)].
  - split_and!; [apply owned_new | done | done].
Qed.

Lemma reachable_run s t acts t' : reachable s t -> run acts t = Some t' -> reachable s t'.
Proof. intros [acts0 H0] H. exists (acts0 ++ acts). by rewrite run_app, H0. Qed.

(** * Every call is answered *)

Lemma run_cons a acts t : run (a :: acts) t = match step a t with Some t' => run acts t' | None => None end.
Proof. by apply (run_app [a]). Qed.
Lemma run_nil t : run [] t = Some t.
Proof. done. Qed.

(** The steps of the worker. *)
Ltac one_work := cbn [replicate]; rewrite run_cons; cbn [step]; unfold work; fields.

(** The worker handles the head of the queue in three steps. *)
Lemma drain_one t it rest : owned t -> g_worker t = Drain -> q (g_work_q t) = it :: rest ->
  exists t', run [Work; Work; Work] t = Some t' /\ owned t' /\ g_worker t' = Drain /\ q (g_work_q t') = rest
    /\ it ∈ woken t'.
Proof.
  intros HO E EQ. destruct (proj2 (o_work t HO) it) as (_ & c & r & _ & Hp); [rewrite EQ; by left|].
  destruct (dm_operations r (storage t)) as [res s'] eqn:ED.
  assert (HR : exists t', run [Work; Work; Work] t = Some t' /\ g_worker t' = Drain /\ q (g_work_q t') = rest /\ it ∈ woken t').
  { one_work. rewrite E. unfold dequeue. rewrite EQ. one_work. rewrite Hp, ED. one_work. rewrite run_nil.
    eexists. split; [reflexivity|]. fields. cbn [q]. split_and!; [done | done|].
    apply elem_of_union. left. by apply elem_of_singleton. }
  destruct HR as (t' & HR & H1 & H2 & H3). exists t'. split_and!; try done. by apply (run_invariant owned owned_step [Work; Work; Work] t).
Qed.

Lemma drain_all l it rest : forall t, owned t -> g_worker t = Drain -> q (g_work_q t) = l ++ it :: rest ->
  exists n t', (n <= 3 * length (l ++ [it]))%nat /\ run (replicate n Work) t = Some t' /\ it ∈ woken t'.
Proof.
  induction l as [|x l IH]; intros t HO E EQ; cbn [app] in EQ.
  - destruct (drain_one t it rest HO E EQ) as (t' & HR & _ & _ & _ & Hw). exists 3%nat, t'. by split.
  - destruct (drain_one t x (l ++ it :: rest) HO E EQ) as (t1 & HR & HO1 & E1 & EQ1 & _).
    destruct (IH t1 HO1 E1 EQ1) as (n & t' & Hn & HR' & Hw). exists (3 + n)%nat, t'. cbn [length app]. split_and!; [lia | | done].
    rewrite replicate_add, run_app. change (replicate 3 Work) with [Work; Work; Work]. by rewrite HR.
Qed.

(** In three steps at most the worker empties the queue. *)
Lemma worker_comes t c r it : owned t -> told t -> g_task_should_exit t = false ->
  callers t c = Waiting r it -> it ∈ q (g_work_q t) ->
  exists n t', (n <= 3)%nat /\ run (replicate n Work) t = Some t' /\ g_worker t' = Drain /\ q (g_work_q t') = q (g_work_q t).
Proof.
  intros HO [H1 H2 H3] Hx Hc Hin. specialize (H2 c r it Hc Hin).
  destruct (g_worker t) as [| | |it'|it'| | |] eqn:E; cbn [awake leaving] in *;
    try (specialize (H3 eq_refl); congruence); try (destruct H2 as [H2 | H2]; [by destruct H2|]).
  - exists 2%nat. eexists. split; [lia|]. one_work. rewrite E, Hx. one_work. rewrite (proj2 (Z.ltb_lt _ _) H2), run_nil. by split_and!.
  - exists 1%nat. eexists. split; [lia|]. one_work. rewrite E, (proj2 (Z.ltb_lt _ _) H2), run_nil. by split_and!.
  - exists 0%nat, t. split; [lia|]. by split_and!.
  - destruct (o_worker t HO it' ltac:(by rewrite E)) as (_ & _ & c' & r' & _ & Hp). destruct (dm_operations r' (storage t)) as [res s'] eqn:ED.
    exists 2%nat. eexists. split; [lia|]. one_work. rewrite E, Hp, ED. one_work. rewrite run_nil. by split_and!.
  - exists 1%nat. eexists. split; [lia|]. one_work. rewrite E, run_nil. by split_and!.
  - exists 3%nat. eexists. split; [lia|]. one_work. rewrite E, Hx. one_work. rewrite Hx. one_work.
    rewrite (proj2 (Z.ltb_lt _ _) H2), run_nil. by split_and!.
Qed.

Lemma work_callers n : forall t t', run (replicate n Work) t = Some t' -> callers t' = callers t.
Proof.
  induction n as [|n IH]; intros t t' HR; [by injection HR as <-|]. change (replicate (Datatypes.S n) Work) with ([Work] ++ replicate n Work) in HR.
  rewrite run_app in HR. destruct (run [Work] t) as [t1|] eqn:E; [|done]. rewrite (IH t1 t' HR).
  cbn [run fold_left step] in E. unfold run in E. cbn [fold_left step] in E. unfold work in E. by repeat case_match; simplify_eq.
Qed.

(** C7: a call is answered.  In every reachable state of any interleaving, as long as
    the task has not been told to stop, the result of a caller that waits is there
    after at most three steps of the worker for each queued item and three more:
    no request is lost, no wake-up is missed and nobody starves. *)
Theorem call_answered (s : S) (t : task) (c : nat) (r : request) (it : work_item) :
  reachable s t -> g_task_should_exit t = false -> callers t c = Waiting r it ->
  exists n t', (n <= 3 * length (q (g_work_q t)) + 3)%nat /\ run (replicate n Work) t = Some t' /\ is_Some (take_result c t').
Proof.
  intros HR Hx Hc. destruct (reachable_invariant s t HR) as [HO HT].
  enough (H : exists n t', (n <= 3 * length (q (g_work_q t)) + 3)%nat /\ run (replicate n Work) t = Some t' /\ it ∈ woken t').
  { destruct H as (n & t' & Hn & HR' & Hw). exists n, t'. split_and!; [done | done|].
    destruct (reachable_log s t' (reachable_run s t _ t' HR HR')) as [_ HA]. specialize (HA c). unfold take_result, answers_of in *.
    rewrite (work_callers n t t' HR'), Hc in *. rewrite decide_True by done.
    destruct HA as [[_ (res & -> & _)] | [Hn' _]]; [done | by destruct Hn'; right]. }
  destruct (o_where t HO c r it ltac:(by rewrite Hc)) as [Hin | [Hw | Hw]].
  - destruct (worker_comes t c r it HO HT Hx Hc Hin) as (n1 & t1 & Hn1 & HR1 & E1 & EQ1). apply list_elem_of_split in Hin as (l & rest & EQ).
    destruct (drain_all l it rest t1) as (n2 & t2 & Hn2 & HR2 & Hw2); [by apply (run_invariant owned owned_step (replicate n1 Work) t) | done | congruence|].
    exists (n1 + n2)%nat, t2. rewrite EQ, replicate_add, run_app, HR1. rewrite length_app in *. cbn [length] in *. split_and!; [lia | done | done].
  - destruct (o_worker t HO it Hw) as (_ & _ & c' & r' & _ & Hp). destruct (g_worker t) as [| | |it'|it'| | |] eqn:E; try done; injection Hw as ->.
    + destruct (dm_operations r' (storage t)) as [res s'] eqn:ED. exists 2%nat. eexists. split; [lia|].
      one_work. rewrite E, Hp, ED. one_work. rewrite run_nil. split; [done|]. apply elem_of_union. left. by apply elem_of_singleton.
    + exists 1%nat. eexists. split; [lia|]. one_work. rewrite E, run_nil. split; [done|].
      apply elem_of_union. left. by apply elem_of_singleton.
  - exists 0%nat, t. by split; [lia|].
Qed.

End Task.

(** * Over the file *)

Lemma outcomes_requests {E E' S : Type} (f : E' -> S -> result * S) (g : E -> S -> result * S) (h : E -> E') es s :
  (forall e s, f (h e) s = g e s) -> outcomes f (map h es) s = outcomes g es s.
Proof.
  intros H. revert s. induction es as [|e es IH]; intros s; cbn [map outcomes]; [done|]. rewrite H. destruct (g e s) as [r s1]. by rewrite IH.
Qed.

(** C6: callers see a map.  Any number of threads call the data manager at any time
    over a file that holds a store, in any interleaving with the worker and with a
    stop, no system call failing: the results, in the order in which the worker
    handled the requests, are those of the map, the file holds the map, and each
    caller has been given the results of its own calls in their order, all but the
    last one at most. *)
Theorem callers_see_a_map (stack : nat -> Z) (f : file) (s : store) (t : task (S := file)) :
  ready f -> holds (contents f) s -> reachable (file_step stack) f t ->
  let requests := map (fun e => e.1.2) (log t) in
  let map_history := outcomes spec_step requests s in
  map snd (log t) = map_history.1 /\ holds (contents (storage t)) map_history.2
  /\ forall c, exists rest, entries c (log t) = returned t c ++ rest /\ (length rest <= 1)%nat.
Proof.
  intros Hr H HR. cbv zeta. destruct (reachable_log (file_step stack) f t HR) as [HS HA]. unfold serial in HS.
  destruct (outcomes_refine stack (map Request (map (fun e => e.1.2) (log t))) f s Hr H) as (E & _ & HH).
  rewrite (outcomes_requests (file_event stack) (file_step stack) Request) in E, HH by done.
  rewrite (outcomes_requests spec_event spec_step Request) in E, HH by done. rewrite HS in E, HH. split_and!; [done | done|].
  intros c. specialize (HA c). unfold answers_of in HA.
  destruct (callers t c) as [|r|r|r it|r it|r it|r it res]; try (exists []; rewrite app_nil_r; split; [done | cbn; lia]).
  - destruct HA as [[_ (res & _ & ->)] | [_ ->]]; [exists [(r, res)]; cbn; by split; [|lia] | exists []; rewrite app_nil_r; cbn; by split; [|lia]].
  - destruct HA as [[_ (res & _ & ->)] | [_ ->]]; [exists [(r, res)]; cbn; by split; [|lia] | exists []; rewrite app_nil_r; cbn; by split; [|lia]].
  - exists [(r, res)]. cbn. by split; [|lia].
Qed.

(** ** Examples *)

(** A call from beginning to end; the worker takes [n] steps before the result is
    fetched. *)
Definition whole_call (c : nat) (r : request) (n : nat) : list action :=
  [Call c r; Take_free c; Allocate c true; Enqueue c; Post_work c] ++ replicate n Work ++ [Take_result c; Give_back c].

Definition ram_task : task (S := ram) := task_new _ram_initialize.

(** A caller has passed the test when the task is told to stop: it waits for ever
    for a worker that has gone. *)
Lemma stop_strands_a_caller :
  let acts := [Call 1 (Clear DM_KEY_SAFE_POINTS); Take_free 1; Allocate 1 true; Stop] ++ replicate 11 Work ++ [Enqueue 1; Post_work 1] in
  match run ram_step acts ram_task with
  | Some t => g_worker t = Gone /\ step ram_step Work t = None /\ step ram_step (Take_result 1) t = None
              /\ callers t 1%nat = Waiting (Clear DM_KEY_SAFE_POINTS) (0, 0)%nat
  | None => False
  end.
Proof. by vm_compute. Qed.

(** The worker frees a block with the first item it finds of it and goes on to the
    others of the block in the free queue: after a single call every stop touches
    freed memory. *)
Lemma stop_uses_freed_memory :
  let acts := whole_call 1 (Clear DM_KEY_SAFE_POINTS) 5 ++ [Stop] ++ replicate 11 Work in
  match run ram_step acts ram_task with
  | Some t => g_worker t = Gone /\ touched t = true
  | None => False
  end.
Proof. by vm_compute. Qed.

(** Two callers at once, over a new file. *)
Definition boot_file : file := (file_boot (fun _ => 0) None no_file).2.
Lemma boot_file_ok : ready boot_file /\ holds (contents boot_file) (spec_boot None ∅).
Proof.
  destruct (file_boot_works (fun _ => 0) None no_file ∅ (conj eq_refl (conj eq_refl eq_refl))) as (f' & E & H).
  unfold boot_file. rewrite E. exact H.
Qed.
Definition two_callers : list action :=
  [Call 1 (Write DM_KEY_SAFE_POINTS 0 DM_PERSIST_POWER_ON_RESET [5; 6]); Call 2 (Read DM_KEY_SAFE_POINTS 0 24);
   Take_free 2; Take_free 1; Allocate 1 true; Enqueue 1; Work; Post_work 1; Allocate 2 true; Enqueue 2; Post_work 2]
  ++ replicate 9 Work ++ [Take_result 2; Give_back 2].

Lemma callers_see_a_map_witness :
  match run (file_step (fun _ => 0)) two_callers (task_new boot_file) with
  | Some t => map snd (log t) = [(2, []); (2, [5; 6])] /\ returned t 2%nat = [(Read DM_KEY_SAFE_POINTS 0 24, (2, [5; 6]))]
  | None => False
  end.
Proof.
  assert (HL : option_map (fun t => (map (fun e => e.1.2) (log t), returned t 2%nat)) (run (file_step (fun _ => 0)) two_callers (task_new boot_file))
    = Some ([Write DM_KEY_SAFE_POINTS 0 DM_PERSIST_POWER_ON_RESET [5; 6]; Read DM_KEY_SAFE_POINTS 0 24],
            [(Read DM_KEY_SAFE_POINTS 0 24, (2, [5; 6]))])) by (vm_compute; reflexivity).
  destruct (run (file_step (fun _ => 0)) two_callers (task_new boot_file)) as [t|] eqn:E; [|discriminate HL].
  injection HL as HL HR.
  pose proof (callers_see_a_map (fun _ => 0) boot_file (spec_boot None ∅) t (proj1 boot_file_ok) (proj2 boot_file_ok)
                (ex_intro _ two_callers E)) as (H1 & _ & _).
  split; [|exact HR]. rewrite H1, HL. by vm_compute.
Defined.

Lemma call_answered_witness :
  match run ram_step [Call 1 (Clear DM_KEY_SAFE_POINTS); Take_free 1; Allocate 1 true; Enqueue 1; Post_work 1] ram_task with
  | Some t => exists n t', (n <= 6)%nat /\ run ram_step (replicate n Work) t = Some t' /\ is_Some (take_result 1 t')
  | None => False
  end.
Proof.
  destruct (run ram_step _ ram_task) as [t|] eqn:E; [|vm_compute in E; discriminate E].
  assert (Hq : (q (g_work_q t), g_task_should_exit t, callers t 1%nat) = ([(0, 0)%nat], false, Waiting (Clear DM_KEY_SAFE_POINTS) (0, 0)%nat)).
  { apply (f_equal (fun x => match x with Some t => (q (g_work_q t), g_task_should_exit t, callers t 1%nat) | None => ([], true, Idle) end)) in E.
    vm_compute in E. symmetry. exact E. }
  injection Hq as Hq Hx Hc.
  destruct (call_answered ram_step _ram_initialize t 1 _ _ (ex_intro _ _ E) Hx Hc) as (n & t' & Hn & H1 & H2).
  exists n, t'. rewrite Hq in Hn. cbn in Hn. split_and!; [lia | done | done].
Defined.

(** ** Locks *)

(** A lock that is taken is refused until it is given back; who asks for it with
    [dm_lock] blocks. *)
Lemma lock_excludes (item : nat) (l l' : locks) :
  l !! item = Some 1 -> dm_lock true item l = Some (0, l') ->
  dm_trylock true item l' = (-1, l') /\ dm_lock true item l' = None /\ dm_unlock true item l' = l.
Proof.
  unfold dm_trylock, dm_lock, dm_unlock. cbn [negb]. intros Hl. rewrite Hl. destruct (_ <=? item)%nat; [intros [=]|].
  cbn. intros [= <-]. rewrite lookup_insert_eq. cbn. split_and!; [done | done|]. rewrite insert_insert_eq. by apply insert_id.
Qed.

(** Given back without being taken, it can be taken twice. *)
Lemma unlock_unheld :
  let l := dm_unlock true DM_KEY_FENCE_POINTS g_item_locks in
  let '(r1, l) := dm_trylock true DM_KEY_FENCE_POINTS l in
  let '(r2, _) := dm_trylock true DM_KEY_FENCE_POINTS l in (r1, r2) = (0, 0).
Proof. by vm_compute. Qed.
